(* ===== verification/_CoqProject ===== *)
-Q . S2P
Prelude.v
Text.v
Money.v
Json.v
Wallet.v
Intent.v
Policy.v
Ledger.v
Records.v
Store.v
LedgerStore.v
PaymentRules.v
Budget.v
PaymentStore.v
Program.v
Authorizer.v
Samples.v
IntentFlow.v
BudgetSafety.v
Lifecycle.v
ApprovalStore.v
ApprovalSafety.v
SigningStore.v
SigningSafety.v
OutboxStore.v
OutboxSafety.v
System.v
CatalogTables.v
WalletStore.v
CatalogStore.v
CatalogSafety.v
CatalogRuns.v
CatalogSamples.v
AuthorizerSafety.v
Sealing.v
GrantTokens.v
ApprovalService.v
ApprovalServiceSafety.v
SigningService.v
SigningServiceSafety.v
CanonicalJson.v
X402Sdk.v
X402Evm.v
X402Solana.v
X402Wire.v
SettlementFacts.v
X402.v
SettlementService.v
SettlementSamples.v
ChallengeSafety.v
VerificationSafety.v
SettlementSafety.v
Evidence.v
EvidenceSafety.v
EvmReceipts.v
ReceiptSafety.v
SolanaReceipts.v
Reconciler.v
ReconcilerSafety.v
ChainSafety.v
X402Safety.v
X402Samples.v
ReceiptSamples.v
MppSdk.v
Mpp.v
MppSafety.v
MppSamples.v
WalletKeys.v
CustodySafety.v
CustodySamples.v
Resources.v
ResourceSafety.v
ResourceSamples.v
Cache.v
CacheSafety.v
WalletImport.v
WalletImportSafety.v
WalletImportSamples.v
