(* ===== verification/Prelude.v ===== *)
(** * AgentVault verification library

    AgentVault is a payment middleware: agents ask it to pay, and it decides
    under client, scenario, policy and wallet authority whether they may,
    reserves budget, signs once, settles against a ledger fact and tells the
    outside world through an outbox.  This library models the part of the
    program that decides, remembers and moves money: the domain model
    ([src/src/model]), the transactional storage layer ([src/src/storage]) and
    the services and jobs above it ([src/src/payment], [src/src/job]), the x402
    and MPP adapters through which they speak to the outside
    ([src/src/protocol]), the chain receipts that prove a payment, the custody of wallet keys,
    and the imports that fill the catalog.

    ** How the program is put together

    A service calls a repository; a repository runs one database transaction.
    A transaction reads catalog rows (client, scenario, policy, wallet, key,
    price), checks the caller's guard against their current revisions, runs the
    pure rules of its component, and writes the payment tables: one intent row,
    an append-only event, ledger entries and outbox messages.  Everything that
    matters for money happens inside such a transaction, so a transaction is
    the unit of this model: a function [Tx DB A], made all-or-nothing by
    [transaction] (this file), one [step] of the relation of [System].

    A service runs several transactions, and between two of them other requests
    commit theirs.  [Program] models that: a service method is a value of
    [Prog], a tree of transactions and of failures, and [exec] runs it with any
    number of foreign [step]s between its own.  What a provider, a signer, a
    chain or a clock answers is an argument of the method, so a theorem about
    [exec] holds for every answer and every interleaving.  [exec_calls] also
    lists the states before and after each of the method's own transactions,
    so that a theorem can say which of them changed the database: what a fresh
    answer promises is stated of that transaction ([wrote_only]), a repeated
    one wrote nothing ([wrote_nothing]).

    A payment's life: [authorize] (outbound) or [record_challenge] (inbound)
    inserts the intent, with its whole amount reserved or with a pending
    approval; [decide_approval], [consume_and_reserve] and [expire_due] resolve
    the approval; [commit_signed] binds the single sealed credential;
    [verify_incoming] binds an inbound credential; [commit_progress] and
    [record_outbound_evidence] record what the outside reports;
    [commit_settlement] consumes or releases the reservation together with the
    ledger fact that justifies it; [claim_reconciliation] leases unresolved
    payments to one worker; [claim] and [run_once] deliver messages.

    ** Files

    Domain model, pure:
    - [Prelude]: errors and results ([src/src/utils/error.rs]), the
      transaction and the process monad, machine-width integers, the tactics
      [run_inv], [bool_inv] and [solve_read_only], the hint database [vault].
    - [Text], [Money], [Json], [Wallet], [Intent], [Policy], [Ledger],
      [Records]: one file per group of
      [src/src/model/{payment,wallet,policy,approval,event}.rs] and
      [src/src/model/domain].  [Policy] holds the policy engine
      ([PolicyEngine::evaluate]) and its exact specification; [Ledger] the
      posting keys; [Records] events, approvals, sealed envelopes, outbox
      messages and the text codecs of [src/src/utils/storage.rs].

    Storage, one transaction per operation:
    - [Store]: the tables of [src/migrations/sqlite/001_init.ddl.sql] as finite
      maps, their CHECK, UNIQUE and foreign-key constraints as guards of every
      insert and update, and the idempotent appends of
      [src/src/storage/{event,ledger,outbox}/sqlite.rs]; [LedgerStore] proves
      the appends.
    - [PaymentRules], [Budget], [PaymentStore]: [src/src/storage/payment]
      (mod.rs; authority.rs and budget.rs; mutations.rs, transactions.rs and
      reconciliation.rs).  [IntentFlow], [BudgetSafety] and [Lifecycle] prove
      what they guarantee.
    - [ApprovalStore], [ApprovalSafety]: [src/src/storage/approval].
    - [SigningStore], [SigningSafety]: [src/src/storage/signing].
    - [OutboxStore], [OutboxSafety]: the queue of
      [src/src/storage/outbox/sqlite.rs] and the dispatcher of
      [src/src/payment/outbox.rs].
    - [System]: all of it as one step relation, in which the catalog may change
      arbitrarily between two transactions.
    - [CatalogTables], [WalletStore], [CatalogStore]: the catalog's own tables
      and its administrative transactions ([src/src/storage/{client,scenario,
      approver,price,policy,wallet}] and the statements of
      [src/src/storage/query.rs] they use); [CatalogSafety] and [CatalogRuns]
      replace the arbitrary change of [System] by these transactions.

    Services, programs of transactions:
    - [Program]: the program monad, [exec] under interference, [catch], and the
      rules that turn a fact about every step into one about a program.
    - [Authorizer], [AuthorizerSafety]: [src/src/payment/authorization.rs] and
      [validation.rs], with the access checks of
      [src/src/handler/{client,scenario}.rs].
    - [Sealing]: the key ring of [src/src/utils/{secure_material,aead}.rs].
    - [GrantTokens], [ApprovalService], [ApprovalServiceSafety]:
      [src/src/payment/{approval_grant,approval}.rs], [src/src/job/approval.rs].
    - [SigningService], [SigningServiceSafety]: [src/src/payment/signing.rs].
    - [SettlementFacts], [SettlementService], with [ChallengeSafety],
      [VerificationSafety] and [SettlementSafety]:
      [src/src/payment/settlement/*.rs], the payee's challenge, verification,
      settlement and recovery.
    - [Evidence], [EvidenceSafety]: [src/src/payment/{evidence,recovery}.rs].
    - [Reconciler], [ReconcilerSafety]:
      [src/src/payment/{reconciliation_posting,reconciliation}.rs].
    - [CanonicalJson], [X402Sdk], [X402Evm], [X402Solana], [X402Wire], [X402],
      with [X402Safety]: [src/src/protocol/{x402,x402_wire,x402_evm,x402_solana,
      adapter,factory}.rs], the x402 adapter: challenges, wire headers,
      unsigned credentials, completion, verification and fingerprints.
    - [MppSdk], [Mpp], with [MppSafety]:
      [src/src/protocol/{mpp,mpp_wire,mpp_tempo}.rs], the MPP adapter for Tempo
      charges.
    - [EvmReceipts], [SolanaReceipts], with [ReceiptSafety]: the receipt
      registry and its sources, [src/src/payment/receipt/*.rs], and the
      JSON-RPC exchange of [src/src/utils/evm_client.rs]; [ChainSafety] composes
      them with the evidence router and the reconciliation worker.
    - [WalletKeys], [CustodySafety]: the key ring and the signer of
      [src/src/storage/wallet/key.rs] and [src/src/utils/crypto.rs], composed
      with the x402 adapter.
    - [Resources], [ResourceSafety]: the console import of declared clients,
      wallets, scenarios, policies, prices and approvers,
      [src/src/payment/resource/{mod,validation,apply}.rs] and
      [src/src/model/resource.rs], on the catalog and the custody.  The class
      [Importer] is what applying a batch relies on for each kind of resource.
    - [Cache], [CacheSafety]: the memory cache of
      [src/src/cache/{cache,memory}.rs]; the class [CacheLaws] is what its
      clients rely on.
    - [WalletImport], [WalletImportSafety]: the one-use import sessions of
      [src/src/payment/wallet_import.rs] and [src/src/model/wallet.rs], over a
      world of a cache and the database.
    - [Samples], [SettlementSamples], [CatalogSamples], [X402Samples],
      [ReceiptSamples], [MppSamples], [CustodySamples], [ResourceSamples],
      [WalletImportSamples]: a small configured vault, catalog, payee, wire,
      chain, custody and imports on which the hypotheses of the theorems are
      evaluated.

    ** How state and operations correspond

    A database is the record [DB], one [gmap] per table keyed by the primary
    key.  A Rust [struct] is a record whose fields carry a short prefix
    ([pi_amount] is [PaymentIntent::amount]); an [enum] is an inductive type
    with the same constructors.  An SQL statement is a function of the tables:
    a [SELECT] is [select] or [fetch_optional] with the statement's condition
    as a boolean, [ORDER BY] is [order_by] (ties kept in key order), an
    [INSERT] or [UPDATE] checks the declared constraints of the row it writes.
    Amounts are [u128] values, kept as [N] and range checked where the source
    uses checked arithmetic; timestamps are [i64] values, kept as [Z], with the
    source's saturating or checked operations.  Strings are their UTF-8 bytes.
    Error values keep the source's variant and message, except that a message
    the driver or a decoder composes is left out.

    Every transaction preserves the relation [flow] of [IntentFlow] (which rows
    may change, and how), which is reflexive and transitive; facts that must
    survive arbitrary later transactions are proved against [flow], not against
    the list of transactions.

    ** What the theorems show

    - Money is safe in every reachable database ([System]): a held
      reservation is for the whole payment; a consumed one has its ledger fact;
      events, ledger entries and intents are never removed; a delivered message
      stays delivered.
    - A reservation commits only within limits ([BudgetSafety],
      [ApprovalSafety]): after [authorize], [record_challenge] or
      [consume_and_reserve], the counted usage of the scenario and the wallet,
      this payment included, is within the limit in force.
    - Nothing happens twice: a repeated [authorize] is a replay that returns
      the stored run, a ledger fact is posted once under its key, a grant is
      consumed once, an approval is decided once, a payment is signed once and
      later calls return the first credential, evidence and inbound credentials
      bind once, leases are exclusive, a message is delivered by its holder,
      the provider is asked to settle by one operation only (an operation that
      asked is one whose answer depends on what the provider would have said,
      and two of them drew the same identity).
    - Every branch of the policy engine: [evaluate] allows, or requires
      approval, exactly under the stated conditions.
    - What a service answers is what the database holds, whatever ran in
      between, and a new answer was made by one transaction of its own; an error
      of a service has moved no money; a retry is answered.
    - Money is only settled on evidence: settlement and reconciliation consume
      a reservation only for confirmed evidence that matches the payment, and
      both post the same fact.
    - A payment made is settled by the chain ([ChainSafety], [ReceiptSafety],
      [SolanaReceipts]): a transfer is confirmed only if the configured chain
      reported exactly it, deep enough, in a canonical block; an authorization
      is given up only after every block of its window was searched, and the
      loop that cuts the window into requests ends.
    - The catalog, administered by its own transactions ([CatalogRuns]), keeps
      at most one active key per wallet and a key history that only grows, policies
      that agree on the budget unit of a shared wallet, and the wallet, policy
      and price of every payment.
    - Custody ([CustodySafety]): a key that a wallet is created with or
      rotated to is its active one and opens to that key, later key rings
      included, until it is retired, and the one it replaces never opens again;
      an envelope opens only for its wallet and version; and a payment signed by the vault's own signer is accepted by
      the payee's verifier.
    - A resource import ([ResourceSafety]) only adds: no stored record of the
      catalog changes, however it ends, but for a budget unit a wallet did not
      have; what it declared is stored when it succeeds, so drift is refused;
      and the same import again changes nothing.
    - An import session ([WalletImportSafety]) serves its owner, in time and
      once, and while the cache still has it hands the custody exactly the key
      that was encrypted under it; the cache stays within its bounds and evicts
      only the entry whose last use in the history of calls is the earliest
      ([CacheSafety]).
    - The x402 adapter agrees with itself and binds the payment: a challenge
      it built is parsed back to the offer it was built from, a credential it
      accepted authorizes the exact amount, asset and recipient, a credential
      it completed was signed by the payer and is accepted by its own verifier,
      and two credentials share a fingerprint only when they are one replay
      identity ([X402Safety]).  These are about EVM networks; payer and payee
      register the same assets, and the payer's timeout is at least the payee's
      and at most an hour.
    - The MPP adapter ([MppSafety]): an issued charge is authentic and a payer
      reads exactly its terms, the only transaction it lets a wallet sign pays
      the challenge and expires with it, and a payment made between two
      adapters is accepted.
    - Codecs: amounts, challenges and canonical recipients round trip or are
      idempotent; posting keys identify their fact up to a SHA-256 collision;
      sealed material opens under every later key ring that kept its version.

    ** Parameters

    Code outside the repository is a class argument of the definitions that
    use it, with what the source relies on as a class of laws beside it:
    [SolanaPubkey] (with [SolanaPubkeyText], the base58 form), [SolanaSignature], [Sha256], [UrlParser], [Aead],
    [Base64Url], [UuidNonce], [Jwt], [SecpKeys] and [SolanaKeys] (the curve
    libraries of the custody), [RsaOaep] (the transport encryption of imports), [EvmNode] and [RpcText] (the HTTP exchange with
    a node and the text of its envelope), [SolanaReference],
    [SolanaSignatureBytes] and the record [SolanaAnswers] (what the Solana RPC
    client returns), [JsonText] and [JsonParse] ([serde_json]),
    [X402Sdk] (the wire types and decoders of the official SDK), [MppSdk],
    [TempoSdk] and [TimeText] (the [mpp] crate, the Tempo transaction types and
    the text of a timestamp), [EvmCrypto]
    and [SolanaCrypto] (hashing, recovery and message decoding of the chain
    libraries), [Base64] and [DebugText] (the [Debug] form of a string).  The
    laws of a library are stated for the values the program passes to it: an
    address of the 0x form, a requirement or payload that its encoder accepted, a
    charge that the adapter built.  [SHA-256] is never assumed injective: a theorem
    that depends on it has the colliding pair as the other case.  Protocol
    adapters, settlement providers, the chain receipt source, the balance
    source, the wallet signer, the sink of the outbox, the RPC node a Solana
    transaction is prepared with, every clock reading, drawn nonce and drawn
    identity are arguments.  The samples instantiate them.

    ** Fuel

    [Text.show_digits] (decimal printing) and [EvmReceipts.show_hex_digits] have
    as fuel the bit length of the number plus one; [parse_show_unsigned] and
    [parse_show_hex] show that it suffices.  [EvmReceipts.log_ranges] has the 33
    passes that the 65536-block window allows in steps of 2000 blocks;
    [log_ranges_terminate] shows that they suffice for every window and that
    more passes change nothing.  Every other definition is structurally
    recursive and total.

    ** What is not modelled

    - The PostgreSQL adapters: the transaction bodies are shared by macro and
      modelled once, with SQLite's single writer as the order of steps; row and
      advisory locks are presence checks here.
    - Paged list queries: they decide nothing.
    - The reads of a budget snapshot are one read here; the source runs several
      statements, and the commit checks the budget again.
    - Ciphers and signatures, HTTP, gRPC and MQTT transports,
      configuration, process wiring and telemetry.
    - Reading the files and YAML documents of a resource import; the Redis
      cache; the facade [src/src/payment/api.rs] with the price resolver and the
      balance queries behind it.
    - Overflow of the SQL expression [updated_at + 1] in an administrative
      transaction, reachable only from a stored timestamp of the largest
      [i64]. *)

From Stdlib Require Export ZArith NArith Lia Bool String Ascii List.
From stdpp Require Export base gmap strings list fin_maps sets.
From stdpp Require Export tactics.

#[export] Set Default Goal Selector "!".

(** ** Notation *)

Declare Scope vault_scope.
Delimit Scope vault_scope with vault.

(** Decidable equality read as in the source: [x == y] is the boolean test. *)
Notation "x == y" := (bool_decide (x = y)) (at level 70, no associativity) : vault_scope.
Notation "x != y" := (negb (bool_decide (x = y))) (at level 70, no associativity) : vault_scope.

Open Scope vault_scope.

(** ** Errors and results *)

(** The service's error type.  The variants that wrap foreign error values
    (I/O and JSON errors, with their paths and sources) carry only their text. *)
Inductive Error : Type :=
| Config (message : string)
| InvalidKey (message : string)
| InvalidRequest (message : string)
| Unauthenticated
| Forbidden
| NotFound (message : string)
| PaymentConflict (message : string)
| PolicyDenied (message : string)
| InvalidTransition (message : string)
| PaymentProtocol (message : string)
| Settlement (message : string)
| StorageConflict (message : string)
| Storage (message : string)
| DependencyUnavailable (message : string)
| Crypto (message : string)
| ReadFile (path source : string)
| Io (source : string)
| Json (source : string).

#[export] Instance Error_eq_dec : EqDecision Error.
Proof. solve_decision. Defined.

(** [Error::conflict]. *)
Definition conflict (message : string) : Error := PaymentConflict message.

(** Rust's [Result], with the error type first. *)
Inductive Result (E A : Type) : Type :=
| Ok (a : A)
| Err (e : E).
Arguments Ok {E A} a.
Arguments Err {E A} e.

#[export] Instance Result_eq_dec {E A} `{EqDecision E, EqDecision A} : EqDecision (Result E A).
Proof. solve_decision. Defined.

Definition is_ok {E A} (r : Result E A) : bool :=
  match r with Ok _ => true | Err _ => false end.
Definition is_err {E A} (r : Result E A) : bool := negb (is_ok r).

Definition rbind {E A B} (r : Result E A) (k : A -> Result E B) : Result E B :=
  match r with Ok a => k a | Err e => Err e end.
Definition map_err {E F A} (f : E -> F) (r : Result E A) : Result F A :=
  match r with Ok a => Ok a | Err e => Err (f e) end.
Definition ok_or {E A} (o : option A) (e : E) : Result E A :=
  match o with Some a => Ok a | None => Err e end.

(** [if b { return Err(e) }] *)
Definition reject_if {E} (b : bool) (e : E) : Result E unit :=
  if b then Err e else Ok tt.

Notation "'let?' x ':=' c 'in' k" := (rbind c (fun x => k))
  (at level 10, x name, c at level 200, k at level 200) : vault_scope.
Notation "c ';?' k" := (rbind c (fun _ => k))
  (at level 199, k at level 200, right associativity) : vault_scope.

(** Left-to-right fallible iteration ([try_fold], [for ... { ...? }]). *)
Fixpoint rfold {E A B} (f : B -> A -> Result E B) (acc : B) (l : list A) : Result E B :=
  match l with
  | [] => Ok acc
  | a :: rest => let? acc' := f acc a in rfold f acc' rest
  end.

(** ** Transactions *)

(** A computation inside one database transaction: it reads and writes the
    state and may abort. *)
Definition Tx (S A : Type) : Type := S -> Result Error (A * S).

Definition tret {S A} (a : A) : Tx S A := fun s => Ok (a, s).
Definition tbind {S A B} (m : Tx S A) (k : A -> Tx S B) : Tx S B :=
  fun s => match m s with Ok (a, s') => k a s' | Err e => Err e end.
Definition tget {S} : Tx S S := fun s => Ok (s, s).
Definition tput {S} (s : S) : Tx S unit := fun _ => Ok (tt, s).
Definition tfail {S A} (e : Error) : Tx S A := fun _ => Err e.
(** Runs a pure fallible computation in a transaction. *)
Definition tlift {S A} (r : Result Error A) : Tx S A :=
  fun s => match r with Ok a => Ok (a, s) | Err e => Err e end.
(** Reads a projection of the state. *)
Definition treads {S A} (f : S -> A) : Tx S A := fun s => Ok (f s, s).

Notation "'let*' x ':=' c 'in' k" := (tbind c (fun x => k))
  (at level 10, x name, c at level 200, k at level 200) : vault_scope.
Notation "c ';*' k" := (tbind c (fun _ => k))
  (at level 199, k at level 200, right associativity) : vault_scope.

Fixpoint tfor {S A} (f : A -> Tx S unit) (l : list A) : Tx S unit :=
  match l with
  | [] => tret tt
  | a :: rest => f a ;* tfor f rest
  end.

(** [for a in l { out.push(f(a)?) }] *)
Fixpoint tmapM {S A B} (f : A -> Tx S B) (l : list A) : Tx S (list B) :=
  match l with
  | [] => tret []
  | a :: rest => let* b := f a in let* bs := tmapM f rest in tret (b :: bs)
  end.

(** [SqliteRepository::transaction]: commit the new state on success, roll
    back to the old state on error. *)
Definition transaction {S A} (m : Tx S A) (s : S) : Result Error A * S :=
  match m s with
  | Ok (a, s') => (Ok a, s')
  | Err e => (Err e, s)
  end.

(** ** Processes *)

(** A computation that runs several transactions one after the other: what
    an earlier one committed stays when a later one fails. *)
Definition Proc (S A : Type) : Type := S -> Result Error A * S.

Definition pret {S A} (a : A) : Proc S A := fun s => (Ok a, s).
Definition plift {S A} (r : Result Error A) : Proc S A := fun s => (r, s).
Definition pbind {S A B} (m : Proc S A) (k : A -> Proc S B) : Proc S B :=
  fun s => match m s with (Ok a, s') => k a s' | (Err e, s') => (Err e, s') end.

Notation "'let!' x ':=' c 'in' k" := (pbind c (fun x => k))
  (at level 10, x name, c at level 200, k at level 200) : vault_scope.
Notation "c ';!' k" := (pbind c (fun _ => k))
  (at level 199, k at level 200, right associativity) : vault_scope.

(** [for a in l { acc = f(acc, a)? }] *)
Fixpoint pfold {S A B} (f : B -> A -> Proc S B) (acc : B) (l : list A) : Proc S B :=
  match l with
  | [] => pret acc
  | a :: rest => let! acc' := f acc a in pfold f acc' rest
  end.

(** ** Machine integers *)

Definition U32_MAX : N := 4294967295.
Definition U64_MAX : N := 18446744073709551615.
Definition U128_MAX : N := 340282366920938463463374607431768211455.
Definition I64_MAX : Z := 9223372036854775807.
Definition I64_MIN : Z := -9223372036854775808.

Definition i64_in_range (z : Z) : bool := (I64_MIN <=? z)%Z && (z <=? I64_MAX)%Z.
Definition i64_clamp (z : Z) : Z :=
  if (z <? I64_MIN)%Z then I64_MIN else if (I64_MAX <? z)%Z then I64_MAX else z.

Definition i64_saturating_add (a b : Z) : Z := i64_clamp (a + b).
Definition i64_saturating_sub (a b : Z) : Z := i64_clamp (a - b).
Definition i64_saturating_mul (a b : Z) : Z := i64_clamp (a * b).
Definition i64_checked_add (a b : Z) : option Z :=
  if i64_in_range (a + b) then Some (a + b)%Z else None.

Definition u128_checked_add (a b : N) : option N :=
  if (a + b <=? U128_MAX)%N then Some (a + b)%N else None.
Definition u128_checked_sub (a b : N) : option N :=
  if (b <=? a)%N then Some (a - b)%N else None.
Definition u32_saturating_add (a b : N) : N := N.min U32_MAX (a + b).

(** ** Options *)

Definition is_some {A} (o : option A) : bool := match o with Some _ => true | None => false end.
Definition is_none {A} (o : option A) : bool := match o with Some _ => false | None => true end.
(** [Option::is_some_and] and [Option::is_none_or]. *)
Definition is_some_and {A} (f : A -> bool) (o : option A) : bool :=
  match o with Some a => f a | None => false end.
Definition is_none_or {A} (f : A -> bool) (o : option A) : bool :=
  match o with Some a => f a | None => true end.
Definition unwrap_or {A} (d : A) (o : option A) : A := match o with Some a => a | None => d end.

(** ** Inversion of successful runs *)

Section ResultLemmas.
Context {E F A B : Type}.

Lemma rbind_ok (r : Result E A) (k : A -> Result E B) b :
  rbind r k = Ok b <-> exists a, r = Ok a /\ k a = Ok b.
Proof. destruct r; simpl; naive_solver. Qed.

Lemma map_err_ok (f : E -> F) (r : Result E A) a :
  map_err f r = Ok a <-> r = Ok a.
Proof. destruct r; simpl; naive_solver. Qed.

Lemma ok_or_ok (o : option A) (e : E) a : ok_or o e = Ok a <-> o = Some a.
Proof. destruct o; simpl; naive_solver. Qed.

Lemma reject_if_ok (b : bool) (e : E) u : reject_if b e = Ok u <-> b = false.
Proof. destruct b, u; simpl; naive_solver. Qed.

Lemma is_ok_true (r : Result E A) : is_ok r = true <-> exists a, r = Ok a.
Proof. destruct r; simpl; naive_solver. Qed.

Lemma rfold_app (f : B -> A -> Result E B) acc l1 l2 :
  rfold f acc (l1 ++ l2) = rbind (rfold f acc l1) (fun acc' => rfold f acc' l2).
Proof.
  revert acc. induction l1 as [|a l1 IH]; intros acc; simpl; [done|].
  destruct (f acc a); simpl; auto.
Qed.
End ResultLemmas.

Section TxLemmas.
Context {S A B : Type}.

Lemma tbind_ok (m : Tx S A) (k : A -> Tx S B) s b s'' :
  tbind m k s = Ok (b, s'') <-> exists a s', m s = Ok (a, s') /\ k a s' = Ok (b, s'').
Proof. unfold tbind. destruct (m s) as [[a s']|e]; naive_solver. Qed.

(** Runs the first step of a computation whose result is known. *)
Lemma tbind_run (m : Tx S A) (k : A -> Tx S B) s a s' :
  m s = Ok (a, s') -> tbind m k s = k a s'.
Proof. unfold tbind. by intros ->. Qed.

Lemma tlift_ok (r : Result Error A) (s s' : S) a :
  tlift r s = Ok (a, s') <-> r = Ok a /\ s' = s.
Proof. destruct r; unfold tlift; naive_solver. Qed.

Lemma treads_ok (f : S -> A) (s s' : S) a :
  treads f s = Ok (a, s') <-> a = f s /\ s' = s.
Proof. unfold treads. naive_solver. Qed.

Lemma tret_ok (s s' : S) (a a' : A) : tret a s = Ok (a', s') <-> a' = a /\ s' = s.
Proof. unfold tret. naive_solver. Qed.

Lemma tput_ok (s s' s'' : S) u : tput s'' s = Ok (u, s') <-> s' = s''.
Proof. unfold tput. destruct u. naive_solver. Qed.

Lemma tget_ok (s s' a : S) : tget s = Ok (a, s') <-> a = s /\ s' = s.
Proof. unfold tget. naive_solver. Qed.

(** A transaction that fails leaves the state as it was, and one that
    succeeds commits exactly the state its body computed. *)
Lemma transaction_ok (m : Tx S A) s a s' :
  transaction m s = (Ok a, s') <-> m s = Ok (a, s').
Proof. unfold transaction. destruct (m s) as [[a' s1]|e]; naive_solver. Qed.

Lemma transaction_err (m : Tx S A) s e s' :
  transaction m s = (Err e, s') <-> m s = Err e /\ s' = s.
Proof. unfold transaction. destruct (m s) as [[a' s1]|e']; naive_solver. Qed.
End TxLemmas.

Section ProcLemmas.
Context {S A B : Type}.

Lemma pbind_ok (m : Proc S A) (k : A -> Proc S B) s b s'' :
  pbind m k s = (Ok b, s'') <-> exists a s', m s = (Ok a, s') /\ k a s' = (Ok b, s'').
Proof. unfold pbind. destruct (m s) as [[a|e] s']; naive_solver. Qed.

Lemma plift_ok (r : Result Error A) (s s' : S) a : plift r s = (Ok a, s') <-> r = Ok a /\ s' = s.
Proof. unfold plift. naive_solver. Qed.

Lemma pret_ok (s s' : S) (a a' : A) : pret a s = (Ok a', s') <-> a' = a /\ s' = s.
Proof. unfold pret. naive_solver. Qed.
End ProcLemmas.

(** A relation kept by every step of a process is kept by its loop, also when
    the loop stops with an error. *)
Lemma pfold_rel {S A B} (R : S -> S -> Prop) `{!Reflexive R, !Transitive R} (f : B -> A -> Proc S B) l acc s :
  (forall b a s1, a ∈ l -> R s1 (snd (f b a s1))) -> R s (snd (pfold f acc l s)).
Proof.
  revert acc s. induction l as [|a l IH]; intros acc s Hf; simpl; [done|].
  unfold pbind. pose proof (Hf acc a s ltac:(left)) as Ha. destruct (f acc a s) as [[b|e] s1]; simpl in *; [|done].
  etrans; [exact Ha|]. apply IH. intros b' a' s2 Ha'. apply Hf. by right.
Qed.

(** Preservation of a relation between the states before and after a loop. *)
Lemma tfor_rel {S A} (R : S -> S -> Prop) `{!Reflexive R, !Transitive R} (f : A -> Tx S unit) l s u s' :
  (forall a s1 s2, a ∈ l -> f a s1 = Ok (tt, s2) -> R s1 s2) ->
  tfor f l s = Ok (u, s') -> R s s'.
Proof.
  revert s. induction l as [|a l IH]; intros s Hf; simpl.
  - intros [_ ->]%tret_ok. reflexivity.
  - intros ([] & s1 & Ha & Hrest)%tbind_ok.
    transitivity s1; [eapply Hf; eauto; left|].
    eapply IH; eauto. intros; eapply Hf; eauto. by right.
Qed.

Lemma tfor_inv {S A} (P : S -> Prop) (f : A -> Tx S unit) l s u s' :
  (forall a s1 s2, a ∈ l -> P s1 -> f a s1 = Ok (tt, s2) -> P s2) ->
  tfor f l s = Ok (u, s') -> P s -> P s'.
Proof.
  revert s. induction l as [|a l IH]; intros s Hf; simpl.
  - by intros [_ ->]%tret_ok.
  - intros ([] & s1 & Ha & Hrest)%tbind_ok Hs.
    eapply IH; eauto.
    + intros; eapply Hf; eauto. by right.
    + eapply Hf; eauto. left.
Qed.

(** Computations that never change the state. *)
Class ReadOnly {S A} (m : Tx S A) : Prop :=
  read_only : forall s a s', m s = Ok (a, s') -> s' = s.

#[export] Instance tret_read_only {S A} (a : A) : ReadOnly (S := S) (tret a).
Proof. by intros s b s' [_ ->]%tret_ok. Qed.
#[export] Instance tlift_read_only {S A} (r : Result Error A) : ReadOnly (S := S) (tlift r).
Proof. by intros s b s' [_ ->]%tlift_ok. Qed.
#[export] Instance treads_read_only {S A} (f : S -> A) : ReadOnly (treads f).
Proof. by intros s b s' [_ ->]%treads_ok. Qed.
#[export] Instance tget_read_only {S} : ReadOnly (@tget S).
Proof. by intros s b s' [_ ->]%tget_ok. Qed.
#[export] Instance tfail_read_only {S A} (e : Error) : ReadOnly (S := S) (A := A) (tfail e).
Proof. by intros s b s'. Qed.
#[export] Instance tbind_read_only {S A B} (m : Tx S A) (k : A -> Tx S B) :
  ReadOnly m -> (forall a, ReadOnly (k a)) -> ReadOnly (tbind m k).
Proof. intros Hm Hk s b s' (a & s1 & H1 & H2)%tbind_ok. apply Hm in H1 as ->. by apply Hk in H2. Qed.

Ltac solve_read_only :=
  repeat first [ apply tbind_read_only; intros | apply _ | case_match ].

(** Takes apart hypotheses that say a monadic computation succeeded. *)
Ltac run_step :=
  match goal with
  | H : rbind _ _ = Ok _ |- _ => apply rbind_ok in H; destruct H as (? & ? & H)
  | H : tbind _ _ _ = Ok ?p |- _ =>
      is_var p; destruct p
  | H : tbind _ _ _ = Ok (_, _) |- _ => apply tbind_ok in H; destruct H as (? & ? & ? & H)
  | H : tlift _ _ = Ok (_, _) |- _ => apply tlift_ok in H; destruct H as [H ?]
  | H : treads _ _ = Ok (_, _) |- _ => apply treads_ok in H; destruct H as [? ?]
  | H : tret _ _ = Ok (_, _) |- _ => apply tret_ok in H; destruct H as [? ?]
  | H : tput _ _ = Ok (_, _) |- _ => apply tput_ok in H
  | H : tget _ = Ok (_, _) |- _ => apply tget_ok in H; destruct H as [? ?]
  | H : tfail _ _ = Ok _ |- _ => discriminate H
  | H : pbind _ _ _ = (Ok _, _) |- _ => apply pbind_ok in H; destruct H as (? & ? & ? & H)
  | H : plift _ _ = (Ok _, _) |- _ => apply plift_ok in H; destruct H as [H ?]
  | H : pret _ _ = (Ok _, _) |- _ => apply pret_ok in H; destruct H as [? ?]
  | H : transaction _ _ = (Ok _, _) |- _ => apply transaction_ok in H
  | H : map_err _ _ = Ok _ |- _ => apply map_err_ok in H
  | H : ok_or _ _ = Ok _ |- _ => apply ok_or_ok in H
  | H : reject_if _ _ = Ok _ |- _ => apply reject_if_ok in H
  | H : Ok _ = Ok _ |- _ => injection H; clear H; intros
  | H : Err _ = Ok _ |- _ => discriminate H
  | H : (_, _) = (_, _) |- _ => injection H; clear H; intros
  end.
Ltac run_inv := repeat (run_step; subst); subst.

(** Turns boolean guards into propositions. *)
Ltac bool_step :=
  match goal with
  | H : _ || _ = false |- _ => apply orb_false_iff in H; destruct H
  | H : _ && _ = true |- _ => apply andb_true_iff in H; destruct H
  | H : negb _ = false |- _ => apply negb_false_iff in H
  | H : negb _ = true |- _ => apply negb_true_iff in H
  | H : bool_decide _ = true |- _ => apply bool_decide_eq_true in H
  | H : bool_decide _ = false |- _ => apply bool_decide_eq_false in H
  | H : (_ <? _)%N = true |- _ => apply N.ltb_lt in H
  | H : (_ <? _)%N = false |- _ => apply N.ltb_ge in H
  | H : (_ <=? _)%N = true |- _ => apply N.leb_le in H
  | H : (_ <=? _)%N = false |- _ => apply N.leb_gt in H
  | H : (_ =? _)%N = true |- _ => apply N.eqb_eq in H
  | H : (_ =? _)%N = false |- _ => apply N.eqb_neq in H
  | H : (_ <? _)%Z = true |- _ => apply Z.ltb_lt in H
  | H : (_ <? _)%Z = false |- _ => apply Z.ltb_ge in H
  | H : (_ <=? _)%Z = true |- _ => apply Z.leb_le in H
  | H : (_ <=? _)%Z = false |- _ => apply Z.leb_gt in H
  end.
Ltac bool_inv := repeat bool_step.

(** ** Integers *)

Lemma u128_checked_add_Some a b c :
  u128_checked_add a b = Some c <-> c = (a + b)%N /\ (a + b <= U128_MAX)%N.
Proof. unfold u128_checked_add. destruct (N.leb_spec (a + b) U128_MAX); naive_solver lia. Qed.

Lemma u128_checked_add_None a b :
  u128_checked_add a b = None <-> (U128_MAX < a + b)%N.
Proof. unfold u128_checked_add. destruct (N.leb_spec (a + b) U128_MAX); naive_solver lia. Qed.

Lemma u128_checked_sub_Some a b c :
  u128_checked_sub a b = Some c <-> (b <= a)%N /\ c = (a - b)%N.
Proof. unfold u128_checked_sub. destruct (N.leb_spec b a); naive_solver lia. Qed.

Lemma i64_clamp_range z : (I64_MIN <= i64_clamp z <= I64_MAX)%Z.
Proof.
  unfold i64_clamp, I64_MIN, I64_MAX.
  repeat case_match; bool_inv; lia.
Qed.

Lemma i64_clamp_id z : (I64_MIN <= z <= I64_MAX)%Z -> i64_clamp z = z.
Proof. unfold i64_clamp. intros. repeat case_match; bool_inv; lia. Qed.

Lemma i64_clamp_mono x y : (x <= y)%Z -> (i64_clamp x <= i64_clamp y)%Z.
Proof. unfold i64_clamp, I64_MIN, I64_MAX. intros. repeat case_match; bool_inv; lia. Qed.

(** ** Hint databases *)

Create HintDb vault.
#[export] Hint Resolve i64_clamp_range : vault.
