(* ===== verification/Text.v ===== *)
(** * Text

    The string operations of the Rust standard library that the payment code
    uses, on the UTF-8 bytes of a string: [str::trim] with Unicode white
    space, ASCII case folding, character classes, prefixes and suffixes,
    control characters, the decimal codec of unsigned integers and the
    byte-wise order of strings. *)

From S2P Require Import Prelude.

#[local] Open Scope string_scope.
#[local] Open Scope vault_scope.

Definition byte_of (c : ascii) : N := N_of_ascii c.
Definition is_empty (s : string) : bool := match s with "" => true | _ => false end.
Definition str_len (s : string) : N := N.of_nat (String.length s).

Definition in_range (lo hi x : N) : bool := (lo <=? x)%N && (x <=? hi)%N.

Definition is_ascii_digit (c : ascii) : bool := in_range 48 57 (byte_of c).
Definition is_ascii_upper (c : ascii) : bool := in_range 65 90 (byte_of c).
Definition is_ascii_lower (c : ascii) : bool := in_range 97 122 (byte_of c).
Definition is_ascii_alphanumeric (c : ascii) : bool :=
  is_ascii_digit c || is_ascii_upper c || is_ascii_lower c.
Definition is_ascii_hexdigit (c : ascii) : bool :=
  is_ascii_digit c || in_range 65 70 (byte_of c) || in_range 97 102 (byte_of c).

Definition is_ascii_graphic (c : ascii) : bool := in_range 33 126 (byte_of c).

Definition ascii_lower (c : ascii) : ascii :=
  if is_ascii_upper c then ascii_of_N (byte_of c + 32) else c.

Fixpoint to_ascii_lowercase (s : string) : string :=
  match s with
  | "" => ""
  | String c rest => String (ascii_lower c) (to_ascii_lowercase rest)
  end.

(** [s.bytes().all(f)] *)
Fixpoint bytes_all (f : ascii -> bool) (s : string) : bool :=
  match s with
  | "" => true
  | String c rest => f c && bytes_all f rest
  end.

Fixpoint strip_prefix (p s : string) : option string :=
  match p, s with
  | "", _ => Some s
  | String a p', String b s' => if a == b then strip_prefix p' s' else None
  | String _ _, "" => None
  end.
Definition starts_with (p s : string) : bool := is_some (strip_prefix p s).

(** ** Unicode white space in UTF-8

    One byte: U+0009..U+000D, U+0020.  Two bytes: U+0085, U+00A0.  Three
    bytes: U+1680, U+2000..U+200A, U+2028, U+2029, U+202F, U+205F, U+3000. *)
Definition ws1 (a : ascii) : bool :=
  let x := byte_of a in in_range 9 13 x || (x =? 32)%N.
Definition ws2 (a b : ascii) : bool :=
  (byte_of a =? 194)%N && ((byte_of b =? 133)%N || (byte_of b =? 160)%N).
Definition ws3 (a b c : ascii) : bool :=
  let x := byte_of a in let y := byte_of b in let z := byte_of c in
  ((x =? 225) && (y =? 154) && (z =? 128))%N
  || ((x =? 226) && (y =? 128) && (in_range 128 138 z || (z =? 168) || (z =? 169) || (z =? 175)))%N
  || ((x =? 226) && (y =? 129) && (z =? 159))%N
  || ((x =? 227) && (y =? 128) && (z =? 128))%N.

Fixpoint trim_start (s : string) : string :=
  match s with
  | "" => ""
  | String a s1 =>
      if ws1 a then trim_start s1
      else match s1 with
           | "" => s
           | String b s2 =>
               if ws2 a b then trim_start s2
               else match s2 with
                    | "" => s
                    | String c s3 => if ws3 a b c then trim_start s3 else s
                    end
           end
  end.

(** The same scan over reversed bytes. *)
Fixpoint trim_start_rev (s : string) : string :=
  match s with
  | "" => ""
  | String a s1 =>
      if ws1 a then trim_start_rev s1
      else match s1 with
           | "" => s
           | String b s2 =>
               if ws2 b a then trim_start_rev s2
               else match s2 with
                    | "" => s
                    | String c s3 => if ws3 c b a then trim_start_rev s3 else s
                    end
           end
  end.

Definition trim_end (s : string) : string := String.rev (trim_start_rev (String.rev s)).
Definition trim (s : string) : string := trim_end (trim_start s).
(** [s.trim().is_empty()] *)
Definition blank (s : string) : bool := is_empty (trim s).

(** [s.chars().any(char::is_control)]: U+0000..U+001F and U+007F..U+009F. *)
Fixpoint has_control (s : string) : bool :=
  match s with
  | "" => false
  | String a rest =>
      let x := byte_of a in
      in_range 0 31 x || (x =? 127)%N
      || match rest with
         | String b _ => (x =? 194)%N && in_range 128 159 (byte_of b)
         | "" => false
         end
      || has_control rest
  end.

(** [std::str::from_utf8] accepts the bytes. *)
Definition utf8_continuation (c : ascii) : bool := in_range 128 191 (byte_of c).
Definition utf8_second (lead : N) (c : ascii) : bool :=
  if (lead =? 224)%N then in_range 160 191 (byte_of c)
  else if (lead =? 237)%N then in_range 128 159 (byte_of c)
  else if (lead =? 240)%N then in_range 144 191 (byte_of c)
  else if (lead =? 244)%N then in_range 128 143 (byte_of c)
  else utf8_continuation c.
Fixpoint utf8_valid (s : string) : bool :=
  match s with
  | "" => true
  | String a rest =>
      let x := byte_of a in
      if (x <? 128)%N then utf8_valid rest
      else match rest with
           | "" => false
           | String b rest1 =>
               if in_range 194 223 x then utf8_continuation b && utf8_valid rest1
               else match rest1 with
                    | "" => false
                    | String c rest2 =>
                        if in_range 224 239 x then utf8_second x b && utf8_continuation c && utf8_valid rest2
                        else match rest2 with
                             | "" => false
                             | String d rest3 => in_range 240 244 x && utf8_second x b && utf8_continuation c
                                                 && utf8_continuation d && utf8_valid rest3
                             end
                    end
           end
  end.

Definition strip_suffix (p s : string) : option string :=
  String.rev <$> strip_prefix (String.rev p) (String.rev s).

(** ** Unsigned decimal codec ([u128::from_str] and [Display]) *)

Definition digit_value (c : ascii) : option N :=
  if is_ascii_digit c then Some (byte_of c - 48)%N else None.
Definition digit_char (d : N) : ascii := ascii_of_N (48 + d).

(** Accumulates digits; every step is range checked as [from_str_radix] does. *)
Fixpoint parse_digits (max acc : N) (s : string) : option N :=
  match s with
  | "" => Some acc
  | String c rest =>
      match digit_value c with
      | Some d => if (10 * acc + d <=? max)%N then parse_digits max (10 * acc + d) rest else None
      | None => None
      end
  end.

(** A single leading [+] is accepted, an empty digit string is not. *)
Definition parse_unsigned (max : N) (s : string) : option N :=
  let body := match s with String c rest => if c == "+"%char then rest else s | "" => s end in
  if is_empty body then None else parse_digits max 0 body.

Fixpoint show_digits (fuel : nat) (n : N) (acc : string) : string :=
  match fuel with
  | O => acc
  | S fuel' =>
      let acc' := String (digit_char (n mod 10)) acc in
      if (n <? 10)%N then acc' else show_digits fuel' (n / 10) acc'
  end.
(** Every digit consumes at least one binary digit, so the binary size is
    enough fuel. *)
Definition show_unsigned (n : N) : string := show_digits (S (N.size_nat n)) n "".
(** [i64::to_string] *)
Definition show_i64 (z : Z) : string :=
  if (z <? 0)%Z then "-" ++ show_unsigned (Z.to_N (- z)) else show_unsigned (Z.to_N z).

(** ** URLs *)

(** What the code reads of a parsed URL. *)
Record Url : Type := {
  url_scheme : string;
  url_host_str : option string;
  url_username : string;
  url_password : option string;
  url_fragment : option string;
  url_origin_ascii : string
}.
(** [reqwest::Url::parse] *)
Class UrlParser : Type := { url_parse : string -> option Url }.

(** ** Byte-wise order *)

(** [Ord for str]. *)
Definition str_compare (a b : string) : comparison := String.compare a b.
Definition str_ltb (a b : string) : bool :=
  match str_compare a b with Lt => true | _ => false end.

(** ** Lemmas *)

Lemma ascii_lower_idem c : ascii_lower (ascii_lower c) = ascii_lower c.
Proof. destruct c as [[] [] [] [] [] [] [] []]; reflexivity. Qed.

Lemma ascii_lower_hexdigit c : is_ascii_hexdigit (ascii_lower c) = is_ascii_hexdigit c.
Proof. destruct c as [[] [] [] [] [] [] [] []]; reflexivity. Qed.

Lemma to_ascii_lowercase_idem s : to_ascii_lowercase (to_ascii_lowercase s) = to_ascii_lowercase s.
Proof. induction s as [|c s IH]; simpl; [done|]. by rewrite ascii_lower_idem, IH. Qed.

Lemma to_ascii_lowercase_length s : String.length (to_ascii_lowercase s) = String.length s.
Proof. induction s; simpl; congruence. Qed.

Lemma to_ascii_lowercase_hexdigits s :
  bytes_all is_ascii_hexdigit (to_ascii_lowercase s) = bytes_all is_ascii_hexdigit s.
Proof. induction s as [|c s IH]; simpl; [done|]. by rewrite ascii_lower_hexdigit, IH. Qed.

Lemma strip_prefix_app p s : strip_prefix p (p ++ s) = Some s.
Proof. induction p as [|c p IH]; simpl; [done|]. by rewrite bool_decide_true. Qed.

Lemma strip_prefix_Some p s t : strip_prefix p s = Some t <-> s = p ++ t.
Proof.
  revert s. induction p as [|c p IH]; intros s; [change ("" ++ t) with t; simpl; split; congruence|]. change (String c p ++ t) with (String c (p ++ t)); simpl.
  destruct s as [|c' s]; [split; discriminate|].
  case_bool_decide; [subst; rewrite IH|]; split; congruence.
Qed.

Lemma parse_digits_app max acc s t :
  parse_digits max acc (s ++ t) =
  match parse_digits max acc s with Some acc' => parse_digits max acc' t | None => None end.
Proof.
  revert acc. induction s as [|c s IH]; intros acc; simpl; [done|].
  destruct (digit_value c); [|done]. by case_match.
Qed.

Lemma digit_value_char d : (d < 10)%N -> digit_value (digit_char d) = Some d.
Proof.
  intros Hd.
  assert (d = 0 \/ d = 1 \/ d = 2 \/ d = 3 \/ d = 4 \/ d = 5 \/ d = 6 \/ d = 7 \/ d = 8 \/ d = 9)%N
    as Hcases by lia.
  by destruct_or! Hcases; subst d.
Qed.

Lemma digit_char_not_sign d : (d < 10)%N -> digit_char d <> "+"%char /\ digit_char d <> "-"%char.
Proof.
  intros Hd.
  assert (d = 0 \/ d = 1 \/ d = 2 \/ d = 3 \/ d = 4 \/ d = 5 \/ d = 6 \/ d = 7 \/ d = 8 \/ d = 9)%N
    as Hcases by lia.
  by destruct_or! Hcases; subst d.
Qed.

Lemma size_nat_log2 m : (0 < m)%N -> N.of_nat (N.size_nat m) = N.succ (N.log2 m).
Proof.
  intros Hm. rewrite <- N.size_log2 by lia.
  destruct m as [|p]; [lia|]. simpl. clear.
  induction p; simpl; try done; rewrite Nat2N.inj_succ, IHp; by destruct (Pos.size p).
Qed.

Lemma size_nat_div10 n : (10 <= n)%N -> (N.size_nat (n / 10) < N.size_nat n)%nat.
Proof.
  intros Hn.
  assert (0 < n / 10)%N by (apply N.div_str_pos; lia).
  assert (N.log2 (n / 10) < N.log2 n)%N.
  { apply N.log2_lt_pow2; [done|].
    pose proof (N.log2_spec n ltac:(lia)) as [_ Hup].
    rewrite N.pow_succ_r' in Hup.
    apply N.Div0.div_lt_upper_bound. lia. }
  pose proof (size_nat_log2 n). pose proof (size_nat_log2 (n / 10)%N). lia.
Qed.

(** Printing then parsing folds back to the number, whatever text follows. *)
Lemma parse_show_digits fuel n acc max :
  (n <= max)%N -> (N.size_nat n < fuel)%nat ->
  exists c rest, show_digits fuel n acc = String c rest /\ c <> "+"%char /\
  parse_digits max 0 (show_digits fuel n acc) = parse_digits max n acc.
Proof.
  revert n acc. induction fuel as [|fuel IH]; intros n acc Hmax Hfuel; [lia|]. simpl.
  pose proof (N.mod_lt n 10 ltac:(lia)) as Hmod.
  destruct (N.ltb_spec n 10) as [Hlt|Hge].
  - rewrite (N.mod_small n 10) by lia.
    exists (digit_char n), acc. split_and!; [done|by apply digit_char_not_sign|].
    simpl. rewrite digit_value_char by lia.
    by rewrite (proj2 (N.leb_le (10 * 0 + n) max)) by lia.
  - destruct (IH (n / 10)%N (String (digit_char (n mod 10)) acc)) as (c & rest & Hs & Hc & Hp).
    + pose proof (N.Div0.div_le_mono n n 10). pose proof (N.div_le_upper_bound n 10 n). lia.
    + pose proof (size_nat_div10 n Hge). lia.
    + exists c, rest. split_and!; [done|done|]. rewrite Hp. simpl.
      rewrite digit_value_char by done.
      pose proof (N.div_mod n 10 ltac:(lia)) as Hdm.
      rewrite (proj2 (N.leb_le _ max)) by lia.
      by replace (10 * (n / 10) + n mod 10)%N with n by lia.
Qed.

Lemma parse_show_unsigned max n :
  (n <= max)%N -> parse_unsigned max (show_unsigned n) = Some n.
Proof.
  intros Hmax. unfold parse_unsigned, show_unsigned.
  destruct (parse_show_digits (S (N.size_nat n)) n "" max) as (c & rest & Hs & Hc & Hp); [done|lia|].
  rewrite Hs in *. by rewrite bool_decide_false.
Qed.

Lemma show_unsigned_inj m n : show_unsigned m = show_unsigned n -> m = n.
Proof.
  intros Heq. pose proof (parse_show_unsigned (N.max m n) m ltac:(lia)) as Hm.
  rewrite Heq, parse_show_unsigned in Hm by lia. by injection Hm.
Qed.

Lemma show_digits_no_sign fuel n acc rest :
  acc <> String "-"%char rest -> show_digits fuel n acc <> String "-"%char rest.
Proof.
  revert n acc. induction fuel as [|fuel IH]; intros n acc Hacc; [done|]. simpl.
  assert (String (digit_char (n mod 10)) acc <> String "-"%char rest) as Hd.
  { intros [= Hc _]. destruct (digit_char_not_sign (n mod 10)) as [_ Hne]; [|done]. by apply N.mod_lt. }
  destruct (_ <? _)%N; auto.
Qed.

Lemma show_i64_inj x y : show_i64 x = show_i64 y -> x = y.
Proof.
  unfold show_i64. destruct (Z.ltb_spec x 0), (Z.ltb_spec y 0); intros Heq.
  - change ("-" ++ ?a) with (String "-"%char a) in Heq. injection Heq as Heq%show_unsigned_inj. lia.
  - symmetry in Heq. by apply show_digits_no_sign in Heq.
  - by apply show_digits_no_sign in Heq.
  - apply show_unsigned_inj in Heq. lia.
Qed.

Lemma parse_digits_bound max acc s n : (acc <= max)%N -> parse_digits max acc s = Some n -> (n <= max)%N.
Proof.
  revert acc. induction s as [|c s IH]; intros acc Hacc; simpl; [naive_solver|].
  destruct (digit_value c); [|done].
  case_match; [|done]. bool_inv. eauto.
Qed.

Lemma parse_unsigned_bound max s n : parse_unsigned max s = Some n -> (n <= max)%N.
Proof.
  unfold parse_unsigned. destruct (is_empty _); [done|].
  apply parse_digits_bound. lia.
Qed.

Lemma ascii_compare_N a b : Ascii.compare a b = (byte_of a ?= byte_of b)%N.
Proof. reflexivity. Qed.

Lemma byte_of_inj a b : byte_of a = byte_of b -> a = b.
Proof.
  unfold byte_of. intros H.
  by rewrite <- (ascii_N_embedding a), <- (ascii_N_embedding b), H.
Qed.

Lemma str_compare_refl s : str_compare s s = Eq.
Proof.
  unfold str_compare. induction s as [|c s IH]; simpl; [done|].
  by rewrite ascii_compare_N, N.compare_refl.
Qed.

Lemma str_compare_eq a b : str_compare a b = Eq <-> a = b.
Proof.
  split; [apply String.compare_eq_iff|intros ->; apply str_compare_refl].
Qed.

Lemma str_compare_antisym a b : str_compare a b = CompOpp (str_compare b a).
Proof. apply String.compare_antisym. Qed.

Lemma str_compare_trans a b c : str_compare a b = Lt -> str_compare b c = Lt -> str_compare a c = Lt.
Proof.
  unfold str_compare. revert b c.
  induction a as [|x a IH]; intros [|y b] [|z c]; simpl; try done.
  rewrite !ascii_compare_N.
  destruct (N.compare_spec (byte_of x) (byte_of y)) as [Hxy%byte_of_inj| |];
    destruct (N.compare_spec (byte_of y) (byte_of z)) as [Hyz%byte_of_inj| |]; try done; subst;
    match goal with |- context [(?p ?= ?q)%N] => destruct (N.compare_spec p q) end;
    try done; eauto; lia.
Qed.

(** ** Suffixes *)

Lemma str_app_assoc (a b c : string) : (a ++ b) ++ c = a ++ (b ++ c).
Proof. induction a as [|x a IH]; [done|]. change (String x ((a ++ b) ++ c) = String x (a ++ b ++ c)). by rewrite IH. Qed.
Lemma str_app_nil (a : string) : a ++ "" = a.
Proof. induction a as [|x a IH]; [done|]. change (String x (a ++ "") = String x a). by rewrite IH. Qed.

Lemma str_app_cons c (a b : string) : String c a ++ b = String c (a ++ b).
Proof. done. Qed.

Lemma bytes_all_app f s t : bytes_all f (s ++ t) = bytes_all f s && bytes_all f t.
Proof. induction s as [|c s IH]; [done|]. rewrite str_app_cons. cbn [bytes_all]. by rewrite IH, andb_assoc. Qed.

Lemma rev_app_spec s t : String.rev_app s t = String.rev s ++ t.
Proof.
  unfold String.rev. revert t. induction s as [|c s IH]; intros t; [done|]. simpl.
  rewrite IH, (IH (String c "")), str_app_assoc. done.
Qed.
Lemma str_rev_cons c s : String.rev (String c s) = String.rev s ++ String c "".
Proof. unfold String.rev at 1. simpl. apply rev_app_spec. Qed.
Lemma str_rev_app a b : String.rev (a ++ b) = String.rev b ++ String.rev a.
Proof.
  induction a as [|c a IH]; [by rewrite str_app_nil|].
  by rewrite str_app_cons, !str_rev_cons, IH, str_app_assoc.
Qed.
Lemma str_rev_involutive s : String.rev (String.rev s) = s.
Proof. induction s as [|c s IH]; [done|]. by rewrite str_rev_cons, str_rev_app, IH. Qed.

Lemma strip_suffix_Some p s t : strip_suffix p s = Some t <-> s = t ++ p.
Proof.
  unfold strip_suffix. rewrite fmap_Some. setoid_rewrite strip_prefix_Some. split.
  - intros (x & Hx & ->). rewrite <- (str_rev_involutive s), Hx, str_rev_app, str_rev_involutive. done.
  - intros ->. exists (String.rev t). by rewrite str_rev_app, str_rev_involutive.
Qed.
