(* ===== verification/Money.v ===== *)
(** * Money

    [src/src/model/payment.rs]: amounts in the smallest unit of an asset,
    asset identities, the budget unit that groups them, and the payment
    direction.  An amount is a [u128], here an [N] with every operation range
    checked against [U128_MAX]. *)

From S2P Require Import Prelude Text.

#[local] Open Scope string_scope.
#[local] Open Scope vault_scope.

Notation Amount := N (only parsing).
Definition amount_ok (a : Amount) : Prop := (a <= U128_MAX)%N.

Module Amount.
Definition ZERO : Amount := 0%N.
Definition is_zero (a : Amount) : bool := (a =? 0)%N.
Definition checked_add (a b : Amount) : option Amount := u128_checked_add a b.
Definition checked_sub (a b : Amount) : option Amount := u128_checked_sub a b.
(** [FromStr] and [Display], which serialization also uses. *)
Definition from_str (s : string) : option Amount := parse_unsigned U128_MAX s.
Definition to_string (a : Amount) : string := show_unsigned a.
End Amount.

Inductive PaymentDirection : Type := Inbound | Outbound.
#[export] Instance PaymentDirection_eq_dec : EqDecision PaymentDirection.
Proof. solve_decision. Defined.

Definition direction_as_str (d : PaymentDirection) : string :=
  match d with Inbound => "inbound" | Outbound => "outbound" end.

Record AssetIdentity : Type := {
  as_network : string;
  as_asset : string;
  as_token_contract : option string;
  as_decimals : N
}.
#[export] Instance AssetIdentity_eq_dec : EqDecision AssetIdentity.
Proof. solve_decision. Defined.

Record BudgetUnit : Type := {
  bu_asset : string;
  bu_decimals : N
}.
#[export] Instance BudgetUnit_eq_dec : EqDecision BudgetUnit.
Proof. solve_decision. Defined.

(** [BudgetUnit::validate] *)
Definition BudgetUnit_validate (u : BudgetUnit) : Result string unit :=
  reject_if (blank (bu_asset u)) "asset".

(** [BudgetUnit::matches] *)
Definition BudgetUnit_matches (u : BudgetUnit) (a : AssetIdentity) : bool :=
  (bu_asset u == as_asset a) && (bu_decimals u == as_decimals a).

(** [AssetIdentity::validate] *)
Definition AssetIdentity_validate (a : AssetIdentity) : Result string unit :=
  reject_if (blank (as_network a)) "network" ;?
  reject_if (blank (as_asset a)) "asset" ;?
  reject_if (is_some_and blank (as_token_contract a)) "token_contract".

(** [AssetIdentity::budget_unit] *)
Definition budget_unit (a : AssetIdentity) : BudgetUnit :=
  {| bu_asset := as_asset a; bu_decimals := as_decimals a |}.

(** ** Lemmas *)

Lemma BudgetUnit_matches_iff u a : BudgetUnit_matches u a = true <-> u = budget_unit a.
Proof.
  unfold BudgetUnit_matches, budget_unit. destruct u as [s d]; simpl.
  rewrite andb_true_iff, !bool_decide_eq_true. naive_solver.
Qed.

Lemma direction_as_str_inj d d' : direction_as_str d = direction_as_str d' -> d = d'.
Proof. by destruct d, d'. Qed.

Lemma amount_from_str_bound s a : Amount.from_str s = Some a -> amount_ok a.
Proof. apply parse_unsigned_bound. Qed.

Lemma amount_checked_add_ok a b c : Amount.checked_add a b = Some c -> amount_ok c /\ c = (a + b)%N.
Proof. unfold Amount.checked_add, amount_ok. rewrite u128_checked_add_Some. intros [-> ?]. done. Qed.

(** ** Properties *)

(** The decimal text of an amount reads back as the same amount, for every
    128-bit amount (JSON, SQL text columns and HTTP all carry amounts this way). *)
Lemma amount_display_from_str (a : Amount) :
  amount_ok a -> Amount.from_str (Amount.to_string a) = Some a.
Proof. apply parse_show_unsigned. Qed.
