(* ===== verification/Json.v ===== *)
(** * JSON values

    [serde_json::Value] as the payment code uses it: event payloads carry
    JSON objects that are built with [json!], searched with [get] and decoded
    with [from_value].  An object is its entries in key order without
    duplicates, so that equality of values, which ignores the order of the
    members, is equality of terms.  Numbers that are not integers
    are kept as their IEEE-754 bits. *)

From S2P Require Import Prelude Text.

#[local] Open Scope string_scope.
#[local] Open Scope vault_scope.

Inductive json : Type :=
| JNull
| JBool (b : bool)
| JNumber (z : Z)
| JFloat (bits : Z)
| JString (s : string)
| JArray (l : list json)
| JObject (m : list (string * json)).

Section JsonInd.
Variable P : json -> Prop.
Hypothesis HNull : P JNull.
Hypothesis HBool : forall b, P (JBool b).
Hypothesis HNumber : forall z, P (JNumber z).
Hypothesis HFloat : forall z, P (JFloat z).
Hypothesis HString : forall s, P (JString s).
Hypothesis HArray : forall l, Forall P l -> P (JArray l).
Hypothesis HObject : forall m, Forall (fun kv => P (snd kv)) m -> P (JObject m).

Fixpoint json_nested_ind (j : json) : P j :=
  match j with
  | JNull => HNull
  | JBool b => HBool b
  | JNumber z => HNumber z
  | JFloat z => HFloat z
  | JString s => HString s
  | JArray l => HArray l ((fix go l : Forall P l :=
      match l with
      | [] => Forall_nil_2 _
      | x :: r => Forall_cons_2 _ _ _ (json_nested_ind x) (go r)
      end) l)
  | JObject m => HObject m ((fix go m : Forall (fun kv => P (snd kv)) m :=
      match m with
      | [] => Forall_nil_2 _
      | kv :: r => Forall_cons_2 _ _ _ (json_nested_ind (snd kv)) (go r)
      end) m)
  end.
End JsonInd.

Fixpoint json_eqb (a b : json) : bool :=
  match a, b with
  | JNull, JNull => true
  | JBool x, JBool y => Bool.eqb x y
  | JNumber x, JNumber y => (x =? y)%Z
  | JFloat x, JFloat y => (x =? y)%Z
  | JString x, JString y => (x =? y)%string
  | JArray x, JArray y =>
      (fix go x y := match x, y with
        | [], [] => true
        | j :: x', k :: y' => json_eqb j k && go x' y'
        | _, _ => false
        end) x y
  | JObject x, JObject y =>
      (fix go x y := match x, y with
        | [], [] => true
        | (k, j) :: x', (k', j') :: y' => (k =? k')%string && json_eqb j j' && go x' y'
        | _, _ => false
        end) x y
  | _, _ => false
  end.

Lemma json_eqb_eq a b : json_eqb a b = true <-> a = b.
Proof.
  revert b. induction a as [| | | | |l IH|m IH] using json_nested_ind; intros [| | | | |l'|m']; simpl;
    try (split; congruence).
  - rewrite Bool.eqb_true_iff. split; congruence.
  - rewrite Z.eqb_eq. split; congruence.
  - rewrite Z.eqb_eq. split; congruence.
  - rewrite String.eqb_eq. split; congruence.
  - transitivity (l = l'); [|split; congruence].
    revert l'. induction IH as [|x l Hx _ IHl]; intros [|y l']; try (split; congruence).
    rewrite andb_true_iff, Hx, IHl. split; [intros [-> ->]; done|]. by injection 1.
  - transitivity (m = m'); [|split; congruence].
    revert m'. induction IH as [|[k x] m Hx _ IHm]; intros [|[k' y] m']; try (split; congruence).
    rewrite !andb_true_iff, String.eqb_eq, Hx, IHm. simpl.
    split; [intros [[-> ->] ->]; done|]. by injection 1.
Qed.

#[export] Instance json_eq_dec : EqDecision json.
Proof.
  intros a b. destruct (json_eqb a b) eqn:E.
  - left. by apply json_eqb_eq.
  - right. intros H%json_eqb_eq. congruence.
Defined.

(** ** Objects *)

(** Insertion into an ordered entry list, replacing an entry with the key. *)
Fixpoint entry_insert (k : string) (v : json) (m : list (string * json)) : list (string * json) :=
  match m with
  | [] => [(k, v)]
  | (k', v') :: rest =>
      match str_compare k k' with
      | Lt => (k, v) :: m
      | Eq => (k, v) :: rest
      | Gt => (k', v') :: entry_insert k v rest
      end
  end.

(** [json!({...})]: entries in source order, inserted one after the other. *)
Definition jobject (entries : list (string * json)) : json :=
  JObject (fold_left (fun m kv => entry_insert (fst kv) (snd kv) m) entries []).

Fixpoint entry_lookup (k : string) (m : list (string * json)) : option json :=
  match m with
  | [] => None
  | (k', v) :: rest => if k == k' then Some v else entry_lookup k rest
  end.

(** [Value::get] with a string index. *)
Definition jget (k : string) (j : json) : option json :=
  match j with JObject m => entry_lookup k m | _ => None end.
Definition as_str (j : json) : option string := match j with JString s => Some s | _ => None end.
Definition as_bool (j : json) : option bool := match j with JBool b => Some b | _ => None end.

(** [payload.get(k).and_then(Value::as_str)] *)
Definition jget_str (k : string) (j : json) : option string :=
  match jget k j with Some v => as_str v | None => None end.

Lemma entry_lookup_insert k v k' m :
  entry_lookup k (entry_insert k' v m) = if k == k' then Some v else entry_lookup k m.
Proof.
  induction m as [|[k0 v0] m IH]; simpl; [done|].
  destruct (str_compare k' k0) eqn:Hc; simpl.
  - apply str_compare_eq in Hc as ->. by case_bool_decide.
  - done.
  - rewrite IH. case_bool_decide as H1; [|done].
    case_bool_decide as H2; [|done]. subst. by rewrite str_compare_refl in Hc.
Qed.

Lemma entry_lookup_app k l m :
  entry_lookup k (l ++ m) = match entry_lookup k l with Some v => Some v | None => entry_lookup k m end.
Proof. induction l as [|[k' v] l IH]; simpl; [done|]. by case_bool_decide. Qed.

(** The last of the entries with a key counts. *)
Lemma jget_jobject k l : jget k (jobject l) = entry_lookup k (rev l).
Proof.
  unfold jobject. simpl. rewrite <- (app_nil_r (rev l)).
  generalize (@nil (string * json)) as m. induction l as [|[k' v] l IH]; intros m; simpl; [done|].
  rewrite IH, <- app_assoc, entry_lookup_app, entry_lookup_app. simpl. by rewrite entry_lookup_insert.
Qed.
