(* ===== verification/Wallet.v ===== *)
(** * Wallets and addresses

    [src/src/model/wallet.rs], [src/src/model/domain/wallet.rs] and the
    payment-facing wallet of [src/src/storage/wallet/mod.rs]: address
    canonicalization per algorithm and per network, recipient matching, wallet
    metadata validation and signing readiness.

    Solana public keys are parsed by a third-party crate: the class
    [SolanaPubkey] stands for it, and [SolanaPubkeyLaws] states that the text
    of a key parses back to that key. *)

From S2P Require Import Prelude Text Money.

#[local] Open Scope string_scope.
#[local] Open Scope vault_scope.

(** ** The Solana public-key codec (third party) *)

Class SolanaPubkey : Type := {
  Pubkey : Type;
  pubkey_from_str : string -> option Pubkey;
  pubkey_to_string : Pubkey -> string
}.

Class SolanaPubkeyLaws `{SolanaPubkey} : Prop := {
  pubkey_from_to : forall p, pubkey_from_str (pubkey_to_string p) = Some p
}.

(** ** Algorithms and networks *)

Definition EVM_EOA_ALGORITHM : string := "secp256k1".
Definition SOLANA_ED25519_ALGORITHM : string := "ed25519".

Inductive WalletSelectionStrategy : Type := LeastSpent | StableRandom.
#[export] Instance WalletSelectionStrategy_eq_dec : EqDecision WalletSelectionStrategy.
Proof. solve_decision. Defined.

Definition is_evm_wallet_algorithm (algorithm : string) : bool :=
  let a := to_ascii_lowercase algorithm in
  (a == EVM_EOA_ALGORITHM) || (a == "evm") || (a == "ethereum") || (a == "eip155").

Definition is_solana_wallet_algorithm (algorithm : string) : bool :=
  let a := to_ascii_lowercase algorithm in
  (a == SOLANA_ED25519_ALGORITHM) || (a == "solana").

Definition evm_address_body (address : string) : option string :=
  let stripped := match strip_prefix "0x" address with
                  | Some body => Some body
                  | None => strip_prefix "0X" address
                  end in
  match stripped with
  | Some encoded =>
      if (str_len encoded =? 40)%N && bytes_all is_ascii_hexdigit encoded then Some encoded else None
  | None => None
  end.

Definition is_evm_payment_network (network : string) : bool :=
  is_some_and (fun chain => negb (is_empty chain) && bytes_all is_ascii_digit chain)
              (strip_prefix "eip155:" network).

Definition is_solana_payment_network (network : string) : bool :=
  is_some_and (fun reference => negb (is_empty reference) && (str_len reference <=? 128)%N)
              (strip_prefix "solana:" network).

(** ** Stored wallets *)

Record Wallet : Type := {
  w_id : string;
  w_algorithm : string;
  w_address : string;
  w_public_key : string;
  w_created_at : Z
}.
#[export] Instance Wallet_eq_dec : EqDecision Wallet.
Proof. solve_decision. Defined.

Inductive WalletKeyStatus : Type := KeyActive | KeyRetired | KeyCompromised.
#[export] Instance WalletKeyStatus_eq_dec : EqDecision WalletKeyStatus.
Proof. solve_decision. Defined.

Inductive WalletCustody : Type := Local | External.
#[export] Instance WalletCustody_eq_dec : EqDecision WalletCustody.
Proof. solve_decision. Defined.

Record PaymentWallet : Type := {
  pw_wallet : Wallet;
  pw_custody : WalletCustody;
  pw_enabled : bool;
  pw_active_key_version : option N;
  pw_budget_unit : option BudgetUnit;
  pw_max_per_payment : option Amount;
  pw_max_per_day : option Amount;
  pw_updated_at : Z
}.
#[export] Instance PaymentWallet_eq_dec : EqDecision PaymentWallet.
Proof. solve_decision. Defined.

Record EncryptedWalletKeyVersion : Type := {
  k_wallet_id : string;
  k_version : N;
  k_algorithm : string;
  k_address : string;
  k_public_key : string;
  k_encryption_scheme : string;
  k_kek_id : string;
  k_wrapped_data_key : string;
  k_wrap_nonce : string;
  k_key_ciphertext : string;
  k_key_nonce : string;
  k_aad : string;
  k_status : WalletKeyStatus;
  k_activated_at : Z;
  k_retired_at : option Z;
  k_created_at : Z
}.
#[export] Instance EncryptedWalletKeyVersion_eq_dec : EqDecision EncryptedWalletKeyVersion.
Proof. solve_decision. Defined.

(** [PaymentWallet::validate_payment_metadata] *)
Definition validate_payment_metadata (w : PaymentWallet) : Result string unit :=
  reject_if (((pw_custody w == External) && is_some (pw_active_key_version w))
             || (pw_active_key_version w == Some 0%N)) "active_key_version" ;?
  match pw_budget_unit w with
  | Some unit => map_err (fun _ => "budget_unit") (BudgetUnit_validate unit)
  | None => reject_if (is_some (pw_max_per_payment w) || is_some (pw_max_per_day w)) "budget_unit"
  end ;?
  reject_if (is_some_and Amount.is_zero (pw_max_per_payment w)) "max_per_payment" ;?
  reject_if (is_some_and Amount.is_zero (pw_max_per_day w)
             || match pw_max_per_payment w, pw_max_per_day w with
                | Some per_payment, Some per_day => (per_day <? per_payment)%N
                | _, _ => false
                end) "max_per_day".

(** [PaymentWallet::signing_ready] *)
Definition signing_ready (w : PaymentWallet) : bool :=
  pw_enabled w && (pw_custody w == Local) && is_some (pw_active_key_version w).

Definition wallet_with_address (w : Wallet) (address : string) : Wallet :=
  {| w_id := w_id w; w_algorithm := w_algorithm w; w_address := address;
     w_public_key := w_public_key w; w_created_at := w_created_at w |}.
Definition payment_wallet_with (w : PaymentWallet) (inner : Wallet) : PaymentWallet :=
  {| pw_wallet := inner; pw_custody := pw_custody w; pw_enabled := pw_enabled w;
     pw_active_key_version := pw_active_key_version w; pw_budget_unit := pw_budget_unit w;
     pw_max_per_payment := pw_max_per_payment w; pw_max_per_day := pw_max_per_day w;
     pw_updated_at := pw_updated_at w |}.

Section Canonical.
Context `{SolanaPubkey}.

Definition canonical_solana_address (address : string) : option string :=
  pubkey_to_string <$> pubkey_from_str address.

Definition evm_canonical (encoded : string) : string := "0x" ++ to_ascii_lowercase encoded.

Definition canonicalize_wallet_address (algorithm address : string) : Result string string :=
  match evm_address_body address with
  | Some encoded => Ok (evm_canonical encoded)
  | None =>
      if is_evm_wallet_algorithm algorithm then Err "address"
      else if is_solana_wallet_algorithm algorithm
           then ok_or (canonical_solana_address address) "address"
           else Ok address
  end.

Definition canonicalize_payment_recipient (network address : string) : Result string string :=
  if is_evm_payment_network network
  then ok_or (evm_canonical <$> evm_address_body address) "address"
  else if is_solana_payment_network network
       then ok_or (canonical_solana_address address) "address"
       else Ok address.

Definition wallet_addresses_match (algorithm left right : string) : bool :=
  match canonicalize_wallet_address algorithm left, canonicalize_wallet_address algorithm right with
  | Ok l, Ok r => l == r
  | _, _ => false
  end.

Definition payment_recipients_match (network left right : string) : bool :=
  match canonicalize_payment_recipient network left, canonicalize_payment_recipient network right with
  | Ok l, Ok r => l == r
  | _, _ => false
  end.

(** [Wallet::canonicalized] and [Wallet::canonicalized_for_payment_network] *)
Definition Wallet_canonicalized (w : Wallet) : Result string Wallet :=
  let? address := canonicalize_wallet_address (w_algorithm w) (w_address w) in
  Ok (wallet_with_address w address).

Definition Wallet_canonicalized_for_payment_network (w : Wallet) (network : string) : Result string Wallet :=
  let? w1 := Wallet_canonicalized w in
  let? address := canonicalize_payment_recipient network (w_address w1) in
  Ok (wallet_with_address w1 address).

(** [PaymentWallet::canonicalized] *)
Definition PaymentWallet_canonicalized (w : PaymentWallet) : Result string PaymentWallet :=
  let? inner := Wallet_canonicalized (pw_wallet w) in
  let w' := payment_wallet_with w inner in
  validate_payment_metadata w' ;? Ok w'.

(** [PaymentWallet::canonicalized_for_payment_network] *)
Definition PaymentWallet_canonicalized_for_payment_network (w : PaymentWallet) (network : string)
  : Result string PaymentWallet :=
  let? inner := Wallet_canonicalized_for_payment_network (pw_wallet w) network in
  let w' := payment_wallet_with w inner in
  validate_payment_metadata w' ;? Ok w'.

(** [PaymentWallet::signing_ready_for_payment_network] *)
Definition signing_ready_for_payment_network (w : PaymentWallet) (network : string) : bool :=
  let compatible :=
    if is_evm_payment_network network then is_evm_wallet_algorithm (w_algorithm (pw_wallet w))
    else if is_solana_payment_network network then is_solana_wallet_algorithm (w_algorithm (pw_wallet w))
    else false in
  signing_ready w && compatible
  && is_ok (PaymentWallet_canonicalized_for_payment_network w network).

(** ** Lemmas *)

Lemma evm_address_body_canonical address encoded :
  evm_address_body address = Some encoded ->
  evm_address_body (evm_canonical encoded) = Some (to_ascii_lowercase encoded).
Proof.
  unfold evm_address_body, evm_canonical. rewrite strip_prefix_app.
  unfold str_len. rewrite to_ascii_lowercase_length, to_ascii_lowercase_hexdigits.
  destruct (strip_prefix "0x" address) as [body|]; [|destruct (strip_prefix "0X" address) as [body|]];
    [| |done]; (destruct (_ && _) eqn:Hg; [|done]); intros [= <-]; by rewrite Hg.
Qed.

Lemma evm_canonical_idem encoded :
  evm_canonical (to_ascii_lowercase encoded) = evm_canonical encoded.
Proof. unfold evm_canonical. by rewrite to_ascii_lowercase_idem. Qed.

Lemma canonical_solana_idem `{!SolanaPubkeyLaws} a b :
  canonical_solana_address a = Some b -> canonical_solana_address b = Some b.
Proof.
  unfold canonical_solana_address. rewrite fmap_Some. intros (p & _ & ->).
  by rewrite pubkey_from_to.
Qed.

Lemma payment_recipients_match_sym network a b :
  payment_recipients_match network a b = payment_recipients_match network b a.
Proof.
  unfold payment_recipients_match. repeat case_match; try done.
  apply bool_decide_ext. split; by intros ->.
Qed.

Lemma payment_recipients_match_iff network a b :
  payment_recipients_match network a b = true <->
  exists c, canonicalize_payment_recipient network a = Ok c /\ canonicalize_payment_recipient network b = Ok c.
Proof.
  unfold payment_recipients_match. repeat case_match; rewrite ?bool_decide_eq_true; naive_solver.
Qed.

(** ** Properties *)

(** Recipient canonicalization is idempotent on every network: a
    canonical recipient is accepted unchanged. *)
Lemma canonicalize_payment_recipient_idempotent `{!SolanaPubkeyLaws} network address canonical :
  canonicalize_payment_recipient network address = Ok canonical ->
  canonicalize_payment_recipient network canonical = Ok canonical.
Proof.
  unfold canonicalize_payment_recipient. repeat case_match; try done; rewrite !ok_or_ok.
  - rewrite fmap_Some. intros (encoded & Hb & ->).
    rewrite (evm_address_body_canonical _ _ Hb). simpl. by rewrite evm_canonical_idem.
  - apply canonical_solana_idem.
Qed.

(** Two recipients match on a network exactly when they have the same
    canonical form, so matching a recipient against an allow-list is
    transitive through the stored spelling. *)
Lemma payment_recipients_match_trans network a b c :
  payment_recipients_match network a b = true ->
  payment_recipients_match network b c = true ->
  payment_recipients_match network a c = true.
Proof.
  rewrite !payment_recipients_match_iff.
  intros (x & ? & Hx) (y & Hy & ?). exists y. split; congruence.
Qed.
End Canonical.

(** ** A concrete public-key codec, for evaluation

    Keys are their own text; only 32 to 44 character texts are keys. *)
Module SampleSolana.
Definition from_str (s : string) : option string :=
  if (32 <=? str_len s)%N && (str_len s <=? 44)%N then Some s else None.
Definition keys : Type := { s : string | from_str s = Some s }.
Definition parse (s : string) : option keys :=
  match from_str s as o return from_str s = o -> option keys with
  | Some t => fun H => match decide (t = s) with
                       | left E => Some (exist _ s (eq_trans H (f_equal Some E)))
                       | right _ => None
                       end
  | None => fun _ => None
  end eq_refl.
Definition codec : SolanaPubkey :=
  {| Pubkey := keys; pubkey_from_str := parse; pubkey_to_string := @proj1_sig _ _ |}.

Lemma laws : @SolanaPubkeyLaws codec.
Proof.
  constructor. intros [s Hs]. simpl. unfold parse.
  generalize (eq_refl (from_str s)). generalize (from_str s) at 2 3 as o.
  intros [t|] Ht; [|congruence].
  destruct (decide (t = s)) as [E|E]; [|congruence].
  do 2 f_equal. apply (proof_irrel _ _).
Qed.
End SampleSolana.

Definition sample_evm_network : string := "eip155:8453".
Definition sample_evm_address : string := "0xABCDEF0123456789abcdef0123456789ABCDEF01".
