(* ===== verification/Intent.v ===== *)
(** * Payment intents, challenges and credentials

    [src/src/model/domain/payment.rs] and the challenge, credential and replay
    types of [src/src/model/payment.rs], with the serde codec of a challenge
    (struct fields by name, unknown fields denied, amounts as decimal strings,
    absent options omitted) that the storage layer uses to keep the complete
    challenge in an event payload. *)

From S2P Require Import Prelude Text Money Json.

#[local] Open Scope string_scope.
#[local] Open Scope vault_scope.

Inductive PaymentStatus : Type :=
| Created | PendingApproval | Authorized | Signed | Submitted
| PendingSettlement | Settled | Failed | Expired | Unknown.
#[export] Instance PaymentStatus_eq_dec : EqDecision PaymentStatus.
Proof. solve_decision. Defined.

Definition status_as_str (s : PaymentStatus) : string :=
  match s with
  | Created => "created"
  | PendingApproval => "pending_approval"
  | Authorized => "authorized"
  | Signed => "signed"
  | Submitted => "submitted"
  | PendingSettlement => "pending_settlement"
  | Settled => "settled"
  | Failed => "failed"
  | Expired => "expired"
  | Unknown => "unknown"
  end.

Definition is_final (s : PaymentStatus) : bool :=
  match s with Settled | Failed | Expired => true | _ => false end.

Inductive ReservationStatus : Type := Unreserved | Reserved | Consumed | Released.
#[export] Instance ReservationStatus_eq_dec : EqDecision ReservationStatus.
Proof. solve_decision. Defined.

Definition reservation_as_str (s : ReservationStatus) : string :=
  match s with
  | Unreserved => "unreserved"
  | Reserved => "reserved"
  | Consumed => "consumed"
  | Released => "released"
  end.

Record PaymentIntent : Type := {
  pi_id : string;
  pi_scenario_id : string;
  pi_run_id : string;
  pi_wallet_id : option string;
  pi_policy_id : option string;
  pi_price_id : option string;
  pi_direction : PaymentDirection;
  pi_protocol : string;
  pi_asset : AssetIdentity;
  pi_recipient : string;
  pi_amount : Amount;
  pi_settled_amount : Amount;
  pi_resource : string;
  pi_challenge_hash : option string;
  pi_request_hash : string;
  pi_status : PaymentStatus;
  pi_reservation_status : ReservationStatus;
  pi_reserved_amount : Amount;
  pi_tx_hash : option string;
  pi_settlement_ref : option string;
  pi_next_reconcile_at : option Z;
  pi_created_at : Z;
  pi_updated_at : Z;
  pi_expires_at : option Z;
  pi_settled_at : option Z
}.
#[export] Instance PaymentIntent_eq_dec : EqDecision PaymentIntent.
Proof. solve_decision. Defined.

Inductive ReplayCheck : Type := Replay | Conflict.

(** [PaymentIntent::check_replay] *)
Definition check_replay (i : PaymentIntent) (request_hash : string) : ReplayCheck :=
  if pi_request_hash i == request_hash then Replay else Conflict.

(** [PaymentIntent::authority_ids]: the policy first, then the wallet. *)
Definition authority_ids (i : PaymentIntent) : Result string (string * string) :=
  let nonblank o := match o with Some v => if blank v then None else Some v | None => None end in
  let? policy_id := ok_or (nonblank (pi_policy_id i)) "policy_id" in
  let? wallet_id := ok_or (nonblank (pi_wallet_id i)) "wallet_id" in
  Ok (policy_id, wallet_id).

(** [PaymentIntent::same_immutable_identity_as] *)
Definition same_immutable_identity_as (a b : PaymentIntent) : bool :=
  (pi_id a == pi_id b)
  && (pi_scenario_id a == pi_scenario_id b)
  && (pi_run_id a == pi_run_id b)
  && (pi_wallet_id a == pi_wallet_id b)
  && (pi_policy_id a == pi_policy_id b)
  && (pi_price_id a == pi_price_id b)
  && (pi_direction a == pi_direction b)
  && (pi_protocol a == pi_protocol b)
  && (pi_asset a == pi_asset b)
  && (pi_recipient a == pi_recipient b)
  && (pi_amount a == pi_amount b)
  && (pi_resource a == pi_resource b)
  && (pi_challenge_hash a == pi_challenge_hash b)
  && (pi_request_hash a == pi_request_hash b)
  && (pi_created_at a == pi_created_at b)
  && (pi_expires_at a == pi_expires_at b).

(** [PaymentIntent::needs_reconciliation] *)
Definition needs_reconciliation (i : PaymentIntent) : bool :=
  match pi_status i with Signed | Submitted | PendingSettlement | Unknown => true | _ => false end.

(** [PaymentIntent::validate] *)
Definition PaymentIntent_validate (i : PaymentIntent) : Result string unit :=
  reject_if (blank (pi_id i)) "id" ;?
  reject_if (blank (pi_scenario_id i)) "scenario_id" ;?
  reject_if (blank (pi_run_id i)) "run_id" ;?
  authority_ids i ;?
  match pi_direction i with
  | Inbound => reject_if (is_none_or blank (pi_price_id i)) "price_id"
  | Outbound => reject_if (is_some (pi_price_id i)) "price_id"
  end ;?
  reject_if (blank (pi_protocol i)) "protocol" ;?
  AssetIdentity_validate (pi_asset i) ;?
  reject_if (blank (pi_recipient i)) "recipient" ;?
  reject_if (Amount.is_zero (pi_amount i)) "amount" ;?
  reject_if (blank (pi_request_hash i)) "request_hash" ;?
  reject_if (pi_amount i <? pi_settled_amount i)%N "settled_amount" ;?
  reject_if (pi_amount i <? pi_reserved_amount i)%N "reserved_amount" ;?
  reject_if ((pi_status i == Settled) && is_none (pi_settled_at i)) "settled_at".

(** ** Challenges and credentials *)

Record PaymentChallenge : Type := {
  ch_scenario_id : string;
  ch_price_id : option string;
  ch_resource : string;
  ch_protocol : string;
  ch_asset : AssetIdentity;
  ch_amount : Amount;
  ch_recipient : string;
  ch_nonce : string;
  ch_challenge_hash : string;
  ch_expires_at : Z;
  ch_payload : json
}.
#[export] Instance PaymentChallenge_eq_dec : EqDecision PaymentChallenge.
Proof. solve_decision. Defined.

Record PaymentCredential : Type := {
  cr_protocol : string;
  cr_challenge_hash : string;
  cr_credential_hash : string;
  cr_payload : json
}.
#[export] Instance PaymentCredential_eq_dec : EqDecision PaymentCredential.
Proof. solve_decision. Defined.

(** *** The serde codec *)

Definition opt_entry (k : string) (o : option string) : list (string * json) :=
  match o with Some v => [(k, JString v)] | None => [] end.

Definition asset_to_json (a : AssetIdentity) : json :=
  jobject ([("network", JString (as_network a)); ("asset", JString (as_asset a))]
           ++ opt_entry "token_contract" (as_token_contract a)
           ++ [("decimals", JNumber (Z.of_N (as_decimals a)))])%list.

Definition challenge_to_json (c : PaymentChallenge) : json :=
  jobject ([("scenario_id", JString (ch_scenario_id c))]
           ++ opt_entry "price_id" (ch_price_id c)
           ++ [("resource", JString (ch_resource c)); ("protocol", JString (ch_protocol c));
               ("asset", asset_to_json (ch_asset c)); ("amount", JString (Amount.to_string (ch_amount c)));
               ("recipient", JString (ch_recipient c)); ("nonce", JString (ch_nonce c));
               ("challenge_hash", JString (ch_challenge_hash c));
               ("expires_at", JNumber (ch_expires_at c)); ("payload", ch_payload c)])%list.

(** [deny_unknown_fields] *)
Definition known_fields (names : list string) (j : json) : bool :=
  match j with
  | JObject m => forallb (fun kv => bool_decide (fst kv ∈ names)) m
  | _ => false
  end.

(** An optional string field: absent and [null] are both [None]. *)
Definition opt_str_field (k : string) (j : json) : option (option string) :=
  match jget k j with
  | None | Some JNull => Some None
  | Some (JString s) => Some (Some s)
  | Some _ => None
  end.
Definition u8_field (k : string) (j : json) : option N :=
  match jget k j with
  | Some (JNumber z) => if (0 <=? z)%Z && (z <=? 255)%Z then Some (Z.to_N z) else None
  | _ => None
  end.
Definition i64_field (k : string) (j : json) : option Z :=
  match jget k j with
  | Some (JNumber z) => if i64_in_range z then Some z else None
  | _ => None
  end.

Definition asset_from_json (j : json) : option AssetIdentity :=
  if known_fields ["network"; "asset"; "token_contract"; "decimals"] j then
    network ← jget_str "network" j;
    asset ← jget_str "asset" j;
    token_contract ← opt_str_field "token_contract" j;
    decimals ← u8_field "decimals" j;
    Some {| as_network := network; as_asset := asset;
            as_token_contract := token_contract; as_decimals := decimals |}
  else None.

Definition challenge_from_json (j : json) : option PaymentChallenge :=
  if known_fields ["scenario_id"; "price_id"; "resource"; "protocol"; "asset"; "amount"; "recipient";
                   "nonce"; "challenge_hash"; "expires_at"; "payload"] j then
    scenario_id ← jget_str "scenario_id" j;
    price_id ← opt_str_field "price_id" j;
    resource ← jget_str "resource" j;
    protocol ← jget_str "protocol" j;
    asset_json ← jget "asset" j;
    asset ← asset_from_json asset_json;
    amount_text ← jget_str "amount" j;
    amount ← Amount.from_str amount_text;
    recipient ← jget_str "recipient" j;
    nonce ← jget_str "nonce" j;
    challenge_hash ← jget_str "challenge_hash" j;
    expires_at ← i64_field "expires_at" j;
    payload ← jget "payload" j;
    Some {| ch_scenario_id := scenario_id; ch_price_id := price_id; ch_resource := resource;
            ch_protocol := protocol; ch_asset := asset; ch_amount := amount; ch_recipient := recipient;
            ch_nonce := nonce; ch_challenge_hash := challenge_hash; ch_expires_at := expires_at;
            ch_payload := payload |}
  else None.

(** The values a challenge struct can hold: [u8] decimals, [u128] amount and
    [i64] expiry. *)
Definition challenge_ok (c : PaymentChallenge) : Prop :=
  (as_decimals (ch_asset c) <= 255)%N /\ amount_ok (ch_amount c)
  /\ (I64_MIN <= ch_expires_at c <= I64_MAX)%Z.

(** ** Lemmas *)

Lemma known_fields_insert names k v m :
  k ∈ names -> known_fields names (JObject m) = true -> known_fields names (JObject (entry_insert k v m)) = true.
Proof.
  intros Hk. induction m as [|[k' v'] m IH]; simpl.
  - intros _. by rewrite bool_decide_true.
  - rewrite andb_true_iff. intros [Hk' Hm].
    destruct (str_compare k k'); simpl; rewrite ?Hk', ?Hm; simpl; rewrite ?bool_decide_true by done; auto.
Qed.

Lemma known_fields_jobject names l :
  forallb (fun kv => bool_decide (fst kv ∈ names)) l = true -> known_fields names (jobject l) = true.
Proof.
  unfold jobject. assert (known_fields names (JObject []) = true) as Hm by done. revert Hm.
  generalize (@nil (string * json)) as m. induction l as [|[k v] l IH]; intros m Hm; simpl; [done|].
  rewrite andb_true_iff, bool_decide_eq_true. intros [Hk Hl]. apply IH; [|done]. by apply known_fields_insert.
Qed.

Lemma authority_ids_ok i p w :
  authority_ids i = Ok (p, w) -> pi_policy_id i = Some p /\ pi_wallet_id i = Some w.
Proof.
  unfold authority_ids. intros Hok. run_inv. repeat case_match; naive_solver.
Qed.

Lemma same_immutable_identity_spec a b :
  same_immutable_identity_as a b = true ->
  pi_id a = pi_id b /\ pi_scenario_id a = pi_scenario_id b /\ pi_run_id a = pi_run_id b
  /\ pi_wallet_id a = pi_wallet_id b /\ pi_policy_id a = pi_policy_id b /\ pi_price_id a = pi_price_id b
  /\ pi_direction a = pi_direction b /\ pi_protocol a = pi_protocol b /\ pi_asset a = pi_asset b
  /\ pi_recipient a = pi_recipient b /\ pi_amount a = pi_amount b /\ pi_resource a = pi_resource b
  /\ pi_challenge_hash a = pi_challenge_hash b /\ pi_request_hash a = pi_request_hash b
  /\ pi_created_at a = pi_created_at b /\ pi_expires_at a = pi_expires_at b.
Proof. unfold same_immutable_identity_as. intros H. bool_inv. by split_and!. Qed.

Lemma same_immutable_identity_refl a : same_immutable_identity_as a a = true.
Proof. unfold same_immutable_identity_as. by rewrite !bool_decide_true. Qed.

Lemma PaymentIntent_validate_spec i u :
  PaymentIntent_validate i = Ok u ->
  is_ok (authority_ids i) = true /\ (0 < pi_amount i)%N /\ (pi_settled_amount i <= pi_amount i)%N
  /\ (pi_reserved_amount i <= pi_amount i)%N /\ (pi_status i = Settled -> is_some (pi_settled_at i) = true)
  /\ match pi_direction i with
     | Inbound => is_some (pi_price_id i) = true
     | Outbound => pi_price_id i = None
     end.
Proof.
  unfold PaymentIntent_validate. intros Hok. run_inv.
  split_and!; try (bool_inv; lia).
  - by apply is_ok_true; eexists.
  - unfold Amount.is_zero in *. bool_inv. lia.
  - intros Hs. rewrite Hs in *. by destruct (pi_settled_at i).
  - destruct (pi_direction i); run_inv; by destruct (pi_price_id i).
Qed.

Lemma asset_json_roundtrip a : (as_decimals a <= 255)%N -> asset_from_json (asset_to_json a) = Some a.
Proof.
  intros Hd. destruct a as [n s [t|] d]; simpl in *;
    unfold asset_from_json, u8_field; vm_compute (known_fields _ _); simpl;
    rewrite (proj2 (Z.leb_le 0 _)), (proj2 (Z.leb_le _ 255)) by lia; simpl; by rewrite N2Z.id.
Qed.

(** ** Properties *)

Lemma challenge_from_to_json c :
  challenge_ok c -> challenge_from_json (challenge_to_json c) = Some c.
Proof.
  intros (Hd & Ha & He).
  pose proof (parse_show_unsigned U128_MAX _ Ha : Amount.from_str (Amount.to_string _) = _) as Hparse.
  destruct c as [sc [p|] re pr a am rc no ch ex pl]; simpl in *;
    unfold challenge_from_json, challenge_to_json; simpl;
    unfold challenge_from_json; vm_compute (known_fields _ _); simpl;
    rewrite asset_json_roundtrip by done; simpl;
    rewrite Hparse; simpl;
    unfold i64_field; simpl; unfold i64_in_range;
    by rewrite (proj2 (Z.leb_le I64_MIN _)), (proj2 (Z.leb_le _ I64_MAX)) by lia.
Qed.

(** A challenge stored as JSON in an event payload decodes to exactly the
    challenge that was stored. *)
Lemma challenge_json_roundtrip c :
  challenge_ok c -> challenge_from_json (challenge_to_json c) = Some c.
Proof. apply challenge_from_to_json. Qed.

Definition sample_asset : AssetIdentity :=
  {| as_network := "eip155:8453"; as_asset := "USDC";
     as_token_contract := Some "0x833589fcd6edb6e08f4c7c32d4f71b54bda02913"; as_decimals := 6 |}.

Definition sample_challenge : PaymentChallenge :=
  {| ch_scenario_id := "scenario-1"; ch_price_id := None; ch_resource := "https://api.example/feed";
     ch_protocol := "x402"; ch_asset := sample_asset; ch_amount := 250000;
     ch_recipient := "0xabcdef0123456789abcdef0123456789abcdef01"; ch_nonce := "n-1";
     ch_challenge_hash := "challenge-1"; ch_expires_at := 1700000600;
     ch_payload := jobject [("scheme", JString "exact")] |}.
