(* ===== verification/Policy.v ===== *)
(** * Catalog entities and policies

    [src/src/model/domain/{client,scenario,price,policy}.rs] and the policy
    engine of [src/src/model/policy.rs]: ownership entities, directional
    limits, policy scope predicates and the deterministic evaluation of one
    payment against one policy and one wallet. *)

From S2P Require Import Prelude Text Money Json Wallet Intent.

#[local] Open Scope string_scope.
#[local] Open Scope vault_scope.

(** ** Clients, scenarios, prices *)

Definition UNRESTRICTED_PRINCIPAL : string := "agentvault:internal:unrestricted".

Record PaymentClient : Type := {
  cl_id : string;
  cl_name : string;
  cl_auth_principal : string;
  cl_enabled : bool;
  cl_created_at : Z;
  cl_updated_at : Z
}.
#[export] Instance PaymentClient_eq_dec : EqDecision PaymentClient.
Proof. solve_decision. Defined.

(** [PaymentClient::authenticates] *)
Definition authenticates (c : PaymentClient) (principal : string) : bool :=
  cl_enabled c && negb (is_empty principal) && (cl_auth_principal c == principal).

(** [PaymentClient::validate] *)
Definition PaymentClient_validate (c : PaymentClient) : Result string unit :=
  reject_if (blank (cl_id c)) "id" ;?
  reject_if (blank (cl_name c)) "name" ;?
  reject_if (blank (cl_auth_principal c) || (cl_auth_principal c == UNRESTRICTED_PRINCIPAL)
             || has_control (cl_auth_principal c)) "auth_principal".

Record PaymentScenario : Type := {
  sc_id : string;
  sc_client_id : string;
  sc_name : string;
  sc_enabled : bool;
  sc_created_at : Z;
  sc_updated_at : Z
}.
#[export] Instance PaymentScenario_eq_dec : EqDecision PaymentScenario.
Proof. solve_decision. Defined.

Definition belongs_to (s : PaymentScenario) (client_id : string) : bool := sc_client_id s == client_id.

(** [PaymentScenario::validate] *)
Definition PaymentScenario_validate (s : PaymentScenario) : Result string unit :=
  reject_if (blank (sc_id s)) "id" ;?
  reject_if (blank (sc_client_id s)) "client_id" ;?
  reject_if (blank (sc_name s)) "name".

Record PaymentPrice : Type := {
  pr_id : string;
  pr_scenario_id : string;
  pr_policy_id : string;
  pr_resource : string;
  pr_protocols : list string;
  pr_asset : AssetIdentity;
  pr_amount : Amount;
  pr_wallet_id : string;
  pr_enabled : bool;
  pr_created_at : Z;
  pr_updated_at : Z
}.
#[export] Instance PaymentPrice_eq_dec : EqDecision PaymentPrice.
Proof. solve_decision. Defined.

(** [PaymentPrice::supports_protocol] *)
Definition supports_protocol (p : PaymentPrice) (protocol : string) : bool :=
  pr_enabled p && existsb (fun supported => supported == protocol) (pr_protocols p).

(** Some element occurs among the elements before it. *)
Fixpoint has_duplicate (seen l : list string) : bool :=
  match l with
  | [] => false
  | x :: rest => bool_decide (x ∈ seen) || has_duplicate (seen ++ [x]) rest
  end.

(** [PaymentPrice::validate] *)
Definition PaymentPrice_validate (p : PaymentPrice) : Result string unit :=
  reject_if (blank (pr_id p)) "id" ;?
  reject_if (blank (pr_scenario_id p)) "scenario_id" ;?
  reject_if (blank (pr_policy_id p)) "policy_id" ;?
  reject_if (blank (pr_resource p)) "resource" ;?
  reject_if (bool_decide (pr_protocols p = []) || existsb blank (pr_protocols p)
             || has_duplicate [] (pr_protocols p)) "protocols" ;?
  AssetIdentity_validate (pr_asset p) ;?
  reject_if (Amount.is_zero (pr_amount p)) "amount" ;?
  reject_if (blank (pr_wallet_id p)) "wallet_id".

(** ** Policies *)

Record PaymentPolicyLimits : Type := {
  pl_max_per_payment : Amount;
  pl_max_per_day : Amount;
  pl_approval_threshold : option Amount;
  pl_approval_enabled : bool;
  pl_approval_overage : option Amount
}.
#[export] Instance PaymentPolicyLimits_eq_dec : EqDecision PaymentPolicyLimits.
Proof. solve_decision. Defined.

(** [PaymentPolicyLimits::hard_daily_limit] *)
Definition hard_daily_limit (l : PaymentPolicyLimits) : option Amount :=
  Amount.checked_add (pl_max_per_day l) (unwrap_or Amount.ZERO (pl_approval_overage l)).

(** [PaymentPolicyLimits::requires_approval] *)
Definition limits_requires_approval (l : PaymentPolicyLimits) (amount : Amount) : bool :=
  pl_approval_enabled l
  && is_some_and (fun threshold => (threshold <=? amount)%N) (pl_approval_threshold l).

(** [PaymentPolicyLimits::validate] *)
Definition PaymentPolicyLimits_validate (l : PaymentPolicyLimits) : Result string unit :=
  reject_if (Amount.is_zero (pl_max_per_payment l)) "max_per_payment" ;?
  reject_if (Amount.is_zero (pl_max_per_day l) || (pl_max_per_day l <? pl_max_per_payment l)%N) "max_per_day" ;?
  reject_if (is_some_and Amount.is_zero (pl_approval_threshold l)) "approval_threshold" ;?
  reject_if (is_some_and Amount.is_zero (pl_approval_overage l)
             || (negb (pl_approval_enabled l) && is_some (pl_approval_overage l))
             || is_none (hard_daily_limit l)) "approval_overage".

Record PaymentPolicy : Type := {
  po_id : string;
  po_scenario_id : string;
  po_wallet_ids : list string;
  po_protocols : list string;
  po_networks : list string;
  po_assets : list AssetIdentity;
  po_budget_unit : BudgetUnit;
  po_allowed_recipients : list string;
  po_allowed_origins : list string;
  po_inbound_limits : option PaymentPolicyLimits;
  po_outbound_limits : option PaymentPolicyLimits;
  po_enabled : bool;
  po_created_at : Z;
  po_updated_at : Z
}.
#[export] Instance PaymentPolicy_eq_dec : EqDecision PaymentPolicy.
Proof. solve_decision. Defined.

(** [windows(2).any(|pair| pair[0] >= pair[1])] *)
Fixpoint unsorted (l : list string) : bool :=
  match l with
  | a :: (b :: _) as rest => negb (str_ltb a b) || unsorted rest
  | _ => false
  end.

Definition allows_wallet (p : PaymentPolicy) (wallet_id : string) : bool :=
  po_enabled p && existsb (fun allowed => allowed == wallet_id) (po_wallet_ids p).
Definition limits_for (p : PaymentPolicy) (d : PaymentDirection) : option PaymentPolicyLimits :=
  match d with Inbound => po_inbound_limits p | Outbound => po_outbound_limits p end.
Definition allows_direction (p : PaymentPolicy) (d : PaymentDirection) : bool :=
  po_enabled p && is_some (limits_for p d).
Definition allows_protocol (p : PaymentPolicy) (protocol : string) : bool :=
  po_enabled p && existsb (fun allowed => allowed == protocol) (po_protocols p).
Definition allows_asset (p : PaymentPolicy) (asset : AssetIdentity) : bool :=
  po_enabled p
  && existsb (fun network => network == as_network asset) (po_networks p)
  && existsb (fun allowed => allowed == asset) (po_assets p).
Definition allows_recipient (p : PaymentPolicy) (recipient : string) : bool :=
  po_enabled p && existsb (fun allowed => allowed == recipient) (po_allowed_recipients p).
Definition allows_origin (p : PaymentPolicy) (origin : string) : bool :=
  po_enabled p && existsb (fun allowed => allowed == origin) (po_allowed_origins p).
Definition requires_approval (p : PaymentPolicy) (d : PaymentDirection) (amount : Amount) : bool :=
  is_some_and (fun limits => limits_requires_approval limits amount) (limits_for p d).

(** [PaymentPolicy::validate] *)
Definition PaymentPolicy_validate (p : PaymentPolicy) : Result string unit :=
  reject_if (blank (po_id p)) "id" ;?
  reject_if (blank (po_scenario_id p)) "scenario_id" ;?
  reject_if (bool_decide (po_wallet_ids p = []) || existsb blank (po_wallet_ids p)
             || unsorted (po_wallet_ids p)) "wallet_ids" ;?
  reject_if (is_none (po_inbound_limits p) && is_none (po_outbound_limits p)) "direction_limits" ;?
  reject_if (is_some_and (fun l => is_err (PaymentPolicyLimits_validate l)) (po_inbound_limits p))
            "inbound_limits" ;?
  reject_if (is_some_and (fun l => is_err (PaymentPolicyLimits_validate l)) (po_outbound_limits p))
            "outbound_limits" ;?
  map_err (fun _ => "budget_unit") (BudgetUnit_validate (po_budget_unit p)) ;?
  reject_if (existsb (fun a => is_err (AssetIdentity_validate a)) (po_assets p)
             || existsb (fun a => negb (BudgetUnit_matches (po_budget_unit p) a)) (po_assets p)) "assets" ;?
  reject_if (existsb blank (po_protocols p)) "protocols" ;?
  reject_if (existsb blank (po_networks p)) "networks" ;?
  reject_if (existsb blank (po_allowed_recipients p)) "allowed_recipients" ;?
  reject_if (existsb blank (po_allowed_origins p)) "allowed_origins".

(** ** The policy engine *)

Record WalletBudget : Type := {
  wb_usage : Amount;
  wb_shared_across_scenarios : bool;
  wb_max_per_payment : option Amount;
  wb_max_per_day : option Amount
}.

Inductive PolicyDecision : Type :=
| Allowed
| RequiresApproval
| Denied (reason : string).
#[export] Instance PolicyDecision_eq_dec : EqDecision PolicyDecision.
Proof. solve_decision. Defined.

Record PolicyEvaluation : Type := {
  pe_direction : PaymentDirection;
  pe_challenge : PaymentChallenge;
  pe_wallet_id : string;
  pe_origin : string;
  pe_scenario_usage : Amount;
  pe_wallet_budget : WalletBudget;
  pe_now : Z
}.

(** [exceeds] *)
Definition exceeds (current requested limit : Amount) : bool :=
  is_none_or (fun total => (limit <? total)%N) (Amount.checked_add current requested).

Section Engine.
Context `{SolanaPubkey}.

(** [PaymentPolicy::allows_payment_recipient] *)
Definition allows_payment_recipient (p : PaymentPolicy) (network recipient : string) : bool :=
  po_enabled p
  && existsb (fun allowed => payment_recipients_match network allowed recipient) (po_allowed_recipients p).

(** [PolicyEngine::evaluate] *)
Definition evaluate (policy : PaymentPolicy) (ev : PolicyEvaluation) : Result Error PolicyDecision :=
  let challenge := pe_challenge ev in
  let amount := ch_amount challenge in
  let budget := pe_wallet_budget ev in
  map_err (fun field => PolicyDenied ("invalid policy field: " ++ field)) (PaymentPolicy_validate policy) ;?
  if (ch_expires_at challenge <=? pe_now ev)%Z then Ok (Denied "challenge expired") else
  match limits_for policy (pe_direction ev) with
  | None => Ok (Denied "policy does not authorize this payment direction")
  | Some limits =>
      if negb (allows_wallet policy (pe_wallet_id ev))
         || (po_scenario_id policy != ch_scenario_id challenge)
         || negb (allows_protocol policy (ch_protocol challenge))
         || negb (allows_asset policy (ch_asset challenge))
         || negb (allows_payment_recipient policy (as_network (ch_asset challenge)) (ch_recipient challenge))
         || negb (allows_origin policy (pe_origin ev))
      then Ok (Denied "policy scope does not match the payment") else
      if (pl_max_per_payment limits <? amount)%N
      then Ok (Denied "per-payment policy limit exceeded") else
      let scenario_after := Amount.checked_add (pe_scenario_usage ev) amount in
      let? hard := ok_or (hard_daily_limit limits) (PolicyDenied "daily policy limit overflow") in
      if is_none_or (fun total => (hard <? total)%N) scenario_after
      then Ok (Denied "daily scenario hard ceiling exceeded") else
      if wb_shared_across_scenarios budget
         && (is_none (wb_max_per_payment budget) || is_none (wb_max_per_day budget))
      then Ok (Denied "shared-wallet hard limits are required") else
      if is_some_and (fun limit => (limit <? amount)%N) (wb_max_per_payment budget)
         || is_some_and (fun limit => exceeds (wb_usage budget) amount limit) (wb_max_per_day budget)
      then Ok (Denied "shared-wallet hard limit exceeded") else
      let exceeds_automatic_daily :=
        is_some_and (fun total => (pl_max_per_day limits <? total)%N) scenario_after in
      if exceeds_automatic_daily && negb (pl_approval_enabled limits)
      then Ok (Denied "daily scenario budget exceeded") else
      if exceeds_automatic_daily || requires_approval policy (pe_direction ev) amount
      then Ok RequiresApproval
      else Ok Allowed
  end.
End Engine.

(** ** Lemmas *)

Lemma existsb_eq_In {A} `{EqDecision A} (l : list A) x :
  existsb (fun y => y == x) l = true <-> x ∈ l.
Proof.
  rewrite existsb_exists. setoid_rewrite bool_decide_eq_true.
  setoid_rewrite <- list_elem_of_In. naive_solver.
Qed.

Lemma exceeds_false current requested limit :
  exceeds current requested limit = false <->
  (current + requested <= limit)%N /\ (current + requested <= U128_MAX)%N.
Proof.
  unfold exceeds, Amount.checked_add.
  destruct (u128_checked_add current requested) as [t|] eqn:Ht; simpl.
  - apply u128_checked_add_Some in Ht as [-> ?]. rewrite N.ltb_ge. tauto.
  - apply u128_checked_add_None in Ht. split; [done|lia].
Qed.

Lemma validated_limits_hard_limit l u :
  PaymentPolicyLimits_validate l = Ok u ->
  exists hard, hard_daily_limit l = Some hard /\ (pl_max_per_payment l <= pl_max_per_day l <= hard)%N
               /\ amount_ok hard /\ (pl_approval_enabled l = false -> hard = pl_max_per_day l).
Proof.
  unfold PaymentPolicyLimits_validate. intros Hok. run_inv. bool_inv.
  destruct (hard_daily_limit l) as [hard|] eqn:Hh; [|done].
  exists hard. unfold hard_daily_limit in Hh.
  apply amount_checked_add_ok in Hh as [Hbound ->].
  split_and!; try done; try lia.
  intros Hen. rewrite Hen in *. destruct (pl_approval_overage l); simpl in *; [done|].
  unfold Amount.ZERO. lia.
Qed.

Lemma policy_validate_limits p u d l :
  PaymentPolicy_validate p = Ok u -> limits_for p d = Some l -> PaymentPolicyLimits_validate l = Ok tt.
Proof.
  unfold PaymentPolicy_validate. intros Hok Hl. run_inv.
  destruct d; simpl in Hl; rewrite Hl in *; simpl in *;
    by match goal with H : is_err (PaymentPolicyLimits_validate ?l) = false |- _ =>
      unfold is_err in H; apply negb_false_iff, is_ok_true in H as [[] ->] end.
Qed.

(** ** Abstract specification of the engine

    What a policy promises, in terms of membership and sums over unbounded
    naturals, without the code's order of checks. *)
Section Spec.
Context `{SolanaPubkey}.

Definition in_scope (p : PaymentPolicy) (ev : PolicyEvaluation) : Prop :=
  let c := pe_challenge ev in
  po_enabled p = true
  /\ pe_wallet_id ev ∈ po_wallet_ids p
  /\ po_scenario_id p = ch_scenario_id c
  /\ ch_protocol c ∈ po_protocols p
  /\ as_network (ch_asset c) ∈ po_networks p
  /\ ch_asset c ∈ po_assets p
  /\ (exists r, r ∈ po_allowed_recipients p
                /\ payment_recipients_match (as_network (ch_asset c)) r (ch_recipient c) = true)
  /\ pe_origin ev ∈ po_allowed_origins p.

Definition wallet_fits (b : WalletBudget) (amount : Amount) : Prop :=
  (wb_shared_across_scenarios b = true ->
     is_some (wb_max_per_payment b) = true /\ is_some (wb_max_per_day b) = true)
  /\ (forall limit, wb_max_per_payment b = Some limit -> (amount <= limit)%N)
  /\ (forall limit, wb_max_per_day b = Some limit ->
        (wb_usage b + amount <= limit)%N /\ (wb_usage b + amount <= U128_MAX)%N).

(** The payment is inside the policy, its per-payment limit and the hard
    ceiling of the day, and inside the wallet's own limits. *)
Definition payable (p : PaymentPolicy) (ev : PolicyEvaluation) (limits : PaymentPolicyLimits) : Prop :=
  PaymentPolicy_validate p = Ok tt
  /\ (pe_now ev < ch_expires_at (pe_challenge ev))%Z
  /\ limits_for p (pe_direction ev) = Some limits
  /\ in_scope p ev
  /\ (ch_amount (pe_challenge ev) <= pl_max_per_payment limits)%N
  /\ (exists hard, hard_daily_limit limits = Some hard
                   /\ (pe_scenario_usage ev + ch_amount (pe_challenge ev) <= hard)%N)
  /\ wallet_fits (pe_wallet_budget ev) (ch_amount (pe_challenge ev)).

Definition over_daily (ev : PolicyEvaluation) (limits : PaymentPolicyLimits) : Prop :=
  (pl_max_per_day limits < pe_scenario_usage ev + ch_amount (pe_challenge ev))%N.
Definition over_threshold (ev : PolicyEvaluation) (limits : PaymentPolicyLimits) : Prop :=
  exists t, pl_approval_threshold limits = Some t /\ (t <= ch_amount (pe_challenge ev))%N.

Lemma scope_guard_spec p ev :
  let c := pe_challenge ev in
  negb (allows_wallet p (pe_wallet_id ev))
  || (po_scenario_id p != ch_scenario_id c)
  || negb (allows_protocol p (ch_protocol c))
  || negb (allows_asset p (ch_asset c))
  || negb (allows_payment_recipient p (as_network (ch_asset c)) (ch_recipient c))
  || negb (allows_origin p (pe_origin ev)) = false <-> in_scope p ev.
Proof.
  simpl. unfold in_scope, allows_wallet, allows_protocol, allows_asset, allows_payment_recipient, allows_origin.
  rewrite !orb_false_iff, !negb_false_iff, !andb_true_iff, !existsb_eq_In, bool_decide_eq_true, existsb_exists.
  setoid_rewrite <- list_elem_of_In. tauto.
Qed.

Lemma wallet_guard_spec b amount :
  wb_shared_across_scenarios b && (is_none (wb_max_per_payment b) || is_none (wb_max_per_day b)) = false ->
  is_some_and (fun limit => (limit <? amount)%N) (wb_max_per_payment b)
  || is_some_and (fun limit => exceeds (wb_usage b) amount limit) (wb_max_per_day b) = false ->
  wallet_fits b amount.
Proof.
  intros Hs [Hp Hd]%orb_false_iff. split_and!.
  - intros Hsh. rewrite Hsh in Hs. simpl in Hs. by destruct (wb_max_per_payment b), (wb_max_per_day b).
  - intros l Hl. rewrite Hl in Hp. simpl in Hp. bool_inv. done.
  - intros l Hl. rewrite Hl in Hd. simpl in Hd. by apply exceeds_false.
Qed.

Lemma wallet_fits_guards b amount :
  wallet_fits b amount ->
  wb_shared_across_scenarios b && (is_none (wb_max_per_payment b) || is_none (wb_max_per_day b)) = false
  /\ is_some_and (fun limit => (limit <? amount)%N) (wb_max_per_payment b)
     || is_some_and (fun limit => exceeds (wb_usage b) amount limit) (wb_max_per_day b) = false.
Proof.
  intros (Hs & Hp & Hd). split.
  - destruct (wb_shared_across_scenarios b); [|done].
    by destruct (wb_max_per_payment b), (wb_max_per_day b), (Hs eq_refl).
  - apply orb_false_iff. split.
    + destruct (wb_max_per_payment b) as [l|]; [|done]. by apply N.ltb_ge, Hp.
    + destruct (wb_max_per_day b) as [l|]; [|done]. by apply exceeds_false, Hd.
Qed.

Lemma hard_limit_total_ok limits hard total :
  hard_daily_limit limits = Some hard -> (total <= hard)%N -> (total <= U128_MAX)%N.
Proof. intros [Hb _]%amount_checked_add_ok ?. unfold amount_ok in Hb. lia. Qed.

(** On a payable evaluation the engine reaches its last two branches. *)
Lemma evaluate_payable p ev limits :
  payable p ev limits ->
  evaluate p ev =
    let total := (pe_scenario_usage ev + ch_amount (pe_challenge ev))%N in
    let over := (pl_max_per_day limits <? total)%N in
    if over && negb (pl_approval_enabled limits) then Ok (Denied "daily scenario budget exceeded")
    else if over || limits_requires_approval limits (ch_amount (pe_challenge ev))
         then Ok RequiresApproval else Ok Allowed.
Proof.
  intros (Hv & Hexp & Hl & Hscope & Hpp & (hard & Hh & Htot) & Hw).
  unfold evaluate. rewrite Hv. simpl.
  rewrite (proj2 (Z.leb_gt _ _) Hexp), Hl.
  rewrite (proj2 (scope_guard_spec p ev) Hscope).
  rewrite (proj2 (N.ltb_ge _ _) Hpp), Hh. simpl.
  assert (Amount.checked_add (pe_scenario_usage ev) (ch_amount (pe_challenge ev))
          = Some (pe_scenario_usage ev + ch_amount (pe_challenge ev))%N) as ->.
  { apply u128_checked_add_Some. split; [done|]. by eapply hard_limit_total_ok. }
  simpl. rewrite (proj2 (N.ltb_ge _ _) Htot).
  destruct (wallet_fits_guards _ _ Hw) as [-> ->].
  unfold requires_approval. by rewrite Hl.
Qed.

(** A decision other than a denial is only reached on payable evaluations. *)
Lemma evaluate_inv p ev d :
  evaluate p ev = Ok d -> (forall r, d <> Denied r) -> exists limits, payable p ev limits.
Proof.
  unfold evaluate. intros Hev Hd. run_inv.
  destruct (Z.leb_spec (ch_expires_at (pe_challenge ev)) (pe_now ev)); [naive_solver|].
  destruct (limits_for p (pe_direction ev)) as [limits|] eqn:Hl; [|naive_solver].
  case_match eqn:Hscope; [naive_solver|]. apply (scope_guard_spec p ev) in Hscope.
  destruct (N.ltb_spec (pl_max_per_payment limits) (ch_amount (pe_challenge ev))); [naive_solver|].
  run_inv.
  case_match eqn:Htot; [naive_solver|].
  case_match eqn:Hshared; [naive_solver|].
  case_match eqn:Hwallet; [naive_solver|].
  exists limits. unfold payable. repeat match goal with u : unit |- _ => destruct u end.
  split_and!; try done; [|by apply wallet_guard_spec].
  eexists; split; [done|].
  destruct (Amount.checked_add _ _) as [t|] eqn:Ht; [|done]. simpl in Htot. bool_inv.
  apply amount_checked_add_ok in Ht as [_ ->]. done.
Qed.

Lemma limits_requires_approval_spec l amount :
  limits_requires_approval l amount = true <->
  pl_approval_enabled l = true /\ exists t, pl_approval_threshold l = Some t /\ (t <= amount)%N.
Proof.
  unfold limits_requires_approval. rewrite andb_true_iff.
  destruct (pl_approval_threshold l) as [t|]; simpl; rewrite ?N.leb_le; naive_solver.
Qed.

(** ** Properties *)

(** C35: the engine allows a payment without approval exactly when the
    payment is payable, stays within the automatic daily budget, and no
    approval threshold applies to it. *)
Theorem evaluate_allowed_iff p ev :
  evaluate p ev = Ok Allowed <->
  exists limits, payable p ev limits /\ ~ over_daily ev limits
                 /\ ~ (pl_approval_enabled limits = true /\ over_threshold ev limits).
Proof.
  unfold over_daily, over_threshold. split.
  - intros Hev. destruct (evaluate_inv _ _ _ Hev ltac:(done)) as [limits Hp].
    exists limits. rewrite (evaluate_payable _ _ _ Hp), <- limits_requires_approval_spec in *.
    simpl in Hev. destruct (N.ltb_spec (pl_max_per_day limits)
      (pe_scenario_usage ev + ch_amount (pe_challenge ev))); simpl in Hev; repeat case_match; try done.
    split_and!; [done|lia|congruence].
  - intros (limits & Hp & Hd & Ht). rewrite <- limits_requires_approval_spec in Ht.
    rewrite (evaluate_payable _ _ _ Hp). simpl.
    rewrite (proj2 (N.ltb_ge _ _)) by lia. simpl.
    by destruct (limits_requires_approval _ _).
Qed.

(** The engine asks for approval exactly when the payment is payable
    (so under the hard ceiling and the wallet limits), approval is enabled,
    and the payment passes the automatic daily budget or the threshold. *)
Lemma evaluate_requires_approval_iff p ev :
  evaluate p ev = Ok RequiresApproval <->
  exists limits, payable p ev limits /\ pl_approval_enabled limits = true
                 /\ (over_daily ev limits \/ over_threshold ev limits).
Proof.
  unfold over_daily, over_threshold. split.
  - intros Hev. destruct (evaluate_inv _ _ _ Hev ltac:(done)) as [limits Hp].
    exists limits. rewrite (evaluate_payable _ _ _ Hp) in Hev. split; [done|].
    simpl in Hev. destruct (N.ltb_spec (pl_max_per_day limits)
      (pe_scenario_usage ev + ch_amount (pe_challenge ev))); simpl in Hev.
    + destruct (pl_approval_enabled limits); [|done]. auto.
    + destruct (limits_requires_approval _ _) eqn:Hr; [|done].
      apply limits_requires_approval_spec in Hr as [? ?]. auto.
  - intros (limits & Hp & He & Hc). rewrite (evaluate_payable _ _ _ Hp). simpl. rewrite He, andb_false_r.
    destruct Hc as [Hd|Ht]; [by rewrite (proj2 (N.ltb_lt _ _) Hd)|].
    rewrite (proj2 (limits_requires_approval_spec _ _) (conj He Ht)). by rewrite orb_true_r.
Qed.

(** The engine fails (instead of deciding) only on a policy that does
    not validate; in particular its daily-limit overflow error is dead code
    for stored policies. *)
Lemma evaluate_error_iff_invalid p ev :
  (exists e, evaluate p ev = Err e) <-> is_err (PaymentPolicy_validate p) = true.
Proof.
  unfold evaluate. destruct (PaymentPolicy_validate p) as [u|f] eqn:Hv; simpl; [|naive_solver].
  split; [|done]. intros [e He]. exfalso.
  destruct (ch_expires_at _ <=? _)%Z; [done|].
  destruct (limits_for _ _) as [limits|] eqn:Hl; [|done].
  pose proof (policy_validate_limits _ _ _ _ Hv Hl) as Hlv.
  destruct (validated_limits_hard_limit _ _ Hlv) as (hard & Hh & _).
  rewrite Hh in He. simpl in He. by repeat case_match.
Qed.
End Spec.
