(* ===== verification/Ledger.v ===== *)
(** * Ledger entries

    [src/src/model/domain/ledger.rs]: the immutable wallet activity, the
    validation of an entry and of a reversal, the canonical transaction
    identity per chain, the posting key that identifies one external fact, and
    the bound on trusted settlement times.

    SHA-256 and the Solana signature codec are third-party code: [Sha256] and
    [SolanaSignature] stand for them. *)

From S2P Require Import Prelude Text Money.

#[local] Open Scope string_scope.
#[local] Open Scope vault_scope.

Definition MAX_SETTLEMENT_EFFECTIVE_TIME_PAST_SKEW_SECONDS : Z := 10 * 60.
Definition MAX_SETTLEMENT_EFFECTIVE_TIME_FUTURE_SKEW_SECONDS : Z := 60.

Class Sha256 : Type := { sha256 : string -> string }.

Class SolanaSignature : Type := {
  SolSig : Type;
  SolSig_eq_dec :: EqDecision SolSig;
  solsig_from_str : string -> option SolSig;
  solsig_to_string : SolSig -> string;
  solsig_default : SolSig
}.

Inductive LedgerEntryType : Type := LPayment | LFee | LRefund | LDeposit | LTransfer | LReversal.
#[export] Instance LedgerEntryType_eq_dec : EqDecision LedgerEntryType.
Proof. solve_decision. Defined.

Definition ledger_type_as_str (t : LedgerEntryType) : string :=
  match t with
  | LPayment => "payment"
  | LFee => "fee"
  | LRefund => "refund"
  | LDeposit => "deposit"
  | LTransfer => "transfer"
  | LReversal => "reversal"
  end.

Record PaymentLedgerEntry : Type := {
  le_id : string;
  le_intent_id : option string;
  le_scenario_id : option string;
  le_wallet_id : string;
  le_entry_type : LedgerEntryType;
  le_direction : PaymentDirection;
  le_asset : AssetIdentity;
  le_amount : Amount;
  le_posting_key : string;
  le_tx_hash : option string;
  le_settlement_ref : option string;
  le_effect_ref : option string;
  le_transfer_ref : option string;
  le_reversal_of : option string;
  le_effective_at : Z;
  le_created_at : Z
}.
#[export] Instance PaymentLedgerEntry_eq_dec : EqDecision PaymentLedgerEntry.
Proof. solve_decision. Defined.

(** [PaymentLedgerEntry::validate_effect_ref] *)
Definition validate_effect_ref (effect_ref : string) : Result string string :=
  let normalized := trim effect_ref in
  reject_if (is_empty normalized || (256 <? str_len normalized)%N || has_control normalized) "effect_ref" ;?
  Ok normalized.

(** [PaymentLedgerEntry::validate] *)
Definition PaymentLedgerEntry_validate (e : PaymentLedgerEntry) : Result string unit :=
  reject_if (blank (le_id e)) "id" ;?
  reject_if (blank (le_wallet_id e)) "wallet_id" ;?
  AssetIdentity_validate (le_asset e) ;?
  reject_if (Amount.is_zero (le_amount e)) "amount" ;?
  reject_if (blank (le_posting_key e)) "posting_key" ;?
  reject_if (is_none (le_tx_hash e) && is_none (le_settlement_ref e)) "financial_evidence" ;?
  match le_effect_ref e with
  | Some effect_ref => validate_effect_ref effect_ref ;? Ok tt
  | None => Ok tt
  end ;?
  match le_entry_type e, le_transfer_ref e, le_reversal_of e with
  | LTransfer, None, _ => Err "transfer_ref"
  | LReversal, _, None => Err "reversal_of"
  | LReversal, _, Some _ => Ok tt
  | _, _, Some _ => Err "reversal_of"
  | _, _, None => Ok tt
  end.

Definition same_posting_as (a b : PaymentLedgerEntry) : bool :=
  (le_wallet_id a == le_wallet_id b) && (le_posting_key a == le_posting_key b).

(** [PaymentLedgerEntry::same_fact_content_as] *)
Definition same_fact_content_as (a b : PaymentLedgerEntry) : bool :=
  same_posting_as a b
  && (le_intent_id a == le_intent_id b)
  && (le_scenario_id a == le_scenario_id b)
  && (le_entry_type a == le_entry_type b)
  && (le_direction a == le_direction b)
  && (le_asset a == le_asset b)
  && (le_amount a == le_amount b)
  && (le_tx_hash a == le_tx_hash b)
  && (le_settlement_ref a == le_settlement_ref b)
  && (le_effect_ref a == le_effect_ref b)
  && (le_transfer_ref a == le_transfer_ref b)
  && (le_reversal_of a == le_reversal_of b)
  && (le_effective_at a == le_effective_at b).

(** [PaymentLedgerEntry::validate_reversal_of] *)
Definition validate_reversal_of (e original : PaymentLedgerEntry) : Result string unit :=
  map_err (fun _ => "reversal_binding") (PaymentLedgerEntry_validate e) ;?
  map_err (fun _ => "reversal_binding") (PaymentLedgerEntry_validate original) ;?
  reject_if ((le_entry_type e != LReversal)
             || (le_entry_type original == LReversal)
             || (le_reversal_of e != Some (le_id original))
             || (le_wallet_id e != le_wallet_id original)
             || (le_intent_id e != le_intent_id original)
             || (le_scenario_id e != le_scenario_id original)
             || (le_asset e != le_asset original)
             || (le_amount e != le_amount original)
             || (le_direction e == le_direction original)
             || (le_effect_ref e != le_effect_ref original)
             || (le_transfer_ref e != le_transfer_ref original)) "reversal_binding".

(** [PaymentLedgerEntry::validate_trusted_effective_time] *)
Definition validate_trusted_effective_time (created_at effective_at observed_at : Z) : Result Error unit :=
  let earliest := i64_saturating_sub created_at MAX_SETTLEMENT_EFFECTIVE_TIME_PAST_SKEW_SECONDS in
  let latest := i64_saturating_add observed_at MAX_SETTLEMENT_EFFECTIVE_TIME_FUTURE_SKEW_SECONDS in
  reject_if ((effective_at <? 0)%Z || (effective_at <? earliest)%Z || (latest <? effective_at)%Z)
            (Settlement "trusted settlement effective time exceeds bounded clock skew").

(** ** Posting keys *)

(** [u64::to_be_bytes] of a length, which fits in 64 bits. *)
Fixpoint be_bytes (n : nat) (x : N) (acc : string) : string :=
  match n with
  | O => acc
  | S n' => be_bytes n' (x / 256) (String (ascii_of_N (x mod 256)) acc)
  end.
Definition len_be_bytes (s : string) : string := be_bytes 8 (N.min U64_MAX (str_len s)) "".

(** The bytes fed to the digest: the domain, then each value with its length. *)
Fixpoint frame (values : list string) : string :=
  match values with
  | [] => ""
  | v :: rest => len_be_bytes v ++ v ++ frame rest
  end.

Definition hex_digit (x : N) : ascii :=
  if (x <? 10)%N then ascii_of_N (48 + x) else ascii_of_N (87 + x).
Fixpoint hex_encode (s : string) : string :=
  match s with
  | "" => ""
  | String c rest => String (hex_digit (byte_of c / 16)) (String (hex_digit (byte_of c mod 16)) (hex_encode rest))
  end.

Section Posting.
Context `{Sha256, SolanaSignature}.

(** [PaymentLedgerEntry::posting_digest] *)
Definition posting_digest (domain : string) (values : list string) : string :=
  hex_encode (sha256 (domain ++ frame values)).

(** [PaymentLedgerEntry::canonical_transaction] *)
Definition canonical_transaction (network transaction : string) : Result string string :=
  let transaction := trim transaction in
  if starts_with "eip155:" network then
    match strip_prefix "0x" transaction with
    | Some body =>
        if (str_len transaction =? 66)%N && bytes_all is_ascii_hexdigit body
        then Ok (to_ascii_lowercase transaction) else Err "tx_hash"
    | None => Err "tx_hash"
    end
  else if starts_with "solana:" network then
    let? signature := ok_or (solsig_from_str transaction) "tx_hash" in
    reject_if (signature == solsig_default) "tx_hash" ;?
    Ok (solsig_to_string signature)
  else Err "network".

Definition nonempty_trimmed (o : option string) : option string :=
  match o with
  | Some v => if is_empty (trim v) then None else Some (trim v)
  | None => None
  end.

(** [PaymentLedgerEntry::settlement_posting_key] *)
Definition settlement_posting_key (authority network : string)
    (tx_hash settlement_ref effect_ref : option string) : Result string string :=
  let network := trim network in
  let? effect_ref := match effect_ref with
                     | Some r => let? n := validate_effect_ref r in Ok (Some n)
                     | None => Ok None
                     end in
  match nonempty_trimmed tx_hash with
  | Some tx_hash =>
      reject_if (is_empty network) "network" ;?
      let? normalized := canonical_transaction network tx_hash in
      Ok match effect_ref with
         | Some r => "chain-effect:" ++ posting_digest "agentvault.chain-effect.v1" [network; normalized; r]
         | None => "chain:" ++ posting_digest "agentvault.chain-fact.v1" [network; normalized]
         end
  | None =>
      match nonempty_trimmed settlement_ref with
      | Some reference =>
          let authority := trim authority in
          reject_if (is_empty authority) "authority" ;?
          Ok match effect_ref with
             | Some r => "provider-effect:" ++ posting_digest "agentvault.provider-effect.v1" [authority; reference; r]
             | None => "provider:" ++ posting_digest "agentvault.provider-fact.v1" [authority; reference]
             end
      | None => Err "transaction_evidence"
      end
  end.
End Posting.

(** ** Lemmas *)

Lemma same_fact_content_spec a b :
  same_fact_content_as a b = true ->
  le_wallet_id a = le_wallet_id b /\ le_posting_key a = le_posting_key b
  /\ le_intent_id a = le_intent_id b /\ le_scenario_id a = le_scenario_id b
  /\ le_entry_type a = le_entry_type b /\ le_direction a = le_direction b
  /\ le_asset a = le_asset b /\ le_amount a = le_amount b /\ le_reversal_of a = le_reversal_of b
  /\ le_effective_at a = le_effective_at b.
Proof. unfold same_fact_content_as, same_posting_as. intros H. bool_inv. by split_and!. Qed.

Lemma same_fact_content_refl a : same_fact_content_as a a = true.
Proof. unfold same_fact_content_as, same_posting_as. by rewrite !bool_decide_true. Qed.

Lemma string_app_length s t : String.length (s ++ t) = (String.length s + String.length t)%nat.
Proof.
  induction s as [|c s IH]; [done|].
  change (String c s ++ t) with (String c (s ++ t)). simpl. by rewrite IH.
Qed.

Lemma string_app_inj s1 t1 s2 t2 :
  String.length s1 = String.length s2 -> s1 ++ t1 = s2 ++ t2 -> s1 = s2 /\ t1 = t2.
Proof.
  revert s2. induction s1 as [|c s1 IH]; intros [|c' s2] Hlen Heq; try discriminate Hlen; [done|].
  injection Hlen as Hlen.
  change (String c (s1 ++ t1) = String c' (s2 ++ t2)) in Heq. injection Heq as -> Heq.
  destruct (IH s2 Hlen Heq) as [-> ->]. done.
Qed.

(** Reads an [n]-byte big-endian number off the front of a text. *)
Fixpoint be_read (n : nat) (s : string) : option (N * string) :=
  match n with
  | O => Some (0%N, s)
  | S n' => match be_read n' s with
            | Some (v, String c rest) => Some ((256 * v + byte_of c)%N, rest)
            | _ => None
            end
  end.

Lemma be_read_be_bytes n x acc :
  be_read n (be_bytes n x acc) = Some ((x mod 256 ^ N.of_nat n)%N, acc).
Proof.
  revert x acc. induction n as [|n IH]; intros x acc.
  - simpl. by rewrite N.mod_1_r.
  - cbn [be_bytes be_read]. rewrite IH. unfold byte_of.
    rewrite N_ascii_embedding by (apply N.mod_lt; lia).
    rewrite Nat2N.inj_succ, N.pow_succ_r', N.Div0.mod_mul_r. do 2 f_equal. lia.
Qed.

Lemma len_be_bytes_inj v w s t :
  (str_len v <= U64_MAX)%N -> (str_len w <= U64_MAX)%N ->
  len_be_bytes v ++ s = len_be_bytes w ++ t -> str_len v = str_len w /\ s = t.
Proof.
  intros Hv Hw Heq.
  assert (forall u r, len_be_bytes u ++ r = be_bytes 8 (N.min U64_MAX (str_len u)) r) as Hb.
  { intros u r. reflexivity. }
  rewrite !Hb in Heq. apply (f_equal (be_read 8)) in Heq. rewrite !be_read_be_bytes in Heq.
  injection Heq as Hlen ->. split; [|done].
  rewrite !N.mod_small in Hlen by (unfold U64_MAX in *; simpl; lia). lia.
Qed.

(** Length framing makes the digest's input determine the list of values. *)
Lemma frame_inj vs ws :
  Forall (fun v => str_len v <= U64_MAX)%N vs -> Forall (fun v => str_len v <= U64_MAX)%N ws ->
  frame vs = frame ws -> vs = ws.
Proof.
  intros Hvs. revert ws. induction Hvs as [|v vs Hv Hvs IH]; intros [|w ws] Hws Heq; try done.
  - inversion Hws; subst. cbn [frame] in *.
    apply len_be_bytes_inj in Heq as [Hlen Heq]; try done.
    unfold str_len in Hlen. apply string_app_inj in Heq as [-> Heq]; [|lia].
    f_equal. eauto.
Qed.

Lemma hex_digit_inj x y : (x < 16)%N -> (y < 16)%N -> hex_digit x = hex_digit y -> x = y.
Proof.
  intros Hx Hy.
  assert (forall z, (z < 16)%N -> byte_of (hex_digit z) = if (z <? 10)%N then 48 + z else 87 + z)%N as Hb.
  { intros z Hz. unfold hex_digit, byte_of. destruct (z <? 10)%N; apply N_ascii_embedding; lia. }
  intros Heq%(f_equal byte_of). rewrite !Hb in Heq by done.
  destruct (N.ltb_spec x 10), (N.ltb_spec y 10); lia.
Qed.

Lemma hex_encode_inj s t : hex_encode s = hex_encode t -> s = t.
Proof.
  revert t. induction s as [|c s IH]; intros [|c' t] Heq; try done.
  cbn [hex_encode] in Heq. injection Heq as H1 H2 H3.
  assert (forall a, byte_of a < 256)%N as Hb by (intros a; apply N_ascii_bounded).
  apply hex_digit_inj in H1; [|apply N.Div0.div_lt_upper_bound; specialize (Hb c); lia
                              |apply N.Div0.div_lt_upper_bound; specialize (Hb c'); lia].
  apply hex_digit_inj in H2; [|apply N.mod_lt; lia|apply N.mod_lt; lia].
  f_equal; [apply byte_of_inj|by apply IH].
  rewrite (N.div_mod (byte_of c) 16), (N.div_mod (byte_of c') 16) by lia. congruence.
Qed.

(** ** The identity of an external fact *)

(** What a posting key stands for: one chain transaction or provider
    reference, or one effect inside it. *)
Inductive FactIdentity : Type :=
| ChainEffect (network transaction effect : string)
| ChainFact (network transaction : string)
| ProviderEffect (authority reference effect : string)
| ProviderFact (authority reference : string).

Definition fact_parts (f : FactIdentity) : list string :=
  match f with
  | ChainEffect n t e => [n; t; e]
  | ChainFact n t => [n; t]
  | ProviderEffect a r e => [a; r; e]
  | ProviderFact a r => [a; r]
  end.
Definition fact_ok (f : FactIdentity) : Prop := Forall (fun v => str_len v <= U64_MAX)%N (fact_parts f).

Section PostingSpec.
Context `{Sha256, SolanaSignature}.

Definition fact_key (f : FactIdentity) : string :=
  match f with
  | ChainEffect n t e => "chain-effect:" ++ posting_digest "agentvault.chain-effect.v1" [n; t; e]
  | ChainFact n t => "chain:" ++ posting_digest "agentvault.chain-fact.v1" [n; t]
  | ProviderEffect a r e => "provider-effect:" ++ posting_digest "agentvault.provider-effect.v1" [a; r; e]
  | ProviderFact a r => "provider:" ++ posting_digest "agentvault.provider-fact.v1" [a; r]
  end.

(** Two given inputs that SHA-256 confuses. *)
Definition collide (p q : string) : Prop := p <> q /\ sha256 p = sha256 q.

(** A length-framed digest identifies its values, or the two framed texts are
    a collision. *)
Lemma framed_sha256_inj domain vs ws :
  Forall (fun v => str_len v <= U64_MAX)%N vs -> Forall (fun v => str_len v <= U64_MAX)%N ws ->
  sha256 (domain ++ frame vs) = sha256 (domain ++ frame ws) ->
  vs = ws \/ collide (domain ++ frame vs) (domain ++ frame ws).
Proof.
  intros Hv Hw Heq. destruct (decide (domain ++ frame vs = domain ++ frame ws)) as [E|E]; [|by right].
  left. apply string_app_inj in E as [_ E]; [|done]. by apply frame_inj.
Qed.

(** The hashed text of a fact. *)
Definition fact_preimage (f : FactIdentity) : string :=
  match f with
  | ChainEffect _ _ _ => "agentvault.chain-effect.v1"
  | ChainFact _ _ => "agentvault.chain-fact.v1"
  | ProviderEffect _ _ _ => "agentvault.provider-effect.v1"
  | ProviderFact _ _ => "agentvault.provider-fact.v1"
  end ++ frame (fact_parts f).

Lemma fact_key_inj f g :
  fact_ok f -> fact_ok g -> fact_key f = fact_key g -> f = g \/ collide (fact_preimage f) (fact_preimage g).
Proof.
  intros Hf Hg Heq. destruct f, g; try discriminate Heq;
    (apply string_app_inj in Heq as [_ Heq]; [|done]); apply hex_encode_inj in Heq;
    (destruct (framed_sha256_inj _ _ _ Hf Hg Heq) as [E|E]; [left; simpl in E; simplify_eq; done|by right]).
Qed.

(** The normalized evidence behind a posting key. *)
Definition posting_identity (authority network : string) (tx_hash settlement_ref effect_ref : option string)
  : option FactIdentity :=
  let effect := trim <$> effect_ref in
  match nonempty_trimmed tx_hash, nonempty_trimmed settlement_ref with
  | Some t, _ =>
      match canonical_transaction (trim network) t with
      | Ok normalized => Some match effect with
                              | Some e => ChainEffect (trim network) normalized e
                              | None => ChainFact (trim network) normalized
                              end
      | Err _ => None
      end
  | None, Some r => Some match effect with
                         | Some e => ProviderEffect (trim authority) r e
                         | None => ProviderFact (trim authority) r
                         end
  | None, None => None
  end.

Lemma settlement_posting_key_identity authority network tx_hash settlement_ref effect_ref k :
  settlement_posting_key authority network tx_hash settlement_ref effect_ref = Ok k ->
  exists f, posting_identity authority network tx_hash settlement_ref effect_ref = Some f /\ k = fact_key f.
Proof.
  unfold settlement_posting_key, posting_identity. intros Hk. run_inv.
  assert (x = trim <$> effect_ref) as ->.
  { destruct effect_ref; run_inv; [|done]. unfold validate_effect_ref in *. by run_inv. }
  destruct (nonempty_trimmed tx_hash); run_inv.
  - match goal with Hc : canonical_transaction _ _ = Ok _ |- _ => rewrite Hc end.
    eexists; split; [done|]. by destruct effect_ref.
  - destruct (nonempty_trimmed settlement_ref); run_inv.
    eexists; split; [done|]. by destruct effect_ref.
Qed.

(** ** Properties *)

(** Two settlements get the same posting key only if their normalized
    evidence (chain transaction or provider reference, and effect) is the
    same, or the framed texts of the two facts are themselves a SHA-256
    collision: length framing and the per-kind prefixes leave no other way to
    confuse two facts. *)
Lemma settlement_posting_key_injective a1 n1 t1 s1 e1 a2 n2 t2 s2 e2 k f g :
  settlement_posting_key a1 n1 t1 s1 e1 = Ok k ->
  settlement_posting_key a2 n2 t2 s2 e2 = Ok k ->
  posting_identity a1 n1 t1 s1 e1 = Some f -> posting_identity a2 n2 t2 s2 e2 = Some g ->
  fact_ok f -> fact_ok g ->
  f = g \/ collide (fact_preimage f) (fact_preimage g).
Proof.
  intros (f' & Hf & Hkf)%settlement_posting_key_identity (g' & Hg & Hkg)%settlement_posting_key_identity.
  rewrite Hf, Hg. intros [= ->] [= ->] ? ?. apply fact_key_inj; congruence.
Qed.
End PostingSpec.

(** Codecs for evaluation: the digest is the text itself and signatures are
    their own text. *)
Definition sample_sha256 : Sha256 := {| sha256 := fun s => s |}.
Definition sample_signature : SolanaSignature :=
  {| SolSig := string; SolSig_eq_dec := _; solsig_from_str := Some; solsig_to_string := fun s => s;
     solsig_default := "" |}.
