(* ===== verification/Records.v ===== *)
(** * Events, approvals and outbox messages

    The append-only event of [src/src/model/domain/event.rs], the approval row
    and its decision, grant and claims ([src/src/model/domain/approval.rs],
    [src/src/model/approval.rs]), the sealed envelope of
    [src/src/utils/secure_material.rs], the durable outbox message and its
    delivery classes ([src/src/storage/outbox/mod.rs]), and the text codecs of
    stored enumerations ([src/src/utils/storage.rs]). *)

From S2P Require Import Prelude Text Money Json Wallet Intent Ledger.

#[local] Open Scope string_scope.
#[local] Open Scope vault_scope.

(** ** Payment events *)

Inductive PaymentEventType : Type :=
| EvChallengeCreated | EvChallengeReceived | EvSignRequested | EvSigned | EvApprovalRequested
| EvApprovalGranted | EvApprovalRejected | EvApprovalConsumed | EvCredentialVerified | EvSubmitted
| EvSettlementRequested | EvSettled | EvRetried | EvFailed | EvReconciled.
#[export] Instance PaymentEventType_eq_dec : EqDecision PaymentEventType.
Proof. solve_decision. Defined.

Definition event_type_as_str (t : PaymentEventType) : string :=
  match t with
  | EvChallengeCreated => "challenge_created"
  | EvChallengeReceived => "challenge_received"
  | EvSignRequested => "sign_requested"
  | EvSigned => "signed"
  | EvApprovalRequested => "approval_requested"
  | EvApprovalGranted => "approval_granted"
  | EvApprovalRejected => "approval_rejected"
  | EvApprovalConsumed => "approval_consumed"
  | EvCredentialVerified => "credential_verified"
  | EvSubmitted => "submitted"
  | EvSettlementRequested => "settlement_requested"
  | EvSettled => "settled"
  | EvRetried => "retried"
  | EvFailed => "failed"
  | EvReconciled => "reconciled"
  end.

Record PaymentEvent : Type := {
  ev_id : string;
  ev_intent_id : string;
  ev_event_type : PaymentEventType;
  ev_attempt_no : N;
  ev_signature_ref : option string;
  ev_tx_hash : option string;
  ev_payload : json;
  ev_created_at : Z
}.
#[export] Instance PaymentEvent_eq_dec : EqDecision PaymentEvent.
Proof. solve_decision. Defined.

(** [PaymentEvent::validate] *)
Definition PaymentEvent_validate (e : PaymentEvent) : Result string unit :=
  reject_if (blank (ev_id e)) "id" ;?
  reject_if (blank (ev_intent_id e)) "intent_id".

(** ** Sealed material *)

Record SealedSensitiveMaterial : Type := {
  sm_version : N;
  sm_key_id : string;
  sm_nonce : string;
  sm_ciphertext : string
}.
#[export] Instance SealedSensitiveMaterial_eq_dec : EqDecision SealedSensitiveMaterial.
Proof. solve_decision. Defined.

(** Its serde codec, used inside event payloads. *)
Definition sealed_to_json (m : SealedSensitiveMaterial) : json :=
  jobject [("version", JNumber (Z.of_N (sm_version m))); ("key_id", JString (sm_key_id m));
           ("nonce", JString (sm_nonce m)); ("ciphertext", JString (sm_ciphertext m))].
Definition sealed_from_json (j : json) : option SealedSensitiveMaterial :=
  if known_fields ["version"; "key_id"; "nonce"; "ciphertext"] j then
    version ← u8_field "version" j;
    key_id ← jget_str "key_id" j;
    nonce ← jget_str "nonce" j;
    ciphertext ← jget_str "ciphertext" j;
    Some {| sm_version := version; sm_key_id := key_id; sm_nonce := nonce; sm_ciphertext := ciphertext |}
  else None.

Lemma sealed_json_roundtrip m : (sm_version m <= 255)%N -> sealed_from_json (sealed_to_json m) = Some m.
Proof.
  intros Hv. destruct m as [v k n c]; simpl in *.
  unfold sealed_from_json, u8_field. vm_compute (known_fields _ _). simpl.
  rewrite (proj2 (Z.leb_le 0 _)), (proj2 (Z.leb_le _ 255)) by lia. simpl. by rewrite N2Z.id.
Qed.

(** ** Approvals *)

Record PaymentScenarioApprover : Type := {
  apr_scenario_id : string;
  apr_auth_principal : string;
  apr_enabled : bool;
  apr_created_at : Z;
  apr_updated_at : Z
}.
#[export] Instance PaymentScenarioApprover_eq_dec : EqDecision PaymentScenarioApprover.
Proof. solve_decision. Defined.

(** [PaymentScenarioApprover::validate] *)
Definition PaymentScenarioApprover_validate (a : PaymentScenarioApprover) : Result string unit :=
  reject_if (blank (apr_scenario_id a)) "scenario_id" ;?
  reject_if (blank (apr_auth_principal a)) "auth_principal" ;?
  reject_if (apr_updated_at a <? apr_created_at a)%Z "updated_at".

Inductive ApprovalStatus : Type := ApPending | ApApproved | ApRejected | ApExpired | ApConsumed.
#[export] Instance ApprovalStatus_eq_dec : EqDecision ApprovalStatus.
Proof. solve_decision. Defined.

Definition approval_status_as_str (s : ApprovalStatus) : string :=
  match s with
  | ApPending => "pending"
  | ApApproved => "approved"
  | ApRejected => "rejected"
  | ApExpired => "expired"
  | ApConsumed => "consumed"
  end.

Record ApprovalRequest : Type := {
  ap_id : string;
  ap_intent_id : string;
  ap_run_id : string;
  ap_requested_amount : Amount;
  ap_approved_amount : option Amount;
  ap_requested_by : string;
  ap_approved_by : option string;
  ap_status : ApprovalStatus;
  ap_intent_hash : string;
  ap_grant_jti : option string;
  ap_grant_claims_hash : option string;
  ap_sealed_grant_token : option SealedSensitiveMaterial;
  ap_expires_at : Z;
  ap_consumed_at : option Z;
  ap_created_at : Z;
  ap_approved_at : option Z
}.
#[export] Instance ApprovalRequest_eq_dec : EqDecision ApprovalRequest.
Proof. solve_decision. Defined.

Inductive ApprovalDecisionKind : Type := Approve | Reject.
#[export] Instance ApprovalDecisionKind_eq_dec : EqDecision ApprovalDecisionKind.
Proof. solve_decision. Defined.

Record ApprovalDecision : Type := {
  ad_approval_id : string;
  ad_intent_id : string;
  ad_decision : ApprovalDecisionKind;
  ad_approved_amount : option Amount;
  ad_approved_by : string;
  ad_reason : option string;
  ad_decided_at : Z
}.

Record ApprovalGrantClaims : Type := {
  gc_iss : string;
  gc_aud : string;
  gc_jti : string;
  gc_approval_id : string;
  gc_intent_id : string;
  gc_intent_hash : string;
  gc_amount : Amount;
  gc_approver : string;
  gc_iat : Z;
  gc_exp : Z
}.
#[export] Instance ApprovalGrantClaims_eq_dec : EqDecision ApprovalGrantClaims.
Proof. solve_decision. Defined.

(** [ApprovalGrantClaims::validate] *)
Definition ApprovalGrantClaims_validate (c : ApprovalGrantClaims) : Result string unit :=
  rfold (fun _ fv => reject_if (blank (snd fv)) (fst fv)) tt
    [("iss", gc_iss c); ("aud", gc_aud c); ("jti", gc_jti c); ("approval_id", gc_approval_id c);
     ("intent_id", gc_intent_id c); ("intent_hash", gc_intent_hash c); ("approver", gc_approver c)] ;?
  reject_if (Amount.is_zero (gc_amount c)) "amount" ;?
  reject_if (gc_iat c <? 0)%Z "iat" ;?
  reject_if (gc_exp c <=? gc_iat c)%Z "exp".

Record ApprovalGrant : Type := {
  ag_claims : ApprovalGrantClaims;
  ag_claims_hash : string;
  ag_sealed_token : SealedSensitiveMaterial
}.

Record VerifiedApprovalGrant : Type := {
  vg_claims : ApprovalGrantClaims;
  vg_claims_hash : string
}.

(** [ApprovalRequest::is_pending_at] *)
Definition is_pending_at (a : ApprovalRequest) (now : Z) : bool :=
  (ap_status a == ApPending) && (now <? ap_expires_at a)%Z.

(** [ApprovalRequest::has_persisted_grant] *)
Definition has_persisted_grant (a : ApprovalRequest) : bool :=
  is_some (ap_grant_jti a) && is_some (ap_grant_claims_hash a) && is_some (ap_sealed_grant_token a).

(** [ApprovalRequest::validate_decision] *)
Definition validate_decision (a : ApprovalRequest) (d : ApprovalDecision) (now : Z) : Result string unit :=
  reject_if (ap_id a != ad_approval_id d) "approval_id" ;?
  reject_if (ap_intent_id a != ad_intent_id d) "intent_id" ;?
  reject_if (negb (is_pending_at a now)) "approval_not_pending" ;?
  match ad_decision d with
  | Approve =>
      let? amount := ok_or (ad_approved_amount d) "approved_amount" in
      reject_if (Amount.is_zero amount || (ap_requested_amount a <? amount)%N) "approved_amount"
  | Reject => reject_if (is_some (ad_approved_amount d)) "approved_amount"
  end.

(** ** Outbox messages *)

Inductive OutboxStatus : Type := ObPending | ObDelivered | ObDeadLetter.
#[export] Instance OutboxStatus_eq_dec : EqDecision OutboxStatus.
Proof. solve_decision. Defined.

Definition outbox_status_as_str (s : OutboxStatus) : string :=
  match s with
  | ObPending => "pending"
  | ObDelivered => "delivered"
  | ObDeadLetter => "dead_letter"
  end.

Record OutboxMessage : Type := {
  ob_id : string;
  ob_aggregate_type : string;
  ob_aggregate_id : string;
  ob_event_type : string;
  ob_destination : string;
  ob_run_id : string;
  ob_payload : json;
  ob_status : OutboxStatus;
  ob_attempt_count : N;
  ob_available_at : Z;
  ob_lease_owner : option string;
  ob_lease_expires_at : option Z;
  ob_last_error : option string;
  ob_created_at : Z;
  ob_delivered_at : option Z
}.
#[export] Instance OutboxMessage_eq_dec : EqDecision OutboxMessage.
Proof. solve_decision. Defined.

Inductive OutboxDeliveryClass : Type := ApprovalRequired | PaymentEvents.
#[export] Instance OutboxDeliveryClass_eq_dec : EqDecision OutboxDeliveryClass.
Proof. solve_decision. Defined.

Definition destination_has_nonempty_id (destination prefix suffix : string) : bool :=
  match strip_prefix prefix destination with
  | Some value => is_some_and (fun identifier => negb (is_empty identifier)) (strip_suffix suffix value)
  | None => false
  end.

(** [OutboxDeliveryClass::matches] *)
Definition class_matches (c : OutboxDeliveryClass) (m : OutboxMessage) : bool :=
  match c with
  | ApprovalRequired =>
      (ob_event_type m == "approval_required")
      && destination_has_nonempty_id (ob_destination m) "client:" ".approvals"
  | PaymentEvents =>
      destination_has_nonempty_id (ob_destination m) "client:" ".payments"
      || destination_has_nonempty_id (ob_destination m) "scenario:" ".payments"
  end.

(** [OutboxStorageRules::same_logical_message] *)
Definition same_logical_message (l r : OutboxMessage) : bool :=
  (ob_id l == ob_id r)
  && (ob_aggregate_type l == ob_aggregate_type r)
  && (ob_aggregate_id l == ob_aggregate_id r)
  && (ob_event_type l == ob_event_type r)
  && (ob_destination l == ob_destination r)
  && (ob_run_id l == ob_run_id r)
  && (ob_payload l == ob_payload r)
  && (ob_created_at l == ob_created_at r).

(** [OutboxStorageRules::validate_message] *)
Definition validate_message (m : OutboxMessage) : Result Error unit :=
  reject_if (blank (ob_id m) || blank (ob_aggregate_type m) || blank (ob_aggregate_id m)
             || blank (ob_event_type m) || blank (ob_destination m) || blank (ob_run_id m))
            (InvalidRequest "outbox message identity is incomplete").

(** [IdempotentWrite] of [src/src/storage/storage.rs] *)
Inductive IdempotentWrite (A : Type) : Type :=
| Inserted (a : A)
| Replayed (a : A).
Arguments Inserted {A} a.
Arguments Replayed {A} a.

(** ** Text codecs of stored enumerations *)

Module PaymentStorageCodec.
Definition invalid_enum (field value : string) : Error :=
  Storage ("stored " ++ field ++ " contains unsupported value " ++ value).

(** One [match] on the text per enumeration, tried in source order. *)
Definition decode {A} (field : string) (table : list (string * A)) (value : string) : Result Error A :=
  match find (fun entry => fst entry == value) table with
  | Some (_, a) => Ok a
  | None => Err (invalid_enum field value)
  end.

Definition event_type : string -> Result Error PaymentEventType :=
  decode "payment event type"
    [("challenge_created", EvChallengeCreated); ("challenge_received", EvChallengeReceived);
     ("sign_requested", EvSignRequested); ("signed", EvSigned); ("approval_requested", EvApprovalRequested);
     ("approval_granted", EvApprovalGranted); ("approval_rejected", EvApprovalRejected);
     ("approval_consumed", EvApprovalConsumed); ("credential_verified", EvCredentialVerified);
     ("submitted", EvSubmitted); ("settlement_requested", EvSettlementRequested); ("settled", EvSettled);
     ("retried", EvRetried); ("failed", EvFailed); ("reconciled", EvReconciled)].
Definition direction : string -> Result Error PaymentDirection :=
  decode "direction" [("inbound", Inbound); ("outbound", Outbound)].
Definition payment_status : string -> Result Error PaymentStatus :=
  decode "payment status"
    [("created", Created); ("pending_approval", PendingApproval); ("authorized", Authorized);
     ("signed", Signed); ("submitted", Submitted); ("pending_settlement", PendingSettlement);
     ("settled", Settled); ("failed", Failed); ("expired", Expired); ("unknown", Unknown)].
Definition reservation_status : string -> Result Error ReservationStatus :=
  decode "reservation status"
    [("unreserved", Unreserved); ("reserved", Reserved); ("consumed", Consumed); ("released", Released)].
Definition outbox_status : string -> Result Error OutboxStatus :=
  decode "outbox status" [("pending", ObPending); ("delivered", ObDelivered); ("dead_letter", ObDeadLetter)].
Definition approval_status : string -> Result Error ApprovalStatus :=
  decode "approval status"
    [("pending", ApPending); ("approved", ApApproved); ("rejected", ApRejected); ("expired", ApExpired);
     ("consumed", ApConsumed)].
Definition ledger_type : string -> Result Error LedgerEntryType :=
  decode "ledger entry type"
    [("payment", LPayment); ("fee", LFee); ("refund", LRefund); ("deposit", LDeposit);
     ("transfer", LTransfer); ("reversal", LReversal)].
Definition decode_sqlite_amount (value field : string) : Result Error Amount :=
  ok_or (Amount.from_str value) (Storage ("SQLite " ++ field ++ " contains an invalid amount")).
Definition domain_error (e : Error) : Error :=
  match e with StorageConflict message => PaymentConflict message | e => e end.
End PaymentStorageCodec.

(** ** Lemmas *)

Lemma same_logical_message_spec l r :
  same_logical_message l r = true ->
  ob_id l = ob_id r /\ ob_aggregate_type l = ob_aggregate_type r /\ ob_aggregate_id l = ob_aggregate_id r
  /\ ob_event_type l = ob_event_type r /\ ob_destination l = ob_destination r /\ ob_run_id l = ob_run_id r
  /\ ob_payload l = ob_payload r /\ ob_created_at l = ob_created_at r.
Proof. unfold same_logical_message. intros H. bool_inv. by split_and!. Qed.

Lemma validate_decision_approve a d now u :
  validate_decision a d now = Ok u -> ad_decision d = Approve ->
  exists amount, ad_approved_amount d = Some amount /\ (0 < amount <= ap_requested_amount a)%N.
Proof.
  unfold validate_decision. intros Hok Hd. rewrite Hd in Hok. run_inv. bool_inv.
  unfold Amount.is_zero in *. bool_inv. eexists; split; [done|lia].
Qed.

(** ** Properties *)

(** Every stored enumeration survives the database: the text written for a
    status, direction, reservation, event type, approval status, outbox status
    or ledger type decodes to the value it was written from, and a text that
    is none of them is rejected. *)
Lemma storage_codec_roundtrip :
  (forall t, PaymentStorageCodec.event_type (event_type_as_str t) = Ok t)
  /\ (forall d, PaymentStorageCodec.direction (direction_as_str d) = Ok d)
  /\ (forall s, PaymentStorageCodec.payment_status (status_as_str s) = Ok s)
  /\ (forall r, PaymentStorageCodec.reservation_status (reservation_as_str r) = Ok r)
  /\ (forall s, PaymentStorageCodec.outbox_status (outbox_status_as_str s) = Ok s)
  /\ (forall s, PaymentStorageCodec.approval_status (approval_status_as_str s) = Ok s)
  /\ (forall t, PaymentStorageCodec.ledger_type (ledger_type_as_str t) = Ok t)
  /\ PaymentStorageCodec.payment_status "SETTLED"
     = Err (Storage "stored payment status contains unsupported value SETTLED").
Proof. split_and!; try (intros []; reflexivity). reflexivity. Qed.
