(* ===== verification/Store.v ===== *)
(** * The database

    The tables of [src/migrations/sqlite/001_init.ddl.sql] that the payment
    transactions read and write, one finite map per table keyed by its primary
    key, the declared constraints as boolean checks on every insert and
    update, and the append primitives of
    [src/src/storage/{event,ledger,outbox}/sqlite.rs].  A table's rows are
    typed values; the membership rows [pay_policy_wallet] are kept as the
    ordered [wallet_ids] of their policy, and the active key version of a
    wallet is joined from [wallet_key_version] when a wallet is loaded.

    A statement inside a transaction is a function of type [Tx DB A].
    A rejected constraint is the error the caller maps it to, without the text
    of the driver. *)

From S2P Require Import Prelude Text Money Json Wallet Intent Policy Ledger Records.

#[local] Open Scope string_scope.
#[local] Open Scope vault_scope.

(** ** Rows and tables *)

Record IntentRow : Type := {
  ir_intent : PaymentIntent;
  ir_credential_hash : option string;
  ir_reconcile_attempts : N;
  ir_lease_owner : option string;
  ir_lease_expires_at : option Z
}.

Record DB : Type := {
  t_client : gmap string PaymentClient;
  t_scenario : gmap string PaymentScenario;
  t_approver : gmap (string * string) PaymentScenarioApprover;
  t_wallet : gmap string PaymentWallet;
  t_key : gmap (string * N) EncryptedWalletKeyVersion;
  t_policy : gmap string PaymentPolicy;
  t_price : gmap string PaymentPrice;
  t_intent : gmap string IntentRow;
  t_event : gmap string PaymentEvent;
  t_approval : gmap string ApprovalRequest;
  t_ledger : gmap string PaymentLedgerEntry;
  t_outbox : gmap string OutboxMessage
}.

Definition set_intent (f : gmap string IntentRow -> gmap string IntentRow) (d : DB) : DB :=
  {| t_client := t_client d; t_scenario := t_scenario d; t_approver := t_approver d; t_wallet := t_wallet d;
     t_key := t_key d; t_policy := t_policy d; t_price := t_price d; t_intent := f (t_intent d);
     t_event := t_event d; t_approval := t_approval d; t_ledger := t_ledger d; t_outbox := t_outbox d |}.
Definition set_event (f : gmap string PaymentEvent -> gmap string PaymentEvent) (d : DB) : DB :=
  {| t_client := t_client d; t_scenario := t_scenario d; t_approver := t_approver d; t_wallet := t_wallet d;
     t_key := t_key d; t_policy := t_policy d; t_price := t_price d; t_intent := t_intent d;
     t_event := f (t_event d); t_approval := t_approval d; t_ledger := t_ledger d; t_outbox := t_outbox d |}.
Definition set_approval (f : gmap string ApprovalRequest -> gmap string ApprovalRequest) (d : DB) : DB :=
  {| t_client := t_client d; t_scenario := t_scenario d; t_approver := t_approver d; t_wallet := t_wallet d;
     t_key := t_key d; t_policy := t_policy d; t_price := t_price d; t_intent := t_intent d;
     t_event := t_event d; t_approval := f (t_approval d); t_ledger := t_ledger d; t_outbox := t_outbox d |}.
Definition set_ledger (f : gmap string PaymentLedgerEntry -> gmap string PaymentLedgerEntry) (d : DB) : DB :=
  {| t_client := t_client d; t_scenario := t_scenario d; t_approver := t_approver d; t_wallet := t_wallet d;
     t_key := t_key d; t_policy := t_policy d; t_price := t_price d; t_intent := t_intent d;
     t_event := t_event d; t_approval := t_approval d; t_ledger := f (t_ledger d); t_outbox := t_outbox d |}.
Definition set_outbox (f : gmap string OutboxMessage -> gmap string OutboxMessage) (d : DB) : DB :=
  {| t_client := t_client d; t_scenario := t_scenario d; t_approver := t_approver d; t_wallet := t_wallet d;
     t_key := t_key d; t_policy := t_policy d; t_price := t_price d; t_intent := t_intent d;
     t_event := t_event d; t_approval := t_approval d; t_ledger := t_ledger d; t_outbox := f (t_outbox d) |}.

(** ** Queries *)

Definition rows {K} `{Countable K} {A} (m : gmap K A) : list A := (map_to_list m).*2.
(** [SELECT * FROM m WHERE p] *)
Definition select {K} `{Countable K} {A} (p : A -> bool) (m : gmap K A) : list A :=
  List.filter p (rows m).
(** [fetch_optional] of a query that a key or unique index makes single-valued. *)
Definition fetch_optional {K} `{Countable K} {A} (p : A -> bool) (m : gmap K A) : option A :=
  head (select p m).

(** [ORDER BY]: insertion sort by a comparison of sort keys. *)
Fixpoint order_insert {A} (leb : A -> A -> bool) (x : A) (l : list A) : list A :=
  match l with
  | [] => [x]
  | y :: rest => if leb x y then x :: l else y :: order_insert leb x rest
  end.
Definition order_by {A} (leb : A -> A -> bool) (l : list A) : list A :=
  foldr (order_insert leb) [] l.

(** SQLite's [length(trim(s)) > 0]: [trim] removes spaces only and [length]
    stops at a NUL character. *)
Fixpoint sql_nonblank (s : string) : bool :=
  match s with
  | "" => false
  | String c rest =>
      if c == " "%char then sql_nonblank rest else c != "000"%char
  end.
Fixpoint drop_spaces (s : string) : string :=
  match s with
  | "" => ""
  | String c rest => if c == " "%char then drop_spaces rest else s
  end.
Definition sql_trim (s : string) : string := String.rev (drop_spaces (String.rev (drop_spaces s))).
(** [length]: characters (UTF-8 continuation bytes do not count) up to a NUL. *)
Fixpoint sql_length (s : string) : N :=
  match s with
  | "" => 0
  | String c rest =>
      if c == "000"%char then 0
      else ((if in_range 128 191 (byte_of c) then 0 else 1) + sql_length rest)%N
  end.
Definition sql_opt_nonblank (o : option string) : bool := is_none_or sql_nonblank o.
Definition opt_nonneg (o : option Z) : bool := is_none_or (fun z => (0 <=? z)%Z) o.
(** A canonical unsigned decimal of at most 128 bits. *)
Definition sql_amount (a : Amount) : bool := (a <=? U128_MAX)%N.

(** Both lease columns are null or both are set. *)
Definition lease_pair (owner : option string) (expires : option Z) : bool :=
  (is_none owner && is_none expires) || (is_some owner && is_some expires).

(** ** [pay_intent] *)

Definition intent_checks (r : IntentRow) : bool :=
  let i := ir_intent r in
  sql_nonblank (pi_id i) && sql_nonblank (pi_run_id i) && sql_nonblank (pi_protocol i)
  && sql_nonblank (as_network (pi_asset i)) && sql_nonblank (as_asset (pi_asset i))
  && (as_decimals (pi_asset i) <=? 255)%N
  && sql_nonblank (pi_recipient i)
  && sql_amount (pi_amount i) && negb (Amount.is_zero (pi_amount i))
  && sql_amount (pi_settled_amount i)
  && sql_nonblank (pi_resource i)
  && sql_opt_nonblank (pi_challenge_hash i)
  && sql_opt_nonblank (ir_credential_hash r)
  && sql_nonblank (pi_request_hash i)
  && sql_amount (pi_reserved_amount i)
  && (ir_reconcile_attempts r <=? U32_MAX)%N
  && (0 <=? pi_created_at i)%Z
  && (pi_created_at i <=? pi_updated_at i)%Z
  && is_none_or (fun e => (pi_created_at i <=? e)%Z) (pi_expires_at i)
  && (pi_settled_amount i <=? pi_amount i)%N
  && (pi_reserved_amount i <=? pi_amount i)%N
  && (((pi_reservation_status i == Unreserved) && Amount.is_zero (pi_reserved_amount i))
      || ((pi_reservation_status i != Unreserved) && negb (Amount.is_zero (pi_reserved_amount i))))
  && is_some (pi_wallet_id i) && is_some (pi_policy_id i)
  && match pi_direction i with Outbound => is_none (pi_price_id i) | Inbound => is_some (pi_price_id i) end
  && (((pi_status i == Settled) && is_some (pi_settled_at i))
      || ((pi_status i != Settled) && is_none (pi_settled_at i)))
  && is_none_or (fun s => (pi_created_at i <=? s)%Z) (pi_settled_at i)
  && opt_nonneg (pi_next_reconcile_at i)
  && opt_nonneg (ir_lease_expires_at r)
  && lease_pair (ir_lease_owner r) (ir_lease_expires_at r)
  && sql_opt_nonblank (as_token_contract (pi_asset i))
  && sql_opt_nonblank (pi_tx_hash i)
  && sql_opt_nonblank (pi_settlement_ref i).

(** Two rows that a unique index keeps apart. *)
Definition intent_collision (a b : IntentRow) : bool :=
  let i := ir_intent a in
  let j := ir_intent b in
  ((pi_scenario_id i == pi_scenario_id j) && (pi_run_id i == pi_run_id j))
  || ((pi_protocol i == pi_protocol j) && (pi_direction i == pi_direction j)
      && is_some (ir_credential_hash a) && (ir_credential_hash a == ir_credential_hash b))
  || ((pi_scenario_id i == pi_scenario_id j) && (pi_direction i == Inbound) && (pi_direction j == Inbound)
      && is_some (pi_challenge_hash i) && (pi_challenge_hash i == pi_challenge_hash j)).

Definition intent_unique (d : DB) (r : IntentRow) : bool :=
  forallb (fun other => (pi_id (ir_intent other) == pi_id (ir_intent r)) || negb (intent_collision other r))
          (rows (t_intent d)).

Definition intent_foreign_keys (d : DB) (i : PaymentIntent) : bool :=
  is_some (t_scenario d !! pi_scenario_id i)
  && is_none_or (fun w => is_some (t_wallet d !! w)) (pi_wallet_id i)
  && is_none_or (fun p => is_some_and (fun policy =>
                   (po_scenario_id policy == pi_scenario_id i)
                   && is_none_or (fun w => bool_decide (w ∈ po_wallet_ids policy)) (pi_wallet_id i))
                   (t_policy d !! p)) (pi_policy_id i)
  && is_none_or (fun p => is_some_and (fun price =>
                   (pr_scenario_id price == pi_scenario_id i)
                   && is_none_or (fun q => pr_policy_id price == q) (pi_policy_id i)
                   && is_none_or (fun w => pr_wallet_id price == w) (pi_wallet_id i))
                   (t_price d !! p)) (pi_price_id i).

(** [INSERT INTO pay_intent] *)
Definition sql_insert_intent (r : IntentRow) (on_error : Error) : Tx DB unit := fun d =>
  let id := pi_id (ir_intent r) in
  if is_none (t_intent d !! id) && intent_checks r && intent_unique d r && intent_foreign_keys d (ir_intent r)
  then Ok (tt, set_intent <[id := r]> d)
  else Err on_error.

(** [UPDATE pay_intent ... WHERE id = $id AND guard]: the number of rows
    changed.  No statement changes a key or foreign-key column. *)
Definition sql_update_intent (id : string) (guard : IntentRow -> bool) (f : IntentRow -> IntentRow)
    (on_error : Error) : Tx DB nat := fun d =>
  match t_intent d !! id with
  | Some r =>
      if guard r then
        if intent_checks (f r) && intent_unique d (f r)
        then Ok (1, set_intent <[id := f r]> d)
        else Err on_error
      else Ok (0, d)
  | None => Ok (0, d)
  end.

(** [if result.rows_affected() != 1 { return Err(e) }] *)
Definition expect_one (n : nat) (e : Error) : Tx DB unit := tlift (reject_if (n != 1) e).

(** ** [pay_event] *)

Definition event_checks (e : PaymentEvent) : bool :=
  sql_nonblank (ev_id e) && (ev_attempt_no e <=? U32_MAX)%N && (0 <=? ev_created_at e)%Z
  && sql_opt_nonblank (ev_signature_ref e) && sql_opt_nonblank (ev_tx_hash e).

Definition event_same_key (a b : PaymentEvent) : bool :=
  (ev_intent_id a == ev_intent_id b) && (ev_event_type a == ev_event_type b)
  && (ev_attempt_no a == ev_attempt_no b).

(** [EventSqliteRepository::insert_event] *)
Definition insert_event (e : PaymentEvent) : Tx DB (IdempotentWrite PaymentEvent) :=
  tlift (map_err (fun field => InvalidRequest ("invalid payment event " ++ field)) (PaymentEvent_validate e)) ;*
  let* existing := treads (fun d => select (fun x => (ev_id x == ev_id e) || event_same_key x e) (t_event d)) in
  match existing with
  | [] =>
      let* d := tget in
      tlift (reject_if (negb (event_checks e && is_some (t_intent d !! ev_intent_id e)))
                       (conflict "payment event append rejected")) ;*
      tput (set_event <[ev_id e := e]> d) ;*
      tret (Inserted e)
  | [x] => if x == e then tret (Replayed x)
           else tfail (conflict "payment event idempotency identity has different content")
  | _ => tfail (conflict "payment event identifiers collide with multiple rows")
  end.

(** ** [pay_ledger] *)

Definition ledger_checks (e : PaymentLedgerEntry) : bool :=
  let a := le_asset e in
  sql_nonblank (le_id e) && sql_nonblank (as_network a) && sql_nonblank (as_asset a)
  && (as_decimals a <=? 255)%N
  && sql_amount (le_amount e) && negb (Amount.is_zero (le_amount e))
  && sql_nonblank (le_posting_key e)
  && (0 <=? le_effective_at e)%Z && (0 <=? le_created_at e)%Z
  && (is_none (le_intent_id e) || is_some (le_scenario_id e))
  && Bool.eqb (le_entry_type e == LReversal) (is_some (le_reversal_of e))
  && (le_reversal_of e != Some (le_id e))
  && sql_opt_nonblank (as_token_contract a) && sql_opt_nonblank (le_tx_hash e)
  && sql_opt_nonblank (le_settlement_ref e)
  && is_none_or (fun r => sql_nonblank r && (sql_length (sql_trim r) <=? 256)%N) (le_effect_ref e)
  && sql_opt_nonblank (le_transfer_ref e)
  && (is_some (le_tx_hash e) || is_some (le_settlement_ref e)).

Definition ledger_foreign_keys (d : DB) (e : PaymentLedgerEntry) : bool :=
  is_none_or (fun i => is_some_and (fun r =>
                 (Some (pi_scenario_id (ir_intent r)) == le_scenario_id e)
                 && (pi_wallet_id (ir_intent r) == Some (le_wallet_id e))) (t_intent d !! i)) (le_intent_id e)
  && is_none_or (fun s => is_some (t_scenario d !! s)) (le_scenario_id e)
  && is_some (t_wallet d !! le_wallet_id e)
  && is_none_or (fun o => is_some (t_ledger d !! o)) (le_reversal_of e).

(** [uq_pay_ledger_reversal_once] *)
Definition ledger_reversal_once (d : DB) (e : PaymentLedgerEntry) : bool :=
  is_none (le_reversal_of e)
  || negb (existsb (fun x => le_reversal_of x == le_reversal_of e) (rows (t_ledger d))).

(** [LedgerSqliteRepository::insert_ledger] *)
Definition insert_ledger (e : PaymentLedgerEntry) : Tx DB (IdempotentWrite PaymentLedgerEntry) :=
  tlift (map_err (fun field => InvalidRequest ("invalid ledger entry " ++ field)) (PaymentLedgerEntry_validate e)) ;*
  let* existing := treads (fun d => fetch_optional (fun x => same_posting_as x e) (t_ledger d)) in
  match existing with
  | Some x =>
      if same_fact_content_as x e then tret (Replayed x)
      else tfail (conflict "ledger posting key is already bound to different financial content")
  | None =>
      let* d := tget in
      match le_reversal_of e with
      | Some original_id =>
          let* original := tlift (ok_or (t_ledger d !! original_id)
                                        (conflict "ledger reversal original does not exist")) in
          tlift (map_err (fun _ => conflict "ledger reversal does not exactly negate its original")
                         (validate_reversal_of e original))
      | None => tret tt
      end ;*
      tlift (reject_if (negb (is_none (t_ledger d !! le_id e) && ledger_checks e && ledger_foreign_keys d e
                              && ledger_reversal_once d e))
                       (conflict "ledger append rejected")) ;*
      tput (set_ledger <[le_id e := e]> d) ;*
      tret (Inserted e)
  end.

(** [LedgerSqliteRepository::lock_financial_scopes]: the scope rows exist. *)
Definition lock_financial_scopes (scenario_ids wallet_ids : list string) : Tx DB unit :=
  let* d := tget in
  tlift (reject_if (negb (forallb (fun s => is_some (t_scenario d !! s)) scenario_ids
                          && forallb (fun w => is_some (t_wallet d !! w)) wallet_ids))
                   (conflict "ledger references an unavailable scope")).

(** ** [pay_approval] *)

Definition is_active_approval (a : ApprovalRequest) : bool :=
  match ap_status a with ApPending | ApApproved => true | _ => false end.

(** [length(h) = 64 AND h NOT GLOB '*[^0-9a-f]*'] *)
Definition is_lower_hexdigit (c : ascii) : bool := is_ascii_digit c || in_range 97 102 (byte_of c).
Definition sealed_checks (m : SealedSensitiveMaterial) : bool :=
  (0 <? sm_version m)%N && sql_nonblank (sm_key_id m)
  && (0 <? sql_length (sm_nonce m))%N && (0 <? sql_length (sm_ciphertext m))%N.

Definition approval_checks (a : ApprovalRequest) : bool :=
  sql_nonblank (ap_id a) && sql_nonblank (ap_run_id a)
  && sql_amount (ap_requested_amount a) && negb (Amount.is_zero (ap_requested_amount a))
  && is_none_or sql_amount (ap_approved_amount a)
  && sql_nonblank (ap_requested_by a) && sql_nonblank (ap_intent_hash a)
  && (0 <=? ap_created_at a)%Z
  && is_none_or (fun x => (x <=? ap_requested_amount a)%N) (ap_approved_amount a)
  && (ap_created_at a <? ap_expires_at a)%Z
  && (match ap_status a with ApApproved | ApConsumed => false | _ => true end
      || (is_some_and (fun x => negb (Amount.is_zero x)) (ap_approved_amount a) && is_some (ap_approved_by a)
          && is_some (ap_grant_jti a) && is_some (ap_grant_claims_hash a)
          && is_some (ap_sealed_grant_token a) && is_some (ap_approved_at a)))
  && (((ap_status a == ApConsumed) && is_some (ap_consumed_at a))
      || ((ap_status a != ApConsumed) && is_none (ap_consumed_at a)))
  && ((is_none (ap_grant_jti a) && is_none (ap_grant_claims_hash a) && is_none (ap_sealed_grant_token a))
      || has_persisted_grant a)
  && ((ap_status a != ApPending)
      || (is_none (ap_approved_amount a) && is_none (ap_approved_by a) && is_none (ap_approved_at a)
          && is_none (ap_grant_jti a)))
  && ((ap_status a != ApRejected)
      || (is_none (ap_approved_amount a) && is_some (ap_approved_by a) && is_none (ap_grant_jti a)))
  && (is_none (ap_grant_jti a)
      || (is_some_and (fun x => negb (Amount.is_zero x)) (ap_approved_amount a) && is_some (ap_approved_at a)))
  && sql_opt_nonblank (ap_approved_by a) && sql_opt_nonblank (ap_grant_jti a)
  && is_none_or (fun h => (sql_length h =? 64)%N && bytes_all is_lower_hexdigit h) (ap_grant_claims_hash a)
  && (is_none (ap_grant_jti a) || is_none_or (fun t => (t <? ap_expires_at a)%Z) (ap_approved_at a))
  && is_none_or sealed_checks (ap_sealed_grant_token a)
  && is_none_or (fun t => (ap_created_at a <=? t)%Z) (ap_approved_at a)
  && match ap_consumed_at a, ap_approved_at a with Some c, Some t => (t <=? c)%Z | _, _ => true end.

Definition approval_collision (a b : ApprovalRequest) : bool :=
  (is_active_approval a && is_active_approval b && (ap_intent_id a == ap_intent_id b))
  || (is_some (ap_grant_jti a) && (ap_grant_jti a == ap_grant_jti b))
  || (is_some (ap_grant_claims_hash a) && (ap_grant_claims_hash a == ap_grant_claims_hash b)).

Definition approval_unique (d : DB) (a : ApprovalRequest) : bool :=
  forallb (fun other => (ap_id other == ap_id a) || negb (approval_collision other a)) (rows (t_approval d)).

(** [FOREIGN KEY (intent_id, run_id, intent_hash)] *)
Definition approval_foreign_key (d : DB) (a : ApprovalRequest) : bool :=
  is_some_and (fun r => (pi_run_id (ir_intent r) == ap_run_id a)
                        && (pi_request_hash (ir_intent r) == ap_intent_hash a))
              (t_intent d !! ap_intent_id a).

(** [INSERT INTO pay_approval] *)
Definition sql_insert_approval (a : ApprovalRequest) (on_error : Error) : Tx DB unit := fun d =>
  if is_none (t_approval d !! ap_id a) && approval_checks a && approval_unique d a && approval_foreign_key d a
  then Ok (tt, set_approval <[ap_id a := a]> d)
  else Err on_error.

(** [UPDATE pay_approval ... WHERE id = $id AND guard] *)
Definition sql_update_approval (id : string) (guard : ApprovalRequest -> bool)
    (f : ApprovalRequest -> ApprovalRequest) (on_error : Error) : Tx DB nat := fun d =>
  match t_approval d !! id with
  | Some a =>
      if guard a then
        if approval_checks (f a) && approval_unique d (f a)
        then Ok (1, set_approval <[id := f a]> d)
        else Err on_error
      else Ok (0, d)
  | None => Ok (0, d)
  end.

(** ** [pay_outbox] *)

Definition outbox_checks (m : OutboxMessage) : bool :=
  sql_nonblank (ob_id m) && sql_nonblank (ob_aggregate_type m) && sql_nonblank (ob_aggregate_id m)
  && sql_nonblank (ob_event_type m) && sql_nonblank (ob_destination m) && sql_nonblank (ob_run_id m)
  && (ob_attempt_count m <=? U32_MAX)%N
  && (0 <=? ob_available_at m)%Z
  && (0 <=? ob_created_at m)%Z
  && lease_pair (ob_lease_owner m) (ob_lease_expires_at m)
  && opt_nonneg (ob_lease_expires_at m)
  && (((ob_status m == ObDelivered) && is_some (ob_delivered_at m))
      || ((ob_status m != ObDelivered) && is_none (ob_delivered_at m)))
  && is_none_or (fun t => (ob_created_at m <=? t)%Z) (ob_delivered_at m).

Definition outbox_same_key (a b : OutboxMessage) : bool :=
  (ob_destination a == ob_destination b) && (ob_event_type a == ob_event_type b)
  && (ob_run_id a == ob_run_id b).

(** [OutboxSqliteRepository::insert_outbox] *)
Definition insert_outbox (m : OutboxMessage) : Tx DB unit :=
  tlift (validate_message m) ;*
  let* existing := treads (fun d => select (fun x => (ob_id x == ob_id m) || outbox_same_key x m) (t_outbox d)) in
  match existing with
  | [] =>
      let* d := tget in
      tlift (reject_if (negb (outbox_checks m)) (conflict "outbox insert rejected")) ;*
      tput (set_outbox <[ob_id m := m]> d)
  | [x] => tlift (reject_if (negb (same_logical_message x m))
                            (conflict "outbox run identity has different content"))
  | _ => tfail (conflict "outbox run identity has different content")
  end.

(** [append_side_effects] *)
Definition append_side_effects (events : list PaymentEvent) (outbox : list OutboxMessage) : Tx DB unit :=
  tfor (fun e => insert_event e ;* tret tt) events ;*
  tfor insert_outbox outbox.

(** [ILedgerRepository::append_batch]: one transaction for every entry and
    notification. *)
Definition append_batch (entries : list PaymentLedgerEntry) (outbox : list OutboxMessage)
  : Tx DB (list (IdempotentWrite PaymentLedgerEntry)) :=
  let* results := tmapM insert_ledger entries in
  tfor insert_outbox outbox ;*
  tret results.

(** ** Catalog reads *)

Section CatalogReads.
Context `{SolanaPubkey}.

(** [LEFT JOIN wallet_key_version active ON ... active.status = 'active'] *)
Definition active_key (d : DB) (wallet_id : string) : option EncryptedWalletKeyVersion :=
  fetch_optional (fun k => (k_wallet_id k == wallet_id) && (k_status k == KeyActive)) (t_key d).

Definition with_active_key_version (w : PaymentWallet) (v : option N) : PaymentWallet :=
  {| pw_wallet := pw_wallet w; pw_custody := pw_custody w; pw_enabled := pw_enabled w;
     pw_active_key_version := v; pw_budget_unit := pw_budget_unit w;
     pw_max_per_payment := pw_max_per_payment w; pw_max_per_day := pw_max_per_day w;
     pw_updated_at := pw_updated_at w |}.

(** [load_payment_wallet_connection] *)
Definition load_payment_wallet (wallet_id : string) : Tx DB (option PaymentWallet) :=
  let* d := tget in
  match t_wallet d !! wallet_id with
  | None => tret None
  | Some row =>
      let joined := with_active_key_version row (k_version <$> active_key d wallet_id) in
      let* w := tlift (map_err (fun field => Storage ("stored payment wallet has invalid " ++ field))
                               (PaymentWallet_canonicalized joined)) in
      tret (Some w)
  end.

(** [load_policy_connection] *)
Definition load_policy (policy_id : string) : Tx DB (option PaymentPolicy) :=
  treads (fun d => t_policy d !! policy_id).

(** [SELECT * FROM pay_client WHERE id = .. AND auth_principal = ..] *)
Definition select_client (id principal : string) : Tx DB (option PaymentClient) :=
  treads (fun d => match t_client d !! id with
                   | Some c => if cl_auth_principal c == principal then Some c else None
                   | None => None
                   end).
Definition select_scenario (id client_id : string) : Tx DB (option PaymentScenario) :=
  treads (fun d => match t_scenario d !! id with
                   | Some s => if sc_client_id s == client_id then Some s else None
                   | None => None
                   end).
End CatalogReads.

(** ** Lemmas on tables *)

Section Tables.
Context {K A : Type} `{Countable K}.
Implicit Types (m : gmap K A) (p : A -> bool) (f : A -> N).

Lemma elem_of_rows m x : x ∈ rows m <-> exists k, m !! k = Some x.
Proof.
  unfold rows. rewrite list_elem_of_fmap. split.
  - intros ([k y] & -> & Hy%elem_of_map_to_list). by exists k.
  - intros [k Hk]. exists (k, x). split; [done|]. by apply elem_of_map_to_list.
Qed.

Lemma elem_of_select p m x : x ∈ select p m <-> p x = true /\ exists k, m !! k = Some x.
Proof.
  unfold select. rewrite list_elem_of_In, filter_In, <- list_elem_of_In, elem_of_rows. tauto.
Qed.

Lemma select_nil p m : select p m = [] <-> forall k x, m !! k = Some x -> p x = false.
Proof.
  split.
  - intros Hn k x Hk. destruct (p x) eqn:Hp; [|done].
    assert (x ∈ select p m) as Hx by (apply elem_of_select; eauto).
    rewrite Hn in Hx. inversion Hx.
  - intros Hall. destruct (select p m) as [|x l] eqn:Hs; [done|].
    assert (x ∈ select p m) as Hx by (rewrite Hs; left).
    apply elem_of_select in Hx as [Hp [k Hk]]. rewrite (Hall _ _ Hk) in Hp. done.
Qed.

Lemma fetch_optional_Some p m x :
  fetch_optional p m = Some x -> p x = true /\ exists k, m !! k = Some x.
Proof.
  unfold fetch_optional. intros Hh. apply elem_of_select.
  destruct (select p m); simplify_eq/=. left.
Qed.

Lemma fetch_optional_None p m :
  fetch_optional p m = None <-> forall k x, m !! k = Some x -> p x = false.
Proof. rewrite <- select_nil. unfold fetch_optional. by destruct (select p m). Qed.

(** A predicate that at most one row satisfies finds that row. *)
Lemma fetch_optional_unique p m k x :
  m !! k = Some x -> p x = true ->
  (forall k' y, m !! k' = Some y -> p y = true -> y = x) ->
  fetch_optional p m = Some x.
Proof.
  intros Hk Hp Huniq. destruct (fetch_optional p m) as [y|] eqn:Hf.
  - apply fetch_optional_Some in Hf as [Hy [k' Hk']]. f_equal. eauto.
  - rewrite fetch_optional_None in Hf. rewrite (Hf _ _ Hk) in Hp. done.
Qed.

Lemma forallb_rows (q : A -> bool) m :
  forallb q (rows m) = true <-> forall k x, m !! k = Some x -> q x = true.
Proof.
  rewrite forallb_forall. setoid_rewrite <- list_elem_of_In. setoid_rewrite elem_of_rows. naive_solver.
Qed.

(** The sum of a column over the rows that satisfy a predicate. *)
Definition sum_where f p m : N := foldr N.add 0%N (map f (select p m)).

Definition contribution f p (x : A) : N := if p x then f x else 0%N.

Lemma sum_where_alt f p m : sum_where f p m = foldr N.add 0%N (map (contribution f p) (rows m)).
Proof.
  unfold sum_where, select, contribution. induction (rows m) as [|x l IH]; simpl; [done|].
  destruct (p x); simpl; rewrite IH; lia.
Qed.

Lemma foldr_add_Permutation (l1 l2 : list N) :
  l1 ≡ₚ l2 -> foldr N.add 0%N l1 = foldr N.add 0%N l2.
Proof. induction 1; simpl; lia. Qed.

Lemma sum_where_insert_fresh f p m k x :
  m !! k = None -> sum_where f p (<[k := x]> m) = (contribution f p x + sum_where f p m)%N.
Proof.
  intros Hk. rewrite !sum_where_alt. unfold rows.
  rewrite (foldr_add_Permutation _ (map (contribution f p) (((k, x) :: map_to_list m).*2))); [done|].
  apply Permutation_map, fmap_Permutation, map_to_list_insert, Hk.
Qed.

Lemma sum_where_delete f p m k x :
  m !! k = Some x -> sum_where f p m = (contribution f p x + sum_where f p (delete k m))%N.
Proof.
  intros Hk. rewrite <- (insert_delete_id m k x) at 1 by done.
  apply sum_where_insert_fresh, lookup_delete_eq.
Qed.

Lemma sum_where_replace f p m k x y :
  m !! k = Some x ->
  (sum_where f p (<[k := y]> m) + contribution f p x = contribution f p y + sum_where f p m)%N.
Proof.
  intros Hk. rewrite (sum_where_delete f p m k x Hk), <- insert_delete_eq.
  rewrite sum_where_insert_fresh by apply lookup_delete_eq. lia.
Qed.

Lemma sum_where_mono f p m k x :
  m !! k = Some x -> p x = true -> (f x <= sum_where f p m)%N.
Proof.
  intros Hk Hp. rewrite (sum_where_delete f p m k x Hk). unfold contribution. rewrite Hp. lia.
Qed.

Lemma sum_where_ext f p q m :
  (forall k x, m !! k = Some x -> p x = q x) -> sum_where f p m = sum_where f q m.
Proof.
  intros Hpq. unfold sum_where, select. f_equal. f_equal. apply filter_ext_in.
  intros x Hx%list_elem_of_In%elem_of_rows. destruct Hx as [k Hk]. eauto.
Qed.

Definition keyed (key : A -> K) m : Prop := forall k x, m !! k = Some x -> key x = k.

Lemma keyed_insert (key : A -> K) m k x : keyed key m -> key x = k -> keyed key (<[k := x]> m).
Proof.
  intros Hm Hx k' y. rewrite lookup_insert. case_decide; naive_solver.
Qed.
End Tables.

(** ** Ordering *)

Section OrderBy.
Context {A : Type} (leb : A -> A -> bool).

Lemma order_insert_perm x l : order_insert leb x l ≡ₚ x :: l.
Proof.
  induction l as [|y l IH]; simpl; [done|].
  destruct (leb x y); [done|]. rewrite IH. apply Permutation_swap.
Qed.

Lemma order_by_perm l : order_by leb l ≡ₚ l.
Proof. induction l as [|x l IH]; simpl; [done|]. by rewrite order_insert_perm, IH. Qed.

Lemma elem_of_order_by x l : x ∈ order_by leb l <-> x ∈ l.
Proof. by rewrite order_by_perm. Qed.
End OrderBy.

(** ** Table invariants *)

(** What the constraints guarantee of a table, kept by every statement. *)
Record intents_ok (m : gmap string IntentRow) : Prop := {
  intents_keyed : keyed (fun r => pi_id (ir_intent r)) m;
  intents_checked : forall k r, m !! k = Some r -> intent_checks r = true;
  intents_unique : forall k1 k2 r1 r2,
    m !! k1 = Some r1 -> m !! k2 = Some r2 -> k1 <> k2 -> intent_collision r1 r2 = false
}.

Record events_ok (m : gmap string PaymentEvent) : Prop := {
  events_keyed : keyed ev_id m;
  events_checked : forall k e, m !! k = Some e -> event_checks e = true;
  events_unique : forall k1 k2 e1 e2,
    m !! k1 = Some e1 -> m !! k2 = Some e2 -> event_same_key e1 e2 = true -> k1 = k2
}.

Record ledger_ok (m : gmap string PaymentLedgerEntry) : Prop := {
  ledger_keyed : keyed le_id m;
  ledger_checked : forall k e, m !! k = Some e -> ledger_checks e = true;
  ledger_unique : forall k1 k2 e1 e2,
    m !! k1 = Some e1 -> m !! k2 = Some e2 -> same_posting_as e1 e2 = true -> k1 = k2;
  ledger_reversals : forall k e o, m !! k = Some e -> le_reversal_of e = Some o ->
    exists original, m !! o = Some original /\ validate_reversal_of e original = Ok tt;
  ledger_reversed_once : forall k1 k2 e1 e2 o,
    m !! k1 = Some e1 -> m !! k2 = Some e2 -> le_reversal_of e1 = Some o -> le_reversal_of e2 = Some o -> k1 = k2
}.

Record approvals_ok (m : gmap string ApprovalRequest) : Prop := {
  approvals_keyed : keyed ap_id m;
  approvals_checked : forall k a, m !! k = Some a -> approval_checks a = true;
  approvals_unique : forall k1 k2 a1 a2,
    m !! k1 = Some a1 -> m !! k2 = Some a2 -> k1 <> k2 -> approval_collision a1 a2 = false
}.

Record outbox_ok (m : gmap string OutboxMessage) : Prop := {
  outbox_keyed : keyed ob_id m;
  outbox_checked : forall k x, m !! k = Some x -> outbox_checks x = true;
  outbox_unique : forall k1 k2 x1 x2,
    m !! k1 = Some x1 -> m !! k2 = Some x2 -> outbox_same_key x1 x2 = true -> k1 = k2
}.

(** The foreign keys into [pay_intent]. *)
Definition approvals_bound (d : DB) : Prop :=
  forall k a, t_approval d !! k = Some a ->
    exists r, t_intent d !! ap_intent_id a = Some r /\ pi_run_id (ir_intent r) = ap_run_id a
              /\ pi_request_hash (ir_intent r) = ap_intent_hash a.
Definition events_bound (d : DB) : Prop :=
  forall k e, t_event d !! k = Some e -> is_Some (t_intent d !! ev_intent_id e).

Record db_ok (d : DB) : Prop := {
  db_intents : intents_ok (t_intent d);
  db_events : events_ok (t_event d);
  db_ledger : ledger_ok (t_ledger d);
  db_approvals : approvals_ok (t_approval d);
  db_outbox : outbox_ok (t_outbox d);
  db_approvals_bound : approvals_bound d;
  db_events_bound : events_bound d
}.

Definition empty_db : DB :=
  {| t_client := ∅; t_scenario := ∅; t_approver := ∅; t_wallet := ∅; t_key := ∅; t_policy := ∅; t_price := ∅;
     t_intent := ∅; t_event := ∅; t_approval := ∅; t_ledger := ∅; t_outbox := ∅ |}.

Lemma bool_decide_eq_sym {A} `{EqDecision A} (x y : A) : bool_decide (x = y) = bool_decide (y = x).
Proof. apply bool_decide_ext. done. Qed.

Lemma intent_collision_sym a b : intent_collision a b = true -> intent_collision b a = true.
Proof.
  unfold intent_collision. rewrite !orb_true_iff, !andb_true_iff, !bool_decide_eq_true.
  intros [[[H1 H2]|[[[H1 H2] H3] H4]]|[[[[H1 H2] H3] H4] H5]].
  - left; left. done.
  - left; right. rewrite <- H4. done.
  - right. rewrite <- H5. done.
Qed.

Lemma approval_collision_sym a b : approval_collision a b = true -> approval_collision b a = true.
Proof.
  unfold approval_collision. rewrite !orb_true_iff, !andb_true_iff, !bool_decide_eq_true.
  intros [[[[H1 H2] H3]|[H1 H2]]|[H1 H2]].
  - left; left. done.
  - left; right. rewrite <- H2. done.
  - right. rewrite <- H2. done.
Qed.

Lemma event_same_key_sym a b : event_same_key a b = event_same_key b a.
Proof. unfold event_same_key. by rewrite (bool_decide_eq_sym (ev_intent_id a)),
  (bool_decide_eq_sym (ev_event_type a)), (bool_decide_eq_sym (ev_attempt_no a)). Qed.
Lemma outbox_same_key_sym a b : outbox_same_key a b = outbox_same_key b a.
Proof. unfold outbox_same_key. by rewrite (bool_decide_eq_sym (ob_destination a)),
  (bool_decide_eq_sym (ob_event_type a)), (bool_decide_eq_sym (ob_run_id a)). Qed.
Lemma same_posting_as_sym a b : same_posting_as a b = same_posting_as b a.
Proof. unfold same_posting_as. by rewrite (bool_decide_eq_sym (le_wallet_id a)),
  (bool_decide_eq_sym (le_posting_key a)). Qed.

(** A uniqueness property of pairs extends to an inserted row. *)
Section PairwiseInsert.
Context {K A : Type} `{Countable K} (bad : A -> A -> bool).
Hypothesis bad_sym : forall a b, bad a b = true -> bad b a = true.

Lemma pairwise_insert (m : gmap K A) k x :
  (forall k1 k2 r1 r2, m !! k1 = Some r1 -> m !! k2 = Some r2 -> k1 <> k2 -> bad r1 r2 = false) ->
  (forall k' y, m !! k' = Some y -> k' <> k -> bad y x = false) ->
  forall k1 k2 r1 r2, <[k := x]> m !! k1 = Some r1 -> <[k := x]> m !! k2 = Some r2 -> k1 <> k2 ->
                      bad r1 r2 = false.
Proof.
  intros Hm Hx k1 k2 r1 r2. rewrite !lookup_insert. intros H1 H2 Hne.
  case_decide; case_decide; simplify_eq; eauto.
  apply not_true_is_false. intros Hb%bad_sym. rewrite (Hx k2 r2) in Hb; done.
Qed.
End PairwiseInsert.

Lemma intents_ok_insert m r :
  intents_ok m -> intent_checks r = true ->
  (forall k y, m !! k = Some y -> k <> pi_id (ir_intent r) -> intent_collision y r = false) ->
  intents_ok (<[pi_id (ir_intent r) := r]> m).
Proof.
  intros [Hk Hc Hu] Hr Hx. split.
  - by apply keyed_insert.
  - intros k y. rewrite lookup_insert. case_decide; naive_solver.
  - eapply pairwise_insert; eauto using intent_collision_sym.
Qed.

Lemma approvals_ok_insert m a :
  approvals_ok m -> approval_checks a = true ->
  (forall k y, m !! k = Some y -> k <> ap_id a -> approval_collision y a = false) ->
  approvals_ok (<[ap_id a := a]> m).
Proof.
  intros [Hk Hc Hu] Hr Hx. split.
  - by apply keyed_insert.
  - intros k y. rewrite lookup_insert. case_decide; naive_solver.
  - eapply pairwise_insert; eauto using approval_collision_sym.
Qed.

Lemma intent_unique_spec d r :
  intents_ok (t_intent d) -> intent_unique d r = true ->
  forall k y, t_intent d !! k = Some y -> k <> pi_id (ir_intent r) -> intent_collision y r = false.
Proof.
  intros Hok Hu k y Hk Hne. unfold intent_unique in Hu. rewrite forallb_rows in Hu.
  specialize (Hu _ _ Hk). apply (intents_keyed _ Hok) in Hk as Hid.
  apply orb_true_iff in Hu as [Hu|Hu]; bool_inv; congruence.
Qed.

Lemma approval_unique_spec d a :
  approvals_ok (t_approval d) -> approval_unique d a = true ->
  forall k y, t_approval d !! k = Some y -> k <> ap_id a -> approval_collision y a = false.
Proof.
  intros Hok Hu k y Hk Hne. unfold approval_unique in Hu. rewrite forallb_rows in Hu.
  specialize (Hu _ _ Hk). apply (approvals_keyed _ Hok) in Hk as Hid.
  apply orb_true_iff in Hu as [Hu|Hu]; bool_inv; congruence.
Qed.

(** ** What each statement does *)

Lemma sql_insert_intent_ok r e d u d' :
  sql_insert_intent r e d = Ok (u, d') ->
  t_intent d !! pi_id (ir_intent r) = None /\ intent_checks r = true /\ intent_unique d r = true
  /\ intent_foreign_keys d (ir_intent r) = true /\ d' = set_intent <[pi_id (ir_intent r) := r]> d.
Proof.
  unfold sql_insert_intent. destruct (_ && _) eqn:Hg; [|done]. intros [= _ <-]. bool_inv.
  destruct (t_intent d !! _); [done|]. done.
Qed.

Lemma sql_update_intent_ok id guard f e d n d' :
  sql_update_intent id guard f e d = Ok (n, d') ->
  (n = 0 /\ d' = d)
  \/ exists r, n = 1 /\ t_intent d !! id = Some r /\ guard r = true /\ intent_checks (f r) = true
               /\ intent_unique d (f r) = true /\ d' = set_intent <[id := f r]> d.
Proof.
  unfold sql_update_intent. destruct (t_intent d !! id) as [r|] eqn:Hr; [|intros [= <- <-]; by left].
  destruct (guard r) eqn:Hg; [|intros [= <- <-]; by left].
  destruct (_ && _) eqn:Hc; [|done]. intros [= <- <-]. bool_inv. right. exists r. done.
Qed.

Lemma sql_insert_approval_ok a e d u d' :
  sql_insert_approval a e d = Ok (u, d') ->
  t_approval d !! ap_id a = None /\ approval_checks a = true /\ approval_unique d a = true
  /\ approval_foreign_key d a = true /\ d' = set_approval <[ap_id a := a]> d.
Proof.
  unfold sql_insert_approval. destruct (_ && _) eqn:Hg; [|done]. intros [= _ <-]. bool_inv.
  destruct (t_approval d !! _); [done|]. done.
Qed.

Lemma sql_update_approval_ok id guard f e d n d' :
  sql_update_approval id guard f e d = Ok (n, d') ->
  (n = 0 /\ d' = d)
  \/ exists a, n = 1 /\ t_approval d !! id = Some a /\ guard a = true /\ approval_checks (f a) = true
               /\ approval_unique d (f a) = true /\ d' = set_approval <[id := f a]> d.
Proof.
  unfold sql_update_approval. destruct (t_approval d !! id) as [r|] eqn:Hr; [|intros [= <- <-]; by left].
  destruct (guard r) eqn:Hg; [|intros [= <- <-]; by left].
  destruct (_ && _) eqn:Hc; [|done]. intros [= <- <-]. bool_inv. right. exists r. done.
Qed.

Lemma expect_one_ok n e d u d' : expect_one n e d = Ok (u, d') <-> n = 1 /\ d' = d.
Proof.
  unfold expect_one. rewrite tlift_ok, reject_if_ok, negb_false_iff, bool_decide_eq_true. done.
Qed.

Lemma insert_event_ok e d w d' :
  insert_event e d = Ok (w, d') ->
  (w = Replayed e /\ d' = d /\ exists k, t_event d !! k = Some e)
  \/ (w = Inserted e /\ d' = set_event <[ev_id e := e]> d /\ event_checks e = true
      /\ is_some (t_intent d !! ev_intent_id e) = true
      /\ forall k x, t_event d !! k = Some x -> ev_id x <> ev_id e /\ event_same_key x e = false).
Proof.
  unfold insert_event. intros Hok. run_inv.
  match type of Hok with context [match ?l with _ => _ end] => destruct l as [|y [|? ?]] eqn:Hs end.
  - run_inv. right. bool_inv. split_and!; try done.
    intros k z Hk. rewrite select_nil in Hs. specialize (Hs _ _ Hk). bool_inv. done.
  - case_bool_decide; run_inv. left. split_and!; try done.
    assert (e ∈ select (fun x => (ev_id x == ev_id e) || event_same_key x e) (t_event d)) as He
      by (rewrite Hs; left).
    by apply elem_of_select in He as [_ He].
  - run_inv.
Qed.

Lemma insert_outbox_ok m d u d' :
  insert_outbox m d = Ok (u, d') ->
  (d' = d /\ exists k x, t_outbox d !! k = Some x /\ same_logical_message x m = true)
  \/ (d' = set_outbox <[ob_id m := m]> d /\ outbox_checks m = true
      /\ forall k x, t_outbox d !! k = Some x -> ob_id x <> ob_id m /\ outbox_same_key x m = false).
Proof.
  unfold insert_outbox. intros Hok. run_inv.
  match type of Hok with context [match ?l with _ => _ end] => destruct l as [|y [|? ?]] eqn:Hs end.
  - run_inv. right. bool_inv. split_and!; try done.
    intros k z Hk. rewrite select_nil in Hs. specialize (Hs _ _ Hk). bool_inv. done.
  - run_inv. bool_inv. left. split; [done|].
    assert (y ∈ select (fun x => (ob_id x == ob_id m) || outbox_same_key x m) (t_outbox d)) as He
      by (rewrite Hs; left).
    apply elem_of_select in He as [_ [k He]]. eauto.
  - run_inv.
Qed.

Lemma insert_ledger_ok e d w d' :
  insert_ledger e d = Ok (w, d') ->
  (exists x k, w = Replayed x /\ d' = d /\ t_ledger d !! k = Some x /\ same_fact_content_as x e = true)
  \/ (w = Inserted e /\ d' = set_ledger <[le_id e := e]> d
      /\ t_ledger d !! le_id e = None /\ ledger_checks e = true /\ ledger_foreign_keys d e = true
      /\ ledger_reversal_once d e = true
      /\ (forall k x, t_ledger d !! k = Some x -> same_posting_as x e = false)
      /\ (forall o, le_reversal_of e = Some o ->
          exists original, t_ledger d !! o = Some original /\ validate_reversal_of e original = Ok tt)).
Proof.
  unfold insert_ledger. intros Hok. run_inv.
  match type of Hok with context [fetch_optional ?p ?m] => destruct (fetch_optional p m) as [old|] eqn:Hf end.
  - apply fetch_optional_Some in Hf as [Hp [k Hk]].
    destruct (same_fact_content_as old e) eqn:Hsame; run_inv. left. exists old, k. done.
  - rewrite fetch_optional_None in Hf. run_inv. bool_inv.
    destruct (le_reversal_of e) as [o|] eqn:Ho; run_inv; bool_inv.
    + destruct (t_ledger d !! le_id e) eqn:Hfresh; [done|].
      right. split_and!; try done. intros ? [= <-]. eexists; split; [done|].
      by match goal with Hv : validate_reversal_of _ _ = Ok ?u |- _ => destruct u end.
    + destruct (t_ledger d !! le_id e) eqn:Hfresh; [done|]. right. split_and!; done.
Qed.

(** *** Side effects change only the event and outbox tables, and only by
    adding rows. *)
Record appended (d d' : DB) : Prop := {
  ap_same_catalog : t_client d' = t_client d /\ t_scenario d' = t_scenario d /\ t_approver d' = t_approver d
                    /\ t_wallet d' = t_wallet d /\ t_key d' = t_key d /\ t_policy d' = t_policy d
                    /\ t_price d' = t_price d;
  ap_same_intent : t_intent d' = t_intent d;
  ap_same_approval : t_approval d' = t_approval d;
  ap_same_ledger : t_ledger d' = t_ledger d;
  ap_events : events_ok (t_event d) -> events_ok (t_event d') /\ t_event d ⊆ t_event d';
  ap_events_bound : events_bound d -> events_bound d';
  ap_outbox : outbox_ok (t_outbox d) -> outbox_ok (t_outbox d') /\ t_outbox d ⊆ t_outbox d'
}.

#[export] Instance appended_refl : Reflexive appended.
Proof. intros d. by split. Qed.

#[export] Instance appended_trans : Transitive appended.
Proof.
  intros a b c [Hc1 ? ? ? He1 ? Ho1] [Hc2 ? ? ? He2 ? Ho2]. split.
  - destruct Hc1 as (?&?&?&?&?&?&?), Hc2 as (?&?&?&?&?&?&?). split_and!; congruence.
  - congruence.
  - congruence.
  - congruence.
  - intros [? ?]%He1. destruct He2; [done|]. split; [done|]. by etrans.
  - auto.
  - intros [? ?]%Ho1. destruct Ho2; [done|]. split; [done|]. by etrans.
Qed.

Lemma events_ok_insert m e :
  events_ok m -> event_checks e = true ->
  (forall k x, m !! k = Some x -> ev_id x <> ev_id e /\ event_same_key x e = false) ->
  events_ok (<[ev_id e := e]> m) /\ m ⊆ <[ev_id e := e]> m.
Proof.
  intros [Hk Hc Hu] Hce Hx.
  assert (m !! ev_id e = None) as Hfresh.
  { destruct (m !! ev_id e) as [y|] eqn:Hy; [|done].
    apply Hk in Hy as Hid. apply Hx in Hy as [? _]. congruence. }
  split; [|by apply insert_subseteq]. split; [by apply keyed_insert|intros k y; rewrite lookup_insert; case_decide; naive_solver|].
  intros k1 k2 e1 e2 Ha Hb Hsame. rewrite lookup_insert in Ha, Hb.
  destruct (decide (ev_id e = k1)), (decide (ev_id e = k2)); simplify_eq; try done.
  - rewrite event_same_key_sym in Hsame. apply Hx in Hb as [_ ?]. congruence.
  - apply Hx in Ha as [_ ?]. congruence.
  - eauto.
Qed.

Lemma outbox_ok_insert m x :
  outbox_ok m -> outbox_checks x = true ->
  (forall k y, m !! k = Some y -> ob_id y <> ob_id x /\ outbox_same_key y x = false) ->
  outbox_ok (<[ob_id x := x]> m) /\ m ⊆ <[ob_id x := x]> m.
Proof.
  intros [Hk Hc Hu] Hcx Hx.
  assert (m !! ob_id x = None) as Hfresh.
  { destruct (m !! ob_id x) as [y|] eqn:Hy; [|done].
    apply Hk in Hy as Hid. apply Hx in Hy as [? _]. congruence. }
  split; [|by apply insert_subseteq]. split.
  - by apply keyed_insert.
  - intros k y. rewrite lookup_insert. case_decide; naive_solver.
  - intros k1 k2 e1 e2 Ha Hb Hsame. rewrite lookup_insert in Ha, Hb.
    destruct (decide (ob_id x = k1)), (decide (ob_id x = k2)); simplify_eq; try done.
    + rewrite outbox_same_key_sym in Hsame. apply Hx in Hb as [_ ?]. congruence.
    + apply Hx in Ha as [_ ?]. congruence.
    + eauto.
Qed.

Lemma insert_event_appended e d w d' : insert_event e d = Ok (w, d') -> appended d d'.
Proof.
  intros [(-> & -> & _)|(-> & -> & Hc & Hi & Hx)]%insert_event_ok; [done|].
  split; try done.
  - intros ?. by apply events_ok_insert.
  - intros Hb k x Hk. simpl in *. rewrite lookup_insert in Hk. case_decide; [|by eapply Hb].
    simplify_eq. by destruct (t_intent d !! ev_intent_id x).
Qed.

Lemma insert_outbox_appended m d u d' : insert_outbox m d = Ok (u, d') -> appended d d'.
Proof.
  intros [(-> & _)|(-> & Hc & Hx)]%insert_outbox_ok; [done|].
  split; try done. intros ?. by apply outbox_ok_insert.
Qed.

Lemma append_side_effects_appended events outbox d u d' :
  append_side_effects events outbox d = Ok (u, d') -> appended d d'.
Proof.
  unfold append_side_effects. intros Hok. run_inv.
  match goal with He : tfor _ events _ = Ok (_, ?s) |- _ => transitivity s end.
  - eapply (tfor_rel appended); [|eassumption].
    intros e s1 s2 _ He. cbv beta in He. run_inv. by eapply insert_event_appended.
  - eapply (tfor_rel appended); [|eassumption].
    intros m s1 s2 _ Hm. by eapply insert_outbox_appended.
Qed.

(** Every event passed to [append_side_effects] is stored when it commits. *)
Lemma append_side_effects_stored events outbox d u d' :
  events_ok (t_event d) -> append_side_effects events outbox d = Ok (u, d') ->
  forall e, e ∈ events -> t_event d' !! ev_id e = Some e.
Proof.
  unfold append_side_effects. intros Hev Hok. run_inv.
  match goal with He : tfor _ events d = Ok (_, ?s), Ho : tfor _ outbox ?s = Ok _ |- _ =>
    assert (events_ok (t_event s) /\ forall e, e ∈ events -> t_event s !! ev_id e = Some e) as [Hs Hall] end.
  - clear Hok. match goal with He : tfor _ events d = Ok (_, ?s) |- _ => revert He; generalize s as mid end.
    revert d Hev. induction events as [|e es IH]; intros d Hev mid Hfor; simpl in Hfor; run_inv.
    { split; [done|]. intros e He. inversion He. }
    match goal with Hi : insert_event e d = Ok _ |- _ =>
      pose proof (insert_event_appended _ _ _ _ Hi) as Happ; apply insert_event_ok in Hi as Hcase end.
    destruct (ap_events _ _ Happ Hev) as [Hev1 _].
    edestruct IH as [Hevm Hm]; [exact Hev1|eassumption|]. split; [done|].
    intros e' [->|He']%elem_of_cons; [|by apply Hm].
    match goal with Ht : tfor _ es ?s1 = Ok _ |- _ =>
      assert (t_event s1 !! ev_id e = Some e) as Hin end.
    { destruct Hcase as [(_ & -> & k & Hk)|(_ & -> & _)].
      - by rewrite (events_keyed _ Hev k e Hk).
      - simpl. apply lookup_insert_eq. }
    eapply lookup_weaken; [exact Hin|].
    match goal with Ht : tfor _ es ?s1 = Ok _ |- _ => apply (tfor_rel appended) in Ht as Hrel end.
    + destruct (ap_events _ _ Hrel Hev1). done.
    + intros e0 s1 s2 _ He0. cbv beta in He0. run_inv. by eapply insert_event_appended.
  - intros e He. eapply lookup_weaken; [by apply Hall|].
    match goal with Ht : tfor _ outbox ?s1 = Ok _ |- _ => apply (tfor_rel appended) in Ht as Hrel end.
    + destruct (ap_events _ _ Hrel Hs). done.
    + intros e0 s1 s2 _ He0. by eapply insert_outbox_appended.
Qed.
