(* ===== verification/LedgerStore.v ===== *)
(** * Append-only stores

    What [insert_ledger], [insert_event] and [append_batch] guarantee
    ([src/src/storage/{ledger,event}/sqlite.rs]): the table constraints are
    kept, rows are only ever added, a repeated append is recognised, and a
    reversal negates one existing entry at most once. *)

From S2P Require Import Prelude Text Money Json Wallet Intent Policy Ledger Records Store.

#[local] Open Scope string_scope.
#[local] Open Scope vault_scope.

(** The states differ at most in the ledger. *)
Definition only_ledger (d d' : DB) : Prop := d' = set_ledger (fun _ => t_ledger d') d.

Lemma validate_reversal_of_spec e original u :
  validate_reversal_of e original = Ok u ->
  le_reversal_of e = Some (le_id original) /\ le_wallet_id e = le_wallet_id original
  /\ le_intent_id e = le_intent_id original /\ le_scenario_id e = le_scenario_id original
  /\ le_asset e = le_asset original /\ le_amount e = le_amount original
  /\ le_direction e <> le_direction original
  /\ le_entry_type e = LReversal /\ le_entry_type original <> LReversal.
Proof.
  unfold validate_reversal_of. intros Hok. run_inv. bool_inv. split_and!; done.
Qed.

Lemma ledger_ok_insert m e :
  ledger_ok m -> ledger_checks e = true -> m !! le_id e = None ->
  (forall k x, m !! k = Some x -> same_posting_as x e = false) ->
  (forall o, le_reversal_of e = Some o ->
     exists original, m !! o = Some original /\ validate_reversal_of e original = Ok tt) ->
  (forall k x o, m !! k = Some x -> le_reversal_of x = Some o -> le_reversal_of e <> Some o) ->
  ledger_ok (<[le_id e := e]> m) /\ m ⊆ <[le_id e := e]> m.
Proof.
  intros [Hk Hc Hu Hr Ho] Hce Hfresh Hpost Hrev Honce.
  assert (m ⊆ <[le_id e := e]> m) as Hsub by (by apply insert_subseteq).
  split; [|done]. split.
  - by apply keyed_insert.
  - intros k y. rewrite lookup_insert. case_decide; naive_solver.
  - intros k1 k2 e1 e2 Ha Hb Hsame. rewrite lookup_insert in Ha, Hb.
    destruct (decide (le_id e = k1)), (decide (le_id e = k2)); simplify_eq; try done.
    + rewrite same_posting_as_sym in Hsame. rewrite (Hpost _ _ Hb) in Hsame. done.
    + rewrite (Hpost _ _ Ha) in Hsame. done.
    + eauto.
  - intros k x o Hx Hxo. rewrite lookup_insert in Hx. destruct (decide (le_id e = k)); simplify_eq.
    + destruct (Hrev o Hxo) as (orig & ? & ?). exists orig. split; [by eapply lookup_weaken|done].
    + destruct (Hr _ _ _ Hx Hxo) as (orig & ? & ?). exists orig. split; [by eapply lookup_weaken|done].
  - intros k1 k2 e1 e2 o Ha Hb Hra Hrb. rewrite lookup_insert in Ha, Hb.
    destruct (decide (le_id e = k1)), (decide (le_id e = k2)); simplify_eq; try done.
    + by destruct (Honce _ _ _ Hb Hrb).
    + by destruct (Honce _ _ _ Ha Hra).
    + eauto.
Qed.

Lemma insert_ledger_preserves e d w d' :
  ledger_ok (t_ledger d) -> insert_ledger e d = Ok (w, d') ->
  ledger_ok (t_ledger d') /\ t_ledger d ⊆ t_ledger d' /\ only_ledger d d'
  /\ exists x k, t_ledger d' !! k = Some x /\ same_fact_content_as x e = true.
Proof.
  intros Hok Hins.
  apply insert_ledger_ok in Hins
    as [(x & k & -> & -> & Hk & Hsame)|(-> & -> & Hfresh & Hc & Hfk & Honce & Hpost & Hrev)].
  - split_and!; eauto. unfold only_ledger, set_ledger. by destruct d.
  - destruct (ledger_ok_insert _ _ Hok Hc Hfresh Hpost Hrev) as [? ?].
    { intros k x o Hk Hx He. unfold ledger_reversal_once in Honce. rewrite He in Honce. simpl in Honce.
      bool_inv. apply not_true_iff_false in Honce. apply Honce, existsb_exists. exists x.
      rewrite <- list_elem_of_In, elem_of_rows, bool_decide_eq_true. split; [eauto|congruence]. }
    split_and!; try done. exists e, (le_id e). simpl. rewrite lookup_insert_eq.
    by rewrite same_fact_content_refl.
Qed.

(** The state after a batch of appends. *)
Record ledger_grown (d d' : DB) : Prop := {
  lg_ledger : ledger_ok (t_ledger d) ->
              ledger_ok (t_ledger d') /\ t_ledger d ⊆ t_ledger d';
  lg_only : only_ledger d d'
}.

#[export] Instance ledger_grown_refl : Reflexive ledger_grown.
Proof. intros d. split; [done|]. unfold only_ledger, set_ledger. by destruct d. Qed.
#[export] Instance ledger_grown_trans : Transitive ledger_grown.
Proof.
  intros a b c [H1 O1] [H2 O2]. split.
  - intros [Hb Hsub]%H1. destruct (H2 Hb). split; [done|]. by etrans.
  - unfold only_ledger, set_ledger in *. rewrite O2, O1. done.
Qed.

Lemma insert_ledger_grown e d w d' : insert_ledger e d = Ok (w, d') -> ledger_grown d d'.
Proof.
  intros Hins. split.
  - intros Hok. destruct (insert_ledger_preserves _ _ _ _ Hok Hins) as (? & ? & _). done.
  - apply insert_ledger_ok in Hins as [(x & k & -> & -> & _)|(-> & -> & _)];
      unfold only_ledger, set_ledger; by destruct d.
Qed.

(** After a loop of appends, every entry is present as a fact with the same
    content. *)
Lemma insert_ledgers_stored entries d u d' :
  ledger_ok (t_ledger d) ->
  tfor (fun e => insert_ledger e ;* tret tt) entries d = Ok (u, d') ->
  ledger_grown d d'
  /\ forall e, e ∈ entries -> exists x k, t_ledger d' !! k = Some x /\ same_fact_content_as x e = true.
Proof.
  revert d. induction entries as [|e es IH]; intros d Hok Hfor; simpl in Hfor; run_inv.
  - split; [done|]. intros e He. inversion He.
  - match goal with Hi : insert_ledger e d = Ok _ |- _ =>
      apply insert_ledger_grown in Hi as Hg; apply insert_ledger_preserves in Hi as (Hok1 & _ & _ & y & k & Hk & Hs);
      [|done] end.
    edestruct IH as [Hg2 Hall]; [exact Hok1|eassumption|].
    split; [by etrans|]. intros e' [->|He']%elem_of_cons; [|by apply Hall].
    exists y, k. split; [|done]. destruct (lg_ledger _ _ Hg2 Hok1) as [_ Hsub]. by eapply lookup_weaken.
Qed.

Lemma fetch_posting_unique m k x e :
  ledger_ok m -> m !! k = Some x -> same_posting_as x e = true ->
  fetch_optional (fun y => same_posting_as y e) m = Some x.
Proof.
  intros Hok Hk Hx. apply (fetch_optional_unique _ m k x); [done..|].
  intros k' y Hk' Hy. assert (k' = k) as ->; [|congruence].
  apply (ledger_unique _ Hok _ _ _ _ Hk' Hk).
  unfold same_posting_as in *. bool_inv. rewrite andb_true_iff, !bool_decide_eq_true. split; congruence.
Qed.

(** ** Properties *)

(** Appending to the ledger never changes or removes a posted entry, keeps
    every ledger constraint, and touches no other table; this holds for any
    batch of entries and notifications. *)
Lemma append_batch_append_only entries outbox d results d' :
  ledger_ok (t_ledger d) -> append_batch entries outbox d = Ok (results, d') ->
  t_ledger d ⊆ t_ledger d' /\ ledger_ok (t_ledger d') /\ t_intent d' = t_intent d
  /\ t_approval d' = t_approval d /\ t_wallet d' = t_wallet d.
Proof.
  intros Hok Hrun. unfold append_batch in Hrun. run_inv.
  match goal with Hm : tmapM insert_ledger entries d = Ok (?rs, ?s), Ho : tfor insert_outbox outbox ?s = Ok _ |- _ =>
    rename Hm into Hledger, Ho into Houtbox; rename s into mid, rs into written end.
  assert (ledger_grown d mid) as Hg.
  { clear Houtbox Hok. revert d written Hledger. induction entries as [|e es IH]; intros d written Hm;
      simpl in Hm; run_inv; [done|].
    etrans; [by eapply insert_ledger_grown|]. by eapply IH. }
  apply (tfor_rel appended) in Houtbox as Happ; [|intros; by eapply insert_outbox_appended].
  destruct (lg_ledger _ _ Hg Hok), Happ as [(?&?&?&?&?&?&?) ? ? Hl _ _ _]. rewrite Hl.
  pose proof (lg_only _ _ Hg) as Honly. unfold only_ledger, set_ledger in Honly.
  assert (t_intent mid = t_intent d) by (by rewrite Honly).
  assert (t_approval mid = t_approval d) by (by rewrite Honly).
  assert (t_wallet mid = t_wallet d) by (by rewrite Honly).
  split_and!; [done..|congruence|congruence|congruence].
Qed.

(** Posting the same external fact twice is a replay: once an append has
    succeeded, the same append succeeds again, returns a stored entry with the
    same financial content and leaves the database as it was. *)
Lemma insert_ledger_idempotent e d w d' :
  ledger_ok (t_ledger d) -> insert_ledger e d = Ok (w, d') ->
  exists x, insert_ledger e d' = Ok (Replayed x, d') /\ same_fact_content_as x e = true.
Proof.
  intros Hok Hins.
  destruct (insert_ledger_preserves _ _ _ _ Hok Hins) as (Hok' & _ & _ & x & k & Hk & Hsame).
  exists x. split; [|done].
  assert (fetch_optional (fun y => same_posting_as y e) (t_ledger d') = Some x) as Hf.
  { eapply fetch_posting_unique; [done..|]. unfold same_fact_content_as in Hsame. by bool_inv. }
  unfold insert_ledger in Hins. run_inv.
  unfold insert_ledger, tbind, tlift, treads.
  match goal with Hv : PaymentLedgerEntry_validate e = Ok _ |- _ => rewrite Hv end. simpl.
  by rewrite Hf, Hsame.
Qed.

(** A posting key bound to one fact never accepts another: an append whose
    wallet and posting key are taken by an entry with different financial
    content fails. *)
Lemma insert_ledger_key_conflict e d k x :
  ledger_ok (t_ledger d) -> t_ledger d !! k = Some x ->
  same_posting_as x e = true -> same_fact_content_as x e = false ->
  exists error, insert_ledger e d = Err error.
Proof.
  intros Hok Hk Hpost Hdiff. unfold insert_ledger, tbind, tlift, treads.
  destruct (map_err _ _) as [[]|error]; [|eauto].
  rewrite (fetch_posting_unique _ _ _ _ Hok Hk Hpost), Hdiff. unfold tfail. eauto.
Qed.

(** A reversal negates exactly one posted entry: it names an existing entry
    of the same wallet, asset and amount in the opposite direction that is not
    itself a reversal, and no second entry reverses the same original. *)
Lemma insert_ledger_reversal e d d' o :
  ledger_ok (t_ledger d) -> insert_ledger e d = Ok (Inserted e, d') -> le_reversal_of e = Some o ->
  exists original,
    t_ledger d' !! o = Some original /\ le_wallet_id original = le_wallet_id e
    /\ le_asset original = le_asset e /\ le_amount original = le_amount e
    /\ le_direction original <> le_direction e /\ le_entry_type original <> LReversal
    /\ (forall k x, t_ledger d' !! k = Some x -> le_reversal_of x = Some o -> x = e).
Proof.
  intros Hok Hins Ho.
  destruct (insert_ledger_preserves _ _ _ _ Hok Hins) as (Hok' & Hsub & _ & _).
  apply insert_ledger_ok in Hins as [(? & ? & [=] & _)|(_ & -> & _ & _ & _ & _ & _ & Hrev)].
  destruct (Hrev o Ho) as (original & Horig & Hv).
  apply validate_reversal_of_spec in Hv as (_ & ? & _ & _ & ? & ? & ? & _ & ?).
  exists original. split_and!; try done; [by eapply lookup_weaken|].
  intros k x Hk Hx.
  assert (k = le_id e) as ->.
  { eapply (ledger_reversed_once _ Hok' k (le_id e) x e o); try done. simpl. apply lookup_insert_eq. }
  simpl in Hk. rewrite lookup_insert_eq in Hk. congruence.
Qed.

(** ** Witnesses *)

Definition sample_entry (id key : string) : PaymentLedgerEntry :=
  {| le_id := id; le_intent_id := None; le_scenario_id := None; le_wallet_id := "wallet-1";
     le_entry_type := LDeposit; le_direction := Inbound; le_asset := sample_asset; le_amount := 500;
     le_posting_key := key; le_tx_hash := Some "0x01"; le_settlement_ref := None; le_effect_ref := None;
     le_transfer_ref := None; le_reversal_of := None; le_effective_at := 1700000000; le_created_at := 1700000001 |}.

Definition sample_wallet : PaymentWallet :=
  {| pw_wallet := {| w_id := "wallet-1"; w_algorithm := "secp256k1";
                     w_address := "0xabcdef0123456789abcdef0123456789abcdef01"; w_public_key := "04ab";
                     w_created_at := 1600000000 |};
     pw_custody := Local; pw_enabled := true; pw_active_key_version := None;
     pw_budget_unit := Some (budget_unit sample_asset);
     pw_max_per_payment := None; pw_max_per_day := Some 600000%N; pw_updated_at := 1600000000 |}.

Definition sample_ledger_db : DB :=
  {| t_client := ∅; t_scenario := ∅; t_approver := ∅; t_wallet := {["wallet-1" := sample_wallet]}; t_key := ∅;
     t_policy := ∅; t_price := ∅; t_intent := ∅; t_event := ∅; t_approval := ∅; t_ledger := ∅; t_outbox := ∅ |}.

Lemma ledger_ok_empty : ledger_ok ∅.
Proof. split; [intros ? ? Hk|..]; intros; simplify_map_eq. Qed.

Definition sample_posted : Result Error (IdempotentWrite PaymentLedgerEntry * DB) :=
  insert_ledger (sample_entry "entry-1" "deposit:1") sample_ledger_db.

Definition state_of {A} (r : Result Error (A * DB)) : DB :=
  match r with Ok (_, d) => d | Err _ => empty_db end.

Lemma sample_posted_ok : ledger_ok (t_ledger (state_of sample_posted)).
Proof.
  apply (insert_ledger_preserves (sample_entry "entry-1" "deposit:1") sample_ledger_db
           (Inserted (sample_entry "entry-1" "deposit:1"))); [apply ledger_ok_empty|].
  vm_compute. reflexivity.
Qed.

Definition sample_reversal : PaymentLedgerEntry :=
  {| le_id := "entry-2"; le_intent_id := None; le_scenario_id := None; le_wallet_id := "wallet-1";
     le_entry_type := LReversal; le_direction := Outbound; le_asset := sample_asset; le_amount := 500;
     le_posting_key := "reversal:1"; le_tx_hash := Some "0x02"; le_settlement_ref := None; le_effect_ref := None;
     le_transfer_ref := None; le_reversal_of := Some "entry-1"; le_effective_at := 1700000100;
     le_created_at := 1700000101 |}.
