(* ===== verification/PaymentRules.v ===== *)
(** * Payment transition rules

    [PaymentStorageRules], [ReservationMutation] and [OutboundEvidenceWrite] of
    [src/src/storage/payment/mod.rs]: the pure checks every payment
    transaction runs before it writes. *)

From S2P Require Import Prelude Text Money Json Wallet Intent Ledger Records.

#[local] Open Scope string_scope.
#[local] Open Scope vault_scope.

Inductive ReservationMutation : Type := RmUnchanged | RmReleaseOnly | RmSettlement | RmApprovalReserve.
#[export] Instance ReservationMutation_eq_dec : EqDecision ReservationMutation.
Proof. solve_decision. Defined.

(** [PaymentStorageRules::allowed_status_transition] *)
Definition allowed_status_transition (from to : PaymentStatus) : bool :=
  (from == to)
  || match from, to with
     | Created, (PendingApproval | Authorized | Submitted | Failed | Expired) => true
     | PendingApproval, (Authorized | Failed | Expired) => true
     | Authorized, (Signed | Submitted | PendingSettlement | Failed | Expired | Unknown) => true
     | Signed, (Submitted | PendingSettlement | Settled | Failed | Unknown) => true
     | Submitted, (PendingSettlement | Settled | Failed | Unknown) => true
     | PendingSettlement, (Settled | Failed | Expired | Unknown) => true
     | Unknown, (Submitted | PendingSettlement | Settled | Failed | Expired) => true
     | _, _ => false
     end.

(** [PaymentStorageRules::checked_usage] *)
Definition checked_usage (reserved confirmed : Amount) (scope : string) : Result Error Amount :=
  ok_or (Amount.checked_add reserved confirmed) (Storage (scope ++ " payment usage overflowed u128")).

Section Challenges.
Context `{SolanaPubkey}.

(** [PaymentStorageRules::challenge_matches_intent] *)
Definition challenge_matches_intent (c : PaymentChallenge) (i : PaymentIntent) (d : PaymentDirection) : bool :=
  (pi_direction i == d)
  && (ch_scenario_id c == pi_scenario_id i)
  && (ch_price_id c == pi_price_id i)
  && (ch_resource c == pi_resource i)
  && (ch_protocol c == pi_protocol i)
  && (ch_asset c == pi_asset i)
  && (ch_amount c == pi_amount i)
  && payment_recipients_match (as_network (pi_asset i)) (ch_recipient c) (pi_recipient i)
  && negb (blank (ch_nonce c))
  && negb (blank (ch_challenge_hash c))
  && (pi_challenge_hash i == Some (ch_challenge_hash c))
  && (pi_expires_at i == Some (ch_expires_at c)).

Definition of_type (t : PaymentEventType) (events : list PaymentEvent) : list PaymentEvent :=
  List.filter (fun e => ev_event_type e == t) events.

(** The complete challenge of an event payload. *)
Definition event_challenge (kind : string) (e : PaymentEvent) : Result Error PaymentChallenge :=
  let? value := ok_or (jget "challenge" (ev_payload e))
                      (conflict (kind ++ " challenge event has no complete challenge")) in
  ok_or (challenge_from_json value) (conflict (kind ++ " challenge event contains an invalid challenge")).

(** The fields every challenge event has: it opens the intent's history. *)
Definition opening_event (e : PaymentEvent) (i : PaymentIntent) : bool :=
  (ev_intent_id e == pi_id i) && (ev_attempt_no e =? 0)%N && is_none (ev_signature_ref e)
  && is_none (ev_tx_hash e) && (ev_created_at e == pi_created_at i).

(** [PaymentStorageRules::validate_challenge_created_event] *)
Definition validate_challenge_created_event (events : list PaymentEvent) (i : PaymentIntent)
    (expected : PaymentChallenge) : Result Error unit :=
  match of_type EvChallengeCreated events with
  | [e] =>
      let? c := event_challenge "created" e in
      reject_if (negb (opening_event e i)
                 || (c != expected)
                 || negb (challenge_matches_intent c i Inbound))
                (conflict "created challenge event is not bound to the inbound payment intent")
  | _ => Err (conflict "inbound issuance must contain exactly one created challenge event")
  end.

(** [PaymentStorageRules::validate_challenge_received_event] *)
Definition validate_challenge_received_event (events : list PaymentEvent) (i : PaymentIntent)
  : Result Error unit :=
  match of_type EvChallengeReceived events with
  | [e] =>
      let? c := event_challenge "received" e in
      reject_if (negb (opening_event e i)
                 || (jget_str "challenge_hash" (ev_payload e) != Some (ch_challenge_hash c))
                 || negb (challenge_matches_intent c i Outbound))
                (conflict "received challenge event is not bound to the outbound payment intent")
  | _ => Err (conflict "outbound authorization must contain exactly one received challenge event")
  end.
End Challenges.

Definition progress_event_type (t : PaymentEventType) : bool :=
  match t with EvCredentialVerified | EvSettlementRequested | EvRetried | EvFailed => true | _ => false end.

(** [PaymentStorageRules::validate_progress_transition] *)
Definition validate_progress_transition (existing i : PaymentIntent) (expected_updated_at : Z)
    (events : list PaymentEvent) : Result Error ReservationMutation :=
  reject_if ((pi_updated_at existing != expected_updated_at)
             || negb (same_immutable_identity_as existing i)
             || negb (allowed_status_transition (pi_status existing) (pi_status i))
             || negb match pi_status i with PendingSettlement | Unknown | Failed | Expired => true | _ => false end
             || (pi_settled_amount i != pi_settled_amount existing)
             || (pi_tx_hash i != pi_tx_hash existing)
             || (pi_settlement_ref i != pi_settlement_ref existing)
             || (pi_settled_at i != pi_settled_at existing)
             || bool_decide (events = [])
             || existsb (fun e => (ev_intent_id e != pi_id i) || negb (progress_event_type (ev_event_type e))) events)
            (conflict "non-financial payment progress is invalid") ;?
  if (pi_reservation_status i == pi_reservation_status existing)
     && (pi_reserved_amount i == pi_reserved_amount existing)
  then Ok RmUnchanged
  else if (pi_reservation_status existing == Reserved) && (pi_reservation_status i == Released)
          && (pi_reserved_amount i == pi_reserved_amount existing)
          && match pi_status i with Failed | Expired => true | _ => false end
  then Ok RmReleaseOnly
  else Err (conflict "non-financial payment progress cannot consume or replace a reservation").

(** A ledger entry that belongs to the intent. *)
Definition entry_bound (e : PaymentLedgerEntry) (i : PaymentIntent) : bool :=
  (le_intent_id e == Some (pi_id i)) && (le_scenario_id e == Some (pi_scenario_id i))
  && (Some (le_wallet_id e) == pi_wallet_id i).

(** [PaymentStorageRules::validate_settlement_transition] *)
Definition validate_settlement_transition (existing i : PaymentIntent) (expected_updated_at : Z)
    (entries : list PaymentLedgerEntry) : Result Error unit :=
  reject_if ((pi_updated_at existing != expected_updated_at)
             || negb (same_immutable_identity_as existing i)
             || negb (allowed_status_transition (pi_status existing) (pi_status i)))
            (conflict "settlement payment identity or revision changed") ;?
  reject_if (existsb (fun e => negb (entry_bound e i)) entries)
            (conflict "settlement ledger entry is not bound to its payment intent") ;?
  (if pi_reservation_status existing == Reserved then
     reject_if (pi_reservation_status i != Consumed) (conflict "settlement must consume the existing reservation") ;?
     reject_if (negb (existsb (fun e => (le_direction e == pi_direction i)
                                        && (budget_unit (le_asset e) == budget_unit (pi_asset i))
                                        && (le_intent_id e == Some (pi_id i))) entries))
               (conflict "reservation consumption requires a matching confirmed ledger fact")
   else reject_if ((pi_reservation_status i == Consumed) && (pi_reservation_status existing != Consumed))
                  (conflict "an unreserved payment cannot become consumed")) ;?
  reject_if ((pi_status i == Settled)
             && (is_none (pi_settled_at i) || Amount.is_zero (pi_settled_amount i) || bool_decide (entries = [])))
            (conflict "settled payment is missing confirmed settlement facts").

(** ** Outbound merchant evidence *)

Definition jnested (k : string) (o : option json) : option json :=
  match o with Some j => jget k j | None => None end.
Definition jstr (o : option json) : option string := match o with Some j => as_str j | None => None end.
Definition jbool (o : option json) : option bool := match o with Some j => as_bool j | None => None end.

Definition evidence_payload_bound (payload : json) (evidence_hash : string) (existing : PaymentIntent) : bool :=
  let response := jget "merchant_response" payload in
  (jstr (jget "evidence_hash" payload) == Some evidence_hash)
  && (jbool (jnested "success" response) == Some true)
  && (jstr (jnested "protocol" response) == Some (pi_protocol existing))
  && is_some_and (fun v => negb (is_empty v)) (jstr (jnested "transaction" response))
  && (jstr (jnested "network" response) == Some (as_network (pi_asset existing)))
  && is_some_and (fun v => negb (is_empty v)) (jstr (jnested "payer" response)).

(** [OutboundEvidenceWrite::validate_outbound_evidence_transition] *)
Definition validate_outbound_evidence_transition (existing candidate : PaymentIntent) (expected_updated_at : Z)
    (event : PaymentEvent) (evidence_hash : string) : Result Error unit :=
  let hash_valid := (str_len evidence_hash =? 64)%N && bytes_all is_ascii_hexdigit evidence_hash in
  reject_if (negb hash_valid
             || (pi_updated_at existing != expected_updated_at)
             || (pi_direction existing != Outbound)
             || blank (pi_protocol existing)
             || negb match pi_status existing with Signed | Unknown => true | _ => false end
             || (pi_status candidate != PendingSettlement)
             || negb (same_immutable_identity_as existing candidate)
             || (pi_updated_at candidate <=? expected_updated_at)%Z
             || (pi_reservation_status candidate != pi_reservation_status existing)
             || (pi_reserved_amount candidate != pi_reserved_amount existing)
             || (pi_reservation_status existing != Reserved)
             || (pi_reserved_amount existing != pi_amount existing)
             || (pi_settled_amount candidate != pi_settled_amount existing)
             || (pi_tx_hash candidate != pi_tx_hash existing)
             || (pi_settlement_ref candidate != pi_settlement_ref existing)
             || (pi_settled_at candidate != pi_settled_at existing)
             || is_none (pi_next_reconcile_at candidate)
             || (ev_intent_id event != pi_id existing)
             || (ev_event_type event != EvSubmitted)
             || negb (ev_attempt_no event =? 0)%N
             || is_some (ev_signature_ref event)
             || is_some (ev_tx_hash event)
             || (ev_created_at event != pi_updated_at candidate)
             || negb (evidence_payload_bound (ev_payload event) evidence_hash existing))
            (PaymentConflict "outbound merchant evidence transition is invalid").

(** [OutboundEvidenceWrite::outbound_evidence_replay_matches] *)
Definition outbound_evidence_replay_matches (event : PaymentEvent) (intent_id evidence_hash : string) : bool :=
  (ev_intent_id event == intent_id) && (ev_event_type event == EvSubmitted) && (ev_attempt_no event =? 0)%N
  && is_none (ev_signature_ref event) && is_none (ev_tx_hash event)
  && (jget_str "evidence_hash" (ev_payload event) == Some evidence_hash).

(** ** The lifecycle as a graph *)

Definition status_step (from to : PaymentStatus) : Prop :=
  from <> to /\ allowed_status_transition from to = true.

(** How far a status is from the end of the lifecycle: [Unknown],
    [Submitted] and [PendingSettlement] may alternate, every other change of
    status makes progress. *)
Definition status_rank (s : PaymentStatus) : nat :=
  match s with
  | Created => 5
  | PendingApproval => 4
  | Authorized => 3
  | Signed => 2
  | Submitted | PendingSettlement | Unknown => 1
  | Settled | Failed | Expired => 0
  end.

(** ** Lemmas *)

Lemma validate_progress_transition_ok existing i expected events m :
  validate_progress_transition existing i expected events = Ok m ->
  pi_updated_at existing = expected /\ same_immutable_identity_as existing i = true
  /\ allowed_status_transition (pi_status existing) (pi_status i) = true
  /\ (pi_status i = PendingSettlement \/ pi_status i = Unknown \/ pi_status i = Failed \/ pi_status i = Expired)
  /\ pi_settled_amount i = pi_settled_amount existing /\ pi_tx_hash i = pi_tx_hash existing
  /\ pi_settlement_ref i = pi_settlement_ref existing /\ pi_settled_at i = pi_settled_at existing
  /\ pi_reserved_amount i = pi_reserved_amount existing
  /\ ((m = RmUnchanged /\ pi_reservation_status i = pi_reservation_status existing)
      \/ (m = RmReleaseOnly /\ pi_reservation_status existing = Reserved /\ pi_reservation_status i = Released
          /\ (pi_status i = Failed \/ pi_status i = Expired))).
Proof.
  unfold validate_progress_transition. intros Hok. run_inv. bool_inv.
  match type of Hok with (if ?b then _ else _) = _ => destruct b eqn:Hsame end.
  - run_inv. bool_inv. split_and!; try done; [|by left]. destruct (pi_status i); intuition congruence.
  - match type of Hok with (if ?b then _ else _) = _ => destruct b eqn:Hrel end; run_inv. bool_inv.
    split_and!; try done; [destruct (pi_status i); intuition congruence|].
    right. split_and!; try done. destruct (pi_status i); intuition congruence.
Qed.

Lemma validate_settlement_transition_ok existing i expected entries u :
  validate_settlement_transition existing i expected entries = Ok u ->
  pi_updated_at existing = expected /\ same_immutable_identity_as existing i = true
  /\ allowed_status_transition (pi_status existing) (pi_status i) = true
  /\ (forall e, e ∈ entries -> entry_bound e i = true)
  /\ (pi_reservation_status existing = Reserved ->
      pi_reservation_status i = Consumed
      /\ exists e, e ∈ entries /\ le_direction e = pi_direction i
                   /\ budget_unit (le_asset e) = budget_unit (pi_asset i))
  /\ (pi_reservation_status i = Consumed ->
      pi_reservation_status existing = Reserved \/ pi_reservation_status existing = Consumed)
  /\ (pi_status i = Settled -> (0 < pi_settled_amount i)%N /\ entries <> []).
Proof.
  unfold validate_settlement_transition. intros Hok. run_inv. bool_inv.
  split_and!; try done.
  - intros e He. destruct (entry_bound e i) eqn:Hb; [done|].
    match goal with Hx : existsb _ entries = false |- _ => apply not_true_iff_false in Hx; destruct Hx end.
    apply existsb_exists. exists e. rewrite <- list_elem_of_In, Hb. done.
  - intros Hr. rewrite Hr, bool_decide_true in * by done. run_inv. bool_inv. split; [done|].
    match goal with Hx : existsb _ entries = true |- _ => apply existsb_exists in Hx as (e & He & Hb) end.
    bool_inv. exists e. rewrite list_elem_of_In. done.
  - intros Hc. rewrite Hc in *.
    destruct (pi_reservation_status existing) eqn:He; [exfalso|by left|by right|exfalso];
      simpl in *; run_inv; done.
  - intros Hs. rewrite Hs, bool_decide_true in Hok by done. simpl in Hok. bool_inv.
    unfold Amount.is_zero in *. bool_inv. split; [lia|done].
Qed.

Lemma validate_outbound_evidence_transition_ok existing i expected event h u :
  validate_outbound_evidence_transition existing i expected event h = Ok u ->
  pi_updated_at existing = expected /\ same_immutable_identity_as existing i = true
  /\ pi_status i = PendingSettlement /\ pi_reservation_status i = Reserved
  /\ pi_reservation_status existing = Reserved
  /\ pi_reserved_amount i = pi_reserved_amount existing /\ pi_settled_amount i = pi_settled_amount existing
  /\ pi_tx_hash i = pi_tx_hash existing /\ ev_intent_id event = pi_id existing
  /\ outbound_evidence_replay_matches event (pi_id existing) h = true.
Proof.
  unfold validate_outbound_evidence_transition. intros Hok. run_inv. bool_inv.
  match goal with Hb : evidence_payload_bound _ _ _ = true |- _ => unfold evidence_payload_bound in Hb end.
  bool_inv. unfold outbound_evidence_replay_matches, jget_str.
  repeat (match goal with
          | Hn : is_some (ev_signature_ref event) = false |- _ => destruct (ev_signature_ref event); [done|clear Hn]
          | Hn : is_some (ev_tx_hash event) = false |- _ => destruct (ev_tx_hash event); [done|clear Hn]
          end).
  split_and!; try congruence.
  rewrite !andb_true_iff, !bool_decide_eq_true, N.eqb_eq. simpl. unfold jstr in *. split_and!; try done.
Qed.

Lemma final_status_absorbing from to :
  is_final from = true -> allowed_status_transition from to = true -> to = from.
Proof. by destruct from, to. Qed.

Lemma status_rank_progress from to :
  allowed_status_transition from to = true -> (status_rank to <= status_rank from)%nat.
Proof. destruct from, to; simpl; try done; lia. Qed.

(** ** Properties *)

(** The payment lifecycle only moves forward: final statuses are left by no
    transition, and between two different statuses the rank falls unless both
    are among submitted, pending settlement and unknown, so a payment goes
    through at most five stages. *)
Lemma status_lifecycle_forward from to :
  status_step from to ->
  is_final from = false
  /\ ((status_rank to < status_rank from)%nat
      \/ (status_rank from = 1%nat /\ status_rank to = 1%nat /\ is_final to = false)).
Proof. intros [Hne Hstep]. destruct from, to; simpl in *; try done; split; try done; (left; lia) || by right. Qed.
