(* ===== verification/Budget.v ===== *)
(** * Authority and budgets

    The guards of [src/src/storage/payment/authority.rs] and the budget
    accounting of [src/src/storage/payment/budget.rs], run inside a payment
    transaction.  Row locks only order concurrent transactions; here a
    transaction is one step, and a lock statement is its presence check. *)

From S2P Require Import Prelude Text Money Json Wallet Intent Policy Ledger Records Store PaymentRules.

#[local] Open Scope string_scope.
#[local] Open Scope vault_scope.

Inductive AuthorizationAction : Type := RecordDenied | RequestApproval | Reserve.
#[export] Instance AuthorizationAction_eq_dec : EqDecision AuthorizationAction.
Proof. solve_decision. Defined.

Record AuthorizationGuard : Type := {
  g_principal : string;
  g_client : PaymentClient;
  g_scenario : PaymentScenario;
  g_policy : PaymentPolicy;
  g_expected_wallet_updated_at : Z;
  g_expected_wallet_key_version : option N;
  g_origin : string;
  g_day_started_at : Z;
  g_evaluated_at : Z
}.

Record ChallengeIssuanceGuard : Type := {
  cg_principal : string;
  cg_client : PaymentClient;
  cg_scenario : PaymentScenario;
  cg_price : PaymentPrice;
  cg_policy : PaymentPolicy;
  cg_wallet : PaymentWallet;
  cg_origin : string;
  cg_day_started_at : Z;
  cg_evaluated_at : Z
}.

Record BudgetSnapshot : Type := {
  bs_budget_unit : BudgetUnit;
  bs_wallet_enabled : bool;
  bs_wallet_algorithm : string;
  bs_wallet_address : string;
  bs_wallet_updated_at : Z;
  bs_wallet_active_key_version : option N;
  bs_wallet_shared_across_scenarios : bool;
  bs_scenario_spent_and_reserved : Amount;
  bs_wallet_spent_and_reserved : Amount;
  bs_wallet_max_per_payment : option Amount;
  bs_wallet_max_per_day : option Amount
}.

(** A presence check that a [SELECT ... FOR UPDATE] doubles as. *)
Definition require (present : DB -> bool) (e : Error) : Tx DB unit :=
  let* d := tget in tlift (reject_if (negb (present d)) e).
(** [.ok_or_else(..)?] on a loaded row. *)
Definition load_or {A} (m : Tx DB (option A)) (e : Error) : Tx DB A :=
  let* o := m in tlift (ok_or o e).
Definition invalid_intent (field : string) : Error := InvalidRequest ("invalid payment intent " ++ field).

(** ** Locks *)

Definition lock_scenario_budget (scenario_id : string) : Tx DB unit :=
  require (fun d => is_some (t_scenario d !! scenario_id)) (conflict "payment scenario no longer exists").

Definition lock_policy_wallet (policy_id wallet_id : string) : Tx DB unit :=
  require (fun d => is_some (t_policy d !! policy_id)) (conflict "payment policy no longer exists") ;*
  require (fun d => is_some (t_wallet d !! wallet_id)) (conflict "payment wallet no longer exists").

Definition lock_authorization_scope (client_id scenario_id policy_id : string) (price_id : option string)
    (wallet_id : string) : Tx DB unit :=
  require (fun d => is_some (t_client d !! client_id)) Forbidden ;*
  require (fun d => is_some_and (fun s => sc_client_id s == client_id) (t_scenario d !! scenario_id)) Forbidden ;*
  lock_policy_wallet policy_id wallet_id ;*
  match price_id with
  | Some p => require (fun d => is_some_and (fun x => (pr_policy_id x == policy_id) && (pr_wallet_id x == wallet_id))
                                            (t_price d !! p))
                      (conflict "payment price authority no longer exists")
  | None => tret tt
  end.

(** ** Budget sums *)

(** [sum_amounts]: parse each stored decimal and add with overflow checks. *)
Definition sum_amounts (values : list string) : Result Error Amount :=
  rfold (fun sum value =>
           let? amount := ok_or (Amount.from_str value)
                                (Storage "PostgreSQL contains an invalid monetary amount") in
           ok_or (Amount.checked_add sum amount) (Storage "authoritative payment aggregate overflowed u128"))
        Amount.ZERO values.

Definition in_unit (a : AssetIdentity) (u : BudgetUnit) : bool :=
  (as_asset a == bu_asset u) && (as_decimals a == bu_decimals u).

(** Reserved intents of one scope, direction and unit. *)
Definition reserved_in_scenario (scenario_id : string) (dir : PaymentDirection) (u : BudgetUnit) (r : IntentRow) : bool :=
  let i := ir_intent r in
  (pi_scenario_id i == scenario_id) && (pi_direction i == dir) && (pi_reservation_status i == Reserved)
  && in_unit (pi_asset i) u.
Definition reserved_in_wallet (wallet_id : string) (dir : PaymentDirection) (u : BudgetUnit) (r : IntentRow) : bool :=
  let i := ir_intent r in
  (pi_wallet_id i == Some wallet_id) && (pi_direction i == dir) && (pi_reservation_status i == Reserved)
  && in_unit (pi_asset i) u.

(** Confirmed facts of one scope, direction and unit in the time window. *)
Definition in_window (day_started_at latest : Z) (e : PaymentLedgerEntry) : bool :=
  (day_started_at <=? le_effective_at e)%Z && (le_effective_at e <=? latest)%Z.
Definition confirmed_in_scenario (scenario_id : string) (dir : PaymentDirection) (u : BudgetUnit)
    (day_started_at latest : Z) (e : PaymentLedgerEntry) : bool :=
  (le_scenario_id e == Some scenario_id) && (le_direction e == dir) && in_unit (le_asset e) u
  && in_window day_started_at latest e.
Definition confirmed_in_wallet (wallet_id : string) (dir : PaymentDirection) (u : BudgetUnit)
    (day_started_at latest : Z) (e : PaymentLedgerEntry) : bool :=
  (le_wallet_id e == wallet_id) && (le_direction e == dir) && in_unit (le_asset e) u
  && in_window day_started_at latest e.

Definition reserved_text (r : IntentRow) : string := Amount.to_string (pi_reserved_amount (ir_intent r)).
Definition confirmed_text (e : PaymentLedgerEntry) : string := Amount.to_string (le_amount e).

(** [load_amounts] and [load_ledger_amounts] *)
Definition load_amounts (p : IntentRow -> bool) : Tx DB Amount :=
  let* values := treads (fun d => map reserved_text (select p (t_intent d))) in
  tlift (sum_amounts values).
Definition load_ledger_amounts (p : PaymentLedgerEntry -> bool) : Tx DB Amount :=
  let* values := treads (fun d => map confirmed_text (select p (t_ledger d))) in
  tlift (sum_amounts values).

(** [assert_no_ledger_beyond_future_skew] *)
Definition assert_no_ledger_beyond_future_skew (scenario_id wallet_id : string) (dir : PaymentDirection)
    (u : BudgetUnit) (latest : Z) : Tx DB unit :=
  require (fun d => is_none (fetch_optional (fun e =>
             ((le_scenario_id e == Some scenario_id) || (le_wallet_id e == wallet_id))
             && (le_direction e == dir) && in_unit (le_asset e) u && (latest <? le_effective_at e)%Z) (t_ledger d)))
          (Storage "ledger effective time exceeds the bounded future-skew window").

(** The durable fact behind a consumed reservation. *)
Definition fact_of (r : IntentRow) (e : PaymentLedgerEntry) : bool :=
  let i := ir_intent r in
  (le_intent_id e == Some (pi_id i)) && (le_scenario_id e == Some (pi_scenario_id i))
  && (Some (le_wallet_id e) == pi_wallet_id i) && (le_direction e == pi_direction i)
  && (as_asset (le_asset e) == as_asset (pi_asset i)) && (as_decimals (le_asset e) == as_decimals (pi_asset i)).

(** [assert_consumed_intents_have_ledger] *)
Definition assert_consumed_intents_have_ledger (scenario_id wallet_id : string) (dir : PaymentDirection)
    (u : BudgetUnit) : Tx DB unit :=
  require (fun d => is_none (fetch_optional (fun r =>
             let i := ir_intent r in
             ((pi_scenario_id i == scenario_id) || (pi_wallet_id i == Some wallet_id))
             && (pi_direction i == dir) && in_unit (pi_asset i) u && (pi_reservation_status i == Consumed)
             && is_none (fetch_optional (fact_of r) (t_ledger d))) (t_intent d)))
          (Storage "a consumed payment reservation has no matching durable ledger fact").

(** [SELECT count(DISTINCT p.scenario_id) ...] over enabled policies of a wallet. *)
Definition wallet_scenarios (d : DB) (wallet_id : string) : gset string :=
  list_to_set (map po_scenario_id
    (select (fun p => bool_decide (wallet_id ∈ po_wallet_ids p) && po_enabled p) (t_policy d))).

Definition latest_effective (now : Z) : Z :=
  i64_saturating_add now MAX_SETTLEMENT_EFFECTIVE_TIME_FUTURE_SKEW_SECONDS.

Section Budget.
Context `{SolanaPubkey}.

(** [budget_snapshot_connection] *)
Definition budget_snapshot_connection (scenario_id wallet_id : string) (dir : PaymentDirection)
    (u : BudgetUnit) (day_started_at now : Z) : Tx DB BudgetSnapshot :=
  tlift (map_err (fun field => InvalidRequest ("invalid budget unit " ++ field)) (BudgetUnit_validate u)) ;*
  tlift (reject_if ((day_started_at <? 0)%Z || (now <? day_started_at)%Z)
                   (InvalidRequest "invalid budget time window")) ;*
  let* wallet := load_or (load_payment_wallet wallet_id) (NotFound ("payment wallet " ++ wallet_id)) in
  tlift (reject_if (pw_budget_unit wallet != Some u)
                   (conflict "wallet budget unit does not match requested aggregation")) ;*
  let* scenarios := treads (fun d => wallet_scenarios d wallet_id) in
  let latest := latest_effective now in
  assert_no_ledger_beyond_future_skew scenario_id wallet_id dir u latest ;*
  assert_consumed_intents_have_ledger scenario_id wallet_id dir u ;*
  let* scenario_reserved := load_amounts (reserved_in_scenario scenario_id dir u) in
  let* wallet_reserved := load_amounts (reserved_in_wallet wallet_id dir u) in
  let* scenario_confirmed := load_ledger_amounts (confirmed_in_scenario scenario_id dir u day_started_at latest) in
  let* wallet_confirmed := load_ledger_amounts (confirmed_in_wallet wallet_id dir u day_started_at latest) in
  let* scenario_usage := tlift (checked_usage scenario_reserved scenario_confirmed "scenario") in
  let* wallet_usage := tlift (checked_usage wallet_reserved wallet_confirmed "wallet") in
  tret {| bs_budget_unit := u;
          bs_wallet_enabled := pw_enabled wallet;
          bs_wallet_algorithm := w_algorithm (pw_wallet wallet);
          bs_wallet_address := w_address (pw_wallet wallet);
          bs_wallet_updated_at := pw_updated_at wallet;
          bs_wallet_active_key_version := pw_active_key_version wallet;
          bs_wallet_shared_across_scenarios := (1 <? size scenarios)%nat;
          bs_scenario_spent_and_reserved := scenario_usage;
          bs_wallet_spent_and_reserved := wallet_usage;
          bs_wallet_max_per_payment := pw_max_per_payment wallet;
          bs_wallet_max_per_day := pw_max_per_day wallet |}.

(** [enforce_budget] *)
Definition enforce_budget (i : PaymentIntent) (day_started_at now : Z) (approved_overage : bool) : Tx DB unit :=
  let* ids := tlift (map_err invalid_intent (authority_ids i)) in
  let policy_id := fst ids in
  let wallet_id := snd ids in
  lock_scenario_budget (pi_scenario_id i) ;*
  lock_policy_wallet policy_id wallet_id ;*
  let* policy := load_or (load_policy policy_id) (conflict "payment policy no longer exists") in
  let* limits := tlift (ok_or (limits_for policy (pi_direction i)) (PolicyDenied "payment direction is disabled")) in
  tlift (reject_if (pl_max_per_payment limits <? pi_amount i)%N
                   (PolicyDenied "payment exceeds the per-payment policy limit")) ;*
  let* snapshot := budget_snapshot_connection (pi_scenario_id i) wallet_id (pi_direction i)
                     (budget_unit (pi_asset i)) day_started_at now in
  let* policy_limit := tlift (if approved_overage
                              then ok_or (hard_daily_limit limits) (PolicyDenied "approved policy limit overflows")
                              else Ok (pl_max_per_day limits)) in
  let* scenario_after := tlift (ok_or (Amount.checked_add (bs_scenario_spent_and_reserved snapshot) (pi_amount i))
                                      (PolicyDenied "scenario budget arithmetic overflow")) in
  tlift (reject_if (policy_limit <? scenario_after)%N (PolicyDenied "scenario daily payment limit is exhausted")) ;*
  match bs_wallet_max_per_payment snapshot with
  | Some max_per_payment =>
      tlift (reject_if (max_per_payment <? pi_amount i)%N (PolicyDenied "wallet per-payment limit is exceeded"))
  | None => tlift (reject_if (bs_wallet_shared_across_scenarios snapshot)
                             (PolicyDenied "shared wallet is missing its aggregate per-payment limit"))
  end ;*
  match bs_wallet_max_per_day snapshot with
  | Some max_per_day =>
      let* wallet_after := tlift (ok_or (Amount.checked_add (bs_wallet_spent_and_reserved snapshot) (pi_amount i))
                                        (PolicyDenied "wallet budget arithmetic overflow")) in
      tlift (reject_if (max_per_day <? wallet_after)%N (PolicyDenied "wallet daily payment limit is exhausted"))
  | None => tlift (reject_if (bs_wallet_shared_across_scenarios snapshot)
                             (PolicyDenied "shared wallet is missing its aggregate daily limit"))
  end.

(** [IIntentRepository::budget_snapshot] *)
Definition budget_snapshot (scenario_id wallet_id : string) (dir : PaymentDirection) (u : BudgetUnit)
    (day_started_at now : Z) : Tx DB BudgetSnapshot :=
  tlift (reject_if ((day_started_at <? 0)%Z || (now <? day_started_at)%Z)
                   (InvalidRequest "invalid budget time window")) ;*
  budget_snapshot_connection scenario_id wallet_id dir u day_started_at now.

(** ** Authority *)

(** [validate_intent_authority] *)
Definition validate_intent_authority (i : PaymentIntent) : Tx DB unit :=
  if pi_status i == Failed then tret tt else
  let* ids := tlift (map_err invalid_intent (authority_ids i)) in
  let policy_id := fst ids in
  let wallet_id := snd ids in
  require (fun d => is_some (t_policy d !! policy_id)) (NotFound ("payment policy " ++ policy_id)) ;*
  let* policy := load_or (load_policy policy_id) (NotFound ("payment policy " ++ policy_id)) in
  let* limit := tlift (ok_or (limits_for policy (pi_direction i))
                             (conflict "policy does not authorize payment intent direction")) in
  tlift (reject_if ((po_scenario_id policy != pi_scenario_id i)
                    || negb (existsb (fun allowed => allowed == wallet_id) (po_wallet_ids policy))
                    || negb (BudgetUnit_matches (po_budget_unit policy) (pi_asset i))
                    || negb (bool_decide (pi_protocol i ∈ po_protocols policy))
                    || negb (bool_decide (as_network (pi_asset i) ∈ po_networks policy))
                    || negb (bool_decide (pi_asset i ∈ po_assets policy))
                    || (pl_max_per_payment limit <? pi_amount i)%N)
                   (conflict "payment intent exceeds or falls outside its directional policy scope")).

(** [validate_authorization_guard] *)
Definition validate_authorization_guard (i : PaymentIntent) (guard : AuthorizationGuard)
    (action : AuthorizationAction) : Tx DB unit :=
  tlift (map_err invalid_intent (PaymentIntent_validate i)) ;*
  let* ids := tlift (map_err invalid_intent (authority_ids i)) in
  let wallet_id := snd ids in
  tlift (reject_if ((pi_direction i != Outbound)
                    || (pi_scenario_id i != sc_id (g_scenario guard))
                    || (pi_policy_id i != Some (po_id (g_policy guard)))
                    || (sc_client_id (g_scenario guard) != cl_id (g_client guard))
                    || negb (existsb (fun candidate => candidate == wallet_id) (po_wallet_ids (g_policy guard))))
                   (conflict "authorization guard is not bound to the payment intent")) ;*
  lock_authorization_scope (cl_id (g_client guard)) (sc_id (g_scenario guard)) (po_id (g_policy guard)) None wallet_id ;*
  let* client := load_or (select_client (cl_id (g_client guard)) (g_principal guard)) Forbidden in
  let* scenario := load_or (select_scenario (sc_id (g_scenario guard)) (cl_id (g_client guard))) Forbidden in
  let* policy := load_or (load_policy (po_id (g_policy guard)))
                         (conflict "authorization policy no longer exists") in
  let* wallet := load_or (load_payment_wallet wallet_id) (conflict "authorization wallet no longer exists") in
  tlift (reject_if ((client != g_client guard) || (scenario != g_scenario guard) || (policy != g_policy guard))
                   (conflict "authorization snapshot changed before commit")) ;*
  if action == RecordDenied then tret tt else
  tlift (reject_if (negb (authenticates client (g_principal guard))
                    || negb (sc_enabled scenario)
                    || negb (po_enabled policy)
                    || negb (signing_ready_for_payment_network wallet (as_network (pi_asset i)))
                    || (pw_updated_at wallet != g_expected_wallet_updated_at guard)
                    || (pw_active_key_version wallet != g_expected_wallet_key_version guard)
                    || (pw_budget_unit wallet != Some (po_budget_unit policy))
                    || negb (allows_wallet policy wallet_id)
                    || negb (allows_direction policy (pi_direction i))
                    || negb (allows_protocol policy (pi_protocol i))
                    || negb (allows_asset policy (pi_asset i))
                    || negb (allows_payment_recipient policy (as_network (pi_asset i)) (pi_recipient i))
                    || negb (allows_origin policy (g_origin guard))
                    || is_some_and (fun e => (e <=? g_evaluated_at guard)%Z) (pi_expires_at i))
                   (PolicyDenied "payment authorization changed or falls outside current policy")) ;*
  let* limits := tlift (ok_or (limits_for policy (pi_direction i)) (PolicyDenied "payment direction is disabled")) in
  tlift (reject_if (pl_max_per_payment limits <? pi_amount i)%N
                   (PolicyDenied "payment exceeds the per-payment policy limit")).

(** [validate_current_payment_scope] *)
Definition validate_current_payment_scope (i : PaymentIntent) (origin : option string) : Tx DB unit :=
  tlift (map_err invalid_intent (PaymentIntent_validate i)) ;*
  let* ids := tlift (map_err invalid_intent (authority_ids i)) in
  let policy_id := fst ids in
  let wallet_id := snd ids in
  lock_scenario_budget (pi_scenario_id i) ;*
  let* d := tget in
  let* scenario_client :=
    tlift (ok_or (scenario ← t_scenario d !! pi_scenario_id i;
                  client ← t_client d !! sc_client_id scenario;
                  Some (scenario, client))
                 (conflict "payment scenario no longer exists")) in
  lock_policy_wallet policy_id wallet_id ;*
  let* policy := load_or (load_policy policy_id) (conflict "payment policy no longer exists") in
  let* wallet := load_or (load_payment_wallet wallet_id) (conflict "payment wallet no longer exists") in
  tlift (reject_if (negb (sc_enabled (fst scenario_client))
                    || negb (cl_enabled (snd scenario_client))
                    || negb (po_enabled policy)
                    || (po_scenario_id policy != pi_scenario_id i)
                    || negb (allows_wallet policy wallet_id)
                    || negb (allows_direction policy (pi_direction i))
                    || negb (allows_protocol policy (pi_protocol i))
                    || negb (allows_asset policy (pi_asset i))
                    || (pw_budget_unit wallet != Some (po_budget_unit policy))
                    || negb (pw_enabled wallet)
                    || ((pi_direction i == Outbound)
                        && negb (signing_ready_for_payment_network wallet (as_network (pi_asset i))))
                    || ((pi_direction i == Outbound)
                        && negb (allows_payment_recipient policy (as_network (pi_asset i)) (pi_recipient i)))
                    || is_some_and (fun o => negb (allows_origin policy o)) origin)
                   (PolicyDenied "payment scope is no longer authorized")).

(** [validate_challenge_guard] *)
Definition validate_challenge_guard (i : PaymentIntent) (challenge : PaymentChallenge)
    (guard : ChallengeIssuanceGuard) : Tx DB unit :=
  tlift (reject_if ((pi_direction i != Inbound)
                    || (pi_status i != Created)
                    || (pi_reservation_status i != Reserved)
                    || (pi_reserved_amount i != pi_amount i)
                    || (pi_price_id i != Some (pr_id (cg_price guard)))
                    || (pi_policy_id i != Some (po_id (cg_policy guard)))
                    || (pi_wallet_id i != Some (w_id (pw_wallet (cg_wallet guard))))
                    || (pi_challenge_hash i != Some (ch_challenge_hash challenge))
                    || (ch_scenario_id challenge != pi_scenario_id i)
                    || (ch_price_id challenge != pi_price_id i)
                    || (ch_resource challenge != pi_resource i)
                    || (ch_protocol challenge != pi_protocol i)
                    || (ch_asset challenge != pi_asset i)
                    || (ch_amount challenge != pi_amount i)
                    || (ch_recipient challenge != pi_recipient i)
                    || (ch_expires_at challenge != unwrap_or 0%Z (pi_expires_at i))
                    || (ch_expires_at challenge <=? cg_evaluated_at guard)%Z)
                   (conflict "inbound challenge aggregate is not internally bound")) ;*
  let wallet_id := w_id (pw_wallet (cg_wallet guard)) in
  lock_authorization_scope (cl_id (cg_client guard)) (sc_id (cg_scenario guard)) (po_id (cg_policy guard))
                           (Some (pr_id (cg_price guard))) wallet_id ;*
  let* client := load_or (select_client (cl_id (cg_client guard)) (cg_principal guard)) Forbidden in
  let* scenario := load_or (select_scenario (sc_id (cg_scenario guard)) (cl_id (cg_client guard))) Forbidden in
  let* price := load_or (treads (fun d => t_price d !! pr_id (cg_price guard)))
                        (conflict "payment price no longer exists") in
  let* policy := load_or (load_policy (po_id (cg_policy guard))) (conflict "payment policy no longer exists") in
  let* wallet := load_or (load_payment_wallet wallet_id) (conflict "payment wallet no longer exists") in
  let* canonical_wallet :=
    tlift (map_err (fun _ => PolicyDenied "price recipient wallet is invalid for its network")
                   (PaymentWallet_canonicalized_for_payment_network wallet (as_network (pi_asset i)))) in
  tlift (reject_if ((client != cg_client guard)
                    || (scenario != cg_scenario guard)
                    || (price != cg_price guard)
                    || (policy != cg_policy guard)
                    || (wallet != cg_wallet guard)
                    || negb (authenticates client (cg_principal guard))
                    || negb (sc_enabled scenario)
                    || negb (pr_enabled price)
                    || negb (po_enabled policy)
                    || negb (pw_enabled wallet)
                    || (po_scenario_id policy != sc_id scenario)
                    || (pr_scenario_id price != sc_id scenario)
                    || (pr_policy_id price != po_id policy)
                    || (pr_wallet_id price != w_id (pw_wallet wallet))
                    || negb (allows_wallet policy (w_id (pw_wallet wallet)))
                    || negb (allows_direction policy Inbound)
                    || negb (allows_protocol policy (pi_protocol i))
                    || negb (allows_asset policy (pi_asset i))
                    || negb (allows_origin policy (cg_origin guard))
                    || (pw_budget_unit wallet != Some (po_budget_unit policy))
                    || (w_address (pw_wallet canonical_wallet) != pi_recipient i))
                   (PolicyDenied "inbound challenge changed or falls outside current policy")).
End Budget.

(** ** Guards read and do not write *)

#[export] Instance require_read_only p e : ReadOnly (require p e).
Proof. unfold require. apply _. Qed.
#[export] Instance load_or_read_only {A} (m : Tx DB (option A)) e : ReadOnly m -> ReadOnly (load_or m e).
Proof. unfold load_or. intros. apply _. Qed.
#[export] Instance load_policy_read_only p : ReadOnly (load_policy p).
Proof. unfold load_policy. apply _. Qed.
#[export] Instance select_client_read_only i p : ReadOnly (select_client i p).
Proof. unfold select_client. apply _. Qed.
#[export] Instance select_scenario_read_only i c : ReadOnly (select_scenario i c).
Proof. unfold select_scenario. apply _. Qed.
#[export] Instance lock_scenario_budget_read_only s : ReadOnly (lock_scenario_budget s).
Proof. unfold lock_scenario_budget. apply _. Qed.
#[export] Instance lock_policy_wallet_read_only p w : ReadOnly (lock_policy_wallet p w).
Proof. unfold lock_policy_wallet. apply _. Qed.
#[export] Instance lock_authorization_scope_read_only c s p q w : ReadOnly (lock_authorization_scope c s p q w).
Proof. unfold lock_authorization_scope. solve_read_only. Qed.
#[export] Instance load_amounts_read_only p : ReadOnly (load_amounts p).
Proof. unfold load_amounts. apply _. Qed.
#[export] Instance load_ledger_amounts_read_only p : ReadOnly (load_ledger_amounts p).
Proof. unfold load_ledger_amounts. apply _. Qed.

Section BudgetReadOnly.
Context `{SolanaPubkey}.

#[export] Instance load_payment_wallet_read_only w : ReadOnly (load_payment_wallet w).
Proof. unfold load_payment_wallet. solve_read_only. Qed.
#[export] Instance budget_snapshot_connection_read_only s w dir u day now :
  ReadOnly (budget_snapshot_connection s w dir u day now).
Proof.
  unfold budget_snapshot_connection, assert_no_ledger_beyond_future_skew, assert_consumed_intents_have_ledger.
  solve_read_only.
Qed.
#[export] Instance enforce_budget_read_only i day now o : ReadOnly (enforce_budget i day now o).
Proof. unfold enforce_budget. solve_read_only. Qed.
#[export] Instance validate_intent_authority_read_only i : ReadOnly (validate_intent_authority i).
Proof. unfold validate_intent_authority. solve_read_only. Qed.
#[export] Instance validate_authorization_guard_read_only i g a : ReadOnly (validate_authorization_guard i g a).
Proof. unfold validate_authorization_guard. solve_read_only. Qed.
#[export] Instance validate_current_payment_scope_read_only i o : ReadOnly (validate_current_payment_scope i o).
Proof. unfold validate_current_payment_scope. solve_read_only. Qed.
#[export] Instance validate_challenge_guard_read_only i c g : ReadOnly (validate_challenge_guard i c g).
Proof. unfold validate_challenge_guard. solve_read_only. Qed.
End BudgetReadOnly.

(** Drops the unchanged states of successful read-only steps. *)
Ltac read_only_step :=
  match goal with
  | H : ?m ?d = Ok (_, ?d') |- _ =>
      is_var d'; assert_fails (constr_eq d d');
      let Hro := fresh in
      assert (ReadOnly m) as Hro by solve_read_only;
      let Heq := fresh in
      pose proof (Hro _ _ _ H) as Heq; clear Hro; subst d'
  end.
Ltac tx_inv := repeat first [ run_step; subst | read_only_step ].

(** ** Usage *)

Definition reserved_of (r : IntentRow) : N := pi_reserved_amount (ir_intent r).

(** Money spent and reserved by a scenario or a wallet, as the budget counts
    it: every outstanding reservation and the confirmed facts of the window. *)
Definition scenario_usage (d : DB) (scenario_id : string) (dir : PaymentDirection) (u : BudgetUnit)
    (day_started_at now : Z) : N :=
  (sum_where reserved_of (reserved_in_scenario scenario_id dir u) (t_intent d)
   + sum_where le_amount (confirmed_in_scenario scenario_id dir u day_started_at (latest_effective now)) (t_ledger d))%N.
Definition wallet_usage (d : DB) (wallet_id : string) (dir : PaymentDirection) (u : BudgetUnit)
    (day_started_at now : Z) : N :=
  (sum_where reserved_of (reserved_in_wallet wallet_id dir u) (t_intent d)
   + sum_where le_amount (confirmed_in_wallet wallet_id dir u day_started_at (latest_effective now)) (t_ledger d))%N.

Lemma sum_amounts_ok {A} (f : A -> N) (l : list A) s :
  (forall x, x ∈ l -> amount_ok (f x)) ->
  sum_amounts (map (fun x => Amount.to_string (f x)) l) = Ok s -> s = foldr N.add 0%N (map f l).
Proof.
  intros Hok. unfold sum_amounts.
  enough (forall acc, rfold (fun sum value =>
           let? amount := ok_or (Amount.from_str value)
                                (Storage "PostgreSQL contains an invalid monetary amount") in
           ok_or (Amount.checked_add sum amount) (Storage "authoritative payment aggregate overflowed u128"))
        acc (map (fun x => Amount.to_string (f x)) l) = Ok s -> s = (acc + foldr N.add 0 (map f l))%N) as Hgen.
  { intros Hs. rewrite (Hgen _ Hs). done. }
  induction l as [|x l IH]; intros acc Hr; simpl in Hr; run_inv; simpl; [lia|].
  match goal with Hp : Amount.from_str (Amount.to_string (f x)) = Some _ |- _ =>
    unfold Amount.from_str, Amount.to_string in Hp; rewrite parse_show_unsigned in Hp by (apply Hok; left) end.
  simplify_eq.
  match goal with Ha : Amount.checked_add _ _ = Some _ |- _ => apply amount_checked_add_ok in Ha as [_ ->] end.
  rewrite (IH (fun y Hy => Hok y (list_elem_of_further _ _ _ Hy)) _ Hr). lia.
Qed.

Lemma intent_checks_amounts r :
  intent_checks r = true ->
  amount_ok (pi_amount (ir_intent r)) /\ amount_ok (pi_reserved_amount (ir_intent r))
  /\ amount_ok (pi_settled_amount (ir_intent r)).
Proof. unfold intent_checks, sql_amount, amount_ok. cbv zeta. intros Hc. bool_inv. done. Qed.

Lemma ledger_checks_amount e : ledger_checks e = true -> amount_ok (le_amount e) /\ (0 < le_amount e)%N.
Proof.
  unfold ledger_checks, sql_amount, amount_ok, Amount.is_zero. cbv zeta. intros Hc. bool_inv. split; [done|lia].
Qed.

Lemma load_amounts_ok p d s d' :
  intents_ok (t_intent d) -> load_amounts p d = Ok (s, d') -> s = sum_where reserved_of p (t_intent d).
Proof.
  unfold load_amounts. intros Hok Hl. run_inv.
  match goal with Hs : sum_amounts _ = Ok s |- _ => apply (sum_amounts_ok reserved_of) in Hs; [done|] end.
  intros r Hr%elem_of_select. destruct Hr as [_ [k Hk]].
  apply (intents_checked _ Hok) in Hk. by apply intent_checks_amounts in Hk as (_ & ? & _).
Qed.

Lemma load_ledger_amounts_ok p d s d' :
  ledger_ok (t_ledger d) -> load_ledger_amounts p d = Ok (s, d') -> s = sum_where le_amount p (t_ledger d).
Proof.
  unfold load_ledger_amounts. intros Hok Hl. run_inv.
  match goal with Hs : sum_amounts _ = Ok s |- _ => apply (sum_amounts_ok le_amount) in Hs; [done|] end.
  intros e He%elem_of_select. destruct He as [_ [k Hk]].
  apply (ledger_checked _ Hok) in Hk. by apply ledger_checks_amount in Hk as [? _].
Qed.

Lemma require_ok p e d u d' : require p e d = Ok (u, d') <-> p d = true /\ d' = d.
Proof.
  unfold require. rewrite tbind_ok. split.
  - intros (? & ? & Hg & Hl). run_inv. by bool_inv.
  - intros [Hp ->]. exists d, d. rewrite tget_ok, tlift_ok, reject_if_ok, Hp. done.
Qed.

Lemma load_or_ok {A} (m : Tx DB (option A)) e d a d' :
  load_or m e d = Ok (a, d') <-> m d = Ok (Some a, d').
Proof.
  unfold load_or. rewrite tbind_ok. split.
  - intros (o & s & Hm & Hl). run_inv. done.
  - intros Hm. exists (Some a), d'. rewrite tlift_ok. done.
Qed.

(** [pending] more units of the intent's money fit the current limits of its
    policy (the hard daily limit when approved) and of its wallet; a wallet
    without a limit may serve a single scenario only. *)
Definition fits_limits (d : DB) (i : PaymentIntent) (day now : Z) (overage : bool) (pending : N) : Prop :=
  exists policy_id wallet_id policy limits limit row,
    pi_policy_id i = Some policy_id /\ pi_wallet_id i = Some wallet_id
    /\ t_policy d !! policy_id = Some policy /\ limits_for policy (pi_direction i) = Some limits
    /\ (pi_amount i <= pl_max_per_payment limits)%N
    /\ (if overage then hard_daily_limit limits = Some limit else limit = pl_max_per_day limits)
    /\ (scenario_usage d (pi_scenario_id i) (pi_direction i) (budget_unit (pi_asset i)) day now + pending <= limit)%N
    /\ t_wallet d !! wallet_id = Some row
    /\ match pw_max_per_payment row with
       | Some max => (pi_amount i <= max)%N
       | None => (size (wallet_scenarios d wallet_id) <= 1)%nat
       end
    /\ match pw_max_per_day row with
       | Some max => (wallet_usage d wallet_id (pi_direction i) (budget_unit (pi_asset i)) day now + pending <= max)%N
       | None => (size (wallet_scenarios d wallet_id) <= 1)%nat
       end.

Section BudgetSpec.
Context `{SolanaPubkey}.

Lemma load_payment_wallet_ok wallet_id d w d' :
  load_payment_wallet wallet_id d = Ok (Some w, d') ->
  exists row, t_wallet d !! wallet_id = Some row
    /\ pw_max_per_payment w = pw_max_per_payment row /\ pw_max_per_day w = pw_max_per_day row
    /\ pw_budget_unit w = pw_budget_unit row /\ pw_enabled w = pw_enabled row
    /\ pw_custody w = pw_custody row /\ w_id (pw_wallet w) = w_id (pw_wallet row)
    /\ pw_active_key_version w = k_version <$> active_key d wallet_id.
Proof.
  unfold load_payment_wallet. intros Hl. run_inv.
  match type of Hl with context [t_wallet ?s !! _] => destruct (t_wallet s !! wallet_id) as [row|] eqn:Hrow end;
    run_inv; [|done].
  match goal with Hc : PaymentWallet_canonicalized _ = Ok _ |- _ =>
    unfold PaymentWallet_canonicalized, Wallet_canonicalized in Hc end.
  run_inv. exists row. simplify_eq/=. done.
Qed.

Lemma budget_snapshot_connection_ok s w dir u day now d snap d' :
  intents_ok (t_intent d) -> ledger_ok (t_ledger d) ->
  budget_snapshot_connection s w dir u day now d = Ok (snap, d') ->
  bs_scenario_spent_and_reserved snap = scenario_usage d s dir u day now
  /\ bs_wallet_spent_and_reserved snap = wallet_usage d w dir u day now
  /\ exists row, t_wallet d !! w = Some row /\ pw_budget_unit row = Some u
      /\ bs_wallet_max_per_payment snap = pw_max_per_payment row
      /\ bs_wallet_max_per_day snap = pw_max_per_day row
      /\ bs_wallet_shared_across_scenarios snap = (1 <? size (wallet_scenarios d w))%nat.
Proof.
  intros Hi Hl. unfold budget_snapshot_connection. intros Hs.
  unfold assert_no_ledger_beyond_future_skew, assert_consumed_intents_have_ledger in Hs. tx_inv.
  repeat match goal with
         | Ha : load_amounts _ _ = Ok (_, _) |- _ => apply load_amounts_ok in Ha; [|done]
         | Ha : load_ledger_amounts _ _ = Ok (_, _) |- _ => apply load_ledger_amounts_ok in Ha; [|done]
         | Hc : checked_usage _ _ _ = Ok _ |- _ => unfold checked_usage in Hc; run_inv
         | Hc : Amount.checked_add _ _ = Some _ |- _ => apply amount_checked_add_ok in Hc as [_ ->]
         end. subst. cbn.
  match goal with Hw : load_or (load_payment_wallet _) _ _ = Ok _ |- _ =>
    apply load_or_ok, load_payment_wallet_ok in Hw as (row & Hrow & Hp & Hd & Hu & _) end.
  bool_inv. split; [done|]. split; [done|]. exists row. split_and!; try done. congruence.
Qed.

Lemma enforce_budget_ok i day now overage d u d' :
  intents_ok (t_intent d) -> ledger_ok (t_ledger d) ->
  enforce_budget i day now overage d = Ok (u, d') ->
  fits_limits d i day now overage (pi_amount i).
Proof.
  intros Hi Hl. unfold enforce_budget. intros He. tx_inv.
  match goal with Ha : authority_ids i = Ok ?p |- _ => destruct p as [pid wid]; apply authority_ids_ok in Ha as [Hp Hw] end.
  match goal with Hs : budget_snapshot_connection _ _ _ _ _ _ _ = Ok (?sn, _) |- _ =>
    apply budget_snapshot_connection_ok in Hs as (Hsc & Hwa & row & Hrow & Hu & Hmp & Hmd & Hsh); [|done..] end.
  match goal with Hpol : load_or (load_policy _) _ _ = Ok (?po, _) |- _ =>
    apply load_or_ok in Hpol; unfold load_policy in Hpol; run_inv end.
  simpl in *. bool_inv.
  match goal with Ha : Amount.checked_add _ _ = Some _ |- _ => apply amount_checked_add_ok in Ha as [_ ->] end.
  rewrite Hmp, Hmd in *. rewrite Hsh in *. rewrite Hsc in *.
  match goal with Hlim : (if overage then _ else _) = Ok ?lim, Hl2 : limits_for ?po _ = Some ?ls |- _ =>
    exists pid, wid, po, ls, lim, row end.
  split_and!; try done.
  - destruct overage; run_inv; done.
  - destruct (pw_max_per_payment row); run_inv; bool_inv; [done|]. by apply Nat.ltb_ge.
  - destruct (pw_max_per_day row); tx_inv; bool_inv; [|by apply Nat.ltb_ge].
    match goal with Ha : Amount.checked_add _ _ = Some _ |- _ => apply amount_checked_add_ok in Ha as [_ ->] end.
    by rewrite <- Hwa.
Qed.
End BudgetSpec.
