(* ===== verification/PaymentStore.v ===== *)
(** * Payment transactions

    The aggregate writes of [src/src/storage/payment/mutations.rs] and the
    transactions of [src/src/storage/payment/{transactions,reconciliation}.rs].
    Each definition is the body of one database transaction; [transaction]
    commits or rolls it back. *)

From S2P Require Import Prelude Text Money Json Wallet Intent Policy Ledger Records Store LedgerStore PaymentRules Budget.

#[local] Open Scope string_scope.
#[local] Open Scope vault_scope.

Record AuthorizationRecord : Type := {
  ar_intent : PaymentIntent;
  ar_approval : option ApprovalRequest
}.

Record AuthorizationWrite : Type := {
  aw_intent : PaymentIntent;
  aw_approval : option ApprovalRequest;
  aw_action : AuthorizationAction;
  aw_guard : AuthorizationGuard;
  aw_events : list PaymentEvent;
  aw_outbox : list OutboxMessage
}.

Record ChallengeWrite : Type := {
  cw_intent : PaymentIntent;
  cw_challenge : PaymentChallenge;
  cw_guard : ChallengeIssuanceGuard;
  cw_events : list PaymentEvent;
  cw_outbox : list OutboxMessage
}.

Record VerificationWrite : Type := {
  vw_intent : PaymentIntent;
  vw_credential : PaymentCredential;
  vw_expected_updated_at : Z;
  vw_events : list PaymentEvent;
  vw_outbox : list OutboxMessage
}.

Record PaymentProgressWrite : Type := {
  pgw_intent : PaymentIntent;
  pgw_expected_updated_at : Z;
  pgw_events : list PaymentEvent;
  pgw_outbox : list OutboxMessage
}.

Record OutboundEvidenceWrite : Type := {
  ow_intent : PaymentIntent;
  ow_expected_updated_at : Z;
  ow_evidence_hash : string;
  ow_event : PaymentEvent;
  ow_outbox : list OutboxMessage
}.

Record SettlementWrite : Type := {
  sw_intent : PaymentIntent;
  sw_expected_updated_at : Z;
  sw_events : list PaymentEvent;
  sw_ledger_entries : list PaymentLedgerEntry;
  sw_outbox : list OutboxMessage
}.

Record ReconciliationLeaseRequest : Type := {
  rl_owner : string;
  rl_now : Z;
  rl_lease_until : Z;
  rl_limit : N
}.

Record ReconciliationClaim : Type := {
  rc_intent : PaymentIntent;
  rc_attempt_no : N
}.

(** ** Reads *)

(** [load_intent_connection] *)
Definition load_intent (intent_id : string) : Tx DB (option PaymentIntent) :=
  treads (fun d => ir_intent <$> t_intent d !! intent_id).

Definition in_run (scenario_id run_id : string) (r : IntentRow) : bool :=
  (pi_scenario_id (ir_intent r) == scenario_id) && (pi_run_id (ir_intent r) == run_id).

(** [load_intent_by_run] *)
Definition load_intent_by_run (scenario_id run_id : string) : Tx DB (option PaymentIntent) :=
  treads (fun d => ir_intent <$> fetch_optional (in_run scenario_id run_id) (t_intent d)).

(** [ORDER BY created_at DESC, id LIMIT 1] *)
Definition approval_newer (a b : ApprovalRequest) : bool :=
  (ap_created_at b <? ap_created_at a)%Z
  || ((ap_created_at a =? ap_created_at b)%Z && negb (str_ltb (ap_id b) (ap_id a))).
Definition latest_approval (d : DB) (intent_id : string) : option ApprovalRequest :=
  head (order_by approval_newer (select (fun a => ap_intent_id a == intent_id) (t_approval d))).

(** [load_run_connection], which [find_run] also computes outside a transaction *)
Definition load_run (scenario_id run_id : string) : Tx DB (option AuthorizationRecord) :=
  let* found := load_intent_by_run scenario_id run_id in
  match found with
  | None => tret None
  | Some i => let* approval := treads (fun d => latest_approval d (pi_id i)) in
              tret (Some {| ar_intent := i; ar_approval := approval |})
  end.

(** [get_for_challenge] *)
Definition get_for_challenge (scenario_id challenge_hash : string) : Tx DB (option PaymentIntent) :=
  treads (fun d => ir_intent <$> fetch_optional (fun r =>
            (pi_scenario_id (ir_intent r) == scenario_id)
            && (pi_challenge_hash (ir_intent r) == Some challenge_hash)
            && (pi_direction (ir_intent r) == Inbound)) (t_intent d)).

(** [get_for_scenario] *)
Definition get_for_scenario (scenario_id intent_id : string) : Tx DB (option PaymentIntent) :=
  treads (fun d => match t_intent d !! intent_id with
                   | Some r => if pi_scenario_id (ir_intent r) == scenario_id then Some (ir_intent r) else None
                   | None => None
                   end).

(** [load_outbound_evidence_event] *)
Definition load_outbound_evidence_event (intent_id : string) : Tx DB (option PaymentEvent) :=
  treads (fun d => fetch_optional (fun e => (ev_intent_id e == intent_id) && (ev_event_type e == EvSubmitted)
                                            && (ev_attempt_no e =? 0)%N) (t_event d)).

(** [lock_intent_financial_scope] *)
Definition lock_intent_financial_scope (i : PaymentIntent) : Tx DB unit :=
  let* wallet_id := tlift (ok_or (pi_wallet_id i) (conflict "payment intent has no wallet authority")) in
  lock_financial_scopes [pi_scenario_id i] [wallet_id].

(** ** Aggregate writes *)

(** The columns of [UPDATE pay_intent SET settled_amount = .., settled_at = ..]. *)
Definition update_columns (i : PaymentIntent) (r : IntentRow) : IntentRow :=
  let o := ir_intent r in
  {| ir_intent :=
       {| pi_id := pi_id o; pi_scenario_id := pi_scenario_id o; pi_run_id := pi_run_id o;
          pi_wallet_id := pi_wallet_id o; pi_policy_id := pi_policy_id o; pi_price_id := pi_price_id o;
          pi_direction := pi_direction o; pi_protocol := pi_protocol o; pi_asset := pi_asset o;
          pi_recipient := pi_recipient o; pi_amount := pi_amount o;
          pi_settled_amount := pi_settled_amount i;
          pi_resource := pi_resource o; pi_challenge_hash := pi_challenge_hash o;
          pi_request_hash := pi_request_hash o;
          pi_status := pi_status i; pi_reservation_status := pi_reservation_status i;
          pi_reserved_amount := pi_reserved_amount i;
          pi_tx_hash := pi_tx_hash i; pi_settlement_ref := pi_settlement_ref i;
          pi_next_reconcile_at := pi_next_reconcile_at i;
          pi_created_at := pi_created_at o; pi_updated_at := pi_updated_at i;
          pi_expires_at := pi_expires_at o; pi_settled_at := pi_settled_at i |};
     ir_credential_hash := ir_credential_hash r; ir_reconcile_attempts := ir_reconcile_attempts r;
     ir_lease_owner := ir_lease_owner r; ir_lease_expires_at := ir_lease_expires_at r |}.

Definition set_credential (h : string) (r : IntentRow) : IntentRow :=
  {| ir_intent := ir_intent r; ir_credential_hash := Some h; ir_reconcile_attempts := ir_reconcile_attempts r;
     ir_lease_owner := ir_lease_owner r; ir_lease_expires_at := ir_lease_expires_at r |}.

(** The check [update_intent] makes for each kind of reservation change. *)
Definition check_reservation (m : ReservationMutation) (existing i : PaymentIntent) : Result Error unit :=
  match m with
  | RmUnchanged =>
      reject_if ((pi_reservation_status i != pi_reservation_status existing)
                 || (pi_reserved_amount i != pi_reserved_amount existing))
                (conflict "generic payment update cannot change a reservation")
  | RmReleaseOnly =>
      reject_if ((pi_reservation_status existing != Reserved) || (pi_reservation_status i != Released)
                 || (pi_reserved_amount i != pi_reserved_amount existing))
                (conflict "reservation update must release one existing reservation")
  | RmSettlement =>
      reject_if (negb match pi_reservation_status existing, pi_reservation_status i with
                      | (Reserved | Consumed), Consumed => true
                      | Unreserved, Unreserved => true
                      | Released, Released => true
                      | _, _ => false
                      end) (conflict "settlement has an invalid reservation transition")
  | RmApprovalReserve =>
      reject_if ((pi_reservation_status existing != Unreserved) || (pi_reservation_status i != Reserved)
                 || (pi_reserved_amount i != pi_amount i))
                (conflict "approved payment must create exactly one full reservation")
  end.

Definition intent_not_found (id : string) : Error := NotFound ("payment intent " ++ id).

(** [update_intent] *)
Definition update_intent (i : PaymentIntent) (expected_updated_at : Z) (m : ReservationMutation) : Tx DB unit :=
  tlift (map_err invalid_intent (PaymentIntent_validate i)) ;*
  let* existing := load_or (load_intent (pi_id i)) (intent_not_found (pi_id i)) in
  tlift (reject_if ((pi_updated_at existing != expected_updated_at)
                    || (pi_updated_at i <=? expected_updated_at)%Z
                    || negb (same_immutable_identity_as existing i)
                    || (pi_settled_amount i <? pi_settled_amount existing)%N
                    || negb (allowed_status_transition (pi_status existing) (pi_status i)))
                   (conflict "payment intent identity, lifecycle, or revision changed")) ;*
  tlift (check_reservation m existing i) ;*
  let* changed := sql_update_intent (pi_id i) (fun r => pi_updated_at (ir_intent r) == expected_updated_at)
                    (update_columns i) (conflict "payment intent update rejected") in
  expect_one changed (conflict "payment intent revision changed").

(** [bind_credential_transition] *)
Definition bind_credential_transition (i : PaymentIntent) (credential : PaymentCredential)
    (expected_updated_at : Z) : Tx DB unit :=
  tlift (reject_if (blank (cr_credential_hash credential)
                    || (cr_protocol credential != pi_protocol i)
                    || (pi_challenge_hash i != Some (cr_challenge_hash credential))
                    || (pi_direction i != Inbound))
                   (conflict "payment credential is not bound to the inbound challenge")) ;*
  let* existing_hash := treads (fun d => match t_intent d !! pi_id i with
                                         | Some r => ir_credential_hash r
                                         | None => None
                                         end) in
  tlift (reject_if (is_some existing_hash) (conflict "payment credential is already bound")) ;*
  update_intent i expected_updated_at RmUnchanged ;*
  let* changed := sql_update_intent (pi_id i) (fun r => is_none (ir_credential_hash r))
                    (set_credential (cr_credential_hash credential))
                    (conflict "payment credential binding rejected") in
  expect_one changed (conflict "payment credential binding lost its conditional update").

(** [insert_approval_request] *)
Definition insert_approval_request (a : ApprovalRequest) : Tx DB unit :=
  tlift (reject_if (blank (ap_id a) || blank (ap_intent_id a) || blank (ap_run_id a)
                    || Amount.is_zero (ap_requested_amount a) || blank (ap_requested_by a)
                    || blank (ap_intent_hash a))
                   (InvalidRequest "approval request identity is incomplete")) ;*
  sql_insert_approval a (conflict "payment approval insert rejected").

Section Transactions.
Context `{SolanaPubkey}.

(** [insert_intent] *)
Definition insert_intent (i : PaymentIntent) (credential_hash : option string) : Tx DB unit :=
  tlift (map_err invalid_intent (PaymentIntent_validate i)) ;*
  validate_intent_authority i ;*
  sql_insert_intent {| ir_intent := i; ir_credential_hash := credential_hash; ir_reconcile_attempts := 0;
                       ir_lease_owner := None; ir_lease_expires_at := None |}
                    (conflict "payment intent insert rejected").

(** The lifecycle each authorization outcome must have. *)
Definition check_action (w : AuthorizationWrite) : Tx DB unit :=
  let i := aw_intent w in
  match aw_action w with
  | RecordDenied =>
      tlift (reject_if (is_some (aw_approval w) || (pi_status i != Failed)
                        || (pi_reservation_status i != Unreserved))
                       (conflict "denied authorization aggregate has invalid lifecycle"))
  | RequestApproval =>
      tlift (reject_if (is_none_or (fun a => ap_intent_id a != pi_id i) (aw_approval w)
                        || (pi_status i != PendingApproval) || (pi_reservation_status i != Unreserved))
                       (conflict "approval authorization aggregate has invalid lifecycle"))
  | Reserve =>
      tlift (reject_if (is_some (aw_approval w) || (pi_status i != Authorized)
                        || (pi_reservation_status i != Reserved) || (pi_reserved_amount i != pi_amount i))
                       (conflict "reserved authorization aggregate has invalid lifecycle")) ;*
      enforce_budget i (g_day_started_at (aw_guard w)) (g_evaluated_at (aw_guard w)) false
  end.

(** [IIntentRepository::authorize] *)
Definition authorize (w : AuthorizationWrite) : Tx DB (IdempotentWrite AuthorizationRecord) :=
  let i := aw_intent w in
  let* found := load_run (pi_scenario_id i) (pi_run_id i) in
  match found with
  | Some existing =>
      tlift (reject_if (pi_request_hash (ar_intent existing) != pi_request_hash i)
                       (conflict "payment run_id is bound to a different request")) ;*
      tret (Replayed existing)
  | None =>
      validate_authorization_guard i (aw_guard w) (aw_action w) ;*
      tlift (validate_challenge_received_event (aw_events w) i) ;*
      check_action w ;*
      insert_intent i None ;*
      match aw_approval w with Some a => insert_approval_request a | None => tret tt end ;*
      append_side_effects (aw_events w) (aw_outbox w) ;*
      tret (Inserted {| ar_intent := i; ar_approval := aw_approval w |})
  end.

(** [IIntentRepository::record_challenge] *)
Definition record_challenge (w : ChallengeWrite) : Tx DB (IdempotentWrite PaymentIntent) :=
  let i := cw_intent w in
  let* found := load_intent_by_run (pi_scenario_id i) (pi_run_id i) in
  match found with
  | Some existing =>
      if pi_request_hash existing == pi_request_hash i then tret (Replayed existing)
      else tfail (conflict "payment run_id is bound to a different request")
  | None =>
      validate_challenge_guard i (cw_challenge w) (cw_guard w) ;*
      tlift (validate_challenge_created_event (cw_events w) i (cw_challenge w)) ;*
      enforce_budget i (cg_day_started_at (cw_guard w)) (cg_evaluated_at (cw_guard w)) false ;*
      insert_intent i None ;*
      append_side_effects (cw_events w) (cw_outbox w) ;*
      tret (Inserted i)
  end.

(** [IIntentRepository::verify_incoming] *)
Definition verify_incoming (w : VerificationWrite) : Tx DB PaymentIntent :=
  lock_intent_financial_scope (vw_intent w) ;*
  bind_credential_transition (vw_intent w) (vw_credential w) (vw_expected_updated_at w) ;*
  append_side_effects (vw_events w) (vw_outbox w) ;*
  tret (vw_intent w).

(** [IIntentRepository::commit_progress] *)
Definition commit_progress (w : PaymentProgressWrite) : Tx DB PaymentIntent :=
  let i := pgw_intent w in
  lock_intent_financial_scope i ;*
  let* existing := load_or (load_intent (pi_id i)) (intent_not_found (pi_id i)) in
  let* mutation := tlift (validate_progress_transition existing i (pgw_expected_updated_at w) (pgw_events w)) in
  update_intent i (pgw_expected_updated_at w) mutation ;*
  append_side_effects (pgw_events w) (pgw_outbox w) ;*
  tret i.

(** [IIntentRepository::record_outbound_evidence] *)
Definition record_outbound_evidence (w : OutboundEvidenceWrite) : Tx DB (IdempotentWrite PaymentIntent) :=
  let i := ow_intent w in
  lock_intent_financial_scope i ;*
  let* existing := load_or (load_intent (pi_id i)) (intent_not_found (pi_id i)) in
  let* stored := load_outbound_evidence_event (pi_id i) in
  match stored with
  | Some stored_event =>
      if outbound_evidence_replay_matches stored_event (pi_id i) (ow_evidence_hash w)
      then tret (Replayed existing)
      else tfail (conflict "outbound merchant evidence has different content")
  | None =>
      tlift (validate_outbound_evidence_transition existing i (ow_expected_updated_at w) (ow_event w)
               (ow_evidence_hash w)) ;*
      update_intent i (ow_expected_updated_at w) RmUnchanged ;*
      append_side_effects [ow_event w] (ow_outbox w) ;*
      tret (Inserted i)
  end.

(** [IIntentRepository::commit_settlement] *)
Definition commit_settlement (w : SettlementWrite) : Tx DB PaymentIntent :=
  let i := sw_intent w in
  lock_intent_financial_scope i ;*
  let* existing := load_or (load_intent (pi_id i)) (intent_not_found (pi_id i)) in
  tlift (validate_settlement_transition existing i (sw_expected_updated_at w) (sw_ledger_entries w)) ;*
  tfor (fun e => insert_ledger e ;* tret tt) (sw_ledger_entries w) ;*
  update_intent i (sw_expected_updated_at w) RmSettlement ;*
  append_side_effects (sw_events w) (sw_outbox w) ;*
  tret i.
End Transactions.

(** ** Reconciliation leases *)

(** Due work: recovery of a payment in flight or an expired challenge. *)
Definition reconciliation_due (now : Z) (r : IntentRow) : bool :=
  let i := ir_intent r in
  (match pi_status i with
   | Signed | Submitted | PendingSettlement | Unknown =>
       is_some_and (fun t => (t <=? now)%Z) (pi_next_reconcile_at i)
   | Created => is_some_and (fun t => (t <=? now)%Z) (pi_expires_at i)
   | _ => false
   end)
  && is_none_or (fun t => (t <=? now)%Z) (ir_lease_expires_at r).

(** [COALESCE(next_reconcile_at, expires_at), created_at, id]; due rows have
    one of the two times. *)
Definition reconcile_key (r : IntentRow) : Z :=
  let i := ir_intent r in
  match pi_next_reconcile_at i with Some t => t | None => unwrap_or 0%Z (pi_expires_at i) end.
Definition reconcile_before (a b : IntentRow) : bool :=
  let i := ir_intent a in
  let j := ir_intent b in
  (reconcile_key a <? reconcile_key b)%Z
  || ((reconcile_key a =? reconcile_key b)%Z
      && ((pi_created_at i <? pi_created_at j)%Z
          || ((pi_created_at i =? pi_created_at j)%Z && negb (str_ltb (pi_id j) (pi_id i))))).

Definition set_reconciliation_lease (owner : string) (until : Z) (r : IntentRow) : IntentRow :=
  {| ir_intent := ir_intent r; ir_credential_hash := ir_credential_hash r;
     ir_reconcile_attempts := ir_reconcile_attempts r + 1;
     ir_lease_owner := Some owner; ir_lease_expires_at := Some until |}.

Definition claim_one (q : ReconciliationLeaseRequest) (id : string) : Tx DB ReconciliationClaim :=
  let* changed := sql_update_intent id
                    (fun r => reconciliation_due (rl_now q) r && (ir_reconcile_attempts r <? U32_MAX)%N)
                    (set_reconciliation_lease (rl_owner q) (rl_lease_until q))
                    (Storage "claim payment reconciliation") in
  expect_one changed (conflict "payment reconciliation claim lost its conditional update") ;*
  let* row := load_or (treads (fun d => t_intent d !! id)) (Storage "claimed payment intent disappeared") in
  tret {| rc_intent := ir_intent row; rc_attempt_no := ir_reconcile_attempts row |}.

(** [claim_reconciliation_batch] *)
Definition claim_reconciliation (q : ReconciliationLeaseRequest) : Tx DB (list ReconciliationClaim) :=
  tlift (reject_if (blank (rl_owner q) || (rl_lease_until q <=? rl_now q)%Z || (rl_limit q =? 0)%N)
                   (InvalidRequest "invalid reconciliation lease request")) ;*
  let* ids := treads (fun d => map (fun r => pi_id (ir_intent r))
                (firstn (N.to_nat (rl_limit q))
                   (order_by reconcile_before (select (reconciliation_due (rl_now q)) (t_intent d))))) in
  tmapM (claim_one q) ids.

Definition leasable_status (s : PaymentStatus) : bool :=
  match s with Created | Signed | Submitted | PendingSettlement | Unknown => true | _ => false end.

Definition set_lease_expiry (until : Z) (r : IntentRow) : IntentRow :=
  {| ir_intent := ir_intent r; ir_credential_hash := ir_credential_hash r;
     ir_reconcile_attempts := ir_reconcile_attempts r; ir_lease_owner := ir_lease_owner r;
     ir_lease_expires_at := Some until |}.

Definition set_next_reconcile (next : option Z) (i : PaymentIntent) : PaymentIntent :=
  {| pi_id := pi_id i; pi_scenario_id := pi_scenario_id i; pi_run_id := pi_run_id i;
     pi_wallet_id := pi_wallet_id i; pi_policy_id := pi_policy_id i; pi_price_id := pi_price_id i;
     pi_direction := pi_direction i; pi_protocol := pi_protocol i; pi_asset := pi_asset i;
     pi_recipient := pi_recipient i; pi_amount := pi_amount i; pi_settled_amount := pi_settled_amount i;
     pi_resource := pi_resource i; pi_challenge_hash := pi_challenge_hash i;
     pi_request_hash := pi_request_hash i; pi_status := pi_status i;
     pi_reservation_status := pi_reservation_status i; pi_reserved_amount := pi_reserved_amount i;
     pi_tx_hash := pi_tx_hash i; pi_settlement_ref := pi_settlement_ref i; pi_next_reconcile_at := next;
     pi_created_at := pi_created_at i; pi_updated_at := pi_updated_at i; pi_expires_at := pi_expires_at i;
     pi_settled_at := pi_settled_at i |}.

Definition clear_lease (next : option Z) (r : IntentRow) : IntentRow :=
  {| ir_intent := set_next_reconcile next (ir_intent r); ir_credential_hash := ir_credential_hash r;
     ir_reconcile_attempts := ir_reconcile_attempts r; ir_lease_owner := None; ir_lease_expires_at := None |}.

(** [update_reconciliation_lease], with [renew_reconciliation_lease] and
    [release_reconciliation_lease] as its two uses *)
Definition update_reconciliation_lease (intent_id owner : string) (lease_until next_attempt_at : option Z)
  : Tx DB unit :=
  tlift (reject_if (blank intent_id || blank owner || (lease_until == Some 0%Z) || (next_attempt_at == Some 0%Z))
                   (InvalidRequest "invalid reconciliation lease transition")) ;*
  let guard r := (ir_lease_owner r == Some owner) && leasable_status (pi_status (ir_intent r)) in
  let error := Storage "update payment reconciliation lease" in
  let* changed := match lease_until with
                  | Some until => sql_update_intent intent_id guard (set_lease_expiry until) error
                  | None => sql_update_intent intent_id guard (clear_lease next_attempt_at) error
                  end in
  expect_one changed (conflict "payment reconciliation lease is not held by this owner").

Definition renew_reconciliation_lease (intent_id owner : string) (lease_until : Z) : Tx DB unit :=
  update_reconciliation_lease intent_id owner (Some lease_until) None.
Definition release_reconciliation_lease (intent_id owner : string) (next_attempt_at : Z) : Tx DB unit :=
  update_reconciliation_lease intent_id owner None (Some next_attempt_at).
