(* ===== verification/Program.v ===== *)
(** * Programs of transactions

    A service of [src/src/payment] or [src/src/handler] awaits one repository
    call after another; each call is a database transaction (or a single read)
    and anything may happen in the database between two of them.  A [Prog] is
    such a service operation: a tree of calls.  [exec] is its meaning when
    other parties interfere, [exec_calls] the same with the operation's own
    transactions listed, [run_alone] its execution without interference. *)

From S2P Require Import Prelude.

#[local] Open Scope vault_scope.

Inductive Prog (S A : Type) : Type :=
| Done (r : Result Error A)
| Call {B : Type} (m : Tx S B) (k : Result Error B -> Prog S A).
Arguments Done {S A} r.
Arguments Call {S A B} m k.

(** [.await?] followed by the rest: an error ends the operation. *)
Fixpoint gbind {S A B} (p : Prog S A) (k : A -> Prog S B) : Prog S B :=
  match p with
  | Done (Ok a) => k a
  | Done (Err e) => Done (Err e)
  | Call m c => Call m (fun r => gbind (c r) k)
  end.
Definition gret {S A} (a : A) : Prog S A := Done (Ok a).
Definition glift {S A} (r : Result Error A) : Prog S A := Done r.
(** One repository call. *)
Definition await {S A} (m : Tx S A) : Prog S A := Call m Done.
(** One repository call whose error the caller matches on. *)
Definition attempt {S A} (m : Tx S A) : Prog S (Result Error A) := Call m (fun r => Done (Ok r)).
(** An operation whose error the caller matches on. *)
Fixpoint catch {S A} (p : Prog S A) : Prog S (Result Error A) :=
  match p with
  | Done r => Done (Ok r)
  | Call m k => Call m (fun r => catch (k r))
  end.

Notation "'let&' x ':=' c 'in' k" := (gbind c (fun x => k))
  (at level 10, x name, c at level 200, k at level 200) : vault_scope.
Notation "c ';&' k" := (gbind c (fun _ => k))
  (at level 199, k at level 200, right associativity) : vault_scope.

(** [for x in l { ... }] with an accumulator. *)
Fixpoint gfold {S A B} (f : B -> A -> Prog S B) (acc : B) (l : list A) : Prog S B :=
  match l with
  | [] => gret acc
  | a :: rest => let& acc' := f acc a in gfold f acc' rest
  end.

(** The operation on its own. *)
Fixpoint run_alone {S A} (p : Prog S A) (s : S) : Result Error A * S :=
  match p with
  | Done r => (r, s)
  | Call m k => let (r, s') := transaction m s in run_alone (k r) s'
  end.

(** The operation among others: [env] is what they may do before each call. *)
Fixpoint exec {S A} (env : S -> S -> Prop) (p : Prog S A) (s : S) (r : Result Error A) (s' : S) : Prop :=
  match p with
  | Done r' => r = r' /\ s' = s
  | Call m k => exists s1, env s s1
                /\ exec env (k (fst (transaction m s1))) (snd (transaction m s1)) r s'
  end.

(** The same, with the operation's own transactions: the database before and
    after each. *)
Fixpoint exec_calls {S A} (env : S -> S -> Prop) (p : Prog S A) (s : S) (calls : list (S * S))
    (r : Result Error A) (s' : S) : Prop :=
  match p with
  | Done r' => calls = [] /\ r = r' /\ s' = s
  | Call m k => exists s1 rest, env s s1 /\ calls = (s1, snd (transaction m s1)) :: rest
                /\ exec_calls env (k (fst (transaction m s1))) (snd (transaction m s1)) rest r s'
  end.
Fixpoint alone_calls {S A} (p : Prog S A) (s : S) : list (S * S) :=
  match p with
  | Done _ => []
  | Call m k => let (r, s') := transaction m s in (s, s') :: alone_calls (k r) s'
  end.

(** What an operation answers when its transactions run in the given databases. *)
Fixpoint answer_on {S A} (p : Prog S A) (calls : list (S * S)) : option (Result Error A) :=
  match p, calls with
  | Done r, [] => Some r
  | Call m k, (s, _) :: rest => answer_on (k (fst (transaction m s))) rest
  | _, _ => None
  end.

(** The operation wrote nothing, or nothing but one transaction. *)
Definition wrote_nothing {S} (calls : list (S * S)) : Prop := Forall (fun c => snd c = fst c) calls.
Definition wrote_only {S} (s s' : S) (calls : list (S * S)) : Prop :=
  s' <> s /\ exists before after, calls = before ++ (s, s') :: after /\ wrote_nothing before /\ wrote_nothing after.

(** Every transaction of the operation stays within a relation. *)
Fixpoint calls_in {S A} (R : S -> S -> Prop) (p : Prog S A) : Prop :=
  match p with
  | Done _ => True
  | Call m k => (forall s a s', m s = Ok (a, s') -> R s s') /\ forall r, calls_in R (k r)
  end.

Section Laws.
Context {S : Type}.

Lemma run_alone_bind {A B} (p : Prog S A) (k : A -> Prog S B) s :
  run_alone (gbind p k) s
  = match run_alone p s with (Ok a, s') => run_alone (k a) s' | (Err e, s') => (Err e, s') end.
Proof.
  revert s. induction p as [[a|e]|B' m c IH]; intros s; simpl; [done..|].
  destruct (transaction m s) as [r s']. apply IH.
Qed.

Lemma run_alone_bind_ok {A B} (p : Prog S A) (k : A -> Prog S B) s b s' :
  run_alone (gbind p k) s = (Ok b, s') <->
  exists a s1, run_alone p s = (Ok a, s1) /\ run_alone (k a) s1 = (Ok b, s').
Proof. rewrite run_alone_bind. destruct (run_alone p s) as [[a|e] s1]; naive_solver. Qed.

Lemma run_alone_await_ok {A} (m : Tx S A) s a s' : run_alone (await m) s = (Ok a, s') <-> m s = Ok (a, s').
Proof. simpl. unfold transaction. destruct (m s) as [[b s1]|e]; naive_solver. Qed.

Lemma run_alone_lift_ok {A} (r : Result Error A) (s : S) a s' :
  run_alone (glift r) s = (Ok a, s') <-> r = Ok a /\ s' = s.
Proof. simpl. naive_solver. Qed.

Lemma exec_bind {A B} env (p : Prog S A) (k : A -> Prog S B) s r s' :
  exec env (gbind p k) s r s' <->
  (exists a s1, exec env p s (Ok a) s1 /\ exec env (k a) s1 r s')
  \/ (exists e, r = Err e /\ exec env p s (Err e) s').
Proof.
  revert s. induction p as [[a|e]|B' m c IH]; intros s; simpl.
  - split.
    + intros Hk. left. by exists a, s.
    + intros [(a' & s1 & [[= ->] ->] & Hk)|(e & _ & [=] & _)]. done.
  - split.
    + intros [-> ->]. right. by exists e.
    + intros [(a' & s1 & [[=] _] & _)|(e' & -> & [= ->] & ->)]. done.
  - split.
    + intros (s1 & He & Hx%IH). destruct Hx as [(a & s2 & Hp & Hk)|(e & -> & Hp)].
      * left. exists a, s2. split; [by exists s1|done].
      * right. exists e. split; [done|by exists s1].
    + intros [(a & s2 & (s1 & He & Hp) & Hk)|(e & -> & s1 & He & Hp)]; exists s1; (split; [done|]); apply IH; eauto.
Qed.

Lemma exec_bind_ok {A B} env (p : Prog S A) (k : A -> Prog S B) s b s' :
  exec env (gbind p k) s (Ok b) s' <-> exists a s1, exec env p s (Ok a) s1 /\ exec env (k a) s1 (Ok b) s'.
Proof. rewrite exec_bind. split; [intros [?|(e & [=] & _)]; done|by left]. Qed.

Lemma exec_await_ok {A} env (m : Tx S A) s a s' :
  exec env (await m) s (Ok a) s' <-> exists s1, env s s1 /\ m s1 = Ok (a, s').
Proof.
  simpl. split; intros (s1 & He & H); exists s1; (split; [done|]); unfold transaction in *.
  - destruct (m s1) as [[b s2]|e]; simpl in *; destruct H; by simplify_eq.
  - by rewrite H.
Qed.

Lemma exec_attempt_ok {A} env (m : Tx S A) s r s' :
  exec env (attempt m) s (Ok r) s'
  <-> exists s1, env s s1 /\ match r with Ok a => m s1 = Ok (a, s') | Err e => m s1 = Err e /\ s' = s1 end.
Proof.
  simpl. split; intros (s1 & He & H); exists s1; (split; [done|]); unfold transaction in *.
  - destruct (m s1) as [[b s2]|e]; simpl in *; destruct H as [H1 H2]; by simplify_eq.
  - destruct r as [a|e]; [by rewrite H|]. destruct H as [H ->]. by rewrite H.
Qed.

Lemma run_alone_attempt_ok {A} (m : Tx S A) s r s' :
  run_alone (attempt m) s = (Ok r, s')
  <-> match r with Ok a => m s = Ok (a, s') | Err e => m s = Err e /\ s' = s end.
Proof. simpl. unfold transaction. destruct (m s) as [[b s1]|e], r; naive_solver. Qed.

Lemma exec_catch_ok {A} env (p : Prog S A) s r s' : exec env (catch p) s (Ok r) s' <-> exec env p s r s'.
Proof.
  revert s. induction p as [x|B m c IH]; intros s; simpl; [naive_solver|].
  split; intros (s1 & He & Hx); exists s1; (split; [done|]); by apply IH.
Qed.

Lemma exec_catch_err {A} env (p : Prog S A) s e s' : ~ exec env (catch p) s (Err e) s'.
Proof.
  revert s. induction p as [x|B m c IH]; intros s; simpl; [by intros [? _]|].
  intros (s1 & _ & Hx). by eapply IH.
Qed.

Lemma run_alone_catch {A} (p : Prog S A) s :
  run_alone (catch p) s = (Ok (fst (run_alone p s)), snd (run_alone p s)).
Proof.
  revert s. induction p as [x|B m c IH]; intros s; simpl; [done|]. destruct (transaction m s). apply IH.
Qed.

Lemma exec_lift_ok {A} env (r : Result Error A) (s : S) a s' :
  exec env (glift r) s (Ok a) s' <-> r = Ok a /\ s' = s.
Proof. simpl. naive_solver. Qed.

Lemma exec_ret_ok {A} env (x : A) (s : S) a s' : exec env (gret x) s (Ok a) s' <-> a = x /\ s' = s.
Proof. simpl. naive_solver. Qed.
Lemma run_alone_ret_ok {A} (x : A) (s : S) a s' : run_alone (gret x) s = (Ok a, s') <-> a = x /\ s' = s.
Proof. simpl. naive_solver. Qed.

(** Without interference [exec] is [run_alone]. *)
Lemma run_alone_exec {A} env `{!Reflexive env} (p : Prog S A) s : exec env p s (fst (run_alone p s)) (snd (run_alone p s)).
Proof.
  revert s. induction p as [r|B m c IH]; intros s; simpl; [done|].
  exists s. split; [done|]. destruct (transaction m s) as [r s'] eqn:Ht. simpl. apply IH.
Qed.

Lemma run_alone_exec_eq {A} env `{!Reflexive env} (p : Prog S A) s r s' :
  run_alone p s = (r, s') -> exec env p s r s'.
Proof. intros Hr. pose proof (run_alone_exec env p s) as Hx. by rewrite Hr in Hx. Qed.

Lemma exec_rel {A} env (R : S -> S -> Prop) `{!Reflexive R, !Transitive R} (p : Prog S A) s r s' :
  (forall x y, env x y -> R x y) -> calls_in R p -> exec env p s r s' -> R s s'.
Proof.
  intros Henv. revert s. induction p as [r'|B m c IH]; intros s; simpl.
  - by intros _ [_ ->].
  - intros [Hm Hc] (s1 & He & Hx). etrans; [by apply Henv|].
    unfold transaction in Hx. destruct (m s1) as [[a s2]|e] eqn:E; simpl in Hx.
    + etrans; [by eapply Hm|]. by eapply IH.
    + by eapply IH.
Qed.

(** An execution has its transactions. *)
Lemma exec_calls_iff {A} env (p : Prog S A) s r s' : exec env p s r s' <-> exists calls, exec_calls env p s calls r s'.
Proof.
  revert s. induction p as [r'|B m c IH]; intros s; simpl; [naive_solver|]. split.
  - intros (s1 & He & (calls & Hx)%IH). eauto 7.
  - intros (calls & s1 & rest & He & _ & Hx). exists s1. split; [done|]. apply IH. eauto.
Qed.
Lemma exec_of_calls {A} env (p : Prog S A) s calls r s' : exec_calls env p s calls r s' -> exec env p s r s'.
Proof. intros Hx. apply exec_calls_iff. eauto. Qed.

Lemma alone_exec_calls {A} env `{!Reflexive env} (p : Prog S A) s r s' :
  run_alone p s = (r, s') -> exec_calls env p s (alone_calls p s) r s'.
Proof.
  revert s. induction p as [r0|B m c IH]; intros s; simpl; [by intros [= -> ->]|].
  intros Hr. destruct (transaction m s) as [x s1] eqn:Ht. exists s, (alone_calls (c x) s1). rewrite Ht. auto.
Qed.

Lemma exec_calls_bind_ok {A B} env (p : Prog S A) (k : A -> Prog S B) s calls b s' :
  exec_calls env (gbind p k) s calls (Ok b) s' <->
  exists a s1 c1 c2, calls = c1 ++ c2 /\ exec_calls env p s c1 (Ok a) s1 /\ exec_calls env (k a) s1 c2 (Ok b) s'.
Proof.
  revert s calls. induction p as [[a|e]|B' m c IH]; intros s calls; simpl.
  - split; [intros Hk; by exists a, s, [], calls|]. by intros (a' & s1 & c1 & c2 & -> & (-> & [= ->] & ->) & Hk).
  - split; [by intros (_ & [=] & _)|]. by intros (a' & s1 & c1 & c2 & _ & (_ & [=] & _) & _).
  - split.
    + intros (s1 & rest & He & -> & (a & s2 & c1 & c2 & -> & Hp & Hk)%IH).
      exists a, s2. eexists (_ :: c1), c2. split; [done|]. eauto 7.
    + intros (a & s2 & c1 & c2 & -> & (s1 & rest & He & -> & Hp) & Hk). exists s1, (rest ++ c2).
      split_and!; [done|done|]. apply IH. eauto 8.
Qed.
Lemma exec_calls_bind {A B} env (p : Prog S A) (k : A -> Prog S B) s calls r s' :
  exec_calls env (gbind p k) s calls r s' <->
  (exists a s1 c1 c2, calls = c1 ++ c2 /\ exec_calls env p s c1 (Ok a) s1 /\ exec_calls env (k a) s1 c2 r s')
  \/ (exists e, r = Err e /\ exec_calls env p s calls (Err e) s').
Proof.
  revert s calls. induction p as [[a|e]|B' m c IH]; intros s calls; simpl.
  - split; [intros Hk; left; by exists a, s, [], calls|].
    by intros [(a' & s1 & c1 & c2 & -> & (-> & [= ->] & ->) & Hk)|(e & _ & _ & [=] & _)].
  - split; [intros (-> & -> & ->); right; by exists e|].
    by intros [(a' & s1 & c1 & c2 & _ & (_ & [=] & _) & _)|(e' & -> & -> & [= ->] & ->)].
  - split.
    + intros (s1 & rest & He & -> & [(a & s2 & c1 & c2 & -> & Hp & Hk)|(e & -> & Hp)]%IH).
      * left. exists a, s2. eexists (_ :: c1), c2. split; [done|]. eauto 7.
      * right. exists e. split; [done|]. eauto 7.
    + intros [(a & s2 & c1 & c2 & -> & (s1 & rest & He & -> & Hp) & Hk)|(e & -> & s1 & rest & He & -> & Hp)].
      * exists s1, (rest ++ c2). split_and!; [done|done|]. apply IH. left. eauto 8.
      * exists s1, rest. split_and!; [done|done|]. apply IH. right. eauto.
Qed.
(** The part of a continuation that is reached decides, up to a fact that some
    part of it settles. *)
Lemma exec_calls_bind_or {A B} env (p : Prog S A) (k k' : A -> Prog S B) s calls r s' (Q : Prop) :
  (forall a s1 c1 c2, exec_calls env p s c1 (Ok a) s1 -> exec_calls env (k a) s1 c2 r s' ->
     exec_calls env (k' a) s1 c2 r s' \/ Q) ->
  exec_calls env (gbind p k) s calls r s' -> exec_calls env (gbind p k') s calls r s' \/ Q.
Proof.
  intros Hk. rewrite !exec_calls_bind. intros [(a & s1 & c1 & c2 & -> & Hp & Hx)|Herr]; [|by left; right].
  destruct (Hk _ _ _ _ Hp Hx) as [Hx'|HQ]; [left; left; eauto 8|by right].
Qed.
Lemma exec_calls_answer {A} env (p : Prog S A) s calls r s' : exec_calls env p s calls r s' -> answer_on p calls = Some r.
Proof.
  revert s calls. induction p as [r'|B m c IH]; intros s calls; simpl; [by intros (-> & -> & _)|].
  intros (s1 & rest & _ & -> & Hx). by eapply IH.
Qed.

Lemma exec_calls_await_ok {A} env (m : Tx S A) s calls a s' :
  exec_calls env (await m) s calls (Ok a) s' <-> exists s1, env s s1 /\ m s1 = Ok (a, s') /\ calls = [(s1, s')].
Proof.
  simpl. split.
  - intros (s1 & rest & He & -> & Hx). exists s1. split; [done|]. unfold transaction in *.
    destruct (m s1) as [[b s2]|e]; simpl in *; destruct Hx as (-> & Hr & ->); by simplify_eq.
  - intros (s1 & He & Hm & ->). exists s1, []. unfold transaction. by rewrite Hm.
Qed.
Lemma exec_calls_attempt_ok {A} env (m : Tx S A) s calls r s' :
  exec_calls env (attempt m) s calls (Ok r) s'
  <-> exists s1, env s s1 /\ match r with Ok a => m s1 = Ok (a, s') | Err e => m s1 = Err e /\ s' = s1 end
                 /\ calls = [(s1, s')].
Proof.
  simpl. split.
  - intros (s1 & rest & He & -> & Hx). exists s1. split; [done|]. unfold transaction in *.
    destruct (m s1) as [[b s2]|e]; simpl in *; destruct Hx as (-> & Hr & ->); by simplify_eq.
  - intros (s1 & He & Hm & ->). exists s1, []. unfold transaction. destruct r as [a|e].
    + by rewrite Hm.
    + destruct Hm as [Hm ->]. by rewrite Hm.
Qed.
Lemma exec_calls_lift_ok {A} env (r : Result Error A) (s : S) calls a s' :
  exec_calls env (glift r) s calls (Ok a) s' <-> r = Ok a /\ s' = s /\ calls = [].
Proof. simpl. naive_solver. Qed.
Lemma exec_calls_ret_ok {A} env (x : A) (s : S) calls a s' :
  exec_calls env (gret x) s calls (Ok a) s' <-> a = x /\ s' = s /\ calls = [].
Proof. simpl. naive_solver. Qed.

Lemma calls_within {A} env (R : S -> S -> Prop) `{!Reflexive R} (p : Prog S A) s calls r s' :
  calls_in R p -> exec_calls env p s calls r s' -> Forall (fun c => R (fst c) (snd c)) calls.
Proof.
  revert s calls. induction p as [r'|B m c IH]; intros s calls; simpl; [by intros _ (-> & _)|].
  intros [Hm Hc] (s1 & rest & _ & -> & Hx). constructor; [|by eapply IH]. simpl. unfold transaction.
  destruct (m s1) as [[a s2]|e] eqn:E; simpl; [by eapply Hm|done].
Qed.

(** An operation of queries. *)
Definition queries {A} (p : Prog S A) : Prop := calls_in (fun s s' => s' = s) p.
Lemma queries_wrote_nothing {A} env (p : Prog S A) s calls r s' :
  queries p -> exec_calls env p s calls r s' -> wrote_nothing calls.
Proof.
  assert (Reflexive (fun x y : S => y = x)) by by intros x. apply (calls_within env (fun x y => y = x)).
Qed.
Lemma queries_in {A} (R : S -> S -> Prop) `{!Reflexive R} (p : Prog S A) : queries p -> calls_in R p.
Proof.
  unfold queries. induction p as [x|B m c IH]; simpl; [done|]. intros [Hm Hc]. split; [|auto].
  intros s a s' E. apply Hm in E as ->. done.
Qed.
Lemma queries_bind {A B} (p : Prog S A) (k : A -> Prog S B) : queries p -> (forall a, queries (k a)) -> queries (gbind p k).
Proof.
  unfold queries. intros Hp Hk. induction p as [[a|e]|B' m c IH]; simpl in *; [done..|]. destruct Hp as [Hm Hc]. auto.
Qed.
Lemma queries_fold {A B} (f : B -> A -> Prog S B) l acc : (forall b a, queries (f b a)) -> queries (gfold f acc l).
Proof. intros Hf. revert acc. induction l as [|a l IH]; intros acc; simpl; [done|]. apply queries_bind; auto. Qed.
Lemma queries_await {A} (m : Tx S A) `{!ReadOnly m} : queries (await m).
Proof. split; [|done]. intros s a s' Hm. by apply read_only in Hm. Qed.
Lemma queries_lift {A} (r : Result Error A) : queries (glift r).
Proof. done. Qed.
Lemma queries_ret {A} (a : A) : queries (gret a).
Proof. done. Qed.

Lemma wrote_nothing_app (c1 c2 : list (S * S)) : wrote_nothing (c1 ++ c2) <-> wrote_nothing c1 /\ wrote_nothing c2.
Proof. apply Forall_app. Qed.
Lemma wrote_nothing_nil : wrote_nothing (@nil (S * S)).
Proof. constructor. Qed.
Lemma wrote_nothing_one (s : S) : wrote_nothing [(s, s)].
Proof. by repeat constructor. Qed.
Lemma wrote_only_one (s s' : S) : s' <> s -> wrote_only s s' [(s, s')].
Proof. intros Hs. split; [done|]. exists [], []. split_and!; [done|apply wrote_nothing_nil..]. Qed.
Lemma wrote_only_after (s s' : S) c1 c2 : wrote_nothing c1 -> wrote_only s s' c2 -> wrote_only s s' (c1 ++ c2).
Proof.
  intros H1 (Hs & before & after & -> & Hb & Ha). split; [done|]. exists (c1 ++ before), after.
  split_and!; [by rewrite <- app_assoc|by apply wrote_nothing_app|done].
Qed.
Lemma wrote_only_before (s s' : S) c1 c2 : wrote_only s s' c1 -> wrote_nothing c2 -> wrote_only s s' (c1 ++ c2).
Proof.
  intros (Hs & before & after & -> & Hb & Ha) H2. split; [done|]. exists before, (after ++ c2).
  split_and!; [by rewrite <- app_assoc|done|by apply wrote_nothing_app].
Qed.
(** The only change is the only one. *)
Lemma wrote_only_call (s s' : S) calls c : wrote_only s s' calls -> c ∈ calls -> snd c <> fst c -> c = (s, s').
Proof.
  intros (Hs & before & after & -> & Hb & Ha) Hc Hne. apply elem_of_app in Hc as [Hc|[->|Hc]%elem_of_cons]; [|done|];
    exfalso; apply Hne.
  - unfold wrote_nothing in Hb. rewrite Forall_forall in Hb. by apply Hb, list_elem_of_In.
  - unfold wrote_nothing in Ha. rewrite Forall_forall in Ha. by apply Ha, list_elem_of_In.
Qed.
Lemma wrote_only_something (s s' : S) calls : wrote_only s s' calls -> ~ wrote_nothing calls.
Proof.
  intros (Hs & before & after & -> & Hb & Ha) [_ Hc]%wrote_nothing_app. by inversion Hc.
Qed.

Lemma calls_in_bind {A B} R (p : Prog S A) (k : A -> Prog S B) :
  calls_in R p -> (forall a, calls_in R (k a)) -> calls_in R (gbind p k).
Proof.
  intros Hp Hk. induction p as [[a|e]|B' m c IH]; simpl in *; [done..|].
  destruct Hp as [Hm Hc]. split; [done|]. auto.
Qed.

Lemma calls_in_await {A} (R : S -> S -> Prop) (m : Tx S A) :
  (forall s a s', m s = Ok (a, s') -> R s s') -> calls_in R (await m).
Proof. simpl. auto. Qed.

Lemma calls_in_attempt {A} (R : S -> S -> Prop) (m : Tx S A) :
  (forall s a s', m s = Ok (a, s') -> R s s') -> calls_in R (attempt m).
Proof. simpl. auto. Qed.

Lemma calls_in_catch {A} (R : S -> S -> Prop) (p : Prog S A) : calls_in R p -> calls_in R (catch p).
Proof. induction p as [x|B m c IH]; simpl; [done|]. intros [Hm Hc]. split; [done|]. auto. Qed.

Lemma calls_in_fold {A B} R (f : B -> A -> Prog S B) l acc :
  (forall b a, calls_in R (f b a)) -> calls_in R (gfold f acc l).
Proof. intros Hf. revert acc. induction l as [|a l IH]; intros acc; simpl; [done|]. apply calls_in_bind; auto. Qed.
End Laws.

(** Two operations that behave alike among any others, call for call. *)
Definition prog_equiv {S A} (p q : Prog S A) : Prop :=
  forall env s calls r s', exec_calls env p s calls r s' <-> exec_calls env q s calls r s'.
#[export] Instance prog_equiv_equivalence {S A} : Equivalence (@prog_equiv S A).
Proof.
  split; [by intros p env s calls r s'|intros p q Hpq env s calls r s'; by rewrite (Hpq env s calls r s')|].
  intros p q t Hpq Hqt env s calls r s'. by rewrite (Hpq env s calls r s'), (Hqt env s calls r s').
Qed.
#[export] Instance gbind_proper {S A B} :
  Proper (prog_equiv ==> pointwise_relation A prog_equiv ==> prog_equiv) (@gbind S A B).
Proof.
  intros p q Hpq k l Hkl env s calls r s'. rewrite !exec_calls_bind. split.
  - intros [(a & s1 & c1 & c2 & -> & Hp & Hx)|(e & -> & Hp)]; [left|right].
    + exists a, s1, c1, c2. split_and!; [done|by apply Hpq|by apply (Hkl a)].
    + exists e. split; [done|by apply Hpq].
  - intros [(a & s1 & c1 & c2 & -> & Hp & Hx)|(e & -> & Hp)]; [left|right].
    + exists a, s1, c1, c2. split_and!; [done|by apply Hpq|by apply (Hkl a)].
    + exists e. split; [done|by apply Hpq].
Qed.

(** Splits a successful execution into its calls. *)
Ltac prog_step :=
  match goal with
  | H : exec _ (gbind _ _) _ (Ok _) _ |- _ => apply (proj1 (exec_bind_ok _ _ _ _ _ _)) in H; destruct H as (? & ? & ? & H)
  | H : exec _ (await _) _ (Ok _) _ |- _ => apply (proj1 (exec_await_ok _ _ _ _ _)) in H; destruct H as (? & ? & H)
  | H : exec _ (attempt _) _ (Ok _) _ |- _ => apply (proj1 (exec_attempt_ok _ _ _ _ _)) in H; destruct H as (? & ? & H)
  | H : exec _ (catch _) _ (Ok _) _ |- _ => apply (proj1 (exec_catch_ok _ _ _ _ _)) in H
  | H : exec _ (glift _) _ (Ok _) _ |- _ => apply (proj1 (exec_lift_ok _ _ _ _ _)) in H; destruct H as [H ?]
  | H : exec _ (gret _) _ (Ok _) _ |- _ => apply (proj1 (exec_ret_ok _ _ _ _ _)) in H; destruct H as [H ?]
  | H : exec_calls _ (gbind _ _) _ _ (Ok _) _ |- _ =>
      apply (proj1 (exec_calls_bind_ok _ _ _ _ _ _ _)) in H; destruct H as (? & ? & ? & ? & ? & ? & H)
  | H : exec_calls _ (await _) _ _ (Ok _) _ |- _ =>
      apply (proj1 (exec_calls_await_ok _ _ _ _ _ _)) in H; destruct H as (? & ? & H & ?)
  | H : exec_calls _ (attempt _) _ _ (Ok _) _ |- _ =>
      apply (proj1 (exec_calls_attempt_ok _ _ _ _ _ _)) in H; destruct H as (? & ? & H & ?)
  | H : exec_calls _ (glift _) _ _ (Ok _) _ |- _ =>
      apply (proj1 (exec_calls_lift_ok _ _ _ _ _ _)) in H; destruct H as (H & ? & ?)
  | H : exec_calls _ (gret _) _ _ (Ok _) _ |- _ =>
      apply (proj1 (exec_calls_ret_ok _ _ _ _ _ _)) in H; destruct H as (H & ? & ?)
  | H : run_alone (gbind _ _) _ = (Ok _, _) |- _ => apply (proj1 (run_alone_bind_ok _ _ _ _ _)) in H; destruct H as (? & ? & ? & H)
  | H : run_alone (await _) _ = (Ok _, _) |- _ => apply (proj1 (run_alone_await_ok _ _ _ _)) in H
  | H : run_alone (attempt _) _ = (Ok _, _) |- _ => apply (proj1 (run_alone_attempt_ok _ _ _ _)) in H
  | H : run_alone (glift _) _ = (Ok _, _) |- _ => apply (proj1 (run_alone_lift_ok _ _ _ _)) in H; destruct H as [H ?]
  | H : run_alone (gret _) _ = (Ok _, _) |- _ => apply (proj1 (run_alone_ret_ok _ _ _ _)) in H; destruct H as [H ?]
  end.
Ltac prog_inv := repeat (first [prog_step | run_step]; subst); subst.

(** Closes what an operation wrote, from what its parts wrote. *)
Ltac solve_wrote :=
  repeat first
    [ assumption | apply wrote_nothing_nil | apply wrote_nothing_one
    | (apply wrote_nothing_app; split) | (apply wrote_only_one; assumption)
    | match goal with |- wrote_only _ _ (_ ++ _) => first
        [ apply wrote_only_after; [solve [solve_wrote]|] | apply wrote_only_before; [|solve [solve_wrote]] ] end ].
