(* ===== verification/Authorizer.v ===== *)
(** * Authorization of outbound payments

    The service of [src/src/payment/authorization.rs] that an agent's request
    reaches: access control ([src/src/handler/{client,scenario}.rs]), replay of
    a known run, selection of a policy and wallet, the decision of the policy
    engine, and the write that the storage layer commits.  An operation is a
    [Prog]: other transactions may run between any two of its repository calls.

    The identities that [Uuid::new_v4] draws, the text serializer of JSON and
    the protocol adapters of the registry are arguments; a budget snapshot is
    one read. *)

From S2P Require Import Prelude Text Money Json Wallet Intent Policy Ledger Records Store PaymentRules Budget PaymentStore Program.

#[local] Open Scope string_scope.
#[local] Open Scope vault_scope.

(** ** Requests and results *)

Record AuthorizePayment : Type := {
  cmd_scenario_id : string;
  cmd_run_id : string;
  cmd_challenge : PaymentChallenge
}.

Inductive PaymentAuthorizationResult : Type :=
| ResDenied (intent_id reason : string)
| ResRequiresApproval (intent_id approval_id : string)
| ResAuthorized (intent_id : string) (reserved_amount : Amount).

Record AccessContext : Type := {
  ax_principal : string;
  ax_client : PaymentClient;
  ax_scenario : PaymentScenario
}.

(** ** Validation *)

(** [PaymentValidation::validate_identifier] *)
Definition identifier_byte (c : ascii) : bool :=
  is_ascii_alphanumeric c || (c == "."%char) || (c == "_"%char) || (c == "-"%char) || (c == ":"%char).
Definition validate_identifier (field value : string) : Result Error unit :=
  reject_if (is_empty value || (128 <? str_len value)%N || negb (bytes_all identifier_byte value))
            (InvalidRequest (field ++ " is invalid")).

(** [PaymentValidation::canonical_http_origin] *)
Definition canonical_http_origin `{UrlParser} (resource : string) : Result Error string :=
  let? parsed := ok_or (url_parse resource) (InvalidRequest "payment resource is not an absolute URL") in
  reject_if (negb ((url_scheme parsed == "http") || (url_scheme parsed == "https"))
             || is_none (url_host_str parsed)
             || negb (is_empty (url_username parsed))
             || is_some (url_password parsed)
             || is_some (url_fragment parsed))
            (InvalidRequest "payment resource URL is unsafe") ;?
  Ok (url_origin_ascii parsed).

(** [PaymentValidation::utc_day_start] *)
Definition utc_day_start (now : Z) : Z := i64_saturating_sub now (now mod 86400).

(** ** Access control *)

(** [PayClientHandler::authenticate] *)
Definition client_authenticate (principal : string) : Prog DB PaymentClient :=
  glift (reject_if (blank principal) Unauthenticated) ;&
  let& found := await (treads (fun d => fetch_optional (fun c => cl_auth_principal c == principal) (t_client d))) in
  glift (ok_or (match found with
                | Some c => if authenticates c principal then Some c else None
                | None => None
                end) Forbidden).

(** [ScenarioHandler::authorize] *)
Definition scenario_authorize (principal scenario_id : string) : Prog DB AccessContext :=
  if principal == UNRESTRICTED_PRINCIPAL then
    let& scenario := await (treads (fun d => t_scenario d !! scenario_id)) in
    let& scenario := glift (ok_or (match scenario with
                                   | Some s => if sc_enabled s then Some s else None
                                   | None => None
                                   end) Forbidden) in
    let& client := await (treads (fun d => t_client d !! sc_client_id scenario)) in
    let& client := glift (ok_or (match client with
                                 | Some c => if cl_enabled c then Some c else None
                                 | None => None
                                 end) Forbidden) in
    gret {| ax_principal := cl_auth_principal client; ax_client := client; ax_scenario := scenario |}
  else
    let& client := client_authenticate principal in
    let& scenario := await (treads (fun d => match t_scenario d !! scenario_id with
                                             | Some s => if sc_client_id s == cl_id client then Some s else None
                                             | None => None
                                             end)) in
    let& scenario := glift (ok_or (match scenario with
                                   | Some s => if sc_enabled s then Some s else None
                                   | None => None
                                   end) Forbidden) in
    gret {| ax_principal := principal; ax_client := client; ax_scenario := scenario |}.

(** ** Policies of a scenario *)

Record PageRequest : Type := { pq_offset : N; pq_limit : N }.
Record Page (A : Type) : Type := { pg_items : list A; pg_total : N }.
Arguments pg_items {A}.
Arguments pg_total {A}.

Definition with_wallet_ids (p : PaymentPolicy) (wallet_ids : list string) : PaymentPolicy :=
  {| po_id := po_id p; po_scenario_id := po_scenario_id p; po_wallet_ids := wallet_ids;
     po_protocols := po_protocols p; po_networks := po_networks p; po_assets := po_assets p;
     po_budget_unit := po_budget_unit p; po_allowed_recipients := po_allowed_recipients p;
     po_allowed_origins := po_allowed_origins p; po_inbound_limits := po_inbound_limits p;
     po_outbound_limits := po_outbound_limits p; po_enabled := po_enabled p;
     po_created_at := po_created_at p; po_updated_at := po_updated_at p |}.

(** [ORDER BY p.created_at, p.id] *)
Definition policy_before (a b : PaymentPolicy) : bool :=
  (po_created_at a <? po_created_at b)%Z
  || ((po_created_at a =? po_created_at b)%Z && negb (str_ltb (po_id b) (po_id a))).

(** [list_policies]: the count, the page of rows, then the wallets of each
    row, in separate statements. *)
Definition list_policies (p : PaymentPolicy -> bool) (page : PageRequest) : Prog DB (Page PaymentPolicy) :=
  glift (reject_if (I64_MAX <? Z.of_N (pq_offset page))%Z (Storage "SQLite page offset is too large")) ;&
  let& total := await (treads (fun d => N.of_nat (length (select p (t_policy d))))) in
  let& rows := await (treads (fun d => take (N.to_nat (pq_limit page))
                                         (drop (N.to_nat (pq_offset page))
                                            (order_by policy_before (select p (t_policy d)))))) in
  let& items := gfold (fun items row =>
                  let& wallet_ids := await (treads (fun d => match t_policy d !! po_id row with
                                                             | Some x => po_wallet_ids x
                                                             | None => []
                                                             end)) in
                  gret (items ++ [with_wallet_ids row wallet_ids])%list) [] rows in
  gret {| pg_items := items; pg_total := total |}.

(** [IPolicyRepository::list_for_scenario] *)
Definition list_for_scenario (scenario_id : string) (page : PageRequest) : Prog DB (Page PaymentPolicy) :=
  list_policies (fun p => po_scenario_id p == scenario_id) page.

(** [IIntentRepository::find_run] *)
Definition find_run (scenario_id run_id : string) : Prog DB (option AuthorizationRecord) :=
  let& found := await (load_intent_by_run scenario_id run_id) in
  match found with
  | None => gret None
  | Some i => let& approval := await (treads (fun d => latest_approval d (pi_id i))) in
              gret (Some {| ar_intent := i; ar_approval := approval |})
  end.

(** ** Candidates *)

Definition MAX_SCENARIO_POLICIES : N := 1000.
Definition MAX_WALLET_CANDIDATES : nat := 4096.

Record PolicyWalletCandidate : Type := {
  cd_policy : PaymentPolicy;
  cd_wallet_id : string;
  cd_selection_key : string;
  cd_budget : BudgetSnapshot;
  cd_origin : string;
  cd_decision : PolicyDecision
}.

(** [decision_rank] *)
Definition decision_rank (d : PolicyDecision) : N :=
  match d with Allowed => 0 | RequiresApproval => 1 | Denied _ => 2 end.

(** [Ordering::then_with] *)
Definition then_with (c : comparison) (next : comparison) : comparison :=
  match c with Eq => next | _ => c end.

(** [compare_candidates] *)
Definition compare_candidates (strategy : WalletSelectionStrategy) (l r : PolicyWalletCandidate) : comparison :=
  let ranked := (decision_rank (cd_decision l) ?= decision_rank (cd_decision r))%N in
  let spent := (bs_wallet_spent_and_reserved (cd_budget l) ?= bs_wallet_spent_and_reserved (cd_budget r))%N in
  let key := str_compare (cd_selection_key l) (cd_selection_key r) in
  let ranked := match strategy with
                | LeastSpent => then_with (then_with ranked spent) key
                | StableRandom => then_with (then_with ranked key) spent
                end in
  then_with (then_with ranked (str_compare (po_id (cd_policy l)) (po_id (cd_policy r))))
            (str_compare (cd_wallet_id l) (cd_wallet_id r)).

(** [candidates.sort_by(..).into_iter().next()] *)
Definition candidate_leb (strategy : WalletSelectionStrategy) (l r : PolicyWalletCandidate) : bool :=
  match compare_candidates strategy l r with Gt => false | _ => true end.
Definition select_candidate (strategy : WalletSelectionStrategy) (l : list PolicyWalletCandidate)
  : option PolicyWalletCandidate := head (order_by (candidate_leb strategy) l).

(** [selection_key] *)
Definition selection_key `{Sha256} (request_hash policy_id wallet_id : string) : string :=
  sha256 ("agentvault.wallet-selection.v1" ++ frame [request_hash; policy_id; wallet_id]).

(** [serde_json::to_vec] *)
Class JsonText : Type := { json_to_vec : json -> Result string string }.

(** [hash_request] *)
Definition hash_request `{Sha256} (domain encoded : string) : string :=
  hex_encode (sha256 (domain ++ len_be_bytes encoded ++ encoded)).

Definition command_json (c : AuthorizePayment) : json :=
  jobject [("scenario_id", JString (cmd_scenario_id c)); ("run_id", JString (cmd_run_id c));
           ("challenge", challenge_to_json (cmd_challenge c))].

(** [request_hash] *)
Definition request_hash `{Sha256, JsonText} (c : AuthorizePayment) : Result Error string :=
  let? encoded := map_err Json (json_to_vec (command_json c)) in
  Ok (hash_request "agentvault.authorize-payment.v2" encoded).

Section Selection.
Context `{SolanaPubkey, UrlParser, Sha256}.

(** [wallet_supports_payment_network] *)
Definition wallet_supports_payment_network (budget : BudgetSnapshot) (network : string) : bool :=
  (negb (is_evm_payment_network network) || is_evm_wallet_algorithm (bs_wallet_algorithm budget))
  && is_ok (canonicalize_payment_recipient network (bs_wallet_address budget)).

(** The policies that [policy_decision] does not [continue] over. *)
Definition policy_covers (p : PaymentPolicy) (c : PaymentChallenge) (origin : string) : bool :=
  negb (negb (po_enabled p) || negb (allows_direction p Outbound) || negb (allows_protocol p (ch_protocol c))
        || negb (allows_asset p (ch_asset c))
        || negb (allows_payment_recipient p (as_network (ch_asset c)) (ch_recipient c))
        || negb (allows_origin p origin)).

(** The decision on one candidate. *)
Definition candidate_decision (policy : PaymentPolicy) (wallet_id origin : string) (c : PaymentChallenge)
    (budget : BudgetSnapshot) (now : Z) : Result Error PolicyDecision :=
  if negb (bs_wallet_enabled budget) then Ok (Denied "payment wallet is disabled")
  else if is_none (bs_wallet_active_key_version budget)
  then Ok (Denied "payment wallet has no active local signing key")
  else if negb (wallet_supports_payment_network budget (as_network (ch_asset c)))
  then Ok (Denied "payment wallet is incompatible with the payment network")
  else evaluate policy
         {| pe_direction := Outbound; pe_challenge := c; pe_wallet_id := wallet_id; pe_origin := origin;
            pe_scenario_usage := bs_scenario_spent_and_reserved budget;
            pe_wallet_budget := {| wb_usage := bs_wallet_spent_and_reserved budget;
                                   wb_shared_across_scenarios := bs_wallet_shared_across_scenarios budget;
                                   wb_max_per_payment := bs_wallet_max_per_payment budget;
                                   wb_max_per_day := bs_wallet_max_per_day budget |};
            pe_now := now |}.

(** The body of the inner loop. *)
Definition consider_wallet (command : AuthorizePayment) (hash origin : string) (now : Z) (policy : PaymentPolicy)
    (candidates : list PolicyWalletCandidate) (wallet_id : string) : Prog DB (list PolicyWalletCandidate) :=
  glift (reject_if (MAX_WALLET_CANDIDATES <=? length candidates)%nat
                   (PolicyDenied "scenario has more than 4096 eligible policy-wallet candidates")) ;&
  let& budget := await (budget_snapshot (cmd_scenario_id command) wallet_id Outbound
                          (budget_unit (ch_asset (cmd_challenge command))) (utc_day_start now) now) in
  let& decision := glift (candidate_decision policy wallet_id origin (cmd_challenge command) budget now) in
  gret (candidates ++ [{| cd_policy := policy; cd_wallet_id := wallet_id;
                          cd_selection_key := selection_key hash (po_id policy) wallet_id;
                          cd_budget := budget; cd_origin := origin; cd_decision := decision |}])%list.

(** The body of the outer loop. *)
Definition consider_policy (command : AuthorizePayment) (hash origin : string) (now : Z)
    (candidates : list PolicyWalletCandidate) (policy : PaymentPolicy) : Prog DB (list PolicyWalletCandidate) :=
  glift (if po_enabled policy && allows_direction policy Outbound
         then map_err (fun field => PolicyDenied ("invalid policy field: " ++ field)) (PaymentPolicy_validate policy)
         else Ok tt) ;&
  if policy_covers policy (cmd_challenge command) origin
  then gfold (consider_wallet command hash origin now policy) candidates (po_wallet_ids policy)
  else gret candidates.

(** [policy_decision] *)
Definition policy_decision (strategy : WalletSelectionStrategy) (command : AuthorizePayment) (hash : string)
    (now : Z) : Prog DB PolicyWalletCandidate :=
  let& page := list_for_scenario (cmd_scenario_id command) {| pq_offset := 0; pq_limit := MAX_SCENARIO_POLICIES |} in
  glift (reject_if (pg_total page != N.of_nat (length (pg_items page)))
                   (PolicyDenied "scenario has more than 1000 policies; wallet selection is bounded")) ;&
  let& origin := glift (canonical_http_origin (ch_resource (cmd_challenge command))) in
  let& candidates := gfold (consider_policy command hash origin now) [] (pg_items page) in
  glift (ok_or (select_candidate strategy candidates)
               (PolicyDenied "scenario has no eligible outbound policy-wallet candidate")).
End Selection.

(** ** The authorization write *)

(** The identities drawn for one authorization. *)
Record FreshIds : Type := {
  id_intent : string;
  id_received_event : string;
  id_outcome_event : string;
  id_approval : string;
  id_outbox : string
}.

(** [authorization_state] *)
Definition authorization_state (decision : PolicyDecision) (amount : Amount)
  : PaymentStatus * ReservationStatus * Amount * AuthorizationAction :=
  match decision with
  | Allowed => (Authorized, Reserved, amount, Reserve)
  | RequiresApproval => (PendingApproval, Unreserved, Amount.ZERO, RequestApproval)
  | Denied _ => (Failed, Unreserved, Amount.ZERO, RecordDenied)
  end.

(** [build_payment_intent] *)
Definition build_payment_intent (ids : FreshIds) (command : AuthorizePayment) (policy_id wallet_id hash : string)
    (decision : PolicyDecision) (now : Z) : Result Error (PaymentIntent * AuthorizationAction) :=
  let c := cmd_challenge command in
  let '(status, reservation_status, reserved_amount, action) := authorization_state decision (ch_amount c) in
  let intent :=
    {| pi_id := id_intent ids; pi_scenario_id := cmd_scenario_id command; pi_run_id := cmd_run_id command;
       pi_wallet_id := Some wallet_id; pi_policy_id := Some policy_id; pi_price_id := None;
       pi_direction := Outbound; pi_protocol := ch_protocol c; pi_asset := ch_asset c;
       pi_recipient := ch_recipient c; pi_amount := ch_amount c; pi_settled_amount := Amount.ZERO;
       pi_resource := ch_resource c; pi_challenge_hash := Some (ch_challenge_hash c); pi_request_hash := hash;
       pi_status := status; pi_reservation_status := reservation_status; pi_reserved_amount := reserved_amount;
       pi_tx_hash := None; pi_settlement_ref := None; pi_next_reconcile_at := None; pi_created_at := now;
       pi_updated_at := now; pi_expires_at := Some (ch_expires_at c); pi_settled_at := None |} in
  map_err (fun field => InvalidRequest ("invalid payment intent field: " ++ field)) (PaymentIntent_validate intent) ;?
  Ok (intent, action).

(** [payment_event] *)
Definition payment_event (id : string) (intent : PaymentIntent) (t : PaymentEventType) (payload : json) (now : Z)
  : PaymentEvent :=
  {| ev_id := id; ev_intent_id := pi_id intent; ev_event_type := t; ev_attempt_no := 0; ev_signature_ref := None;
     ev_tx_hash := None; ev_payload := payload; ev_created_at := now |}.

(** [build_approval_request] *)
Definition build_approval_request (ids : FreshIds) (access : AccessContext) (command : AuthorizePayment)
    (intent : PaymentIntent) (hash : string) (approval_ttl_seconds now : Z) : ApprovalRequest :=
  {| ap_id := id_approval ids; ap_intent_id := pi_id intent; ap_run_id := pi_run_id intent;
     ap_requested_amount := pi_amount intent; ap_approved_amount := None; ap_requested_by := ax_principal access;
     ap_approved_by := None; ap_status := ApPending; ap_intent_hash := hash; ap_grant_jti := None;
     ap_grant_claims_hash := None; ap_sealed_grant_token := None;
     ap_expires_at := Z.min (ch_expires_at (cmd_challenge command)) (i64_saturating_add now approval_ttl_seconds);
     ap_consumed_at := None; ap_created_at := now; ap_approved_at := None |}.

(** [approval_required_message] *)
Definition approval_required_message (ids : FreshIds) (access : AccessContext) (command : AuthorizePayment)
    (intent : PaymentIntent) (approval : ApprovalRequest) (now : Z) : OutboxMessage :=
  {| ob_id := id_outbox ids; ob_aggregate_type := "payment_intent"; ob_aggregate_id := pi_id intent;
     ob_event_type := "approval_required"; ob_destination := "client:" ++ cl_id (ax_client access) ++ ".approvals";
     ob_run_id := pi_run_id intent;
     ob_payload := jobject [("approval_id", JString (ap_id approval)); ("intent_id", JString (pi_id intent));
                            ("scenario_id", JString (cmd_scenario_id command));
                            ("run_id", JString (pi_run_id intent));
                            ("amount", JString (Amount.to_string (ap_requested_amount approval)));
                            ("expires_at", JNumber (ap_expires_at approval))];
     ob_status := ObPending; ob_attempt_count := 0; ob_available_at := now; ob_lease_owner := None;
     ob_lease_expires_at := None; ob_last_error := None; ob_created_at := now; ob_delivered_at := None |}.

Record AuthorizationArtifacts : Type := {
  aa_approval : option ApprovalRequest;
  aa_events : list PaymentEvent;
  aa_outbox : list OutboxMessage
}.

(** [build_authorization_artifacts] *)
Definition build_authorization_artifacts (ids : FreshIds) (access : AccessContext) (command : AuthorizePayment)
    (intent : PaymentIntent) (decision : PolicyDecision) (hash : string) (approval_ttl_seconds now : Z)
  : AuthorizationArtifacts :=
  let c := cmd_challenge command in
  let received := payment_event (id_received_event ids) intent EvChallengeReceived
                    (jobject [("challenge_hash", JString (ch_challenge_hash c)); ("challenge", challenge_to_json c)])
                    now in
  match decision with
  | RequiresApproval =>
      let request := build_approval_request ids access command intent hash approval_ttl_seconds now in
      {| aa_approval := Some request;
         aa_events := [received;
                       payment_event (id_outcome_event ids) intent EvApprovalRequested
                         (jobject [("approval_id", JString (ap_id request));
                                   ("amount", JString (Amount.to_string (ap_requested_amount request)))]) now];
         aa_outbox := [approval_required_message ids access command intent request now] |}
  | Denied reason =>
      {| aa_approval := None;
         aa_events := [received; payment_event (id_outcome_event ids) intent EvFailed
                                   (jobject [("reason", JString reason)]) now];
         aa_outbox := [] |}
  | Allowed => {| aa_approval := None; aa_events := [received]; aa_outbox := [] |}
  end.

(** [authorization_result] *)
Definition authorization_result (record : AuthorizationRecord) : Result Error PaymentAuthorizationResult :=
  let i := ar_intent record in
  match pi_status i with
  | PendingApproval =>
      let? approval := ok_or (ar_approval record) (Storage "pending intent has no approval row") in
      Ok (ResRequiresApproval (pi_id i) (ap_id approval))
  | Failed | Expired => Ok (ResDenied (pi_id i) "payment authorization was denied or expired")
  | _ => Ok (ResAuthorized (pi_id i) (pi_reserved_amount i))
  end.

(** ** Protocol registry *)

Record ProtocolSigningRequest : Type := {
  pr_digest : string;
  pr_payload : json
}.

Record ProtocolValidation : Type := {
  pv_payer : option string;
  pv_requires_external_settlement : bool
}.
Record ProtocolSettlement : Type := {
  pt_protocol : string;
  pt_payment_payload : json;
  pt_payment_requirements : json
}.
Record ProtocolMerchantEvidence : Type := {
  me_accepted : bool;
  me_transaction : option string;
  me_network : option string;
  me_payer : option string
}.

Record ProtocolHttpCredential : Type := {
  hc_header_name : string;
  hc_header_value : string
}.

(** What the payment services call of a [PaymentProtocol] adapter.  The headers
    of a response are the entries of a [BTreeMap], in key order. *)
Record PaymentProtocolAdapter : Type := {
  adapter_name : string;
  decode_http_challenge : string -> list (string * string) -> string -> Result Error (option json);
  encode_http_credential : PaymentCredential -> Result Error ProtocolHttpCredential;
  parse_challenge : string -> string -> json -> Z -> option Z -> Result Error PaymentChallenge;
  merchant_evidence_header : string;
  decode_merchant_evidence : string -> Result Error ProtocolMerchantEvidence;
  credential_payer : PaymentChallenge -> PaymentCredential -> Result Error string;
  validate_payment : PaymentChallenge -> PaymentIntent -> Result Error unit;
  prepare_signing : PaymentChallenge -> string -> Z -> Result Error ProtocolSigningRequest;
  complete_signing : PaymentChallenge -> ProtocolSigningRequest -> string -> Result Error PaymentCredential;
  build_challenge : PaymentPrice -> string -> Z -> Result Error PaymentChallenge;
  verify_credential : PaymentChallenge -> PaymentCredential -> Z -> Result Error ProtocolValidation;
  credential_fingerprint : PaymentChallenge -> PaymentCredential -> Result Error string;
  protocol_settlement : PaymentChallenge -> PaymentCredential -> Result Error ProtocolSettlement
}.

Record ProtocolRegistry : Type := {
  reg_adapters : gmap string PaymentProtocolAdapter;
  reg_priority : list string
}.

(** [ProtocolRegistry::get] *)
Definition registry_get (r : ProtocolRegistry) (protocol : string) : Result Error PaymentProtocolAdapter :=
  ok_or (reg_adapters r !! protocol) (PaymentProtocol ("unsupported payment protocol: " ++ protocol)).

(** [ProtocolRegistry::contains] *)
Definition registry_contains (r : ProtocolRegistry) (protocol : string) : bool := is_some (reg_adapters r !! protocol).

(** The loop of [ProtocolRegistry::resolve_http_challenge] over the priorities *)
Fixpoint resolve_by_priority (r : ProtocolRegistry) (priority : list string) (resource : string)
  (headers : list (string * string)) (body : string) : Result Error (PaymentProtocolAdapter * json) :=
  match priority with
  | [] => Err (PaymentProtocol "HTTP response contains no enabled payment challenge")
  | protocol :: rest =>
      let? adapter := registry_get r protocol in
      let? wire := decode_http_challenge adapter resource headers body in
      match wire with
      | Some wire => Ok (adapter, wire)
      | None => resolve_by_priority r rest resource headers body
      end
  end.
(** [ProtocolRegistry::resolve_http_challenge] *)
Definition resolve_http_challenge (r : ProtocolRegistry) (protocol_hint : option string) (resource : string)
  (headers : list (string * string)) (body : string) : Result Error (PaymentProtocolAdapter * json) :=
  match protocol_hint with
  | Some protocol =>
      reject_if (protocol != trim protocol) (PaymentProtocol "payment protocol hint is not canonical") ;?
      let? adapter := registry_get r protocol in
      let? wire := decode_http_challenge adapter resource headers body in
      let? wire := ok_or wire (PaymentProtocol ("HTTP response did not advertise " ++ protocol)) in
      Ok (adapter, wire)
  | None => resolve_by_priority r (reg_priority r) resource headers body
  end.

(** [PaymentProtocolFactory::build] *)
Definition registry_build (adapters : list PaymentProtocolAdapter) : Result Error ProtocolRegistry :=
  rfold (fun r adapter =>
           let name := adapter_name adapter in
           reject_if (is_some (reg_adapters r !! name))
                     (Config ("duplicate payment protocol adapter: " ++ name)) ;?
           Ok {| reg_adapters := <[name := adapter]> (reg_adapters r);
                 reg_priority := (reg_priority r ++ [name])%list |})
        {| reg_adapters := ∅; reg_priority := [] |} adapters.

(** ** The service *)

Record PaymentAuthorizer : Type := {
  pa_protocols : ProtocolRegistry;
  pa_approval_ttl_seconds : Z;
  pa_wallet_selection_strategy : WalletSelectionStrategy
}.

(** [PaymentAuthorizer::new] *)
Definition PaymentAuthorizer_new (protocols : ProtocolRegistry) (ttl : Z) (strategy : WalletSelectionStrategy)
  : Result Error PaymentAuthorizer :=
  reject_if (ttl <=? 0)%Z (Config "approval TTL must be positive") ;?
  Ok {| pa_protocols := protocols; pa_approval_ttl_seconds := ttl; pa_wallet_selection_strategy := strategy |}.

Section Service.
Context `{SolanaPubkey, UrlParser, Sha256, JsonText}.

(** [validate_command] *)
Definition validate_command (command : AuthorizePayment) : Result Error unit :=
  let c := cmd_challenge command in
  validate_identifier "scenario_id" (cmd_scenario_id command) ;?
  validate_identifier "run_id" (cmd_run_id command) ;?
  reject_if ((ch_scenario_id c != cmd_scenario_id command) || is_some (ch_price_id c))
            (InvalidRequest "outbound challenge scenario binding is invalid") ;?
  let? canonical := map_err (fun _ => InvalidRequest "payment recipient is invalid for its network")
                            (canonicalize_payment_recipient (as_network (ch_asset c)) (ch_recipient c)) in
  reject_if (canonical != ch_recipient c) (InvalidRequest "payment recipient must use its canonical network form").

(** [replay_result] *)
Definition replay_result (command : AuthorizePayment) (hash : string) : Prog DB (option PaymentAuthorizationResult) :=
  let& existing := find_run (cmd_scenario_id command) (cmd_run_id command) in
  match existing with
  | None => gret None
  | Some r =>
      glift (reject_if (pi_request_hash (ar_intent r) != hash)
                       (PaymentConflict "run_id was reused for different payment content")) ;&
      glift (let? result := authorization_result r in Ok (Some result))
  end.

(** The guard and the write of a selected candidate. *)
Definition authorization_guard (access : AccessContext) (selected : PolicyWalletCandidate) (now : Z)
  : AuthorizationGuard :=
  {| g_principal := ax_principal access; g_client := ax_client access; g_scenario := ax_scenario access;
     g_policy := cd_policy selected; g_expected_wallet_updated_at := bs_wallet_updated_at (cd_budget selected);
     g_expected_wallet_key_version := bs_wallet_active_key_version (cd_budget selected);
     g_origin := cd_origin selected; g_day_started_at := utc_day_start now; g_evaluated_at := now |}.
Definition authorization_write (svc : PaymentAuthorizer) (ids : FreshIds) (access : AccessContext)
    (command : AuthorizePayment) (selected : PolicyWalletCandidate) (hash : string)
    (intent : PaymentIntent) (action : AuthorizationAction) (now : Z) : AuthorizationWrite :=
  let artifacts := build_authorization_artifacts ids access command intent (cd_decision selected) hash
                     (pa_approval_ttl_seconds svc) now in
  {| aw_intent := intent; aw_approval := aa_approval artifacts; aw_action := action;
     aw_guard := authorization_guard access selected now; aw_events := aa_events artifacts;
     aw_outbox := aa_outbox artifacts |}.

(** [PaymentAuthorizer::authorize] *)
Definition authorize_payment (svc : PaymentAuthorizer) (ids : FreshIds) (principal : string)
    (command : AuthorizePayment) (now : Z) : Prog DB PaymentAuthorizationResult :=
  glift (validate_command command) ;&
  let& access := scenario_authorize principal (cmd_scenario_id command) in
  let& hash := glift (request_hash command) in
  let& replay := replay_result command hash in
  match replay with
  | Some result => gret result
  | None =>
      let& selected := policy_decision (pa_wallet_selection_strategy svc) command hash now in
      let& built := glift (build_payment_intent ids command (po_id (cd_policy selected)) (cd_wallet_id selected)
                             hash (cd_decision selected) now) in
      let& adapter := glift (registry_get (pa_protocols svc) (pi_protocol (fst built))) in
      glift (validate_payment adapter (cmd_challenge command) (fst built)) ;&
      let& written := await (authorize (authorization_write svc ids access command selected hash
                                          (fst built) (snd built) now)) in
      let record := match written with Inserted r | Replayed r => r end in
      glift (reject_if (pi_request_hash (ar_intent record) != pi_request_hash (fst built))
                       (PaymentConflict "run_id was reused for different payment content")) ;&
      glift (authorization_result record)
  end.
End Service.
