(* ===== verification/Samples.v ===== *)
(** * A concrete vault

    A small configured database (one client, scenario, policy, wallet with an
    active key, and price) and requests against it, on which the theorems'
    hypotheses are evaluated. *)

From S2P Require Import Prelude Text Money Json Wallet Intent Policy Ledger Records Store LedgerStore PaymentRules Budget PaymentStore.

#[local] Open Scope string_scope.
#[local] Open Scope vault_scope.

Module Sample.
#[export] Instance codec : SolanaPubkey := SampleSolana.codec.

(** A parser for the sample's resources: scheme, host and origin of an
    [https] URL. *)
Fixpoint host_of (s : string) : string :=
  match s with
  | EmptyString => ""
  | String c rest => if (c == "/"%char) then "" else String c (host_of rest)
  end.
Definition parse (s : string) : option Url :=
  match strip_prefix "https://" s with
  | Some rest => Some {| url_scheme := "https"; url_host_str := Some (host_of rest); url_username := "";
                         url_password := None; url_fragment := None;
                         url_origin_ascii := "https://" ++ host_of rest |}
  | None => None
  end.
Definition parser : UrlParser := {| url_parse := parse |}.

Definition client : PaymentClient :=
  {| cl_id := "client-1"; cl_name := "shop"; cl_auth_principal := "principal-1"; cl_enabled := true;
     cl_created_at := 1600000000; cl_updated_at := 1600000000 |}.
Definition scenario : PaymentScenario :=
  {| sc_id := "scenario-1"; sc_client_id := "client-1"; sc_name := "feed"; sc_enabled := true;
     sc_created_at := 1600000000; sc_updated_at := 1600000000 |}.
Definition limits : PaymentPolicyLimits :=
  {| pl_max_per_payment := 300000; pl_max_per_day := 500000; pl_approval_threshold := Some 280000%N;
     pl_approval_enabled := true; pl_approval_overage := Some 100000%N |}.
Definition policy : PaymentPolicy :=
  {| po_id := "policy-1"; po_scenario_id := "scenario-1"; po_wallet_ids := ["wallet-1"];
     po_protocols := ["x402"]; po_networks := ["eip155:8453"]; po_assets := [sample_asset];
     po_budget_unit := budget_unit sample_asset;
     po_allowed_recipients := ["0xabcdef0123456789abcdef0123456789abcdef01"];
     po_allowed_origins := ["https://api.example"];
     po_inbound_limits := Some limits; po_outbound_limits := Some limits; po_enabled := true;
     po_created_at := 1600000000; po_updated_at := 1600000000 |}.
Definition key : EncryptedWalletKeyVersion :=
  {| k_wallet_id := "wallet-1"; k_version := 1; k_algorithm := "secp256k1";
     k_address := "0xabcdef0123456789abcdef0123456789abcdef01"; k_public_key := "04ab";
     k_encryption_scheme := "aes-256-gcm-uuid-v4-nonce-envelope-v1"; k_kek_id := "kek-1";
     k_wrapped_data_key := "w"; k_wrap_nonce := "0123456789abcdef"; k_key_ciphertext := "c";
     k_key_nonce := "0123456789abcdef"; k_aad := "a"; k_status := KeyActive; k_activated_at := 1600000000;
     k_retired_at := None; k_created_at := 1600000000 |}.
Definition price : PaymentPrice :=
  {| pr_id := "price-1"; pr_scenario_id := "scenario-1"; pr_policy_id := "policy-1";
     pr_resource := "https://api.example/feed"; pr_protocols := ["x402"]; pr_asset := sample_asset;
     pr_amount := 250000; pr_wallet_id := "wallet-1"; pr_enabled := true; pr_created_at := 1600000000;
     pr_updated_at := 1600000000 |}.
Definition wallet : PaymentWallet := with_active_key_version sample_wallet (Some 1%N).

Definition db : DB :=
  {| t_client := {["client-1" := client]}; t_scenario := {["scenario-1" := scenario]}; t_approver := ∅;
     t_wallet := {["wallet-1" := sample_wallet]}; t_key := {[("wallet-1", 1%N) := key]};
     t_policy := {["policy-1" := policy]}; t_price := {["price-1" := price]}; t_intent := ∅; t_event := ∅;
     t_approval := ∅; t_ledger := ∅; t_outbox := ∅ |}.

Definition day : Z := 1699920000.
Definition now : Z := 1700000000.

(** An outbound intent for the sample challenge. *)
Definition outbound (id run : string) (amount : N) (status : PaymentStatus) (reservation : ReservationStatus)
    (reserved : N) (updated : Z) : PaymentIntent :=
  {| pi_id := id; pi_scenario_id := "scenario-1"; pi_run_id := run; pi_wallet_id := Some "wallet-1";
     pi_policy_id := Some "policy-1"; pi_price_id := None; pi_direction := Outbound; pi_protocol := "x402";
     pi_asset := sample_asset; pi_recipient := "0xabcdef0123456789abcdef0123456789abcdef01";
     pi_amount := amount; pi_settled_amount := 0; pi_resource := "https://api.example/feed";
     pi_challenge_hash := Some "challenge-1"; pi_request_hash := "request-1"; pi_status := status;
     pi_reservation_status := reservation; pi_reserved_amount := reserved; pi_tx_hash := None;
     pi_settlement_ref := None; pi_next_reconcile_at := None; pi_created_at := 1700000000;
     pi_updated_at := updated; pi_expires_at := Some 1700000600%Z; pi_settled_at := None |}.

Definition challenge (amount : N) : PaymentChallenge :=
  {| ch_scenario_id := "scenario-1"; ch_price_id := None; ch_resource := "https://api.example/feed";
     ch_protocol := "x402"; ch_asset := sample_asset; ch_amount := amount;
     ch_recipient := "0xABCDEF0123456789abcdef0123456789abcdef01"; ch_nonce := "n-1";
     ch_challenge_hash := "challenge-1"; ch_expires_at := 1700000600;
     ch_payload := jobject [("scheme", JString "exact")] |}.

Definition event (id intent_id : string) (t : PaymentEventType) (payload : json) (at_ : Z) : PaymentEvent :=
  {| ev_id := id; ev_intent_id := intent_id; ev_event_type := t; ev_attempt_no := 0; ev_signature_ref := None;
     ev_tx_hash := None; ev_payload := payload; ev_created_at := at_ |}.

Definition received (id intent_id : string) (amount : N) : PaymentEvent :=
  event id intent_id EvChallengeReceived
    (jobject [("challenge", challenge_to_json (challenge amount)); ("challenge_hash", JString "challenge-1")]) now.

Definition message (id intent_id run kind : string) : OutboxMessage :=
  {| ob_id := id; ob_aggregate_type := "payment_intent"; ob_aggregate_id := intent_id; ob_event_type := kind;
     ob_destination := "scenario:scenario-1.payments"; ob_run_id := run; ob_payload := jobject [];
     ob_status := ObPending; ob_attempt_count := 0; ob_available_at := now; ob_lease_owner := None;
     ob_lease_expires_at := None; ob_last_error := None; ob_created_at := now; ob_delivered_at := None |}.

Definition guard : AuthorizationGuard :=
  {| g_principal := "principal-1"; g_client := client; g_scenario := scenario; g_policy := policy;
     g_expected_wallet_updated_at := 1600000000; g_expected_wallet_key_version := Some 1%N;
     g_origin := "https://api.example"; g_day_started_at := day; g_evaluated_at := now |}.

Definition intent : PaymentIntent := outbound "intent-1" "run-1" 250000 Authorized Reserved 250000 now.
Definition reserve : AuthorizationWrite :=
  {| aw_intent := intent; aw_approval := None; aw_action := Reserve; aw_guard := guard;
     aw_events := [received "event-1" "intent-1" 250000];
     aw_outbox := [message "out-1" "intent-1" "run-1" "payment_authorized"] |}.
Definition record : AuthorizationRecord := {| ar_intent := intent; ar_approval := None |}.
Definition reserved_db : DB := state_of (authorize reserve db).

(** A payment above the approval threshold. *)
Definition pending : PaymentIntent := outbound "intent-2" "run-2" 290000 PendingApproval Unreserved 0 now.
Definition approval : ApprovalRequest :=
  {| ap_id := "approval-1"; ap_intent_id := "intent-2"; ap_run_id := "run-2"; ap_requested_amount := 290000;
     ap_approved_amount := None; ap_requested_by := "principal-1"; ap_approved_by := None;
     ap_status := ApPending; ap_intent_hash := "request-1"; ap_grant_jti := None; ap_grant_claims_hash := None;
     ap_sealed_grant_token := None; ap_expires_at := 1700000600; ap_consumed_at := None;
     ap_created_at := now; ap_approved_at := None |}.
Definition request_approval : AuthorizationWrite :=
  {| aw_intent := pending; aw_approval := Some approval; aw_action := RequestApproval; aw_guard := guard;
     aw_events := [received "event-2" "intent-2" 290000]; aw_outbox := [] |}.
Definition pending_db : DB := state_of (authorize request_approval db).

(** An inbound challenge. *)
Definition inbound : PaymentIntent :=
  {| pi_id := "intent-3"; pi_scenario_id := "scenario-1"; pi_run_id := "run-3"; pi_wallet_id := Some "wallet-1";
     pi_policy_id := Some "policy-1"; pi_price_id := Some "price-1"; pi_direction := Inbound;
     pi_protocol := "x402"; pi_asset := sample_asset;
     pi_recipient := "0xabcdef0123456789abcdef0123456789abcdef01"; pi_amount := 250000; pi_settled_amount := 0;
     pi_resource := "https://api.example/feed"; pi_challenge_hash := Some "challenge-3";
     pi_request_hash := "request-3"; pi_status := Created; pi_reservation_status := Reserved;
     pi_reserved_amount := 250000; pi_tx_hash := None; pi_settlement_ref := None; pi_next_reconcile_at := None;
     pi_created_at := now; pi_updated_at := now; pi_expires_at := Some 1700000600%Z; pi_settled_at := None |}.
Definition inbound_challenge : PaymentChallenge :=
  {| ch_scenario_id := "scenario-1"; ch_price_id := Some "price-1"; ch_resource := "https://api.example/feed";
     ch_protocol := "x402"; ch_asset := sample_asset; ch_amount := 250000;
     ch_recipient := "0xabcdef0123456789abcdef0123456789abcdef01"; ch_nonce := "n-3";
     ch_challenge_hash := "challenge-3"; ch_expires_at := 1700000600; ch_payload := jobject [] |}.
Definition issue : ChallengeWrite :=
  {| cw_intent := inbound; cw_challenge := inbound_challenge;
     cw_guard := {| cg_principal := "principal-1"; cg_client := client; cg_scenario := scenario;
                    cg_price := price; cg_policy := policy; cg_wallet := wallet;
                    cg_origin := "https://api.example"; cg_day_started_at := day; cg_evaluated_at := now |};
     cw_events := [event "event-3" "intent-3" EvChallengeCreated
                     (jobject [("challenge", challenge_to_json inbound_challenge)]) now];
     cw_outbox := [] |}.
Definition issued_db : DB := state_of (record_challenge issue db).

(** The reserved payment loses contact with its provider. *)
Definition with_status (i : PaymentIntent) (status : PaymentStatus) (reservation : ReservationStatus)
    (settled : N) (settled_at next : option Z) (updated : Z) : PaymentIntent :=
  {| pi_id := pi_id i; pi_scenario_id := pi_scenario_id i; pi_run_id := pi_run_id i;
     pi_wallet_id := pi_wallet_id i; pi_policy_id := pi_policy_id i; pi_price_id := pi_price_id i;
     pi_direction := pi_direction i; pi_protocol := pi_protocol i; pi_asset := pi_asset i;
     pi_recipient := pi_recipient i; pi_amount := pi_amount i; pi_settled_amount := settled;
     pi_resource := pi_resource i; pi_challenge_hash := pi_challenge_hash i;
     pi_request_hash := pi_request_hash i; pi_status := status; pi_reservation_status := reservation;
     pi_reserved_amount := pi_reserved_amount i; pi_tx_hash := pi_tx_hash i;
     pi_settlement_ref := pi_settlement_ref i; pi_next_reconcile_at := next; pi_created_at := pi_created_at i;
     pi_updated_at := updated; pi_expires_at := pi_expires_at i; pi_settled_at := settled_at |}.
Definition unknown : PaymentIntent :=
  with_status intent Unknown Reserved 0 None (Some 1700000100%Z) 1700000010.
Definition lose : PaymentProgressWrite :=
  {| pgw_intent := unknown; pgw_expected_updated_at := now;
     pgw_events := [event "event-4" "intent-1" EvRetried (jobject []) 1700000010]; pgw_outbox := [] |}.
Definition unknown_db : DB := state_of (commit_progress lose reserved_db).

(** A merchant hint for it. *)
Definition evidence_hash : string := "aaaaaaaaaaaaaaaaaaaaaaaaaaaaaaaaaaaaaaaaaaaaaaaaaaaaaaaaaaaaaaaa".
Definition hinted : PaymentIntent :=
  with_status intent PendingSettlement Reserved 0 None (Some 1700000200%Z) 1700000020.
Definition hint : OutboundEvidenceWrite :=
  {| ow_intent := hinted; ow_expected_updated_at := 1700000010; ow_evidence_hash := evidence_hash;
     ow_event := event "event-5" "intent-1" EvSubmitted
       (jobject [("evidence_hash", JString evidence_hash);
                 ("merchant_response",
                  jobject [("success", JBool true); ("protocol", JString "x402");
                           ("transaction", JString "0x01"); ("network", JString "eip155:8453");
                           ("payer", JString "0x02")])]) 1700000020;
     ow_outbox := [] |}.
Definition hinted_db : DB := state_of (record_outbound_evidence hint unknown_db).

(** Its settlement. *)
Definition settled : PaymentIntent :=
  with_status intent Settled Consumed 250000 (Some 1700000030%Z) None 1700000030.
Definition fact : PaymentLedgerEntry :=
  {| le_id := "fact-1"; le_intent_id := Some "intent-1"; le_scenario_id := Some "scenario-1";
     le_wallet_id := "wallet-1"; le_entry_type := LPayment; le_direction := Outbound; le_asset := sample_asset;
     le_amount := 250000; le_posting_key := "chain:1"; le_tx_hash := Some "0x01"; le_settlement_ref := None;
     le_effect_ref := None; le_transfer_ref := None; le_reversal_of := None; le_effective_at := 1700000025;
     le_created_at := 1700000030 |}.
Definition settle : SettlementWrite :=
  {| sw_intent := settled; sw_expected_updated_at := 1700000010;
     sw_events := [event "event-6" "intent-1" EvSettled (jobject []) 1700000030];
     sw_ledger_entries := [fact]; sw_outbox := [] |}.
Definition settled_db : DB := state_of (commit_settlement settle unknown_db).

(** Verification of the inbound challenge. *)
Definition credential : PaymentCredential :=
  {| cr_protocol := "x402"; cr_challenge_hash := "challenge-3"; cr_credential_hash := "credential-1";
     cr_payload := jobject [] |}.
Definition submitted : PaymentIntent :=
  with_status inbound Submitted Reserved 0 None (Some 1700000100%Z) 1700000010.
Definition verify : VerificationWrite :=
  {| vw_intent := submitted; vw_credential := credential; vw_expected_updated_at := now;
     vw_events := [event "event-7" "intent-3" EvCredentialVerified (jobject []) 1700000010]; vw_outbox := [] |}.
Definition verified_db : DB := state_of (verify_incoming verify issued_db).

(** Workers that reconcile. *)
Definition lease (owner : string) (at_ until : Z) : ReconciliationLeaseRequest :=
  {| rl_owner := owner; rl_now := at_; rl_lease_until := until; rl_limit := 10 |}.
Definition claim : ReconciliationClaim := {| rc_intent := unknown; rc_attempt_no := 1 |}.
Definition leased_db : DB := state_of (claim_reconciliation (lease "worker-a" 1700000100 1700000160) unknown_db).
End Sample.

(** A database whose transaction tables are empty satisfies the constraints. *)
Lemma db_ok_no_payments d :
  t_intent d = ∅ -> t_event d = ∅ -> t_approval d = ∅ -> t_ledger d = ∅ -> t_outbox d = ∅ -> db_ok d.
Proof.
  intros Hi He Ha Hl Ho. split; rewrite ?Hi, ?He, ?Ha, ?Hl, ?Ho; try (split; unfold keyed; intros; simplify_map_eq).
  - intros k a Hk. rewrite Ha in Hk. simplify_map_eq.
  - intros k e Hk. rewrite He in Hk. simplify_map_eq.
Qed.

Lemma sample_db_ok : db_ok Sample.db.
Proof. by apply db_ok_no_payments. Qed.

#[local] Existing Instance Sample.codec.

Lemma sample_reserved : authorize Sample.reserve Sample.db = Ok (Inserted Sample.record, Sample.reserved_db).
Proof. vm_compute. reflexivity. Qed.
Lemma sample_pending :
  authorize Sample.request_approval Sample.db
  = Ok (Inserted {| ar_intent := Sample.pending; ar_approval := Some Sample.approval |}, Sample.pending_db).
Proof. vm_compute. reflexivity. Qed.
Lemma sample_issued : record_challenge Sample.issue Sample.db = Ok (Inserted Sample.inbound, Sample.issued_db).
Proof. vm_compute. reflexivity. Qed.
Lemma sample_unknown : commit_progress Sample.lose Sample.reserved_db = Ok (Sample.unknown, Sample.unknown_db).
Proof. vm_compute. reflexivity. Qed.
Lemma sample_hinted :
  record_outbound_evidence Sample.hint Sample.unknown_db = Ok (Inserted Sample.hinted, Sample.hinted_db).
Proof. vm_compute. reflexivity. Qed.
Lemma sample_settled : commit_settlement Sample.settle Sample.unknown_db = Ok (Sample.settled, Sample.settled_db).
Proof. vm_compute. reflexivity. Qed.
Lemma sample_verified : verify_incoming Sample.verify Sample.issued_db = Ok (Sample.submitted, Sample.verified_db).
Proof. vm_compute. reflexivity. Qed.
Lemma sample_leased :
  claim_reconciliation (Sample.lease "worker-a" 1700000100 1700000160) Sample.unknown_db
  = Ok ([Sample.claim], Sample.leased_db).
Proof. vm_compute. reflexivity. Qed.
