(* ===== verification/IntentFlow.v ===== *)
(** * How transactions change an intent

    The effect of every payment transaction of [PaymentStore] on the tables:
    which row is written, how the row may differ from the one it replaces, and
    that the table constraints are kept. *)

From S2P Require Import Prelude Text Money Json Wallet Intent Policy Ledger Records Store LedgerStore PaymentRules Budget PaymentStore Samples.

#[local] Open Scope string_scope.
#[local] Open Scope vault_scope.

(** ** Rows evolve *)

(** The reservations reachable from a reservation: none, then held, then
    either consumed or released. *)
Definition reservation_le (a b : ReservationStatus) : bool :=
  match a, b with
  | Unreserved, _ => true
  | Reserved, (Reserved | Consumed | Released) => true
  | Consumed, Consumed => true
  | Released, Released => true
  | _, _ => false
  end.

Record row_evolves (r r' : IntentRow) : Prop := {
  re_identity : same_immutable_identity_as (ir_intent r) (ir_intent r') = true;
  re_final : is_final (pi_status (ir_intent r)) = true -> pi_status (ir_intent r') = pi_status (ir_intent r);
  re_rank : (status_rank (pi_status (ir_intent r')) <= status_rank (pi_status (ir_intent r)))%nat;
  re_settled : (pi_settled_amount (ir_intent r) <= pi_settled_amount (ir_intent r'))%N;
  re_updated : (pi_updated_at (ir_intent r) <= pi_updated_at (ir_intent r'))%Z;
  re_reservation : reservation_le (pi_reservation_status (ir_intent r)) (pi_reservation_status (ir_intent r')) = true;
  re_credential : ir_credential_hash r <> None -> ir_credential_hash r' = ir_credential_hash r
}.

Lemma same_immutable_identity_iff a b :
  same_immutable_identity_as a b = true <->
  pi_id a = pi_id b /\ pi_scenario_id a = pi_scenario_id b /\ pi_run_id a = pi_run_id b
  /\ pi_wallet_id a = pi_wallet_id b /\ pi_policy_id a = pi_policy_id b /\ pi_price_id a = pi_price_id b
  /\ pi_direction a = pi_direction b /\ pi_protocol a = pi_protocol b /\ pi_asset a = pi_asset b
  /\ pi_recipient a = pi_recipient b /\ pi_amount a = pi_amount b /\ pi_resource a = pi_resource b
  /\ pi_challenge_hash a = pi_challenge_hash b /\ pi_request_hash a = pi_request_hash b
  /\ pi_created_at a = pi_created_at b /\ pi_expires_at a = pi_expires_at b.
Proof.
  split; [apply same_immutable_identity_spec|].
  intros Heq. unfold same_immutable_identity_as. repeat (destruct Heq as [? Heq]).
  rewrite !bool_decide_true by done. done.
Qed.

#[export] Instance same_immutable_identity_trans : Transitive (fun a b => same_immutable_identity_as a b = true).
Proof. intros a b c. rewrite !same_immutable_identity_iff. intros Hab Hbc. intuition congruence. Qed.

#[export] Instance row_evolves_refl : Reflexive row_evolves.
Proof.
  intros r. split; try done; try lia; [apply same_immutable_identity_refl|].
  by destruct (pi_reservation_status (ir_intent r)).
Qed.

#[export] Instance row_evolves_trans : Transitive row_evolves.
Proof.
  intros a b c [Hi1 Hf1 Hr1 Hs1 Hu1 Hv1 Hc1] [Hi2 Hf2 Hr2 Hs2 Hu2 Hv2 Hc2]. split; try lia.
  - by eapply same_immutable_identity_trans.
  - intros Hfin. rewrite Hf2; [by apply Hf1|]. by rewrite Hf1.
  - destruct (pi_reservation_status (ir_intent a)), (pi_reservation_status (ir_intent b)),
      (pi_reservation_status (ir_intent c)); done.
  - intros Hne. rewrite Hc2; [by apply Hc1|]. by rewrite Hc1.
Qed.

(** Every row is kept, in an evolved form. *)
Definition intents_evolve (m m' : gmap string IntentRow) : Prop :=
  forall k r, m !! k = Some r -> exists r', m' !! k = Some r' /\ row_evolves r r'.

#[export] Instance intents_evolve_refl : Reflexive intents_evolve.
Proof. intros m k r Hk. by exists r. Qed.
#[export] Instance intents_evolve_trans : Transitive intents_evolve.
Proof.
  intros a b c Hab Hbc k r Hk. destruct (Hab k r Hk) as (r1 & H1 & E1).
  destruct (Hbc k r1 H1) as (r2 & H2 & E2). exists r2. split; [done|]. by etrans.
Qed.

Lemma intents_evolve_insert m k r :
  (forall old, m !! k = Some old -> row_evolves old r) -> intents_evolve m (<[k := r]> m).
Proof.
  intros Hev k' r' Hk'. destruct (decide (k = k')) as [<-|Hne].
  - exists r. rewrite lookup_insert_eq. eauto.
  - exists r'. rewrite lookup_insert_ne by done. done.
Qed.

(** ** The two writes *)

Lemma update_columns_intent i r :
  same_immutable_identity_as (ir_intent r) i = true -> ir_intent (update_columns i r) = i.
Proof.
  rewrite same_immutable_identity_iff. intros Heq. unfold update_columns. simpl.
  destruct Heq as (-> & -> & -> & -> & -> & -> & -> & -> & -> & -> & -> & -> & -> & -> & -> & ->).
  by destruct i.
Qed.

Lemma update_intent_ok i expected m d u d' :
  update_intent i expected m d = Ok (u, d') ->
  exists r, t_intent d !! pi_id i = Some r /\ pi_updated_at (ir_intent r) = expected
    /\ (expected < pi_updated_at i)%Z /\ same_immutable_identity_as (ir_intent r) i = true
    /\ (pi_settled_amount (ir_intent r) <= pi_settled_amount i)%N
    /\ allowed_status_transition (pi_status (ir_intent r)) (pi_status i) = true
    /\ check_reservation m (ir_intent r) i = Ok tt
    /\ intent_checks (update_columns i r) = true /\ intent_unique d (update_columns i r) = true
    /\ d' = set_intent <[pi_id i := update_columns i r]> d.
Proof.
  unfold update_intent, load_intent. intros Hup. run_inv.
  match goal with Hl : load_or _ _ _ = Ok _ |- _ => apply load_or_ok in Hl end. run_inv.
  match goal with Hs : sql_update_intent _ _ _ _ _ = Ok _ |- _ => apply sql_update_intent_ok in Hs end.
  match goal with He : expect_one _ _ _ = Ok _ |- _ => apply expect_one_ok in He as [-> ->] end.
  match goal with Hs : _ \/ _ |- _ => destruct Hs as [[? ?]|(r & _ & Hr & Hg & Hc & Hu & ->)]; [done|] end.
  match goal with Hs : Some _ = ir_intent <$> _ |- _ => rewrite Hr in Hs; simpl in Hs; simplify_eq end.
  bool_inv. exists r. split_and!; try done.
  by match goal with Hc2 : check_reservation _ _ _ = Ok ?t |- _ => destruct t end.
Qed.

Lemma check_reservation_le m existing i :
  check_reservation m existing i = Ok tt ->
  reservation_le (pi_reservation_status existing) (pi_reservation_status i) = true.
Proof.
  destruct m; simpl; intros Hc; run_inv; bool_inv.
  - match goal with Heq : pi_reservation_status i = _ |- _ => rewrite Heq end.
    by destruct (pi_reservation_status existing).
  - by repeat match goal with Heq : pi_reservation_status _ = _ |- _ => rewrite Heq end.
  - by destruct (pi_reservation_status existing), (pi_reservation_status i).
  - by repeat match goal with Heq : pi_reservation_status _ = _ |- _ => rewrite Heq end.
Qed.

Lemma update_columns_evolves i r :
  (pi_updated_at (ir_intent r) < pi_updated_at i)%Z -> same_immutable_identity_as (ir_intent r) i = true ->
  (pi_settled_amount (ir_intent r) <= pi_settled_amount i)%N ->
  allowed_status_transition (pi_status (ir_intent r)) (pi_status i) = true ->
  reservation_le (pi_reservation_status (ir_intent r)) (pi_reservation_status i) = true ->
  row_evolves r (update_columns i r).
Proof.
  intros Hu Hid Hs Ha Hr. pose proof (update_columns_intent _ _ Hid) as Heq.
  split; rewrite ?Heq; try done.
  - intros Hf. by apply final_status_absorbing.
  - by apply status_rank_progress.
  - lia.
Qed.

(** ** Approvals evolve *)

(** Decided approvals stay decided and used or expired ones stay so. *)
Definition approval_status_le (a b : ApprovalStatus) : bool :=
  match a, b with
  | ApPending, _ => true
  | ApApproved, (ApApproved | ApConsumed | ApExpired) => true
  | ApRejected, ApRejected => true
  | ApExpired, ApExpired => true
  | ApConsumed, ApConsumed => true
  | _, _ => false
  end.

Record approval_evolves (a a' : ApprovalRequest) : Prop := {
  ae_identity : ap_id a' = ap_id a /\ ap_intent_id a' = ap_intent_id a /\ ap_run_id a' = ap_run_id a
                /\ ap_requested_amount a' = ap_requested_amount a /\ ap_intent_hash a' = ap_intent_hash a
                /\ ap_requested_by a' = ap_requested_by a /\ ap_created_at a' = ap_created_at a;
  ae_status : approval_status_le (ap_status a) (ap_status a') = true;
  ae_expiry : (ap_expires_at a' <= ap_expires_at a)%Z;
  ae_grant : ap_status a <> ApPending ->
             ap_grant_jti a' = ap_grant_jti a /\ ap_grant_claims_hash a' = ap_grant_claims_hash a
             /\ ap_approved_amount a' = ap_approved_amount a /\ ap_approved_by a' = ap_approved_by a
             /\ ap_sealed_grant_token a' = ap_sealed_grant_token a /\ ap_approved_at a' = ap_approved_at a
             /\ ap_expires_at a' = ap_expires_at a;
  ae_fixed : ap_status a <> ApPending -> ap_status a' = ap_status a -> a' = a
}.

#[export] Instance approval_evolves_refl : Reflexive approval_evolves.
Proof. intros a. split; try done; try lia. by destruct (ap_status a). Qed.
#[export] Instance approval_evolves_trans : Transitive approval_evolves.
Proof.
  intros a b c [(?&?&?&?&?&?&?) Hs1 He1 Hg1 Hf1] [(?&?&?&?&?&?&?) Hs2 He2 Hg2 Hf2]. split; try lia.
  - split_and!; congruence.
  - destruct (ap_status a), (ap_status b), (ap_status c); done.
  - intros Hne. destruct (Hg1 Hne) as (?&?&?&?&?&?&?).
    assert (ap_status b <> ApPending) as Hb by (intros Hb; rewrite Hb in Hs1; by destruct (ap_status a)).
    destruct (Hg2 Hb) as (?&?&?&?&?&?&?). split_and!; congruence.
  - intros Hne Heq. assert (ap_status b = ap_status a) as Hba.
    { rewrite Heq in Hs2. destruct (ap_status a), (ap_status b); done. }
    rewrite (Hf2 ltac:(congruence) ltac:(congruence)). by apply Hf1.
Qed.

Definition approvals_evolve (m m' : gmap string ApprovalRequest) : Prop :=
  forall k a, m !! k = Some a -> exists a', m' !! k = Some a' /\ approval_evolves a a'.
#[export] Instance approvals_evolve_refl : Reflexive approvals_evolve.
Proof. intros m k a Hk. by exists a. Qed.
#[export] Instance approvals_evolve_trans : Transitive approvals_evolve.
Proof.
  intros x y z Hxy Hyz k a Hk. destruct (Hxy k a Hk) as (b & Hb & E1).
  destruct (Hyz k b Hb) as (c & Hc & E2). exists c. split; [done|]. by etrans.
Qed.
Lemma approvals_evolve_insert m k a :
  (forall old, m !! k = Some old -> approval_evolves old a) -> approvals_evolve m (<[k := a]> m).
Proof.
  intros Hev k' b Hk'. destruct (decide (k = k')) as [<-|Hne].
  - exists a. rewrite lookup_insert_eq. eauto.
  - exists b. rewrite lookup_insert_ne by done. done.
Qed.

(** Intents are new with an authority the catalog holds, or keep theirs. *)
Definition authority_kept (d d' : DB) : Prop :=
  forall k r', t_intent d' !! k = Some r' ->
    (exists r, t_intent d !! k = Some r /\ same_immutable_identity_as (ir_intent r) (ir_intent r') = true)
    \/ intent_foreign_keys d (ir_intent r') = true.

Lemma authority_kept_same d d' : t_intent d' = t_intent d -> authority_kept d d'.
Proof. intros Hi k r'. rewrite Hi. intros Hr. left. exists r'. split; [done|apply same_immutable_identity_refl]. Qed.

Lemma intent_foreign_keys_same d d' i :
  t_scenario d' = t_scenario d -> t_wallet d' = t_wallet d -> t_policy d' = t_policy d -> t_price d' = t_price d ->
  intent_foreign_keys d' i = intent_foreign_keys d i.
Proof. intros Hs Hw Hp Hr. unfold intent_foreign_keys. by rewrite Hs, Hw, Hp, Hr. Qed.

Lemma intent_foreign_keys_identity d i j :
  same_immutable_identity_as i j = true -> intent_foreign_keys d i = intent_foreign_keys d j.
Proof.
  intros (_ & Hs & _ & Hw & Hp & Hr & _)%same_immutable_identity_iff.
  unfold intent_foreign_keys. by rewrite Hs, Hw, Hp, Hr.
Qed.

(** A message that has left the queue stays as it is. *)
Definition outbox_evolves (t t' : gmap string OutboxMessage) : Prop :=
  forall k m, t !! k = Some m -> ob_status m <> ObPending -> t' !! k = Some m.
#[export] Instance outbox_evolves_refl : Reflexive outbox_evolves.
Proof. by intros t k m. Qed.
#[export] Instance outbox_evolves_trans : Transitive outbox_evolves.
Proof. intros a b c Hab Hbc k m Hk Hm. eauto. Qed.

(** What a transaction may do to the intent and constraint state. *)
Record flow (d d' : DB) : Prop := {
  fl_catalog : t_client d' = t_client d /\ t_scenario d' = t_scenario d /\ t_approver d' = t_approver d
               /\ t_wallet d' = t_wallet d /\ t_key d' = t_key d /\ t_policy d' = t_policy d
               /\ t_price d' = t_price d;
  fl_db : db_ok d -> db_ok d' /\ t_event d ⊆ t_event d' /\ t_ledger d ⊆ t_ledger d'
          /\ intents_evolve (t_intent d) (t_intent d') /\ approvals_evolve (t_approval d) (t_approval d');
  fl_authority : authority_kept d d';
  fl_outbox : db_ok d -> outbox_evolves (t_outbox d) (t_outbox d')
}.

#[export] Instance flow_refl : Reflexive flow.
Proof. intros d. split; [done|done|by apply authority_kept_same|done]. Qed.
#[export] Instance flow_trans : Transitive flow.
Proof.
  intros a b c [Hc1 Hd1 Hk1 Ho1] [Hc2 Hd2 Hk2 Ho2]. split.
  3: { intros k r3 H3. destruct (Hk2 _ _ H3) as [(r2 & H2 & E2)|Hfk].
       - destruct (Hk1 _ _ H2) as [(r1 & H1 & E1)|Hfk].
         + left. exists r1. split; [done|]. by eapply same_immutable_identity_trans.
         + right. by rewrite <- (intent_foreign_keys_identity _ _ _ E2).
       - right. rewrite <- (intent_foreign_keys_same a b); tauto. }
  - destruct Hc1 as (?&?&?&?&?&?&?), Hc2 as (?&?&?&?&?&?&?). split_and!; congruence.
  - intros (Hb & He1 & Hl1 & Hi1 & Ha1)%Hd1. destruct (Hd2 Hb) as (? & ? & ? & ? & ?).
    split_and!; [done|by etrans..].
  - intros Hdb. destruct (Hd1 Hdb) as [Hb _]. etrans; [by apply Ho1|by apply Ho2].
Qed.

Lemma flow_db_ok d d' : flow d d' -> db_ok d -> db_ok d'.
Proof. intros Hf Hd. by destruct (fl_db _ _ Hf Hd). Qed.

Lemma appended_flow d d' : appended d d' -> flow d d'.
Proof.
  intros [Hc Hi Ha Hl He Heb Ho]. split; [done| |by apply authority_kept_same|].
  2: { intros Hdb k m Hk _. by eapply lookup_weaken, Ho, Hdb. }
  intros [Di De Dl Da Do Dab Deb].
  destruct (He De), (Ho Do). rewrite Hi, Hl, Ha. split_and!; try done.
  split; rewrite ?Hi, ?Ha, ?Hl; try done; [|by apply Heb].
  unfold approvals_bound. by rewrite Ha, Hi.
Qed.

Lemma ledger_grown_flow d d' : ledger_grown d d' -> flow d d'.
Proof.
  intros [Hl Ho]. unfold only_ledger, set_ledger in Ho. rewrite Ho. split; [done| |by apply authority_kept_same|done].
  intros [Di De Dl Da Dob Dab Deb]. destruct (Hl Dl) as [Hl1 Hl2]. simpl. split_and!; try done.
Qed.

Lemma bound_evolve d m' :
  intents_evolve (t_intent d) m' ->
  (approvals_bound d -> approvals_bound (set_intent (fun _ => m') d))
  /\ (events_bound d -> events_bound (set_intent (fun _ => m') d)).
Proof.
  intros Hev. split.
  - intros Hb k a Hk. destruct (Hb k a Hk) as (r & Hr & Hrun & Hh).
    destruct (Hev _ _ Hr) as (r' & Hr' & E). exists r'. split; [done|].
    apply re_identity, same_immutable_identity_spec in E. intuition congruence.
  - intros Hb k e Hk. destruct (Hb k e Hk) as [r Hr]. destruct (Hev _ _ Hr) as (r' & Hr' & _). by exists r'.
Qed.

Lemma intent_write_flow d k r :
  (db_ok d -> k = pi_id (ir_intent r)) -> intent_checks r = true -> intent_unique d r = true ->
  (forall old, t_intent d !! k = Some old -> row_evolves old r) ->
  is_Some (t_intent d !! k) \/ intent_foreign_keys d (ir_intent r) = true ->
  flow d (set_intent <[k := r]> d).
Proof.
  intros Hk Hc Hu Hev Hfk. split; [done| | |done].
  2: { intros k' r'. simpl. rewrite lookup_insert. case_decide; intros ?; simplify_eq.
       - destruct Hfk as [[old Hold]|?]; [|by right]. left. exists old. split; [done|]. apply re_identity. auto.
       - left. exists r'. split; [done|apply same_immutable_identity_refl]. }
  intros Hdb. rewrite (Hk Hdb) in *.
  destruct Hdb as [Di De Dl Da Dob Dab Deb]. simpl.
  pose proof (intents_evolve_insert _ _ _ Hev) as Hie. split_and!; try done.
  destruct (bound_evolve d _ Hie) as [Hab Heb]. split; try done.
  - simpl. apply intents_ok_insert; try done. by apply intent_unique_spec.
  - by apply Hab.
  - by apply Heb.
Qed.

Lemma update_intent_flow i expected m d u d' : update_intent i expected m d = Ok (u, d') -> flow d d'.
Proof.
  intros (r & Hr & Hexp & Hlt & Hid & Hs & Ha & Hcr & Hc & Hu & ->)%update_intent_ok.
  apply intent_write_flow; try done.
  - by rewrite update_columns_intent.
  - intros old Hold. simplify_eq. apply update_columns_evolves; try done.
    by eapply check_reservation_le.
  - left. eauto.
Qed.

Section Flow.
Context `{SolanaPubkey}.

Lemma insert_intent_ok i h d u d' :
  insert_intent i h d = Ok (u, d') ->
  let r := {| ir_intent := i; ir_credential_hash := h; ir_reconcile_attempts := 0;
              ir_lease_owner := None; ir_lease_expires_at := None |} in
  t_intent d !! pi_id i = None /\ intent_checks r = true /\ intent_unique d r = true
  /\ intent_foreign_keys d i = true /\ PaymentIntent_validate i = Ok tt
  /\ d' = set_intent <[pi_id i := r]> d.
Proof.
  unfold insert_intent. intros Hi. tx_inv.
  match goal with Hs : sql_insert_intent _ _ _ = Ok _ |- _ =>
    apply sql_insert_intent_ok in Hs as (Hf & Hc & Hu & Hfk & ->) end.
  simpl in *. split_and!; try done.
  by match goal with Hv : PaymentIntent_validate i = Ok ?t |- _ => destruct t end.
Qed.

Lemma insert_intent_flow i h d u d' : insert_intent i h d = Ok (u, d') -> flow d d'.
Proof.
  intros (Hf & Hc & Hu & Hfk & _ & ->)%insert_intent_ok. apply intent_write_flow; try done; [|by right].
  intros old Hold. congruence.
Qed.

Lemma approval_write_flow d k a :
  (db_ok d -> k = ap_id a) -> approval_checks a = true -> approval_unique d a = true ->
  (db_ok d -> exists r, t_intent d !! ap_intent_id a = Some r /\ pi_run_id (ir_intent r) = ap_run_id a
            /\ pi_request_hash (ir_intent r) = ap_intent_hash a) ->
  (forall old, t_approval d !! k = Some old -> approval_evolves old a) ->
  flow d (set_approval <[k := a]> d).
Proof.
  intros Hkey Hc Hu Hfk Hev. split; [done| |by apply authority_kept_same|done]. intros Hdb. rewrite (Hkey Hdb) in *. pose proof (Hfk Hdb) as Hbound.
  destruct Hdb as [Di De Dl Da Dob Dab Deb]. simpl.
  split_and!; try done; [|by apply approvals_evolve_insert]. split; try done.
  - simpl. apply approvals_ok_insert; try done. by apply approval_unique_spec.
  - intros k' x Hk. simpl in Hk. rewrite lookup_insert in Hk. case_decide; [|by eapply Dab]. by simplify_eq.
Qed.

Lemma insert_approval_request_ok a d u d' :
  insert_approval_request a d = Ok (u, d') ->
  t_approval d !! ap_id a = None /\ approval_checks a = true /\ approval_unique d a = true
  /\ approval_foreign_key d a = true /\ d' = set_approval <[ap_id a := a]> d.
Proof. unfold insert_approval_request. intros Hi. run_inv. by apply sql_insert_approval_ok in Hi. Qed.

Lemma insert_approval_request_flow a d u d' : insert_approval_request a d = Ok (u, d') -> flow d d'.
Proof.
  intros (Hf & Hc & Hu & Hfk & ->)%insert_approval_request_ok.
  apply approval_write_flow; try done; [|intros old Hold; congruence].
  intros _. unfold approval_foreign_key in Hfk. destruct (t_intent d !! ap_intent_id a) as [r|]; [|done].
  simpl in Hfk. bool_inv. by exists r.
Qed.

Lemma append_flow events outbox d u d' : append_side_effects events outbox d = Ok (u, d') -> flow d d'.
Proof. intros Ha%append_side_effects_appended. by apply appended_flow. Qed.

Lemma credential_flow id h e d n d' :
  sql_update_intent id (fun r => is_none (ir_credential_hash r)) (set_credential h) e d = Ok (n, d') ->
  flow d d'.
Proof.
  intros [[-> ->]|(r & -> & Hr & Hg & Hc & Hu & ->)]%sql_update_intent_ok; [done|].
  apply intent_write_flow; try done.
  - intros Hdb. simpl. symmetry. by apply (intents_keyed _ (db_intents _ Hdb)).
  - intros old Hold. simplify_eq. destruct (row_evolves_refl r). split; try done.
    simpl. intros Hne. by destruct (ir_credential_hash r).
  - left. eauto.
Qed.

Lemma bind_credential_flow i c expected d u d' :
  bind_credential_transition i c expected d = Ok (u, d') -> flow d d'.
Proof.
  unfold bind_credential_transition. intros Hb. run_inv.
  match goal with He : expect_one _ _ _ = Ok _ |- _ => apply expect_one_ok in He as [_ ->] end.
  etrans; [by eapply update_intent_flow|by eapply credential_flow].
Qed.

Lemma lock_intent_financial_scope_same i d u d' : lock_intent_financial_scope i d = Ok (u, d') -> d' = d.
Proof.
  unfold lock_intent_financial_scope, lock_financial_scopes. intros Hl. by run_inv.
Qed.

(** Chains the flow of the steps of a transaction. *)
Ltac flow_steps :=
  repeat match goal with
         | Hs : lock_intent_financial_scope _ _ = Ok (_, _) |- _ =>
             apply lock_intent_financial_scope_same in Hs; subst
         | Hs : load_or (load_intent _) _ _ = Ok (_, _) |- _ =>
             apply load_or_ok in Hs; unfold load_intent in Hs; run_inv
         | Hs : load_outbound_evidence_event _ _ = Ok (_, _) |- _ =>
             unfold load_outbound_evidence_event in Hs; run_inv
         | Hs : update_intent _ _ _ _ = Ok (_, _) |- _ => apply update_intent_flow in Hs
         | Hs : insert_intent _ _ _ = Ok (_, _) |- _ => apply insert_intent_flow in Hs
         | Hs : insert_approval_request _ _ = Ok (_, _) |- _ => apply insert_approval_request_flow in Hs
         | Hs : bind_credential_transition _ _ _ _ = Ok (_, _) |- _ => apply bind_credential_flow in Hs
         | Hs : append_side_effects _ _ _ = Ok (_, _) |- _ => apply append_flow in Hs
         end.

Lemma load_run_same s r d x d' : load_run s r d = Ok (x, d') -> d' = d.
Proof. unfold load_run, load_intent_by_run. intros Hl. run_inv. case_match; by run_inv. Qed.

Lemma check_action_same w d u d' : check_action w d = Ok (u, d') -> d' = d.
Proof. unfold check_action. destruct (aw_action w); intros Hc; by tx_inv. Qed.

Lemma authorize_inserted w d r d' :
  authorize w d = Ok (Inserted r, d') ->
  r = {| ar_intent := aw_intent w; ar_approval := aw_approval w |}
  /\ (exists s u, load_run (pi_scenario_id (aw_intent w)) (pi_run_id (aw_intent w)) d = Ok (None, s)
                  /\ validate_authorization_guard (aw_intent w) (aw_guard w) (aw_action w) d = Ok (u, d))
  /\ validate_challenge_received_event (aw_events w) (aw_intent w) = Ok tt
  /\ (exists u, check_action w d = Ok (u, d))
  /\ exists d1 d2 u1 u2 u3,
      insert_intent (aw_intent w) None d = Ok (u1, d1)
      /\ match aw_approval w with Some a => insert_approval_request a | None => tret tt end d1 = Ok (u2, d2)
      /\ append_side_effects (aw_events w) (aw_outbox w) d2 = Ok (u3, d').
Proof.
  unfold authorize. intros Ha. run_inv.
  match goal with Hl : load_run _ _ _ = Ok (?f, ?s) |- _ =>
    pose proof (load_run_same _ _ _ _ _ Hl) as ->; destruct f as [existing|] end.
  { run_inv. done. }
  run_inv.
  match goal with Hg : validate_authorization_guard _ _ _ _ = Ok (_, ?s) |- _ =>
    pose proof (read_only _ _ _ Hg) as -> end.
  match goal with Hc : check_action _ _ = Ok (_, ?s) |- _ => pose proof (check_action_same _ _ _ _ Hc) as -> end.
  simplify_eq. split; [done|]. split; [by eauto|].
  split; [by match goal with Hv : validate_challenge_received_event _ _ = Ok ?t |- _ => destruct t end|].
  split; [by eauto|]. eauto 10.
Qed.

Lemma authorize_replayed w d r d' :
  authorize w d = Ok (Replayed r, d') ->
  d' = d /\ load_run (pi_scenario_id (aw_intent w)) (pi_run_id (aw_intent w)) d = Ok (Some r, d)
  /\ pi_request_hash (ar_intent r) = pi_request_hash (aw_intent w).
Proof.
  unfold authorize. intros Ha. run_inv.
  match goal with Hl : load_run _ _ _ = Ok (?f, ?s) |- _ =>
    pose proof (load_run_same _ _ _ _ _ Hl) as ->; destruct f as [existing|] end; run_inv; [|done].
  bool_inv. simplify_eq. done.
Qed.

Lemma authorize_flow w d r d' : authorize w d = Ok (r, d') -> flow d d'.
Proof.
  destruct r as [r|r]; [|by intros (-> & _)%authorize_replayed].
  intros (_ & _ & _ & _ & d1 & d2 & u1 & u2 & u3 & H1 & H2 & H3)%authorize_inserted.
  apply insert_intent_flow in H1. apply append_flow in H3. etrans; [done|]. etrans; [|done].
  destruct (aw_approval w); run_inv; [by eapply insert_approval_request_flow|done].
Qed.

Lemma record_challenge_inserted w d i d' :
  record_challenge w d = Ok (Inserted i, d') ->
  i = cw_intent w
  /\ (exists s, load_intent_by_run (pi_scenario_id i) (pi_run_id i) d = Ok (None, s))
  /\ (exists u, validate_challenge_guard i (cw_challenge w) (cw_guard w) d = Ok (u, d))
  /\ (exists u, enforce_budget i (cg_day_started_at (cw_guard w)) (cg_evaluated_at (cw_guard w)) false d = Ok (u, d))
  /\ exists d1 u1 u2, insert_intent i None d = Ok (u1, d1)
      /\ append_side_effects (cw_events w) (cw_outbox w) d1 = Ok (u2, d').
Proof.
  unfold record_challenge. intros Ha. run_inv.
  match goal with Hl : load_intent_by_run _ _ _ = Ok (?f, ?s) |- _ =>
    assert (s = d) as -> by (unfold load_intent_by_run in Hl; by run_inv); destruct f as [existing|] end.
  { case_bool_decide; run_inv; done. }
  run_inv. simplify_eq.
  match goal with Hg : validate_challenge_guard _ _ _ _ = Ok (_, ?s) |- _ =>
    pose proof (read_only _ _ _ Hg) as -> end.
  match goal with Hc : enforce_budget _ _ _ _ _ = Ok (_, ?s) |- _ => pose proof (read_only _ _ _ Hc) as -> end.
  split; [done|]. split; [by eauto|]. split; [by eauto|]. split; [by eauto|]. eauto 10.
Qed.

Lemma record_challenge_flow w d r d' : record_challenge w d = Ok (r, d') -> flow d d'.
Proof.
  destruct r as [i|i].
  - intros (_ & _ & _ & _ & d1 & u1 & u2 & H1 & H2)%record_challenge_inserted.
    apply insert_intent_flow in H1. apply append_flow in H2. by etrans.
  - unfold record_challenge, load_intent_by_run. intros Ha. run_inv.
    case_match; [case_bool_decide|]; run_inv; done.
Qed.

Lemma verify_incoming_flow w d i d' : verify_incoming w d = Ok (i, d') -> flow d d'.
Proof. unfold verify_incoming. intros Hv. run_inv. flow_steps. by etrans. Qed.

Lemma commit_progress_flow w d i d' : commit_progress w d = Ok (i, d') -> flow d d'.
Proof. unfold commit_progress. intros Hv. run_inv. flow_steps. by etrans. Qed.

Lemma record_outbound_evidence_flow w d i d' : record_outbound_evidence w d = Ok (i, d') -> flow d d'.
Proof.
  unfold record_outbound_evidence. intros Hv. run_inv. flow_steps.
  case_match; [case_match|]; run_inv; [done|]. flow_steps. by etrans.
Qed.

Lemma post_entries_flow entries d u d' :
  tfor (fun e => insert_ledger e ;* tret tt) entries d = Ok (u, d') -> flow d d'.
Proof.
  intros Hf. apply ledger_grown_flow. eapply (tfor_rel ledger_grown); [|exact Hf].
  intros e s1 s2 _ He. cbv beta in He. run_inv. by eapply insert_ledger_grown.
Qed.

Lemma commit_settlement_flow w d i d' : commit_settlement w d = Ok (i, d') -> flow d d'.
Proof.
  unfold commit_settlement. intros Hv. run_inv. flow_steps.
  match goal with Hp : tfor _ _ _ = Ok _ |- _ => apply post_entries_flow in Hp end.
  etrans; [done|]. by etrans.
Qed.
End Flow.

(** ** Leases *)

(** An update that leaves identity, lifecycle, money and credential alone. *)
Definition lease_only (f : IntentRow -> IntentRow) : Prop :=
  forall r, row_evolves r (f r) /\ pi_id (ir_intent (f r)) = pi_id (ir_intent r).

Lemma lease_update_flow id guard f e d n d' :
  lease_only f -> sql_update_intent id guard f e d = Ok (n, d') -> flow d d'.
Proof.
  intros Hf [[-> ->]|(r & -> & Hr & Hg & Hc & Hu & ->)]%sql_update_intent_ok; [done|].
  destruct (Hf r) as [Hev Hid]. apply intent_write_flow; try done.
  - intros Hdb. rewrite Hid. symmetry. by apply (intents_keyed _ (db_intents _ Hdb)).
  - intros old Hold. by simplify_eq.
  - left. eauto.
Qed.

Lemma set_reconciliation_lease_only owner until : lease_only (set_reconciliation_lease owner until).
Proof. intros r. split; [|done]. destruct (row_evolves_refl r). by split. Qed.
Lemma set_lease_expiry_only until : lease_only (set_lease_expiry until).
Proof. intros r. split; [|done]. destruct (row_evolves_refl r). by split. Qed.
Lemma clear_lease_only next : lease_only (clear_lease next).
Proof. intros r. split; [|done]. destruct (row_evolves_refl r). by split. Qed.

Lemma claim_one_flow q id d c d' : claim_one q id d = Ok (c, d') -> flow d d'.
Proof.
  unfold claim_one. intros Hc. run_inv.
  match goal with He : expect_one _ _ _ = Ok _ |- _ => apply expect_one_ok in He as [_ ->] end.
  match goal with Hl : load_or _ _ _ = Ok _ |- _ => apply load_or_ok in Hl; run_inv end.
  eapply lease_update_flow; [apply set_reconciliation_lease_only|eassumption].
Qed.

Lemma tmapM_rel {S A B} (R : S -> S -> Prop) `{!Reflexive R, !Transitive R} (f : A -> Tx S B) l s bs s' :
  (forall a s1 b s2, a ∈ l -> f a s1 = Ok (b, s2) -> R s1 s2) -> tmapM f l s = Ok (bs, s') -> R s s'.
Proof.
  revert s bs. induction l as [|a l IH]; intros s bs Hf Hm; simpl in Hm; run_inv; [done|].
  etrans; [eapply Hf; [left|eassumption]|]. eapply IH; [|eassumption]. intros. eapply Hf; [by right|eassumption].
Qed.

Lemma claim_reconciliation_flow q d cs d' : claim_reconciliation q d = Ok (cs, d') -> flow d d'.
Proof.
  unfold claim_reconciliation. intros Hc. run_inv.
  eapply (tmapM_rel flow); [|eassumption]. intros. by eapply claim_one_flow.
Qed.

Lemma update_reconciliation_lease_flow id owner until next d u d' :
  update_reconciliation_lease id owner until next d = Ok (u, d') -> flow d d'.
Proof.
  unfold update_reconciliation_lease. intros Hu. run_inv.
  match goal with He : expect_one _ _ _ = Ok _ |- _ => apply expect_one_ok in He as [_ ->] end.
  destruct until; eapply lease_update_flow; try eassumption; [apply set_lease_expiry_only|apply clear_lease_only].
Qed.

(** ** The sample databases satisfy the constraints *)

#[local] Existing Instance Sample.codec.

Lemma sample_reserved_ok : db_ok Sample.reserved_db.
Proof. exact (flow_db_ok _ _ (authorize_flow _ _ _ _ sample_reserved) sample_db_ok). Qed.
Lemma sample_pending_ok : db_ok Sample.pending_db.
Proof. exact (flow_db_ok _ _ (authorize_flow _ _ _ _ sample_pending) sample_db_ok). Qed.
Lemma sample_issued_ok : db_ok Sample.issued_db.
Proof. exact (flow_db_ok _ _ (record_challenge_flow _ _ _ _ sample_issued) sample_db_ok). Qed.
Lemma sample_unknown_ok : db_ok Sample.unknown_db.
Proof. exact (flow_db_ok _ _ (commit_progress_flow _ _ _ _ sample_unknown) sample_reserved_ok). Qed.
