(* ===== verification/BudgetSafety.v ===== *)
(** * Budget safety and idempotency of authorization

    The guarantees of [IIntentRepository::authorize] and
    [IIntentRepository::record_challenge] ([src/src/storage/payment]): a
    reservation that commits keeps the scenario and the wallet within their
    limits and is counted in full; a repeated run is a replay; a reused run
    identity is a conflict. *)

From S2P Require Import Prelude Text Money Json Wallet Intent Policy Ledger Records Store LedgerStore PaymentRules Budget PaymentStore Samples IntentFlow.

#[local] Open Scope string_scope.
#[local] Open Scope vault_scope.

Definition fresh_row (i : PaymentIntent) : IntentRow :=
  {| ir_intent := i; ir_credential_hash := None; ir_reconcile_attempts := 0; ir_lease_owner := None;
     ir_lease_expires_at := None |}.

(** ** Lemmas *)

Lemma in_unit_refl a : in_unit a (budget_unit a) = true.
Proof. unfold in_unit, budget_unit. simpl. by rewrite !bool_decide_true. Qed.

(** The reserved sum after inserting or replacing one row. *)
Lemma reserved_contribution_scenario r i :
  ir_intent r = i -> pi_reservation_status i = Reserved ->
  contribution reserved_of (reserved_in_scenario (pi_scenario_id i) (pi_direction i) (budget_unit (pi_asset i))) r
  = pi_reserved_amount i.
Proof.
  intros <- Hr. unfold contribution, reserved_in_scenario. by rewrite Hr, in_unit_refl, !bool_decide_true.
Qed.

Lemma reserved_contribution_wallet r i w :
  ir_intent r = i -> pi_wallet_id i = Some w -> pi_reservation_status i = Reserved ->
  contribution reserved_of (reserved_in_wallet w (pi_direction i) (budget_unit (pi_asset i))) r
  = pi_reserved_amount i.
Proof.
  intros <- Hw Hr. unfold contribution, reserved_in_wallet. by rewrite Hw, Hr, in_unit_refl, !bool_decide_true.
Qed.

Lemma unreserved_contribution (p : IntentRow -> bool) r :
  (forall y, p y = true -> pi_reservation_status (ir_intent y) = Reserved) ->
  pi_reservation_status (ir_intent r) <> Reserved -> contribution reserved_of p r = 0%N.
Proof. intros Hp Hr. unfold contribution. destruct (p r) eqn:E; [|done]. by apply Hp in E. Qed.

Lemma reserved_in_scenario_reserved s dir u r :
  reserved_in_scenario s dir u r = true -> pi_reservation_status (ir_intent r) = Reserved.
Proof. unfold reserved_in_scenario. intros Hr. by bool_inv. Qed.
Lemma reserved_in_wallet_reserved w dir u r :
  reserved_in_wallet w dir u r = true -> pi_reservation_status (ir_intent r) = Reserved.
Proof. unfold reserved_in_wallet. intros Hr. by bool_inv. Qed.

Lemma scenario_usage_insert d d' i day now :
  t_intent d !! pi_id i = None -> t_intent d' = <[pi_id i := fresh_row i]> (t_intent d) ->
  t_ledger d' = t_ledger d -> pi_reservation_status i = Reserved ->
  scenario_usage d' (pi_scenario_id i) (pi_direction i) (budget_unit (pi_asset i)) day now
  = (scenario_usage d (pi_scenario_id i) (pi_direction i) (budget_unit (pi_asset i)) day now
     + pi_reserved_amount i)%N.
Proof.
  intros Hf Hi Hl Hr. unfold scenario_usage. rewrite Hi, Hl, sum_where_insert_fresh by done.
  rewrite (reserved_contribution_scenario _ i) by done. lia.
Qed.

Lemma wallet_usage_insert d d' i w day now :
  t_intent d !! pi_id i = None -> t_intent d' = <[pi_id i := fresh_row i]> (t_intent d) ->
  t_ledger d' = t_ledger d -> pi_wallet_id i = Some w -> pi_reservation_status i = Reserved ->
  wallet_usage d' w (pi_direction i) (budget_unit (pi_asset i)) day now
  = (wallet_usage d w (pi_direction i) (budget_unit (pi_asset i)) day now + pi_reserved_amount i)%N.
Proof.
  intros Hf Hi Hl Hw Hr. unfold wallet_usage. rewrite Hi, Hl, sum_where_insert_fresh by done.
  rewrite (reserved_contribution_wallet _ i) by done. lia.
Qed.

(** The intent's reservation is counted and within limits. *)
Definition within_limits (d : DB) (i : PaymentIntent) (day now : Z) (overage : bool) : Prop :=
  fits_limits d i day now overage 0.

(** Both usages of the intent's scopes grow by its amount. *)
Definition counted (d d' : DB) (i : PaymentIntent) (day now : Z) : Prop :=
  let u := budget_unit (pi_asset i) in
  scenario_usage d' (pi_scenario_id i) (pi_direction i) u day now
  = (scenario_usage d (pi_scenario_id i) (pi_direction i) u day now + pi_amount i)%N
  /\ forall w, pi_wallet_id i = Some w ->
       wallet_usage d' w (pi_direction i) u day now = (wallet_usage d w (pi_direction i) u day now + pi_amount i)%N.

Lemma fits_limits_counted d d' i day now overage :
  t_policy d' = t_policy d -> t_wallet d' = t_wallet d -> counted d d' i day now ->
  fits_limits d i day now overage (pi_amount i) -> within_limits d' i day now overage.
Proof.
  intros Hp Hw [Hsu Hwu] (pid & wid & policy & limits & limit & row & ? & Hwid & ? & ? & ? & ? & ? & ? & Hm1 & Hm2).
  exists pid, wid, policy, limits, limit, row. rewrite Hp, Hw.
  assert (wallet_scenarios d' wid = wallet_scenarios d wid) as Hs by (unfold wallet_scenarios; by rewrite Hp).
  rewrite Hs, Hsu, (Hwu wid Hwid), !N.add_0_r. done.
Qed.

(** Nothing was reserved, released or posted: the usage of every scenario and
    wallet, in every direction, unit and window, is what it was. *)
Definition usage_unchanged (d d' : DB) : Prop :=
  forall scope dir u day now,
    scenario_usage d' scope dir u day now = scenario_usage d scope dir u day now
    /\ wallet_usage d' scope dir u day now = wallet_usage d scope dir u day now.

Section Reserve.
Context `{SolanaPubkey}.

(** A fresh reservation that passes [enforce_budget] and is inserted. *)
Lemma insert_reserved_within_limits i day now overage d u d1 u1 d' :
  db_ok d -> enforce_budget i day now overage d = Ok (u, d) -> insert_intent i None d = Ok (u1, d1) ->
  t_intent d' = t_intent d1 -> t_ledger d' = t_ledger d1 -> t_policy d' = t_policy d1 -> t_wallet d' = t_wallet d1 ->
  pi_reservation_status i = Reserved -> pi_reserved_amount i = pi_amount i ->
  within_limits d' i day now overage /\ counted d d' i day now.
Proof.
  intros Hdb He (Hf & _ & _ & _ & _ & ->)%insert_intent_ok Hi Hl Hp Hw Hr Ha. simpl in *.
  apply enforce_budget_ok in He; [|apply Hdb..].
  assert (counted d d' i day now) as Hcount.
  { split; [rewrite <- Ha; by apply scenario_usage_insert|].
    intros w Hwid. rewrite <- Ha. by apply wallet_usage_insert. }
  split; [|done]. by apply (fits_limits_counted d).
Qed.

(** A reserving authorization, in terms of the two states around it. *)
Lemma authorize_reserve_fits w d r d' :
  db_ok d -> authorize w d = Ok (Inserted r, d') -> aw_action w = Reserve ->
  let i := aw_intent w in
  let day := g_day_started_at (aw_guard w) in
  let now := g_evaluated_at (aw_guard w) in
  within_limits d' i day now false /\ counted d d' i day now.
Proof.
  intros Hdb (_ & _ & _ & [u Hc] & d1 & d2 & u1 & u2 & u3 & H1 & H2 & H3)%authorize_inserted Hact. simpl.
  unfold check_action in Hc. rewrite Hact in Hc. run_inv. bool_inv.
  destruct (aw_approval w); [done|]. run_inv. apply append_side_effects_appended in H3.
  destruct (ap_same_catalog _ _ H3) as (?&?&?&?&?&?&?).
  eapply insert_reserved_within_limits; try eassumption; apply H3.
Qed.

(** Issuing an inbound challenge reserves its amount within the policy's
    inbound limits and the receiving wallet's limits, in the same way. *)
Lemma record_challenge_within_budget w d i d' :
  db_ok d -> record_challenge w d = Ok (Inserted i, d') ->
  let day := cg_day_started_at (cw_guard w) in
  let now := cg_evaluated_at (cw_guard w) in
  pi_direction i = Inbound
  /\ within_limits d' i day now false /\ counted d d' i day now.
Proof.
  intros Hdb (-> & _ & [u Hg] & [u' He] & d1 & u1 & u2 & H1 & H2)%record_challenge_inserted. simpl.
  unfold validate_challenge_guard in Hg. apply tbind_ok in Hg as (? & ? & Hg & _). run_inv. bool_inv.
  split; [done|]. apply append_side_effects_appended in H2.
  destruct (ap_same_catalog _ _ H2) as (?&?&?&?&?&?&?).
  eapply insert_reserved_within_limits; try eassumption; apply H2.
Qed.

(** A payment that was denied or waits for approval reserves nothing. *)
Lemma authorize_without_reservation w d r d' :
  authorize w d = Ok (Inserted r, d') -> aw_action w <> Reserve -> usage_unchanged d d'.
Proof.
  intros (_ & _ & _ & [x Hc] & d1 & d2 & u1 & u2 & u3 & H1 & H2 & H3)%authorize_inserted Hact.
  assert (pi_reservation_status (aw_intent w) = Unreserved) as Hun.
  { unfold check_action in Hc. destruct (aw_action w); [| |done]; run_inv; by bool_inv. }
  apply insert_intent_ok in H1 as (Hf & _ & _ & _ & _ & ->).
  apply append_side_effects_appended in H3. intros scope dir u day now.
  assert (t_intent d2 = <[pi_id (aw_intent w) := fresh_row (aw_intent w)]> (t_intent d)
          /\ t_ledger d2 = t_ledger d) as [Hi Hl].
  { destruct (aw_approval w); [|by run_inv]. by apply insert_approval_request_ok in H2 as (_ & _ & _ & _ & ->). }
  unfold scenario_usage, wallet_usage.
  rewrite (ap_same_intent _ _ H3), (ap_same_ledger _ _ H3), Hi, Hl, !sum_where_insert_fresh by done.
  rewrite !unreserved_contribution; [done|..]; simpl; rewrite ?Hun; try done;
    eauto using reserved_in_scenario_reserved, reserved_in_wallet_reserved.
Qed.

Lemma load_intent_by_run_find d i k r :
  intents_ok (t_intent d) -> t_intent d !! k = Some r -> ir_intent r = i ->
  load_intent_by_run (pi_scenario_id i) (pi_run_id i) d = Ok (Some i, d).
Proof.
  intros Hok Hk Hr. unfold load_intent_by_run, treads.
  rewrite (fetch_optional_unique _ _ k r Hk); [by rewrite <- Hr|..].
  - unfold in_run. by rewrite Hr, !bool_decide_true.
  - intros k' y Hk' Hy. destruct (decide (k = k')) as [->|Hne]; [congruence|].
    pose proof (intents_unique _ Hok _ _ _ _ Hk Hk' Hne) as Hcol.
    unfold intent_collision, in_run in *. rewrite Hr in Hcol.
    apply orb_false_iff in Hcol as [[Hcol _]%orb_false_iff _].
    apply andb_false_iff in Hcol as [?|?]; bool_inv; congruence.
Qed.

Lemma authorize_inserted_row w d r d' :
  authorize w d = Ok (Inserted r, d') ->
  t_intent d !! pi_id (aw_intent w) = None
  /\ t_intent d' = <[pi_id (aw_intent w) := fresh_row (aw_intent w)]> (t_intent d)
  /\ t_ledger d' = t_ledger d
  /\ t_approval d' = match aw_approval w with
                     | Some a => <[ap_id a := a]> (t_approval d)
                     | None => t_approval d
                     end
  /\ is_none_or (fun a => ap_intent_id a == pi_id (aw_intent w)) (aw_approval w) = true.
Proof.
  intros (_ & _ & _ & [x Hc] & d1 & d2 & u1 & u2 & u3 & H1 & H2 & H3)%authorize_inserted.
  apply insert_intent_ok in H1 as (Hf & _ & _ & _ & _ & ->). apply append_side_effects_appended in H3.
  rewrite (ap_same_intent _ _ H3), (ap_same_ledger _ _ H3), (ap_same_approval _ _ H3).
  destruct (aw_approval w) as [a|] eqn:Ha.
  - apply insert_approval_request_ok in H2 as (_ & _ & _ & _ & ->). split_and!; try done.
    unfold check_action in Hc. rewrite Ha in Hc. destruct (aw_action w); run_inv; simpl in *; try done.
    bool_inv. by apply bool_decide_eq_true.
  - run_inv. done.
Qed.

Lemma latest_approval_only d intent_id a k :
  t_approval d !! k = Some a -> ap_intent_id a = intent_id ->
  (forall k' b, t_approval d !! k' = Some b -> ap_intent_id b = intent_id -> b = a) ->
  latest_approval d intent_id = Some a.
Proof.
  intros Hk Ha Honly. unfold latest_approval.
  destruct (order_by _ _) as [|b l] eqn:Ho.
  - exfalso. assert (a ∈ order_by approval_newer (select (fun x => ap_intent_id x == intent_id) (t_approval d))) as Hin.
    { apply elem_of_order_by, elem_of_select. rewrite bool_decide_true by done. eauto. }
    rewrite Ho in Hin. inversion Hin.
  - simpl. f_equal.
    assert (b ∈ order_by approval_newer (select (fun x => ap_intent_id x == intent_id) (t_approval d))) as Hin
      by (rewrite Ho; left).
    apply elem_of_order_by, elem_of_select in Hin as [Hb [k' Hk']]. bool_inv. eauto.
Qed.

Lemma latest_approval_none d intent_id :
  (forall k b, t_approval d !! k = Some b -> ap_intent_id b <> intent_id) -> latest_approval d intent_id = None.
Proof.
  intros Hno. unfold latest_approval. rewrite (proj2 (select_nil _ _)); [done|].
  intros k b Hk. apply bool_decide_eq_false. eauto.
Qed.

(** The run is on record after the authorization, with its approval. *)
Lemma load_run_after_authorize w d r d' :
  db_ok d -> authorize w d = Ok (Inserted r, d') ->
  load_run (pi_scenario_id (aw_intent w)) (pi_run_id (aw_intent w)) d' = Ok (Some r, d').
Proof.
  intros Hdb Hauth. destruct (fl_db _ _ (authorize_flow _ _ _ _ Hauth) Hdb) as (Hdb' & _).
  destruct (authorize_inserted_row _ _ _ _ Hauth) as (Hf & Hi & _ & Ha & Hbind).
  apply authorize_inserted in Hauth as (-> & _).
  assert (t_intent d' !! pi_id (aw_intent w) = Some (fresh_row (aw_intent w))) as Hrow
    by (rewrite Hi; apply lookup_insert_eq).
  unfold load_run, tbind.
  rewrite (load_intent_by_run_find d' (aw_intent w) _ _ (db_intents _ Hdb') Hrow eq_refl). unfold treads, tret.
  assert (forall k b, t_approval d !! k = Some b -> ap_intent_id b <> pi_id (aw_intent w)) as Hnone.
  { intros k b Hk Hb. destruct (db_approvals_bound _ Hdb _ _ Hk) as (x & Hx & _). congruence. }
  do 4 f_equal. destruct (aw_approval w) as [a|]; simpl in Hbind; bool_inv.
  - eapply (latest_approval_only _ _ a (ap_id a)); [rewrite Ha; apply lookup_insert_eq|done|].
    intros k' b Hk' Hb. rewrite Ha, lookup_insert in Hk'. case_decide; [congruence|]. by destruct (Hnone _ _ Hk').
  - apply latest_approval_none. by rewrite Ha.
Qed.

(** The run stays on record, in whatever form its intent has reached. *)
Lemma load_run_later w d r d' d2 :
  db_ok d -> authorize w d = Ok (Inserted r, d') -> flow d' d2 ->
  exists r2, load_run (pi_scenario_id (aw_intent w)) (pi_run_id (aw_intent w)) d2 = Ok (Some r2, d2)
    /\ same_immutable_identity_as (aw_intent w) (ar_intent r2) = true.
Proof.
  intros Hdb Hauth Hf. pose proof (flow_db_ok _ _ (authorize_flow _ _ _ _ Hauth) Hdb) as Hdb'.
  destruct (fl_db _ _ Hf Hdb') as (Hdb2 & _ & _ & Hev & _).
  destruct (authorize_inserted_row _ _ _ _ Hauth) as (_ & Hi & _).
  destruct (Hev (pi_id (aw_intent w)) (fresh_row (aw_intent w))) as (x & Hx & E);
    [by rewrite Hi, lookup_insert_eq|].
  pose proof (re_identity _ _ E) as Hid. simpl in Hid.
  pose proof (load_intent_by_run_find d2 (ir_intent x) _ _ (db_intents _ Hdb2) Hx eq_refl) as Hfind.
  pose proof Hid as Hid'. apply same_immutable_identity_iff in Hid' as (_ & Hs & Hr & _).
  eexists. unfold load_run. rewrite Hs, Hr, (tbind_run _ _ _ _ _ Hfind), (tbind_run _ _ _ _ _ eq_refl).
  split; [reflexivity|exact Hid].
Qed.

(** Authorization is idempotent per run: once a run is authorized (or
    denied, or sent to approval), then whatever transactions follow, every
    later authorization of the same scenario and run is answered from the
    record: with the same request it returns the intent of the first one (the
    identical record when nothing happened in between), with another request
    it is a conflict, and either way it changes nothing, whatever its policy,
    guard or candidate now says. *)
Lemma authorize_replay w d r d' d2 w2 :
  db_ok d -> authorize w d = Ok (Inserted r, d') -> flow d' d2 ->
  pi_scenario_id (aw_intent w2) = pi_scenario_id (aw_intent w) ->
  pi_run_id (aw_intent w2) = pi_run_id (aw_intent w) ->
  if pi_request_hash (aw_intent w2) == pi_request_hash (aw_intent w) then
    exists r2, authorize w2 d2 = Ok (Replayed r2, d2)
      /\ same_immutable_identity_as (ar_intent r) (ar_intent r2) = true /\ (d2 = d' -> r2 = r)
  else authorize w2 d2 = Err (PaymentConflict "payment run_id is bound to a different request").
Proof.
  intros Hdb Hauth Hf Hs Hr. destruct (load_run_later _ _ _ _ _ Hdb Hauth Hf) as (r2 & Hl & Hid).
  pose proof (load_run_after_authorize _ _ _ _ Hdb Hauth) as Hl'.
  apply authorize_inserted in Hauth as (-> & _).
  pose proof Hid as Hh. apply same_immutable_identity_iff in Hh as (_&_&_&_&_&_&_&_&_&_&_&_&_& Hh & _).
  unfold authorize. rewrite Hs, Hr, (tbind_run _ _ _ _ _ Hl). rewrite <- Hh.
  case_bool_decide as Heq.
  - exists r2. rewrite Heq, bool_decide_true by done. split_and!; try done. intros ->. congruence.
  - rewrite bool_decide_false by congruence. reflexivity.
Qed.
End Reserve.

(** ** Witnesses *)

#[local] Existing Instance Sample.codec.

(** The same run again, from a caller that would now be denied. *)
Definition sample_retry (hash : string) : AuthorizationWrite :=
  let i := Sample.intent in
  {| aw_intent := {| pi_id := "intent-9"; pi_scenario_id := pi_scenario_id i; pi_run_id := pi_run_id i;
                     pi_wallet_id := pi_wallet_id i; pi_policy_id := pi_policy_id i; pi_price_id := pi_price_id i;
                     pi_direction := pi_direction i; pi_protocol := pi_protocol i; pi_asset := pi_asset i;
                     pi_recipient := pi_recipient i; pi_amount := pi_amount i; pi_settled_amount := 0;
                     pi_resource := pi_resource i; pi_challenge_hash := pi_challenge_hash i;
                     pi_request_hash := hash; pi_status := Failed; pi_reservation_status := Unreserved;
                     pi_reserved_amount := 0; pi_tx_hash := None; pi_settlement_ref := None;
                     pi_next_reconcile_at := None; pi_created_at := pi_created_at i;
                     pi_updated_at := pi_updated_at i; pi_expires_at := pi_expires_at i; pi_settled_at := None |};
     aw_approval := None; aw_action := RecordDenied; aw_guard := Sample.guard; aw_events := []; aw_outbox := [] |}.
