(* ===== verification/Lifecycle.v ===== *)
(** * Settlement, progress, evidence and verification

    The guarantees of the payment transactions that advance an existing
    intent ([src/src/storage/payment/transactions.rs]) and of the
    reconciliation leases ([src/src/storage/payment/reconciliation.rs]). *)

From S2P Require Import Prelude Text Money Json Wallet Intent Policy Ledger Records Store LedgerStore PaymentRules Budget PaymentStore Samples IntentFlow BudgetSafety.

#[local] Open Scope string_scope.
#[local] Open Scope vault_scope.

(** ** The shape of each transaction *)

Ltac intent_loads :=
  repeat match goal with
         | Hs : lock_intent_financial_scope _ _ = Ok (_, _) |- _ =>
             apply lock_intent_financial_scope_same in Hs; subst
         | Hs : load_or (load_intent _) _ _ = Ok (_, _) |- _ =>
             apply load_or_ok in Hs; unfold load_intent in Hs; run_inv
         | Hs : Some _ = ir_intent <$> _ |- _ => symmetry in Hs; apply fmap_Some in Hs as (? & Hs & ->)
         end.

Lemma commit_settlement_shape w d i d' :
  commit_settlement w d = Ok (i, d') ->
  i = sw_intent w /\ exists r d1 u1 d2 u2 u3,
    t_intent d !! pi_id i = Some r
    /\ validate_settlement_transition (ir_intent r) i (sw_expected_updated_at w) (sw_ledger_entries w) = Ok tt
    /\ tfor (fun e => insert_ledger e ;* tret tt) (sw_ledger_entries w) d = Ok (u1, d1)
    /\ update_intent i (sw_expected_updated_at w) RmSettlement d1 = Ok (u2, d2)
    /\ append_side_effects (sw_events w) (sw_outbox w) d2 = Ok (u3, d').
Proof.
  unfold commit_settlement. intros Hc. run_inv. intent_loads. split; [done|].
  match goal with Hv : validate_settlement_transition _ _ _ _ = Ok ?t |- _ => destruct t end.
  eexists _, _, _, _, _, _. eauto.
Qed.

Lemma commit_progress_shape w d i d' :
  commit_progress w d = Ok (i, d') ->
  i = pgw_intent w /\ exists r m d1 u1 u2,
    t_intent d !! pi_id i = Some r
    /\ validate_progress_transition (ir_intent r) i (pgw_expected_updated_at w) (pgw_events w) = Ok m
    /\ update_intent i (pgw_expected_updated_at w) m d = Ok (u1, d1)
    /\ append_side_effects (pgw_events w) (pgw_outbox w) d1 = Ok (u2, d').
Proof.
  unfold commit_progress. intros Hc. run_inv. intent_loads. split; [done|].
  eexists _, _, _, _, _. eauto.
Qed.

Lemma record_outbound_evidence_shape w d i d' :
  record_outbound_evidence w d = Ok (Inserted i, d') ->
  i = ow_intent w /\ exists r d1 u1 u2,
    t_intent d !! pi_id i = Some r
    /\ validate_outbound_evidence_transition (ir_intent r) i (ow_expected_updated_at w) (ow_event w)
         (ow_evidence_hash w) = Ok tt
    /\ update_intent i (ow_expected_updated_at w) RmUnchanged d = Ok (u1, d1)
    /\ append_side_effects [ow_event w] (ow_outbox w) d1 = Ok (u2, d').
Proof.
  unfold record_outbound_evidence, load_outbound_evidence_event. intros Hc. run_inv. intent_loads.
  match type of Hc with context [fetch_optional ?p ?m] => destruct (fetch_optional p m) end.
  { case_match; run_inv; done. }
  run_inv. split; [congruence|]. simplify_eq.
  match goal with Hv : validate_outbound_evidence_transition _ _ _ _ _ = Ok ?t |- _ => destruct t end.
  eexists _, _, _, _. eauto.
Qed.

(** The committed row of an update. *)
Lemma update_intent_row i expected m d u d' :
  update_intent i expected m d = Ok (u, d') ->
  exists r, t_intent d !! pi_id i = Some r /\ t_intent d' = <[pi_id i := update_columns i r]> (t_intent d)
    /\ ir_intent (update_columns i r) = i /\ t_ledger d' = t_ledger d /\ t_event d' = t_event d
    /\ same_immutable_identity_as (ir_intent r) i = true /\ pi_updated_at (ir_intent r) = expected
    /\ (expected < pi_updated_at i)%Z /\ check_reservation m (ir_intent r) i = Ok tt.
Proof.
  intros (r & Hr & Hexp & Hlt & Hid & _ & _ & Hcr & _ & _ & ->)%update_intent_ok. exists r.
  split_and!; try done. by apply update_columns_intent.
Qed.

Lemma lock_scope_same_tables i d d' u s :
  t_scenario d' = t_scenario d -> t_wallet d' = t_wallet d ->
  lock_intent_financial_scope i d = Ok (u, s) -> lock_intent_financial_scope i d' = Ok (tt, d').
Proof.
  unfold lock_intent_financial_scope, lock_financial_scopes. intros Hs Hw Hl. run_inv.
  rewrite tbind_ok. do 2 eexists. split; [by apply tlift_ok; split; [apply ok_or_ok|]|].
  rewrite tbind_ok. do 2 eexists. split; [by apply tget_ok|]. apply tlift_ok. split; [|done].
  apply reject_if_ok. by rewrite Hs, Hw.
Qed.

(** Usage when one row is replaced by a row of the same intent. *)
Lemma usage_replace d d' k r r' scope dir u day now :
  t_intent d !! k = Some r -> t_intent d' = <[k := r']> (t_intent d) -> t_ledger d' = t_ledger d ->
  (scenario_usage d' scope dir u day now + contribution reserved_of (reserved_in_scenario scope dir u) r
   = contribution reserved_of (reserved_in_scenario scope dir u) r' + scenario_usage d scope dir u day now)%N
  /\ (wallet_usage d' scope dir u day now + contribution reserved_of (reserved_in_wallet scope dir u) r
      = contribution reserved_of (reserved_in_wallet scope dir u) r' + wallet_usage d scope dir u day now)%N.
Proof.
  intros Hr Hi Hl. unfold scenario_usage, wallet_usage. rewrite Hi, Hl.
  pose proof (sum_where_replace reserved_of (reserved_in_scenario scope dir u) _ _ _ r' Hr).
  pose proof (sum_where_replace reserved_of (reserved_in_wallet scope dir u) _ _ _ r' Hr). lia.
Qed.

(** A row that keeps its identity and its reserved amount, and whose
    reservation is kept or dropped, contributes no more than before. *)
Lemma contribution_shrinks r r' scope dir u :
  same_immutable_identity_as (ir_intent r) (ir_intent r') = true ->
  pi_reserved_amount (ir_intent r') = pi_reserved_amount (ir_intent r) ->
  (pi_reservation_status (ir_intent r') = Reserved -> pi_reservation_status (ir_intent r) = Reserved) ->
  (contribution reserved_of (reserved_in_scenario scope dir u) r'
   <= contribution reserved_of (reserved_in_scenario scope dir u) r)%N
  /\ (contribution reserved_of (reserved_in_wallet scope dir u) r'
      <= contribution reserved_of (reserved_in_wallet scope dir u) r)%N.
Proof.
  intros Hid Ha Hr. apply same_immutable_identity_spec in Hid as (_ & Hs & _ & Hw & _ & _ & Hd & _ & Has & _).
  unfold contribution, reserved_of, reserved_in_scenario, reserved_in_wallet. rewrite Hs, Hw, Hd, Has, Ha.
  destruct (decide (pi_reservation_status (ir_intent r') = Reserved)) as [Hr'|Hr'].
  - rewrite Hr', (Hr Hr'). lia.
  - rewrite (bool_decide_false (pi_reservation_status (ir_intent r') = Reserved)) by done.
    rewrite !andb_false_r. simpl. lia.
Qed.

(** ** Properties *)

Section Properties.
Context `{SolanaPubkey}.

(** What a settlement leaves behind. *)
Lemma commit_settlement_facts w d i d' :
  db_ok d -> commit_settlement w d = Ok (i, d') ->
  exists r r', t_intent d !! pi_id i = Some r /\ t_intent d' !! pi_id i = Some r' /\ ir_intent r' = i
    /\ t_ledger d ⊆ t_ledger d'
    /\ (forall e, e ∈ sw_ledger_entries w ->
          exists x k, t_ledger d' !! k = Some x /\ same_fact_content_as x e = true)
    /\ (pi_reservation_status (ir_intent r) = Reserved ->
        pi_reservation_status i = Consumed /\ exists x k, t_ledger d' !! k = Some x /\ fact_of r' x = true).
Proof.
  intros Hdb (-> & r & d1 & u1 & d2 & u2 & u3 & Hr & Hv & Hl & Hu & Ha)%commit_settlement_shape.
  destruct (insert_ledgers_stored _ _ _ _ (db_ledger _ Hdb) Hl) as [Hg Hall].
  destruct (lg_ledger _ _ Hg (db_ledger _ Hdb)) as [_ Hsub].
  pose proof (lg_only _ _ Hg) as Ho. unfold only_ledger, set_ledger in Ho.
  apply update_intent_row in Hu as (r1 & Hr1 & Hi2 & Heq & Hl2 & _).
  assert (r1 = r) as -> by (rewrite Ho in Hr1; simpl in Hr1; congruence).
  apply append_side_effects_appended in Ha.
  exists r, (update_columns (sw_intent w) r).
  rewrite (ap_same_intent _ _ Ha), (ap_same_ledger _ _ Ha), Hi2, Hl2, lookup_insert_eq.
  split_and!; try done. intros Hres.
  apply validate_settlement_transition_ok in Hv as (_ & _ & _ & Hbound & Hcons & _).
  destruct (Hcons Hres) as (Hc & e & He & Hd & Hb). split; [done|].
  destruct (Hall e He) as (x & k & Hk & Hsame). exists x, k. split; [done|].
  specialize (Hbound e He). unfold entry_bound in Hbound. bool_inv.
  apply same_fact_content_spec in Hsame as (Hw & _ & Hin & Hsc & _ & Hdir & Has & _).
  unfold fact_of. rewrite Heq, !andb_true_iff, !bool_decide_eq_true, Hin, Hsc, Hw, Hdir, Has.
  unfold budget_unit in Hb. simplify_eq. done.
Qed.

(** Settlement is atomic and backed: when it commits, the intent holds the
    written state, every entry of the settlement is in the ledger as a fact
    with the same content, no posted entry was changed, and a held
    reservation has become consumed together with a durable fact of the same
    intent, scenario, wallet, direction, asset and decimals. *)
Lemma commit_settlement_backed w d i d' :
  db_ok d -> commit_settlement w d = Ok (i, d') ->
  exists r r', t_intent d !! pi_id i = Some r /\ t_intent d' !! pi_id i = Some r' /\ ir_intent r' = i
    /\ t_ledger d ⊆ t_ledger d'
    /\ (forall e, e ∈ sw_ledger_entries w ->
          exists x k, t_ledger d' !! k = Some x /\ same_fact_content_as x e = true)
    /\ (pi_reservation_status (ir_intent r) = Reserved ->
        pi_reservation_status i = Consumed /\ exists x k, t_ledger d' !! k = Some x /\ fact_of r' x = true).
Proof. apply commit_settlement_facts. Qed.

(** Non-financial progress moves no money: it posts nothing, leaves the
    settled amount, transaction and settlement reference alone, cannot sign
    or settle, keeps the reservation or releases it on failure or expiry,
    and increases the usage of no scenario and no wallet. *)
Lemma commit_progress_moves_no_money w d i d' :
  commit_progress w d = Ok (i, d') ->
  t_ledger d' = t_ledger d
  /\ pi_status i <> Signed /\ pi_status i <> Settled
  /\ (forall scope dir u day now,
        (scenario_usage d' scope dir u day now <= scenario_usage d scope dir u day now)%N
        /\ (wallet_usage d' scope dir u day now <= wallet_usage d scope dir u day now)%N)
  /\ exists r, t_intent d !! pi_id i = Some r
       /\ pi_settled_amount i = pi_settled_amount (ir_intent r) /\ pi_tx_hash i = pi_tx_hash (ir_intent r)
       /\ pi_settlement_ref i = pi_settlement_ref (ir_intent r)
       /\ (pi_reservation_status i = pi_reservation_status (ir_intent r)
           \/ (pi_reservation_status (ir_intent r) = Reserved /\ pi_reservation_status i = Released
               /\ (pi_status i = Failed \/ pi_status i = Expired))).
Proof.
  intros (-> & r & m & d1 & u1 & u2 & Hr & Hv & Hu & Ha)%commit_progress_shape.
  apply validate_progress_transition_ok in Hv as (_ & _ & _ & Hst & Hs & Ht & Hsr & _ & Hra & Hres).
  apply update_intent_row in Hu as (r1 & Hr1 & Hi1 & Heq & Hl1 & _ & Hid & _).
  rewrite Hr in Hr1. injection Hr1 as <-. apply append_side_effects_appended in Ha.
  rewrite (ap_same_ledger _ _ Ha), Hl1. split; [done|]. split; [|split].
  1,2: intros Hbad; rewrite Hbad in Hst; naive_solver.
  split; [|exists r; split_and!; try done; naive_solver].
  intros scope dir u day now.
  destruct (usage_replace d d' _ r _ scope dir u day now Hr
              (eq_trans (ap_same_intent _ _ Ha) Hi1) (eq_trans (ap_same_ledger _ _ Ha) Hl1)).
  destruct (contribution_shrinks r (update_columns (pgw_intent w) r) scope dir u); rewrite ?Heq; try done.
  { intros Hheld. destruct Hres as [[_ Hsame]|(_ & ? & Hrel & _)]; congruence. }
  lia.
Qed.

(** An unconfirmed merchant hint only schedules reconciliation: it posts
    nothing, keeps the reservation and every financial field, sets no
    transaction hash, and leaves all usages as they were. *)
Lemma record_outbound_evidence_inert w d i d' :
  record_outbound_evidence w d = Ok (Inserted i, d') ->
  t_ledger d' = t_ledger d /\ pi_status i = PendingSettlement /\ pi_reservation_status i = Reserved
  /\ (forall scope dir u day now,
        (scenario_usage d' scope dir u day now <= scenario_usage d scope dir u day now)%N
        /\ (wallet_usage d' scope dir u day now <= wallet_usage d scope dir u day now)%N)
  /\ exists r, t_intent d !! pi_id i = Some r /\ pi_tx_hash i = pi_tx_hash (ir_intent r)
       /\ pi_settled_amount i = pi_settled_amount (ir_intent r)
       /\ pi_reserved_amount i = pi_reserved_amount (ir_intent r)
       /\ pi_reservation_status (ir_intent r) = Reserved.
Proof.
  intros (-> & r & d1 & u1 & u2 & Hr & Hv & Hu & Ha)%record_outbound_evidence_shape.
  apply validate_outbound_evidence_transition_ok in Hv as (_ & _ & Hst & Hres & Hres0 & Hra & Hs & Ht & _).
  apply update_intent_row in Hu as (r1 & Hr1 & Hi1 & Heq & Hl1 & _ & Hid & _).
  rewrite Hr in Hr1. injection Hr1 as <-. apply append_side_effects_appended in Ha.
  rewrite (ap_same_ledger _ _ Ha), Hl1. split_and!; try done; [|exists r; done].
  intros scope dir u day now.
  destruct (usage_replace d d' _ r _ scope dir u day now Hr
              (eq_trans (ap_same_intent _ _ Ha) Hi1) (eq_trans (ap_same_ledger _ _ Ha) Hl1)).
  destruct (contribution_shrinks r (update_columns (ow_intent w) r) scope dir u); rewrite ?Heq; try done.
  lia.
Qed.

Lemma evidence_event_find d e intent_id :
  events_ok (t_event d) -> t_event d !! ev_id e = Some e -> ev_intent_id e = intent_id ->
  ev_event_type e = EvSubmitted -> ev_attempt_no e = 0%N ->
  load_outbound_evidence_event intent_id d = Ok (Some e, d).
Proof.
  intros Hok Hk Hi Ht Hn. unfold load_outbound_evidence_event, treads. do 2 f_equal.
  apply (fetch_optional_unique _ _ _ _ Hk).
  - by rewrite Hi, Ht, Hn, !bool_decide_true.
  - intros k' y Hk' Hy. bool_inv. assert (k' = ev_id e) as ->; [|congruence].
    apply (events_unique _ Hok _ _ _ _ Hk' Hk). unfold event_same_key.
    rewrite !andb_true_iff, !bool_decide_eq_true. split_and!; congruence.
Qed.

Lemma evidence_event_after w d i d' :
  db_ok d -> record_outbound_evidence w d = Ok (Inserted i, d') ->
  load_outbound_evidence_event (pi_id i) d' = Ok (Some (ow_event w), d')
  /\ outbound_evidence_replay_matches (ow_event w) (pi_id i) (ow_evidence_hash w) = true.
Proof.
  intros Hdb Hrec. destruct (fl_db _ _ (record_outbound_evidence_flow _ _ _ _ Hrec) Hdb) as (Hdb' & _).
  apply record_outbound_evidence_shape in Hrec as (-> & r & d1 & u1 & u2 & Hr & Hv & Hu & Ha).
  apply validate_outbound_evidence_transition_ok in Hv as (_ & Hid & _ & _ & _ & _ & _ & _ & Hei & Hm).
  apply same_immutable_identity_spec in Hid as [Hid _]. rewrite Hid in *.
  assert (events_ok (t_event d1)) as Hev.
  { apply update_intent_row in Hu as (? & _ & _ & _ & _ & -> & _). apply Hdb. }
  pose proof (append_side_effects_stored _ _ _ _ _ Hev Ha (ow_event w) ltac:(left)) as Hst.
  split; [|done]. unfold outbound_evidence_replay_matches in Hm. bool_inv.
  by apply evidence_event_find; [apply Hdb'|..].
Qed.

Lemma replay_matches_hash e id h h2 :
  outbound_evidence_replay_matches e id h = true ->
  outbound_evidence_replay_matches e id h2 = (jget_str "evidence_hash" (ev_payload e) == Some h2).
Proof. unfold outbound_evidence_replay_matches. intros [Hm _]%andb_true_iff. by rewrite Hm. Qed.

(** One intent accepts one merchant hint: repeating it is a replay that
    changes nothing, and any other hint for the intent is a conflict. *)
Lemma record_outbound_evidence_once w d i d' w2 :
  db_ok d -> record_outbound_evidence w d = Ok (Inserted i, d') -> ow_intent w2 = i ->
  transaction (record_outbound_evidence w2) d'
  = (if jget_str "evidence_hash" (ev_payload (ow_event w)) == Some (ow_evidence_hash w2)
     then Ok (Replayed i)
     else Err (PaymentConflict "outbound merchant evidence has different content"), d').
Proof.
  intros Hdb Hrec Hi. destruct (evidence_event_after _ _ _ _ Hdb Hrec) as [Hload Hm].
  pose proof (record_outbound_evidence_shape _ _ _ _ Hrec) as (Hiw & r & d1 & u1 & u2 & Hr & _ & Hu & Ha).
  assert (exists r', t_intent d' !! pi_id i = Some r' /\ ir_intent r' = i) as (r' & Hr' & Hri).
  { apply update_intent_row in Hu as (r1 & _ & Hi1 & Heq & _).
    rewrite (ap_same_intent _ _ (append_side_effects_appended _ _ _ _ _ Ha)), Hi1, lookup_insert_eq. eauto. }
  assert (lock_intent_financial_scope i d' = Ok (tt, d')) as Hlock.
  { unfold record_outbound_evidence in Hrec. apply tbind_ok in Hrec as ([] & s & Hl & _). rewrite <- Hiw in Hl.
    destruct (fl_catalog _ _ (update_intent_flow _ _ _ _ _ _ Hu)) as (_ & Hs1 & _ & Hw1 & _).
    destruct (ap_same_catalog _ _ (append_side_effects_appended _ _ _ _ _ Ha)) as (_ & Hs2 & _ & Hw2 & _).
    eapply lock_scope_same_tables; [| |exact Hl]; congruence. }
  assert (load_or (load_intent (pi_id i)) (intent_not_found (pi_id i)) d' = Ok (i, d')) as Hex.
  { apply load_or_ok. unfold load_intent, treads. by rewrite Hr', <- Hri. }
  unfold transaction, record_outbound_evidence. rewrite Hi.
  rewrite (tbind_run _ _ _ _ _ Hlock), (tbind_run _ _ _ _ _ Hex), (tbind_run _ _ _ _ _ Hload).
  rewrite (replay_matches_hash _ _ _ (ow_evidence_hash w2) Hm). by case_bool_decide.
Qed.

Lemma verify_incoming_shape w d i d' :
  verify_incoming w d = Ok (i, d') ->
  let h := cr_credential_hash (vw_credential w) in
  i = vw_intent w /\ pi_direction i = Inbound /\ pi_challenge_hash i = Some (cr_challenge_hash (vw_credential w))
  /\ exists r d1 d2 u1 u2,
    t_intent d !! pi_id i = Some r /\ ir_credential_hash r = None
    /\ update_intent i (vw_expected_updated_at w) RmUnchanged d = Ok (u1, d1)
    /\ d2 = set_intent <[pi_id i := set_credential h (update_columns i r)]> d1
    /\ intent_unique d1 (set_credential h (update_columns i r)) = true
    /\ append_side_effects (vw_events w) (vw_outbox w) d2 = Ok (u2, d').
Proof.
  unfold verify_incoming, bind_credential_transition. intros Hv. run_inv. intent_loads. bool_inv.
  match goal with He : expect_one _ _ _ = Ok _ |- _ => apply expect_one_ok in He as [-> ->] end.
  match goal with Hs : sql_update_intent _ _ _ _ _ = Ok _ |- _ =>
    apply sql_update_intent_ok in Hs as [[? _]|(r1 & _ & Hr1 & _ & _ & Hu1 & ->)]; [done|] end.
  match goal with Hu : update_intent _ _ _ _ = Ok _ |- _ =>
    pose proof (update_intent_row _ _ _ _ _ _ Hu) as (r & Hr & Hi1 & _) end.
  rewrite Hi1, lookup_insert_eq in Hr1. injection Hr1 as <-.
  split_and!; try done.
  exists r. do 4 eexists. split_and!; try eassumption; try reflexivity.
  match goal with Hn : is_some _ = false |- _ => rewrite Hr in Hn; by destruct (ir_credential_hash r) end.
Qed.

(** A credential pays once: verification binds it to an inbound challenge
    that had none, and in every later state, whatever transactions follow, the
    intent still holds it, no other inbound intent of the same protocol does,
    and a second verification of that intent fails whatever credential it
    brings. *)
Lemma verify_incoming_binds_once w d i d' d2 :
  db_ok d -> verify_incoming w d = Ok (i, d') -> flow d' d2 ->
  let h := cr_credential_hash (vw_credential w) in
  (exists r, t_intent d !! pi_id i = Some r /\ ir_credential_hash r = None)
  /\ (exists r', t_intent d2 !! pi_id i = Some r' /\ same_immutable_identity_as i (ir_intent r') = true
        /\ ir_credential_hash r' = Some h)
  /\ (forall k r, t_intent d2 !! k = Some r -> pi_protocol (ir_intent r) = pi_protocol i ->
        pi_direction (ir_intent r) = Inbound -> ir_credential_hash r = Some h -> k = pi_id i)
  /\ (forall w2, pi_id (vw_intent w2) = pi_id i -> exists e, verify_incoming w2 d2 = Err e).
Proof.
  intros Hdb Hver Hlater h. pose proof (verify_incoming_flow _ _ _ _ Hver) as Hfl.
  destruct (fl_db _ _ Hfl Hdb) as (Hdb' & _). destruct (fl_db _ _ Hlater Hdb') as (Hdb2 & _ & _ & Hev & _).
  apply verify_incoming_shape in Hver as (-> & Hin & _ & r & d1 & dm & u1 & u2 & Hr & Hn & Hu & -> & _ & Ha).
  apply update_intent_row in Hu as (r1 & Hr1 & Hi1 & Heq & _). rewrite Hr in Hr1. injection Hr1 as <-.
  apply append_side_effects_appended in Ha. pose proof (ap_same_intent _ _ Ha) as Hi. simpl in Hi.
  destruct (Hev (pi_id (vw_intent w)) (set_credential h (update_columns (vw_intent w) r))) as (row & Hrow & E);
    [rewrite Hi; apply lookup_insert_eq|].
  pose proof (re_credential _ _ E ltac:(done)) as Hcred. simpl in Hcred.
  pose proof (re_identity _ _ E) as Hid.
  change (ir_intent (set_credential h (update_columns (vw_intent w) r)))
    with (ir_intent (update_columns (vw_intent w) r)) in Hid. rewrite Heq in Hid.
  pose proof Hid as Hid'. apply same_immutable_identity_iff in Hid' as (_ & _ & _ & _ & _ & _ & Hdir & Hproto & _).
  split; [by exists r|]. split; [by exists row|]. split.
  - intros k r2 Hk Hp Hd Hc. destruct (decide (k = pi_id (vw_intent w))) as [|Hne]; [done|exfalso].
    pose proof (intents_unique _ (db_intents _ Hdb2) _ _ _ _ Hk Hrow Hne) as Hcol.
    apply not_true_iff_false in Hcol. apply Hcol. unfold intent_collision.
    rewrite !orb_true_iff, !andb_true_iff, !bool_decide_eq_true. left; right. rewrite Hc. split_and!; first [reflexivity|congruence].
  - intros w2 Hid2. destruct (verify_incoming w2 d2) as [[i2 d3]|e] eqn:Hv2; [|eauto].
    apply verify_incoming_shape in Hv2 as (-> & _ & _ & r2 & _ & _ & _ & _ & Hr2 & Hn2 & _).
    rewrite Hid2, Hrow in Hr2. injection Hr2 as <-. congruence.
Qed.

(** No lost updates and no double settlement: after a settlement commits,
    another settlement or progress of the same intent prepared against the
    same revision fails, and it changes nothing. *)
Lemma settlement_revision_conflict w d i d' w2 w3 :
  db_ok d -> commit_settlement w d = Ok (i, d') ->
  pi_id (sw_intent w2) = pi_id i -> sw_expected_updated_at w2 = sw_expected_updated_at w ->
  pi_id (pgw_intent w3) = pi_id i -> pgw_expected_updated_at w3 = sw_expected_updated_at w ->
  (exists e, transaction (commit_settlement w2) d' = (Err e, d'))
  /\ (exists e, transaction (commit_progress w3) d' = (Err e, d')).
Proof.
  intros Hdb (-> & r & d1 & u1 & d2 & u2 & u3 & Hr & _ & _ & Hu & Ha)%commit_settlement_shape Hid2 He2 Hid3 He3.
  apply update_intent_row in Hu as (r1 & _ & Hi2 & Heq & _ & _ & _ & _ & Hlt & _).
  apply append_side_effects_appended in Ha.
  assert (t_intent d' !! pi_id (sw_intent w) = Some (update_columns (sw_intent w) r1)) as Hrow
    by (rewrite (ap_same_intent _ _ Ha), Hi2; apply lookup_insert_eq).
  split.
  - destruct (commit_settlement w2 d') as [[i2 d3]|e] eqn:Hc; [exfalso|exists e; by apply transaction_err].
    apply commit_settlement_shape in Hc as (-> & r2 & _ & _ & _ & _ & _ & Hr2 & Hv & _).
    rewrite Hid2, Hrow in Hr2. injection Hr2 as <-.
    apply validate_settlement_transition_ok in Hv as [Hup _]. rewrite Heq in Hup. lia.
  - destruct (commit_progress w3 d') as [[i2 d3]|e] eqn:Hc; [exfalso|exists e; by apply transaction_err].
    apply commit_progress_shape in Hc as (-> & r2 & m & _ & _ & _ & Hr2 & Hv & _).
    rewrite Hid3, Hrow in Hr2. injection Hr2 as <-.
    apply validate_progress_transition_ok in Hv as [Hup _]. rewrite Heq in Hup. lia.
Qed.
End Properties.

(** ** Leases *)

Definition leased (until : Z) (c : ReconciliationClaim) (d : DB) : Prop :=
  exists r, t_intent d !! pi_id (rc_intent c) = Some r /\ ir_intent r = rc_intent c
            /\ ir_lease_expires_at r = Some until /\ ir_reconcile_attempts r = rc_attempt_no c.

Lemma claim_one_ok q id d c d' :
  claim_one q id d = Ok (c, d') ->
  exists r, t_intent d !! id = Some r /\ reconciliation_due (rl_now q) r = true
    /\ rc_intent c = ir_intent r /\ rc_attempt_no c = (ir_reconcile_attempts r + 1)%N
    /\ (rc_attempt_no c <= U32_MAX)%N
    /\ d' = set_intent <[id := set_reconciliation_lease (rl_owner q) (rl_lease_until q) r]> d.
Proof.
  unfold claim_one. intros Hc. run_inv.
  match goal with He : expect_one _ _ _ = Ok _ |- _ => apply expect_one_ok in He as [-> ->] end.
  match goal with Hs : sql_update_intent _ _ _ _ _ = Ok _ |- _ =>
    apply sql_update_intent_ok in Hs as [[? _]|(r & _ & Hr & Hg & _ & _ & ->)]; [done|] end.
  match goal with Hl : load_or _ _ _ = Ok _ |- _ => apply load_or_ok in Hl; run_inv end.
  simpl in *. rewrite lookup_insert_eq in *. simplify_eq/=. bool_inv. exists r. split_and!; try done. lia.
Qed.

Lemma reconciliation_due_lease now r until :
  ir_lease_expires_at r = Some until -> (now < until)%Z -> reconciliation_due now r = false.
Proof.
  intros Hl Hlt. unfold reconciliation_due. rewrite Hl. simpl.
  rewrite (proj2 (Z.leb_gt until now)) by done. apply andb_false_r.
Qed.

(** A held lease survives the rest of the batch. *)
Lemma tmapM_claim_keeps q ids d cs d' until c :
  leased until c d -> (rl_now q < until)%Z -> tmapM (claim_one q) ids d = Ok (cs, d') -> leased until c d'.
Proof.
  intros (r & Hr & Hir & Hl & Hn) Hlt. revert d cs Hr.
  induction ids as [|id ids IH]; intros d cs Hr Hm; simpl in Hm; run_inv; [by exists r|].
  match goal with Hc : claim_one _ _ _ = Ok _ |- _ =>
    apply claim_one_ok in Hc as (r1 & Hr1 & Hdue & _ & _ & _ & ->) end.
  eapply IH; [|eassumption]. simpl. rewrite lookup_insert_ne; [done|]. intros ->. simplify_eq.
  by rewrite (reconciliation_due_lease _ _ _ Hl Hlt) in Hdue.
Qed.

Lemma tmapM_claim_leased q ids d cs d' :
  db_ok d -> (rl_now q < rl_lease_until q)%Z -> tmapM (claim_one q) ids d = Ok (cs, d') ->
  forall c, c ∈ cs -> leased (rl_lease_until q) c d'.
Proof.
  intros Hdb Hlt. revert d cs Hdb. induction ids as [|id ids IH]; intros d cs Hdb Hm c Hc; simpl in Hm; run_inv.
  { inversion Hc. }
  match goal with Hone : claim_one _ _ _ = Ok _ |- _ =>
    pose proof (claim_one_flow _ _ _ _ _ Hone) as Hfl;
    apply claim_one_ok in Hone as (r1 & Hr1 & Hdue & Hi & Hn & _ & ->) end.
  destruct (fl_db _ _ Hfl Hdb) as (Hdb1 & _).
  apply elem_of_cons in Hc as [->|Hc]; [|by eapply IH].
  eapply tmapM_claim_keeps; [|exact Hlt|eassumption].
  eexists. rewrite Hi. simpl. rewrite (intents_keyed _ (db_intents _ Hdb) _ _ Hr1), lookup_insert_eq.
  split_and!; done.
Qed.

Lemma claim_reconciliation_selected q d cs d' :
  claim_reconciliation q d = Ok (cs, d') ->
  (rl_now q < rl_lease_until q)%Z
  /\ exists ids, tmapM (claim_one q) ids d = Ok (cs, d')
      /\ (length ids <= N.to_nat (rl_limit q))%nat
      /\ forall id, id ∈ ids ->
           exists k r, t_intent d !! k = Some r /\ id = pi_id (ir_intent r) /\ reconciliation_due (rl_now q) r = true.
Proof.
  unfold claim_reconciliation. intros Hc. run_inv. bool_inv. split; [done|]. eexists. split; [eassumption|]. split.
  - rewrite length_map, firstn_length. lia.
  - intros id Hid. apply list_elem_of_In, in_map_iff in Hid as (r & <- & Hr).
    apply list_elem_of_In in Hr.
    assert (r ∈ order_by reconcile_before (select (reconciliation_due (rl_now q)) (t_intent d))) as Hin
      by (rewrite <- (firstn_skipn (N.to_nat (rl_limit q))); apply elem_of_app; by left).
    apply elem_of_order_by, elem_of_select in Hin as [Hdue [k Hk]]. eauto.
Qed.

Lemma tmapM_claim_ids q ids d cs d' :
  db_ok d -> tmapM (claim_one q) ids d = Ok (cs, d') -> map (fun c => pi_id (rc_intent c)) cs = ids.
Proof.
  revert d cs. induction ids as [|id ids IH]; intros d cs Hdb Hm; simpl in Hm; run_inv; [done|].
  match goal with Hone : claim_one _ _ _ = Ok _ |- _ =>
    pose proof (claim_one_flow _ _ _ _ _ Hone) as Hfl;
    apply claim_one_ok in Hone as (r1 & Hr1 & Hdue & Hi & _) end.
  destruct (fl_db _ _ Hfl Hdb) as (Hdb1 & _). simpl. f_equal; [|by eapply IH].
  rewrite Hi. by apply (intents_keyed _ (db_intents _ Hdb)).
Qed.

(** A reconciliation lease is exclusive: work claimed until some time is
    not handed to any worker that claims before that time, each claim carries
    a fresh attempt number recorded with the lease, and a batch never exceeds
    its limit. *)
Lemma claim_reconciliation_exclusive q1 q2 d cs1 d1 cs2 d2 :
  db_ok d -> claim_reconciliation q1 d = Ok (cs1, d1) -> claim_reconciliation q2 d1 = Ok (cs2, d2) ->
  (rl_now q2 < rl_lease_until q1)%Z ->
  (length cs1 <= N.to_nat (rl_limit q1))%nat
  /\ (forall c, c ∈ cs1 -> leased (rl_lease_until q1) c d1)
  /\ forall c1 c2, c1 ∈ cs1 -> c2 ∈ cs2 -> pi_id (rc_intent c1) <> pi_id (rc_intent c2).
Proof.
  intros Hdb Hc1 Hc2 Hlt.
  destruct (fl_db _ _ (claim_reconciliation_flow _ _ _ _ Hc1) Hdb) as (Hdb1 & _).
  apply claim_reconciliation_selected in Hc1 as (Hlt1 & ids1 & Hm1 & Hlen & _).
  apply claim_reconciliation_selected in Hc2 as (_ & ids2 & Hm2 & _ & Hsel2).
  pose proof (tmapM_claim_leased _ _ _ _ _ Hdb Hlt1 Hm1) as Hleased.
  apply tmapM_claim_ids in Hm1; [|done]. apply tmapM_claim_ids in Hm2; [|done]. split_and!.
  - by rewrite <- Hm1, length_map in Hlen.
  - done.
  - intros c1 c2 H1 H2 Heq. destruct (Hleased c1 H1) as (r & Hr & _ & Hl & _).
    assert (pi_id (rc_intent c2) ∈ ids2) as Hin.
    { rewrite <- Hm2. apply list_elem_of_In, in_map_iff. exists c2. rewrite <- list_elem_of_In. done. }
    destruct (Hsel2 _ Hin) as (k & r2 & Hk & Hid & Hdue).
    rewrite Heq, Hid, (intents_keyed _ (db_intents _ Hdb1) _ _ Hk), Hk in Hr. injection Hr as <-.
    by rewrite (reconciliation_due_lease _ _ _ Hl Hlt) in Hdue.
Qed.

(** ** Witnesses *)

#[local] Existing Instance Sample.codec.
