(* ===== verification/ApprovalStore.v ===== *)
(** * Approval transactions

    [ApprovalStorageRules] of [src/src/storage/approval/mod.rs] and the
    transactions of [src/src/storage/approval/transactions.rs]: requesting,
    deciding, consuming and expiring an approval. *)

From S2P Require Import Prelude Text Money Json Wallet Intent Policy Ledger Records Store LedgerStore PaymentRules Budget PaymentStore.

#[local] Open Scope string_scope.
#[local] Open Scope vault_scope.

Record ApprovalWrite : Type := {
  dw_decision : ApprovalDecision;
  dw_grant : option ApprovalGrant;
  dw_intent_transition : option (PaymentIntent * Z);
  dw_event : PaymentEvent;
  dw_outbox : list OutboxMessage
}.

Record ApprovalConsumption : Type := {
  cn_grant : VerifiedApprovalGrant;
  cn_intent : PaymentIntent;
  cn_origin : string;
  cn_day_started_at : Z;
  cn_evaluated_at : Z;
  cn_expected_intent_updated_at : Z;
  cn_consumed_at : Z;
  cn_event : PaymentEvent;
  cn_outbox : list OutboxMessage
}.

(** ** Rules *)

(** [ApprovalStorageRules::expiry_event] *)
Definition expiry_event (a : ApprovalRequest) (i : PaymentIntent) (now : Z) : PaymentEvent :=
  {| ev_id := "approval-expired:" ++ ap_id a; ev_intent_id := pi_id i; ev_event_type := EvFailed;
     ev_attempt_no := 0; ev_signature_ref := None; ev_tx_hash := None;
     ev_payload := jobject [("reason", JString "approval_expired"); ("approval_id", JString (ap_id a))];
     ev_created_at := now |}.

(** [ApprovalStorageRules::expiry_outbox] *)
Definition expiry_outbox (a : ApprovalRequest) (i : PaymentIntent) (now : Z) : OutboxMessage :=
  {| ob_id := "approval-expired:" ++ ap_id a; ob_aggregate_type := "payment_intent"; ob_aggregate_id := pi_id i;
     ob_event_type := "approval_expired"; ob_destination := "scenario:" ++ pi_scenario_id i ++ ".payments";
     ob_run_id := pi_run_id i;
     ob_payload := jobject [("intent_id", JString (pi_id i)); ("approval_id", JString (ap_id a));
                            ("scenario_id", JString (pi_scenario_id i))];
     ob_status := ObPending; ob_attempt_count := 0; ob_available_at := now; ob_lease_owner := None;
     ob_lease_expires_at := None; ob_last_error := None; ob_created_at := now; ob_delivered_at := None |}.

(** [ApprovalStorageRules::validate_grant] *)
Definition validate_grant (a : ApprovalRequest) (i : PaymentIntent) (dec : ApprovalDecision) (g : ApprovalGrant)
  : Result Error unit :=
  let c := ag_claims g in
  map_err (fun field => conflict ("approval JWT claim " ++ field ++ " is invalid")) (ApprovalGrantClaims_validate c) ;?
  reject_if ((gc_approval_id c != ap_id a)
             || (gc_intent_id c != ap_intent_id a)
             || (gc_intent_hash c != ap_intent_hash a)
             || (gc_intent_hash c != pi_request_hash i)
             || (Some (gc_amount c) != ad_approved_amount dec)
             || (gc_approver c != ad_approved_by dec)
             || (gc_iat c != ad_decided_at dec)
             || (ap_expires_at a <? gc_exp c)%Z
             || negb (str_len (ag_claims_hash g) =? 64)%N)
            (conflict "approval JWT is not bound to the decision and intent").

(** [ApprovalStorageRules::validate_verified_grant] *)
Definition validate_verified_grant (a : ApprovalRequest) (i : PaymentIntent) (g : VerifiedApprovalGrant) (now : Z)
  : Result Error unit :=
  let c := vg_claims g in
  reject_if ((ap_status a != ApApproved)
             || (ap_expires_at a <=? now)%Z
             || (gc_exp c <=? now)%Z
             || (gc_approval_id c != ap_id a)
             || (gc_intent_id c != pi_id i)
             || (gc_intent_hash c != ap_intent_hash a)
             || (gc_intent_hash c != pi_request_hash i)
             || (ap_grant_jti a != Some (gc_jti c))
             || (ap_grant_claims_hash a != Some (vg_claims_hash g))
             || (ap_approved_amount a != Some (gc_amount c))
             || (ap_approved_by a != Some (gc_approver c))
             || (ap_requested_amount a != pi_amount i)
             || (gc_amount c != pi_amount i)
             || (pi_direction i != Outbound)
             || (pi_status i != Authorized)
             || (pi_reservation_status i != Reserved)
             || (pi_reserved_amount i != pi_amount i))
            (conflict "verified approval JWT does not match stored authorization state").

(** ** Column updates *)

Definition approval_with (a : ApprovalRequest) (approved_amount : option Amount) (approved_by : option string)
    (status : ApprovalStatus) (jti claims_hash : option string) (sealed : option SealedSensitiveMaterial)
    (expires_at : Z) (consumed_at approved_at : option Z) : ApprovalRequest :=
  {| ap_id := ap_id a; ap_intent_id := ap_intent_id a; ap_run_id := ap_run_id a;
     ap_requested_amount := ap_requested_amount a; ap_approved_amount := approved_amount;
     ap_requested_by := ap_requested_by a; ap_approved_by := approved_by; ap_status := status;
     ap_intent_hash := ap_intent_hash a; ap_grant_jti := jti; ap_grant_claims_hash := claims_hash;
     ap_sealed_grant_token := sealed; ap_expires_at := expires_at; ap_consumed_at := consumed_at;
     ap_created_at := ap_created_at a; ap_approved_at := approved_at |}.

Definition approved_columns (g : ApprovalGrant) (decided_at : Z) (a : ApprovalRequest) : ApprovalRequest :=
  approval_with a (Some (gc_amount (ag_claims g))) (Some (gc_approver (ag_claims g))) ApApproved
    (Some (gc_jti (ag_claims g))) (Some (ag_claims_hash g)) (Some (ag_sealed_token g)) (gc_exp (ag_claims g))
    (ap_consumed_at a) (Some decided_at).
Definition rejected_columns (approved_by : string) (decided_at : Z) (a : ApprovalRequest) : ApprovalRequest :=
  approval_with a (ap_approved_amount a) (Some approved_by) ApRejected (ap_grant_jti a) (ap_grant_claims_hash a)
    (ap_sealed_grant_token a) (ap_expires_at a) (ap_consumed_at a) (Some decided_at).
Definition consumed_columns (consumed_at : Z) (a : ApprovalRequest) : ApprovalRequest :=
  approval_with a (ap_approved_amount a) (ap_approved_by a) ApConsumed (ap_grant_jti a) (ap_grant_claims_hash a)
    (ap_sealed_grant_token a) (ap_expires_at a) (Some consumed_at) (ap_approved_at a).
Definition expired_columns (a : ApprovalRequest) : ApprovalRequest :=
  approval_with a (ap_approved_amount a) (ap_approved_by a) ApExpired (ap_grant_jti a) (ap_grant_claims_hash a)
    (ap_sealed_grant_token a) (ap_expires_at a) (ap_consumed_at a) (ap_approved_at a).

(** ** Transactions *)

(** [IApprovalRepository::request] *)
Definition request_approval (a : ApprovalRequest) : Tx DB (IdempotentWrite ApprovalRequest) :=
  let* found := treads (fun d => select (fun x => (ap_id x == ap_id a)
                                   || ((ap_intent_id x == ap_intent_id a) && is_active_approval x)) (t_approval d)) in
  match found with
  | [] =>
      tlift (reject_if ((ap_status a != ApPending) || is_some (ap_approved_amount a) || is_some (ap_approved_by a)
                        || has_persisted_grant a || is_some (ap_consumed_at a) || is_some (ap_approved_at a))
                       (InvalidRequest "new approval request must have a pending lifecycle")) ;*
      insert_approval_request a ;*
      tret (Inserted a)
  | [x] => if x == a then tret (Replayed x)
           else tfail (conflict "approval request identity is bound to different content")
  | _ => tfail (conflict "approval identifiers collide with multiple rows")
  end.

(** [get_active_for_intent] *)
Definition get_active_for_intent (intent_id : string) : Tx DB (option ApprovalRequest) :=
  treads (fun d => fetch_optional (fun a => (ap_intent_id a == intent_id) && is_active_approval a) (t_approval d)).

Definition load_approval (id : string) : Tx DB ApprovalRequest :=
  load_or (treads (fun d => t_approval d !! id)) (NotFound ("payment approval " ++ id)).

(** The approve and reject branches of [decide]. *)
Definition decide_approve (w : ApprovalWrite) (a : ApprovalRequest) (i : PaymentIntent) : Tx DB ApprovalRequest :=
  let dec := dw_decision w in
  let* g := tlift (ok_or (dw_grant w) (conflict "approval decision is missing its JWT grant")) in
  tlift (validate_grant a i dec g) ;*
  tlift (reject_if (is_some (dw_intent_transition w))
                   (conflict "approval decision cannot carry a rejection transition")) ;*
  let* changed := sql_update_approval (ap_id a)
                    (fun x => (ap_status x == ApPending) && (ad_decided_at dec <? ap_expires_at x)%Z)
                    (approved_columns g (ad_decided_at dec)) (conflict "approval grant update rejected") in
  expect_one changed (conflict "approval decision lost its pending-state compare-and-swap") ;*
  tret (approved_columns g (ad_decided_at dec) a).

Definition decide_reject (w : ApprovalWrite) (a : ApprovalRequest) : Tx DB ApprovalRequest :=
  let dec := dw_decision w in
  tlift (reject_if (is_some (dw_grant w)) (conflict "rejected decision cannot carry an approval grant")) ;*
  let* transition := tlift (ok_or (dw_intent_transition w)
                                  (conflict "rejected decision is missing its intent transition")) in
  update_intent (fst transition) (snd transition) RmUnchanged ;*
  let* changed := sql_update_approval (ap_id a)
                    (fun x => (ap_status x == ApPending) && (ad_decided_at dec <? ap_expires_at x)%Z)
                    (rejected_columns (ad_approved_by dec) (ad_decided_at dec))
                    (conflict "approval rejection update rejected") in
  expect_one changed (conflict "approval rejection lost its pending-state compare-and-swap") ;*
  tret (rejected_columns (ad_approved_by dec) (ad_decided_at dec) a).

(** [IApprovalRepository::decide] *)
Definition decide_approval (w : ApprovalWrite) : Tx DB ApprovalRequest :=
  let dec := dw_decision w in
  let* a := load_approval (ad_approval_id dec) in
  tlift (map_err (fun reason => conflict ("approval decision is invalid: " ++ reason))
                 (validate_decision a dec (ad_decided_at dec))) ;*
  let* i := load_or (load_intent (ap_intent_id a)) (Storage "load approval payment intent") in
  tlift (reject_if ((ap_intent_hash a != pi_request_hash i) || (ev_intent_id (dw_event w) != pi_id i))
                   (conflict "approval no longer matches its immutable payment intent")) ;*
  let* persisted := match ad_decision dec with
                    | Approve => decide_approve w a i
                    | Reject => decide_reject w a
                    end in
  insert_event (dw_event w) ;*
  tfor insert_outbox (dw_outbox w) ;*
  tret persisted.

Section Consume.
Context `{SolanaPubkey}.

(** [IApprovalRepository::consume_and_reserve] *)
Definition consume_and_reserve (c : ApprovalConsumption) : Tx DB PaymentIntent :=
  let g := cn_grant c in
  let i := cn_intent c in
  let* a := load_approval (gc_approval_id (vg_claims g)) in
  tlift (validate_verified_grant a i g (cn_evaluated_at c)) ;*
  validate_current_payment_scope i (Some (cn_origin c)) ;*
  enforce_budget i (cn_day_started_at c) (cn_evaluated_at c) true ;*
  let* changed := sql_update_approval (ap_id a)
                    (fun x => (ap_status x == ApApproved) && (ap_grant_jti x == Some (gc_jti (vg_claims g)))
                              && (ap_grant_claims_hash x == Some (vg_claims_hash g))
                              && (cn_evaluated_at c <? ap_expires_at x)%Z)
                    (consumed_columns (cn_consumed_at c)) (conflict "approval grant consumption rejected") in
  expect_one changed (conflict "approval grant was already consumed or expired") ;*
  update_intent i (cn_expected_intent_updated_at c) RmApprovalReserve ;*
  append_side_effects [cn_event c] (cn_outbox c) ;*
  tret i.
End Consume.

Definition approval_due (now : Z) (a : ApprovalRequest) : bool :=
  is_active_approval a && (ap_expires_at a <=? now)%Z.
(** [ORDER BY expires_at, created_at, id] *)
Definition expiry_before (a b : ApprovalRequest) : bool :=
  (ap_expires_at a <? ap_expires_at b)%Z
  || ((ap_expires_at a =? ap_expires_at b)%Z
      && ((ap_created_at a <? ap_created_at b)%Z
          || ((ap_created_at a =? ap_created_at b)%Z && negb (str_ltb (ap_id b) (ap_id a))))).

(** The intent an expiring approval leaves behind. *)
Definition expired_intent (now : Z) (i : PaymentIntent) : PaymentIntent :=
  {| pi_id := pi_id i; pi_scenario_id := pi_scenario_id i; pi_run_id := pi_run_id i;
     pi_wallet_id := pi_wallet_id i; pi_policy_id := pi_policy_id i; pi_price_id := pi_price_id i;
     pi_direction := pi_direction i; pi_protocol := pi_protocol i; pi_asset := pi_asset i;
     pi_recipient := pi_recipient i; pi_amount := pi_amount i; pi_settled_amount := pi_settled_amount i;
     pi_resource := pi_resource i; pi_challenge_hash := pi_challenge_hash i;
     pi_request_hash := pi_request_hash i; pi_status := Expired;
     pi_reservation_status := pi_reservation_status i; pi_reserved_amount := pi_reserved_amount i;
     pi_tx_hash := pi_tx_hash i; pi_settlement_ref := pi_settlement_ref i;
     pi_next_reconcile_at := pi_next_reconcile_at i; pi_created_at := pi_created_at i;
     pi_updated_at := Z.max now (i64_saturating_add (pi_updated_at i) 1); pi_expires_at := pi_expires_at i;
     pi_settled_at := pi_settled_at i |}.

(** One iteration of [expire_due]; [None] is the [continue]. *)
Definition expire_one (now : Z) (a : ApprovalRequest) : Tx DB (option ApprovalRequest) :=
  let* changed := sql_update_approval (ap_id a) (approval_due now) expired_columns (Storage "expire approval") in
  if changed != 1 then tret None else
  let* i := load_or (load_intent (ap_intent_id a)) (Storage "load expiring approval intent") in
  tlift (reject_if (pi_reservation_status i != Unreserved)
                   (Storage "expiring approval unexpectedly owns a payment reservation")) ;*
  update_intent (expired_intent now i) (pi_updated_at i) RmUnchanged ;*
  insert_event (expiry_event a (expired_intent now i) now) ;*
  insert_outbox (expiry_outbox a (expired_intent now i) now) ;*
  tret (Some (expired_columns a)).

(** [IApprovalRepository::expire_due] *)
Definition expire_due (now : Z) (limit : N) : Tx DB (list ApprovalRequest) :=
  tlift (reject_if ((now <? 0)%Z || (limit =? 0)%N) (InvalidRequest "invalid approval expiry batch")) ;*
  let* due := treads (fun d => firstn (N.to_nat limit)
                                 (order_by expiry_before (select (approval_due now) (t_approval d)))) in
  let* expired := tmapM (expire_one now) due in
  tret (omap id expired).
