(* ===== verification/ApprovalSafety.v ===== *)
(** * Approval safety

    What the approval transactions of [ApprovalStore] guarantee: decisions are
    made once and never exceed the request, a grant is consumed once and only
    within the hard limits, and expiry closes approvals without touching money.
    The rejection branch does not check which payment its transition is for. *)

From S2P Require Import Prelude Text Money Json Wallet Intent Policy Ledger Records Store LedgerStore PaymentRules Budget PaymentStore Samples IntentFlow BudgetSafety Lifecycle ApprovalStore.

#[local] Open Scope string_scope.
#[local] Open Scope vault_scope.

(** ** Flow *)

Lemma approval_update_flow id guard f e d n d' :
  (forall x, t_approval d !! id = Some x -> guard x = true -> approval_evolves x (f x)) ->
  sql_update_approval id guard f e d = Ok (n, d') -> flow d d'.
Proof.
  intros Hev [[-> ->]|(a & -> & Ha & Hg & Hc & Hu & ->)]%sql_update_approval_ok; [done|].
  pose proof (Hev a Ha Hg) as E. destruct (ae_identity _ _ E) as (Hid & Hi & Hr & _ & Hh & _).
  apply approval_write_flow; try done.
  - intros Hdb. rewrite Hid. symmetry. by apply (approvals_keyed _ (db_approvals _ Hdb)).
  - intros Hdb. rewrite Hi, Hr, Hh. by eapply (db_approvals_bound _ Hdb).
  - intros old Hold. by simplify_eq.
Qed.

Lemma consumed_columns_evolves at_ a : ap_status a = ApApproved -> approval_evolves a (consumed_columns at_ a).
Proof. intros Hs. split; simpl; rewrite ?Hs; try done; lia. Qed.
Lemma expired_columns_evolves a : is_active_approval a = true -> approval_evolves a (expired_columns a).
Proof. unfold is_active_approval. intros Hs. split; simpl; try done; try lia; by destruct (ap_status a). Qed.
Lemma rejected_columns_evolves by_ at_ a : ap_status a = ApPending -> approval_evolves a (rejected_columns by_ at_ a).
Proof. intros Hs. split; simpl; rewrite ?Hs; try done; lia. Qed.
Lemma approved_columns_evolves g at_ a :
  ap_status a = ApPending -> (gc_exp (ag_claims g) <= ap_expires_at a)%Z -> approval_evolves a (approved_columns g at_ a).
Proof. intros Hs He. split; simpl; rewrite ?Hs; try done. Qed.

Lemma load_approval_ok id d a d' : load_approval id d = Ok (a, d') -> t_approval d !! id = Some a /\ d' = d.
Proof. unfold load_approval. intros Hl%load_or_ok. by run_inv. Qed.

Lemma request_approval_flow a d r d' : request_approval a d = Ok (r, d') -> flow d d'.
Proof.
  unfold request_approval. intros Hr. run_inv.
  match type of Hr with context [match ?l with _ => _ end] => destruct l as [|y [|? ?]] end; run_inv.
  - by eapply insert_approval_request_flow.
  - case_bool_decide; by run_inv.
Qed.

Lemma insert_event_flow e d w d' : insert_event e d = Ok (w, d') -> flow d d'.
Proof. intros Ha%insert_event_appended. by apply appended_flow. Qed.
Lemma insert_outbox_flow m d u d' : insert_outbox m d = Ok (u, d') -> flow d d'.
Proof. intros Ha%insert_outbox_appended. by apply appended_flow. Qed.
Lemma insert_outboxes_flow l d u d' : tfor insert_outbox l d = Ok (u, d') -> flow d d'.
Proof. intros Hf. eapply (tfor_rel flow); [|exact Hf]. intros. by eapply insert_outbox_flow. Qed.

Lemma decide_approve_ok w a i d p d' :
  t_approval d !! ap_id a = Some a -> decide_approve w a i d = Ok (p, d') ->
  exists g, dw_grant w = Some g /\ validate_grant a i (dw_decision w) g = Ok tt
    /\ ap_status a = ApPending /\ p = approved_columns g (ad_decided_at (dw_decision w)) a
    /\ d' = set_approval <[ap_id a := p]> d /\ flow d d'.
Proof.
  unfold decide_approve. intros Ha Hd. run_inv.
  match goal with He : expect_one _ _ _ = Ok _ |- _ => apply expect_one_ok in He as [-> ->] end.
  match goal with Hv : validate_grant _ _ _ ?g = Ok ?t |- _ => destruct t; exists g; pose proof Hv as Hv' end.
  unfold validate_grant in Hv'. run_inv. bool_inv.
  match goal with Hs : sql_update_approval _ _ _ _ _ = Ok _ |- _ =>
    pose proof Hs as Hfl; apply sql_update_approval_ok in Hs as [[? _]|(old & _ & Hx & Hg & _ & _ & ->)]; [done|];
    apply approval_update_flow in Hfl end.
  - rewrite Ha in Hx. injection Hx as <-. bool_inv. split_and!; done.
  - intros y Hy Hgy. rewrite Ha in Hy. injection Hy as <-. bool_inv. by apply approved_columns_evolves.
Qed.

Lemma decide_reject_ok w a d p d' :
  t_approval d !! ap_id a = Some a -> decide_reject w a d = Ok (p, d') ->
  exists i expected d1 u, dw_intent_transition w = Some (i, expected)
    /\ update_intent i expected RmUnchanged d = Ok (u, d1) /\ ap_status a = ApPending
    /\ p = rejected_columns (ad_approved_by (dw_decision w)) (ad_decided_at (dw_decision w)) a
    /\ d' = set_approval <[ap_id a := p]> d1 /\ flow d d'.
Proof.
  unfold decide_reject. intros Ha Hd. run_inv.
  match goal with He : expect_one _ _ _ = Ok _ |- _ => apply expect_one_ok in He as [-> ->] end.
  match goal with Ht : dw_intent_transition w = Some ?t |- _ => destruct t as [i expected]; simpl in * end.
  match goal with Hu : update_intent _ _ _ _ = Ok (_, ?d1) |- _ =>
    pose proof Hu as Hup; apply update_intent_ok in Hup as (r & _ & _ & _ & _ & _ & _ & _ & _ & _ & Hd1);
    assert (t_approval d1 = t_approval d) as Hsame by (by rewrite Hd1) end.
  match goal with Hs : sql_update_approval _ _ _ _ _ = Ok _ |- _ =>
    pose proof Hs as Hfl; apply sql_update_approval_ok in Hs as [[? _]|(old & _ & Hx & Hg & _ & _ & ->)]; [done|];
    apply approval_update_flow in Hfl end.
  - rewrite Hsame, Ha in Hx. injection Hx as <-. bool_inv. do 4 eexists. split_and!; try done.
    etrans; [by eapply update_intent_flow|done].
  - intros y Hy Hgy. rewrite Hsame, Ha in Hy. injection Hy as <-. bool_inv. by apply rejected_columns_evolves.
Qed.

Lemma decide_approval_shape w d p d' :
  decide_approval w d = Ok (p, d') ->
  exists a i d1, t_approval d !! ap_id a = Some a /\ ap_id a = ad_approval_id (dw_decision w)
    /\ validate_decision a (dw_decision w) (ad_decided_at (dw_decision w)) = Ok tt
    /\ match ad_decision (dw_decision w) with
       | Approve => decide_approve w a i d
       | Reject => decide_reject w a d
       end = Ok (p, d1)
    /\ appended d1 d'.
Proof.
  unfold decide_approval. intros Hd. run_inv.
  match goal with Hl : load_approval _ _ = Ok _ |- _ => apply load_approval_ok in Hl as [Ha ->] end.
  match goal with Hv : validate_decision ?x _ _ = Ok ?t |- _ => destruct t; pose proof Hv as Hv'; rename x into a end.
  unfold validate_decision in Hv'. run_inv. bool_inv.
  match goal with Hl : load_or (load_intent _) _ _ = Ok (?x, _) |- _ =>
    apply load_or_ok in Hl; unfold load_intent in Hl; run_inv; rename x into i end.
  match goal with Hm : (match ad_decision _ with Approve => _ | Reject => _ end) _ = Ok (_, ?s) |- _ => exists a, i, s end.
  match goal with Hid : ap_id a = _ |- _ => rewrite <- Hid in Ha end.
  split_and!; try done; [by destruct (ad_decision (dw_decision w))|].
  etrans; [by eapply insert_event_appended|].
  eapply (tfor_rel appended); [|eassumption]. intros. by eapply insert_outbox_appended.
Qed.

Lemma decide_approval_flow w d p d' : decide_approval w d = Ok (p, d') -> flow d d'.
Proof.
  intros (a & i & d1 & Ha & _ & _ & Hb & Happ)%decide_approval_shape.
  transitivity d1; [|by apply appended_flow].
  destruct (ad_decision (dw_decision w)).
  - apply decide_approve_ok in Hb as (g & _ & _ & _ & _ & _ & Hf); done.
  - apply decide_reject_ok in Hb as (? & ? & ? & ? & _ & _ & _ & _ & _ & Hf); done.
Qed.

Lemma expire_one_flow now a d r d' : expire_one now a d = Ok (r, d') -> flow d d'.
Proof.
  unfold expire_one. intros He. run_inv.
  match goal with Hs : sql_update_approval _ _ _ _ _ = Ok _ |- _ => apply approval_update_flow in Hs end;
    [|intros y _ Hy; unfold approval_due in Hy; bool_inv; by apply expired_columns_evolves].
  etrans; [eassumption|]. case_match; run_inv; [done|].
  match goal with Hl : load_or (load_intent _) _ _ = Ok _ |- _ =>
    apply load_or_ok in Hl; unfold load_intent in Hl; run_inv end.
  etrans; [by eapply update_intent_flow|]. etrans; [by eapply insert_event_flow|]. by eapply insert_outbox_flow.
Qed.

Lemma expire_due_flow now limit d r d' : expire_due now limit d = Ok (r, d') -> flow d d'.
Proof.
  unfold expire_due. intros He. run_inv.
  eapply (tmapM_rel flow); [|eassumption]. intros. by eapply expire_one_flow.
Qed.

Section Properties.
Context `{SolanaPubkey}.

Lemma consume_and_reserve_shape c d i d' :
  consume_and_reserve c d = Ok (i, d') ->
  let g := cn_grant c in
  i = cn_intent c /\ exists a d2 u1 u2 u3,
    t_approval d !! gc_approval_id (vg_claims g) = Some a
    /\ validate_verified_grant a i g (cn_evaluated_at c) = Ok tt
    /\ validate_current_payment_scope i (Some (cn_origin c)) d = Ok (u1, d)
    /\ enforce_budget i (cn_day_started_at c) (cn_evaluated_at c) true d = Ok (u2, d)
    /\ update_intent i (cn_expected_intent_updated_at c) RmApprovalReserve
         (set_approval <[ap_id a := consumed_columns (cn_consumed_at c) a]> d) = Ok (u3, d2)
    /\ flow d (set_approval <[ap_id a := consumed_columns (cn_consumed_at c) a]> d)
    /\ appended d2 d'.
Proof.
  unfold consume_and_reserve. intros Hc. run_inv. split; [done|].
  match goal with Hl : load_approval _ _ = Ok (?x, _) |- _ =>
    apply load_approval_ok in Hl as [Ha ->]; rename x into a end.
  match goal with Hv : validate_verified_grant _ _ _ _ = Ok ?t |- _ => destruct t; pose proof Hv as Hv' end.
  match goal with Hg : validate_current_payment_scope _ _ _ = Ok (_, ?s) |- _ =>
    pose proof (read_only _ _ _ Hg) as -> end.
  match goal with Hb : enforce_budget _ _ _ _ _ = Ok (_, ?s) |- _ => pose proof (read_only _ _ _ Hb) as -> end.
  match goal with He : expect_one _ _ _ = Ok _ |- _ => apply expect_one_ok in He as [-> ->] end.
  unfold validate_verified_grant in Hv'. run_inv. bool_inv.
  match goal with Hid : gc_approval_id _ = ap_id a |- _ => rewrite Hid in Ha end.
  match goal with Hs : sql_update_approval _ _ _ _ _ = Ok _ |- _ =>
    pose proof Hs as Hfl; apply sql_update_approval_ok in Hs as [[? _]|(old & _ & Hx & Hg & _ & _ & ->)]; [done|];
    apply approval_update_flow in Hfl end.
  - rewrite Ha in Hx. injection Hx as <-. exists a. do 4 eexists. split_and!; try eassumption.
    + congruence.
    + by eapply append_side_effects_appended.
  - intros y Hy Hgy. rewrite Ha in Hy. injection Hy as <-. by apply consumed_columns_evolves.
Qed.

Lemma consume_and_reserve_flow c d i d' : consume_and_reserve c d = Ok (i, d') -> flow d d'.
Proof.
  intros (_ & a & d2 & u1 & u2 & u3 & _ & _ & _ & _ & Hu & Hf & Happ)%consume_and_reserve_shape.
  etrans; [exact Hf|]. etrans; [by eapply update_intent_flow|by apply appended_flow].
Qed.

Lemma consume_and_reserve_fits c d i d' :
  db_ok d -> consume_and_reserve c d = Ok (i, d') ->
  within_limits d' i (cn_day_started_at c) (cn_evaluated_at c) true
  /\ counted d d' i (cn_day_started_at c) (cn_evaluated_at c).
Proof.
  intros Hdb (-> & a & d2 & u1 & u2 & u3 & _ & _ & _ & He & Hu & _ & Happ)%consume_and_reserve_shape.
  apply enforce_budget_ok in He; [|apply Hdb..].
  pose proof (update_intent_flow _ _ _ _ _ _ Hu) as Hfl.
  apply update_intent_row in Hu as (r & Hr & Hi & Heq & Hl & _ & Hid & _ & _ & Hcr). simpl in *.
  run_inv. bool_inv. destruct (fl_catalog _ _ Hfl) as (_ & _ & _ & Hw & _ & Hp & _).
  destruct (ap_same_catalog _ _ Happ) as (_ & _ & _ & Hw' & _ & Hp' & _). simpl in *.
  rewrite <- (ap_same_intent _ _ Happ) in Hi. rewrite <- (ap_same_ledger _ _ Happ) in Hl.
  assert (counted d d' (cn_intent c) (cn_day_started_at c) (cn_evaluated_at c)) as Hcount.
  { split.
    - destruct (usage_replace d d' _ r _ (pi_scenario_id (cn_intent c)) (pi_direction (cn_intent c))
                  (budget_unit (pi_asset (cn_intent c))) (cn_day_started_at c) (cn_evaluated_at c) Hr Hi Hl) as [Hs _].
      rewrite unreserved_contribution in Hs by (eauto using reserved_in_scenario_reserved; congruence).
      rewrite (reserved_contribution_scenario _ (cn_intent c)) in Hs by done. lia.
    - intros wid Hwid.
      destruct (usage_replace d d' _ r _ wid (pi_direction (cn_intent c))
                  (budget_unit (pi_asset (cn_intent c))) (cn_day_started_at c) (cn_evaluated_at c) Hr Hi Hl) as [_ Hs].
      rewrite unreserved_contribution in Hs by (eauto using reserved_in_wallet_reserved; congruence).
      rewrite (reserved_contribution_wallet _ (cn_intent c)) in Hs by done. lia. }
  split; [|done]. apply (fits_limits_counted d); try done; congruence.
Qed.

(** What a consumption finds and leaves of its approval row. *)
Lemma consume_and_reserve_marks c d i d' :
  consume_and_reserve c d = Ok (i, d') ->
  let id := gc_approval_id (vg_claims (cn_grant c)) in
  exists a, t_approval d !! id = Some a /\ ap_id a = id /\ ap_status a = ApApproved
    /\ ap_intent_hash a = pi_request_hash i /\ (cn_evaluated_at c < ap_expires_at a)%Z
    /\ ap_approved_amount a = Some (pi_amount i) /\ ap_grant_jti a = Some (gc_jti (vg_claims (cn_grant c)))
    /\ t_approval d' !! id = Some (consumed_columns (cn_consumed_at c) a).
Proof.
  intros (-> & a & d2 & u1 & u2 & u3 & Ha & Hv & _ & _ & Hu & _ & Happ)%consume_and_reserve_shape. cbv zeta.
  unfold validate_verified_grant in Hv. run_inv. bool_inv. exists a.
  assert (ap_id a = gc_approval_id (vg_claims (cn_grant c))) as Hid by congruence.
  split_and!; try congruence. rewrite (ap_same_approval _ _ Happ).
  apply update_intent_ok in Hu as (r & _ & _ & _ & _ & _ & _ & _ & _ & _ & ->). simpl.
  rewrite Hid. apply lookup_insert_eq.
Qed.

End Properties.

(** ** Decisions *)

Lemma sub_usage_unchanged_update i expected d u d' :
  update_intent i expected RmUnchanged d = Ok (u, d') ->
  forall scope dir unit day now,
    (scenario_usage d' scope dir unit day now <= scenario_usage d scope dir unit day now)%N
    /\ (wallet_usage d' scope dir unit day now <= wallet_usage d scope dir unit day now)%N.
Proof.
  intros (r & Hr & Hi & Heq & Hl & _ & Hid & _ & _ & Hcr)%update_intent_row scope dir unit day now.
  simpl in Hcr. run_inv. bool_inv.
  destruct (usage_replace d d' _ r _ scope dir unit day now Hr Hi Hl).
  destruct (contribution_shrinks r (update_columns i r) scope dir unit); rewrite ?Heq; try done; [congruence|lia].
Qed.

(** An approval is decided once and never widened: the decision needs a
    pending, unexpired approval; an approval grants a positive amount of at
    most the request with an expiry no later than the request's; no decision
    posts to the ledger or adds to any usage; and every later decision of the
    same approval fails. *)
Lemma decide_approval_once w d p d' :
  db_ok d -> decide_approval w d = Ok (p, d') ->
  let id := ad_approval_id (dw_decision w) in
  (exists a, t_approval d !! id = Some a /\ ap_status a = ApPending
     /\ (ad_decided_at (dw_decision w) < ap_expires_at a)%Z
     /\ t_approval d' !! id = Some p /\ (ap_expires_at p <= ap_expires_at a)%Z
     /\ match ad_decision (dw_decision w) with
        | Approve => ap_status p = ApApproved
            /\ exists amount, ap_approved_amount p = Some amount /\ (0 < amount <= ap_requested_amount a)%N
        | Reject => ap_status p = ApRejected
        end)
  /\ t_ledger d' = t_ledger d
  /\ (forall scope dir unit day now,
        (scenario_usage d' scope dir unit day now <= scenario_usage d scope dir unit day now)%N
        /\ (wallet_usage d' scope dir unit day now <= wallet_usage d scope dir unit day now)%N)
  /\ forall w2 d2, flow d' d2 -> ad_approval_id (dw_decision w2) = id -> exists e, decide_approval w2 d2 = Err e.
Proof.
  intros Hdb Hdec id. pose proof (decide_approval_flow _ _ _ _ Hdec) as Hflow.
  destruct (fl_db _ _ Hflow Hdb) as (Hdb' & _).
  apply decide_approval_shape in Hdec as (a & i & d1 & Ha & Hid & Hv & Hb & Happ).
  assert (is_pending_at a (ad_decided_at (dw_decision w)) = true) as Hpend.
  { unfold validate_decision in Hv. run_inv. by bool_inv. }
  unfold is_pending_at in Hpend. bool_inv.
  assert (t_approval d1 !! ap_id a = Some p /\ ap_status p <> ApPending /\ t_ledger d1 = t_ledger d
          /\ (forall scope dir unit day now,
               (scenario_usage d1 scope dir unit day now <= scenario_usage d scope dir unit day now)%N
               /\ (wallet_usage d1 scope dir unit day now <= wallet_usage d scope dir unit day now)%N)
          /\ (ap_expires_at p <= ap_expires_at a)%Z
          /\ match ad_decision (dw_decision w) with
             | Approve => ap_status p = ApApproved
                 /\ exists amount, ap_approved_amount p = Some amount /\ (0 < amount <= ap_requested_amount a)%N
             | Reject => ap_status p = ApRejected
             end) as (Hrow & Hnp & Hl & Hus & Hexp & Hkind).
  { destruct (ad_decision (dw_decision w)) eqn:Hk.
    - apply decide_approve_ok in Hb as (g & _ & Hg & _ & -> & -> & _); [|done].
      destruct (validate_decision_approve _ _ _ _ Hv Hk) as (amount & Ham & Hle).
      unfold validate_grant in Hg. run_inv. bool_inv. simpl. rewrite lookup_insert_eq.
      split_and!; try done. exists amount. split; [congruence|done].
    - apply decide_reject_ok in Hb as (j & expected & d0 & u & _ & Hu & _ & -> & -> & _); [|done].
      pose proof (sub_usage_unchanged_update _ _ _ _ _ Hu) as Hus.
      apply update_intent_row in Hu as (_ & _ & _ & _ & Hl & _). simpl. rewrite lookup_insert_eq.
      split_and!; try done; simpl; lia. }
  split_and!.
  - exists a. unfold id. rewrite <- Hid, (ap_same_approval _ _ Happ). split_and!; try done.
  - by rewrite (ap_same_ledger _ _ Happ).
  - intros. unfold scenario_usage, wallet_usage. rewrite (ap_same_ledger _ _ Happ), (ap_same_intent _ _ Happ).
    apply Hus.
  - intros w2 d2 Hfl Hid2. destruct (decide_approval w2 d2) as [[p2 d3]|e] eqn:Hd2; [exfalso|eauto].
    apply decide_approval_shape in Hd2 as (a2 & i2 & d4 & Ha2 & Hida & Hv2 & _).
    destruct (fl_db _ _ Hfl Hdb') as (_ & _ & _ & _ & Hae).
    destruct (Hae (ap_id a) p) as (a3 & Ha3 & E); [by rewrite (ap_same_approval _ _ Happ)|].
    assert (a2 = a3) as -> by (rewrite Hida, Hid2 in Ha2; unfold id in Ha2; congruence).
    unfold validate_decision in Hv2. run_inv. bool_inv.
    match goal with Hp : is_pending_at a3 _ = true |- _ => unfold is_pending_at in Hp end. bool_inv.
    pose proof (ae_status _ _ E) as Hst.
    match goal with Hs : ap_status a3 = ApPending |- _ => rewrite Hs in Hst end. by destruct (ap_status p).
Qed.

(** ** Expiry *)

Definition same_usage (d d' : DB) : Prop :=
  t_ledger d' = t_ledger d
  /\ forall scope dir unit day now,
       scenario_usage d' scope dir unit day now = scenario_usage d scope dir unit day now
       /\ wallet_usage d' scope dir unit day now = wallet_usage d scope dir unit day now.
#[export] Instance same_usage_refl : Reflexive same_usage.
Proof. by split. Qed.
#[export] Instance same_usage_trans : Transitive same_usage.
Proof.
  intros a b c [Hl1 H1] [Hl2 H2]. split; [congruence|]. intros scope dir unit day now.
  destruct (H1 scope dir unit day now), (H2 scope dir unit day now). split; congruence.
Qed.

(** The approval is closed and its intent has expired. *)
Definition closed (d : DB) (a : ApprovalRequest) : Prop :=
  (exists row, t_approval d !! ap_id a = Some row /\ ap_status row = ApExpired)
  /\ exists r, t_intent d !! ap_intent_id a = Some r /\ pi_status (ir_intent r) = Expired.

Lemma closed_flow d d' a : db_ok d -> flow d d' -> closed d a -> closed d' a.
Proof.
  intros Hdb Hf [(row & Hrow & Hs) (r & Hr & Hst)].
  destruct (fl_db _ _ Hf Hdb) as (_ & _ & _ & Hi & Ha). split.
  - destruct (Ha _ _ Hrow) as (row' & Hrow' & E). exists row'. split; [done|].
    pose proof (ae_status _ _ E) as Hle. rewrite Hs in Hle. by destruct (ap_status row').
  - destruct (Hi _ _ Hr) as (r' & Hr' & E). exists r'. split; [done|].
    rewrite (re_final _ _ E); [done|]. by rewrite Hst.
Qed.

Lemma update_intent_approvals i expected m d u d' :
  update_intent i expected m d = Ok (u, d') -> t_approval d' = t_approval d.
Proof. by intros (r & _ & _ & _ & _ & _ & _ & _ & _ & _ & ->)%update_intent_ok. Qed.

Lemma expire_one_ok now a d r d' :
  db_ok d -> expire_one now a d = Ok (r, d') ->
  same_usage d d' /\ match r with Some p => p = expired_columns a /\ closed d' p | None => True end.
Proof.
  intros Hdb He. unfold expire_one in He. run_inv.
  match goal with Hs : sql_update_approval _ _ _ _ _ = Ok (?n, _) |- _ => rename n into changed; pose proof Hs as Hup end.
  apply sql_update_approval_ok in Hup as [[-> ->]|(row & -> & Hrow & _ & _ & _ & ->)].
  { rewrite bool_decide_false in He by done. simpl in He. run_inv. done. }
  rewrite bool_decide_true in He by done. simpl in He. run_inv. bool_inv.
  match goal with Hl : load_or (load_intent _) _ _ = Ok _ |- _ =>
    apply load_or_ok in Hl; unfold load_intent in Hl; run_inv end.
  match goal with Hs : Some _ = ir_intent <$> _ |- _ =>
    symmetry in Hs; apply fmap_Some in Hs as (ir & Hir & ->) end. simpl in Hir.
  match goal with Hu : update_intent _ _ _ _ = Ok (_, ?d2) |- _ =>
    rename Hu into Hupd, d2 into mid; pose proof (update_intent_approvals _ _ _ _ _ _ Hupd) as Hap;
    apply update_intent_row in Hupd as (ir2 & Hir2 & Hi2 & Heq & Hl2 & _) end.
  simpl in Hir2, Hi2.
  match goal with Hev : insert_event _ mid = Ok (_, ?d3) |- _ => apply insert_event_appended in Hev as A1 end.
  match goal with Hob : insert_outbox _ _ = Ok (_, ?d4) |- _ =>
    apply insert_outbox_appended in Hob as A2; rename d4 into fin end.
  pose proof (transitivity A1 A2 : appended mid fin) as Happ.
  assert (pi_id (ir_intent ir) = ap_intent_id a) as Hkey by (by apply (intents_keyed _ (db_intents _ Hdb))).
  rewrite Hkey in *. assert (ir2 = ir) as -> by congruence. simpl in Hl2.
  split.
  - split; [by rewrite (ap_same_ledger _ _ Happ), Hl2|]. intros scope dir unit day now'.
    destruct (usage_replace d fin (ap_intent_id a) ir
                (update_columns (expired_intent now (ir_intent ir)) ir) scope dir unit day now' Hir) as [Hs Hw].
    + by rewrite (ap_same_intent _ _ Happ), Hi2.
    + by rewrite (ap_same_ledger _ _ Happ), Hl2.
    + rewrite !unreserved_contribution in Hs, Hw; rewrite ?Heq; simpl;
        eauto using reserved_in_scenario_reserved, reserved_in_wallet_reserved; [lia|congruence..].
  - split; [done|]. unfold closed. simpl. rewrite (ap_same_approval _ _ Happ), (ap_same_intent _ _ Happ), Hap, Hi2.
    simpl. rewrite !lookup_insert_eq. split; [by eexists|]. eexists. split; [done|]. by rewrite Heq.
Qed.

Lemma tmapM_expire_ok now due d out d' :
  db_ok d -> tmapM (expire_one now) due d = Ok (out, d') ->
  same_usage d d' /\ db_ok d'
  /\ forall p, Some p ∈ out -> closed d' p /\ exists a, a ∈ due /\ p = expired_columns a.
Proof.
  revert d out. induction due as [|a due IH]; intros d out Hdb Hm; simpl in Hm; run_inv.
  { split_and!; try done. intros p Hp. inversion Hp. }
  match goal with He : expire_one now a d = Ok (?r, ?d1) |- _ =>
    pose proof (expire_one_flow _ _ _ _ _ He) as Hfl; destruct (expire_one_ok _ _ _ _ _ Hdb He) as [Hus Hr];
    rename d1 into mid, r into res end.
  pose proof (flow_db_ok _ _ Hfl Hdb) as Hdb1.
  match goal with Ht : tmapM (expire_one now) due mid = Ok _ |- _ =>
    pose proof Ht as Hrest; destruct (IH _ _ Hdb1 Ht) as (Hus2 & Hdb2 & Hall) end.
  split_and!; [by etrans|done|].
  intros p [Hp|Hp]%elem_of_cons.
  - rewrite <- Hp in Hr. destruct Hr as [-> Hcl]. split; [|exists a; split; [left|done]].
    eapply closed_flow; [exact Hdb1| |exact Hcl].
    eapply (tmapM_rel flow); [|exact Hrest]. intros. by eapply expire_one_flow.
  - destruct (Hall p Hp) as (Hcl & b & Hb & ->). split; [done|]. exists b. split; [by right|done].
Qed.

(** Expiry closes what is due and nothing else moves: every approval it
    returns was pending or approved with its deadline passed, is now expired
    with its intent expired, and the ledger and every scenario's and wallet's
    usage are exactly what they were. *)
Lemma expire_due_closes now limit d out d' :
  db_ok d -> expire_due now limit d = Ok (out, d') ->
  same_usage d d'
  /\ forall p, p ∈ out ->
       closed d' p /\ ap_status p = ApExpired
       /\ exists a, t_approval d !! ap_id p = Some a /\ approval_due now a = true /\ ap_id a = ap_id p.
Proof.
  intros Hdb He. unfold expire_due in He. run_inv.
  match goal with Hm : tmapM _ _ _ = Ok _ |- _ => destruct (tmapM_expire_ok _ _ _ _ _ Hdb Hm) as (Hus & _ & Hall) end.
  split; [done|]. intros p Hp.
  apply list_elem_of_omap in Hp as (o & Ho & Hop). simpl in Hop. unfold id in Hop. subst o.
  destruct (Hall p Ho) as (Hcl & a & Ha & ->). split_and!; try done. exists a. simpl.
  assert (a ∈ order_by expiry_before (select (approval_due now) (t_approval d))) as Hin
    by (rewrite <- (firstn_skipn (N.to_nat limit)); apply elem_of_app; by left).
  apply elem_of_order_by, elem_of_select in Hin as [Hdue [k Hk]].
  rewrite (approvals_keyed _ (db_approvals _ Hdb) _ _ Hk). done.
Qed.

(** ** Whose payment a rejection moves *)

(** The write with another intent transition. *)
Definition with_transition (w : ApprovalWrite) (i : PaymentIntent) (expected : Z) : ApprovalWrite :=
  {| dw_decision := dw_decision w; dw_grant := dw_grant w; dw_intent_transition := Some (i, expected);
     dw_event := dw_event w; dw_outbox := dw_outbox w |}.

Section OtherIntents.
(** Other rows for the same intents. *)
Variables (d0 : DB) (rows : gmap string IntentRow).
Hypothesis rows_kept : forall k, is_Some (t_intent d0 !! k) -> is_Some (rows !! k).
Definition with_rows (d : DB) : DB := set_intent (fun _ => rows) d.

Lemma insert_event_with_rows e d w d' :
  t_intent d = t_intent d0 -> insert_event e d = Ok (w, d') ->
  insert_event e (with_rows d) = Ok (w, with_rows d') /\ t_intent d' = t_intent d0.
Proof.
  intros Hsame He. pose proof (ap_same_intent _ _ (insert_event_appended _ _ _ _ He)) as Hi.
  split; [|congruence]. revert He. unfold insert_event, tbind, tlift, treads, tget, tput, tret, tfail. simpl.
  destruct (PaymentEvent_validate e); simpl; [|done]. destruct (select _ _) as [|x [|? ?]]; [|by case_bool_decide; intros [= <- <-]|done].
  rewrite Hsame. destruct (event_checks e); simpl; [|done].
  destruct (t_intent d0 !! ev_intent_id e) as [r|] eqn:Hr; simpl; [|done].
  destruct (rows_kept (ev_intent_id e) (mk_is_Some _ _ Hr)) as [r' ->]. simpl. by intros [= <- <-].
Qed.

Lemma insert_outbox_with_rows m d u d' :
  insert_outbox m d = Ok (u, d') -> insert_outbox m (with_rows d) = Ok (u, with_rows d').
Proof.
  unfold insert_outbox, tbind, tlift, treads, tget, tput, tret, tfail. simpl.
  destruct (validate_message m); simpl; [|done]. destruct (select _ _) as [|x [|? ?]]; [| |done].
  - destruct (outbox_checks m); simpl; [|done]. by intros [= <- <-].
  - destruct (same_logical_message x m); simpl; [|done]. by intros [= <- <-].
Qed.
Lemma insert_outboxes_with_rows l d u d' :
  tfor insert_outbox l d = Ok (u, d') -> tfor insert_outbox l (with_rows d) = Ok (u, with_rows d').
Proof.
  revert d. induction l as [|m l IH]; intros d; simpl; [by intros [= <- <-]|].
  intros (v & d1 & Hm & Hl)%tbind_ok. apply tbind_ok. exists v, (with_rows d1).
  split; [by apply insert_outbox_with_rows|by apply IH].
Qed.
End OtherIntents.

Lemma decide_reject_other w a j expected d p dm d2 :
  decide_reject w a d = Ok (p, dm) -> update_intent j expected RmUnchanged d = Ok (tt, d2) ->
  decide_reject (with_transition w j expected) a d = Ok (p, with_rows (t_intent d2) dm) /\ ap_status p = ApRejected
  /\ ap_intent_id p = ap_intent_id a
  /\ forall k, is_Some (t_intent dm !! k) -> is_Some (t_intent d2 !! k).
Proof.
  unfold decide_reject. intros Hd. run_inv. intros Hj.
  match goal with He : expect_one _ _ _ = Ok _ |- _ => apply expect_one_ok in He as [-> ->] end.
  match goal with Hu : update_intent (fst _) _ _ _ = Ok (_, ?d1) |- _ =>
    apply update_intent_ok in Hu as (r1 & Hr1 & _ & _ & _ & _ & _ & _ & _ & _ & Hd1); rename d1 into dx end.
  pose proof Hj as (r2 & Hr2 & _ & _ & _ & _ & _ & _ & _ & _ & Hd2)%update_intent_ok.
  match goal with Hs : sql_update_approval _ _ _ _ _ = Ok _ |- _ =>
    apply sql_update_approval_ok in Hs as [[? _]|(old & _ & Hx & Hg & Hc & Hu & ->)]; [done|] end.
  subst dx d2. simpl in *. split_and!; try done.
  - apply tbind_ok. exists tt, d. split; [by apply tlift_ok; rewrite reject_if_ok|].
    apply tbind_ok. exists (j, expected), d. split; [done|].
    apply tbind_ok. eexists tt, _. split; [exact Hj|].
    apply tbind_ok. eexists 1, _. split.
    { unfold sql_update_approval. cbn [t_approval set_intent]. rewrite Hx. cbn beta iota. rewrite Hg, Hc. cbn [andb].
      change (approval_unique (set_intent ?f d) ?x) with (approval_unique d x) in *. rewrite Hu. reflexivity. }
    reflexivity.
  - intros k. rewrite !lookup_insert_is_Some'. intros [<-|Hk]; right; [by eexists|done].
Qed.

(** C31: the rejection branch of [decide] checks neither which payment its
    transition is for nor the status it gives it: whenever a rejection commits,
    the same rejection with the transition of any payment that the update rules
    accept commits too and rejects the approval, that payment becomes what the
    transition says, and, when it is another one, the rejected approval's own
    payment stays exactly as it was. *)
Theorem misdirected_rejection_commits w j expected d p d' d2 :
  ad_decision (dw_decision w) = Reject -> decide_approval w d = Ok (p, d') ->
  update_intent j expected RmUnchanged d = Ok (tt, d2) ->
  exists d3, decide_approval (with_transition w j expected) d = Ok (p, d3)
    /\ ap_status p = ApRejected
    /\ (exists r, t_intent d3 !! pi_id j = Some r /\ ir_intent r = j)
    /\ (pi_id j <> ap_intent_id p -> t_intent d3 !! ap_intent_id p = t_intent d !! ap_intent_id p).
Proof.
  intros Hk Hd Hj. pose proof (update_intent_row _ _ _ _ _ _ Hj) as (r & Hr & Hrows & Hrj & _).
  unfold decide_approval in *. simpl in *. rewrite Hk in *.
  apply tbind_ok in Hd as (a & da & Ha & Hd). apply tbind_ok in Hd as (? & db & Hv & Hd).
  apply tbind_ok in Hd as (i & dc & Hi & Hd). apply tbind_ok in Hd as (? & dd & Hb & Hd).
  apply tbind_ok in Hd as (p' & dm & Hrej & Hd). apply tbind_ok in Hd as (? & de & Hev & Hd).
  apply tbind_ok in Hd as (? & df & Hob & [= -> ->]).
  pose proof Ha as [_ ->]%load_approval_ok. pose proof Hv as [_ ->]%tlift_ok. pose proof Hb as [_ ->]%tlift_ok.
  assert (dc = d) as -> by (apply load_or_ok in Hi; unfold load_intent in Hi; by run_inv).
  destruct (decide_reject_other _ _ _ _ _ _ _ _ Hrej Hj) as (Hrej' & Hst & Hii & Hdom).
  destruct (insert_event_with_rows dm (t_intent d2) Hdom _ _ _ _ eq_refl Hev) as [Hev' _].
  apply (insert_outboxes_with_rows (t_intent d2)) in Hob as Hob'.
  exists (with_rows (t_intent d2) d'). split_and!; [|done| |].
  - repeat (apply tbind_ok; do 2 eexists; split; [eassumption|]). done.
  - exists (update_columns j r). simpl. by rewrite Hrows, lookup_insert_eq.
  - intros Hne. simpl. by rewrite Hrows, lookup_insert_ne.
Qed.

(** ** A decision on the sample approval *)

Module SampleApproval.
Definition claims : ApprovalGrantClaims :=
  {| gc_iss := "agentvault"; gc_aud := "agentvault"; gc_jti := "jti-1"; gc_approval_id := "approval-1";
     gc_intent_id := "intent-2"; gc_intent_hash := "request-1"; gc_amount := 290000; gc_approver := "admin-1";
     gc_iat := 1700000050; gc_exp := 1700000200 |}.
Definition claims_hash : string := "bbbbbbbbbbbbbbbbbbbbbbbbbbbbbbbbbbbbbbbbbbbbbbbbbbbbbbbbbbbbbbbb".
Definition grant : ApprovalGrant :=
  {| ag_claims := claims; ag_claims_hash := claims_hash;
     ag_sealed_token := {| sm_version := 2; sm_key_id := "k"; sm_nonce := "n"; sm_ciphertext := "c" |} |}.
Definition decision (kind : ApprovalDecisionKind) (amount : option N) : ApprovalDecision :=
  {| ad_approval_id := "approval-1"; ad_intent_id := "intent-2"; ad_decision := kind;
     ad_approved_amount := amount; ad_approved_by := "admin-1"; ad_reason := None; ad_decided_at := 1700000050 |}.
Definition approve : ApprovalWrite :=
  {| dw_decision := decision Approve (Some 290000%N); dw_grant := Some grant; dw_intent_transition := None;
     dw_event := Sample.event "event-a" "intent-2" EvApprovalGranted (jobject []) 1700000050; dw_outbox := [] |}.
Definition approved : ApprovalRequest := approved_columns grant 1700000050 Sample.approval.
Definition approved_db : DB := state_of (decide_approval approve Sample.pending_db).

Definition authorized : PaymentIntent := Sample.outbound "intent-2" "run-2" 290000 Authorized Reserved 290000 1700000060.
Definition consume : ApprovalConsumption :=
  {| cn_grant := {| vg_claims := claims; vg_claims_hash := claims_hash |}; cn_intent := authorized;
     cn_origin := "https://api.example"; cn_day_started_at := Sample.day; cn_evaluated_at := 1700000060;
     cn_expected_intent_updated_at := Sample.now; cn_consumed_at := 1700000060;
     cn_event := Sample.event "event-b" "intent-2" EvApprovalConsumed (jobject []) 1700000060; cn_outbox := [] |}.
Definition consumed_db : DB := state_of (@consume_and_reserve Sample.codec consume approved_db).
Definition expired_db : DB := state_of (expire_due 1700000700 10 Sample.pending_db).

(** A rejection, and the same rejection with a transition for another payment
    that does not even fail it. *)
Definition both_db : DB := state_of (@authorize Sample.codec Sample.request_approval Sample.reserved_db).
Definition reject : ApprovalWrite :=
  {| dw_decision := decision Reject None; dw_grant := None;
     dw_intent_transition :=
       Some (Sample.outbound "intent-2" "run-2" 290000 Failed Unreserved 0 1700000050, Sample.now);
     dw_event := Sample.event "event-c" "intent-2" EvApprovalRejected (jobject []) 1700000050; dw_outbox := [] |}.
Definition rejected : ApprovalRequest := rejected_columns "admin-1" 1700000050 Sample.approval.
Definition rejected_db : DB := state_of (decide_approval reject both_db).
Definition other : PaymentIntent := Sample.outbound "intent-1" "run-1" 250000 Unknown Reserved 250000 1700000050.
Definition moved_db : DB := state_of (update_intent other Sample.now RmUnchanged both_db).
Definition misdirected : ApprovalWrite := with_transition reject other Sample.now.
End SampleApproval.

#[local] Existing Instance Sample.codec.

Lemma sample_approved :
  decide_approval SampleApproval.approve Sample.pending_db = Ok (SampleApproval.approved, SampleApproval.approved_db).
Proof. vm_compute. reflexivity. Qed.
Lemma sample_approved_ok : db_ok SampleApproval.approved_db.
Proof. exact (flow_db_ok _ _ (decide_approval_flow _ _ _ _ sample_approved) sample_pending_ok). Qed.
Lemma sample_consumed :
  consume_and_reserve SampleApproval.consume SampleApproval.approved_db
  = Ok (SampleApproval.authorized, SampleApproval.consumed_db).
Proof. vm_compute. reflexivity. Qed.


Lemma misdirected_rejection_commits_witness :
  exists p d', decide_approval SampleApproval.misdirected SampleApproval.both_db = Ok (p, d')
    /\ ap_status p = ApRejected
    /\ (exists r, t_intent d' !! "intent-1" = Some r /\ ir_intent r = SampleApproval.other)
    /\ t_intent d' !! "intent-2" = t_intent SampleApproval.both_db !! "intent-2".
Proof.
  destruct (misdirected_rejection_commits SampleApproval.reject SampleApproval.other Sample.now SampleApproval.both_db
              SampleApproval.rejected SampleApproval.rejected_db SampleApproval.moved_db) as (d' & Hd & Hst & Hj & Hk).
  - reflexivity.
  - vm_compute. reflexivity.
  - vm_compute. reflexivity.
  - exists SampleApproval.rejected, d'. split; [exact Hd|]. split; [exact Hst|]. split; [exact Hj|]. exact (Hk ltac:(discriminate)).
Defined.
