(* ===== verification/SigningStore.v ===== *)
(** * Signing transactions

    [SigningStorageRules] of [src/src/storage/signing/mod.rs] and the
    transactions of [src/src/storage/signing/transactions.rs]: the read of a
    payment's signing authority and the single [Authorized -> Signed] commit
    with the sealed credential.  URL parsing is the [reqwest::Url] parser,
    a parameter here. *)

From S2P Require Import Prelude Text Money Json Wallet Intent Policy Ledger Records Store LedgerStore PaymentRules Budget PaymentStore.

#[local] Open Scope string_scope.
#[local] Open Scope vault_scope.

Record OutboundSigningIdentity : Type := {
  si_client : PaymentClient;
  si_scenario : PaymentScenario;
  si_intent : PaymentIntent;
  si_challenge : PaymentChallenge
}.

Record OutboundSigningAuthorization : Type := {
  sa_identity : OutboundSigningIdentity;
  sa_policy : PaymentPolicy;
  sa_wallet : PaymentWallet;
  sa_active_key : EncryptedWalletKeyVersion
}.

Record PersistedSignedPayment : Type := {
  ps_identity : OutboundSigningIdentity;
  ps_credential_hash : string;
  ps_sealed_credential : SealedSensitiveMaterial
}.

Inductive OutboundSigningRead : Type :=
| ReadAuthorized (a : OutboundSigningAuthorization)
| ReadSigned (p : PersistedSignedPayment).

Record SigningGuard : Type := {
  sg_principal : string;
  sg_client_id : string;
  sg_expected_client_updated_at : Z;
  sg_scenario_id : string;
  sg_expected_scenario_updated_at : Z;
  sg_policy_id : string;
  sg_expected_policy_updated_at : Z;
  sg_wallet_id : string;
  sg_expected_wallet_updated_at : Z;
  sg_expected_key_version : N;
  sg_expected_intent_updated_at : Z;
  sg_challenge_hash : string;
  sg_evaluated_at : Z
}.

Record SigningWrite : Type := {
  gw_intent : PaymentIntent;
  gw_challenge : PaymentChallenge;
  gw_credential_hash : string;
  gw_sealed_credential : SealedSensitiveMaterial;
  gw_guard : SigningGuard;
  gw_events : list PaymentEvent;
  gw_outbox : list OutboxMessage
}.

(** ** Rules *)

Definition signing_authority_invalid : Error :=
  PolicyDenied "outbound payment signing authority is no longer valid".

(** [SigningStorageRules::validate_signing_events] *)
Definition validate_signing_events (events : list PaymentEvent) (intent_id credential_hash : string)
    (sealed : SealedSensitiveMaterial) : Result Error unit :=
  let requested := of_type EvSignRequested events in
  let signed := of_type EvSigned events in
  reject_if ((length events != 2)
             || (length requested != 1)
             || (length signed != 1)
             || existsb (fun e => (ev_intent_id e != intent_id) || (ev_attempt_no e != 0%N)) events
             || is_none_or (fun e =>
                  (ev_signature_ref e != Some credential_hash)
                  || (jget_str "credential_hash" (ev_payload e) != Some credential_hash)
                  || ((value ← jget "sealed_credential" (ev_payload e); sealed_from_json value) != Some sealed))
                  (head signed))
            (conflict "outbound signing events are incomplete or inconsistent").

(** [is_signed_replay_status] *)
Definition is_signed_replay_status (s : PaymentStatus) : bool :=
  match s with Signed | Submitted | PendingSettlement | Unknown | Settled => true | _ => false end.

Section Origin.
Context `{UrlParser}.

(** [SigningStorageRules::canonical_origin] *)
Definition canonical_origin (resource : string) : Result Error string :=
  let error := PolicyDenied "payment resource has no canonical HTTP origin" in
  let? parsed := ok_or (url_parse resource) error in
  reject_if (negb ((url_scheme parsed == "http") || (url_scheme parsed == "https"))
             || is_none (url_host_str parsed)) error ;?
  Ok (url_origin_ascii parsed).
End Origin.

Section Rules.
Context `{SolanaPubkey} `{UrlParser}.

(** The challenge is the one the intent was authorized for. *)
Definition signing_challenge_bound (identity : OutboundSigningIdentity) (evaluated_at : option Z) : bool :=
  let i := si_intent identity in
  let c := si_challenge identity in
  (pi_status i == Authorized)
  && (pi_direction i == Outbound)
  && (pi_reservation_status i == Reserved)
  && (pi_reserved_amount i == pi_amount i)
  && negb (is_some_and (fun now => (ch_expires_at c <=? now)%Z) evaluated_at)
  && (pi_expires_at i == Some (ch_expires_at c))
  && (pi_challenge_hash i == Some (ch_challenge_hash c))
  && (ch_scenario_id c == pi_scenario_id i)
  && is_none (ch_price_id c)
  && (ch_resource c == pi_resource i)
  && (ch_protocol c == pi_protocol i)
  && (ch_asset c == pi_asset i)
  && (ch_amount c == pi_amount i)
  && payment_recipients_match (as_network (pi_asset i)) (ch_recipient c) (pi_recipient i)
  && negb (blank (ch_nonce c)).

(** The policy still covers the payment. *)
Definition signing_policy_covers (identity : OutboundSigningIdentity) (policy : PaymentPolicy)
    (limits : PaymentPolicyLimits) (wallet : PaymentWallet) (origin : string) : bool :=
  let i := si_intent identity in
  (sc_id (si_scenario identity) == pi_scenario_id i)
  && (sc_client_id (si_scenario identity) == cl_id (si_client identity))
  && (pi_policy_id i == Some (po_id policy))
  && (pi_wallet_id i == Some (w_id (pw_wallet wallet)))
  && po_enabled policy
  && (po_scenario_id policy == sc_id (si_scenario identity))
  && allows_wallet policy (w_id (pw_wallet wallet))
  && allows_direction policy Outbound
  && allows_protocol policy (pi_protocol i)
  && allows_asset policy (pi_asset i)
  && allows_payment_recipient policy (as_network (pi_asset i)) (pi_recipient i)
  && allows_origin policy origin
  && BudgetUnit_matches (po_budget_unit policy) (pi_asset i)
  && (pi_amount i <=? pl_max_per_payment limits)%N
  && is_some_and (fun maximum => (pi_amount i <=? maximum)%N) (hard_daily_limit limits).

(** The wallet and its active key can sign it. *)
Definition signing_key_ready (i : PaymentIntent) (wallet : PaymentWallet) (key : EncryptedWalletKeyVersion)
    (evaluated_at : option Z) : bool :=
  signing_ready_for_payment_network wallet (as_network (pi_asset i))
  && (pw_custody wallet == Local)
  && (pw_budget_unit wallet == Some (budget_unit (pi_asset i)))
  && is_none_or (fun maximum => (pi_amount i <=? maximum)%N) (pw_max_per_payment wallet)
  && is_none_or (fun maximum => (pi_amount i <=? maximum)%N) (pw_max_per_day wallet)
  && (pw_active_key_version wallet == Some (k_version key))
  && (k_status key == KeyActive)
  && (k_wallet_id key == w_id (pw_wallet wallet))
  && (k_algorithm key == w_algorithm (pw_wallet wallet))
  && (k_address key == w_address (pw_wallet wallet))
  && (k_public_key key == w_public_key (pw_wallet wallet))
  && (k_version key != 0%N)
  && negb (is_some_and (fun now => (now <? k_activated_at key)%Z) evaluated_at)
  && negb (blank (k_encryption_scheme key))
  && negb (blank (k_kek_id key))
  && negb (is_empty (k_wrapped_data_key key))
  && negb (is_empty (k_wrap_nonce key))
  && negb (is_empty (k_key_ciphertext key))
  && negb (is_empty (k_key_nonce key))
  && negb (is_empty (k_aad key))
  && is_none (k_retired_at key).

(** [SigningStorageRules::validate_authorization_state]: the one condition of
    the source, in three groups. *)
Definition validate_authorization_state (identity : OutboundSigningIdentity) (policy : PaymentPolicy)
    (wallet : PaymentWallet) (key : EncryptedWalletKeyVersion) (evaluated_at : option Z) : Result Error unit :=
  let? origin := canonical_origin (pi_resource (si_intent identity)) in
  let? limits := ok_or (limits_for policy Outbound) signing_authority_invalid in
  reject_if (negb (signing_challenge_bound identity evaluated_at
                   && signing_policy_covers identity policy limits wallet origin
                   && signing_key_ready (si_intent identity) wallet key evaluated_at))
            signing_authority_invalid.
End Rules.

(** ** Reads *)

(** [intent_id = .. AND event_type = .. AND attempt_no = 0] *)
Definition initial_event (intent_id : string) (t : PaymentEventType) (e : PaymentEvent) : bool :=
  (ev_intent_id e == intent_id) && (ev_event_type e == t) && (ev_attempt_no e == 0%N).

(** [load_challenge] *)
Definition load_challenge (intent_id : string) : Tx DB PaymentChallenge :=
  let* e := load_or (treads (fun d => fetch_optional (initial_event intent_id EvChallengeReceived) (t_event d)))
                    (Storage "authorized outbound intent has no durable challenge") in
  let* value := tlift (ok_or (jget "challenge" (ev_payload e)) (Storage "challenge event payload is incomplete")) in
  tlift (ok_or (challenge_from_json value) (Storage "decode outbound payment challenge")).

(** [pay_intent JOIN pay_scenario JOIN pay_client], both enabled. *)
Definition owned_intent (d : DB) (intent_id : string) : option (PaymentIntent * PaymentScenario * PaymentClient) :=
  r ← t_intent d !! intent_id;
  s ← t_scenario d !! pi_scenario_id (ir_intent r);
  c ← t_client d !! sc_client_id s;
  if cl_enabled c && sc_enabled s then Some (ir_intent r, s, c) else None.

(** [load_identity]; the lock it may take does not change what it reads. *)
Definition load_identity (principal intent_id : string) : Tx DB (option OutboundSigningIdentity) :=
  let* row := treads (fun d => owned_intent d intent_id) in
  match row with
  | None => tret None
  | Some (i, s, c) =>
      if cl_auth_principal c != principal then tret None
      else if pi_direction i != Outbound then tret None
      else
        let* challenge := load_challenge (pi_id i) in
        tret (Some {| si_client := c; si_scenario := s; si_intent := i; si_challenge := challenge |})
  end.

(** [load_identity_for_access] *)
Definition load_identity_for_access (expected_principal : option string) (intent_id : string)
  : Tx DB (option OutboundSigningIdentity) :=
  let* row := treads (fun d => owned_intent d intent_id) in
  match row with
  | None => tret None
  | Some (_, _, c) =>
      if is_none_or (fun p => cl_auth_principal c == p) expected_principal
      then load_identity (cl_auth_principal c) intent_id
      else tret None
  end.

(** [load_signed] *)
Definition load_signed (identity : OutboundSigningIdentity) : Tx DB PersistedSignedPayment :=
  let id := pi_id (si_intent identity) in
  let* d := tget in
  let* e := tlift (ok_or (fetch_optional (initial_event id EvSigned) (t_event d))
                         (Storage "signed payment has no durable signed event")) in
  let* row := tlift (ok_or (t_intent d !! ev_intent_id e) (Storage "signed payment has no durable signed event")) in
  let* credential_hash := tlift (ok_or (ev_signature_ref e) (Storage "decode outbound signing join")) in
  let* value := tlift (ok_or (jget "sealed_credential" (ev_payload e))
                             (Storage "signed event has no sealed credential")) in
  let* sealed := tlift (ok_or (sealed_from_json value) (Storage "decode sealed signed credential")) in
  tlift (reject_if ((ir_credential_hash row != Some credential_hash)
                    || (jget_str "credential_hash" (ev_payload e) != Some credential_hash))
                   (Storage "signed event credential fingerprint is inconsistent")) ;*
  tret {| ps_identity := identity; ps_credential_hash := credential_hash; ps_sealed_credential := sealed |}.

(** [replay_signed] *)
Definition replay_signed (identity : OutboundSigningIdentity) (intended : PaymentIntent)
    (challenge : PaymentChallenge) : Tx DB (IdempotentWrite PersistedSignedPayment) :=
  let* existing := load_signed identity in
  tlift (reject_if ((si_challenge (ps_identity existing) != challenge)
                    || negb (same_immutable_identity_as (si_intent (ps_identity existing)) intended))
                   (conflict "signed payment replay differs from the committed credential")) ;*
  tret (Replayed existing).

(** [lock_signing_principal] *)
Definition lock_signing_principal (guard : SigningGuard) : Tx DB unit :=
  require (fun d => is_some (c ← t_client d !! sg_client_id guard;
                             s ← t_scenario d !! sg_scenario_id guard;
                             if (cl_auth_principal c == sg_principal guard) && (sc_client_id s == sg_client_id guard)
                             then Some tt else None)) Forbidden.

(** [lock_signing_payment_authority] *)
Definition lock_signing_payment_authority (guard : SigningGuard) : Tx DB unit :=
  require (fun d => is_some (t_policy d !! sg_policy_id guard))
          (conflict "outbound signing policy authority changed") ;*
  require (fun d => is_some (t_wallet d !! sg_wallet_id guard))
          (conflict "outbound signing wallet authority changed") ;*
  require (fun d => is_some_and (fun k => k_status k == KeyActive)
                                (t_key d !! (sg_wallet_id guard, sg_expected_key_version guard)))
          (conflict "outbound signing key authority changed").

Section Signing.
Context `{SolanaPubkey} `{UrlParser}.

(** [load_authorized] *)
Definition load_authorized (identity : OutboundSigningIdentity) : Tx DB OutboundSigningAuthorization :=
  let i := si_intent identity in
  let* policy_id := tlift (ok_or (pi_policy_id i) (Storage "authorized signing intent has no policy")) in
  let* wallet_id := tlift (ok_or (pi_wallet_id i) (Storage "authorized signing intent has no wallet")) in
  let* policy := load_or (load_policy policy_id) (Storage "authorized signing policy does not exist") in
  let* wallet := load_or (load_payment_wallet wallet_id) (Storage "authorized signing wallet does not exist") in
  let* key := load_or (treads (fun d => active_key d wallet_id))
                      (Storage "authorized signing wallet has no active key") in
  tlift (validate_authorization_state identity policy wallet key None) ;*
  tret {| sa_identity := identity; sa_policy := policy; sa_wallet := wallet; sa_active_key := key |}.

(** [load_and_validate_guard] *)
Definition load_and_validate_guard (guard : SigningGuard) (i : PaymentIntent) (challenge : PaymentChallenge)
  : Tx DB OutboundSigningAuthorization :=
  let* identity := load_or (load_identity (sg_principal guard) (pi_id i)) Forbidden in
  let* a := load_authorized identity in
  let current := sa_identity a in
  tlift (reject_if ((cl_id (si_client current) != sg_client_id guard)
                    || (cl_updated_at (si_client current) != sg_expected_client_updated_at guard)
                    || (sc_id (si_scenario current) != sg_scenario_id guard)
                    || (sc_updated_at (si_scenario current) != sg_expected_scenario_updated_at guard)
                    || (po_id (sa_policy a) != sg_policy_id guard)
                    || (po_updated_at (sa_policy a) != sg_expected_policy_updated_at guard)
                    || (w_id (pw_wallet (sa_wallet a)) != sg_wallet_id guard)
                    || (pw_updated_at (sa_wallet a) != sg_expected_wallet_updated_at guard)
                    || (k_version (sa_active_key a) != sg_expected_key_version guard)
                    || (pi_updated_at (si_intent current) != sg_expected_intent_updated_at guard)
                    || (ch_challenge_hash (si_challenge current) != sg_challenge_hash guard)
                    || (si_challenge current != challenge)
                    || negb (same_immutable_identity_as (si_intent current) i)
                    || (pi_status i != Signed)
                    || (pi_updated_at i <=? sg_expected_intent_updated_at guard)%Z)
                   (conflict "outbound signing authority changed before commit")) ;*
  tlift (validate_authorization_state current (sa_policy a) (sa_wallet a) (sa_active_key a)
           (Some (sg_evaluated_at guard))) ;*
  tret a.

(** [ISigningRepository::load_for_principal] *)
Definition load_for_principal (expected_principal : option string) (intent_id : string)
  : Tx DB (option OutboundSigningRead) :=
  tlift (reject_if (is_some_and is_empty expected_principal) Unauthenticated) ;*
  let* found := load_identity_for_access expected_principal intent_id in
  match found with
  | None => tret None
  | Some identity =>
      match pi_status (si_intent identity) with
      | Signed | Submitted | PendingSettlement | Unknown | Settled =>
          let* p := load_signed identity in tret (Some (ReadSigned p))
      | Authorized => let* a := load_authorized identity in tret (Some (ReadAuthorized a))
      | _ => tret None
      end
  end.

(** The part of [commit_signed] that runs when the payment is not signed yet. *)
Definition sign_authorized (w : SigningWrite) : Tx DB (IdempotentWrite PersistedSignedPayment) :=
  let guard := gw_guard w in
  let i := gw_intent w in
  let* authorization := load_and_validate_guard guard i (gw_challenge w) in
  tlift (validate_signing_events (gw_events w) (pi_id i) (gw_credential_hash w) (gw_sealed_credential w)) ;*
  update_intent i (sg_expected_intent_updated_at guard) RmUnchanged ;*
  let* changed := sql_update_intent (pi_id i) (fun r => is_none (ir_credential_hash r))
                    (set_credential (gw_credential_hash w)) (conflict "signed credential binding rejected") in
  expect_one changed (conflict "payment credential was already bound") ;*
  append_side_effects (gw_events w) (gw_outbox w) ;*
  tret (Inserted {| ps_identity := {| si_client := si_client (sa_identity authorization);
                                      si_scenario := si_scenario (sa_identity authorization);
                                      si_intent := i; si_challenge := gw_challenge w |};
                    ps_credential_hash := gw_credential_hash w;
                    ps_sealed_credential := gw_sealed_credential w |}).

(** [ISigningRepository::commit_signed] *)
Definition commit_signed (w : SigningWrite) : Tx DB (IdempotentWrite PersistedSignedPayment) :=
  let guard := gw_guard w in
  let i := gw_intent w in
  lock_signing_principal guard ;*
  let* identity := load_or (load_identity (sg_principal guard) (pi_id i)) Forbidden in
  if is_signed_replay_status (pi_status (si_intent identity)) then
    let* locked := load_or (load_identity (sg_principal guard) (pi_id i)) Forbidden in
    replay_signed locked i (gw_challenge w)
  else
    lock_signing_payment_authority guard ;*
    let* locked := load_or (load_identity (sg_principal guard) (pi_id i)) Forbidden in
    if is_signed_replay_status (pi_status (si_intent locked)) then
      replay_signed locked i (gw_challenge w)
    else sign_authorized w.
End Signing.
