(* ===== verification/SigningSafety.v ===== *)
(** * Signing safety

    A payment is signed at most once, only under its current authority, and
    every later read or commit returns the first credential. *)

From S2P Require Import Prelude Text Money Json Wallet Intent Policy Ledger Records Store LedgerStore PaymentRules Budget PaymentStore Samples IntentFlow SigningStore.

#[local] Open Scope string_scope.
#[local] Open Scope vault_scope.

(** ** Reads *)

#[export] Instance load_challenge_read_only id : ReadOnly (load_challenge id).
Proof. unfold load_challenge, load_or. solve_read_only. Qed.
#[export] Instance load_identity_read_only p id : ReadOnly (load_identity p id).
Proof. unfold load_identity. solve_read_only. Qed.
#[export] Instance load_identity_or_read_only p id e : ReadOnly (load_or (load_identity p id) e).
Proof. unfold load_or. solve_read_only. Qed.
#[export] Instance load_identity_for_access_read_only p id : ReadOnly (load_identity_for_access p id).
Proof. unfold load_identity_for_access. solve_read_only. Qed.
#[export] Instance load_signed_read_only i : ReadOnly (load_signed i).
Proof. unfold load_signed. solve_read_only. Qed.
#[export] Instance replay_signed_read_only i j c : ReadOnly (replay_signed i j c).
Proof. unfold replay_signed. solve_read_only. Qed.
#[export] Instance require_read_only p e : ReadOnly (require p e).
Proof. unfold require. solve_read_only. Qed.
#[export] Instance lock_signing_principal_read_only g : ReadOnly (lock_signing_principal g).
Proof. unfold lock_signing_principal. apply _. Qed.
#[export] Instance lock_signing_payment_authority_read_only g : ReadOnly (lock_signing_payment_authority g).
Proof. unfold lock_signing_payment_authority. apply _. Qed.

Section ReadOnlySigning.
Context `{SolanaPubkey} `{UrlParser}.
#[export] Instance load_authorized_read_only i : ReadOnly (load_authorized i).
Proof. unfold load_authorized, load_policy, load_or. solve_read_only. Qed.
#[export] Instance load_and_validate_guard_read_only g i c : ReadOnly (load_and_validate_guard g i c).
Proof. unfold load_and_validate_guard. solve_read_only. Qed.
#[export] Instance load_for_principal_read_only p i : ReadOnly (load_for_principal p i).
Proof. unfold load_for_principal. solve_read_only. Qed.
End ReadOnlySigning.

(** An intent's first event of a type is the only one, and stays. *)
Lemma initial_event_stable m m' id t e :
  events_ok m' -> m ⊆ m' -> fetch_optional (initial_event id t) m = Some e ->
  fetch_optional (initial_event id t) m' = Some e.
Proof.
  intros Hok Hsub Hf. apply fetch_optional_Some in Hf as [Hp [k Hk]].
  apply (fetch_optional_unique _ _ k); [by eapply lookup_weaken|done|].
  intros k' y Hy Hpy. assert (k' = k) as ->.
  { eapply (events_unique _ Hok); [exact Hy|by eapply lookup_weaken|].
    unfold initial_event in *. bool_inv. unfold event_same_key. by rewrite !bool_decide_true by congruence. }
  apply (lookup_weaken _ _ _ _ Hk) in Hsub. congruence.
Qed.

Lemma load_challenge_stable id d d' c s :
  events_ok (t_event d') -> t_event d ⊆ t_event d' -> load_challenge id d = Ok (c, s) ->
  load_challenge id d' = Ok (c, d').
Proof.
  intros Hok Hsub Hl. unfold load_challenge in Hl. run_inv.
  match goal with Ho : load_or _ _ _ = Ok _ |- _ => apply load_or_ok in Ho; run_inv end.
  match goal with Ho : Some _ = fetch_optional _ _ |- _ => symmetry in Ho;
    pose proof (initial_event_stable _ _ _ _ _ Hok Hsub Ho) as Hs end.
  unfold load_challenge. erewrite tbind_run; [|by apply load_or_ok, treads_ok].
  erewrite tbind_run; [|by apply tlift_ok; split; [apply ok_or_ok|]]. by apply tlift_ok; split; [apply ok_or_ok|].
Qed.

Lemma load_identity_ok principal id d x s :
  load_identity principal id d = Ok (Some x, s) ->
  owned_intent d id = Some (si_intent x, si_scenario x, si_client x)
  /\ cl_auth_principal (si_client x) = principal /\ pi_direction (si_intent x) = Outbound
  /\ load_challenge (pi_id (si_intent x)) d = Ok (si_challenge x, d).
Proof.
  unfold load_identity. intros Hl. run_inv. destruct (owned_intent d id) as [[[i sc] c]|]; [|run_inv; done].
  case_bool_decide as Hp; [|run_inv; done]. simpl in Hl. case_bool_decide as Hd; [|run_inv; done]. simpl in Hl.
  tx_inv. simplify_eq. done.
Qed.

Lemma load_identity_run principal id d i s c ch :
  owned_intent d id = Some (i, s, c) -> cl_auth_principal c = principal -> pi_direction i = Outbound ->
  load_challenge (pi_id i) d = Ok (ch, d) ->
  load_identity principal id d
  = Ok (Some {| si_client := c; si_scenario := s; si_intent := i; si_challenge := ch |}, d).
Proof.
  intros Ho Hp Hd Hc. unfold load_identity. rewrite (tbind_run _ _ _ _ _ eq_refl), Ho.
  rewrite !bool_decide_true by done. simpl. by rewrite (tbind_run _ _ _ _ _ Hc).
Qed.

Lemma owned_intent_ok d id i s c :
  owned_intent d id = Some (i, s, c) ->
  (exists r, t_intent d !! id = Some r /\ ir_intent r = i)
  /\ t_scenario d !! pi_scenario_id i = Some s /\ t_client d !! sc_client_id s = Some c
  /\ cl_enabled c = true /\ sc_enabled s = true.
Proof.
  unfold owned_intent. intros Ho.
  destruct (t_intent d !! id) as [r|] eqn:Hr; simplify_eq/=.
  destruct (t_scenario d !! _) as [s'|] eqn:Hs; simplify_eq/=.
  destruct (t_client d !! _) as [c'|] eqn:Hc; simplify_eq/=.
  destruct (cl_enabled c' && sc_enabled s') eqn:He; simplify_eq. bool_inv. split_and!; eauto.
Qed.

(** ** What the commit does *)

Section Commit.
Context `{SolanaPubkey} `{UrlParser}.

Lemma load_authorized_ok identity d a s :
  load_authorized identity d = Ok (a, s) ->
  sa_identity a = identity
  /\ (exists pid, pi_policy_id (si_intent identity) = Some pid /\ t_policy d !! pid = Some (sa_policy a))
  /\ (exists wid, pi_wallet_id (si_intent identity) = Some wid /\ active_key d wid = Some (sa_active_key a))
  /\ validate_authorization_state identity (sa_policy a) (sa_wallet a) (sa_active_key a) None = Ok tt.
Proof.
  unfold load_authorized, load_policy. intros Hl. tx_inv.
  repeat match goal with Ho : load_or _ _ _ = Ok _ |- _ => apply load_or_ok in Ho; tx_inv end. simpl.
  split_and!; try done; eauto.
  by match goal with Hv : validate_authorization_state _ _ _ _ _ = Ok ?t |- _ => destruct t end.
Qed.

(** The authority under which a payment is signed. *)
Record signing_authority (d : DB) (w : SigningWrite) (a : OutboundSigningAuthorization) : Prop := {
  au_owned : owned_intent d (pi_id (gw_intent w))
             = Some (si_intent (sa_identity a), si_scenario (sa_identity a), si_client (sa_identity a));
  au_principal : cl_auth_principal (si_client (sa_identity a)) = sg_principal (gw_guard w);
  au_revisions : cl_updated_at (si_client (sa_identity a)) = sg_expected_client_updated_at (gw_guard w)
                 /\ sc_updated_at (si_scenario (sa_identity a)) = sg_expected_scenario_updated_at (gw_guard w)
                 /\ po_updated_at (sa_policy a) = sg_expected_policy_updated_at (gw_guard w)
                 /\ pw_updated_at (sa_wallet a) = sg_expected_wallet_updated_at (gw_guard w)
                 /\ k_version (sa_active_key a) = sg_expected_key_version (gw_guard w);
  au_policy : exists pid, pi_policy_id (si_intent (sa_identity a)) = Some pid
                          /\ t_policy d !! pid = Some (sa_policy a);
  au_key : exists wid, pi_wallet_id (si_intent (sa_identity a)) = Some wid
                       /\ active_key d wid = Some (sa_active_key a);
  au_challenge : load_challenge (pi_id (si_intent (sa_identity a))) d = Ok (gw_challenge w, d)
                 /\ si_challenge (sa_identity a) = gw_challenge w;
  au_identity : same_immutable_identity_as (si_intent (sa_identity a)) (gw_intent w) = true;
  au_signed : pi_status (gw_intent w) = Signed;
  au_state : validate_authorization_state (sa_identity a) (sa_policy a) (sa_wallet a) (sa_active_key a)
               (Some (sg_evaluated_at (gw_guard w))) = Ok tt
}.

Lemma load_and_validate_guard_ok w d a s :
  load_and_validate_guard (gw_guard w) (gw_intent w) (gw_challenge w) d = Ok (a, s) ->
  s = d /\ signing_authority d w a.
Proof.
  intros Hl. pose proof (read_only _ _ _ Hl) as ->. split; [done|].
  unfold load_and_validate_guard in Hl. tx_inv.
  match goal with Ho : load_or (load_identity _ _) _ _ = Ok _ |- _ =>
    apply load_or_ok, load_identity_ok in Ho as (Hown & Hpr & Hdir & Hch) end.
  match goal with Ha : load_authorized _ _ = Ok _ |- _ =>
    apply load_authorized_ok in Ha as (Hid & Hpol & Hkey & _) end.
  rewrite <- Hid in *. bool_inv.
  split; try done; try (split_and!; congruence).
  by match goal with Hv : validate_authorization_state _ _ _ _ _ = Ok ?t |- _ => destruct t end.
Qed.

Lemma sign_authorized_ok w d x d' :
  sign_authorized w d = Ok (x, d') ->
  exists a p r d1 d2 u, x = Inserted p /\ signing_authority d w a
    /\ si_client (ps_identity p) = si_client (sa_identity a)
    /\ si_scenario (ps_identity p) = si_scenario (sa_identity a)
    /\ si_intent (ps_identity p) = gw_intent w /\ si_challenge (ps_identity p) = gw_challenge w
    /\ ps_credential_hash p = gw_credential_hash w /\ ps_sealed_credential p = gw_sealed_credential w
    /\ validate_signing_events (gw_events w) (pi_id (gw_intent w)) (gw_credential_hash w)
         (gw_sealed_credential w) = Ok tt
    /\ update_intent (gw_intent w) (sg_expected_intent_updated_at (gw_guard w)) RmUnchanged d = Ok (tt, d1)
    /\ t_intent d1 !! pi_id (gw_intent w) = Some r /\ ir_credential_hash r = None
    /\ intent_checks (set_credential (gw_credential_hash w) r) = true
    /\ intent_unique d1 (set_credential (gw_credential_hash w) r) = true
    /\ d2 = set_intent <[pi_id (gw_intent w) := set_credential (gw_credential_hash w) r]> d1
    /\ append_side_effects (gw_events w) (gw_outbox w) d2 = Ok (u, d').
Proof.
  unfold sign_authorized. intros Hs. run_inv.
  match goal with Hl : load_and_validate_guard _ _ _ _ = Ok _ |- _ =>
    apply load_and_validate_guard_ok in Hl as [-> Hau] end.
  match goal with He : expect_one _ _ _ = Ok _ |- _ => apply expect_one_ok in He as [-> ->] end.
  match goal with Hu : sql_update_intent _ _ _ _ _ = Ok _ |- _ =>
    apply sql_update_intent_ok in Hu as [[? ?]|(r & _ & Hr & Hg & Hc & Hu & ->)]; [done|] end.
  repeat match goal with u : unit |- _ => destruct u end.
  eexists _, _, r, _, _, tt. split_and!; try done. by destruct (ir_credential_hash r).
Qed.

Lemma commit_signed_cases w d x d' :
  commit_signed w d = Ok (x, d') ->
  exists identity,
    load_identity (sg_principal (gw_guard w)) (pi_id (gw_intent w)) d = Ok (Some identity, d)
    /\ ((is_signed_replay_status (pi_status (si_intent identity)) = true
         /\ replay_signed identity (gw_intent w) (gw_challenge w) d = Ok (x, d'))
        \/ (is_signed_replay_status (pi_status (si_intent identity)) = false
            /\ lock_signing_principal (gw_guard w) d = Ok (tt, d)
            /\ sign_authorized w d = Ok (x, d'))).
Proof.
  unfold commit_signed. intros Hc. run_inv.
  match goal with Hl : lock_signing_principal _ _ = Ok (?u, ?s) |- _ =>
    pose proof (read_only _ _ _ Hl) as ->; destruct u end.
  match goal with Hl : load_or (load_identity _ _) _ _ = Ok (?i, ?s) |- _ =>
    apply load_or_ok in Hl; pose proof (read_only _ _ _ Hl) as ->; exists i; split; [done|];
    rename i into identity; rename Hl into Hid end.
  destruct (is_signed_replay_status _) eqn:Hst.
  - run_inv. match goal with Hl : load_or (load_identity _ _) _ _ = Ok (?i, ?s) |- _ =>
      apply load_or_ok in Hl; rewrite Hid in Hl; simplify_eq end. left. done.
  - run_inv. match goal with Hl : lock_signing_payment_authority _ _ = Ok (_, ?s) |- _ =>
      pose proof (read_only _ _ _ Hl) as -> end.
    match goal with Hl : load_or (load_identity _ _) _ _ = Ok (?i, ?s) |- _ =>
      apply load_or_ok in Hl; rewrite Hid in Hl; simplify_eq end.
    rewrite Hst in Hc. right. done.
Qed.
End Commit.

Section SigningTheorems.
Context `{SolanaPubkey} `{UrlParser}.

Lemma credential_write_flow d k h r :
  t_intent d !! k = Some r -> ir_credential_hash r = None ->
  intent_checks (set_credential h r) = true -> intent_unique d (set_credential h r) = true ->
  flow d (set_intent <[k := set_credential h r]> d).
Proof.
  intros Hr Hn Hc Hu. apply intent_write_flow; try done.
  - intros Hdb. simpl. symmetry. by apply (intents_keyed _ (db_intents _ Hdb)).
  - intros old Hold. simplify_eq. destruct (row_evolves_refl r). by split.
  - left. eauto.
Qed.

Lemma commit_signed_flow w d x d' : commit_signed w d = Ok (x, d') -> flow d d'.
Proof.
  intros (identity & _ & [[_ Hr]|(_ & _ & Hs)])%commit_signed_cases.
  - by rewrite (read_only _ _ _ Hr).
  - apply sign_authorized_ok in Hs
      as (a & p & r & d1 & d2 & u & _ & _ & _ & _ & _ & _ & _ & _ & _ & Hup & Hr & Hn & Hc & Hu & -> & Ha).
    etrans; [by eapply update_intent_flow|]. etrans; [by eapply credential_write_flow|by eapply append_flow].
Qed.

Lemma commit_signed_inserted w d p d' :
  commit_signed w d = Ok (Inserted p, d') -> sign_authorized w d = Ok (Inserted p, d').
Proof.
  intros (identity & _ & [[_ Hr]|(_ & _ & Hs)])%commit_signed_cases; [|done].
  unfold replay_signed in Hr. run_inv. done.
Qed.

Lemma validate_authorization_state_ok identity policy wallet key at_ :
  validate_authorization_state identity policy wallet key at_ = Ok tt ->
  signing_challenge_bound identity at_ = true /\ signing_key_ready (si_intent identity) wallet key at_ = true.
Proof. unfold validate_authorization_state. intros Hv. run_inv. bool_inv. done. Qed.

Lemma commit_signed_inserts w d p d' :
  db_ok d -> commit_signed w d = Ok (Inserted p, d') ->
  let id := pi_id (gw_intent w) in
  exists a r,
    signing_authority d w a
    /\ t_intent d !! id = Some r /\ ir_intent r = si_intent (sa_identity a)
    /\ pi_status (ir_intent r) = Authorized /\ pi_reservation_status (ir_intent r) = Reserved
    /\ pi_reserved_amount (ir_intent r) = pi_amount (ir_intent r) /\ ir_credential_hash r = None
    /\ (sg_evaluated_at (gw_guard w) < ch_expires_at (gw_challenge w))%Z
    /\ k_status (sa_active_key a) = KeyActive
    /\ (exists r', t_intent d' !! id = Some r' /\ ir_intent r' = gw_intent w
          /\ pi_status (ir_intent r') = Signed /\ ir_credential_hash r' = Some (gw_credential_hash w)
          /\ pi_reservation_status (ir_intent r') = Reserved
          /\ pi_reserved_amount (ir_intent r') = pi_reserved_amount (ir_intent r))
    /\ (forall k, k <> id -> t_intent d' !! k = t_intent d !! k)
    /\ t_ledger d' = t_ledger d /\ t_approval d' = t_approval d.
Proof.
  intros Hdb Hc%commit_signed_inserted. simpl.
  apply sign_authorized_ok in Hc
    as (a & p' & r1 & d1 & d2 & u & _ & Hau & _ & _ & _ & _ & _ & _ & _ & Hup & Hr1 & Hn & Hch & Hun & -> & Ha).
  pose proof Hau as [Hown _ _ _ _ [_ Hchal] Hidn Hsg Hst].
  apply owned_intent_ok in Hown as ((r & Hr & Hri) & _).
  destruct (validate_authorization_state_ok _ _ _ _ _ Hst) as [Hb Hk].
  unfold signing_challenge_bound in Hb. unfold signing_key_ready in Hk. simpl in Hb. bool_inv.
  pose proof (append_side_effects_appended _ _ _ _ _ Ha) as [_ Hti Hta Htl _ _ _].
  apply update_intent_ok in Hup as (r0 & Hr0 & _ & _ & Hid0 & _ & _ & Hres & _ & _ & ->).
  simpl in Hr1, Hti, Htl, Hta. rewrite lookup_insert_eq in Hr1. rewrite Hr in Hr0.
  injection Hr0 as <-. injection Hr1 as <-.
  simpl in Hres. apply reject_if_ok in Hres. bool_inv.
  pose proof (update_columns_intent _ _ Hid0) as Heq.
  exists a, r. rewrite Hri in *. split_and!; try done.
  - by rewrite <- Hchal.
  - exists (set_credential (gw_credential_hash w) (update_columns (gw_intent w) r)).
    rewrite Hti, lookup_insert_eq. unfold set_credential. cbn [ir_intent ir_credential_hash].
    rewrite Heq. split_and!; try done; congruence.
  - intros k Hne. rewrite Hti, !lookup_insert_ne by done. done.
Qed.

(** A credential is bound once: a commit for a payment that already has
    one never changes the state, and when it succeeds it returns the
    credential bound first. *)
Lemma commit_signed_never_resigns w d r h x d' :
  db_ok d -> t_intent d !! pi_id (gw_intent w) = Some r -> ir_credential_hash r = Some h ->
  commit_signed w d = Ok (x, d') ->
  d' = d /\ exists p, x = Replayed p /\ ps_credential_hash p = h.
Proof.
  intros Hdb Hr Hh (identity & Hid & [[_ Hrep]|(_ & _ & Hs)])%commit_signed_cases.
  - split; [by apply (read_only _ _ _ Hrep)|].
    apply load_identity_ok in Hid as (Hown & _). apply owned_intent_ok in Hown as ((r0 & Hr0 & Hi0) & _).
    assert (pi_id (si_intent identity) = pi_id (gw_intent w)) as Hkey
      by (rewrite <- Hi0; by apply (intents_keyed _ (db_intents _ Hdb))).
    unfold replay_signed, load_signed in Hrep. run_inv. eexists; split; [done|]. simpl.
    match goal with Hf : fetch_optional _ _ = Some _ |- _ => apply fetch_optional_Some in Hf as [Hp _] end.
    unfold initial_event in Hp. bool_inv.
    match goal with He : ev_intent_id _ = _, Hl : t_intent _ !! ev_intent_id _ = Some _ |- _ =>
      rewrite He, Hkey in Hl end.
    congruence.
  - apply sign_authorized_ok in Hs
      as (a & p & r1 & d1 & d2 & u & _ & _ & _ & _ & _ & _ & _ & _ & _ & Hup & Hr1 & Hn & _).
    apply update_intent_ok in Hup as (r0 & Hr0 & _ & _ & _ & _ & _ & _ & _ & _ & ->).
    simpl in Hr1. rewrite lookup_insert_eq in Hr1. injection Hr1 as <-. simpl in Hn. congruence.
Qed.

(** The signed event is stored and names the credential. *)
Lemma validate_signing_events_ok events id h sealed :
  validate_signing_events events id h sealed = Ok tt ->
  exists e v, e ∈ events /\ initial_event id EvSigned e = true /\ ev_signature_ref e = Some h
    /\ jget_str "credential_hash" (ev_payload e) = Some h
    /\ jget "sealed_credential" (ev_payload e) = Some v /\ sealed_from_json v = Some sealed.
Proof.
  unfold validate_signing_events. intros Hv. apply reject_if_ok in Hv.
  apply orb_false_iff in Hv as [Hv Hhead]. apply orb_false_iff in Hv as [Hv Hall]. bool_inv.
  destruct (of_type EvSigned events) as [|e rest] eqn:Hof; [done|]. simpl in Hhead. bool_inv.
  assert (e ∈ of_type EvSigned events) as He by (rewrite Hof; left).
  unfold of_type in He. apply list_elem_of_In, filter_In in He as [Hin Ht]. bool_inv.
  rewrite <- not_true_iff_false, existsb_exists in Hall.
  assert ((ev_intent_id e != id) || (ev_attempt_no e != 0%N) = false) as Hb
    by (apply not_true_is_false; intros Hb; apply Hall; eauto).
  bool_inv. destruct (jget "sealed_credential" (ev_payload e)) as [v|] eqn:Hs; [|done].
  exists e, v. split_and!; try done; [by apply list_elem_of_In|].
  unfold initial_event. by rewrite !bool_decide_true by done.
Qed.

Lemma commit_signed_stored w d p d' :
  db_ok d -> commit_signed w d = Ok (Inserted p, d') ->
  exists e v, fetch_optional (initial_event (pi_id (gw_intent w)) EvSigned) (t_event d') = Some e
    /\ ev_signature_ref e = Some (gw_credential_hash w)
    /\ jget_str "credential_hash" (ev_payload e) = Some (gw_credential_hash w)
    /\ jget "sealed_credential" (ev_payload e) = Some v /\ sealed_from_json v = Some (gw_sealed_credential w).
Proof.
  intros Hdb Hc. pose proof (flow_db_ok _ _ (commit_signed_flow _ _ _ _ Hc) Hdb) as Hdb'.
  apply commit_signed_inserted, sign_authorized_ok in Hc
    as (a & p' & r1 & d1 & d2 & u & _ & _ & _ & _ & _ & _ & _ & _ & Hev & Hup & Hr & Hn & Hch & Hun & -> & Ha).
  apply validate_signing_events_ok in Hev as (e & v & Hin & Hinit & Href & Hh & Hv & Hs).
  exists e, v. split_and!; try done.
  assert (events_ok (t_event d1)) as Hev1
    by (eapply db_events, flow_db_ok; [by eapply update_intent_flow|done]).
  pose proof (append_side_effects_stored _ _ (set_intent _ d1) _ _ Hev1 Ha e Hin) as Hst.
  eapply fetch_optional_unique; [exact Hst|done|]. intros k' y Hy Hpy.
  assert (k' = ev_id e) as ->; [|congruence].
  eapply (events_unique _ (db_events _ Hdb')); [exact Hy|exact Hst|].
  unfold initial_event in *. bool_inv. unfold event_same_key. by rewrite !bool_decide_true by congruence.
Qed.

Lemma load_signed_run identity d r e v h sealed :
  fetch_optional (initial_event (pi_id (si_intent identity)) EvSigned) (t_event d) = Some e ->
  t_intent d !! pi_id (si_intent identity) = Some r -> ir_credential_hash r = Some h ->
  ev_signature_ref e = Some h -> jget_str "credential_hash" (ev_payload e) = Some h ->
  jget "sealed_credential" (ev_payload e) = Some v -> sealed_from_json v = Some sealed ->
  load_signed identity d
  = Ok ({| ps_identity := identity; ps_credential_hash := h; ps_sealed_credential := sealed |}, d).
Proof.
  intros Hf Hr Hc Href Hh Hv Hs. unfold load_signed.
  pose proof (fetch_optional_Some _ _ _ Hf) as [Hp _]. unfold initial_event in Hp. bool_inv.
  match goal with He : ev_intent_id e = _ |- _ => rewrite <- He in Hr end.
  rewrite (tbind_run _ _ _ _ _ eq_refl), Hf, (tbind_run _ _ _ _ _ eq_refl).
  erewrite tbind_run; [|apply tlift_ok; split; [by apply ok_or_ok|done]].
  erewrite tbind_run; [|apply tlift_ok; split; [by apply ok_or_ok|done]].
  erewrite tbind_run; [|apply tlift_ok; split; [by apply ok_or_ok|done]].
  erewrite tbind_run; [|apply tlift_ok; split; [by apply ok_or_ok|done]].
  by rewrite Hc, Hh, !bool_decide_true by done.
Qed.

(** A commit of the same payment by the same principal. *)
Definition same_signing (w w2 : SigningWrite) : Prop :=
  sg_principal (gw_guard w2) = sg_principal (gw_guard w)
  /\ sg_client_id (gw_guard w2) = sg_client_id (gw_guard w)
  /\ sg_scenario_id (gw_guard w2) = sg_scenario_id (gw_guard w)
  /\ same_immutable_identity_as (gw_intent w) (gw_intent w2) = true
  /\ gw_challenge w2 = gw_challenge w.

Lemma owned_intent_flow d d' id i s c :
  db_ok d -> flow d d' -> owned_intent d id = Some (i, s, c) ->
  exists r r', t_intent d !! id = Some r /\ ir_intent r = i /\ t_intent d' !! id = Some r' /\ row_evolves r r'
    /\ owned_intent d' id = Some (ir_intent r', s, c).
Proof.
  intros Hdb Hf Ho. apply owned_intent_ok in Ho as ((r & Hr & Hi) & Hs & Hc & Hce & Hse).
  destruct (fl_catalog _ _ Hf) as (Hcl & Hsc & _). destruct (fl_db _ _ Hf Hdb) as (_ & _ & _ & Hev & _).
  destruct (Hev _ _ Hr) as (r' & Hr' & E). exists r, r'. split_and!; try done.
  pose proof (re_identity _ _ E) as Hid. apply same_immutable_identity_iff in Hid as (_ & Hscid & _).
  unfold owned_intent. rewrite Hr'. simpl. rewrite <- Hscid, Hi, Hsc, Hs. simpl. rewrite Hcl, Hc. simpl.
  by rewrite Hce, Hse.
Qed.

(** A commit for a payment that is signed returns what is stored. *)
Lemma commit_signed_replays w d identity p :
  lock_signing_principal (gw_guard w) d = Ok (tt, d) ->
  load_identity (sg_principal (gw_guard w)) (pi_id (gw_intent w)) d = Ok (Some identity, d) ->
  is_signed_replay_status (pi_status (si_intent identity)) = true ->
  load_signed identity d = Ok (p, d) -> si_challenge (ps_identity p) = gw_challenge w ->
  same_immutable_identity_as (si_intent (ps_identity p)) (gw_intent w) = true ->
  commit_signed w d = Ok (Replayed p, d).
Proof.
  intros Hlock Hid Hst Hl Hch Hsame. unfold commit_signed. rewrite (tbind_run _ _ _ _ _ Hlock).
  erewrite tbind_run; [|by apply load_or_ok]. rewrite Hst.
  erewrite tbind_run; [|by apply load_or_ok]. unfold replay_signed.
  by rewrite (tbind_run _ _ _ _ _ Hl), Hch, Hsame, bool_decide_true by done.
Qed.

(** Catalog rows do not change, so the principal's lock still succeeds. *)
Lemma lock_signing_principal_flow g g2 d d2 u s :
  flow d d2 -> sg_principal g2 = sg_principal g -> sg_client_id g2 = sg_client_id g ->
  sg_scenario_id g2 = sg_scenario_id g -> lock_signing_principal g d = Ok (u, s) ->
  lock_signing_principal g2 d2 = Ok (tt, d2).
Proof.
  intros Hf Hpr Hcl Hsc Hlock. unfold lock_signing_principal, require in *. run_inv.
  destruct (fl_catalog _ _ Hf) as (Hcc & Hss & _).
  rewrite (tbind_run _ _ _ _ _ eq_refl). apply tlift_ok. split; [|done]. apply reject_if_ok.
  by rewrite Hpr, Hcl, Hsc, Hcc, Hss.
Qed.

(** The credential the commit bound stays on the row. *)
Lemma commit_signed_bound w d p d1 d2 r :
  db_ok d -> commit_signed w d = Ok (Inserted p, d1) -> flow d1 d2 ->
  t_intent d2 !! pi_id (gw_intent w) = Some r ->
  ir_credential_hash r = Some (gw_credential_hash w) /\ ps_credential_hash p = gw_credential_hash w
  /\ ps_sealed_credential p = gw_sealed_credential w.
Proof.
  intros Hdb Hc Hf Hr. pose proof (flow_db_ok _ _ (commit_signed_flow _ _ _ _ Hc) Hdb) as Hdb1.
  destruct (fl_db _ _ Hf Hdb1) as (_ & _ & _ & Hev & _).
  apply commit_signed_inserted, sign_authorized_ok in Hc as (a & p' & r1 & da & db & u & [= <-] & _ & _ & _ & _ & _
    & Hph & Hps & _ & _ & _ & _ & _ & _ & -> & Ha).
  split; [|done]. pose proof (append_side_effects_appended _ _ _ _ _ Ha) as [_ Hti _ _ _ _ _]. simpl in Hti.
  destruct (Hev (pi_id (gw_intent w)) (set_credential (gw_credential_hash w) r1)) as (r' & Hr' & E');
    [by rewrite Hti, lookup_insert_eq|].
  rewrite Hr in Hr'. injection Hr' as ->. by apply (re_credential _ _ E').
Qed.

(** The first credential is durable: whatever transactions follow, as
    long as the payment has not failed, a retry of the signing commit by the
    same principal is answered with the credential of the first commit and
    changes nothing, however different the credential it offers. *)
Lemma signed_credential_durable w d p d1 d2 w2 r :
  db_ok d -> commit_signed w d = Ok (Inserted p, d1) -> flow d1 d2 -> same_signing w w2 ->
  t_intent d2 !! pi_id (gw_intent w) = Some r -> is_signed_replay_status (pi_status (ir_intent r)) = true ->
  exists q, commit_signed w2 d2 = Ok (Replayed q, d2)
    /\ ps_credential_hash q = ps_credential_hash p /\ ps_sealed_credential q = ps_sealed_credential p.
Proof.
  intros Hdb Hc Hf (Hpr & Hcl & Hsc & Hsame & Hch) Hr Hst.
  pose proof (commit_signed_flow _ _ _ _ Hc) as Hf1. pose proof (flow_db_ok _ _ Hf1 Hdb) as Hdb1.
  pose proof (flow_trans _ _ _ Hf1 Hf) as Hf2.
  destruct (commit_signed_bound _ _ _ _ _ _ Hdb Hc Hf Hr) as (Hcred & Hph & Hps).
  destruct (fl_db _ _ Hf2 Hdb) as (Hdb2 & Hsub & _).
  destruct (fl_db _ _ Hf Hdb1) as (_ & Hsub1 & _).
  destruct (commit_signed_stored _ _ _ _ Hdb Hc) as (e & v & Hfe & Href & Hh & Hv & Hs).
  pose proof (initial_event_stable _ _ _ _ _ (db_events _ Hdb2) Hsub1 Hfe) as Hfe2.
  pose proof Hc as (identity & Hid & [[_ Hrep]|(_ & Hlock & Hsign)])%commit_signed_cases.
  { unfold replay_signed in Hrep. run_inv. done. }
  apply sign_authorized_ok in Hsign as (a & _ & _ & _ & _ & _ & _ & Hau & _).
  pose proof Hau as [Hown Hprin _ _ _ [Hload _] Hidn _ _].
  destruct (owned_intent_flow _ _ _ _ _ _ Hdb Hf2 Hown) as (r0 & r2 & Hr0 & Hi0 & Hr2 & E & Hown2).
  rewrite Hr2 in Hr. injection Hr as ->.
  pose proof (re_identity _ _ E) as Hide.
  assert (pi_id (gw_intent w2) = pi_id (gw_intent w)) as Hkey
    by (apply same_immutable_identity_iff in Hsame as [? _]; congruence).
  assert (pi_id (ir_intent r) = pi_id (gw_intent w)) as Hkr
    by (by apply (intents_keyed _ (db_intents _ Hdb2))).
  assert (pi_direction (ir_intent r) = Outbound) as Hdir.
  { apply load_identity_ok in Hid as (Ho & _ & Hd & _). rewrite Hown in Ho. injection Ho as Ho _ _.
    apply same_immutable_identity_iff in Hide. rewrite Hi0 in Hide. intuition congruence. }
  assert (load_challenge (pi_id (ir_intent r)) d2 = Ok (gw_challenge w, d2)) as Hload2.
  { rewrite Hkr. eapply load_challenge_stable; [apply Hdb2|exact Hsub|].
    apply same_immutable_identity_iff in Hidn as [Heq _]. rewrite <- Heq. exact Hload. }
  set (id2 := {| si_client := si_client (sa_identity a); si_scenario := si_scenario (sa_identity a);
                 si_intent := ir_intent r; si_challenge := gw_challenge w |}).
  assert (load_identity (sg_principal (gw_guard w2)) (pi_id (gw_intent w2)) d2 = Ok (Some id2, d2)) as Hid2
    by (apply load_identity_run; rewrite ?Hkey; congruence).
  exists {| ps_identity := id2; ps_credential_hash := gw_credential_hash w;
            ps_sealed_credential := gw_sealed_credential w |}.
  split; [|by rewrite Hph, Hps].
  eapply commit_signed_replays; [by eapply lock_signing_principal_flow|exact Hid2|exact Hst| | |].
  - eapply load_signed_run; simpl; rewrite ?Hkr; eassumption.
  - done.
  - simpl. rewrite <- Hi0 in Hidn. rewrite !same_immutable_identity_iff in *. intuition congruence.
Qed.

(** Reads are isolated by owner: a read that names a principal returns a
    payment only when that principal's enabled client owns the enabled
    scenario of that outbound payment, and it changes nothing. *)
Lemma load_for_principal_isolated principal id d x d' :
  load_for_principal (Some principal) id d = Ok (Some x, d') ->
  d' = d /\ principal <> "" /\
  exists i s c, owned_intent d id = Some (i, s, c) /\ cl_auth_principal c = principal
    /\ cl_enabled c = true /\ sc_enabled s = true /\ pi_direction i = Outbound
    /\ match x with
       | ReadAuthorized a => si_intent (sa_identity a) = i /\ pi_status i = Authorized
       | ReadSigned p => si_intent (ps_identity p) = i /\ is_signed_replay_status (pi_status i) = true
       end.
Proof.
  intros Hl. pose proof (read_only _ _ _ Hl) as ->. split; [done|].
  unfold load_for_principal in Hl. run_inv. split; [by intros ->|].
  match goal with Ha : load_identity_for_access _ _ _ = Ok (?f, _) |- _ =>
    pose proof (read_only _ _ _ Ha) as ->; unfold load_identity_for_access in Ha; run_inv;
    destruct f as [identity|]; [|run_inv; done]; rename Ha into Hacc end.
  destruct (owned_intent d id) as [[[i s] c]|] eqn:Hown; [|run_inv; done]. simpl in Hacc.
  case_bool_decide as Hp; [|run_inv; done].
  apply load_identity_ok in Hacc as (Hown' & Hpr & Hdir & _). rewrite Hown in Hown'.
  injection Hown' as -> -> ->.
  apply owned_intent_ok in Hown as (_ & _ & _ & Hce & Hse).
  eexists _, _, _. split; [done|]. split_and!; try done.
  destruct (pi_status (si_intent identity)) eqn:Hst; run_inv; simplify_eq; try done.
  all: match goal with
       | Ha : load_authorized _ _ = Ok _ |- _ => apply load_authorized_ok in Ha as (-> & _); done
       | Ha : load_signed _ _ = Ok _ |- _ => unfold load_signed in Ha; run_inv; by simpl
       | _ => idtac
       end.
Qed.
End SigningTheorems.

(** ** The sample payment is signed *)

Module SampleSigning.
Definition sealed (ciphertext : string) : SealedSensitiveMaterial :=
  {| sm_version := 2; sm_key_id := "k"; sm_nonce := "n"; sm_ciphertext := ciphertext |}.
Definition signed_event (hash ciphertext : string) (at_ : Z) : PaymentEvent :=
  {| ev_id := "event-s" ++ hash; ev_intent_id := "intent-1"; ev_event_type := EvSigned; ev_attempt_no := 0;
     ev_signature_ref := Some hash; ev_tx_hash := None;
     ev_payload := jobject [("credential_hash", JString hash);
                            ("sealed_credential", sealed_to_json (sealed ciphertext))];
     ev_created_at := at_ |}.
Definition guard (at_ : Z) : SigningGuard :=
  {| sg_principal := "principal-1"; sg_client_id := "client-1"; sg_expected_client_updated_at := 1600000000;
     sg_scenario_id := "scenario-1"; sg_expected_scenario_updated_at := 1600000000;
     sg_policy_id := "policy-1"; sg_expected_policy_updated_at := 1600000000; sg_wallet_id := "wallet-1";
     sg_expected_wallet_updated_at := 1600000000; sg_expected_key_version := 1;
     sg_expected_intent_updated_at := Sample.now; sg_challenge_hash := "challenge-1"; sg_evaluated_at := at_ |}.
(** A signing attempt at a time, with the credential it produced. *)
Definition sign (hash ciphertext : string) (at_ : Z) : SigningWrite :=
  {| gw_intent := Sample.with_status Sample.intent Signed Reserved 0 None (Some 1700000300%Z) at_;
     gw_challenge := Sample.challenge 250000; gw_credential_hash := hash;
     gw_sealed_credential := sealed ciphertext; gw_guard := guard at_;
     gw_events := [Sample.event "event-r" "intent-1" EvSignRequested (jobject []) at_;
                   signed_event hash ciphertext at_];
     gw_outbox := [Sample.message "out-s" "intent-1" "run-1" "payment_signed"] |}.
Definition first : SigningWrite := sign "hash-1" "c1" 1700000005.
Definition second : SigningWrite := sign "hash-2" "c2" 1700000006.
Definition result : PersistedSignedPayment :=
  {| ps_identity := {| si_client := Sample.client; si_scenario := Sample.scenario;
                       si_intent := gw_intent first; si_challenge := gw_challenge first |};
     ps_credential_hash := "hash-1"; ps_sealed_credential := sealed "c1" |}.
Definition signed_db : DB := state_of (@commit_signed Sample.codec Sample.parser first Sample.reserved_db).
End SampleSigning.

#[local] Existing Instance Sample.codec.
#[local] Existing Instance Sample.parser.

Lemma sample_signed :
  commit_signed SampleSigning.first Sample.reserved_db = Ok (Inserted SampleSigning.result, SampleSigning.signed_db).
Proof. vm_compute. reflexivity. Qed.
Lemma sample_signed_ok : db_ok SampleSigning.signed_db.
Proof. exact (flow_db_ok _ _ (commit_signed_flow _ _ _ _ sample_signed) sample_reserved_ok). Qed.
