(* ===== verification/OutboxStore.v ===== *)
(** * The outbox queue

    The delivery queue of [src/src/storage/outbox/sqlite.rs] (claiming a
    lease, acknowledging, rescheduling and dead-lettering a message) and the
    worker of [src/src/payment/outbox.rs] that drains it into a sink.  The sink
    ([PaymentEventSink]) is a parameter: a message either is answered within
    the delivery timeout or is not. *)

From S2P Require Import Prelude Text Money Json Wallet Intent Policy Ledger Records Store Budget.

#[local] Open Scope string_scope.
#[local] Open Scope vault_scope.

Record OutboxLeaseRequest : Type := {
  lr_owner : string;
  lr_class : OutboxDeliveryClass;
  lr_now : Z;
  lr_lease_until : Z;
  lr_limit : N
}.

(** ** SQLite [GLOB] *)

Inductive GlobToken : Type := GLit (c : ascii) | GOne | GMany.

(** The patterns of the queries have no bracket classes. *)
Fixpoint glob_pattern (s : string) : list GlobToken :=
  match s with
  | "" => []
  | String c rest =>
      (if c == "*"%char then GMany else if c == "?"%char then GOne else GLit c) :: glob_pattern rest
  end.

(** The text SQLite sees ends at a NUL character. *)
Fixpoint sql_text (s : string) : string :=
  match s with
  | "" => ""
  | String c rest => if c == "000"%char then "" else String c (sql_text rest)
  end.

Definition is_continuation (c : ascii) : bool := in_range 128 191 (byte_of c).
Fixpoint drop_continuations (s : string) : string :=
  match s with
  | "" => ""
  | String c rest => if is_continuation c then drop_continuations rest else s
  end.
(** The text after its first UTF-8 character. *)
Definition after_char (s : string) : option string :=
  match s with
  | "" => None
  | String c rest => Some (if (192 <=? byte_of c)%N then drop_continuations rest else rest)
  end.

(** Some suffix of the text satisfies the rest of the pattern. *)
Fixpoint any_suffix (p : string -> bool) (s : string) : bool :=
  p s || match s with "" => false | String _ rest => any_suffix p rest end.

Fixpoint glob (pattern : list GlobToken) (s : string) : bool :=
  match pattern with
  | [] => is_empty s
  | GLit c :: rest => match s with
                      | String a s' => (a == c) && glob rest s'
                      | "" => false
                      end
  | GOne :: rest => is_some_and (glob rest) (after_char s)
  | GMany :: rest => any_suffix (glob rest) s
  end.

(** The class condition of the [claim] query. *)
Definition class_glob (c : OutboxDeliveryClass) (m : OutboxMessage) : bool :=
  let destination := sql_text (ob_destination m) in
  match c with
  | ApprovalRequired =>
      (ob_event_type m == "approval_required") && glob (glob_pattern "client:?*.approvals") destination
  | PaymentEvents =>
      glob (glob_pattern "client:?*.payments") destination || glob (glob_pattern "scenario:?*.payments") destination
  end.

(** ** Statements *)

(** [UPDATE pay_outbox ... WHERE id = $id AND guard]; no statement changes an
    identity column. *)
Definition sql_update_outbox (id : string) (guard : OutboxMessage -> bool) (f : OutboxMessage -> OutboxMessage)
    (on_error : Error) : Tx DB nat := fun d =>
  match t_outbox d !! id with
  | Some m => if guard m then
                if outbox_checks (f m) then Ok (1, set_outbox <[id := f m]> d) else Err on_error
              else Ok (0, d)
  | None => Ok (0, d)
  end.

(** The columns the queue updates. *)
Definition outbox_with (m : OutboxMessage) (status : OutboxStatus) (attempts : N) (available_at : Z)
    (owner : option string) (lease : option Z) (error : option string) (delivered_at : option Z) : OutboxMessage :=
  {| ob_id := ob_id m; ob_aggregate_type := ob_aggregate_type m; ob_aggregate_id := ob_aggregate_id m;
     ob_event_type := ob_event_type m; ob_destination := ob_destination m; ob_run_id := ob_run_id m;
     ob_payload := ob_payload m; ob_status := status; ob_attempt_count := attempts; ob_available_at := available_at;
     ob_lease_owner := owner; ob_lease_expires_at := lease; ob_last_error := error;
     ob_created_at := ob_created_at m; ob_delivered_at := delivered_at |}.

Definition leased_columns (owner : string) (until : Z) (m : OutboxMessage) : OutboxMessage :=
  outbox_with m (ob_status m) (ob_attempt_count m + 1) (ob_available_at m) (Some owner) (Some until)
    (ob_last_error m) (ob_delivered_at m).
Definition delivered_columns (at_ : Z) (m : OutboxMessage) : OutboxMessage :=
  outbox_with m ObDelivered (ob_attempt_count m) (ob_available_at m) None None None (Some at_).
Definition rescheduled_columns (at_ : Z) (error : string) (m : OutboxMessage) : OutboxMessage :=
  outbox_with m (ob_status m) (ob_attempt_count m) at_ None None (Some error) (ob_delivered_at m).
Definition dead_letter_columns (error : string) (m : OutboxMessage) : OutboxMessage :=
  outbox_with m ObDeadLetter (ob_attempt_count m) (ob_available_at m) None None (Some error) (ob_delivered_at m).

Definition outbox_due (now : Z) (m : OutboxMessage) : bool :=
  (ob_status m == ObPending) && (ob_available_at m <=? now)%Z
  && is_none_or (fun t => (t <=? now)%Z) (ob_lease_expires_at m).

(** [ORDER BY available_at, created_at, id] *)
Definition outbox_before (a b : OutboxMessage) : bool :=
  (ob_available_at a <? ob_available_at b)%Z
  || ((ob_available_at a =? ob_available_at b)%Z
      && ((ob_created_at a <? ob_created_at b)%Z
          || ((ob_created_at a =? ob_created_at b)%Z && negb (str_ltb (ob_id b) (ob_id a))))).

(** One iteration of [claim]'s loop. *)
Definition lease_one (q : OutboxLeaseRequest) (id : string) : Tx DB OutboxMessage :=
  let* changed := sql_update_outbox id
                    (fun m => outbox_due (lr_now q) m && (ob_attempt_count m <? U32_MAX)%N)
                    (leased_columns (lr_owner q) (lr_lease_until q)) (Storage "claim outbox message") in
  expect_one changed (conflict "outbox claim lost its conditional lease update") ;*
  load_or (treads (fun d => t_outbox d !! id)) (Storage "reload claimed outbox message").

Definition due_ids (q : OutboxLeaseRequest) (d : DB) : list string :=
  map ob_id (firstn (N.to_nat (lr_limit q))
               (order_by outbox_before
                  (select (fun m => outbox_due (lr_now q) m && class_glob (lr_class q) m) (t_outbox d)))).

(** [IOutboxRepository::claim] *)
Definition claim (q : OutboxLeaseRequest) : Tx DB (list OutboxMessage) :=
  tlift (reject_if (blank (lr_owner q) || (lr_lease_until q <=? lr_now q)%Z || (lr_limit q =? 0)%N)
                   (InvalidRequest "invalid outbox lease request")) ;*
  let* ids := treads (due_ids q) in
  tmapM (lease_one q) ids.

(** [transition_lease] *)
Definition transition_lease (f : OutboxMessage -> OutboxMessage) (message_id owner operation : string) : Tx DB unit :=
  tlift (reject_if (blank message_id || blank owner) (InvalidRequest "outbox lease identity is incomplete")) ;*
  let* changed := sql_update_outbox message_id
                    (fun m => (ob_status m == ObPending) && (ob_lease_owner m == Some owner)) f (Storage operation) in
  expect_one changed (conflict "outbox message is not held by the lease owner").

(** [IOutboxRepository::{mark_delivered, reschedule, mark_dead_letter}] *)
Definition mark_delivered (message_id owner : string) (delivered_at : Z) : Tx DB unit :=
  transition_lease (delivered_columns delivered_at) message_id owner "mark outbox message delivered".
Definition reschedule (message_id owner : string) (available_at : Z) (error : string) : Tx DB unit :=
  transition_lease (rescheduled_columns available_at error) message_id owner "reschedule outbox message".
Definition mark_dead_letter (message_id owner error : string) : Tx DB unit :=
  transition_lease (dead_letter_columns error) message_id owner "mark outbox message dead-letter".

(** ** The dispatcher *)

Definition MAX_BATCH_SIZE : N := 1000.
Definition MAX_ERROR_CHARS : N := 512.

(** [std::time::Duration], of which the worker reads the whole seconds. *)
Record Duration : Type := { as_secs : N; subsec_nanos : N }.

Record PaymentEventDispatcherConfig : Type := {
  dc_worker_id : string;
  dc_batch_size : N;
  dc_lease_duration : Duration;
  dc_delivery_timeout : Duration;
  dc_poll_interval : Duration;
  dc_initial_backoff : Duration;
  dc_max_backoff : Duration;
  dc_max_attempts : N
}.

Inductive PaymentEventDelivery : Type :=
| Delivered
| Retryable (reason : string)
| PermanentFailure (reason : string).

Record PaymentEventDispatchRun : Type := {
  run_claimed : N;
  run_delivered : N;
  run_rescheduled : N;
  run_dead_lettered : N
}.

Record PaymentEventDispatcher : Type := {
  pd_config : PaymentEventDispatcherConfig;
  pd_lease_seconds : Z;
  pd_initial_backoff_seconds : Z;
  pd_max_backoff_seconds : Z
}.

(** [duration_seconds] *)
Definition duration_seconds (duration : Duration) (field : string) : Result Error Z :=
  let seconds := Z.of_N (as_secs duration) in
  reject_if (I64_MAX <? seconds)%Z (Config ("payment event dispatcher " ++ field ++ " is too large")) ;?
  reject_if (seconds =? 0)%Z (Config ("payment event dispatcher " ++ field ++ " must be at least one second")) ;?
  Ok seconds.

(** [PaymentEventDispatcherConfig::validate] *)
Definition dispatcher_validate (c : PaymentEventDispatcherConfig) : Result Error unit :=
  reject_if (blank (dc_worker_id c)) (Config "payment event dispatcher worker_id must not be empty") ;?
  reject_if ((dc_batch_size c =? 0)%N || (MAX_BATCH_SIZE <? dc_batch_size c)%N)
            (Config "payment event dispatcher batch_size must be between 1 and 1000") ;?
  reject_if (dc_max_attempts c =? 0)%N (Config "payment event dispatcher max_attempts must be positive") ;?
  duration_seconds (dc_lease_duration c) "lease_duration" ;?
  duration_seconds (dc_delivery_timeout c) "delivery_timeout" ;?
  duration_seconds (dc_poll_interval c) "poll_interval" ;?
  let? initial := duration_seconds (dc_initial_backoff c) "initial_backoff" in
  let? maximum := duration_seconds (dc_max_backoff c) "max_backoff" in
  reject_if (maximum <? initial)%Z
            (Config "payment event dispatcher initial_backoff must not exceed max_backoff").

(** [PaymentEventDispatcher::new] *)
Definition dispatcher_new (c : PaymentEventDispatcherConfig) : Result Error PaymentEventDispatcher :=
  dispatcher_validate c ;?
  let? lease := duration_seconds (dc_lease_duration c) "lease_duration" in
  let? initial := duration_seconds (dc_initial_backoff c) "initial_backoff" in
  let? maximum := duration_seconds (dc_max_backoff c) "max_backoff" in
  Ok {| pd_config := c; pd_lease_seconds := lease; pd_initial_backoff_seconds := initial;
        pd_max_backoff_seconds := maximum |}.

(** [checked_add] *)
Definition timestamp_add (timestamp delta : Z) (field : string) : Result Error Z :=
  ok_or (i64_checked_add timestamp delta) (Storage (field ++ " timestamp overflow")).

(** [s.chars().take(n)]: continuation bytes go with their first byte. *)
Fixpoint take_chars (n : nat) (s : string) : string :=
  match s with
  | "" => ""
  | String c rest =>
      if is_continuation c then String c (take_chars n rest)
      else match n with
           | 0 => ""
           | S n' => String c (take_chars n' rest)
           end
  end.

(** [bounded_reason] *)
Definition bounded_reason (reason : string) : string :=
  let value := take_chars (N.to_nat MAX_ERROR_CHARS) reason in
  if blank value then "payment event delivery failed" else value.

(** [retry_delay]: the shift never exceeds 62, so [checked_shl] never overflows
    into the sign bit. *)
Definition retry_delay (p : PaymentEventDispatcher) (attempt_count : N) : Z :=
  let exponent := Z.min (Z.of_N (attempt_count - 1)) 62 in
  let multiplier := Z.shiftl 1 exponent in
  Z.min (i64_saturating_mul (pd_initial_backoff_seconds p) multiplier) (pd_max_backoff_seconds p).

Definition count_delivered (r : PaymentEventDispatchRun) : PaymentEventDispatchRun :=
  {| run_claimed := run_claimed r; run_delivered := u32_saturating_add (run_delivered r) 1;
     run_rescheduled := run_rescheduled r; run_dead_lettered := run_dead_lettered r |}.
Definition count_rescheduled (r : PaymentEventDispatchRun) : PaymentEventDispatchRun :=
  {| run_claimed := run_claimed r; run_delivered := run_delivered r;
     run_rescheduled := u32_saturating_add (run_rescheduled r) 1; run_dead_lettered := run_dead_lettered r |}.
Definition count_dead_lettered (r : PaymentEventDispatchRun) : PaymentEventDispatchRun :=
  {| run_claimed := run_claimed r; run_delivered := run_delivered r; run_rescheduled := run_rescheduled r;
     run_dead_lettered := u32_saturating_add (run_dead_lettered r) 1 |}.

(** [dead_letter] *)
Definition dead_letter (p : PaymentEventDispatcher) (m : OutboxMessage) (reason : string) : Proc DB unit :=
  transaction (mark_dead_letter (ob_id m) (dc_worker_id (pd_config p)) (bounded_reason reason)).

(** [persist_disposition] *)
Definition persist_disposition (p : PaymentEventDispatcher) (m : OutboxMessage) (disposition : PaymentEventDelivery)
    (now : Z) (run : PaymentEventDispatchRun) : Proc DB PaymentEventDispatchRun :=
  let worker := dc_worker_id (pd_config p) in
  match disposition with
  | Delivered => transaction (mark_delivered (ob_id m) worker now) ;! pret (count_delivered run)
  | Retryable reason =>
      if (ob_attempt_count m <? dc_max_attempts (pd_config p))%N then
        let! available_at := plift (timestamp_add now (retry_delay p (ob_attempt_count m)) "outbox retry") in
        transaction (reschedule (ob_id m) worker available_at (bounded_reason reason)) ;!
        pret (count_rescheduled run)
      else
        dead_letter p m ("delivery attempts exhausted: " ++ bounded_reason reason) ;!
        pret (count_dead_lettered run)
  | PermanentFailure reason => dead_letter p m reason ;! pret (count_dead_lettered run)
  end.

Section Dispatch.
(** [sink.deliver(message)] under [tokio::time::timeout]; [None] when the
    timeout elapses first. *)
Variable deliver : OutboxMessage -> option PaymentEventDelivery.

Definition disposition_of (m : OutboxMessage) : PaymentEventDelivery :=
  unwrap_or (Retryable "payment event delivery timed out") (deliver m).

Definition dispatch_one (p : PaymentEventDispatcher) (now : Z) (run : PaymentEventDispatchRun) (m : OutboxMessage)
  : Proc DB PaymentEventDispatchRun :=
  plift (reject_if (negb (class_matches PaymentEvents m))
                   (Storage "payment event outbox claim returned a foreign delivery class")) ;!
  persist_disposition p m (disposition_of m) now run.

(** [run_once] *)
Definition run_once (p : PaymentEventDispatcher) (now : Z) : Proc DB PaymentEventDispatchRun :=
  plift (reject_if (now <? 0)%Z (InvalidRequest "payment event dispatcher timestamp must be non-negative")) ;!
  let! lease_until := plift (timestamp_add now (pd_lease_seconds p) "payment event outbox lease") in
  let! messages := transaction (claim {| lr_owner := dc_worker_id (pd_config p); lr_class := PaymentEvents;
                                         lr_now := now; lr_lease_until := lease_until;
                                         lr_limit := dc_batch_size (pd_config p) |}) in
  pfold (dispatch_one p now)
    {| run_claimed := N.min U32_MAX (N.of_nat (length messages)); run_delivered := 0; run_rescheduled := 0;
       run_dead_lettered := 0 |} messages.
End Dispatch.
