(* ===== verification/OutboxSafety.v ===== *)
(** * Outbox delivery

    The SQL class condition selects exactly the class of the worker, leases
    are exclusive, a message leaves the queue only through the holder of its
    lease, and a dispatcher pass accounts for everything it claimed.  That a
    delivered message stays delivered is proved in [System]. *)

From S2P Require Import Prelude Text Money Json Wallet Intent Policy Ledger Records Store LedgerStore Budget PaymentStore Samples IntentFlow OutboxStore.

#[local] Open Scope string_scope.
#[local] Open Scope vault_scope.

(** ** Patterns *)

Fixpoint literals (s : string) : list GlobToken :=
  match s with "" => [] | String c rest => GLit c :: literals rest end.

Lemma glob_literals p rest s :
  glob (literals p ++ rest)%list s = match strip_prefix p s with Some t => glob rest t | None => false end.
Proof.
  revert s. induction p as [|c p IH]; intros s; simpl; [done|]. destruct s as [|a s]; [done|].
  rewrite IH, (bool_decide_eq_sym a c). by case_bool_decide.
Qed.

Lemma any_suffix_spec p s : any_suffix p s = true <-> exists x t, s = x ++ t /\ p t = true.
Proof.
  induction s as [|c s IH]; simpl.
  - rewrite orb_false_r. split; [by exists "", ""|]. intros ([|? ?] & t & Hs & Ht); [|done]. by rewrite Hs.
  - rewrite orb_true_iff, IH. split.
    + intros [Hp|(x & t & -> & Ht)]; [by exists "", (String c s)|by exists (String c x), t].
    + intros ([|a x] & t & Hs & Ht); [left; by rewrite Hs|]. rewrite str_app_cons in Hs.
      injection Hs as -> ->. right. by exists x, t.
Qed.

Lemma drop_continuations_split s : exists x, s = x ++ drop_continuations s.
Proof.
  induction s as [|c s [x IH]]; simpl; [by exists ""|]. destruct (is_continuation c); [|by exists ""].
  exists (String c x). rewrite str_app_cons. by rewrite <- IH.
Qed.
Lemma drop_continuations_app x c s :
  is_continuation c = false -> exists y, drop_continuations (x ++ String c s) = y ++ String c s.
Proof.
  intros Hc. induction x as [|a x IH].
  - exists "". change ("" ++ String c s) with (String c s). simpl. by rewrite Hc.
  - rewrite str_app_cons. simpl. destruct (is_continuation a); [exact IH|]. exists (String a x). done.
Qed.

(** [?*] in front of a literal suffix matches any non-empty text before it. *)
Lemma glob_nonempty_then c suffix s :
  is_continuation c = false ->
  glob (GOne :: GMany :: literals (String c suffix)) s
  = is_some_and (fun identifier => negb (is_empty identifier)) (strip_suffix (String c suffix) s).
Proof.
  intros Hc. apply eq_bool_prop_intro. rewrite !Is_true_true.
  transitivity (exists a identifier, s = String a identifier ++ String c suffix).
  - cbn [glob]. destruct s as [|a s]; cbn [after_char is_some_and]; [split; [done|by intros (? & ? & ?)]|].
    rewrite any_suffix_spec. rewrite <- (app_nil_r (literals (String c suffix))).
    setoid_rewrite glob_literals. split.
    + intros (x & t & Hs & Ht). destruct (strip_prefix (String c suffix) t) as [u|] eqn:Hp; [|done].
      apply strip_prefix_Some in Hp as ->. destruct u; [|done]. rewrite str_app_nil in Hs.
      case_match.
      * destruct (drop_continuations_split s) as [y Hy]. exists a, (y ++ x).
        rewrite str_app_cons, str_app_assoc, <- Hs, <- Hy. done.
      * exists a, x. by rewrite str_app_cons, <- Hs.
    + intros (b & identifier & Hs). rewrite str_app_cons in Hs. injection Hs as -> ->.
      assert (strip_prefix (String c suffix) (String c suffix) = Some "") as Hsame
        by (apply strip_prefix_Some; by rewrite str_app_nil).
      case_match; [|by exists identifier, (String c suffix); rewrite ?Hsame].
      destruct (drop_continuations_app identifier c suffix Hc) as [y ->].
      exists y, (String c suffix). by rewrite Hsame.
  - split.
    + intros (a & identifier & Hs). by rewrite (proj2 (strip_suffix_Some _ _ _) Hs).
    + destruct (strip_suffix _ s) as [[|a identifier]|] eqn:Hp; [done| |done].
      intros _. exists a, identifier. by apply strip_suffix_Some.
Qed.

Lemma glob_destination prefix c suffix s :
  is_continuation c = false ->
  glob (literals prefix ++ GOne :: GMany :: literals (String c suffix))%list s
  = destination_has_nonempty_id s prefix (String c suffix).
Proof.
  intros Hc. rewrite glob_literals. unfold destination_has_nonempty_id.
  destruct (strip_prefix prefix s); [|done]. by apply glob_nonempty_then.
Qed.

(** A text without NUL characters, as PostgreSQL requires of every text. *)
Definition no_nul (s : string) : bool := bytes_all (fun c => c != "000"%char) s.
Lemma sql_text_id s : no_nul s = true -> sql_text s = s.
Proof.
  unfold no_nul. induction s as [|c s IH]; simpl; [done|]. intros Hs. apply andb_true_iff in Hs as [Hc Hs].
  apply negb_true_iff in Hc. rewrite Hc. by rewrite IH.
Qed.

(** The [GLOB] condition of the claim query is the delivery class: on every
    message (whose destination is text without NUL) the SQL predicate and
    [OutboxDeliveryClass::matches] agree, so a worker claims its whole class
    and nothing else. *)
Lemma class_glob_is_class_matches c m :
  no_nul (ob_destination m) = true -> class_glob c m = class_matches c m.
Proof.
  intros Hn. unfold class_glob, class_matches. rewrite (sql_text_id _ Hn). destruct c.
  - change (glob_pattern "client:?*.approvals") with (literals "client:" ++ GOne :: GMany :: literals ".approvals")%list.
    by rewrite glob_destination by reflexivity.
  - change (glob_pattern "client:?*.payments") with (literals "client:" ++ GOne :: GMany :: literals ".payments")%list.
    change (glob_pattern "scenario:?*.payments") with (literals "scenario:" ++ GOne :: GMany :: literals ".payments")%list.
    by rewrite !glob_destination by reflexivity.
Qed.

(** ** Statements *)

Lemma sql_update_outbox_ok id guard f e d n d' :
  sql_update_outbox id guard f e d = Ok (n, d') ->
  (n = 0 /\ d' = d)
  \/ exists m, n = 1 /\ t_outbox d !! id = Some m /\ guard m = true /\ outbox_checks (f m) = true
               /\ d' = set_outbox <[id := f m]> d.
Proof.
  unfold sql_update_outbox. destruct (t_outbox d !! id) as [m|] eqn:Hm; [|intros [= <- <-]; by left].
  destruct (guard m) eqn:Hg; [|intros [= <- <-]; by left].
  destruct (outbox_checks (f m)) eqn:Hc; [|done]. intros [= <- <-]. right. by exists m.
Qed.

(** Replacing a message by one with the same identity keeps the constraints. *)
Definition same_identity (m m' : OutboxMessage) : Prop :=
  ob_id m' = ob_id m /\ ob_destination m' = ob_destination m /\ ob_event_type m' = ob_event_type m
  /\ ob_run_id m' = ob_run_id m.

Lemma outbox_ok_replace t k m m' :
  outbox_ok t -> t !! k = Some m -> outbox_checks m' = true -> same_identity m m' -> outbox_ok (<[k := m']> t).
Proof.
  intros [Ok1 Oc Ou] Hk Hc (Hid & Hde & Het & Hru). split.
  - apply keyed_insert; [done|]. rewrite Hid. by apply Ok1.
  - intros k' y. rewrite lookup_insert. case_decide; naive_solver.
  - intros k1 k2 x1 x2 H1 H2 Hs. rewrite lookup_insert in H1, H2.
    assert (forall x, outbox_same_key m' x = outbox_same_key m x) as Hm
      by (intros x; unfold outbox_same_key; by rewrite Hde, Het, Hru).
    destruct (decide (k = k1)), (decide (k = k2)); simplify_eq; try done.
    + eapply Ou; [exact Hk|exact H2|]. by rewrite <- Hm.
    + eapply Ou; [exact H1|exact Hk|]. by rewrite outbox_same_key_sym, <- Hm, outbox_same_key_sym.
    + by eapply Ou.
Qed.

Lemma outbox_write_flow d k m m' :
  t_outbox d !! k = Some m -> ob_status m = ObPending -> outbox_checks m' = true -> same_identity m m' ->
  flow d (set_outbox <[k := m']> d).
Proof.
  intros Hk Hp Hc Hid. split; [done| |by apply authority_kept_same|].
  2: { intros _ k' x Hx Hn. simpl. rewrite lookup_insert_ne; [done|]. intros ->. congruence. } intros [Di De Dl Da Do Dab Deb]. simpl. split_and!; try done.
  split; try done. by eapply outbox_ok_replace.
Qed.

(** ** Claims *)

Lemma lease_one_ok q id d m d' :
  lease_one q id d = Ok (m, d') ->
  exists old, t_outbox d !! id = Some old /\ outbox_due (lr_now q) old = true
    /\ m = leased_columns (lr_owner q) (lr_lease_until q) old /\ outbox_checks m = true
    /\ d' = set_outbox <[id := m]> d.
Proof.
  unfold lease_one. intros Hl. run_inv.
  match goal with He : expect_one _ _ _ = Ok _ |- _ => apply expect_one_ok in He as [-> ->] end.
  match goal with Hu : sql_update_outbox _ _ _ _ _ = Ok _ |- _ =>
    apply sql_update_outbox_ok in Hu as [[? ?]|(old & _ & Hold & Hg & Hc & ->)]; [done|] end.
  apply load_or_ok in Hl. run_inv. simpl in *. rewrite lookup_insert_eq in *. bool_inv. simplify_eq. eauto 10.
Qed.

Lemma lease_one_flow q id d m d' : lease_one q id d = Ok (m, d') -> flow d d'.
Proof.
  intros (old & Hold & Hdue & -> & Hc & ->)%lease_one_ok. unfold outbox_due in Hdue. bool_inv. by eapply outbox_write_flow.
Qed.

Lemma claim_flow q d ms d' : claim q d = Ok (ms, d') -> flow d d'.
Proof.
  unfold claim. intros Hc. run_inv. eapply (tmapM_rel flow); [|eassumption]. intros. by eapply lease_one_flow.
Qed.

Lemma outbox_due_leased now owner until m :
  (now < until)%Z -> outbox_due now (leased_columns owner until m) = false.
Proof. intros Hlt. unfold outbox_due. simpl. rewrite (proj2 (Z.leb_gt until now)) by lia. by rewrite andb_false_r. Qed.

(** What a claim hands out and what it leaves. *)
Record handed_out (q : OutboxLeaseRequest) (d d' : DB) (ms : list OutboxMessage) : Prop := {
  ho_each : forall m, m ∈ ms -> exists old,
    t_outbox d !! ob_id m = Some old /\ outbox_due (lr_now q) old = true
    /\ m = leased_columns (lr_owner q) (lr_lease_until q) old /\ t_outbox d' !! ob_id m = Some m;
  ho_distinct : NoDup (map ob_id ms);
  ho_others : forall id, id ∉ map ob_id ms -> t_outbox d' !! id = t_outbox d !! id
}.

Lemma tmapM_lease_ok q ids d ms d' :
  (lr_now q < lr_lease_until q)%Z -> outbox_ok (t_outbox d) ->
  tmapM (lease_one q) ids d = Ok (ms, d') -> map ob_id ms = ids /\ handed_out q d d' ms.
Proof.
  intros Hlt. revert d ms. induction ids as [|id ids IH]; intros d ms Hok Hm; simpl in Hm; run_inv.
  { split; [done|]. split; [intros m Hm; inversion Hm|constructor|done]. }
  match goal with Hone : lease_one _ _ _ = Ok (?m, ?s) |- _ =>
    rename m into msg, s into mid; apply lease_one_ok in Hone as (old & Hold & Hdue & Hmsg & Hc & Hmid) end.
  match goal with Ht : tmapM _ ids mid = Ok (?l, _) |- _ => rename l into rest; rename Ht into Hrest end.
  assert (ob_id msg = id) as Hid by (rewrite Hmsg; exact (outbox_keyed _ Hok _ _ Hold)).
  assert (outbox_ok (t_outbox mid)) as Hok1
    by (rewrite Hmid; eapply outbox_ok_replace; [exact Hok|exact Hold|exact Hc|by rewrite Hmsg]).
  destruct (IH _ _ Hok1 Hrest) as [Hids [He Hd Ho]].
  assert (id ∉ map ob_id rest) as Hfresh.
  { intros (m & Hmid' & Hin)%list_elem_of_fmap. destruct (He m Hin) as (o & Hl & Hdue' & _).
    rewrite <- Hmid', Hmid in Hl. simpl in Hl. rewrite lookup_insert_eq in Hl. injection Hl as <-.
    rewrite Hmsg, (outbox_due_leased _ _ _ _ Hlt) in Hdue'. done. }
  split; [simpl; congruence|]. split.
  - intros m [->|Hm]%elem_of_cons.
    + exists old. rewrite Hid. split_and!; try done. rewrite (Ho _ Hfresh), Hmid. simpl. apply lookup_insert_eq.
    + destruct (He m Hm) as (o & Hl & ? & ? & ?). exists o. split_and!; try done.
      rewrite Hmid in Hl. simpl in Hl. rewrite lookup_insert_ne in Hl; [done|]. intros Heq. apply Hfresh.
      rewrite Heq. apply list_elem_of_fmap. by exists m.
  - simpl. rewrite Hid. by constructor.
  - intros k Hk. simpl in Hk. apply not_elem_of_cons in Hk as [Hne Hk]. rewrite (Ho _ Hk), Hmid. simpl.
    apply lookup_insert_ne. congruence.
Qed.

Lemma claim_handed_out q d ms d' :
  db_ok d -> claim q d = Ok (ms, d') ->
  (lr_now q < lr_lease_until q)%Z /\ map ob_id ms = due_ids q d /\ handed_out q d d' ms.
Proof.
  intros Hdb Hc. unfold claim in Hc. run_inv. bool_inv. split; [done|].
  eapply tmapM_lease_ok; [done|apply Hdb|done].
Qed.

Lemma elem_of_due_ids q d id :
  outbox_ok (t_outbox d) -> id ∈ due_ids q d ->
  exists m, t_outbox d !! id = Some m /\ outbox_due (lr_now q) m = true /\ class_glob (lr_class q) m = true.
Proof.
  intros Hok (m & -> & Hm)%list_elem_of_fmap.
  assert (m ∈ order_by outbox_before
                (select (fun m => outbox_due (lr_now q) m && class_glob (lr_class q) m) (t_outbox d))) as Hin
    by (rewrite <- (firstn_skipn (N.to_nat (lr_limit q))); apply elem_of_app; by left).
  apply elem_of_order_by, elem_of_select in Hin as [Hp [k Hk]]. bool_inv.
  exists m. by rewrite (outbox_keyed _ Hok _ _ Hk).
Qed.

(** A claim leases exactly what it returns: at most the limit of distinct
    messages, each due and of the worker's class, stored with the worker as
    owner, the new deadline and one more attempt; when the batch is not full it
    holds every due message of the class, and no other row changes. *)
Lemma claim_leases_its_class q d ms d' :
  db_ok d -> claim q d = Ok (ms, d') ->
  (length ms <= N.to_nat (lr_limit q))%nat /\ NoDup (map ob_id ms)
  /\ (forall m, m ∈ ms -> exists old,
        t_outbox d !! ob_id m = Some old /\ outbox_due (lr_now q) old = true
        /\ class_glob (lr_class q) old = true
        /\ m = leased_columns (lr_owner q) (lr_lease_until q) old /\ t_outbox d' !! ob_id m = Some m)
  /\ (forall id, id ∉ map ob_id ms -> t_outbox d' !! id = t_outbox d !! id)
  /\ ((length ms < N.to_nat (lr_limit q))%nat -> forall id m,
        t_outbox d !! id = Some m -> outbox_due (lr_now q) m = true -> class_glob (lr_class q) m = true ->
        id ∈ map ob_id ms).
Proof.
  intros Hdb Hc. destruct (claim_handed_out _ _ _ _ Hdb Hc) as (_ & Hids & [He Hd Ho]).
  assert (length ms = length (due_ids q d)) as Hlen by (by rewrite <- Hids, length_map).
  split_and!; try done.
  - rewrite Hlen. unfold due_ids. rewrite length_map, firstn_length. lia.
  - intros m Hm. destruct (He m Hm) as (old & Hl & Hdue & Heq & Hst). exists old. split_and!; try done.
    destruct (elem_of_due_ids q d (ob_id m) (db_outbox _ Hdb)) as (x & Hx & _ & Hcl).
    + rewrite <- Hids. apply list_elem_of_fmap. by exists m.
    + congruence.
  - intros Hlt id m Hm Hdue Hcl. rewrite Hids. rewrite Hlen in Hlt. unfold due_ids in *.
    rewrite length_map, firstn_length in Hlt. rewrite firstn_all2 by lia.
    apply list_elem_of_fmap. exists m. split; [symmetry; by apply (outbox_keyed _ (db_outbox _ Hdb))|].
    apply elem_of_order_by, elem_of_select. rewrite Hdue, Hcl. eauto.
Qed.

(** A delivery lease is exclusive: a message one worker claimed until some
    time is not handed to a worker that claims before that time. *)
Lemma outbox_claim_exclusive q1 q2 d ms1 d1 ms2 d2 :
  db_ok d -> claim q1 d = Ok (ms1, d1) -> claim q2 d1 = Ok (ms2, d2) -> (lr_now q2 < lr_lease_until q1)%Z ->
  forall m, m ∈ ms1 -> ob_id m ∉ map ob_id ms2.
Proof.
  intros Hdb Hc1 Hc2 Hlt m Hm Hin.
  destruct (claim_handed_out _ _ _ _ Hdb Hc1) as (_ & _ & [He _ _]).
  destruct (He m Hm) as (old & _ & _ & Heq & Hst).
  pose proof (flow_db_ok _ _ (claim_flow _ _ _ _ Hc1) Hdb) as Hdb1.
  destruct (claim_handed_out _ _ _ _ Hdb1 Hc2) as (_ & Hids & _). rewrite Hids in Hin.
  destruct (elem_of_due_ids _ _ _ (db_outbox _ Hdb1) Hin) as (x & Hx & Hdue & _).
  rewrite Hst in Hx. injection Hx as <-. rewrite Heq, (outbox_due_leased _ _ _ _ Hlt) in Hdue. done.
Qed.

(** ** Leaving the queue *)

Lemma transition_lease_ok f id owner op d u d' :
  transition_lease f id owner op d = Ok (u, d') ->
  exists m, t_outbox d !! id = Some m /\ ob_status m = ObPending /\ ob_lease_owner m = Some owner
    /\ outbox_checks (f m) = true /\ d' = set_outbox <[id := f m]> d.
Proof.
  unfold transition_lease. intros Ht. run_inv. apply expect_one_ok in Ht as [-> ->].
  match goal with Hu : sql_update_outbox _ _ _ _ _ = Ok _ |- _ =>
    apply sql_update_outbox_ok in Hu as [[? ?]|(m & _ & Hm & Hg & Hc & ->)]; [done|] end.
  bool_inv. by exists m.
Qed.

Lemma transition_lease_flow f id owner op d u d' :
  (forall m, same_identity m (f m)) -> transition_lease f id owner op d = Ok (u, d') -> flow d d'.
Proof. intros Hf (m & Hm & Hp & _ & Hc & ->)%transition_lease_ok. by eapply outbox_write_flow. Qed.

Lemma mark_delivered_flow id owner at_ d u d' : mark_delivered id owner at_ d = Ok (u, d') -> flow d d'.
Proof. by apply transition_lease_flow. Qed.
Lemma reschedule_flow id owner at_ e d u d' : reschedule id owner at_ e d = Ok (u, d') -> flow d d'.
Proof. by apply transition_lease_flow. Qed.
Lemma mark_dead_letter_flow id owner e d u d' : mark_dead_letter id owner e d = Ok (u, d') -> flow d d'.
Proof. by apply transition_lease_flow. Qed.

Lemma transition_lease_finished f id owner op d m :
  t_outbox d !! id = Some m -> ob_status m <> ObPending -> exists e, transition_lease f id owner op d = Err e.
Proof.
  intros Hm Hs. destruct (transition_lease f id owner op d) as [[u d']|e] eqn:Ht; [|by exists e].
  apply transition_lease_ok in Ht as (x & Hx & Hp & _). congruence.
Qed.

(** ** The dispatcher *)

Lemma duration_seconds_ok t field z : duration_seconds t field = Ok z -> (1 <= z <= I64_MAX)%Z.
Proof. unfold duration_seconds. intros Hd. run_inv. bool_inv. rewrite Z.eqb_neq in *. lia. Qed.

Lemma dispatcher_new_ok c p :
  dispatcher_new c = Ok p ->
  pd_config p = c /\ (1 <= pd_lease_seconds p)%Z
  /\ (1 <= pd_initial_backoff_seconds p <= pd_max_backoff_seconds p)%Z
  /\ (pd_max_backoff_seconds p <= I64_MAX)%Z /\ (dc_batch_size c <= MAX_BATCH_SIZE)%N.
Proof.
  unfold dispatcher_new, dispatcher_validate. intros Hn. run_inv. bool_inv. simpl.
  repeat match goal with
         | H1 : duration_seconds ?t ?f = Ok ?x, H2 : duration_seconds ?t ?f = Ok ?y |- _ =>
             rewrite H1 in H2; injection H2 as <-
         end.
  repeat match goal with Hd : duration_seconds _ _ = Ok _ |- _ => apply duration_seconds_ok in Hd end.
  split_and!; try done; lia.
Qed.

(** The delay before attempt [n + 1]: doubled each time, up to the maximum. *)
Definition backoff (initial maximum : Z) (n : N) : Z := Z.min (initial * 2 ^ Z.min (Z.of_N (n - 1)) 62) maximum.

Lemma retry_delay_backoff c p n :
  dispatcher_new c = Ok p -> retry_delay p n = backoff (pd_initial_backoff_seconds p) (pd_max_backoff_seconds p) n.
Proof.
  intros (_ & _ & Hi & Hm & _)%dispatcher_new_ok. unfold retry_delay, backoff, i64_saturating_mul.
  rewrite Z.shiftl_1_l. set (x := (pd_initial_backoff_seconds p * 2 ^ _)%Z).
  assert (0 < x)%Z by (apply Z.mul_pos_pos; [lia|apply Z.pow_pos_nonneg; lia]).
  unfold i64_clamp. rewrite (proj2 (Z.ltb_ge x I64_MIN)) by (unfold I64_MIN; lia).
  destruct (Z.ltb_spec I64_MAX x); lia.
Qed.

Lemma backoff_bounds initial maximum n :
  (1 <= initial <= maximum)%Z -> (initial <= backoff initial maximum n <= maximum)%Z.
Proof.
  intros Hi. unfold backoff.
  assert (1 <= 2 ^ Z.min (Z.of_N (n - 1)) 62)%Z by (apply (Z.pow_le_mono_r 2 0); lia). nia.
Qed.

(** Retries back off exponentially within the configured bounds and never
    overflow: for a dispatcher built from a valid configuration the delay is
    the initial backoff doubled per attempt, capped by the maximum, at least
    the initial backoff, and it never decreases from one attempt to the next. *)
Lemma retry_delay_bounded c p n n' :
  dispatcher_new c = Ok p -> (n <= n')%N ->
  retry_delay p n = backoff (pd_initial_backoff_seconds p) (pd_max_backoff_seconds p) n
  /\ (pd_initial_backoff_seconds p <= retry_delay p n <= pd_max_backoff_seconds p)%Z
  /\ (retry_delay p n <= retry_delay p n')%Z.
Proof.
  intros Hn Hle. rewrite !(retry_delay_backoff c p) by done.
  apply dispatcher_new_ok in Hn as (_ & _ & Hi & _). split; [done|]. split; [by apply backoff_bounds|].
  unfold backoff.
  assert (2 ^ Z.min (Z.of_N (n - 1)) 62 <= 2 ^ Z.min (Z.of_N (n' - 1)) 62)%Z by (apply Z.pow_le_mono_r; lia).
  nia.
Qed.

(** How one pass leaves a message it claimed. *)
Inductive disposed (p : PaymentEventDispatcher) (now : Z) (m : OutboxMessage) : OutboxMessage -> Prop :=
| disposed_delivered : disposed p now m (delivered_columns now m)
| disposed_rescheduled at_ e :
    (now < at_ <= now + pd_max_backoff_seconds p)%Z -> (ob_attempt_count m < dc_max_attempts (pd_config p))%N ->
    disposed p now m (rescheduled_columns at_ e m)
| disposed_dead e : disposed p now m (dead_letter_columns e m).

Definition run_total (r : PaymentEventDispatchRun) : N :=
  (run_delivered r + run_rescheduled r + run_dead_lettered r)%N.

Lemma u32_saturating_add_small a b : (a + b <= U32_MAX)%N -> u32_saturating_add a b = (a + b)%N.
Proof. unfold u32_saturating_add. lia. Qed.

Lemma persist_disposition_ok c p m disposition now run d run' d' :
  dispatcher_new c = Ok p -> (run_total run < U32_MAX)%N ->
  persist_disposition p m disposition now run d = (Ok run', d') ->
  run_claimed run' = run_claimed run /\ run_total run' = (run_total run + 1)%N
  /\ exists m0 m', t_outbox d !! ob_id m = Some m0 /\ d' = set_outbox <[ob_id m := m']> d
      /\ (m0 = m -> disposed p now m m').
Proof.
  intros Hn Htot Hp. pose proof (retry_delay_backoff c p (ob_attempt_count m) Hn) as Hdelay.
  apply dispatcher_new_ok in Hn as (_ & _ & Hi & _). pose proof (backoff_bounds _ _ (ob_attempt_count m) Hi) as Hb.
  unfold run_total in *. unfold persist_disposition, dead_letter in Hp.
  destruct disposition as [|reason|reason]; [| case_match |]; run_inv; simpl;
    rewrite u32_saturating_add_small by lia;
    match goal with Ht : transition_lease _ _ _ _ _ = Ok _ |- _ =>
        apply transition_lease_ok in Ht as (m0 & Hm0 & _ & _ & _ & ->)
      | Ht : _ _ = Ok _ |- _ => apply transition_lease_ok in Ht as (m0 & Hm0 & _ & _ & _ & ->) end;
    (split; [done|]; split; [lia|]; exists m0; eexists; split; [done|]; split; [done|]; intros ->).
  - constructor.
  - match goal with Ht : timestamp_add _ _ _ = Ok _ |- _ => unfold timestamp_add, i64_checked_add in Ht; run_inv end.
    case_match; simplify_eq. bool_inv. apply disposed_rescheduled; [lia|done].
  - constructor.
  - constructor.
Qed.

Section DispatchPass.
Variable deliver : OutboxMessage -> option PaymentEventDelivery.

Lemma pfold_dispatch c p now ms run d run' d' :
  dispatcher_new c = Ok p -> NoDup (map ob_id ms) -> (forall m, m ∈ ms -> t_outbox d !! ob_id m = Some m) ->
  (run_total run + N.of_nat (length ms) <= U32_MAX)%N ->
  pfold (dispatch_one deliver p now) run ms d = (Ok run', d') ->
  run_claimed run' = run_claimed run /\ run_total run' = (run_total run + N.of_nat (length ms))%N
  /\ (forall m, m ∈ ms -> exists m', t_outbox d' !! ob_id m = Some m' /\ disposed p now m m')
  /\ (forall id, id ∉ map ob_id ms -> t_outbox d' !! id = t_outbox d !! id).
Proof.
  intros Hn. revert run d. induction ms as [|m ms IH]; intros run d Hnd Hrows Hle Hf; simpl in Hf; run_inv.
  { split_and!; try done; [simpl; lia|]. intros m Hm. inversion Hm. }
  inversion Hnd as [|? ? Hfresh Hnd']; subst. simpl in Hle.
  match goal with Hd : dispatch_one _ _ _ _ _ _ = (Ok ?r, ?s) |- _ =>
    unfold dispatch_one in Hd; run_inv; rename s into mid; rename r into run1; rename Hd into Hone end.
  apply (persist_disposition_ok c) in Hone as (Hcl & Htot & m0 & m' & Hm0 & -> & Hdis); [|done|lia].
  rewrite (Hrows m) in Hm0 by left. injection Hm0 as <-.
  assert (forall x, x ∈ ms -> ob_id x <> ob_id m) as Hother.
  { intros x Hx Heq. apply Hfresh. rewrite <- Heq. apply list_elem_of_fmap. by exists x. }
  apply IH in Hf as (Hcl' & Htot' & Hall & Hrest); [|done| |lia].
  2: { intros x Hx. simpl. rewrite lookup_insert_ne by (by apply not_eq_sym, Hother). apply Hrows. by right. }
  split_and!; [congruence|simpl; lia| |].
  - intros x [->|Hx]%elem_of_cons; [|by apply Hall]. exists m'. rewrite (Hrest _ Hfresh). simpl.
    split; [apply lookup_insert_eq|by apply Hdis].
  - intros id Hid. simpl in Hid. apply not_elem_of_cons in Hid as [Hne Hid]. rewrite (Hrest _ Hid). simpl.
    by apply lookup_insert_ne.
Qed.

(** A dispatcher pass accounts for everything it claims: when it
    completes, each claimed message has been delivered, dead-lettered, or
    (below the attempt limit) rescheduled to a later time within the maximum
    backoff, none is left leased, the counters add up to the number claimed,
    which is within the batch size, and no other message is touched. *)
Lemma run_once_accounts c p now d run d' :
  db_ok d -> dispatcher_new c = Ok p -> run_once deliver p now d = (Ok run, d') ->
  run_claimed run = run_total run /\ (run_claimed run <= dc_batch_size c)%N
  /\ exists q ms mid, claim q d = Ok (ms, mid) /\ lr_class q = PaymentEvents /\ lr_now q = now
      /\ lr_owner q = dc_worker_id c /\ run_claimed run = N.of_nat (length ms)
      /\ (forall m, m ∈ ms -> exists m', t_outbox d' !! ob_id m = Some m' /\ disposed p now m m'
                                         /\ ob_lease_owner m' = None)
      /\ (forall id, id ∉ map ob_id ms -> t_outbox d' !! id = t_outbox d !! id).
Proof.
  intros Hdb Hn Hr. pose proof (dispatcher_new_ok _ _ Hn) as (Hcfg & _ & _ & _ & Hbatch).
  unfold run_once in Hr. subst c. set (c := pd_config p) in *. run_inv.
  match goal with Hc : claim ?q d = Ok (?l, ?s) |- _ =>
    set (req := q) in *; rename l into msgs; rename s into mid; rename Hc into Hclaim end.
  destruct (claim_handed_out _ _ _ _ Hdb Hclaim) as (_ & Hids & [He Hd Ho]).
  assert (N.of_nat (length msgs) <= dc_batch_size c)%N as Hlen.
  { assert (length msgs = length (due_ids req d)) as -> by (by rewrite <- Hids, length_map).
    unfold due_ids. rewrite length_map, firstn_length. simpl. lia. }
  assert (dc_batch_size c <= U32_MAX)%N by (unfold MAX_BATCH_SIZE, U32_MAX in *; lia).
  apply (pfold_dispatch c) in Hr as (Hcl & Htot & Hall & Hrest);
    [|done..|intros m Hm; by destruct (He m Hm) as (? & _ & _ & _ & ?)|unfold run_total; simpl; lia].
  unfold run_total in Htot at 2. simpl in Htot, Hcl. rewrite Hcl, Htot. split; [lia|]. split; [lia|].
  exists req, msgs, mid. split_and!; try done; [lia| |].
  - intros m Hm. destruct (Hall m Hm) as (m' & Hm' & Hdis). exists m'. split_and!; try done. by destruct Hdis.
  - intros id Hid. by rewrite (Hrest _ Hid), (Ho _ Hid).
Qed.
End DispatchPass.

(** Every transaction of a pass keeps the constraints, also when the pass
    stops with an error. *)
Lemma transaction_flow {A} (m : Tx DB A) d :
  (forall a d', m d = Ok (a, d') -> flow d d') -> flow d (snd (transaction m d)).
Proof. unfold transaction. intros Hm. destruct (m d) as [[a d']|e]; simpl; [by eapply Hm|done]. Qed.

Lemma pbind_flow {A B} (m : Proc DB A) (k : A -> Proc DB B) d :
  flow d (snd (m d)) -> (forall a s, flow s (snd (k a s))) -> flow d (snd (pbind m k d)).
Proof. unfold pbind. intros Hm Hk. destruct (m d) as [[a|e] s]; simpl in *; [by etrans|done]. Qed.

Lemma run_once_flow deliver p now d : flow d (snd (run_once deliver p now d)).
Proof.
  unfold run_once. apply pbind_flow; [done|intros _ s1]. apply pbind_flow; [done|intros lease s2].
  apply pbind_flow; [apply transaction_flow; intros; by eapply claim_flow|intros ms s3].
  apply pfold_rel; [apply _..|]. intros run m s4 _. unfold dispatch_one. apply pbind_flow; [done|intros _ s5].
  unfold persist_disposition, dead_letter.
  destruct (disposition_of deliver m); [|case_match|]; repeat (apply pbind_flow; [|intros; simpl]); try done;
    apply transaction_flow; intros ? ? Ht;
    first [by eapply mark_delivered_flow|by eapply reschedule_flow|by eapply mark_dead_letter_flow].
Qed.

(** ** The sample queue *)

Module SampleQueue.
Definition seconds (n : N) : Duration := {| as_secs := n; subsec_nanos := 0 |}.
Definition config : PaymentEventDispatcherConfig :=
  {| dc_worker_id := "worker-a"; dc_batch_size := 10; dc_lease_duration := seconds 60;
     dc_delivery_timeout := seconds 5; dc_poll_interval := seconds 1; dc_initial_backoff := seconds 2;
     dc_max_backoff := seconds 300; dc_max_attempts := 5 |}.
Definition dispatcher : PaymentEventDispatcher :=
  {| pd_config := config; pd_lease_seconds := 60; pd_initial_backoff_seconds := 2; pd_max_backoff_seconds := 300 |}.
Definition request (owner : string) (now until : Z) : OutboxLeaseRequest :=
  {| lr_owner := owner; lr_class := PaymentEvents; lr_now := now; lr_lease_until := until; lr_limit := 10 |}.
Definition message : OutboxMessage := Sample.message "out-1" "intent-1" "run-1" "payment_authorized".
Definition leased : OutboxMessage := leased_columns "worker-a" 1700000060 message.
Definition leased_db : DB := state_of (claim (request "worker-a" 1700000000 1700000060) Sample.reserved_db).
Definition delivered_db : DB := state_of (mark_delivered "out-1" "worker-a" 1700000001 leased_db).
End SampleQueue.

Lemma sample_claimed :
  claim (SampleQueue.request "worker-a" 1700000000 1700000060) Sample.reserved_db
  = Ok ([SampleQueue.leased], SampleQueue.leased_db).
Proof. vm_compute. reflexivity. Qed.
Lemma sample_claimed_ok : db_ok SampleQueue.leased_db.
Proof. exact (flow_db_ok _ _ (claim_flow _ _ _ _ sample_claimed) sample_reserved_ok). Qed.

Lemma sample_delivered :
  mark_delivered "out-1" "worker-a" 1700000001 SampleQueue.leased_db = Ok (tt, SampleQueue.delivered_db).
Proof. vm_compute. reflexivity. Qed.
