(* ===== verification/System.v ===== *)
(** * The whole vault

    Every transaction of the storage layer as one step relation, with failed
    transactions rolled back and catalog administration in between, and the
    invariants of every reachable database: the tables keep their keys, unique
    indexes and column checks, reservations are full or backed by a ledger fact,
    history is only ever added to, and delivered messages stay delivered. *)

From S2P Require Import Prelude Text Money Json Wallet Intent Policy Ledger Records Store LedgerStore PaymentRules Budget PaymentStore Samples IntentFlow BudgetSafety Lifecycle ApprovalStore ApprovalSafety SigningStore SigningSafety OutboxStore OutboxSafety.
From stdpp Require Import relations.

#[local] Open Scope string_scope.
#[local] Open Scope vault_scope.

(** ** Sound reservations *)

(** A held reservation is for the whole payment, and a consumed one has its
    durable fact. *)
Definition row_sound (ledger : gmap string PaymentLedgerEntry) (r : IntentRow) : Prop :=
  (pi_reservation_status (ir_intent r) = Reserved -> pi_reserved_amount (ir_intent r) = pi_amount (ir_intent r))
  /\ (pi_reservation_status (ir_intent r) = Consumed -> exists k e, ledger !! k = Some e /\ fact_of r e = true).

Definition sound (d : DB) : Prop := forall k r, t_intent d !! k = Some r -> row_sound (t_ledger d) r.
Definition safe (d : DB) : Prop := db_ok d /\ sound d.

(** A step that keeps every safe database safe. *)
Definition keeps_safe (d d' : DB) : Prop := safe d -> safe d'.
#[export] Instance keeps_safe_refl : Reflexive keeps_safe.
Proof. intros d Hd. exact Hd. Qed.
#[export] Instance keeps_safe_trans : Transitive keeps_safe.
Proof. intros a b c Hab Hbc Ha. by apply Hbc, Hab. Qed.

(** The reservation of a row and what its soundness depends on. *)
Definition same_reservation (r r' : IntentRow) : Prop :=
  same_immutable_identity_as (ir_intent r) (ir_intent r') = true
  /\ pi_reservation_status (ir_intent r') = pi_reservation_status (ir_intent r)
  /\ pi_reserved_amount (ir_intent r') = pi_reserved_amount (ir_intent r).

Lemma same_reservation_refl r : same_reservation r r.
Proof. split_and!; try done. apply same_immutable_identity_refl. Qed.

Lemma fact_of_same r r' e :
  same_immutable_identity_as (ir_intent r) (ir_intent r') = true -> fact_of r' e = fact_of r e.
Proof.
  intros Hid. apply same_immutable_identity_iff in Hid as (Hi & Hs & _ & Hw & _ & _ & Hd & _ & Ha & _).
  unfold fact_of. by rewrite Hi, Hs, Hw, Hd, Ha.
Qed.

Lemma row_sound_same l l' r r' : l ⊆ l' -> same_reservation r r' -> row_sound l r -> row_sound l' r'.
Proof.
  intros Hl (Hid & Hst & Ham) [Hres Hcons]. pose proof Hid as Hid'.
  apply same_immutable_identity_iff in Hid' as (_ & _ & _ & _ & _ & _ & _ & _ & _ & _ & Hamount & _).
  split; rewrite Hst.
  - intros Hr. rewrite Ham, <- Hamount. by apply Hres.
  - intros Hc. destruct (Hcons Hc) as (k & e & Hk & Hf). exists k, e.
    split; [by eapply lookup_weaken|by rewrite (fact_of_same r)].
Qed.

(** A step after which every row has its old reservation or is sound anew. *)
Lemma flow_safe d d' :
  flow d d' ->
  (forall k r', db_ok d -> t_intent d' !! k = Some r' ->
     (exists r, t_intent d !! k = Some r /\ same_reservation r r')
     \/ (sound d -> row_sound (t_ledger d') r')) ->
  keeps_safe d d'.
Proof.
  intros Hf Hrows [Hdb Hs]. destruct (fl_db _ _ Hf Hdb) as (Hdb' & _ & Hl & _). split; [done|].
  intros k r' Hr'. destruct (Hrows k r' Hdb Hr') as [(r & Hr & Hsame)|Hnew]; [|by apply Hnew].
  eapply row_sound_same; [exact Hl|exact Hsame|by eapply Hs].
Qed.

(** A step that does not write an intent. *)
Lemma flow_safe_no_intent d d' : flow d d' -> t_intent d' = t_intent d -> keeps_safe d d'.
Proof.
  intros Hf Hi. apply flow_safe; [done|]. intros k r' _ Hr'. left. exists r'. rewrite Hi in Hr'.
  split; [done|apply same_reservation_refl].
Qed.

(** A step that replaces one row by one with the same reservation. *)
Lemma flow_safe_same_row d d' k r r' :
  flow d d' -> t_intent d !! k = Some r -> t_intent d' = <[k := r']> (t_intent d) -> same_reservation r r' ->
  keeps_safe d d'.
Proof.
  intros Hf Hr Hi Hsame. apply flow_safe; [done|]. intros k' x _ Hx. left. rewrite Hi, lookup_insert in Hx.
  case_decide; simplify_eq; [by exists r|]. exists x. split; [done|apply same_reservation_refl].
Qed.

Lemma appended_safe d d' : appended d d' -> keeps_safe d d'.
Proof. intros Ha. apply flow_safe_no_intent; [by apply appended_flow|by apply ap_same_intent]. Qed.
Lemma append_safe events outbox d u d' : append_side_effects events outbox d = Ok (u, d') -> keeps_safe d d'.
Proof. intros Ha. by eapply appended_safe, append_side_effects_appended. Qed.

Lemma update_intent_safe i expected m d u d' :
  update_intent i expected m d = Ok (u, d') -> m <> RmSettlement -> keeps_safe d d'.
Proof.
  intros Hu Hm. pose proof (update_intent_flow _ _ _ _ _ _ Hu) as Hf.
  apply update_intent_row in Hu as (r & Hr & Hi & Heq & Hl & _ & Hid & _ & _ & Hcr).
  apply flow_safe; [done|]. intros k x _ Hx. rewrite Hi, lookup_insert in Hx.
  case_decide; simplify_eq; [|left; exists x; split; [done|apply same_reservation_refl]].
  destruct m; try done; simpl in Hcr; apply reject_if_ok in Hcr; bool_inv.
  - left. exists r. split; [done|]. unfold same_reservation. rewrite Heq. done.
  - right. intros _. unfold row_sound. rewrite Heq. split; congruence.
  - right. intros _. unfold row_sound. rewrite Heq. split; [done|congruence].
Qed.

Lemma insert_intent_safe `{SolanaPubkey} i h d u d' :
  pi_reservation_status i = Unreserved \/ (pi_reservation_status i = Reserved /\ pi_reserved_amount i = pi_amount i) ->
  insert_intent i h d = Ok (u, d') -> keeps_safe d d'.
Proof.
  intros Hres Hi. pose proof (insert_intent_flow _ _ _ _ _ Hi) as Hf.
  apply insert_intent_ok in Hi as (_ & _ & _ & _ & _ & ->). apply flow_safe; [done|].
  intros k x _ Hx. simpl in Hx. rewrite lookup_insert in Hx.
  case_decide; simplify_eq; [|left; exists x; split; [done|apply same_reservation_refl]].
  right. intros _. unfold row_sound. simpl. split; destruct Hres as [?|[? ?]]; congruence.
Qed.

(** ** Every transaction is safe *)

Lemma insert_approval_request_safe a d u d' : insert_approval_request a d = Ok (u, d') -> keeps_safe d d'.
Proof.
  intros Hi. apply flow_safe_no_intent; [by eapply insert_approval_request_flow|].
  by apply insert_approval_request_ok in Hi as (_ & _ & _ & _ & ->).
Qed.

Lemma credential_safe id h e d n d' :
  sql_update_intent id (fun r => is_none (ir_credential_hash r)) (set_credential h) e d = Ok (n, d') ->
  keeps_safe d d'.
Proof.
  intros Hu. pose proof (credential_flow _ _ _ _ _ _ Hu) as Hf.
  apply sql_update_intent_ok in Hu as [[-> ->]|(r & _ & Hr & _ & _ & _ & ->)]; [done|].
  eapply flow_safe_same_row; [done|done|done|]. split_and!; try done. apply same_immutable_identity_refl.
Qed.

Lemma lease_update_safe id guard f e d n d' :
  lease_only f -> (forall r, same_reservation r (f r)) -> sql_update_intent id guard f e d = Ok (n, d') ->
  keeps_safe d d'.
Proof.
  intros Hlo Hsame Hu. pose proof (lease_update_flow _ _ _ _ _ _ _ Hlo Hu) as Hf.
  apply sql_update_intent_ok in Hu as [[-> ->]|(r & _ & Hr & _ & _ & _ & ->)]; [done|].
  by eapply flow_safe_same_row.
Qed.

Section Operations.
Context `{SolanaPubkey} `{UrlParser}.

Lemma check_action_reservation w d u d' :
  check_action w d = Ok (u, d') ->
  pi_reservation_status (aw_intent w) = Unreserved
  \/ (pi_reservation_status (aw_intent w) = Reserved
      /\ pi_reserved_amount (aw_intent w) = pi_amount (aw_intent w)).
Proof. unfold check_action. destruct (aw_action w); intros Hc; run_inv; bool_inv; auto. Qed.

Lemma authorize_safe w d r d' : authorize w d = Ok (r, d') -> keeps_safe d d'.
Proof.
  destruct r as [r|r]; [|by intros (-> & _)%authorize_replayed].
  intros (_ & _ & _ & (u & Hc) & d1 & d2 & u1 & u2 & u3 & H1 & H2 & H3)%authorize_inserted.
  etrans; [eapply insert_intent_safe; [by eapply check_action_reservation|exact H1]|].
  etrans; [|by eapply append_safe]. destruct (aw_approval w); run_inv; [by eapply insert_approval_request_safe|done].
Qed.

Lemma record_challenge_safe w d r d' : record_challenge w d = Ok (r, d') -> keeps_safe d d'.
Proof.
  intros Hr. destruct r as [i|i].
  - apply record_challenge_inserted in Hr as (-> & _ & (u & Hg) & _ & d1 & u1 & u2 & H1 & H2).
    etrans; [|by eapply append_safe]. eapply insert_intent_safe; [right|exact H1].
    unfold validate_challenge_guard in Hg. run_inv. bool_inv. done.
  - unfold record_challenge, load_intent_by_run in Hr. run_inv. case_match; [case_bool_decide|]; run_inv; done.
Qed.

Lemma verify_incoming_safe w d i d' : verify_incoming w d = Ok (i, d') -> keeps_safe d d'.
Proof.
  unfold verify_incoming, bind_credential_transition. intros Hv. run_inv.
  match goal with Hs : lock_intent_financial_scope _ _ = Ok _ |- _ =>
    apply lock_intent_financial_scope_same in Hs; subst end.
  match goal with He : expect_one _ _ _ = Ok _ |- _ => apply expect_one_ok in He as [_ ->] end.
  etrans; [by eapply update_intent_safe|]. etrans; [by eapply credential_safe|by eapply append_safe].
Qed.

Lemma commit_progress_safe w d i d' : commit_progress w d = Ok (i, d') -> keeps_safe d d'.
Proof.
  intros (_ & r & m & d1 & u1 & u2 & _ & Hv & Hu & Ha)%commit_progress_shape.
  etrans; [|by eapply append_safe]. eapply update_intent_safe; [exact Hu|].
  unfold validate_progress_transition in Hv. run_inv. repeat case_match; by simplify_eq.
Qed.

Lemma record_outbound_evidence_safe w d i d' : record_outbound_evidence w d = Ok (i, d') -> keeps_safe d d'.
Proof.
  destruct i as [i|i]; intros Hr.
  - apply record_outbound_evidence_shape in Hr as (_ & r & d1 & u1 & u2 & _ & _ & Hu & Ha).
    etrans; [by eapply update_intent_safe|by eapply append_safe].
  - unfold record_outbound_evidence, load_outbound_evidence_event in Hr. run_inv. intent_loads.
    repeat case_match; run_inv; done.
Qed.

Lemma commit_settlement_safe w d i d' : commit_settlement w d = Ok (i, d') -> keeps_safe d d'.
Proof.
  intros Hc. apply flow_safe; [by eapply commit_settlement_flow|]. intros k x Hdb Hx.
  destruct (commit_settlement_facts _ _ _ _ Hdb Hc) as (r & r' & Hr & Hr' & Heq & Hsub & _ & Hfact).
  apply commit_settlement_shape in Hc as (-> & r0 & d1 & u1 & d2 & u2 & u3 & Hr0 & _ & Hl & Hu & Ha).
  assert (t_intent d1 = t_intent d) as Hd1.
  { assert (ledger_grown d d1) as [_ Ho]; [|unfold only_ledger, set_ledger in Ho; by rewrite Ho].
    eapply (tfor_rel ledger_grown); [|exact Hl]. intros e s1 s2 _ He. cbv beta in He. run_inv.
    by eapply insert_ledger_grown. }
  apply update_intent_row in Hu as (r1 & Hr1 & Hi2 & _ & _ & _ & Hid & _ & _ & Hcr).
  apply append_side_effects_appended in Ha. rewrite (ap_same_intent _ _ Ha), Hi2, Hd1 in Hx.
  rewrite Hd1, Hr in Hr1. injection Hr1 as <-. rewrite lookup_insert in Hx. case_decide as Hk.
  2: { left. exists x. split; [done|apply same_reservation_refl]. }
  injection Hx as <-. rewrite (ap_same_intent _ _ Ha), Hi2, lookup_insert_eq in Hr'. injection Hr' as <-.
  right. intros Hs.
  unfold row_sound. rewrite Heq. simpl in Hcr. apply reject_if_ok in Hcr.
  destruct (pi_reservation_status (ir_intent r)) eqn:Hst, (pi_reservation_status (sw_intent w)) eqn:Hst';
    try done; split; try done; intros _.
  - destruct (Hfact eq_refl) as (_ & y & j & Hj & Hf). by exists j, y.
  - destruct (Hs _ _ Hr) as [_ Hc]. destruct (Hc Hst) as (j & y & Hj & Hf). exists j, y.
    split; [by eapply lookup_weaken|]. rewrite <- Hf. apply fact_of_same. by rewrite Heq.
Qed.

Lemma claim_reconciliation_safe q d cs d' : claim_reconciliation q d = Ok (cs, d') -> keeps_safe d d'.
Proof.
  unfold claim_reconciliation. intros Hc. run_inv. eapply (tmapM_rel keeps_safe); [|eassumption].
  intros id s1 c s2 _ Hone. unfold claim_one in Hone. run_inv.
  match goal with He : expect_one _ _ _ = Ok _ |- _ => apply expect_one_ok in He as [_ ->] end.
  match goal with Hl : load_or _ _ _ = Ok _ |- _ => apply load_or_ok in Hl; run_inv end.
  eapply lease_update_safe; [apply set_reconciliation_lease_only|apply same_reservation_refl|eassumption].
Qed.

Lemma update_reconciliation_lease_safe id owner until next d u d' :
  update_reconciliation_lease id owner until next d = Ok (u, d') -> keeps_safe d d'.
Proof.
  unfold update_reconciliation_lease. intros Hu. run_inv.
  match goal with He : expect_one _ _ _ = Ok _ |- _ => apply expect_one_ok in He as [_ ->] end.
  destruct until; eapply lease_update_safe; try eassumption;
    [apply set_lease_expiry_only|apply same_reservation_refl|apply clear_lease_only|apply same_reservation_refl].
Qed.

Lemma request_approval_safe a d r d' : request_approval a d = Ok (r, d') -> keeps_safe d d'.
Proof.
  unfold request_approval. intros Hr. run_inv.
  match type of Hr with context [match ?l with _ => _ end] => destruct l as [|y [|? ?]] end; run_inv.
  - by eapply insert_approval_request_safe.
  - case_bool_decide; by run_inv.
Qed.

Lemma decide_approval_safe w d p d' : decide_approval w d = Ok (p, d') -> keeps_safe d d'.
Proof.
  intros (a & i & d1 & Ha & _ & _ & Hb & Happ)%decide_approval_shape. etrans; [|by apply appended_safe].
  destruct (ad_decision (dw_decision w)).
  - apply decide_approve_ok in Hb as (g & _ & _ & _ & _ & -> & Hf); [|done]. by apply flow_safe_no_intent.
  - pose proof Hb as Hb'.
    apply decide_reject_ok in Hb as (j & expected & d2 & u & _ & Hu & _ & _ & -> & Hf); [|done].
    intros Hs. pose proof (update_intent_safe j expected RmUnchanged d u d2 Hu ltac:(done) Hs) as [_ Hs2].
    split; [by eapply flow_db_ok, Hs|exact Hs2].
Qed.

Lemma consume_and_reserve_safe c d i d' : consume_and_reserve c d = Ok (i, d') -> keeps_safe d d'.
Proof.
  intros (_ & a & d2 & u1 & u2 & u3 & _ & _ & _ & _ & Hu & Hf & Happ)%consume_and_reserve_shape.
  etrans; [by apply flow_safe_no_intent; [exact Hf|]|].
  etrans; [by eapply update_intent_safe|by apply appended_safe].
Qed.

Lemma expire_due_safe now limit d r d' : expire_due now limit d = Ok (r, d') -> keeps_safe d d'.
Proof.
  unfold expire_due. intros He. run_inv. eapply (tmapM_rel keeps_safe); [|eassumption].
  intros a s1 o s2 _ Hone. pose proof (expire_one_flow _ _ _ _ _ Hone) as Hf.
  unfold expire_one in Hone. run_inv.
  match goal with Hs : sql_update_approval _ _ _ _ _ = Ok (?n, ?m) |- _ =>
    assert (t_intent m = t_intent s1) as Hi
      by (by apply sql_update_approval_ok in Hs as [[_ ->]|(? & _ & _ & _ & _ & _ & ->)]);
    apply approval_update_flow in Hs as Hf1;
      [|intros y _ Hy; unfold approval_due in Hy; bool_inv; by apply expired_columns_evolves] end.
  etrans; [by apply flow_safe_no_intent|]. case_match; run_inv; [done|].
  match goal with Hl : load_or (load_intent _) _ _ = Ok _ |- _ =>
    apply load_or_ok in Hl; unfold load_intent in Hl; run_inv end.
  etrans; [by eapply update_intent_safe|].
  etrans; [by eapply appended_safe, insert_event_appended|by eapply appended_safe, insert_outbox_appended].
Qed.

Lemma commit_signed_safe w d x d' : commit_signed w d = Ok (x, d') -> keeps_safe d d'.
Proof.
  intros (identity & _ & [[_ Hr]|(_ & _ & Hs)])%commit_signed_cases; [by rewrite (read_only _ _ _ Hr)|].
  apply sign_authorized_ok in Hs
    as (a & p & r & d1 & d2 & u & _ & _ & _ & _ & _ & _ & _ & _ & _ & Hup & Hr & Hn & Hc & Hu & -> & Ha).
  etrans; [by eapply update_intent_safe|]. etrans; [|by eapply append_safe].
  eapply flow_safe_same_row; [by eapply credential_write_flow|exact Hr|done|].
  split_and!; try done. apply same_immutable_identity_refl.
Qed.
End Operations.

(** ** The step relation *)

(** The requests the storage layer serves, one per transaction. *)
Inductive vault_op : Type :=
| OpAuthorize (w : AuthorizationWrite)
| OpRecordChallenge (w : ChallengeWrite)
| OpVerifyIncoming (w : VerificationWrite)
| OpCommitProgress (w : PaymentProgressWrite)
| OpRecordEvidence (w : OutboundEvidenceWrite)
| OpCommitSettlement (w : SettlementWrite)
| OpClaimReconciliation (q : ReconciliationLeaseRequest)
| OpUpdateReconciliationLease (id owner : string) (until next : option Z)
| OpRequestApproval (a : ApprovalRequest)
| OpDecideApproval (w : ApprovalWrite)
| OpConsumeApproval (c : ApprovalConsumption)
| OpExpireApprovals (now : Z) (limit : N)
| OpCommitSigned (w : SigningWrite)
| OpAppendEvent (e : PaymentEvent)
| OpAppendLedger (entries : list PaymentLedgerEntry) (outbox : list OutboxMessage)
| OpClaimOutbox (q : OutboxLeaseRequest)
| OpMarkDelivered (id owner : string) (at_ : Z)
| OpReschedule (id owner : string) (at_ : Z) (error : string)
| OpDeadLetter (id owner error : string).

(** The tables no payment transaction writes. *)
Definition same_payments (d d' : DB) : Prop :=
  t_intent d' = t_intent d /\ t_event d' = t_event d /\ t_approval d' = t_approval d
  /\ t_ledger d' = t_ledger d /\ t_outbox d' = t_outbox d.

(** A step that leaves the intents alone. *)
Definition same_intents (d d' : DB) : Prop := t_intent d' = t_intent d.
#[export] Instance same_intents_refl : Reflexive same_intents.
Proof. by intros d. Qed.
#[export] Instance same_intents_trans : Transitive same_intents.
Proof. unfold same_intents. intros a b c Hab Hbc. congruence. Qed.

Section System.
Context `{SolanaPubkey} `{UrlParser}.

Definition run_op (op : vault_op) : Tx DB unit :=
  match op with
  | OpAuthorize w => authorize w ;* tret tt
  | OpRecordChallenge w => record_challenge w ;* tret tt
  | OpVerifyIncoming w => verify_incoming w ;* tret tt
  | OpCommitProgress w => commit_progress w ;* tret tt
  | OpRecordEvidence w => record_outbound_evidence w ;* tret tt
  | OpCommitSettlement w => commit_settlement w ;* tret tt
  | OpClaimReconciliation q => claim_reconciliation q ;* tret tt
  | OpUpdateReconciliationLease id owner until next => update_reconciliation_lease id owner until next
  | OpRequestApproval a => request_approval a ;* tret tt
  | OpDecideApproval w => decide_approval w ;* tret tt
  | OpConsumeApproval c => consume_and_reserve c ;* tret tt
  | OpExpireApprovals now limit => expire_due now limit ;* tret tt
  | OpCommitSigned w => commit_signed w ;* tret tt
  | OpAppendEvent e => insert_event e ;* tret tt
  | OpAppendLedger entries outbox => append_batch entries outbox ;* tret tt
  | OpClaimOutbox q => claim q ;* tret tt
  | OpMarkDelivered id owner at_ => mark_delivered id owner at_
  | OpReschedule id owner at_ error => reschedule id owner at_ error
  | OpDeadLetter id owner error => mark_dead_letter id owner error
  end.

(** A transaction commits or is rolled back; administration changes the
    catalog tables in any way. *)
Inductive step : DB -> DB -> Prop :=
| step_commit op d d' : run_op op d = Ok (tt, d') -> step d d'
| step_rollback op d e : run_op op d = Err e -> step d d
| step_catalog d d' : same_payments d d' -> step d d'.

(** The databases that some sequence of requests leads to. *)
Definition reachable (d : DB) : Prop := exists d0, same_payments empty_db d0 /\ rtc step d0 d.

Lemma append_batch_flow entries outbox d r d' : append_batch entries outbox d = Ok (r, d') -> flow d d'.
Proof.
  unfold append_batch. intros Ha. run_inv. etrans; [|by eapply insert_outboxes_flow].
  eapply (tmapM_rel flow); [|eassumption]. intros. eapply ledger_grown_flow. by eapply insert_ledger_grown.
Qed.

Lemma append_batch_intents entries outbox d r d' :
  append_batch entries outbox d = Ok (r, d') -> t_intent d' = t_intent d.
Proof.
  unfold append_batch. intros Ha. run_inv.
  match goal with Hm : tmapM _ _ _ = Ok (_, ?s), Ht : tfor _ _ ?s = Ok _ |- _ =>
    transitivity (t_intent s); [eapply (tfor_rel appended) in Ht as [_ ? _ _ _ _ _]; [done|]|] end.
  - intros. by eapply insert_outbox_appended.
  - match goal with Hm : tmapM _ _ _ = Ok (_, ?s) |- _ => assert (ledger_grown d s) as [_ Ho] end.
    + eapply (tmapM_rel ledger_grown); [|eassumption]. intros. by eapply insert_ledger_grown.
    + unfold only_ledger, set_ledger in Ho. by rewrite Ho.
Qed.

Lemma run_op_flow op d d' : run_op op d = Ok (tt, d') -> flow d d'.
Proof.
  destruct op; simpl; intros Hr; run_inv;
    eauto using authorize_flow, record_challenge_flow, verify_incoming_flow, commit_progress_flow,
      record_outbound_evidence_flow, commit_settlement_flow, claim_reconciliation_flow,
      update_reconciliation_lease_flow, request_approval_flow, decide_approval_flow, consume_and_reserve_flow,
      expire_due_flow, commit_signed_flow, insert_event_flow, append_batch_flow, claim_flow, mark_delivered_flow, reschedule_flow,
      mark_dead_letter_flow.
Qed.

Lemma transition_lease_safe f id owner op d u d' :
  (forall m, same_identity m (f m)) -> transition_lease f id owner op d = Ok (u, d') -> keeps_safe d d'.
Proof.
  intros Hf Ht. apply flow_safe_no_intent; [by eapply transition_lease_flow|].
  by apply transition_lease_ok in Ht as (m & _ & _ & _ & _ & ->).
Qed.

Lemma claim_safe q d ms d' : claim q d = Ok (ms, d') -> keeps_safe d d'.
Proof.
  intros Hc. apply flow_safe_no_intent; [by eapply claim_flow|]. unfold claim in Hc. run_inv.
  eapply (tmapM_rel same_intents); [|eassumption].
  intros id s1 m s2 _ Hone. by apply lease_one_ok in Hone as (? & _ & _ & _ & _ & ->).
Qed.

Lemma run_op_safe op d d' : run_op op d = Ok (tt, d') -> keeps_safe d d'.
Proof.
  destruct op; simpl; intros Hr; run_inv;
    eauto using authorize_safe, record_challenge_safe, verify_incoming_safe, commit_progress_safe,
      record_outbound_evidence_safe, commit_settlement_safe, claim_reconciliation_safe,
      update_reconciliation_lease_safe, request_approval_safe, decide_approval_safe, consume_and_reserve_safe,
      expire_due_safe, commit_signed_safe, claim_safe.
  { by eapply appended_safe, insert_event_appended. }
  { apply flow_safe_no_intent; [by eapply append_batch_flow|by eapply append_batch_intents]. }
  all: eapply transition_lease_safe; [|exact Hr]; done.
Qed.

(** ** Runs *)

(** What any run keeps of the payment history. *)
Record history_kept (d d' : DB) : Prop := {
  hk_events : t_event d ⊆ t_event d';
  hk_ledger : t_ledger d ⊆ t_ledger d';
  hk_intents : intents_evolve (t_intent d) (t_intent d');
  hk_approvals : approvals_evolve (t_approval d) (t_approval d')
}.

Lemma db_ok_catalog d d' : same_payments d d' -> db_ok d -> db_ok d'.
Proof.
  intros (Hi & He & Ha & Hl & Ho) [Di De Dl Da Do Dab Deb].
  split; rewrite ?Hi, ?He, ?Ha, ?Hl, ?Ho; try done; unfold approvals_bound, events_bound;
    by rewrite ?Ha, ?He, Hi.
Qed.

Lemma step_safe d d' : step d d' -> safe d -> safe d' /\ history_kept d d'.
Proof.
  intros Hst [Hdb Hs]. destruct Hst as [op d d' Hr|op d e _|d d' Hc].
  - split; [by eapply run_op_safe|]. apply run_op_flow in Hr.
    destruct (fl_db _ _ Hr Hdb) as (_ & ? & ? & ? & ?). by split.
  - done.
  - split; [|by destruct Hc as (Hi & He & Ha & Hl & Ho); split; rewrite ?Hi, ?He, ?Ha, ?Hl].
    split; [by eapply db_ok_catalog|]. destruct Hc as (Hi & _ & _ & Hl & _).
    intros k r. rewrite Hi, Hl. apply Hs.
Qed.

Lemma run_safe d d' : rtc step d d' -> safe d -> safe d' /\ history_kept d d'.
Proof.
  induction 1 as [d|d d1 d2 Hst _ IH]; intros Hs; [done|].
  destruct (step_safe _ _ Hst Hs) as [Hs1 [He1 Hl1 Hi1 Ha1]]. destruct (IH Hs1) as [Hs2 [He2 Hl2 Hi2 Ha2]].
  split; [done|]. split; by etrans.
Qed.

Lemma reachable_safe d : reachable d -> safe d.
Proof.
  intros (d0 & (Hi & He & Ha & Hl & Ho) & Hrun). apply (run_safe _ _ Hrun). split; [by apply db_ok_no_payments|].
  intros k r. rewrite Hi. simpl. by rewrite lookup_empty.
Qed.

(** C1: reservations are sound in every database the service can reach,
    whatever requests are made, fail or interleave and however the catalog
    is administered: an intent that holds no reservation has none reserved,
    a held reservation covers the whole amount, and a consumed reservation is
    backed by a ledger fact of the same intent, scenario, wallet, direction
    and budget unit. *)
Theorem reachable_reservations_sound d k r :
  reachable d -> t_intent d !! k = Some r ->
  match pi_reservation_status (ir_intent r) with
  | Unreserved => pi_reserved_amount (ir_intent r) = 0%N
  | Reserved => pi_reserved_amount (ir_intent r) = pi_amount (ir_intent r)
  | Consumed => exists j e, t_ledger d !! j = Some e /\ fact_of r e = true
  | Released => True
  end.
Proof.
  intros [Hdb Hs]%reachable_safe Hr. destruct (Hs k r Hr) as [Hres Hcons].
  pose proof (intents_checked _ (db_intents _ Hdb) _ _ Hr) as Hc.
  destruct (pi_reservation_status (ir_intent r)) eqn:Hst; auto.
  unfold intent_checks in Hc. cbv zeta in Hc. rewrite Hst, !andb_true_iff in Hc.
  repeat match goal with Hx : _ /\ _ |- _ => destruct Hx end.
  match goal with Hx : _ || _ = true |- _ => 
    rewrite (bool_decide_true (Unreserved = Unreserved)) in Hx by done; simpl in Hx; rewrite orb_false_r in Hx end.
  unfold Amount.is_zero in *. by bool_inv.
Qed.

(** The budget check never trips over missing facts: in every reachable
    database the assertion that consumed reservations have ledger entries
    succeeds, for every scenario, wallet, direction and unit. *)
Lemma consumed_reservations_always_backed d scenario_id wallet_id dir u :
  reachable d -> assert_consumed_intents_have_ledger scenario_id wallet_id dir u d = Ok (tt, d).
Proof.
  intros [Hdb Hs]%reachable_safe. unfold assert_consumed_intents_have_ledger. apply require_ok. split; [|done].
  destruct (fetch_optional _ _) as [r|] eqn:Hf; [|done].
  apply fetch_optional_Some in Hf as [Hp [k Hk]]. cbv zeta in Hp. bool_inv.
  destruct (Hs k r Hk) as [_ Hcons]. destruct (Hcons ltac:(done)) as (j & e & Hj & Hfact).
  match goal with Hx : is_none (fetch_optional (fact_of r) _) = true |- _ =>
    destruct (fetch_optional (fact_of r) (t_ledger d)) eqn:Hn; [done|] end.
  rewrite fetch_optional_None in Hn. by rewrite (Hn _ _ Hj) in Hfact.
Qed.

(** C10: history is append-only: along any run from a reachable database,
    posted ledger entries and recorded events stay exactly as they were, no
    intent or approval disappears, an intent keeps its identity, never leaves
    a final status, never loses settled amount or credential, and its
    reservation and an approval's decision only move forward. *)
Theorem history_append_only d d' :
  reachable d -> rtc step d d' ->
  t_event d ⊆ t_event d' /\ t_ledger d ⊆ t_ledger d'
  /\ intents_evolve (t_intent d) (t_intent d') /\ approvals_evolve (t_approval d) (t_approval d').
Proof. intros Hs%reachable_safe Hr. by destruct (run_safe _ _ Hr Hs) as [_ [? ? ? ?]]. Qed.

Lemma step_outbox d d' : step d d' -> db_ok d -> outbox_evolves (t_outbox d) (t_outbox d').
Proof.
  intros [op a b Hr%run_op_flow|op a e _|a b (_ & _ & _ & _ & ->)] Hdb; [by apply (fl_outbox _ _ Hr)|done..].
Qed.
Lemma run_outbox d d' : rtc step d d' -> safe d -> outbox_evolves (t_outbox d) (t_outbox d').
Proof.
  induction 1 as [d|d d1 d2 Hst _ IH]; intros Hs; [done|]. etrans; [by apply (step_outbox _ _ Hst), Hs|].
  apply IH. by eapply step_safe.
Qed.

(** C39: only the holder of the lease acknowledges a message, and delivery is
    final: whatever transactions follow a successful [mark_delivered], the
    message stays delivered and unleased, exactly as that acknowledgement left
    it, no claim hands it out again, and no acknowledgement, reschedule or
    dead-letter of it succeeds, whoever asks. *)
Theorem outbox_delivered_once id owner at_ d u d1 d2 :
  reachable d -> mark_delivered id owner at_ d = Ok (u, d1) -> rtc step d1 d2 ->
  (exists m, t_outbox d !! id = Some m /\ ob_status m = ObPending /\ ob_lease_owner m = Some owner
     /\ t_outbox d2 !! id = Some (delivered_columns at_ m))
  /\ (forall q ms d3, claim q d2 = Ok (ms, d3) -> id ∉ map ob_id ms)
  /\ (forall owner' t, exists e, mark_delivered id owner' t d2 = Err e)
  /\ (forall owner' t r, exists e, reschedule id owner' t r d2 = Err e)
  /\ (forall owner' r, exists e, mark_dead_letter id owner' r d2 = Err e).
Proof.
  intros Hr Hd Hrun. pose proof (reachable_safe _ Hr) as Hs. destruct u.
  pose proof (run_op_safe (OpMarkDelivered id owner at_) _ _ Hd Hs) as Hs1.
  destruct (run_safe _ _ Hrun Hs1) as [[Hdb2 _] _].
  apply transition_lease_ok in Hd as (m & Hm & Hp & Ho & Hc & ->).
  assert (t_outbox d2 !! id = Some (delivered_columns at_ m)) as Hnew.
  { apply (run_outbox _ _ Hrun Hs1); [apply lookup_insert_eq|done]. }
  split; [by exists m|]. split.
  - intros q ms d3 Hc2 Hin. destruct (claim_handed_out _ _ _ _ Hdb2 Hc2) as (_ & Hids & _). rewrite Hids in Hin.
    destruct (elem_of_due_ids _ _ _ (db_outbox _ Hdb2) Hin) as (x & Hx & Hdue & _).
    rewrite Hnew in Hx. injection Hx as <-. done.
  - split_and!; intros; by eapply transition_lease_finished.
Qed.
End System.

(** ** A run *)

#[local] Existing Instance Sample.codec.
#[local] Existing Instance Sample.parser.

Lemma commit_step `{SolanaPubkey} `{UrlParser} op d d' : run_op op d = Ok (tt, d') -> rtc step d d'.
Proof. intros Hr. eapply rtc_once, step_commit, Hr. Qed.

(** Configured, authorized, lost and settled. *)
Lemma sample_run : rtc step Sample.db Sample.settled_db.
Proof.
  etrans; [apply (commit_step (OpAuthorize Sample.reserve) _ Sample.reserved_db); vm_compute; reflexivity|].
  etrans; [apply (commit_step (OpCommitProgress Sample.lose) _ Sample.unknown_db); vm_compute; reflexivity|].
  apply (commit_step (OpCommitSettlement Sample.settle)); vm_compute; reflexivity.
Qed.
Lemma sample_settled_reachable : reachable Sample.settled_db.
Proof. exists Sample.db. split; [done|apply sample_run]. Qed.

Lemma reachable_reservations_sound_witness :
  exists r j e, t_intent Sample.settled_db !! "intent-1" = Some r /\ t_ledger Sample.settled_db !! j = Some e
                /\ fact_of r e = true.
Proof.
  destruct (t_intent Sample.settled_db !! "intent-1") as [r|] eqn:Hr; [|vm_compute in Hr; discriminate Hr].
  pose proof (reachable_reservations_sound Sample.settled_db "intent-1" r sample_settled_reachable Hr) as H.
  exists r. vm_compute in Hr. injection Hr as <-. destruct H as (j & e & H1 & H2).
  exists j, e. split; [reflexivity|]. split; [exact H1|exact H2].
Defined.

Lemma history_append_only_witness : t_ledger Sample.db ⊆ t_ledger Sample.settled_db.
Proof.
  apply (history_append_only Sample.db Sample.settled_db); [|apply sample_run].
  exists Sample.db. split; [split_and!; reflexivity|apply rtc_refl].
Defined.

(** Delivered, and then the vault goes on. *)
Lemma sample_leased_reachable : reachable SampleQueue.leased_db.
Proof.
  exists Sample.db. split; [done|].
  etrans; [apply (commit_step (OpAuthorize Sample.reserve) _ Sample.reserved_db); vm_compute; reflexivity|].
  apply (commit_step (OpClaimOutbox (SampleQueue.request "worker-a" 1700000000 1700000060))); vm_compute; reflexivity.
Qed.
Definition sample_resumed_db : DB := state_of (commit_progress Sample.lose SampleQueue.delivered_db).
Lemma sample_resumed : rtc step SampleQueue.delivered_db sample_resumed_db.
Proof. apply (commit_step (OpCommitProgress Sample.lose)); vm_compute; reflexivity. Qed.

Lemma outbox_delivered_once_witness :
  exists e, mark_delivered "out-1" "worker-a" 1700000002 sample_resumed_db = Err e.
Proof.
  destruct (outbox_delivered_once "out-1" "worker-a" 1700000001 SampleQueue.leased_db tt SampleQueue.delivered_db
              sample_resumed_db sample_leased_reachable sample_delivered sample_resumed) as (_ & _ & H & _).
  exact (H "worker-a" 1700000002%Z).
Defined.
