(* ===== verification/CatalogTables.v ===== *)
(** * Catalog tables

    The administrative tables of [src/migrations/sqlite/001_init.ddl.sql]:
    clients, scenarios, approvers, wallets, wallet keys, policies (with their
    wallet memberships) and prices.  A [Table] is what the schema declares of
    one of them: its primary key, the [CHECK] constraints of a row, the pairs
    of rows that a unique index keeps apart, and the foreign keys of a row.
    [sql_insert] and [sql_update] are the statements the repositories run, and
    [table_ok] is what the constraints guarantee of every table they write. *)

From S2P Require Import Prelude Text Money Json Wallet Intent Policy Ledger Records Store OutboxStore.

#[local] Open Scope string_scope.
#[local] Open Scope vault_scope.

(** ** Writing one table *)

Definition set_client (m : gmap string PaymentClient) (d : DB) : DB :=
  {| t_client := m; t_scenario := t_scenario d; t_approver := t_approver d; t_wallet := t_wallet d;
     t_key := t_key d; t_policy := t_policy d; t_price := t_price d; t_intent := t_intent d;
     t_event := t_event d; t_approval := t_approval d; t_ledger := t_ledger d; t_outbox := t_outbox d |}.
Definition set_scenario (m : gmap string PaymentScenario) (d : DB) : DB :=
  {| t_client := t_client d; t_scenario := m; t_approver := t_approver d; t_wallet := t_wallet d;
     t_key := t_key d; t_policy := t_policy d; t_price := t_price d; t_intent := t_intent d;
     t_event := t_event d; t_approval := t_approval d; t_ledger := t_ledger d; t_outbox := t_outbox d |}.
Definition set_approver (m : gmap (string * string) PaymentScenarioApprover) (d : DB) : DB :=
  {| t_client := t_client d; t_scenario := t_scenario d; t_approver := m; t_wallet := t_wallet d;
     t_key := t_key d; t_policy := t_policy d; t_price := t_price d; t_intent := t_intent d;
     t_event := t_event d; t_approval := t_approval d; t_ledger := t_ledger d; t_outbox := t_outbox d |}.
Definition set_wallet (m : gmap string PaymentWallet) (d : DB) : DB :=
  {| t_client := t_client d; t_scenario := t_scenario d; t_approver := t_approver d; t_wallet := m;
     t_key := t_key d; t_policy := t_policy d; t_price := t_price d; t_intent := t_intent d;
     t_event := t_event d; t_approval := t_approval d; t_ledger := t_ledger d; t_outbox := t_outbox d |}.
Definition set_key (m : gmap (string * N) EncryptedWalletKeyVersion) (d : DB) : DB :=
  {| t_client := t_client d; t_scenario := t_scenario d; t_approver := t_approver d; t_wallet := t_wallet d;
     t_key := m; t_policy := t_policy d; t_price := t_price d; t_intent := t_intent d;
     t_event := t_event d; t_approval := t_approval d; t_ledger := t_ledger d; t_outbox := t_outbox d |}.
Definition set_policy (m : gmap string PaymentPolicy) (d : DB) : DB :=
  {| t_client := t_client d; t_scenario := t_scenario d; t_approver := t_approver d; t_wallet := t_wallet d;
     t_key := t_key d; t_policy := m; t_price := t_price d; t_intent := t_intent d;
     t_event := t_event d; t_approval := t_approval d; t_ledger := t_ledger d; t_outbox := t_outbox d |}.
Definition set_price (m : gmap string PaymentPrice) (d : DB) : DB :=
  {| t_client := t_client d; t_scenario := t_scenario d; t_approver := t_approver d; t_wallet := t_wallet d;
     t_key := t_key d; t_policy := t_policy d; t_price := m; t_intent := t_intent d;
     t_event := t_event d; t_approval := t_approval d; t_ledger := t_ledger d; t_outbox := t_outbox d |}.

(** ** Declared tables *)

Record Table (K A : Type) `{Countable K} : Type := {
  tb_rows : DB -> gmap K A;
  tb_write : gmap K A -> DB -> DB;
  tb_key : A -> K;
  tb_checks : A -> bool;
  tb_collision : A -> A -> bool;
  tb_references : DB -> A -> bool
}.
Arguments tb_rows {K A _ _} _ _.
Arguments tb_write {K A _ _} _ _ _.
Arguments tb_key {K A _ _} _ _.
Arguments tb_checks {K A _ _} _ _.
Arguments tb_collision {K A _ _} _ _ _.
Arguments tb_references {K A _ _} _ _ _.

Section Statements.
Context {K A : Type} `{Countable K} (T : Table K A).

Definition tb_unique (d : DB) (r : A) : bool :=
  forallb (fun other => (tb_key T other == tb_key T r) || negb (tb_collision T other r)) (rows (tb_rows T d)).

Definition tb_put (r : A) (d : DB) : DB := tb_write T (<[tb_key T r := r]> (tb_rows T d)) d.

(** [INSERT INTO t]; the driver's text of a constraint error is left out of
    the message. *)
Definition sql_insert (r : A) (on_error : Error) : Tx DB unit := fun d =>
  if tb_checks T r && is_none (tb_rows T d !! tb_key T r) && tb_unique d r && tb_references T d r
  then Ok (tt, tb_put r d)
  else Err on_error.

(** No column of a foreign key changes, in this table or in one that
    references it. *)
Definition no_foreign_key : DB -> A -> A -> bool := fun _ _ _ => true.

(** [UPDATE t SET .. WHERE key = $key AND guard]: the row written, if any.
    [fk] is what the foreign keys ask of the old and the new row.  No
    statement changes a primary key. *)
Definition sql_update (key : K) (guard : A -> bool) (f : A -> A) (fk : DB -> A -> A -> bool) (on_error : Error)
  : Tx DB (option A) := fun d =>
  match tb_rows T d !! key with
  | Some r =>
      if guard r then
        if tb_checks T (f r) && tb_unique d (f r) && fk d r (f r)
        then Ok (Some (f r), tb_write T (<[key := f r]> (tb_rows T d)) d)
        else Err on_error
      else Ok (None, d)
  | None => Ok (None, d)
  end.

(** What the declared constraints guarantee of a table. *)
Record table_ok (m : gmap K A) : Prop := {
  tok_keyed : keyed (tb_key T) m;
  tok_checked : forall k r, m !! k = Some r -> tb_checks T r = true;
  tok_unique : forall k1 k2 r1 r2,
    m !! k1 = Some r1 -> m !! k2 = Some r2 -> k1 <> k2 -> tb_collision T r1 r2 = false
}.

Lemma table_ok_empty : table_ok ∅.
Proof. split; intros ?; intros; by rewrite lookup_empty in *. Qed.

Lemma sql_insert_ok r e d u d' :
  sql_insert r e d = Ok (u, d') ->
  tb_rows T d !! tb_key T r = None /\ tb_checks T r = true /\ tb_unique d r = true
  /\ tb_references T d r = true /\ d' = tb_put r d.
Proof.
  unfold sql_insert. destruct (_ && _) eqn:Hg; [|done]. intros [= _ <-]. bool_inv.
  by destruct (tb_rows T d !! _).
Qed.

Lemma sql_update_ok key guard f fk e d o d' :
  sql_update key guard f fk e d = Ok (o, d') ->
  (o = None /\ d' = d)
  \/ exists r, o = Some (f r) /\ tb_rows T d !! key = Some r /\ guard r = true /\ tb_checks T (f r) = true
               /\ tb_unique d (f r) = true /\ fk d r (f r) = true
               /\ d' = tb_write T (<[key := f r]> (tb_rows T d)) d.
Proof.
  unfold sql_update. destruct (tb_rows T d !! key) as [r|] eqn:Hr; [|intros [= <- <-]; by left].
  destruct (guard r) eqn:Hg; [|intros [= <- <-]; by left].
  destruct (_ && _) eqn:Hc; [|done]. intros [= <- <-]. bool_inv. right. by exists r.
Qed.

Lemma sql_update_some key guard f fk e d x d' :
  sql_update key guard f fk e d = Ok (Some x, d') ->
  exists r, x = f r /\ tb_rows T d !! key = Some r /\ guard r = true /\ tb_checks T (f r) = true
            /\ tb_unique d (f r) = true /\ fk d r (f r) = true
            /\ d' = tb_write T (<[key := f r]> (tb_rows T d)) d.
Proof.
  intros Hu. apply sql_update_ok in Hu as [[? _]|(r & [= ->] & Hr)]; [done|]. by exists r.
Qed.

Hypothesis collision_sym : forall a b, tb_collision T a b = true -> tb_collision T b a = true.

(** Either statement keeps the constraints. *)
Lemma table_ok_put r d key :
  table_ok (tb_rows T d) -> tb_key T r = key -> tb_checks T r = true -> tb_unique d r = true ->
  table_ok (<[key := r]> (tb_rows T d)).
Proof.
  intros [Hk Hc Hu] <- Hr Hun. split.
  - by apply keyed_insert.
  - intros k x. rewrite lookup_insert. case_decide; naive_solver.
  - eapply pairwise_insert; eauto. intros k' y Hy Hne. unfold tb_unique in Hun. rewrite forallb_rows in Hun.
    specialize (Hun _ _ Hy). apply Hk in Hy. apply orb_true_iff in Hun as [Hun|Hun]; bool_inv; congruence.
Qed.
End Statements.

(** ** [pay_client], [pay_scenario], [pay_scenario_approver] *)

(** [created_at >= 0], [updated_at >= created_at] *)
Definition sql_times (created updated : Z) : bool := (0 <=? created)%Z && (created <=? updated)%Z.

Definition client_checks (c : PaymentClient) : bool :=
  sql_nonblank (cl_id c) && sql_nonblank (cl_name c) && sql_nonblank (cl_auth_principal c)
  && sql_times (cl_created_at c) (cl_updated_at c).
(** [UNIQUE (auth_principal)] *)
Definition client_collision (a b : PaymentClient) : bool := cl_auth_principal a == cl_auth_principal b.
Definition client_table : Table string PaymentClient :=
  {| tb_rows := t_client; tb_write := set_client; tb_key := cl_id; tb_checks := client_checks;
     tb_collision := client_collision; tb_references := fun _ _ => true |}.

Definition scenario_checks (s : PaymentScenario) : bool :=
  sql_nonblank (sc_id s) && sql_nonblank (sc_name s) && sql_times (sc_created_at s) (sc_updated_at s).
Definition scenario_table : Table string PaymentScenario :=
  {| tb_rows := t_scenario; tb_write := set_scenario; tb_key := sc_id; tb_checks := scenario_checks;
     tb_collision := fun _ _ => false;
     tb_references := fun d s => is_some (t_client d !! sc_client_id s) |}.

Definition approver_checks (a : PaymentScenarioApprover) : bool :=
  sql_nonblank (apr_auth_principal a) && sql_times (apr_created_at a) (apr_updated_at a).
Definition approver_table : Table (string * string) PaymentScenarioApprover :=
  {| tb_rows := t_approver; tb_write := set_approver;
     tb_key := fun a => (apr_scenario_id a, apr_auth_principal a); tb_checks := approver_checks;
     tb_collision := fun _ _ => false;
     tb_references := fun d a => is_some (t_scenario d !! apr_scenario_id a) |}.

(** ** [pay_wallet] *)

(** [length(a) = 42], a lower-cased [0x] prefix and lower-case hexadecimal
    digits after it, whatever the case of the stored address. *)
Definition sql_evm_address (address : string) : bool :=
  (sql_length address =? 42)%N
  && is_some_and (bytes_all is_lower_hexdigit) (Text.strip_prefix "0x" (sql_text (to_ascii_lowercase address))).
Definition sql_lower_case (address : string) : bool := address == to_ascii_lowercase address.
(** The two address constraints of wallets and keys. *)
Definition address_checks (algorithm address : string) : bool :=
  (negb (is_evm_wallet_algorithm algorithm) || (sql_evm_address address && sql_lower_case address))
  && (negb (sql_evm_address address) || sql_lower_case address).

Definition sql_limit (o : option Amount) : bool := is_none_or (fun a => sql_amount a && negb (Amount.is_zero a)) o.

(** A row holds the columns of the table; the active key version of the
    loaded record comes from the join and is [None] here, and a [NULL] public
    key is the empty text it is decoded to. *)
Definition wallet_checks (w : PaymentWallet) : bool :=
  let i := pw_wallet w in
  sql_nonblank (w_id i) && sql_nonblank (w_algorithm i) && sql_nonblank (w_address i)
  && sql_limit (pw_max_per_payment w) && sql_limit (pw_max_per_day w)
  && sql_times (w_created_at i) (pw_updated_at w)
  && ((pw_custody w == External) || sql_nonblank (w_public_key i))
  && (is_empty (w_public_key i) || sql_nonblank (w_public_key i))
  && is_none_or (fun u => sql_nonblank (bu_asset u) && (bu_decimals u <=? 255)%N) (pw_budget_unit w)
  && ((is_none (pw_max_per_payment w) && is_none (pw_max_per_day w)) || is_some (pw_budget_unit w))
  && match pw_max_per_payment w, pw_max_per_day w with Some p, Some day => (p <=? day)%N | _, _ => true end
  && address_checks (w_algorithm i) (w_address i).

(** [UNIQUE (algorithm, address)] and [uq_pay_wallet_evm_address] *)
Definition wallet_collision (a b : PaymentWallet) : bool :=
  let i := pw_wallet a in
  let j := pw_wallet b in
  ((w_algorithm i == w_algorithm j) && (w_address i == w_address j))
  || (sql_evm_address (w_address i) && sql_evm_address (w_address j)
      && (to_ascii_lowercase (w_address i) == to_ascii_lowercase (w_address j))).

Definition wallet_table : Table string PaymentWallet :=
  {| tb_rows := t_wallet; tb_write := set_wallet; tb_key := fun w => w_id (pw_wallet w);
     tb_checks := wallet_checks; tb_collision := wallet_collision; tb_references := fun _ _ => true |}.

(** ** [wallet_key_version] *)

Definition key_checks (k : EncryptedWalletKeyVersion) : bool :=
  (1 <=? k_version k)%N && (k_version k <=? U32_MAX)%N
  && sql_nonblank (k_algorithm k) && sql_nonblank (k_address k) && sql_nonblank (k_public_key k)
  && (k_encryption_scheme k == "aes-256-gcm-uuid-v4-nonce-envelope-v1")
  && sql_nonblank (k_kek_id k)
  && negb (is_empty (k_wrapped_data_key k)) && (str_len (k_wrap_nonce k) =? 16)%N
  && negb (is_empty (k_key_ciphertext k)) && (str_len (k_key_nonce k) =? 16)%N
  && negb (is_empty (k_aad k))
  && (0 <=? k_activated_at k)%Z && (0 <=? k_created_at k)%Z
  && is_none_or (fun t => (k_activated_at k <=? t)%Z) (k_retired_at k)
  && address_checks (k_algorithm k) (k_address k)
  && Bool.eqb (k_status k == KeyActive) (is_none (k_retired_at k)).

(** [uq_wallet_key_version_active] and [uq_wallet_key_kek_wrap_nonce] *)
Definition key_collision (a b : EncryptedWalletKeyVersion) : bool :=
  ((k_wallet_id a == k_wallet_id b) && (k_status a == KeyActive) && (k_status b == KeyActive))
  || ((k_kek_id a == k_kek_id b) && (k_wrap_nonce a == k_wrap_nonce b)).

Definition key_table : Table (string * N) EncryptedWalletKeyVersion :=
  {| tb_rows := t_key; tb_write := set_key; tb_key := fun k => (k_wallet_id k, k_version k);
     tb_checks := key_checks; tb_collision := key_collision;
     tb_references := fun d k => is_some (t_wallet d !! k_wallet_id k) |}.

(** ** [pay_policy] and [pay_policy_wallet] *)

Definition limits_checks (l : PaymentPolicyLimits) : bool :=
  sql_limit (Some (pl_max_per_payment l)) && sql_limit (Some (pl_max_per_day l))
  && sql_limit (pl_approval_threshold l) && sql_limit (pl_approval_overage l)
  && (pl_max_per_payment l <=? pl_max_per_day l)%N
  && (pl_approval_enabled l || is_none (pl_approval_overage l)).

Definition policy_checks (p : PaymentPolicy) : bool :=
  sql_nonblank (po_id p) && sql_nonblank (bu_asset (po_budget_unit p)) && (bu_decimals (po_budget_unit p) <=? 255)%N
  && is_none_or limits_checks (po_inbound_limits p) && is_none_or limits_checks (po_outbound_limits p)
  && (is_some (po_inbound_limits p) || is_some (po_outbound_limits p))
  && sql_times (po_created_at p) (po_updated_at p).

(** The memberships of a policy are the [po_wallet_ids] of its row, in the
    order in which they are read back. *)
Definition policy_table : Table string PaymentPolicy :=
  {| tb_rows := t_policy; tb_write := set_policy; tb_key := po_id; tb_checks := policy_checks;
     tb_collision := fun _ _ => false;
     tb_references := fun d p => is_some (t_scenario d !! po_scenario_id p)
                                 && forallb (fun w => is_some (t_wallet d !! w)) (po_wallet_ids p) |}.

(** ** [pay_price] *)

Definition price_checks (p : PaymentPrice) : bool :=
  sql_nonblank (pr_id p) && sql_nonblank (pr_resource p) && negb (bool_decide (pr_protocols p = []))
  && sql_nonblank (as_network (pr_asset p)) && sql_nonblank (as_asset (pr_asset p))
  && sql_opt_nonblank (as_token_contract (pr_asset p)) && (as_decimals (pr_asset p) <=? 255)%N
  && sql_limit (Some (pr_amount p)) && sql_times (pr_created_at p) (pr_updated_at p).

(** [uq_pay_price_active_resource] *)
Definition price_collision (a b : PaymentPrice) : bool :=
  pr_enabled a && pr_enabled b && (pr_scenario_id a == pr_scenario_id b) && (pr_resource a == pr_resource b).

Definition price_references (d : DB) (p : PaymentPrice) : bool :=
  is_some (t_scenario d !! pr_scenario_id p) && is_some (t_wallet d !! pr_wallet_id p)
  && is_some_and (fun policy => (po_scenario_id policy == pr_scenario_id p)
                                && bool_decide (pr_wallet_id p ∈ po_wallet_ids policy))
                 (t_policy d !! pr_policy_id p).

(** The intents that reference a price ([ON DELETE RESTRICT]) and those that
    also reference its authority columns ([ON UPDATE RESTRICT]). *)
Definition price_used (d : DB) (price_id : string) : bool :=
  existsb (fun r => pi_price_id (ir_intent r) == Some price_id) (rows (t_intent d)).
Definition price_authority_used (d : DB) (p : PaymentPrice) : bool :=
  existsb (fun r => let i := ir_intent r in
             (pi_price_id i == Some (pr_id p)) && (pi_scenario_id i == pr_scenario_id p)
             && (pi_policy_id i == Some (pr_policy_id p)) && (pi_wallet_id i == Some (pr_wallet_id p)))
          (rows (t_intent d)).

Definition price_table : Table string PaymentPrice :=
  {| tb_rows := t_price; tb_write := set_price; tb_key := pr_id; tb_checks := price_checks;
     tb_collision := price_collision; tb_references := price_references |}.

(** ** Collisions are symmetric *)

Lemma client_collision_sym a b : client_collision a b = true -> client_collision b a = true.
Proof. unfold client_collision. rewrite !bool_decide_eq_true. done. Qed.

Lemma wallet_collision_sym a b : wallet_collision a b = true -> wallet_collision b a = true.
Proof.
  unfold wallet_collision. rewrite !orb_true_iff, !andb_true_iff, !bool_decide_eq_true.
  intros [[-> ->]|[[-> ->] ->]]; [by left|by right].
Qed.

Lemma key_collision_sym a b : key_collision a b = true -> key_collision b a = true.
Proof.
  unfold key_collision. rewrite !orb_true_iff, !andb_true_iff, !bool_decide_eq_true.
  intros [[[-> ->] ->]|[-> ->]]; [by left|by right].
Qed.

Lemma price_collision_sym a b : price_collision a b = true -> price_collision b a = true.
Proof.
  unfold price_collision. rewrite !andb_true_iff, !bool_decide_eq_true. by intros [[[-> ->] ->] ->].
Qed.
