(* ===== verification/WalletStore.v ===== *)
(** * Wallet repository

    [src/src/storage/wallet/mod.rs] and the transactions of
    [src/src/storage/wallet/transactions.rs]: creating wallets, rotating and
    compromising their keys, spending limits, the lifecycle flag, and the
    observed balances. *)

From S2P Require Import Prelude Text Money Json Wallet Intent Policy Ledger Records Store Budget CatalogTables.

#[local] Open Scope string_scope.
#[local] Open Scope vault_scope.

Record WalletCreationConfig : Type := {
  wc_enabled : bool;
  wc_budget_unit : option BudgetUnit;
  wc_max_per_payment : option Amount;
  wc_max_per_day : option Amount
}.

(** [WalletCreationConfig { enabled: true, ..default() }] *)
Definition enabled_config : WalletCreationConfig :=
  {| wc_enabled := true; wc_budget_unit := None; wc_max_per_payment := None; wc_max_per_day := None |}.

(** A limit per payment above the limit per day. *)
Definition limits_inverted (max_per_payment max_per_day : option Amount) : bool :=
  match max_per_payment, max_per_day with Some payment, Some day => (day <? payment)%N | _, _ => false end.

(** [WalletCreationConfig::validate] *)
Definition WalletCreationConfig_validate (c : WalletCreationConfig) : Result string unit :=
  match wc_budget_unit c with
  | Some unit => map_err (fun _ => "budget_unit") (BudgetUnit_validate unit)
  | None => reject_if (is_some (wc_max_per_payment c) || is_some (wc_max_per_day c)) "budget_unit"
  end ;?
  reject_if (is_some_and Amount.is_zero (wc_max_per_payment c)) "max_per_payment" ;?
  reject_if (is_some_and Amount.is_zero (wc_max_per_day c)
             || limits_inverted (wc_max_per_payment c) (wc_max_per_day c)) "max_per_day".

(** ** [WalletStorageRules] *)

Definition validate_creation_config (c : WalletCreationConfig) : Result Error unit :=
  map_err (fun field => InvalidRequest ("invalid initial wallet " ++ field)) (WalletCreationConfig_validate c).

Definition validate_key_for_wallet (w : Wallet) (k : EncryptedWalletKeyVersion) (require_active : bool)
  : Result Error unit :=
  reject_if ((k_wallet_id k != w_id w) || (k_algorithm k != w_algorithm w) || (k_address k != w_address w)
             || (k_public_key k != w_public_key w) || (k_version k =? 0)%N
             || blank (k_encryption_scheme k) || blank (k_kek_id k)
             || is_empty (k_wrapped_data_key k) || is_empty (k_wrap_nonce k) || is_empty (k_key_ciphertext k)
             || is_empty (k_key_nonce k) || is_empty (k_aad k)
             || (require_active && (k_status k != KeyActive))
             || is_some (k_retired_at k))
            (InvalidKey "encrypted wallet key metadata is inconsistent").

(** ** Statements *)

(** The row [insert_wallet] writes. *)
Definition wallet_row (w : Wallet) (custody : WalletCustody) (c : WalletCreationConfig) : PaymentWallet :=
  {| pw_wallet := w; pw_custody := custody; pw_enabled := wc_enabled c; pw_active_key_version := None;
     pw_budget_unit := wc_budget_unit c; pw_max_per_payment := wc_max_per_payment c;
     pw_max_per_day := wc_max_per_day c; pw_updated_at := w_created_at w |}.

Definition insert_wallet (w : Wallet) (custody : WalletCustody) (c : WalletCreationConfig) : Tx DB unit :=
  sql_insert wallet_table (wallet_row w custody c) (conflict "payment wallet insert rejected").

Definition insert_key (k : EncryptedWalletKeyVersion) : Tx DB unit :=
  let* row := load_or (treads (fun d => t_wallet d !! k_wallet_id k)) (NotFound ("payment wallet " ++ k_wallet_id k)) in
  let w := pw_wallet row in
  tlift (reject_if ((pw_custody row != Local)
                    || ((k_status k == KeyActive)
                        && ((w_algorithm w != k_algorithm k) || (w_address w != k_address k)
                            || is_empty (w_public_key w) || (w_public_key w != k_public_key k))))
                   (conflict "key version does not match a local-custody wallet")) ;*
  sql_insert key_table k (conflict "encrypted wallet key insert rejected").

(** [status = .., retired_at = ..] *)
Definition with_key_status (status : WalletKeyStatus) (retired_at : option Z) (k : EncryptedWalletKeyVersion)
  : EncryptedWalletKeyVersion :=
  {| k_wallet_id := k_wallet_id k; k_version := k_version k; k_algorithm := k_algorithm k;
     k_address := k_address k; k_public_key := k_public_key k; k_encryption_scheme := k_encryption_scheme k;
     k_kek_id := k_kek_id k; k_wrapped_data_key := k_wrapped_data_key k; k_wrap_nonce := k_wrap_nonce k;
     k_key_ciphertext := k_key_ciphertext k; k_key_nonce := k_key_nonce k; k_aad := k_aad k;
     k_status := status; k_activated_at := k_activated_at k; k_retired_at := retired_at;
     k_created_at := k_created_at k |}.

(** [algorithm = .., address = .., public_key = .., updated_at = ..] *)
Definition rotated_columns (w : Wallet) (updated_at : Z) (row : PaymentWallet) : PaymentWallet :=
  {| pw_wallet := {| w_id := w_id (pw_wallet row); w_algorithm := w_algorithm w; w_address := w_address w;
                     w_public_key := w_public_key w; w_created_at := w_created_at (pw_wallet row) |};
     pw_custody := pw_custody row; pw_enabled := pw_enabled row; pw_active_key_version := pw_active_key_version row;
     pw_budget_unit := pw_budget_unit row; pw_max_per_payment := pw_max_per_payment row;
     pw_max_per_day := pw_max_per_day row; pw_updated_at := updated_at |}.

(** [budget_asset = .., budget_decimals = .., max_per_payment = .., max_per_day = .., updated_at = ..] *)
Definition limit_columns (u : BudgetUnit) (max_per_payment max_per_day : option Amount) (updated_at : Z)
    (row : PaymentWallet) : PaymentWallet :=
  {| pw_wallet := pw_wallet row; pw_custody := pw_custody row; pw_enabled := pw_enabled row;
     pw_active_key_version := pw_active_key_version row; pw_budget_unit := Some u; pw_max_per_payment := max_per_payment;
     pw_max_per_day := max_per_day; pw_updated_at := updated_at |}.

(** [enabled = .., updated_at = ..] *)
Definition enabled_columns (enabled : bool) (updated_at : Z) (row : PaymentWallet) : PaymentWallet :=
  {| pw_wallet := pw_wallet row; pw_custody := pw_custody row; pw_enabled := enabled;
     pw_active_key_version := pw_active_key_version row; pw_budget_unit := pw_budget_unit row;
     pw_max_per_payment := pw_max_per_payment row; pw_max_per_day := pw_max_per_day row;
     pw_updated_at := updated_at |}.

(** [if result.rows_affected() != 1 { return Err(e) }] *)
Definition expect_row {A} (o : option A) (e : Error) : Tx DB A := tlift (ok_or o e).

(** The policies that bind a wallet, by id. *)
Definition policies_of_wallet (d : DB) (wallet_id : string) : list string :=
  order_by (fun a b => negb (str_ltb b a))
           (map po_id (select (fun p => bool_decide (wallet_id ∈ po_wallet_ids p)) (t_policy d))).
Definition lock_bound_policies (wallet_id : string) : Tx DB (list string) :=
  treads (fun d => policies_of_wallet d wallet_id).
Definition bound_policy_ids (wallet_id : string) : Tx DB (list string) :=
  treads (fun d => policies_of_wallet d wallet_id).

Definition validate_limits (u : BudgetUnit) (max_per_payment max_per_day : option Amount) : Result Error unit :=
  map_err (fun field => InvalidRequest ("invalid wallet budget unit " ++ field)) (BudgetUnit_validate u) ;?
  reject_if (is_some_and Amount.is_zero max_per_payment || is_some_and Amount.is_zero max_per_day
             || limits_inverted max_per_payment max_per_day)
            (InvalidRequest "invalid wallet spending limits").

(** ** [IWalletRepository] *)

Section Wallets.
Context `{SolanaPubkey}.

(** [WalletStorageRules::canonical_wallet] *)
Definition canonical_wallet (w : Wallet) : Result Error Wallet :=
  reject_if (blank (w_id w) || blank (w_algorithm w) || blank (w_address w))
            (InvalidRequest "wallet identity is incomplete") ;?
  map_err (fun field => InvalidRequest ("invalid wallet " ++ field)) (Wallet_canonicalized w).

Definition create_local_configured (w : Wallet) (k : EncryptedWalletKeyVersion) (c : WalletCreationConfig)
  : Tx DB Wallet :=
  let* wallet := tlift (canonical_wallet w) in
  tlift (validate_key_for_wallet wallet k true) ;*
  tlift (validate_creation_config c) ;*
  tlift (reject_if (k_version k != 1%N) (InvalidKey "initial wallet key version must be 1")) ;*
  insert_wallet wallet Local c ;*
  insert_key k ;*
  tret wallet.

Definition create_local (w : Wallet) (k : EncryptedWalletKeyVersion) : Tx DB Wallet :=
  create_local_configured w k enabled_config.

Definition create_external_configured (w : Wallet) (c : WalletCreationConfig) : Tx DB Wallet :=
  let* wallet := tlift (canonical_wallet w) in
  tlift (validate_creation_config c) ;*
  insert_wallet wallet External c ;*
  tret wallet.

Definition create_external (w : Wallet) : Tx DB Wallet := create_external_configured w enabled_config.

Definition get_wallet (wallet_id : string) : Tx DB (option Wallet) :=
  let* w := load_payment_wallet wallet_id in
  tret (pw_wallet <$> w).

Definition load_active_key (wallet_id : string) : Tx DB (option EncryptedWalletKeyVersion) :=
  treads (fun d => active_key d wallet_id).

Definition list_key_versions (wallet_id : string) : Tx DB (list EncryptedWalletKeyVersion) :=
  treads (fun d => order_by (fun a b => (k_version a <=? k_version b)%N)
                            (select (fun k => k_wallet_id k == wallet_id) (t_key d))).

(** [u32::checked_add] *)
Definition u32_checked_add (a b : N) : option N := if (a + b <=? U32_MAX)%N then Some (a + b)%N else None.

Definition rotation_rejected : Error := conflict "wallet key rotation identity or version is invalid".

Definition rotate (w : Wallet) (k : EncryptedWalletKeyVersion) (retired_at : Z) : Tx DB Wallet :=
  let* wallet := tlift (canonical_wallet w) in
  tlift (validate_key_for_wallet wallet k true) ;*
  let* row := load_or (treads (fun d => t_wallet d !! w_id wallet)) (NotFound ("payment wallet " ++ w_id wallet)) in
  let* active := treads (fun d => active_key d (w_id wallet)) in
  let* active_version := tlift (ok_or (k_version <$> active) (conflict "local wallet has no active key to rotate")) in
  tlift (reject_if ((pw_custody row != Local) || (w_created_at (pw_wallet row) != w_created_at wallet))
                   rotation_rejected) ;*
  let* next := tlift (ok_or (u32_checked_add active_version 1) (conflict "wallet key version overflow")) in
  tlift (reject_if ((k_version k != next) || (retired_at <? k_activated_at k)%Z
                    || (k_activated_at k <? pw_updated_at row)%Z) rotation_rejected) ;*
  let* retired := sql_update key_table (w_id wallet, active_version) (fun x => k_status x == KeyActive)
                    (with_key_status KeyRetired (Some retired_at)) no_foreign_key
                    (conflict "retire active wallet key rejected") in
  expect_row retired (conflict "active wallet key changed during rotation") ;*
  let* updated := sql_update wallet_table (w_id wallet) (fun _ => true)
                    (rotated_columns wallet (k_activated_at k)) no_foreign_key
                    (conflict "update wallet key metadata rejected") in
  expect_row updated (conflict "payment wallet changed during key rotation") ;*
  insert_key k ;*
  tret wallet.

Definition mark_key_compromised (wallet_id : string) (version : N) (retired_at : Z) : Tx DB unit :=
  let* changed := sql_update key_table (wallet_id, version)
                    (fun k => (k_status k == KeyActive) || (k_retired_at k == Some retired_at))
                    (fun k => with_key_status KeyCompromised
                                (if k_status k == KeyActive then Some retired_at else k_retired_at k) k)
                    no_foreign_key (conflict "mark wallet key compromised rejected") in
  expect_row changed (conflict "wallet key was not found or retirement time conflicts") ;*
  tret tt.

Definition set_spending_limits (wallet_id : string) (u : BudgetUnit) (max_per_payment max_per_day : option Amount)
    (updated_at : Z) : Tx DB unit :=
  tlift (validate_limits u max_per_payment max_per_day) ;*
  let* policy_ids := lock_bound_policies wallet_id in
  let* row := load_or (treads (fun d => t_wallet d !! wallet_id)) (NotFound ("payment wallet " ++ wallet_id)) in
  let* revalidated := bound_policy_ids wallet_id in
  tlift (reject_if ((revalidated != policy_ids) || (updated_at <? pw_updated_at row)%Z
                    || (negb (bool_decide (policy_ids = [])) && (pw_budget_unit row != Some u)))
                   (conflict "wallet policy bindings, revision, or budget unit changed")) ;*
  let* enabled_scenarios := treads (fun d => size (wallet_scenarios d wallet_id)) in
  tlift (reject_if ((1 <? enabled_scenarios)%nat && (is_none max_per_payment || is_none max_per_day))
                   (conflict "wallet shared across scenarios requires aggregate hard limits")) ;*
  let* changed := sql_update wallet_table wallet_id (fun w => pw_updated_at w == pw_updated_at row)
                    (limit_columns u max_per_payment max_per_day updated_at) no_foreign_key
                    (conflict "wallet limit update rejected") in
  expect_row changed (conflict "payment wallet revision changed") ;*
  tret tt.

Definition set_wallet_enabled (wallet_id : string) (enabled : bool) (updated_at : Z) : Tx DB unit :=
  let* changed := sql_update wallet_table wallet_id (fun w => (pw_updated_at w <=? updated_at)%Z)
                    (enabled_columns enabled updated_at) no_foreign_key
                    (Storage "update payment wallet lifecycle") in
  expect_row changed (conflict "wallet was not found or update timestamp moved backwards") ;*
  tret tt.
End Wallets.

(** ** [IWalletBalanceRepository]

    The observations are a table of their own that no payment decision reads;
    the wallets it references are the [DB] argument. *)

Record WalletBalanceRecord : Type := {
  wbr_wallet_id : string;
  wbr_asset : AssetIdentity;
  wbr_asset_available : Amount;
  wbr_native_available : Amount;
  wbr_observed_at : Z;
  wbr_updated_at : Z
}.
#[export] Instance WalletBalanceRecord_eq_dec : EqDecision WalletBalanceRecord.
Proof. solve_decision. Defined.

(** [WalletBalanceRecord::validate] *)
Definition WalletBalanceRecord_validate (b : WalletBalanceRecord) : Result string unit :=
  reject_if (blank (wbr_wallet_id b)) "wallet_id" ;?
  AssetIdentity_validate (wbr_asset b) ;?
  reject_if ((wbr_observed_at b <? 0)%Z || (wbr_updated_at b <? wbr_observed_at b)%Z) "observed_at".

Definition balance_key : Type := string * (string * string * string * N).
(** [token_contract.as_deref().unwrap_or("")] *)
Definition balance_key_of (wallet_id : string) (a : AssetIdentity) : balance_key :=
  (wallet_id, (as_network a, as_asset a, unwrap_or "" (as_token_contract a), as_decimals a)).
Definition BalanceTable : Type := gmap balance_key WalletBalanceRecord.

Definition balance_checks (b : WalletBalanceRecord) : bool :=
  sql_nonblank (as_network (wbr_asset b)) && sql_nonblank (as_asset (wbr_asset b))
  && (as_decimals (wbr_asset b) <=? 255)%N
  && sql_amount (wbr_asset_available b) && sql_amount (wbr_native_available b)
  && (0 <=? wbr_observed_at b)%Z && (wbr_observed_at b <=? wbr_updated_at b)%Z.

(** [INSERT .. ON CONFLICT .. DO UPDATE .. WHERE EXCLUDED.observed_at >= observed_at] *)
Definition sql_upsert_balance (d : DB) (b : WalletBalanceRecord) : Tx BalanceTable bool := fun t =>
  let key := balance_key_of (wbr_wallet_id b) (wbr_asset b) in
  if negb (balance_checks b) then Err (Storage "upsert wallet balance") else
  match t !! key with
  | Some old => if (wbr_observed_at old <=? wbr_observed_at b)%Z then Ok (true, <[key := b]> t) else Ok (false, t)
  | None => if is_some (t_wallet d !! wbr_wallet_id b) then Ok (true, <[key := b]> t)
            else Err (Storage "upsert wallet balance")
  end.

Definition upsert_balance (d : DB) (b : WalletBalanceRecord) : Tx BalanceTable WalletBalanceRecord :=
  tlift (map_err (fun field => InvalidRequest ("invalid wallet balance " ++ field)) (WalletBalanceRecord_validate b)) ;*
  let* written := sql_upsert_balance d b in
  tlift (reject_if (negb written) (conflict "wallet balance observation moved backwards")) ;*
  tret b.

Definition get_balance (wallet_id : string) (a : AssetIdentity) : Tx BalanceTable (option WalletBalanceRecord) :=
  tlift (map_err (fun field => InvalidRequest ("invalid wallet balance asset " ++ field)) (AssetIdentity_validate a)) ;*
  treads (fun t => (fun b => {| wbr_wallet_id := wallet_id; wbr_asset := a;
                                wbr_asset_available := wbr_asset_available b;
                                wbr_native_available := wbr_native_available b;
                                wbr_observed_at := wbr_observed_at b; wbr_updated_at := wbr_updated_at b |})
                     <$> t !! balance_key_of wallet_id a).
