(* ===== verification/CatalogStore.v ===== *)
(** * Catalog repositories

    The transactions of [src/src/storage/policy/transactions.rs], with the
    registration of scenarios, clients and approvers and the catalog of prices
    ([src/src/storage/{scenario,client,approver,price}/sqlite.rs]) on the
    generic statements of [src/src/storage/query.rs]. *)

From S2P Require Import Prelude Text Money Json Wallet Intent Policy Ledger Records Store Budget CatalogTables WalletStore.

#[local] Open Scope string_scope.
#[local] Open Scope vault_scope.

(** ** Generic statements *)

Definition tmap_err {S A} (f : Error -> Error) (m : Tx S A) : Tx S A :=
  fun s => map_err f (m s).

Section Entities.
Context {K A : Type} `{Countable K} `{EqDecision A} (T : Table K A).

(** [entity_insert_returning] *)
Definition entity_insert_returning (entity : A) : Tx DB A :=
  sql_insert T entity (StorageConflict "entity insert rejected") ;* tret entity.

(** [entity_register]: [INSERT .. ON CONFLICT (keys) DO NOTHING RETURNING *],
    then the stored row is compared. *)
Definition entity_register (entity : A) : Tx DB (IdempotentWrite A) :=
  let* existing := treads (fun d => tb_rows T d !! tb_key T entity) in
  match existing with
  | Some stored =>
      tlift (reject_if (negb (tb_checks T entity)) (StorageConflict "entity registration rejected")) ;*
      tlift (reject_if (stored != entity)
                       (StorageConflict "entity registration identity is bound to different content")) ;*
      tret (Replayed stored)
  | None => sql_insert T entity (StorageConflict "entity registration rejected") ;* tret (Inserted entity)
  end.

(** [entity_update_returning] of columns outside every key *)
Definition entity_update_returning (key : K) (guard : A -> bool) (f : A -> A) : Tx DB (option A) :=
  sql_update T key guard f no_foreign_key (Storage "update entity").

(** [entity_unique]: at most one row may match. *)
Definition entity_unique (p : A -> bool) : Tx DB (option A) :=
  let* matching := treads (fun d => firstn 2 (select p (tb_rows T d))) in
  tlift (reject_if (1 <? List.length matching)%nat (Storage "multiple entities match a unique lookup")) ;*
  tret (head matching).
End Entities.

(** ** Clients *)

Definition client_enabled_columns (enabled : bool) (updated_at : Z) (c : PaymentClient) : PaymentClient :=
  {| cl_id := cl_id c; cl_name := cl_name c; cl_auth_principal := cl_auth_principal c; cl_enabled := enabled;
     cl_created_at := cl_created_at c; cl_updated_at := updated_at |}.

Definition insert_client (c : PaymentClient) : Tx DB PaymentClient :=
  tlift (map_err (fun field => InvalidRequest ("invalid payment client " ++ field)) (PaymentClient_validate c)) ;*
  tmap_err PaymentStorageCodec.domain_error (entity_insert_returning client_table c).

Definition get_client (client_id : string) : Tx DB (option PaymentClient) :=
  treads (fun d => t_client d !! client_id).
Definition find_by_principal (principal : string) : Tx DB (option PaymentClient) :=
  treads (fun d => fetch_optional (fun c => cl_auth_principal c == principal) (t_client d)).

Definition set_client_enabled (client_id : string) (enabled : bool) (updated_at : Z) : Tx DB PaymentClient :=
  let* changed := entity_update_returning client_table client_id (fun c => (cl_updated_at c <=? updated_at)%Z)
                    (client_enabled_columns enabled updated_at) in
  expect_row changed (conflict "payment client was not found or update timestamp moved backwards").

(** ** Approvers *)

Definition approver_columns (enabled : bool) (updated_at : Z) (a : PaymentScenarioApprover) : PaymentScenarioApprover :=
  {| apr_scenario_id := apr_scenario_id a; apr_auth_principal := apr_auth_principal a; apr_enabled := enabled;
     apr_created_at := apr_created_at a; apr_updated_at := updated_at |}.

(** [INSERT .. ON CONFLICT (scenario_id, auth_principal) DO UPDATE SET enabled,
    updated_at WHERE created_at = EXCLUDED.created_at AND EXCLUDED.updated_at > updated_at] *)
Definition upsert_approver (a : PaymentScenarioApprover) : Tx DB PaymentScenarioApprover :=
  tlift (map_err (fun field => InvalidRequest ("invalid scenario approver " ++ field)) (PaymentScenarioApprover_validate a)) ;*
  let key := (apr_scenario_id a, apr_auth_principal a) in
  let* existing := treads (fun d => t_approver d !! key) in
  match existing with
  | None =>
      sql_insert approver_table a (conflict "scenario approver upsert rejected") ;*
      tret a
  | Some _ =>
      tlift (reject_if (negb (approver_checks a)) (conflict "scenario approver upsert rejected")) ;*
      let* changed := sql_update approver_table key
                        (fun old => (apr_created_at old == apr_created_at a) && (apr_updated_at old <? apr_updated_at a)%Z)
                        (approver_columns (apr_enabled a) (apr_updated_at a)) no_foreign_key
                        (conflict "scenario approver upsert rejected") in
      expect_row changed (conflict "scenario approver identity or revision changed")
  end.

Definition get_approver (scenario_id principal : string) : Tx DB (option PaymentScenarioApprover) :=
  treads (fun d => t_approver d !! (scenario_id, principal)).

Definition set_approver_enabled (scenario_id principal : string) (enabled : bool) (updated_at : Z)
  : Tx DB PaymentScenarioApprover :=
  let* changed := entity_update_returning approver_table (scenario_id, principal)
                    (fun a => (apr_updated_at a <? updated_at)%Z) (approver_columns enabled updated_at) in
  expect_row changed (conflict "scenario approver was not found or revision did not advance").

(** ** Policies *)

(** [PolicyStorageRules::validate_policy] *)
Definition validate_policy (p : PaymentPolicy) : Result Error unit :=
  map_err (fun field => InvalidRequest ("invalid payment policy " ++ field)) (PaymentPolicy_validate p).

Definition with_wallet_ids (ids : list string) (p : PaymentPolicy) : PaymentPolicy :=
  {| po_id := po_id p; po_scenario_id := po_scenario_id p; po_wallet_ids := ids; po_protocols := po_protocols p;
     po_networks := po_networks p; po_assets := po_assets p; po_budget_unit := po_budget_unit p;
     po_allowed_recipients := po_allowed_recipients p; po_allowed_origins := po_allowed_origins p;
     po_inbound_limits := po_inbound_limits p; po_outbound_limits := po_outbound_limits p;
     po_enabled := po_enabled p; po_created_at := po_created_at p; po_updated_at := po_updated_at p |}.

(** The row without memberships. *)
Definition insert_policy (p : PaymentPolicy) : Tx DB unit :=
  sql_insert policy_table (with_wallet_ids [] p) (conflict "payment policy insert rejected").

Definition lock_wallets (wallet_ids : list string) : Tx DB unit :=
  tfor (fun w => require (fun d => is_some (t_wallet d !! w))
                         (conflict "payment policy references an unavailable wallet")) wallet_ids.

(** [budget_asset = .., budget_decimals = .., updated_at = max(updated_at + 1, created_at)] *)
Definition unit_columns (p : PaymentPolicy) (row : PaymentWallet) : PaymentWallet :=
  {| pw_wallet := pw_wallet row; pw_custody := pw_custody row; pw_enabled := pw_enabled row;
     pw_active_key_version := pw_active_key_version row; pw_budget_unit := Some (po_budget_unit p);
     pw_max_per_payment := pw_max_per_payment row; pw_max_per_day := pw_max_per_day row;
     pw_updated_at := if (po_created_at p <? pw_updated_at row + 1)%Z then (pw_updated_at row + 1)%Z
                      else po_created_at p |}.

Definition initialize_wallet_budget_unit (wallet_id : string) (p : PaymentPolicy) : Tx DB unit :=
  let* changed := sql_update wallet_table wallet_id (fun w => is_none (pw_budget_unit w)) (unit_columns p)
                    no_foreign_key (conflict "initialize wallet budget unit rejected") in
  expect_row changed (conflict "wallet budget unit changed while binding policy") ;*
  tret tt.

(** An enabled policy other than [p] that binds the wallet, in the same
    scenario ([same]) or in another one. *)
Definition other_enabled_policy (same : bool) (p : PaymentPolicy) (wallet_id : string) (other : PaymentPolicy) : bool :=
  bool_decide (wallet_id ∈ po_wallet_ids other) && po_enabled other
  && Bool.eqb same (po_scenario_id other == po_scenario_id p) && (po_id other != po_id p).

Definition validate_wallet_binding (p : PaymentPolicy) (wallet_id : string) : Tx DB unit :=
  let* row := load_or (treads (fun d => t_wallet d !! wallet_id)) (Storage "load locked payment policy wallet") in
  let has_hard_limits := is_some (pw_max_per_payment row) && is_some (pw_max_per_day row) in
  match pw_budget_unit row with
  | None => initialize_wallet_budget_unit wallet_id p
  | Some u => tlift (reject_if (u != po_budget_unit p)
                               (conflict "payment policy budget unit does not match its wallet"))
  end ;*
  if negb (po_enabled p) then tret tt else
  let* duplicate := treads (fun d => existsb (other_enabled_policy true p wallet_id) (rows (t_policy d))) in
  tlift (reject_if duplicate (conflict "scenario wallet already has an enabled payment policy")) ;*
  let* shared := treads (fun d => existsb (other_enabled_policy false p wallet_id) (rows (t_policy d))) in
  tlift (reject_if (shared && negb has_hard_limits)
                   (conflict "wallet shared across scenarios requires aggregate hard limits")).

Definition validate_wallet_bindings (p : PaymentPolicy) : Tx DB unit :=
  tfor (validate_wallet_binding p) (po_wallet_ids p).

(** [INSERT INTO pay_policy_wallet]: a new pair of an existing policy and an
    existing wallet; memberships are read back in wallet order. *)
Definition insert_policy_wallet (p : PaymentPolicy) (wallet_id : string) : Tx DB unit := fun d =>
  match t_policy d !! po_id p with
  | Some row =>
      if (0 <=? po_created_at p)%Z && is_some (t_wallet d !! wallet_id)
         && negb (bool_decide (wallet_id ∈ po_wallet_ids row))
      then Ok (tt, set_policy (<[po_id p := with_wallet_ids
                     (order_insert (fun a b => negb (str_ltb b a)) wallet_id (po_wallet_ids row)) row]> (t_policy d)) d)
      else Err (conflict "payment policy wallet binding rejected")
  | None => Err (conflict "payment policy wallet binding rejected")
  end.

Definition insert_policy_aggregate (p : PaymentPolicy) : Tx DB unit :=
  insert_policy p ;*
  lock_wallets (po_wallet_ids p) ;*
  validate_wallet_bindings p ;*
  tfor (insert_policy_wallet p) (po_wallet_ids p).

(** [IPolicyRepository::insert] *)
Definition policy_insert (p : PaymentPolicy) : Tx DB PaymentPolicy :=
  tlift (validate_policy p) ;*
  insert_policy_aggregate p ;*
  tret p.

(** The columns [IPolicyRepository::update] writes. *)
Definition policy_columns (p row : PaymentPolicy) : PaymentPolicy :=
  {| po_id := po_id row; po_scenario_id := po_scenario_id row; po_wallet_ids := po_wallet_ids row;
     po_protocols := po_protocols p; po_networks := po_networks p; po_assets := po_assets p;
     po_budget_unit := po_budget_unit row; po_allowed_recipients := po_allowed_recipients p;
     po_allowed_origins := po_allowed_origins p; po_inbound_limits := po_inbound_limits p;
     po_outbound_limits := po_outbound_limits p; po_enabled := po_enabled p;
     po_created_at := po_created_at row; po_updated_at := po_updated_at p |}.

Definition policy_update (p : PaymentPolicy) (expected_updated_at : Z) : Tx DB PaymentPolicy :=
  tlift (validate_policy p) ;*
  let* existing := load_or (load_policy (po_id p)) (NotFound ("payment policy " ++ po_id p)) in
  tlift (reject_if ((po_scenario_id existing != po_scenario_id p) || (po_wallet_ids existing != po_wallet_ids p)
                    || (po_budget_unit existing != po_budget_unit p) || (po_created_at existing != po_created_at p)
                    || (po_updated_at existing != expected_updated_at) || (po_updated_at p <=? expected_updated_at)%Z)
                   (conflict "payment policy identity or revision changed")) ;*
  lock_wallets (po_wallet_ids p) ;*
  validate_wallet_bindings p ;*
  let* changed := sql_update policy_table (po_id p) (fun row => po_updated_at row == expected_updated_at)
                    (policy_columns p) no_foreign_key (conflict "payment policy update rejected") in
  expect_row changed (conflict "payment policy revision changed") ;*
  tret p.

Definition has_enabled_wallet_binding (scenario_id wallet_id : string) : Tx DB bool :=
  treads (fun d => existsb (fun p => (po_scenario_id p == scenario_id) && bool_decide (wallet_id ∈ po_wallet_ids p)
                                     && po_enabled p) (rows (t_policy d))).

(** ** Scenarios *)

Definition scenario_enabled_columns (enabled : bool) (updated_at : Z) (s : PaymentScenario) : PaymentScenario :=
  {| sc_id := sc_id s; sc_client_id := sc_client_id s; sc_name := sc_name s; sc_enabled := enabled;
     sc_created_at := sc_created_at s; sc_updated_at := updated_at |}.

Definition invalid_scenario (field : string) : Error := InvalidRequest ("invalid payment scenario " ++ field).

Definition register_scenario (s : PaymentScenario) : Tx DB (IdempotentWrite PaymentScenario) :=
  tlift (map_err invalid_scenario (PaymentScenario_validate s)) ;*
  tmap_err PaymentStorageCodec.domain_error (entity_register scenario_table s).

Record ScenarioConfiguration : Type := { sco_scenario : PaymentScenario; sco_policy : PaymentPolicy }.

Definition same_registration (stored requested : PaymentScenario) : bool :=
  (sc_id stored == sc_id requested) && (sc_client_id stored == sc_client_id requested)
  && (sc_name stored == sc_name requested) && (sc_enabled stored == sc_enabled requested).

Definition same_policy_registration (stored requested : PaymentPolicy) : bool :=
  (po_id stored == po_id requested) && (po_scenario_id stored == po_scenario_id requested)
  && (po_wallet_ids stored == po_wallet_ids requested) && (po_protocols stored == po_protocols requested)
  && (po_networks stored == po_networks requested) && (po_assets stored == po_assets requested)
  && (po_budget_unit stored == po_budget_unit requested)
  && (po_allowed_recipients stored == po_allowed_recipients requested)
  && (po_allowed_origins stored == po_allowed_origins requested)
  && (po_inbound_limits stored == po_inbound_limits requested)
  && (po_outbound_limits stored == po_outbound_limits requested) && (po_enabled stored == po_enabled requested).

(** The stored scenario, or the one just inserted, and whether it is new. *)
Definition find_or_insert_scenario (s : PaymentScenario) : Tx DB (PaymentScenario * bool) :=
  let* existing := treads (fun d => t_scenario d !! sc_id s) in
  match existing with
  | Some row => tret (row, false)
  | None => sql_insert scenario_table s (conflict "payment scenario insert rejected") ;* tret (s, true)
  end.

Definition register_with_policy (s : PaymentScenario) (p : PaymentPolicy)
  : Tx DB (IdempotentWrite ScenarioConfiguration) :=
  tlift (map_err invalid_scenario (PaymentScenario_validate s)) ;*
  tlift (validate_policy p) ;*
  tlift (reject_if ((sc_id s != po_scenario_id p) || (sc_created_at s != po_created_at p))
                   (InvalidRequest "initial policy must belong to and be created with its scenario")) ;*
  let* found := find_or_insert_scenario s in
  tlift (reject_if (negb (same_registration (fst found) s))
                   (conflict "scenario registration key is already bound to different content")) ;*
  let* existing := load_policy (po_id p) in
  match existing with
  | Some stored =>
      tlift (reject_if (negb (same_policy_registration stored p))
                       (conflict "initial payment policy is already bound to different content")) ;*
      tret (Replayed {| sco_scenario := fst found; sco_policy := stored |})
  | None =>
      tlift (reject_if (negb (snd found))
                       (conflict "scenario already exists without the requested atomic initial policy")) ;*
      insert_policy_aggregate p ;*
      tret (Inserted {| sco_scenario := fst found; sco_policy := p |})
  end.

Definition get_scenario (scenario_id : string) : Tx DB (option PaymentScenario) :=
  treads (fun d => t_scenario d !! scenario_id).

Definition set_scenario_enabled (scenario_id : string) (enabled : bool) (updated_at : Z) : Tx DB PaymentScenario :=
  let* changed := entity_update_returning scenario_table scenario_id (fun s => (sc_updated_at s <=? updated_at)%Z)
                    (scenario_enabled_columns enabled updated_at) in
  expect_row changed (conflict "payment scenario was not found or update timestamp moved backwards").

(** ** Prices *)

Definition validate_price (p : PaymentPrice) : Result Error unit :=
  map_err (fun field => InvalidRequest ("invalid payment price " ++ field)) (PaymentPrice_validate p).

Definition validate_price_authority (p : PaymentPrice) : Tx DB unit :=
  require (fun d => is_some (t_wallet d !! pr_wallet_id p)) (NotFound ("payment wallet " ++ pr_wallet_id p)) ;*
  let* policy := load_or (load_policy (pr_policy_id p)) (NotFound ("payment policy " ++ pr_policy_id p)) in
  let* inbound := tlift (ok_or (po_inbound_limits policy)
                               (conflict "price policy does not authorize inbound payments")) in
  tlift (reject_if ((po_scenario_id policy != pr_scenario_id p)
                    || negb (bool_decide (pr_wallet_id p ∈ po_wallet_ids policy))
                    || negb (BudgetUnit_matches (po_budget_unit policy) (pr_asset p))
                    || negb (bool_decide (as_network (pr_asset p) ∈ po_networks policy))
                    || negb (bool_decide (pr_asset p ∈ po_assets policy))
                    || (pl_max_per_payment inbound <? pr_amount p)%N
                    || existsb (fun protocol => negb (bool_decide (protocol ∈ po_protocols policy))) (pr_protocols p))
                   (conflict "price exceeds or falls outside its inbound policy scope")).

Definition insert_price (p : PaymentPrice) : Tx DB unit :=
  sql_insert price_table p (conflict "payment price insert rejected").

Definition price_insert (p : PaymentPrice) : Tx DB PaymentPrice :=
  tlift (validate_price p) ;*
  validate_price_authority p ;*
  insert_price p ;*
  tret p.

(** Every column but the identity, its scenario, its policy and its creation. *)
Definition price_columns (p row : PaymentPrice) : PaymentPrice :=
  {| pr_id := pr_id row; pr_scenario_id := pr_scenario_id row; pr_policy_id := pr_policy_id row;
     pr_resource := pr_resource p; pr_protocols := pr_protocols p; pr_asset := pr_asset p; pr_amount := pr_amount p;
     pr_wallet_id := pr_wallet_id p; pr_enabled := pr_enabled p; pr_created_at := pr_created_at row;
     pr_updated_at := pr_updated_at p |}.

(** The recipient wallet of a price that an intent references is fixed. *)
Definition price_foreign_keys (d : DB) (old new : PaymentPrice) : bool :=
  (pr_wallet_id old == pr_wallet_id new) || (negb (price_authority_used d old) && price_references d new).

Definition price_update (p : PaymentPrice) (expected_updated_at : Z) : Tx DB PaymentPrice :=
  tlift (validate_price p) ;*
  tlift (reject_if (pr_updated_at p <=? expected_updated_at)%Z
                   (conflict "payment price update timestamp did not advance")) ;*
  validate_price_authority p ;*
  let* changed := sql_update price_table (pr_id p)
                    (fun row => (pr_scenario_id row == pr_scenario_id p) && (pr_policy_id row == pr_policy_id p)
                                && (pr_created_at row == pr_created_at p) && (pr_updated_at row == expected_updated_at))
                    (price_columns p) price_foreign_keys (conflict "payment price update rejected") in
  expect_row changed (conflict "payment price identity or revision changed") ;*
  tret p.

(** [DELETE FROM pay_price WHERE id = .. AND updated_at = ..] *)
Definition price_delete (price_id : string) (expected_updated_at : Z) : Tx DB unit := fun d =>
  match t_price d !! price_id with
  | Some row =>
      if pr_updated_at row == expected_updated_at then
        if price_used d price_id then Err (conflict "price deletion rejected")
        else Ok (tt, set_price (delete price_id (t_price d)) d)
      else Err (conflict "price revision changed or price does not exist")
  | None => Err (conflict "price revision changed or price does not exist")
  end.

Definition get_price (price_id : string) : Tx DB (option PaymentPrice) := treads (fun d => t_price d !! price_id).

(** [IPriceRepository::resolve] *)
Definition resolve_price (scenario_id resource protocol : string) : Tx DB (option PaymentPrice) :=
  let* matching := treads (fun d => select (fun p => (pr_scenario_id p == scenario_id) && (pr_resource p == resource)
                                                  && pr_enabled p && bool_decide (protocol ∈ pr_protocols p)) (t_price d)) in
  match matching with
  | [] => tret None
  | [row] => tret (Some row)
  | _ => tfail (Storage "multiple enabled prices own one scenario resource")
  end.

Definition resolve_resource (scenario_id resource : string) : Tx DB (option PaymentPrice) :=
  entity_unique price_table (fun p => (pr_scenario_id p == scenario_id) && (pr_resource p == resource) && pr_enabled p).
