(* ===== verification/CatalogSafety.v ===== *)
(** * Catalog safety

    The invariant [catalog_ok] of the administrative tables and its
    preservation by every catalog transaction and every payment transaction:
    one active key per local wallet, matching it; policies that agree with
    their wallets on the budget unit, one enabled policy per scenario and
    wallet, hard limits on shared wallets; prices inside an existing policy;
    and intents whose scenario, wallet, policy and price still exist. *)

From S2P Require Import Prelude Text Money Json Wallet Intent Policy Ledger Records Store LedgerStore PaymentRules Budget PaymentStore Samples IntentFlow System CatalogTables WalletStore CatalogStore.

#[local] Open Scope string_scope.
#[local] Open Scope vault_scope.

(** ** The invariant *)

(** An active key is the key of the wallet's public identity. *)
Definition key_of_wallet (w : PaymentWallet) (k : EncryptedWalletKeyVersion) : Prop :=
  k_algorithm k = w_algorithm (pw_wallet w) /\ k_address k = w_address (pw_wallet w)
  /\ k_public_key k = w_public_key (pw_wallet w).

Definition hard_limited (w : PaymentWallet) : Prop :=
  is_Some (pw_max_per_payment w) /\ is_Some (pw_max_per_day w).

Definition key_owned (d : DB) (x : EncryptedWalletKeyVersion) : Prop :=
  exists w, t_wallet d !! k_wallet_id x = Some w /\ pw_custody w = Local
            /\ (k_status x = KeyActive -> key_of_wallet w x).

(** A policy binds existing wallets whose budget is in its unit. *)
Definition policy_bound (d : DB) (p : PaymentPolicy) : Prop :=
  is_Some (t_scenario d !! po_scenario_id p)
  /\ forall w, w ∈ po_wallet_ids p -> exists row, t_wallet d !! w = Some row
                                     /\ pw_budget_unit row = Some (po_budget_unit p).

(** Two enabled policies of one wallet are of different scenarios, and the
    wallet then has both hard limits. *)
Definition policies_compatible (d : DB) (p q : PaymentPolicy) : Prop :=
  po_enabled p = true -> po_enabled q = true -> po_id p <> po_id q ->
  forall w, w ∈ po_wallet_ids p -> w ∈ po_wallet_ids q ->
    po_scenario_id p <> po_scenario_id q /\ forall row, t_wallet d !! w = Some row -> hard_limited row.

Definition price_bound (d : DB) (x : PaymentPrice) : Prop :=
  exists p, t_policy d !! pr_policy_id x = Some p /\ po_scenario_id p = pr_scenario_id x
            /\ pr_wallet_id x ∈ po_wallet_ids p /\ BudgetUnit_matches (po_budget_unit p) (pr_asset x) = true.

Record catalog_ok (d : DB) : Prop := {
  co_clients : table_ok client_table (t_client d);
  co_scenarios : table_ok scenario_table (t_scenario d);
  co_approvers : table_ok approver_table (t_approver d);
  co_wallets : table_ok wallet_table (t_wallet d);
  co_keys : table_ok key_table (t_key d);
  co_policies : table_ok policy_table (t_policy d);
  co_prices : table_ok price_table (t_price d);
  co_scenario_client : forall k s, t_scenario d !! k = Some s -> is_Some (t_client d !! sc_client_id s);
  co_approver_scenario : forall k a, t_approver d !! k = Some a -> is_Some (t_scenario d !! apr_scenario_id a);
  co_key_owner : forall k x, t_key d !! k = Some x -> key_owned d x;
  co_policy_bound : forall k p, t_policy d !! k = Some p -> policy_bound d p;
  co_compatible : forall j k p q, t_policy d !! j = Some p -> t_policy d !! k = Some q -> policies_compatible d p q;
  co_price_bound : forall k x, t_price d !! k = Some x -> price_bound d x;
  co_intents : forall k r, t_intent d !! k = Some r -> intent_foreign_keys d (ir_intent r) = true
}.

Lemma catalog_ok_empty : catalog_ok empty_db.
Proof. split; simpl; try apply table_ok_empty; intros; by rewrite lookup_empty in *. Qed.

(** ** Which intents keep their references *)

Lemma is_some_iff {A} (o : option A) : is_some o = true <-> is_Some o.
Proof. destruct o; simpl; [|split; [done|intros [? ?]; done]]. split; [by eexists|done]. Qed.

Lemma intent_foreign_keys_kept d d' i :
  (forall k, is_Some (t_scenario d !! k) -> is_Some (t_scenario d' !! k)) ->
  (forall k, is_Some (t_wallet d !! k) -> is_Some (t_wallet d' !! k)) ->
  (forall k p, t_policy d !! k = Some p ->
     exists p', t_policy d' !! k = Some p' /\ po_scenario_id p' = po_scenario_id p
                /\ forall w, w ∈ po_wallet_ids p -> w ∈ po_wallet_ids p') ->
  (forall k x, pi_price_id i = Some k -> t_price d !! k = Some x ->
     exists x', t_price d' !! k = Some x' /\ pr_scenario_id x' = pr_scenario_id x
                /\ pr_policy_id x' = pr_policy_id x
                /\ (pr_wallet_id x' = pr_wallet_id x \/ pi_wallet_id i <> Some (pr_wallet_id x))) ->
  intent_foreign_keys d i = true -> intent_foreign_keys d' i = true.
Proof.
  intros Hs Hw Hp Hx. unfold intent_foreign_keys. rewrite !andb_true_iff.
  intros [[[Fs Fw] Fp] Fx]. split_and!.
  - apply is_some_iff. apply Hs. by apply is_some_iff.
  - destruct (pi_wallet_id i); simpl in *; [|done]. apply is_some_iff, Hw. by apply is_some_iff.
  - destruct (pi_policy_id i) as [k|]; simpl in *; [|done].
    destruct (t_policy d !! k) as [p|] eqn:Hk; simpl in *; [|done].
    destruct (Hp _ _ Hk) as (p' & -> & Hsc & Hsub). simpl. rewrite Hsc. bool_inv. apply andb_true_iff. split; [by apply bool_decide_true|].
    destruct (pi_wallet_id i); simpl in *; [|done]. bool_inv. apply bool_decide_true. auto.
  - destruct (pi_price_id i) as [k|]; simpl in *; [|done].
    destruct (t_price d !! k) as [x|] eqn:Hk; simpl in *; [|done].
    destruct (Hx _ _ eq_refl Hk) as (x' & -> & Hsc & Hpo & Hwal). simpl. rewrite Hsc, Hpo. bool_inv.
    rewrite !andb_true_iff. split_and!; [by apply bool_decide_true|done|].
    destruct (pi_wallet_id i) as [w|]; simpl in *; [|done]. bool_inv. apply bool_decide_true.
    destruct Hwal; congruence.
Qed.

(** ** Writes of one table *)

Lemma lookup_kept {K A} `{Countable K} (m : gmap K A) k x j :
  is_Some (m !! j) -> is_Some (<[k := x]> m !! j).
Proof. intros Hj. rewrite lookup_insert. case_decide; [by eexists|done]. Qed.

Lemma put_client_ok d k c :
  catalog_ok d -> table_ok client_table (<[k := c]> (t_client d)) -> catalog_ok (set_client (<[k := c]> (t_client d)) d).
Proof.
  intros Hco Hm. destruct Hco. split; simpl; try done.
  - intros j s Hs. apply lookup_kept. eauto.
Qed.

Lemma put_scenario_ok d k s :
  catalog_ok d -> table_ok scenario_table (<[k := s]> (t_scenario d)) -> is_Some (t_client d !! sc_client_id s) ->
  catalog_ok (set_scenario (<[k := s]> (t_scenario d)) d).
Proof.
  intros Hco Hm Hc. destruct Hco. split; simpl; try done.
  - intros j x. rewrite lookup_insert. case_decide; naive_solver.
  - intros j a Ha. apply lookup_kept. eauto.
  - intros j p Hp. destruct (co_policy_bound0 _ _ Hp) as [? ?]. split; [by apply lookup_kept|done].
  - intros j r Hr. eapply intent_foreign_keys_kept; [..|by eapply co_intents0]; simpl; eauto 8.
    intros. by apply lookup_kept.
Qed.

Lemma put_approver_ok d k a :
  catalog_ok d -> table_ok approver_table (<[k := a]> (t_approver d)) -> is_Some (t_scenario d !! apr_scenario_id a) ->
  catalog_ok (set_approver (<[k := a]> (t_approver d)) d).
Proof.
  intros Hco Hm Hc. destruct Hco. split; simpl; try done.
  - intros j x. rewrite lookup_insert. case_decide; naive_solver.
Qed.

Lemma active_key_Some d id x :
  active_key d id = Some x -> exists k, t_key d !! k = Some x /\ k_wallet_id x = id /\ k_status x = KeyActive.
Proof. intros [Hb [k Hk]]%fetch_optional_Some. bool_inv. eauto. Qed.

(** At most one key of a wallet is active. *)
Lemma active_key_unique d j x :
  catalog_ok d -> t_key d !! j = Some x -> k_status x = KeyActive -> active_key d (k_wallet_id x) = Some x.
Proof.
  intros Hco Hx Hact. apply fetch_optional_unique with j; [done| |].
  - by rewrite Hact, !bool_decide_true.
  - intros j' y Hy Hb. bool_inv. destruct (decide (j = j')) as [<-|Hne]; [congruence|].
    pose proof (tok_unique _ _ (co_keys _ Hco) _ _ _ _ Hx Hy Hne) as Hcol. simpl in Hcol.
    unfold key_collision in Hcol. apply orb_false_iff in Hcol as [Hcol _].
    rewrite Hact, !bool_decide_true in Hcol by congruence. done.
Qed.

(** What a wallet's keys and policies ask of its row. *)
Record wallet_fits (d : DB) (k : string) (w : PaymentWallet) : Prop := {
  wf_keys : forall j x, t_key d !! j = Some x -> k_wallet_id x = k ->
            pw_custody w = Local /\ (k_status x = KeyActive -> key_of_wallet w x);
  wf_unit : forall j p, t_policy d !! j = Some p -> k ∈ po_wallet_ids p -> pw_budget_unit w = Some (po_budget_unit p);
  wf_limits : forall i j p q, t_policy d !! i = Some p -> t_policy d !! j = Some q ->
              po_enabled p = true -> po_enabled q = true -> po_id p <> po_id q ->
              k ∈ po_wallet_ids p -> k ∈ po_wallet_ids q -> hard_limited w
}.

Lemma put_wallet_ok d k w :
  catalog_ok d -> table_ok wallet_table (<[k := w]> (t_wallet d)) -> wallet_fits d k w ->
  catalog_ok (set_wallet (<[k := w]> (t_wallet d)) d).
Proof.
  intros Hco Hm [Fk Fu Fl]. destruct Hco. split; simpl; try done.
  - intros j x Hx. destruct (co_key_owner0 _ _ Hx) as (w0 & Hw0 & Hloc & Hact).
    unfold key_owned. simpl. destruct (decide (k = k_wallet_id x)) as [Heq|Hne].
    + exists w. rewrite Heq, lookup_insert_eq. split; [done|]. by eapply Fk.
    + exists w0. by rewrite lookup_insert_ne.
  - intros j p Hp. destruct (co_policy_bound0 _ _ Hp) as [Hs Hw]. split; [done|]. simpl.
    intros v Hv. destruct (decide (k = v)) as [<-|Hne].
    + exists w. rewrite lookup_insert_eq. split; [done|]. by eapply Fu.
    + rewrite lookup_insert_ne by done. auto.
  - intros i j p q Hp Hq Ep Eq Hne v Hvp Hvq. destruct (co_compatible0 _ _ _ _ Hp Hq Ep Eq Hne v Hvp Hvq) as [Hsc Hl].
    split; [done|]. simpl. intros row. rewrite lookup_insert. case_decide; intros ?; simplify_eq; [|auto].
    by eapply (Fl i j p q).
  - intros j r Hr. eapply intent_foreign_keys_kept; [..|by eapply co_intents0]; simpl; eauto 8.
    intros. by apply lookup_kept.
Qed.

Lemma new_wallet_fits d k w : catalog_ok d -> t_wallet d !! k = None -> wallet_fits d k w.
Proof.
  intros Hco Hk. split.
  - intros j x Hx <-. destruct (co_key_owner _ Hco _ _ Hx) as (? & ? & _). congruence.
  - intros j p Hp Hin. destruct (co_policy_bound _ Hco _ _ Hp) as [_ Hb]. destruct (Hb _ Hin) as (? & ? & _). congruence.
  - intros i j p q Hp _ _ _ _ Hin _. destruct (co_policy_bound _ Hco _ _ Hp) as [_ Hb].
    destruct (Hb _ Hin) as (? & ? & _). congruence.
Qed.

(** A row fits when it keeps what the previous one had. *)
Lemma kept_wallet_fits d k w w' :
  catalog_ok d -> t_wallet d !! k = Some w -> pw_custody w' = pw_custody w ->
  (forall x, active_key d k = Some x -> key_of_wallet w' x) ->
  (forall u, pw_budget_unit w = Some u -> pw_budget_unit w' = Some u) ->
  (hard_limited w -> hard_limited w') ->
  wallet_fits d k w'.
Proof.
  intros Hco Hk Hc Ha Hu Hl. split.
  - intros j x Hx Hw. destruct (co_key_owner _ Hco _ _ Hx) as (w0 & Hw0 & Hloc & _). split; [congruence|].
    intros Hact. apply Ha. rewrite <- Hw. by eapply active_key_unique.
  - intros j p Hp Hin. destruct (co_policy_bound _ Hco _ _ Hp) as [_ Hb]. destruct (Hb _ Hin) as (? & ? & ?).
    apply Hu. congruence.
  - intros i j p q Hp Hq Ep Eq Hne Hip Hiq.
    destruct (co_compatible _ Hco _ _ _ _ Hp Hq Ep Eq Hne _ Hip Hiq) as [_ Hhl]. auto.
Qed.

Lemma put_key_ok d k x :
  catalog_ok d -> table_ok key_table (<[k := x]> (t_key d)) -> key_owned d x ->
  catalog_ok (set_key (<[k := x]> (t_key d)) d).
Proof.
  intros Hco Hm Ho. destruct Hco. split; simpl; try done.
  - intros j y. rewrite lookup_insert. case_decide; naive_solver.
Qed.

(** A policy row may grow its memberships and change its limits and its
    enabled flag, never its scenario or its unit. *)
Lemma put_policy_ok d k p :
  catalog_ok d -> table_ok policy_table (<[k := p]> (t_policy d)) -> policy_bound d p ->
  (forall old, t_policy d !! k = Some old ->
     po_scenario_id p = po_scenario_id old /\ po_budget_unit p = po_budget_unit old
     /\ forall w, w ∈ po_wallet_ids old -> w ∈ po_wallet_ids p) ->
  (forall j q, t_policy d !! j = Some q -> policies_compatible d p q) ->
  catalog_ok (set_policy (<[k := p]> (t_policy d)) d).
Proof.
  intros Hco Hm Hb Hold Hcomp. destruct Hco. split; simpl; try done.
  - intros j q. rewrite lookup_insert. case_decide; naive_solver.
  - intros i j x y. rewrite !lookup_insert. unfold policies_compatible in *.
    case_decide; case_decide; intros ??; simplify_eq; simpl; eauto.
    + done.
    + intros Ex Ep Hne w Hx Hp. destruct (Hcomp i x ltac:(eassumption) Ep Ex (not_eq_sym Hne) w Hp Hx). split; [congruence|done].
  - intros j x Hx. destruct (co_price_bound0 _ _ Hx) as (q & Hq & Hs & Hw & Hu). unfold price_bound. simpl.
    destruct (decide (k = pr_policy_id x)) as [Heq|Hne].
    + exists p. rewrite Heq, lookup_insert_eq. destruct (Hold q) as (? & Hbu & ?); [congruence|].
      rewrite Hbu. split_and!; try done; [congruence|auto].
    + exists q. by rewrite lookup_insert_ne.
  - intros j r Hr. eapply intent_foreign_keys_kept; [..|by eapply co_intents0]; simpl; eauto 8.
    intros i q Hq. rewrite lookup_insert. case_decide; [subst|by eauto].
    destruct (Hold _ Hq) as (? & _ & ?). eauto.
Qed.

Lemma price_authority_used_false d old k r :
  price_authority_used d old = false -> t_intent d !! k = Some r ->
  intent_foreign_keys d (ir_intent r) = true -> intent_checks r = true ->
  t_price d !! pr_id old = Some old -> pi_price_id (ir_intent r) <> Some (pr_id old).
Proof.
  unfold price_authority_used. intros Hu Hr Hfk Hc Hp Hid. apply not_true_iff_false in Hu. apply Hu.
  apply existsb_exists. exists r. split; [apply list_elem_of_In, elem_of_rows; eauto|].
  unfold intent_foreign_keys in Hfk. rewrite Hid in Hfk. simpl in Hfk. rewrite Hp in Hfk. simpl in Hfk.
  unfold intent_checks in Hc. bool_inv.
  destruct (pi_wallet_id (ir_intent r)); [|done]. destruct (pi_policy_id (ir_intent r)); [|done]. simpl in *. bool_inv.
  subst. rewrite Hid, !bool_decide_true by congruence. done.
Qed.

Lemma put_price_ok d k x :
  catalog_ok d -> intents_ok (t_intent d) -> table_ok price_table (<[k := x]> (t_price d)) -> price_bound d x ->
  pr_id x = k ->
  (forall old, t_price d !! k = Some old ->
     pr_scenario_id x = pr_scenario_id old /\ pr_policy_id x = pr_policy_id old
     /\ (pr_wallet_id x = pr_wallet_id old \/ price_authority_used d old = false)) ->
  catalog_ok (set_price (<[k := x]> (t_price d)) d).
Proof.
  intros Hco Hint Hm Hb Hid Hold. pose proof Hco as []. split; simpl; try done.
  - intros j y. rewrite lookup_insert. case_decide; naive_solver.
  - intros j r Hr. eapply intent_foreign_keys_kept; [..|by eapply co_intents0]; simpl; eauto 8.
    intros i y Hi Hy. rewrite lookup_insert. case_decide as Hki; [subst i|by eauto 8].
    destruct (Hold _ Hy) as (? & ? & Hw). exists x. split_and!; try done. destruct Hw as [?|Hun]; [by left|].
    pose proof (tok_keyed _ _ co_prices0 _ _ Hy) as Hyid. simpl in Hyid.
    exfalso. apply (price_authority_used_false d y j r Hun Hr (co_intents0 _ _ Hr) (intents_checked _ Hint _ _ Hr));
      congruence.
Qed.

Lemma delete_price_ok d k :
  catalog_ok d -> price_used d k = false -> catalog_ok (set_price (delete k (t_price d)) d).
Proof.
  intros Hco Hu. destruct Hco. split; simpl; try done.
  - destruct co_prices0 as [Hk Hc Hun]. split.
    + intros j x [_ Hx]%lookup_delete_Some. eauto.
    + intros j x [_ Hx]%lookup_delete_Some. eauto.
    + intros i j x y [_ Hx]%lookup_delete_Some [_ Hy]%lookup_delete_Some. eauto.
  - intros j x [_ Hx]%lookup_delete_Some. eauto.
  - intros j r Hr. eapply intent_foreign_keys_kept; [..|by eapply co_intents0]; simpl; eauto 8.
    intros i x Hi Hx. exists x. split_and!; auto. apply lookup_delete_Some. split; [|done]. intros ->.
    apply not_true_iff_false in Hu. apply Hu. apply existsb_exists. exists r.
    split; [apply list_elem_of_In, elem_of_rows; eauto|]. by apply bool_decide_true.
Qed.

(** ** Clients, approvers and scenarios *)

Lemma tmap_err_ok {S A} f (m : Tx S A) s p : tmap_err f m s = Ok p <-> m s = Ok p.
Proof. unfold tmap_err. apply map_err_ok. Qed.

Lemma expect_row_ok {A} (o : option A) e d a d' : expect_row o e d = Ok (a, d') <-> o = Some a /\ d' = d.
Proof. unfold expect_row. rewrite tlift_ok, ok_or_ok. done. Qed.

(** Takes apart the statements of a catalog transaction. *)
Ltac catalog_step :=
  match goal with
  | Hx : tmap_err _ _ _ = Ok _ |- _ => apply tmap_err_ok in Hx
  | Hx : expect_row _ _ _ = Ok (_, _) |- _ => apply expect_row_ok in Hx as [? ?]; subst
  | Hx : load_or _ _ _ = Ok (_, _) |- _ => apply load_or_ok in Hx
  | Hx : require _ _ _ = Ok (_, _) |- _ => apply require_ok in Hx as [? ?]; subst
  | Hx : entity_update_returning _ _ _ _ _ = Ok (Some _, _) |- _ => unfold entity_update_returning in Hx
  | Hx : sql_update _ _ _ _ _ _ _ = Ok (Some _, _) |- _ =>
      apply sql_update_some in Hx as (? & ? & ? & ? & ? & ? & ? & ?); simpl in *; subst
  | Hx : sql_insert _ _ _ _ = Ok (_, _) |- _ =>
      apply sql_insert_ok in Hx as (? & ? & ? & ? & ?); simpl in *; subst
  end.
Ltac catalog_inv := repeat (run_inv; first [catalog_step | progress bool_inv]); run_inv.

Lemma keyed_row {K A} `{Countable K} (T : Table K A) m k r : table_ok T m -> m !! k = Some r -> tb_key T r = k.
Proof. intros Hok Hk. by apply (tok_keyed _ _ Hok). Qed.

(** The key of an updated row. *)
Ltac row_key T Hok :=
  match goal with Hk : _ !! _ = Some _ |- _ => exact (keyed_row T _ _ _ Hok Hk) end.

Lemma insert_client_ok c d x d' : insert_client c d = Ok (x, d') -> catalog_ok d -> catalog_ok d'.
Proof.
  unfold insert_client, entity_insert_returning. intros Hi Hco. catalog_inv.
  apply put_client_ok; [done|]. apply (table_ok_put client_table); try done; [apply client_collision_sym|apply Hco].
Qed.

Lemma set_client_enabled_ok id e at_ d x d' : set_client_enabled id e at_ d = Ok (x, d') -> catalog_ok d -> catalog_ok d'.
Proof.
  unfold set_client_enabled. intros Hi Hco. catalog_inv. apply put_client_ok; [done|].
  apply (table_ok_put client_table); try done; [apply client_collision_sym|apply Hco|].
  row_key client_table (co_clients _ Hco).
Qed.

Lemma unique_no_collision {K A} `{Countable K} (T : Table K A) d r :
  (forall a b, tb_collision T a b = false) -> tb_unique T d r = true.
Proof. intros Hf. apply forallb_rows. intros k x _. by rewrite Hf, orb_true_r. Qed.

Lemma upsert_approver_ok a d x d' : upsert_approver a d = Ok (x, d') -> catalog_ok d -> catalog_ok d'.
Proof.
  unfold upsert_approver. intros Hi Hco. run_inv. destruct (t_approver _ !! _) as [old|] eqn:Hold; catalog_inv.
  - apply put_approver_ok; [done| |].
    + apply (table_ok_put approver_table); try done; [apply Hco|]. row_key approver_table (co_approvers _ Hco).
    + simpl. by eapply (co_approver_scenario _ Hco).
  - apply put_approver_ok; [done| |by apply is_some_iff].
    apply (table_ok_put approver_table); try done. apply Hco.
Qed.

Lemma set_approver_enabled_ok s p e at_ d x d' :
  set_approver_enabled s p e at_ d = Ok (x, d') -> catalog_ok d -> catalog_ok d'.
Proof.
  unfold set_approver_enabled. intros Hi Hco. catalog_inv. apply put_approver_ok; [done| |].
  - apply (table_ok_put approver_table); try done; [apply Hco|].
    row_key approver_table (co_approvers _ Hco).
  - simpl. by eapply (co_approver_scenario _ Hco).
Qed.

Lemma insert_scenario_ok s e d x d' : sql_insert scenario_table s e d = Ok (x, d') -> catalog_ok d -> catalog_ok d'.
Proof.
  intros Hi Hco. catalog_inv. apply put_scenario_ok; [done| |by apply is_some_iff].
  apply (table_ok_put scenario_table); try done. apply Hco.
Qed.

Lemma register_scenario_ok s d x d' : register_scenario s d = Ok (x, d') -> catalog_ok d -> catalog_ok d'.
Proof.
  unfold register_scenario, entity_register. intros Hi Hco. run_inv. apply tmap_err_ok in Hi. run_inv.
  case_match; run_inv; [done|]. by eapply insert_scenario_ok.
Qed.

Lemma set_scenario_enabled_ok id e at_ d x d' :
  set_scenario_enabled id e at_ d = Ok (x, d') -> catalog_ok d -> catalog_ok d'.
Proof.
  unfold set_scenario_enabled. intros Hi Hco. catalog_inv. apply put_scenario_ok; [done| |].
  - apply (table_ok_put scenario_table); try done; [apply Hco|].
    row_key scenario_table (co_scenarios _ Hco).
  - simpl. by eapply (co_scenario_client _ Hco).
Qed.

(** ** Wallets and keys *)

Lemma insert_wallet_ok w c cfg d u d' : insert_wallet w c cfg d = Ok (u, d') -> catalog_ok d -> catalog_ok d'.
Proof.
  unfold insert_wallet. intros Hi Hco. catalog_inv. apply put_wallet_ok; [done| |by apply new_wallet_fits].
  apply (table_ok_put wallet_table); try done; [apply wallet_collision_sym|apply Hco].
Qed.

Lemma insert_key_ok k d u d' :
  insert_key k d = Ok (u, d') ->
  exists row, t_wallet d !! k_wallet_id k = Some row /\ pw_custody row = Local
    /\ (k_status k = KeyActive -> key_of_wallet row k)
    /\ t_key d !! (k_wallet_id k, k_version k) = None /\ key_checks k = true /\ tb_unique key_table d k = true
    /\ d' = set_key (<[(k_wallet_id k, k_version k) := k]> (t_key d)) d.
Proof.
  unfold insert_key. intros Hi. catalog_inv.
  match goal with Hr : Some ?r = t_wallet _ !! _ |- _ => exists r; symmetry in Hr end. split_and!; try done.
  intros Hact. rewrite (bool_decide_true _ Hact) in *. simpl in *. bool_inv. done.
Qed.

Lemma insert_key_catalog k d u d' : insert_key k d = Ok (u, d') -> catalog_ok d -> catalog_ok d'.
Proof.
  intros (row & Hrow & Hloc & Hact & Hnew & Hc & Hu & ->)%insert_key_ok Hco.
  apply put_key_ok; [done| |by exists row].
  apply (table_ok_put key_table); try done; [apply key_collision_sym|apply Hco].
Qed.

(** A key version that leaves the active state keeps the catalog. *)
Lemma retire_key_ok d key x status at_ :
  catalog_ok d -> t_key d !! key = Some x -> status <> KeyActive ->
  key_checks (with_key_status status at_ x) = true ->
  catalog_ok (set_key (<[key := with_key_status status at_ x]> (t_key d)) d).
Proof.
  intros Hco Hx Hne Hc. apply put_key_ok; [done| |].
  - apply (table_ok_put key_table); try done; [apply key_collision_sym|apply Hco| |].
    + exact (keyed_row key_table _ _ _ (co_keys _ Hco) Hx).
    + apply forallb_rows. intros k' y Hy. simpl in Hy. simpl.
      destruct (decide ((k_wallet_id y, k_version y) = (k_wallet_id x, k_version x))) as [Heq|Hdiff];
        [by rewrite (bool_decide_true _ Heq)|]. apply orb_true_iff. right. apply negb_true_iff.
      assert (key <> k') as Hk.
      { intros <-. congruence. }
      pose proof (tok_unique _ _ (co_keys _ Hco) _ _ _ _ Hx Hy Hk) as Hcol. simpl in Hcol.
      apply not_true_iff_false. intros Hb%key_collision_sym. revert Hcol Hb. unfold key_collision. simpl.
      rewrite (bool_decide_false (status = KeyActive)), andb_false_r by done. simpl.
      intros [_ ->]%orb_false_iff. done.
  - destruct (co_key_owner _ Hco _ _ Hx) as (w & Hw & Hl & _). exists w. split_and!; try done.
Qed.


Section Wallets.
Context `{SolanaPubkey}.

Lemma create_local_configured_ok w k c d x d' :
  create_local_configured w k c d = Ok (x, d') -> catalog_ok d -> catalog_ok d'.
Proof.
  unfold create_local_configured. intros Hi Hco. run_inv. eapply insert_key_catalog; [eassumption|].
  by eapply insert_wallet_ok.
Qed.

Lemma create_external_configured_ok w c d x d' :
  create_external_configured w c d = Ok (x, d') -> catalog_ok d -> catalog_ok d'.
Proof. unfold create_external_configured. intros Hi Hco. run_inv. by eapply insert_wallet_ok. Qed.

(** The state after the two updates of a rotation. *)
Definition retired_state (x : Wallet) (old : EncryptedWalletKeyVersion) (at_ : Z) (d : DB) : DB :=
  set_key (<[(w_id x, k_version old) := with_key_status KeyRetired (Some at_) old]> (t_key d)) d.
Definition moved_state (x : Wallet) (k : EncryptedWalletKeyVersion) (row : PaymentWallet) (d : DB) : DB :=
  set_wallet (<[w_id x := rotated_columns x (k_activated_at k) row]> (t_wallet d)) d.

Record rotation (w : Wallet) (k : EncryptedWalletKeyVersion) (at_ : Z) (d : DB) (x : Wallet) (d' : DB)
    (row : PaymentWallet) (old : EncryptedWalletKeyVersion) : Prop := {
  ro_wallet : canonical_wallet w = Ok x;
  ro_key : validate_key_for_wallet x k true = Ok tt;
  ro_row : t_wallet d !! w_id x = Some row;
  ro_active : active_key d (w_id x) = Some old;
  ro_custody : pw_custody row = Local;
  ro_created : w_created_at (pw_wallet row) = w_created_at x;
  ro_version : k_version k = (k_version old + 1)%N;
  ro_activated : (pw_updated_at row <= k_activated_at k <= at_)%Z;
  ro_old : t_key d !! (w_id x, k_version old) = Some old;
  ro_old_checks : key_checks (with_key_status KeyRetired (Some at_) old) = true;
  ro_row_checks : wallet_checks (rotated_columns x (k_activated_at k) row) = true;
  ro_row_unique : tb_unique wallet_table (retired_state x old at_ d) (rotated_columns x (k_activated_at k) row) = true;
  ro_insert : insert_key k (moved_state x k row (retired_state x old at_ d)) = Ok (tt, d')
}.

Lemma rotate_ok w k at_ d x d' :
  catalog_ok d -> rotate w k at_ d = Ok (x, d') -> exists row old, rotation w k at_ d x d' row old.
Proof.
  intros Hco Hr. unfold rotate in Hr. catalog_inv.
  repeat match goal with Hu : () |- _ => destruct Hu end.
  match goal with Hf : k_version <$> active_key _ _ = Some _ |- _ =>
    apply fmap_Some in Hf as (old & Hold & ->) end.
  match goal with Hr : Some ?r = t_wallet _ !! _ |- _ => symmetry in Hr; rename Hr into Hrow; exists r, old end.
  unfold u32_checked_add in *. case_match; [|done]. simplify_eq.
  destruct (active_key_Some _ _ _ Hold) as (j & Hj & Hw & _).
  pose proof (keyed_row key_table _ _ _ (co_keys _ Hco) Hj) as Hjk. simpl in Hjk. subst j. rewrite Hw in Hj.
  simpl in *. simplify_eq. by split.
Qed.

Lemma retired_no_active x old at_ d :
  catalog_ok d -> active_key d (w_id x) = Some old -> t_key d !! (w_id x, k_version old) = Some old ->
  active_key (retired_state x old at_ d) (w_id x) = None.
Proof.
  intros Hco Ha Hold. apply fetch_optional_None. intros k y. simpl. rewrite lookup_insert. case_decide as Hk.
  - intros [= <-]. simpl. by rewrite andb_false_r.
  - intros Hy. apply not_true_iff_false. intros Hb. bool_inv.
    pose proof (active_key_unique _ _ _ Hco Hy ltac:(done)) as Hy'. apply Hk.
    pose proof (keyed_row key_table _ _ _ (co_keys _ Hco) Hy) as Hyk. simpl in Hyk. congruence.
Qed.

Lemma rotate_catalog w k at_ d x d' : rotate w k at_ d = Ok (x, d') -> catalog_ok d -> catalog_ok d'.
Proof.
  intros Hr Hco. destruct (rotate_ok _ _ _ _ _ _ Hco Hr) as (row & old & [??? Ha Hl ??? Hold Hoc Hrc Hru Hins]).
  eapply insert_key_catalog; [exact Hins|].
  assert (catalog_ok (retired_state x old at_ d)) as Hco1 by (by apply retire_key_ok).
  apply put_wallet_ok; [done| |].
  - apply (table_ok_put wallet_table); try done; [apply wallet_collision_sym|apply Hco1|].
    simpl. by apply (keyed_row wallet_table _ _ _ (co_wallets _ Hco)).
  - eapply kept_wallet_fits; [done|simpl; eassumption|done| |done|done].
    intros y Hy. rewrite retired_no_active in Hy; done.
Qed.

Lemma mark_key_compromised_ok id v at_ d u d' :
  mark_key_compromised id v at_ d = Ok (u, d') -> catalog_ok d -> catalog_ok d'.
Proof. unfold mark_key_compromised. intros Hm Hco. catalog_inv. by apply retire_key_ok. Qed.

(** A wallet row that changes neither its identity nor its custody. *)
Lemma update_wallet_row d k w w' :
  catalog_ok d -> t_wallet d !! k = Some w -> pw_wallet w' = pw_wallet w -> pw_custody w' = pw_custody w ->
  wallet_checks w' = true -> tb_unique wallet_table d w' = true ->
  (forall j p, t_policy d !! j = Some p -> k ∈ po_wallet_ids p -> pw_budget_unit w' = Some (po_budget_unit p)) ->
  (forall i j p q, t_policy d !! i = Some p -> t_policy d !! j = Some q ->
     po_enabled p = true -> po_enabled q = true -> po_scenario_id p <> po_scenario_id q ->
     k ∈ po_wallet_ids p -> k ∈ po_wallet_ids q -> hard_limited w') ->
  catalog_ok (set_wallet (<[k := w']> (t_wallet d)) d).
Proof.
  intros Hco Hk Hid Hc Hch Hun Hunit Hlim. apply put_wallet_ok; [done| |].
  - apply (table_ok_put wallet_table); try done; [apply wallet_collision_sym|apply Hco|].
    simpl. rewrite Hid. by apply (keyed_row wallet_table _ _ _ (co_wallets _ Hco)).
  - split; [|done|].
    + intros j x Hx <-. destruct (co_key_owner _ Hco _ _ Hx) as (w0 & Hw0 & Hl & Ha). simplify_eq.
      split; [congruence|]. unfold key_of_wallet in *. by rewrite Hid.
    + intros i j p q Hp Hq Ep Eq Hne Hip Hiq. eapply (Hlim i j p q); try done.
      by destruct (co_compatible _ Hco _ _ _ _ Hp Hq Ep Eq Hne _ Hip Hiq).
Qed.

Lemma policy_ids_differ d i j p q :
  catalog_ok d -> t_policy d !! i = Some p -> t_policy d !! j = Some q ->
  po_scenario_id p <> po_scenario_id q -> po_id p <> po_id q.
Proof.
  intros Hco Hp Hq Hne Hid. pose proof (keyed_row policy_table _ _ _ (co_policies _ Hco) Hp) as Kp.
  pose proof (keyed_row policy_table _ _ _ (co_policies _ Hco) Hq) as Kq. simpl in *. congruence.
Qed.

Lemma set_wallet_enabled_ok id e at_ d u d' :
  set_wallet_enabled id e at_ d = Ok (u, d') -> catalog_ok d -> catalog_ok d'.
Proof.
  unfold set_wallet_enabled. intros Hm Hco. catalog_inv. eapply update_wallet_row; try done; simpl.
  - intros j p Hp Hin. destruct (co_policy_bound _ Hco _ _ Hp) as [_ Hb]. destruct (Hb _ Hin) as (? & ? & ?). by simplify_eq.
  - intros i j p q Hp Hq Ep Eq Hsc Hip Hiq.
    destruct (co_compatible _ Hco _ _ _ _ Hp Hq Ep Eq (policy_ids_differ _ _ _ _ _ Hco Hp Hq Hsc) _ Hip Hiq) as [_ Hl].
    match goal with Hw : t_wallet _ !! _ = Some _ |- _ => exact (Hl _ Hw) end.
Qed.

Lemma policies_of_wallet_spec d w k p :
  t_policy d !! k = Some p -> w ∈ po_wallet_ids p -> policies_of_wallet d w <> [].
Proof.
  intros Hp Hin Hnil. assert (po_id p ∈ policies_of_wallet d w) as Hm; [|by rewrite Hnil in Hm; apply elem_of_nil in Hm].
  apply elem_of_order_by, list_elem_of_In, in_map, list_elem_of_In, elem_of_select.
  split; [by apply bool_decide_true|eauto].
Qed.

Lemma wallet_scenarios_shared d w i j p q :
  t_policy d !! i = Some p -> t_policy d !! j = Some q -> po_enabled p = true -> po_enabled q = true ->
  po_scenario_id p <> po_scenario_id q -> w ∈ po_wallet_ids p -> w ∈ po_wallet_ids q ->
  (1 < size (wallet_scenarios d w))%nat.
Proof.
  intros Hp Hq Ep Eq Hne Hip Hiq.
  assert (forall k x, t_policy d !! k = Some x -> po_enabled x = true -> w ∈ po_wallet_ids x ->
          po_scenario_id x ∈ wallet_scenarios d w) as Hin.
  { intros k x Hx Ex Hix. apply elem_of_list_to_set, list_elem_of_In, in_map, list_elem_of_In, elem_of_select.
    split; [by rewrite Ex, bool_decide_true|eauto]. }
  assert ({[po_scenario_id p; po_scenario_id q]} ⊆ wallet_scenarios d w) as Hsub.
  { pose proof (Hin _ _ Hp Ep Hip). pose proof (Hin _ _ Hq Eq Hiq). set_solver. }
  apply subseteq_size in Hsub. rewrite size_union, !size_singleton in Hsub by set_solver. lia.
Qed.

Lemma set_spending_limits_ok id u mp md at_ d x d' :
  set_spending_limits id u mp md at_ d = Ok (x, d') -> catalog_ok d -> catalog_ok d'.
Proof.
  unfold set_spending_limits, lock_bound_policies, bound_policy_ids. intros Hm Hco. catalog_inv.
  eapply update_wallet_row; try done; simpl.
  - intros j p Hp Hin. destruct (co_policy_bound _ Hco _ _ Hp) as [_ Hb]. destruct (Hb _ Hin) as (? & ? & ?).
    pose proof (policies_of_wallet_spec _ _ _ _ Hp Hin) as Hne.
    match goal with Hg : negb (bool_decide (policies_of_wallet _ _ = [])) && _ = false |- _ =>
      rewrite (bool_decide_false _ Hne) in Hg; simpl in Hg; bool_inv end. congruence.
  - intros i j p q Hp Hq Ep Eq Hsc Hip Hiq. pose proof (wallet_scenarios_shared _ _ _ _ _ _ Hp Hq Ep Eq Hsc Hip Hiq) as Hs.
    match goal with Hg : (1 <? size _)%nat && _ = false |- _ =>
      rewrite (proj2 (Nat.ltb_lt _ _) Hs) in Hg; simpl in Hg end.
    split; simpl; [destruct mp|destruct md]; simpl in *; bool_inv; try done; by eexists.
Qed.
End Wallets.

(** ** Policies *)

(** What [validate_wallet_bindings] establishes of one wallet. *)
Definition binding_valid (p : PaymentPolicy) (d : DB) (w : string) : Prop :=
  exists row, t_wallet d !! w = Some row /\ pw_budget_unit row = Some (po_budget_unit p)
    /\ (po_enabled p = true ->
        forall j q, t_policy d !! j = Some q -> po_id q <> po_id p -> po_enabled q = true -> w ∈ po_wallet_ids q ->
          po_scenario_id q <> po_scenario_id p /\ hard_limited row).

(** Binding only gives a unit to wallets that have none. *)
Record units_filled (d d' : DB) : Prop := {
  uf_policies : t_policy d' = t_policy d;
  uf_scenarios : t_scenario d' = t_scenario d;
  uf_catalog : catalog_ok d -> catalog_ok d';
  uf_wallets : forall w row, t_wallet d !! w = Some row ->
    exists row', t_wallet d' !! w = Some row' /\ (hard_limited row -> hard_limited row')
                 /\ (forall u, pw_budget_unit row = Some u -> pw_budget_unit row' = Some u)
}.

#[export] Instance units_filled_refl : Reflexive units_filled.
Proof. intros d. split; eauto. Qed.
#[export] Instance units_filled_trans : Transitive units_filled.
Proof.
  intros a b c [P1 S1 C1 W1] [P2 S2 C2 W2]. split; [congruence..|auto|].
  intros w row Hw. destruct (W1 _ _ Hw) as (r1 & H1 & L1 & U1). destruct (W2 _ _ H1) as (r2 & H2 & L2 & U2).
  exists r2. split_and!; auto.
Qed.

Lemma binding_valid_filled p d d' w : units_filled d d' -> binding_valid p d w -> binding_valid p d' w.
Proof.
  intros [P S C W] (row & Hrow & Hu & Hq). destruct (W _ _ Hrow) as (row' & Hrow' & Hl & Hu').
  exists row'. split_and!; [done|auto|]. intros He j q Hj Hne Heq Hin. rewrite P in Hj.
  destruct (Hq He j q Hj Hne Heq Hin). auto.
Qed.

Lemma initialize_unit_ok w p d u d' :
  initialize_wallet_budget_unit w p d = Ok (u, d') ->
  units_filled d d' /\ exists row row', t_wallet d !! w = Some row /\ t_wallet d' !! w = Some row'
    /\ pw_budget_unit row' = Some (po_budget_unit p) /\ (hard_limited row -> hard_limited row').
Proof.
  unfold initialize_wallet_budget_unit. intros Hi. catalog_inv. split.
  - match goal with Hw : t_wallet d !! w = Some ?r, Hn : is_none (pw_budget_unit ?r) = true |- _ =>
      rename Hw into Hrow, Hn into Hnone end.
    split; simpl; try done.
    + intros Hco. eapply update_wallet_row; try done; simpl.
      * intros j q Hq Hin. destruct (co_policy_bound _ Hco _ _ Hq) as [_ Hb]. destruct (Hb _ Hin) as (? & ? & Hs).
        simplify_eq. by rewrite Hs in Hnone.
      * intros i j q q' Hq Hq' E E' Hsc Hin Hin'.
        destruct (co_compatible _ Hco _ _ _ _ Hq Hq' E E' (policy_ids_differ _ _ _ _ _ Hco Hq Hq' Hsc) _ Hin Hin') as [_ Hl].
        exact (Hl _ Hrow).
    + intros v r Hv. rewrite lookup_insert. case_decide as Hvw; [subst v|by eauto].
      eexists. split_and!; [done| |]; simplify_eq; [done|]. intros u' Hu'. by rewrite Hu' in Hnone.
  - simpl. eexists _, _. rewrite lookup_insert_eq. done.
Qed.

Lemma no_other_policy same p w d j q :
  existsb (other_enabled_policy same p w) (rows (t_policy d)) = false ->
  t_policy d !! j = Some q -> po_id q <> po_id p -> po_enabled q = true -> w ∈ po_wallet_ids q ->
  (po_scenario_id q == po_scenario_id p) = negb same.
Proof.
  intros Hex Hq Hne He Hin. apply not_true_iff_false in Hex.
  destruct (po_scenario_id q == po_scenario_id p) eqn:Hsc, same; try done; exfalso; apply Hex;
    apply existsb_exists; exists q; (split; [apply list_elem_of_In, elem_of_rows; eauto|]);
    unfold other_enabled_policy; rewrite He, Hsc, (bool_decide_true _ Hin), (bool_decide_false _ Hne); done.
Qed.

Lemma validate_wallet_binding_ok p w d u d' :
  validate_wallet_binding p w d = Ok (u, d') -> units_filled d d' /\ binding_valid p d' w.
Proof.
  unfold validate_wallet_binding. intros Hv. catalog_inv.
  match goal with Hr : Some ?r = t_wallet _ !! _ |- _ => symmetry in Hr; rename Hr into Hrow, r into row end.
  match goal with Hx : match pw_budget_unit _ with _ => _ end _ = Ok (_, ?s) |- _ =>
    rename Hx into Hm; assert (units_filled d s /\ exists row', t_wallet s !! w = Some row'
      /\ pw_budget_unit row' = Some (po_budget_unit p) /\ (hard_limited row -> hard_limited row'))
      as (Hf & row' & Hrow' & Hu & Hl) end.
  { clear Hv. destruct (pw_budget_unit row) as [v|] eqn:Hv'; catalog_inv.
    - split; [done|]. exists row. split_and!; try done.
    - destruct (initialize_unit_ok _ _ _ _ _ Hm) as (Hf & r1 & r2 & H1 & H2 & Hu & Hl). split; [done|].
      exists r2. by simplify_eq. }
  destruct (po_enabled p) eqn:He; simpl in Hv; catalog_inv; (split; [done|]); exists row'; split_and!; try done.
  2: { by rewrite He. }
  intros _ j q Hq Hne Hen Hin.
  match goal with Hd : existsb (other_enabled_policy true _ _) _ = false |- _ =>
    pose proof (no_other_policy _ _ _ _ _ _ Hd Hq Hne Hen Hin) as Hsc end.
  simpl in Hsc. split; [by bool_inv|]. apply Hl.
  destruct (existsb (other_enabled_policy false p w) _) eqn:Hsh.
  - simpl in Hv. bool_inv. by split; apply is_some_iff.
  - pose proof (no_other_policy _ _ _ _ _ _ Hsh Hq Hne Hen Hin). simpl in *. congruence.
Qed.

Lemma validate_wallet_bindings_ok p ws d u d' :
  tfor (validate_wallet_binding p) ws d = Ok (u, d') ->
  units_filled d d' /\ forall w, w ∈ ws -> binding_valid p d' w.
Proof.
  revert d. induction ws as [|w ws IH]; intros d Hv; simpl in Hv; run_inv.
  - split; [done|]. intros w Hw. by apply elem_of_nil in Hw.
  - match goal with Hb : validate_wallet_binding _ _ _ = Ok _ |- _ =>
      apply validate_wallet_binding_ok in Hb as [Hf1 Hb1] end.
    destruct (IH _ Hv) as [Hf2 Hb2]. split; [by etrans|]. intros v [->|Hin]%elem_of_cons; [|auto].
    by eapply binding_valid_filled.
Qed.

Lemma lock_wallets_ok ws d u d' : lock_wallets ws d = Ok (u, d') -> d' = d.
Proof.
  unfold lock_wallets. revert d. induction ws as [|w ws IH]; intros d Hl; simpl in Hl; run_inv; [done|].
  match goal with Hr : require _ _ _ = Ok _ |- _ => apply require_ok in Hr as [_ ->] end. by apply IH.
Qed.

(** A policy row is compatible with every other one once its bindings are
    validated. *)
Lemma binding_compatible p p' d :
  po_enabled p' = po_enabled p -> po_id p' = po_id p -> po_scenario_id p' = po_scenario_id p ->
  (forall w, w ∈ po_wallet_ids p' -> binding_valid p d w) ->
  forall j q, t_policy d !! j = Some q -> policies_compatible d p' q.
Proof.
  intros He Hid Hsc Hb j q Hq Ep Eq Hne w Hin Hin'. destruct (Hb w Hin) as (row & Hrow & _ & Hall).
  rewrite He in Ep. destruct (Hall Ep j q Hq ltac:(congruence) Eq Hin') as [Hs Hl].
  split; [congruence|]. intros row' Hrow'. by simplify_eq.
Qed.

Lemma binding_bound p p' d :
  po_budget_unit p' = po_budget_unit p -> is_Some (t_scenario d !! po_scenario_id p') ->
  (forall w, w ∈ po_wallet_ids p' -> binding_valid p d w) -> policy_bound d p'.
Proof.
  intros Hu Hs Hb. split; [done|]. intros w Hin. destruct (Hb w Hin) as (row & Hrow & Hru & _).
  exists row. by rewrite Hu.
Qed.

Lemma insert_policy_wallet_ok p w d u d' row :
  catalog_ok d -> t_policy d !! po_id p = Some row -> row = with_wallet_ids (po_wallet_ids row) p ->
  (forall v, v ∈ w :: po_wallet_ids row -> binding_valid p d v) ->
  insert_policy_wallet p w d = Ok (u, d') ->
  catalog_ok d' /\ t_policy d' !! po_id p
      = Some (with_wallet_ids (order_insert (fun a b => negb (str_ltb b a)) w (po_wallet_ids row)) p)
  /\ forall v, binding_valid p d v -> binding_valid p d' v.
Proof.
  intros Hco Hrow Heq Hb Hi. unfold insert_policy_wallet in Hi. rewrite Hrow in Hi. destruct (_ && _) eqn:Hg; [|done].
  injection Hi as _ <-. bool_inv. set (ids := order_insert _ w (po_wallet_ids row)).
  assert (with_wallet_ids ids row = with_wallet_ids ids p) as Hsame by (by rewrite Heq).
  assert (forall v, v ∈ ids <-> v ∈ w :: po_wallet_ids row) as Hids.
  { intros v. unfold ids. by rewrite order_insert_perm. }
  rewrite Hsame. split_and!.
  - apply put_policy_ok; [done| | | |].
    + apply (table_ok_put policy_table); try done; [apply Hco| |by apply unique_no_collision]. rewrite <- Hsame.
      change (policy_checks row = true). by apply (tok_checked _ _ (co_policies _ Hco) _ _ Hrow).
    + eapply binding_bound; [done| |intros v Hv; apply Hb, Hids, Hv].
      change (is_Some (t_scenario d !! po_scenario_id (with_wallet_ids ids p))). rewrite <- Hsame.
      by apply (co_policy_bound _ Hco _ _ Hrow).
    + intros old Hold. rewrite Hrow in Hold. injection Hold as <-. rewrite <- Hsame. split_and!; try done. intros v Hv. apply Hids. by right.
    + eapply binding_compatible; try done. intros v Hv. by apply Hb, Hids.
  - simpl. by rewrite lookup_insert_eq.
  - intros v (r & Hr & Hu & Hall). exists r. split_and!; try done. intros He j q. simpl. rewrite lookup_insert.
    case_decide as Hj; [|by eauto]. intros [= <-] Hne. done.
Qed.

(** *** Memberships are read back in order *)

Lemma str_ltb_trans a b c : str_ltb a b = true -> str_ltb b c = true -> str_ltb a c = true.
Proof.
  unfold str_ltb, str_compare. revert b c. induction a as [|x a IH]; intros [|y b] [|z c]; simpl; try done.
  unfold Ascii.compare. destruct (N.compare_spec (N_of_ascii x) (N_of_ascii y)),
    (N.compare_spec (N_of_ascii y) (N_of_ascii z)), (N.compare_spec (N_of_ascii x) (N_of_ascii z));
    try done; try lia; apply IH.
Qed.

Lemma sorted_above w ws : unsorted (w :: ws) = false -> Forall (fun v => str_ltb w v = true) ws.
Proof.
  revert w. induction ws as [|v ws IH]; intros w Hs; [constructor|]. cbn [unsorted] in Hs.
  apply orb_false_iff in Hs as [Hwv Hs]. apply negb_false_iff in Hwv. constructor; [done|].
  eapply list.Forall_impl; [apply IH, Hs|]. intros u Hu. by eapply str_ltb_trans.
Qed.

Lemma order_insert_last (leb : string -> string -> bool) w l :
  Forall (fun v => leb w v = false) l -> order_insert leb w l = (l ++ [w])%list.
Proof. induction 1 as [|v l Hv _ IH]; simpl; [done|]. by rewrite Hv, IH. Qed.

(** The memberships of a validated policy are inserted one after the other. *)
Lemma insert_policy_wallets_ok p ws d u d' row :
  catalog_ok d -> t_policy d !! po_id p = Some row -> row = with_wallet_ids (po_wallet_ids row) p ->
  (forall v, v ∈ (po_wallet_ids row ++ ws)%list -> binding_valid p d v) -> unsorted ws = false ->
  Forall (fun v => Forall (fun w => str_ltb v w = true) ws) (po_wallet_ids row) ->
  tfor (insert_policy_wallet p) ws d = Ok (u, d') ->
  catalog_ok d' /\ t_policy d' !! po_id p = Some (with_wallet_ids (po_wallet_ids row ++ ws)%list p).
Proof.
  revert d row. induction ws as [|w ws IH]; intros d row Hco Hrow Heq Hb Hs Hlt Hf; simpl in Hf; run_inv.
  - rewrite app_nil_r. split; [done|]. congruence.
  - assert (forall v, v ∈ w :: po_wallet_ids row -> binding_valid p d v) as Hbw.
    { intros v [->|Hv]%elem_of_cons; apply Hb, elem_of_app; [right; left|by left]. }
    match goal with Hi : insert_policy_wallet _ _ _ = Ok _ |- _ =>
      destruct (insert_policy_wallet_ok _ _ _ _ _ _ Hco Hrow Heq Hbw Hi)
        as (Hco1 & Hrow1 & Hb1) end.
    rewrite order_insert_last in Hrow1.
    2: { eapply list.Forall_impl; [exact Hlt|]. intros v Hv. apply list.Forall_cons in Hv as [Hv _]. by rewrite Hv. }
    assert (po_wallet_ids row ++ w :: ws = (po_wallet_ids row ++ [w]) ++ ws)%list as Happ by (by rewrite <- app_assoc).
    rewrite Happ in Hb |- *. eapply (IH _ _ Hco1 Hrow1); simpl; try done.
    + intros v Hv. by apply Hb1, Hb.
    + destruct ws as [|v ws]; [done|]. cbn [unsorted] in Hs. by apply orb_false_iff in Hs as [_ Hs].
    + apply Forall_app. split.
      * eapply list.Forall_impl; [exact Hlt|]. intros v Hv. by apply list.Forall_cons in Hv as [_ Hv].
      * constructor; [|constructor]. by apply sorted_above.
Qed.

Lemma with_own_wallet_ids p : with_wallet_ids (po_wallet_ids p) p = p.
Proof. by destruct p. Qed.

Lemma validate_policy_sorted p u : validate_policy p = Ok u -> unsorted (po_wallet_ids p) = false.
Proof. unfold validate_policy, PaymentPolicy_validate. intros Hv. run_inv. by bool_inv. Qed.

(** Inserting a policy keeps the catalog and stores exactly that policy. *)
Lemma insert_policy_aggregate_ok p d u d' :
  catalog_ok d -> unsorted (po_wallet_ids p) = false -> insert_policy_aggregate p d = Ok (u, d') ->
  catalog_ok d' /\ t_policy d' !! po_id p = Some p.
Proof.
  unfold insert_policy_aggregate, insert_policy. intros Hco Hs Hi. run_inv.
  match goal with Hl : lock_wallets _ _ = Ok _ |- _ => apply lock_wallets_ok in Hl; subst end. catalog_inv.
  match goal with Hv : validate_wallet_bindings _ _ = Ok _ |- _ =>
    apply validate_wallet_bindings_ok in Hv as [[Hp Hsc Hcat _] Hb] end.
  simpl in Hp. set (row := with_wallet_ids [] p) in *.
  assert (catalog_ok d' /\ t_policy d' !! po_id p = Some (with_wallet_ids (po_wallet_ids row ++ po_wallet_ids p)%list p))
    as [? Hfin]; [|simpl in Hfin; by rewrite with_own_wallet_ids in Hfin].
  eapply (insert_policy_wallets_ok p (po_wallet_ids p) _ _ _ row); [..|exact Hi]; try done.
  - apply Hcat. apply put_policy_ok; [done| | | |].
    + apply (table_ok_put policy_table); try done. apply Hco.
    + split; [bool_inv; by apply is_some_iff|]. simpl. intros w Hw. by apply elem_of_nil in Hw.
    + intros old Hold. simpl in *. congruence.
    + intros j q _ _ _ _ w Hw. by apply elem_of_nil in Hw.
  - rewrite Hp. by rewrite lookup_insert_eq.
Qed.

Lemma policy_insert_ok p d x d' :
  policy_insert p d = Ok (x, d') -> catalog_ok d -> catalog_ok d' /\ x = p /\ t_policy d' !! po_id p = Some p.
Proof.
  unfold policy_insert. intros Hi Hco. run_inv.
  match goal with Hv : validate_policy _ = Ok _ |- _ => apply validate_policy_sorted in Hv end.
  by edestruct insert_policy_aggregate_ok.
Qed.

Lemma policy_update_ok p e d x d' : policy_update p e d = Ok (x, d') -> catalog_ok d -> catalog_ok d'.
Proof.
  unfold policy_update, load_policy. intros Hu Hco. catalog_inv.
  match goal with Hl : lock_wallets _ _ = Ok _ |- _ => apply lock_wallets_ok in Hl; subst end.
  match goal with Hv : validate_wallet_bindings _ _ = Ok (_, ?s) |- _ =>
    apply validate_wallet_bindings_ok in Hv as [[Hp Hsc Hcat _] Hb]; specialize (Hcat Hco); rename s into d1 end.
  match goal with Hr : t_policy d1 !! _ = Some ?r |- _ => rename Hr into Hrow, r into row end.
  match goal with Hr : Some ?r = t_policy d !! _ |- _ => symmetry in Hr; rewrite <- Hp, Hrow in Hr; simplify_eq end.
  pose proof (keyed_row policy_table _ _ _ (co_policies _ Hcat) Hrow) as Hkey. simpl in Hkey.
  apply put_policy_ok; [done| | | |].
  - apply (table_ok_put policy_table); try done. apply Hcat.
  - eapply binding_bound; simpl; [done| |].
    + by apply (co_policy_bound _ Hcat _ _ Hrow).
    + intros w Hw. apply Hb. congruence.
  - intros old Hold. simplify_eq. done.
  - eapply binding_compatible; simpl; try done. intros w Hw. apply Hb. congruence.
Qed.

Lemma register_with_policy_ok s p d x d' : register_with_policy s p d = Ok (x, d') -> catalog_ok d -> catalog_ok d'.
Proof.
  unfold register_with_policy, find_or_insert_scenario, load_policy. intros Hr Hco. run_inv.
  match goal with Hv : validate_policy _ = Ok _ |- _ => apply validate_policy_sorted in Hv end.
  match goal with Hm : match t_scenario _ !! _ with _ => _ end _ = Ok (_, ?d1) |- _ =>
    assert (catalog_ok d1) as Hco1 by (clear Hr; case_match; run_inv; [done|by eapply insert_scenario_ok]) end.
  case_match; run_inv; [done|]. by edestruct insert_policy_aggregate_ok.
Qed.

(** ** Prices *)

Lemma validate_price_authority_ok x d u d' :
  validate_price_authority x d = Ok (u, d') -> d' = d /\ price_bound d x.
Proof.
  unfold validate_price_authority, load_policy. intros Hv. catalog_inv. split; [done|].
  match goal with Hr : Some ?r = t_policy _ !! _ |- _ => exists r end. split_and!; by try done.
Qed.

Lemma price_insert_ok x d y d' :
  price_insert x d = Ok (y, d') -> intents_ok (t_intent d) -> catalog_ok d -> catalog_ok d'.
Proof.
  unfold price_insert, insert_price. intros Hi Hin Hco. run_inv.
  match goal with Hv : validate_price_authority _ _ = Ok _ |- _ => apply validate_price_authority_ok in Hv as [-> Hb] end.
  catalog_inv. apply put_price_ok; try done.
  - apply (table_ok_put price_table); try done; [apply price_collision_sym|apply Hco].
  - intros old Hold. congruence.
Qed.

Lemma price_update_ok x e d y d' :
  price_update x e d = Ok (y, d') -> intents_ok (t_intent d) -> catalog_ok d -> catalog_ok d'.
Proof.
  unfold price_update. intros Hi Hin Hco. run_inv.
  match goal with Hv : validate_price_authority _ _ = Ok _ |- _ => apply validate_price_authority_ok in Hv as [-> Hb] end.
  catalog_inv. match goal with Hr : t_price d !! _ = Some ?r |- _ => rename Hr into Hrow, r into row end.
  pose proof (keyed_row price_table _ _ _ (co_prices _ Hco) Hrow) as Hkey. simpl in Hkey.
  apply put_price_ok; try done.
  - apply (table_ok_put price_table); try done; [apply price_collision_sym|apply Hco].
  - destruct Hb as (p & Hp & Hsc & Hw & Hu). exists p. simpl. split_and!; try done; congruence.
  - intros old Hold. simplify_eq. split_and!; try done. unfold price_foreign_keys in *. simpl in *.
    match goal with Hf : _ || _ = true |- _ => apply orb_true_iff in Hf as [Hf|Hf] end; bool_inv; [by left|by right].
Qed.

Lemma price_delete_ok k e d u d' : price_delete k e d = Ok (u, d') -> catalog_ok d -> catalog_ok d'.
Proof.
  unfold price_delete. intros Hd Hco. repeat case_match; try done. simplify_eq. by apply delete_price_ok.
Qed.

(** ** What administration leaves alone

    Catalog transactions write no payment table, and they never drop a key
    version, change its material or bring it back into use. *)

Record key_evolves (x x' : EncryptedWalletKeyVersion) : Prop := {
  ke_material : x' = with_key_status (k_status x') (k_retired_at x') x;
  ke_status : k_status x = k_status x' \/ k_status x = KeyActive \/ k_status x' = KeyCompromised;
  ke_retired : k_status x <> KeyActive -> k_status x' <> KeyActive /\ k_retired_at x' = k_retired_at x
}.

#[export] Instance key_evolves_refl : Reflexive key_evolves.
Proof. intros x. split; [by destruct x|by left|done]. Qed.
#[export] Instance key_evolves_trans : Transitive key_evolves.
Proof.
  intros x y z [M1 S1 R1] [M2 S2 R2]. split.
  - rewrite M2 at 1. by rewrite M1 at 1.
  - destruct S1 as [->|[?|Hc]]; [done|tauto|]. destruct S2 as [<-|[Ha|?]]; [tauto| |tauto]. congruence.
  - intros Hn. destruct (R1 Hn) as [Hn1 E1]. destruct (R2 Hn1) as [Hn2 E2]. split; congruence.
Qed.

Definition keys_evolve (m m' : gmap (string * N) EncryptedWalletKeyVersion) : Prop :=
  forall k x, m !! k = Some x -> exists x', m' !! k = Some x' /\ key_evolves x x'.

Definition administered (d d' : DB) : Prop := same_payments d d' /\ keys_evolve (t_key d) (t_key d').

#[export] Instance administered_refl : Reflexive administered.
Proof. intros d. split; [done|]. intros k x Hk. by exists x. Qed.
#[export] Instance administered_trans : Transitive administered.
Proof.
  intros a b c [(?&?&?&?&?) K1] [(?&?&?&?&?) K2]. split; [split_and!; congruence|].
  intros k x Hk. destruct (K1 _ _ Hk) as (y & Hy & E1). destruct (K2 _ _ Hy) as (z & Hz & E2).
  exists z. split; [done|]. by etrans.
Qed.

(** Transactions that only administer. *)
Class Administrative {A} (m : Tx DB A) : Prop :=
  administrative : forall d a d', m d = Ok (a, d') -> administered d d'.

Lemma bind_administrative {A B} (m : Tx DB A) (k : A -> Tx DB B) :
  Administrative m -> (forall a, Administrative (k a)) -> Administrative (tbind m k).
Proof. intros Hm Hk d b d' Hr. run_inv. etrans; [by eapply Hm|by eapply Hk]. Qed.

#[export] Instance read_only_administrative {A} (m : Tx DB A) : ReadOnly m -> Administrative m.
Proof. intros Hm d a d' Hr. by rewrite (read_only _ _ _ Hr). Qed.
#[export] Instance tmap_err_administrative {A} f (m : Tx DB A) : Administrative m -> Administrative (tmap_err f m).
Proof. intros Hm d a d' Hr%tmap_err_ok. by eapply Hm. Qed.
Lemma tfor_administrative {A} (f : A -> Tx DB unit) l : (forall a, Administrative (f a)) -> Administrative (tfor f l).
Proof. intros Hf d u d' Hr. eapply (tfor_rel administered); [|exact Hr]. intros a s1 s2 _ Ha. by eapply Hf. Qed.

(** Tables other than the keys. *)
Lemma other_table_administrative {K A} `{Countable K} (T : Table K A) :
  (forall m d, administered d (tb_write T m d)) ->
  (forall r e, Administrative (sql_insert T r e))
  /\ (forall k g f fk e, Administrative (sql_update T k g f fk e)).
Proof.
  intros HT. split.
  - intros r e d u d' (_ & _ & _ & _ & ->)%sql_insert_ok. apply HT.
  - intros k g f fk e d o d' [[_ ->]|(r & _ & _ & _ & _ & _ & _ & ->)]%sql_update_ok; [done|apply HT].
Qed.

Ltac other_table :=
  apply other_table_administrative; intros; split; [done|]; simpl; intros ???; eexists; split; [eassumption|done].
#[export] Instance insert_client_administrative r e : Administrative (sql_insert client_table r e).
Proof. other_table. Qed.
#[export] Instance update_client_administrative k g f fk e : Administrative (sql_update client_table k g f fk e).
Proof. other_table. Qed.
#[export] Instance insert_scenario_administrative r e : Administrative (sql_insert scenario_table r e).
Proof. other_table. Qed.
#[export] Instance update_scenario_administrative k g f fk e : Administrative (sql_update scenario_table k g f fk e).
Proof. other_table. Qed.
#[export] Instance insert_approver_administrative r e : Administrative (sql_insert approver_table r e).
Proof. other_table. Qed.
#[export] Instance update_approver_administrative k g f fk e : Administrative (sql_update approver_table k g f fk e).
Proof. other_table. Qed.
#[export] Instance insert_wallet_administrative r e : Administrative (sql_insert wallet_table r e).
Proof. other_table. Qed.
#[export] Instance update_wallet_administrative k g f fk e : Administrative (sql_update wallet_table k g f fk e).
Proof. other_table. Qed.
#[export] Instance insert_policy_administrative r e : Administrative (sql_insert policy_table r e).
Proof. other_table. Qed.
#[export] Instance update_policy_administrative k g f fk e : Administrative (sql_update policy_table k g f fk e).
Proof. other_table. Qed.
#[export] Instance insert_price_administrative r e : Administrative (sql_insert price_table r e).
Proof. other_table. Qed.
#[export] Instance update_price_administrative k g f fk e : Administrative (sql_update price_table k g f fk e).
Proof. other_table. Qed.

#[export] Instance insert_key_row_administrative r e : Administrative (sql_insert key_table r e).
Proof.
  intros d u d' (Hn & _ & _ & _ & ->)%sql_insert_ok. split; [done|]. simpl in *.
  intros k x Hk. exists x. split; [|done]. rewrite lookup_insert_ne; [done|]. congruence.
Qed.

Lemma update_key_administrative k g f fk e :
  (forall x, g x = true -> key_evolves x (f x)) -> Administrative (sql_update key_table k g f fk e).
Proof.
  intros Hf d o d' [[_ ->]|(r & _ & Hr & Hg & _ & _ & _ & ->)]%sql_update_ok; [done|]. split; [done|]. simpl in *.
  intros j x Hj. rewrite lookup_insert. case_decide as Hjk; [|by exists x]. simplify_eq. eauto.
Qed.

#[export] Instance retire_administrative k at_ fk e :
  Administrative (sql_update key_table k (fun x => k_status x == KeyActive) (with_key_status KeyRetired (Some at_)) fk e).
Proof. apply update_key_administrative. intros x Hx. bool_inv. split; [done|by right; left|by intros []]. Qed.

#[export] Instance insert_policy_wallet_administrative p w : Administrative (insert_policy_wallet p w).
Proof.
  intros d u d' Hi. unfold insert_policy_wallet in Hi. repeat case_match; simplify_eq.
  split; [done|]. simpl. intros k x Hk. by exists x.
Qed.
#[export] Instance price_delete_administrative id e : Administrative (price_delete id e).
Proof.
  intros d u d' Hi. unfold price_delete in Hi. repeat case_match; simplify_eq.
  split; [done|]. simpl. intros k x Hk. by exists x.
Qed.

Ltac solve_administrative :=
  repeat first [ apply _ | apply bind_administrative; intros | apply tfor_administrative; intros
               | apply tmap_err_administrative | case_match ].

(** ** Every catalog transaction *)

Inductive catalog_op : Type :=
| CatInsertClient (c : PaymentClient)
| CatSetClientEnabled (id : string) (enabled : bool) (at_ : Z)
| CatUpsertApprover (a : PaymentScenarioApprover)
| CatSetApproverEnabled (scenario_id principal : string) (enabled : bool) (at_ : Z)
| CatRegisterScenario (s : PaymentScenario)
| CatRegisterWithPolicy (s : PaymentScenario) (p : PaymentPolicy)
| CatSetScenarioEnabled (id : string) (enabled : bool) (at_ : Z)
| CatCreateLocal (w : Wallet) (k : EncryptedWalletKeyVersion) (c : WalletCreationConfig)
| CatCreateExternal (w : Wallet) (c : WalletCreationConfig)
| CatRotate (w : Wallet) (k : EncryptedWalletKeyVersion) (retired_at : Z)
| CatMarkCompromised (id : string) (version : N) (retired_at : Z)
| CatSetLimits (id : string) (u : BudgetUnit) (max_per_payment max_per_day : option Amount) (at_ : Z)
| CatSetWalletEnabled (id : string) (enabled : bool) (at_ : Z)
| CatInsertPolicy (p : PaymentPolicy)
| CatUpdatePolicy (p : PaymentPolicy) (expected : Z)
| CatInsertPrice (x : PaymentPrice)
| CatUpdatePrice (x : PaymentPrice) (expected : Z)
| CatDeletePrice (id : string) (expected : Z).

Section Catalog.
Context `{SolanaPubkey} `{UrlParser}.

Definition run_catalog (op : catalog_op) : Tx DB unit :=
  match op with
  | CatInsertClient c => insert_client c ;* tret tt
  | CatSetClientEnabled id e at_ => set_client_enabled id e at_ ;* tret tt
  | CatUpsertApprover a => upsert_approver a ;* tret tt
  | CatSetApproverEnabled s p e at_ => set_approver_enabled s p e at_ ;* tret tt
  | CatRegisterScenario s => register_scenario s ;* tret tt
  | CatRegisterWithPolicy s p => register_with_policy s p ;* tret tt
  | CatSetScenarioEnabled id e at_ => set_scenario_enabled id e at_ ;* tret tt
  | CatCreateLocal w k c => create_local_configured w k c ;* tret tt
  | CatCreateExternal w c => create_external_configured w c ;* tret tt
  | CatRotate w k at_ => rotate w k at_ ;* tret tt
  | CatMarkCompromised id v at_ => mark_key_compromised id v at_
  | CatSetLimits id u mp md at_ => set_spending_limits id u mp md at_
  | CatSetWalletEnabled id e at_ => set_wallet_enabled id e at_
  | CatInsertPolicy p => policy_insert p ;* tret tt
  | CatUpdatePolicy p expected => policy_update p expected ;* tret tt
  | CatInsertPrice x => price_insert x ;* tret tt
  | CatUpdatePrice x expected => price_update x expected ;* tret tt
  | CatDeletePrice id expected => price_delete id expected
  end.

Lemma run_catalog_ok op d d' :
  run_catalog op d = Ok (tt, d') -> intents_ok (t_intent d) -> catalog_ok d -> catalog_ok d'.
Proof.
  destruct op; simpl; intros Hr Hin Hco; run_inv;
    eauto using insert_client_ok, set_client_enabled_ok, upsert_approver_ok, set_approver_enabled_ok,
      register_scenario_ok, register_with_policy_ok, set_scenario_enabled_ok, create_local_configured_ok,
      create_external_configured_ok, rotate_catalog, mark_key_compromised_ok, set_spending_limits_ok,
      set_wallet_enabled_ok, policy_update_ok, price_insert_ok, price_update_ok, price_delete_ok.
  by edestruct policy_insert_ok.
Qed.

#[export] Instance mark_key_compromised_administrative id v at_ : Administrative (mark_key_compromised id v at_).
Proof.
  apply bind_administrative; [|intros; solve_administrative]. apply update_key_administrative.
  intros x Hx. split; [done|by right; right|]. simpl. intros Hn. by rewrite (bool_decide_false _ Hn).
Qed.

#[export] Instance run_catalog_administrative op : Administrative (run_catalog op).
Proof.
  destruct op; unfold run_catalog, insert_client, set_client_enabled, upsert_approver, set_approver_enabled,
    register_scenario, register_with_policy, set_scenario_enabled, create_local_configured, create_external_configured,
    rotate, set_spending_limits, set_wallet_enabled, policy_insert, policy_update, price_insert, price_update,
    insert_wallet, insert_key, insert_policy_aggregate, insert_policy, lock_wallets, validate_wallet_bindings,
    validate_wallet_binding, initialize_wallet_budget_unit, find_or_insert_scenario, insert_price, validate_price_authority,
    entity_insert_returning, entity_update_returning, entity_register, expect_row, load_or, require,
    lock_bound_policies, bound_policy_ids, load_policy; solve_administrative.
Qed.
End Catalog.
