(* ===== verification/CatalogRuns.v ===== *)
(** * Administered runs

    Catalog and payment transactions in any order, from an empty database:
    the relation [mstep] and the databases [managed] by it.  They are
    databases of [System], where administration was arbitrary, and the
    catalog invariant of [CatalogSafety] holds in all of them. *)

From S2P Require Import Prelude Text Money Json Wallet Intent Policy Ledger Records Store LedgerStore PaymentRules Budget PaymentStore Samples IntentFlow System CatalogTables WalletStore CatalogStore CatalogSafety.

#[local] Open Scope string_scope.
#[local] Open Scope vault_scope.

(** ** Lookups that match at most one row *)

Lemma filter_two {K A} (p : A -> bool) (l : list (K * A)) x y r :
  NoDup (l.*1) -> List.filter p (l.*2) = x :: y :: r ->
  exists j k, j <> k /\ (j, x) ∈ l /\ (k, y) ∈ l /\ p x = true /\ p y = true.
Proof.
  induction l as [|[i a] l IH]; simpl; [done|]. intros [Hi Hn]%list.NoDup_cons. destruct (p a) eqn:Ha.
  - intros [= -> Hf]. change (list_fmap _ _ snd l) with (l.*2) in Hf. assert (y ∈ List.filter p (l.*2)) as Hy by (rewrite Hf; left).
    apply list_elem_of_In, filter_In in Hy as [Hy Hp]. apply list_elem_of_In, list_elem_of_fmap in Hy as ([k b] & -> & Hk).
    exists i, k. split_and!; try done; [|by left|by right]. intros ->. apply Hi, list_elem_of_fmap. by exists (k, b).
  - intros Hf. destruct (IH Hn Hf) as (j & k & ? & ? & ? & ? & ?). exists j, k. split_and!; try done; by right.
Qed.

Lemma select_unique {K A} `{Countable K} (p : A -> bool) (m : gmap K A) :
  (forall j k x y, m !! j = Some x -> m !! k = Some y -> p x = true -> p y = true -> j = k) ->
  exists o, select p m = match o with Some x => [x] | None => [] end
    /\ forall x, o = Some x <-> (exists k, m !! k = Some x) /\ p x = true.
Proof.
  intros Hu. assert (forall x, x ∈ select p m <-> (exists k, m !! k = Some x) /\ p x = true) as Hin.
  { intros x. rewrite elem_of_select. tauto. }
  destruct (select p m) as [|x [|y r]] eqn:Hs.
  - exists None. split; [done|]. intros x. rewrite <- Hin. split; [done|]. intros Hx. by apply elem_of_nil in Hx.
  - exists (Some x). split; [done|]. intros y. rewrite <- Hin. split.
    + intros [= ->]. left.
    + intros [->|Hy]%elem_of_cons; [done|]. by apply elem_of_nil in Hy.
  - exfalso. destruct (filter_two p (map_to_list m) x y r (NoDup_fst_map_to_list m) Hs)
      as (j & k & Hne & Hj & Hk & Hpx & Hpy).
    apply elem_of_map_to_list in Hj, Hk. eauto.
Qed.

(** ** Runs *)

Section Runs.
Context `{SolanaPubkey} `{UrlParser}.

(** A committed catalog or payment transaction; one that fails changes
    nothing. *)
Inductive mstep : DB -> DB -> Prop :=
| mstep_catalog op d d' : run_catalog op d = Ok (tt, d') -> mstep d d'
| mstep_payment op d d' : run_op op d = Ok (tt, d') -> mstep d d'.

Definition managed (d : DB) : Prop := rtc mstep empty_db d.

Lemma catalog_ok_flow d d' : flow d d' -> catalog_ok d -> catalog_ok d'.
Proof.
  intros [(Hcl & Hsc & Hap & Hwa & Hke & Hpo & Hpr) _ Hau] [].
  split; unfold key_owned, policy_bound, policies_compatible, price_bound in *;
    rewrite ?Hcl, ?Hsc, ?Hap, ?Hwa, ?Hke, ?Hpo, ?Hpr; try done.
  intros k r' Hr'. rewrite (intent_foreign_keys_same d d') by done.
  destruct (Hau _ _ Hr') as [(r & Hr & Hid)|Hfk]; [|done].
  rewrite <- (intent_foreign_keys_identity _ _ _ Hid). eauto.
Qed.

Lemma mstep_step d d' : mstep d d' -> step d d'.
Proof.
  intros [op d1 d2 Hr|op d1 d2 Hr]; [|by eapply step_commit]. apply step_catalog.
  by apply (administrative _ _ _ Hr).
Qed.

Lemma mstep_ok d d' : mstep d d' -> db_ok d -> catalog_ok d -> db_ok d' /\ catalog_ok d'.
Proof.
  intros [op d1 d2 Hr|op d1 d2 Hr] Hdb Hco.
  - split; [|by eapply run_catalog_ok; [| apply Hdb|]]. eapply db_ok_catalog; [|done]. by apply (administrative _ _ _ Hr).
  - apply run_op_flow in Hr. split; [by eapply flow_db_ok|by eapply catalog_ok_flow].
Qed.

Lemma managed_ok d : managed d -> db_ok d /\ catalog_ok d.
Proof.
  intros Hm. assert (db_ok empty_db /\ catalog_ok empty_db) as [Hdb Hco].
  { split; [by apply db_ok_no_payments|apply catalog_ok_empty]. }
  unfold managed in Hm. induction Hm as [d|d d1 d2 Hst _ IH]; [done|]. destruct (mstep_ok _ _ Hst Hdb Hco). auto.
Qed.

Lemma keys_evolve_run d d' : rtc mstep d d' -> keys_evolve (t_key d) (t_key d').
Proof.
  induction 1 as [d|d d1 d2 Hst _ IH]; [intros k x Hk; by exists x|]. intros k x Hk.
  assert (exists x', t_key d1 !! k = Some x' /\ key_evolves x x') as (x' & Hx' & E1).
  { destruct Hst as [op a b Hr|op a b Hr].
    - destruct (administrative _ _ _ Hr) as [_ Hke]. by apply Hke.
    - destruct (fl_catalog _ _ (run_op_flow _ _ _ Hr)) as (_ & _ & _ & _ & -> & _). by exists x. }
  destruct (IH _ _ Hx') as (x2 & Hx2 & E2). exists x2. split; [done|]. by etrans.
Qed.

Lemma enabled_price_unique d j k x y :
  catalog_ok d -> t_price d !! j = Some x -> t_price d !! k = Some y ->
  pr_enabled x = true -> pr_enabled y = true -> pr_scenario_id x = pr_scenario_id y -> pr_resource x = pr_resource y ->
  j = k.
Proof.
  intros Hco Hx Hy Ex Ey Hs Hr. destruct (decide (j = k)) as [|Hne]; [done|]. exfalso.
  pose proof (tok_unique _ _ (co_prices _ Hco) _ _ _ _ Hx Hy Hne) as Hcol. simpl in Hcol. unfold price_collision in Hcol.
  by rewrite Ex, Ey, Hs, Hr, !bool_decide_true in Hcol.
Qed.

(** ** Properties *)

(** The catalog repositories refine the arbitrary administration of
    [System]: every database that catalog and payment transactions lead to is
    one its theorems speak about. *)
Lemma managed_reachable d : managed d -> reachable d.
Proof.
  intros Hm. exists empty_db. split; [by split_and!|]. unfold managed in Hm.
  eapply rtc_subrel; [|exact Hm]. intros a b. apply mstep_step.
Qed.

(** C23: in every database that administration and payments lead to, two
    key versions that are both active belong to different wallets, no two key
    versions were wrapped under one KEK with one nonce, every key belongs to a
    wallet of local custody, and an active key has that wallet's algorithm,
    address and public key, so the signer can only sign as the wallet that
    payments are authorized for. *)
Theorem managed_signing_keys d j k x y :
  managed d -> t_key d !! j = Some x -> t_key d !! k = Some y ->
  (k_wallet_id x = k_wallet_id y -> k_status x = KeyActive -> k_status y = KeyActive -> x = y)
  /\ (k_kek_id x = k_kek_id y -> k_wrap_nonce x = k_wrap_nonce y -> x = y)
  /\ exists w, t_wallet d !! k_wallet_id x = Some w /\ pw_custody w = Local
      /\ (k_status x = KeyActive ->
          k_algorithm x = w_algorithm (pw_wallet w) /\ k_address x = w_address (pw_wallet w)
          /\ k_public_key x = w_public_key (pw_wallet w)).
Proof.
  intros [_ Hco]%managed_ok Hx Hy. split_and!; [| |exact (co_key_owner _ Hco _ _ Hx)].
  - intros Hw Hax Hay. pose proof (active_key_unique _ _ _ Hco Hx Hax). pose proof (active_key_unique _ _ _ Hco Hy Hay).
    congruence.
  - intros Hkek Hn. destruct (decide (j = k)) as [<-|Hne]; [congruence|].
    pose proof (tok_unique _ _ (co_keys _ Hco) _ _ _ _ Hx Hy Hne) as Hcol. simpl in Hcol. unfold key_collision in Hcol.
    apply orb_false_iff in Hcol as [_ Hcol]. by rewrite !bool_decide_true in Hcol.
Qed.

(** The history of keys is append-only: whatever administration and
    payments follow, a key version is kept with its material, a version that
    left the active state never signs again and keeps its retirement time, and
    a compromised version stays compromised. *)
Lemma key_history_append_only d d' k x :
  rtc mstep d d' -> t_key d !! k = Some x ->
  exists x', t_key d' !! k = Some x' /\ x' = with_key_status (k_status x') (k_retired_at x') x
    /\ (k_status x <> KeyActive -> k_status x' <> KeyActive /\ k_retired_at x' = k_retired_at x)
    /\ (k_status x = KeyCompromised -> k_status x' = KeyCompromised).
Proof.
  intros Hrun Hk. destruct (keys_evolve_run _ _ Hrun _ _ Hk) as (x' & Hx' & [Hm Hs Hr]).
  exists x'. split_and!; try done. intros Hc. destruct Hs as [?|[?|?]]; congruence.
Qed.

(** Policies and wallets agree in every database that administration
    and payments lead to: a policy binds existing wallets whose budget is kept
    in the policy's unit; two enabled policies that bind one wallet are of
    different scenarios, and then the wallet has both hard limits. *)
Lemma managed_policies_agree d j k p q w :
  managed d -> t_policy d !! j = Some p -> t_policy d !! k = Some q ->
  w ∈ po_wallet_ids p -> w ∈ po_wallet_ids q ->
  exists row, t_wallet d !! w = Some row /\ pw_budget_unit row = Some (po_budget_unit p)
    /\ po_budget_unit p = po_budget_unit q
    /\ (po_enabled p = true -> po_enabled q = true -> p <> q ->
        po_scenario_id p <> po_scenario_id q
        /\ is_Some (pw_max_per_payment row) /\ is_Some (pw_max_per_day row)).
Proof.
  intros [_ Hco]%managed_ok Hp Hq Hip Hiq.
  destruct (co_policy_bound _ Hco _ _ Hp) as [_ Hbp]. destruct (Hbp _ Hip) as (row & Hrow & Hu).
  destruct (co_policy_bound _ Hco _ _ Hq) as [_ Hbq]. destruct (Hbq _ Hiq) as (row' & Hrow' & Hu').
  exists row. split_and!; try done; [congruence|]. intros Ep Eq Hne.
  assert (po_id p <> po_id q) as Hid.
  { intros Hid. pose proof (keyed_row policy_table _ _ _ (co_policies _ Hco) Hp) as Kp.
    pose proof (keyed_row policy_table _ _ _ (co_policies _ Hco) Hq) as Kq. simpl in *. congruence. }
  destruct (co_compatible _ Hco _ _ _ _ Hp Hq Ep Eq Hid _ Hip Hiq) as [Hsc Hl]. split; [done|]. by apply Hl.
Qed.

(** C22: administration never takes the ground from under a payment: in
    every database that administration and payments lead to, the scenario, the
    wallet and the policy of an intent exist, the policy is of that scenario
    and binds that wallet, and the price of an inbound intent is still of that
    scenario, policy and wallet. *)
Theorem managed_intent_authority d k r :
  managed d -> t_intent d !! k = Some r ->
  let i := ir_intent r in
  is_Some (t_scenario d !! pi_scenario_id i)
  /\ exists wallet_id policy_id policy,
       pi_wallet_id i = Some wallet_id /\ pi_policy_id i = Some policy_id
       /\ is_Some (t_wallet d !! wallet_id)
       /\ t_policy d !! policy_id = Some policy /\ po_scenario_id policy = pi_scenario_id i
       /\ wallet_id ∈ po_wallet_ids policy
       /\ (pi_direction i = Inbound -> exists price_id price, pi_price_id i = Some price_id
            /\ t_price d !! price_id = Some price /\ pr_scenario_id price = pi_scenario_id i
            /\ pr_policy_id price = policy_id /\ pr_wallet_id price = wallet_id).
Proof.
  intros [Hdb Hco]%managed_ok Hr i. pose proof (co_intents _ Hco _ _ Hr) as Hfk.
  pose proof (intents_checked _ (db_intents _ Hdb) _ _ Hr) as Hc. fold i in Hfk.
  unfold intent_checks in Hc. fold i in Hc. bool_inv. unfold intent_foreign_keys in Hfk.
  destruct (pi_wallet_id i) as [w|]; [|done]. destruct (pi_policy_id i) as [p|]; [|done]. simpl in *. bool_inv.
  destruct (t_policy d !! p) as [policy|] eqn:Hp; [|done]. simpl in *. bool_inv.
  split; [by apply is_some_iff|]. exists w, p, policy. split_and!; try done; [by apply is_some_iff|].
  intros Hin. rewrite Hin in *. destruct (pi_price_id i) as [x|]; [|done]. simpl in *.
  destruct (t_price d !! x) as [price|] eqn:Hx; [|done]. simpl in *. bool_inv. by exists x, price.
Qed.

(** A rotation installs exactly the new key: afterwards it is the active
    key of the wallet, the previous version is retired at the given time, the
    stored wallet carries the new key's public identity and the same custody,
    budget unit and limits, and no other wallet or key is touched. *)
Lemma rotate_installs_key w k at_ d x d' :
  managed d -> rotate w k at_ d = Ok (x, d') ->
  active_key d' (w_id x) = Some k
  /\ exists row row' old,
       active_key d (w_id x) = Some old /\ k_version k = (k_version old + 1)%N
       /\ t_key d' = <[(w_id x, k_version k) := k]>
                       (<[(w_id x, k_version old) := with_key_status KeyRetired (Some at_) old]> (t_key d))
       /\ t_wallet d !! w_id x = Some row /\ t_wallet d' = <[w_id x := row']> (t_wallet d)
       /\ w_address (pw_wallet row') = k_address k /\ w_public_key (pw_wallet row') = k_public_key k
       /\ pw_custody row' = pw_custody row /\ pw_budget_unit row' = pw_budget_unit row
       /\ pw_max_per_payment row' = pw_max_per_payment row /\ pw_max_per_day row' = pw_max_per_day row.
Proof.
  intros [_ Hco]%managed_ok Hr. pose proof (rotate_catalog _ _ _ _ _ _ Hr Hco) as Hco'.
  destruct (rotate_ok _ _ _ _ _ _ Hco Hr) as (row & old & [Hw Hk Hrow Ha Hl Hcr Hv Hact Hold Hoc Hrc Hru Hins]).
  unfold validate_key_for_wallet in Hk. run_inv. bool_inv. simpl in *. bool_inv.
  destruct (insert_key_ok _ _ _ _ Hins) as (row' & _ & _ & _ & Hnew & _ & _ & ->).
  assert (k_wallet_id k = w_id x) as Hid by done. split.
  - rewrite <- Hid. eapply active_key_unique; [exact Hco'|apply lookup_insert_eq|done].
  - exists row, (rotated_columns x (k_activated_at k) row), old. rewrite Hid. simpl. split_and!; try done; congruence.
Qed.

(** Resolving a price never meets two candidates: in every database
    that administration and payments lead to, both lookups of an inbound price
    succeed, and they return a price exactly when an enabled one of that
    scenario and resource exists (supporting the protocol, for the lookup that
    names one). *)
Lemma price_resolution_unambiguous d scenario resource protocol :
  managed d ->
  exists o o', resolve_price scenario resource protocol d = Ok (o, d)
    /\ resolve_resource scenario resource d = Ok (o', d)
    /\ forall x, (o' = Some x <-> (exists k, t_price d !! k = Some x) /\ pr_scenario_id x = scenario
                                 /\ pr_resource x = resource /\ pr_enabled x = true)
               /\ (o = Some x <-> o' = Some x /\ protocol ∈ pr_protocols x).
Proof.
  intros [_ Hco]%managed_ok.
  destruct (select_unique (fun x => (pr_scenario_id x == scenario) && (pr_resource x == resource) && pr_enabled x
                                    && bool_decide (protocol ∈ pr_protocols x)) (t_price d)) as (o & Ho & Ho').
  { intros j k x y Hx Hy Hpx Hpy. bool_inv. eapply (enabled_price_unique d); eauto; congruence. }
  destruct (select_unique (fun x => (pr_scenario_id x == scenario) && (pr_resource x == resource) && pr_enabled x)
              (t_price d)) as (o' & Hr & Hr').
  { intros j k x y Hx Hy Hpx Hpy. bool_inv. eapply (enabled_price_unique d); eauto; congruence. }
  exists o, o'. split_and!.
  - unfold resolve_price, tbind, treads. rewrite Ho. by destruct o.
  - unfold resolve_resource, entity_unique, tbind, treads. cbn [tb_rows price_table]. rewrite Hr. by destruct o'.
  - intros x. rewrite Ho', Hr', !andb_true_iff, !bool_decide_eq_true. tauto.
Qed.
End Runs.
