(* ===== verification/CatalogSamples.v ===== *)
(** * A vault built by its own catalog transactions

    The sample database of [Samples] is the result of five catalog
    transactions; a second scenario then shares its wallet and the wallet's
    key is rotated.  The hypotheses of [CatalogRuns] are evaluated on it. *)

From S2P Require Import Prelude Text Money Json Wallet Intent Policy Ledger Records Store LedgerStore PaymentRules Budget PaymentStore Samples IntentFlow System CatalogTables WalletStore CatalogStore CatalogSafety CatalogRuns.

#[local] Open Scope string_scope.
#[local] Open Scope vault_scope.

Module CatalogSample.
Import Sample.
#[local] Existing Instance parser.

Fixpoint administer (ops : list catalog_op) (d : DB) : option DB :=
  match ops with
  | [] => Some d
  | op :: rest => match run_catalog op d with Ok (_, d') => administer rest d' | Err _ => None end
  end.

Lemma administer_run ops d d' : administer ops d = Some d' -> rtc mstep d d'.
Proof.
  revert d. induction ops as [|op ops IH]; intros d Ha; simpl in Ha; [simplify_eq; constructor|].
  destruct (run_catalog op d) as [[[] d1]|] eqn:Hr; [|done]. eapply rtc_l; [by eapply mstep_catalog|eauto].
Qed.

Definition config : WalletCreationConfig :=
  {| wc_enabled := true; wc_budget_unit := Some (budget_unit sample_asset); wc_max_per_payment := None;
     wc_max_per_day := Some 600000%N |}.
Definition setup : list catalog_op :=
  [CatInsertClient client; CatRegisterScenario scenario; CatCreateLocal (pw_wallet sample_wallet) key config;
   CatInsertPolicy policy; CatInsertPrice price].

Lemma setup_builds_sample : administer setup empty_db = Some db.
Proof. vm_compute. reflexivity. Qed.
Lemma sample_managed : managed db.
Proof. exact (administer_run _ _ _ setup_builds_sample). Qed.

(** The challenge of [Samples] on it. *)
Lemma issued_managed : managed issued_db.
Proof.
  eapply rtc_r; [exact sample_managed|]. apply (mstep_payment (OpRecordChallenge issue)).
  vm_compute. reflexivity.
Qed.

(** A second scenario that shares the wallet. *)
Definition scenario2 : PaymentScenario :=
  {| sc_id := "scenario-2"; sc_client_id := "client-1"; sc_name := "store"; sc_enabled := true;
     sc_created_at := 1600000100; sc_updated_at := 1600000100 |}.
Definition policy2 : PaymentPolicy :=
  {| po_id := "policy-2"; po_scenario_id := "scenario-2"; po_wallet_ids := ["wallet-1"];
     po_protocols := ["x402"]; po_networks := ["eip155:8453"]; po_assets := [sample_asset];
     po_budget_unit := budget_unit sample_asset;
     po_allowed_recipients := ["0xabcdef0123456789abcdef0123456789abcdef01"];
     po_allowed_origins := ["https://api.example"];
     po_inbound_limits := None; po_outbound_limits := Some limits; po_enabled := true;
     po_created_at := 1600000100; po_updated_at := 1600000100 |}.
Definition share : list catalog_op :=
  [CatSetLimits "wallet-1" (budget_unit sample_asset) (Some 400000%N) (Some 600000%N) 1600000050;
   CatRegisterWithPolicy scenario2 policy2].
Definition shared_db : DB := unwrap_or empty_db (administer share db).
Lemma shared_managed : managed shared_db.
Proof.
  unfold managed. etrans; [exact sample_managed|]. apply (administer_run share). vm_compute. reflexivity.
Qed.
(** Without the hard limits the second policy is rejected. *)
Example unshared_policy_rejected :
  run_catalog (CatRegisterWithPolicy scenario2 policy2) db
  = Err (conflict "wallet shared across scenarios requires aggregate hard limits").
Proof. vm_compute. reflexivity. Qed.

(** The next key of the wallet. *)
Definition wallet2 : Wallet :=
  {| w_id := "wallet-1"; w_algorithm := "secp256k1"; w_address := "0x1111111111111111111111111111111111111111";
     w_public_key := "04cd"; w_created_at := 1600000000 |}.
Definition key2 : EncryptedWalletKeyVersion :=
  {| k_wallet_id := "wallet-1"; k_version := 2; k_algorithm := "secp256k1";
     k_address := "0x1111111111111111111111111111111111111111"; k_public_key := "04cd";
     k_encryption_scheme := "aes-256-gcm-uuid-v4-nonce-envelope-v1"; k_kek_id := "kek-1";
     k_wrapped_data_key := "w2"; k_wrap_nonce := "fedcba9876543210"; k_key_ciphertext := "c2";
     k_key_nonce := "fedcba9876543210"; k_aad := "a2"; k_status := KeyActive; k_activated_at := 1600000200;
     k_retired_at := None; k_created_at := 1600000200 |}.
Definition rotated : Result Error (Wallet * DB) := rotate wallet2 key2 1600000200 db.
Definition rotated_db : DB := match rotated with Ok (_, d) => d | Err _ => db end.
Lemma sample_rotated : rotate wallet2 key2 1600000200 db = Ok (wallet2, rotated_db).
Proof. vm_compute. reflexivity. Qed.
Lemma rotation_run : rtc mstep db rotated_db.
Proof. apply rtc_once, (mstep_catalog (CatRotate wallet2 key2 1600000200)). vm_compute. reflexivity. Qed.

(** A key that reuses the wrapping nonce of the old one is rejected. *)
Definition stale_nonce_key : EncryptedWalletKeyVersion :=
  {| k_wallet_id := "wallet-1"; k_version := 2; k_algorithm := "secp256k1";
     k_address := "0x1111111111111111111111111111111111111111"; k_public_key := "04cd";
     k_encryption_scheme := "aes-256-gcm-uuid-v4-nonce-envelope-v1"; k_kek_id := "kek-1";
     k_wrapped_data_key := "w2"; k_wrap_nonce := "0123456789abcdef"; k_key_ciphertext := "c2";
     k_key_nonce := "fedcba9876543210"; k_aad := "a2"; k_status := KeyActive; k_activated_at := 1600000200;
     k_retired_at := None; k_created_at := 1600000200 |}.
Example nonce_reuse_rejected :
  rotate wallet2 stale_nonce_key 1600000200 db = Err (conflict "encrypted wallet key insert rejected").
Proof. vm_compute. reflexivity. Qed.

(** ** Witnesses *)

Lemma managed_signing_keys_witness :
  exists w, t_wallet db !! "wallet-1" = Some w /\ pw_custody w = Local /\ k_address key = w_address (pw_wallet w).
Proof.
  destruct (managed_signing_keys db ("wallet-1", 1%N) ("wallet-1", 1%N) key key sample_managed eq_refl eq_refl)
    as (_ & _ & w & Hw & Hl & Ha). exists w. split; [exact Hw|]. split; [exact Hl|]. by apply Ha.
Defined.

(** The replaced version is kept with its material. *)
Example rotation_keeps_old_key :
  exists x', t_key rotated_db !! ("wallet-1", 1%N) = Some x' /\ x' = with_key_status (k_status x') (k_retired_at x') key.
Proof.
  destruct (key_history_append_only db rotated_db ("wallet-1", 1%N) key rotation_run eq_refl) as (x' & Hx & Hm & _).
  exists x'. split; [exact Hx|exact Hm].
Qed.

Lemma managed_intent_authority_witness :
  exists x, t_price issued_db !! "price-1" = Some x /\ pr_wallet_id x = "wallet-1".
Proof.
  assert (exists r, t_intent issued_db !! "intent-3" = Some r /\ ir_intent r = inbound) as (r & Hr & Hi)
    by (vm_compute; by eexists).
  destruct (managed_intent_authority issued_db "intent-3" r issued_managed Hr) as (_ & w & p & q & Hw & _ & _ & _ & _ & _ & Hp).
  rewrite Hi in *. simpl in *. destruct (Hp eq_refl) as (k & x & Hk & Hx & _ & _ & Hxw). exists x.
  injection Hk as <-. injection Hw as <-. split; [exact Hx|exact Hxw].
Defined.

Example rotation_installs_key : active_key rotated_db "wallet-1" = Some key2.
Proof. exact (proj1 (rotate_installs_key wallet2 key2 1600000200 db wallet2 rotated_db sample_managed sample_rotated)). Qed.

End CatalogSample.
