(* ===== verification/AuthorizerSafety.v ===== *)
(** * What authorization answers

    The guarantees of the authorization service of [Authorizer] while every
    other transaction of the vault runs in between its calls ([exec] under
    [rtc step]): what an answer says is what the database holds, a new payment
    is the work of one transaction of the request itself, one run pays once, the chosen candidate is the best one, and the write it builds meets
    the contract of the storage layer. *)

From S2P Require Import Prelude Text Money Json Wallet Intent Policy Ledger Records Store LedgerStore PaymentRules Budget PaymentStore Program Authorizer Samples IntentFlow BudgetSafety Lifecycle System.
From stdpp Require Import relations.

#[local] Open Scope string_scope.
#[local] Open Scope vault_scope.

(** The payment an answer is about. *)
Definition result_intent (res : PaymentAuthorizationResult) : string :=
  match res with ResDenied id _ | ResRequiresApproval id _ | ResAuthorized id _ => id end.

(** The intent carries out the command. *)
Definition pays (command : AuthorizePayment) (i : PaymentIntent) : Prop :=
  let c := cmd_challenge command in
  pi_direction i = Outbound /\ pi_protocol i = ch_protocol c /\ pi_asset i = ch_asset c
  /\ pi_recipient i = ch_recipient c /\ pi_amount i = ch_amount c /\ pi_resource i = ch_resource c
  /\ pi_challenge_hash i = Some (ch_challenge_hash c) /\ pi_expires_at i = Some (ch_expires_at c).

(** The intent is on record for the command. *)
Definition recorded_for (command : AuthorizePayment) (hash : string) (i : PaymentIntent) : Prop :=
  pi_scenario_id i = cmd_scenario_id command /\ pi_run_id i = cmd_run_id command /\ pi_request_hash i = hash.

Lemma authorization_result_intent r res :
  authorization_result r = Ok res -> result_intent res = pi_id (ar_intent r).
Proof. unfold authorization_result. destruct (pi_status (ar_intent r)); intros Hr; run_inv; done. Qed.

Lemma build_payment_intent_ok ids command pid wid hash decision now i action :
  build_payment_intent ids command pid wid hash decision now = Ok (i, action) ->
  PaymentIntent_validate i = Ok tt
  /\ pi_id i = id_intent ids /\ pi_policy_id i = Some pid /\ pi_wallet_id i = Some wid /\ pi_price_id i = None
  /\ pi_created_at i = now
  /\ recorded_for command hash i /\ pays command i
  /\ (pi_status i, pi_reservation_status i, pi_reserved_amount i, action)
     = authorization_state decision (ch_amount (cmd_challenge command)).
Proof.
  unfold build_payment_intent. destruct (authorization_state _ _) as [[[st rs] am] ac] eqn:Hs. intros Hb. run_inv.
  match goal with Hv : PaymentIntent_validate _ = Ok ?u |- _ => destruct u end. done.
Qed.

Section Calls.
Context `{SolanaPubkey, UrlParser, Sha256, JsonText}.

(** ** Every call is a step of the vault *)

Lemma read_steps {A} (m : Tx DB A) `{!ReadOnly m} : calls_in (rtc step) (await m).
Proof. apply calls_in_await. intros s a s' Hm. apply read_only in Hm as ->. apply rtc_refl. Qed.

Lemma authorize_step w d a d' : authorize w d = Ok (a, d') -> rtc step d d'.
Proof.
  intros Ha. apply rtc_once, (step_commit (OpAuthorize w)). simpl. by rewrite (tbind_run _ _ _ _ _ Ha).
Qed.

Lemma authorize_steps w : calls_in (rtc step) (await (authorize w)).
Proof. apply calls_in_await. intros s a s'. apply authorize_step. Qed.

Lemma lift_steps {A} (r : Result Error A) : calls_in (rtc step) (glift (S:=DB) r).
Proof. done. Qed.
Lemma ret_steps {A} (a : A) : calls_in (rtc step) (gret (S:=DB) a).
Proof. done. Qed.
End Calls.

Ltac solve_queries :=
  repeat first
    [ apply queries_bind; [|intros ?]
    | apply queries_fold; intros ? ?
    | apply queries_lift | apply queries_ret | (apply queries_await; apply _) | case_match ].

Ltac solve_steps :=
  repeat first
    [ apply calls_in_bind; [|intros ?]
    | apply calls_in_fold; intros ? ?
    | apply lift_steps | apply ret_steps | apply authorize_steps | (apply read_steps; apply _) | case_match ].

Section Steps.
Context `{SolanaPubkey, UrlParser, Sha256, JsonText}.

Lemma scenario_authorize_queries principal id : queries (scenario_authorize principal id).
Proof. unfold scenario_authorize, client_authenticate. solve_queries. Qed.
Lemma scenario_authorize_steps principal id : calls_in (rtc step) (scenario_authorize principal id).
Proof. apply (queries_in _), scenario_authorize_queries. Qed.

Lemma replay_result_queries command hash : queries (replay_result command hash).
Proof. unfold replay_result, find_run, load_intent_by_run. solve_queries. Qed.

Lemma policy_decision_queries strategy command hash now : queries (policy_decision strategy command hash now).
Proof. unfold policy_decision, list_for_scenario, list_policies, consider_policy, consider_wallet. solve_queries. Qed.
End Steps.

(** ** Answers *)

Section Answers.
Context `{SolanaPubkey, UrlParser, Sha256, JsonText}.

(** An answer from the record: the intent was there before. *)
Definition answered_from_record (command : AuthorizePayment) (hash : string) (d d' : DB)
    (res : PaymentAuthorizationResult) : Prop :=
  exists d1 d2 i, rtc step d d1 /\ rtc step d1 d2 /\ rtc step d2 d'
    /\ load_intent_by_run (cmd_scenario_id command) (cmd_run_id command) d1 = Ok (Some i, d1)
    /\ pi_request_hash i = hash
    /\ authorization_result {| ar_intent := i; ar_approval := latest_approval d2 (pi_id i) |} = Ok res.

(** An answer about the payment that this request has committed, in the only
    transaction of its own that changed anything. *)
Definition answered_by_commit (svc : PaymentAuthorizer) (ids : FreshIds) (command : AuthorizePayment) (now : Z)
    (hash : string) (d : DB) (calls : list (DB * DB)) (d' : DB) (res : PaymentAuthorizationResult) : Prop :=
  exists d1 access selected i action,
    rtc step d d1 /\ wrote_only d1 d' calls
    /\ build_payment_intent ids command (po_id (cd_policy selected)) (cd_wallet_id selected) hash
         (cd_decision selected) now = Ok (i, action)
    /\ let w := authorization_write svc ids access command selected hash i action now in
       authorize w d1 = Ok (Inserted {| ar_intent := i; ar_approval := aw_approval w |}, d')
       /\ authorization_result {| ar_intent := i; ar_approval := aw_approval w |} = Ok res.

Lemma load_run_intent scenario run d r s :
  load_run scenario run d = Ok (Some r, s) -> load_intent_by_run scenario run d = Ok (Some (ar_intent r), d).
Proof.
  unfold load_run, load_intent_by_run. intros Hl. run_inv.
  destruct (ir_intent <$> _) as [i|] eqn:E; run_inv; simplify_eq. unfold treads. by rewrite E.
Qed.
Lemma load_run_approval scenario run d r s :
  load_run scenario run d = Ok (Some r, s) -> ar_approval r = latest_approval d (pi_id (ar_intent r)).
Proof. unfold load_run, load_intent_by_run. intros Hl. run_inv. destruct (ir_intent <$> _) as [i|]; by run_inv; simplify_eq. Qed.

Lemma exec_steps {A} (p : Prog DB A) d r d' : calls_in (rtc step) p -> exec (rtc step) p d r d' -> rtc step d d'.
Proof. intros Hc Hx. eapply (exec_rel (rtc step) (rtc step)); [|exact Hc|exact Hx]. done. Qed.

Lemma replay_result_some command hash d res d' :
  exec (rtc step) (replay_result command hash) d (Ok (Some res)) d' -> answered_from_record command hash d d' res.
Proof.
  unfold replay_result, find_run. intros Hx. prog_inv.
  match goal with Hm : load_intent_by_run _ _ ?s = Ok (?o, ?s') |- _ =>
    pose proof (read_only _ _ _ Hm) as ->; destruct o as [i|] end; prog_inv; simplify_eq. bool_inv. exists x3, x4, i. by split_and!.
Qed.

Lemma answered_from_record_mono command hash d0 d d' res :
  rtc step d0 d -> answered_from_record command hash d d' res -> answered_from_record command hash d0 d' res.
Proof. intros Hd (d1 & d2 & i & Hd1 & Hrest). exists d1, d2, i. split; [by etrans|done]. Qed.

Lemma authorize_inserted_differs w d r d' : authorize w d = Ok (Inserted r, d') -> d' <> d.
Proof.
  intros (Hn & Hi & _)%authorize_inserted_row ->. rewrite Hi, lookup_insert_eq in Hn. done.
Qed.

Lemma authorize_payment_cases svc ids principal command now d calls res d' :
  exec_calls (rtc step) (authorize_payment svc ids principal command now) d calls (Ok res) d' ->
  exists hash, request_hash command = Ok hash
    /\ ((wrote_nothing calls /\ answered_from_record command hash d d' res)
        \/ answered_by_commit svc ids command now hash d calls d' res).
Proof.
  unfold authorize_payment. intros Hx. prog_inv.
  match goal with Hh : request_hash command = Ok ?h |- _ => exists h; split; [done|] end.
  match goal with Ha : exec_calls _ (scenario_authorize _ _) _ _ _ _ |- _ =>
    pose proof (queries_wrote_nothing _ _ _ _ _ _ (scenario_authorize_queries _ _) Ha) as Wacc;
    pose proof (exec_steps _ _ _ _ (scenario_authorize_steps _ _) (exec_of_calls _ _ _ _ _ _ Ha)) as Hacc end.
  match goal with Ha : exec_calls _ (replay_result _ _) _ _ (Ok ?o) _ |- _ =>
    pose proof (queries_wrote_nothing _ _ _ _ _ _ (replay_result_queries _ _) Ha) as Wrep;
    apply exec_of_calls in Ha as Hrep; clear Ha;
    pose proof (exec_steps _ _ _ _ (queries_in _ _ (replay_result_queries _ _)) Hrep) as Hs1;
    destruct o as [res'|] end; prog_inv.
  { left. split; [solve_wrote|]. by eapply answered_from_record_mono, replay_result_some. }
  match goal with Ha : exec_calls _ (policy_decision _ _ _ _) _ _ _ _ |- _ =>
    pose proof (queries_wrote_nothing _ _ _ _ _ _ (policy_decision_queries _ _ _ _) Ha) as Wdec;
    apply exec_of_calls, exec_steps in Ha as Hs2; [clear Ha|apply (queries_in _), policy_decision_queries] end.
  clear Hrep.
  match goal with Hw : authorize _ ?s = Ok (?o, _) |- _ => rename s into dc, Hw into Hcom; destruct o as [r|r] end.
  all: match goal with Hb : build_payment_intent _ _ _ _ _ _ _ = Ok ?b |- _ => destruct b as [i action]; rename Hb into Hbuild end.
  all: simpl in *; bool_inv.
  all: assert (rtc step d dc) as Hdc
      by (etrans; [exact Hacc|]; etrans; [exact Hs1|]; by etrans; [exact Hs2|]).
  - right. pose proof (authorize_inserted _ _ _ _ Hcom) as (-> & _).
    pose proof (authorize_inserted_differs _ _ _ _ Hcom) as Hne.
    match type of Hcom with authorize (authorization_write _ _ ?x _ ?y _ _ _ _) _ = _ => exists dc, x, y, i, action end.
    split_and!; [exact Hdc|solve_wrote|exact Hbuild|]. split; [exact Hcom|exact Hx].
  - pose proof (build_payment_intent_ok _ _ _ _ _ _ _ _ _ Hbuild) as (_ & _ & _ & _ & _ & _ & (Hsc & Hrun & Hhash) & _).
    apply authorize_replayed in Hcom as (-> & Hl & Hh). left. split; [solve_wrote|]. simpl in *.
    pose proof (load_run_approval _ _ _ _ _ Hl) as Ha. apply load_run_intent in Hl. rewrite Hsc, Hrun in Hl.
    destruct r as [j a]. simpl in *. subst a. exists dc, dc, j. split_and!; [done..|congruence|done].
Qed.

(** What a fresh answer promises about the database it leaves. *)
Definition outcome_holds (svc : PaymentAuthorizer) (command : AuthorizePayment) (now : Z) (d d' : DB)
    (i : PaymentIntent) (res : PaymentAuthorizationResult) : Prop :=
  let c := cmd_challenge command in
  match res with
  | ResAuthorized _ amount =>
      amount = ch_amount c /\ pi_status i = Authorized /\ pi_reservation_status i = Reserved
      /\ within_limits d' i (utc_day_start now) now false /\ counted d d' i (utc_day_start now) now
  | ResRequiresApproval _ approval_id =>
      pi_status i = PendingApproval
      /\ (exists a, t_approval d' !! approval_id = Some a /\ ap_intent_id a = pi_id i /\ ap_status a = ApPending
            /\ ap_requested_amount a = ch_amount c /\ (ap_expires_at a <= ch_expires_at c)%Z
            /\ (ap_expires_at a <= i64_saturating_add now (pa_approval_ttl_seconds svc))%Z)
      /\ usage_unchanged d d'
  | ResDenied _ _ => pi_status i = Failed /\ usage_unchanged d d'
  end.

Lemma answered_by_commit_outcome svc ids command now hash d calls d' res :
  reachable d -> answered_by_commit svc ids command now hash d calls d' res ->
  exists d1 r, rtc step d d1 /\ wrote_only d1 d' calls /\ rtc step d1 d' /\ t_intent d1 !! id_intent ids = None
    /\ t_intent d' !! id_intent ids = Some r /\ result_intent res = id_intent ids
    /\ recorded_for command hash (ir_intent r) /\ pays command (ir_intent r)
    /\ outcome_holds svc command now d1 d' (ir_intent r) res.
Proof.
  intros Hreach (d1 & access & sel & i & action & Hd1 & Hw & Hb & Ha & Hres). simpl in *.
  apply build_payment_intent_ok in Hb as (_ & Hid & _ & _ & _ & _ & Hrec & Hpays & Hst).
  pose proof (authorize_inserted_row _ _ _ _ Ha) as (Hf & Hi & _ & Hap & _). simpl in *. rewrite Hid in *.
  assert (db_ok d1) as Hdb by (eapply reachable_safe; destruct Hreach as (d0 & ? & ?); exists d0; split; [done|by etrans]).
  exists d1, (fresh_row i). rewrite Hi, lookup_insert_eq.
  assert (rtc step d1 d') as Hstep.
  { by eapply authorize_step. }
  split_and!; try done; [by rewrite (authorization_result_intent _ _ Hres)|].
  unfold outcome_holds. simpl in *.
  destruct (cd_decision sel) as [| |reason] eqn:Hdec; simpl in *; injection Hst as Hs Hr Hm Hact; subst action;
    unfold authorization_result in Hres; simpl in Hres; rewrite Hs in Hres; run_inv; simplify_eq.
  - destruct (authorize_reserve_fits _ _ _ _ Hdb Ha eq_refl) as [Hwl Hc]. simpl in *. done.
  - split_and!; [done| |by eapply authorize_without_reservation; [exact Ha|]].
    exists (build_approval_request ids access command i hash (pa_approval_ttl_seconds svc) now).
    rewrite Hap, lookup_insert_eq. simpl. destruct Hpays as (_ & _ & _ & _ & Ham & _).
    split_and!; try done; lia.
  - split; [done|]. by eapply authorize_without_reservation; [exact Ha|].
Qed.
Lemma reachable_steps d d' : reachable d -> rtc step d d' -> reachable d'.
Proof. intros (d0 & Hempty & Hrun) Hstep. exists d0. split; [done|by etrans]. Qed.

(** A recorded run is still there later, with its request. *)
Lemma recorded_later d d' command i :
  reachable d -> rtc step d d' ->
  load_intent_by_run (cmd_scenario_id command) (cmd_run_id command) d = Ok (Some i, d) ->
  exists r r', t_intent d !! pi_id i = Some r /\ ir_intent r = i
    /\ t_intent d' !! pi_id i = Some r' /\ row_evolves r r' /\ recorded_for command (pi_request_hash i) (ir_intent r').
Proof.
  intros Hreach Hstep Hl. unfold load_intent_by_run in Hl. run_inv.
  destruct (fetch_optional _ _) as [r|] eqn:Hf; simplify_eq/=.
  apply fetch_optional_Some in Hf as [Hp [k Hk]]. unfold in_run in Hp. bool_inv.
  apply reachable_safe in Hreach. destruct (run_safe _ _ Hstep Hreach) as [_ Hkept].
  pose proof (intents_keyed _ (db_intents _ (proj1 Hreach)) _ _ Hk) as Hkey.
  subst k. destruct (hk_intents _ _ Hkept _ _ Hk) as (r' & Hr' & E).
  exists r, r'. split_and!; try done. apply re_identity, same_immutable_identity_iff in E. unfold recorded_for.
  intuition congruence.
Qed.

Lemma authorize_payment_recorded svc ids principal command now d res d' :
  reachable d -> exec (rtc step) (authorize_payment svc ids principal command now) d (Ok res) d' ->
  rtc step d d'
  /\ exists hash r, request_hash command = Ok hash
    /\ t_intent d' !! result_intent res = Some r /\ recorded_for command hash (ir_intent r).
Proof.
  intros Hreach (calls & (hash & Hh & [[_ Hrec]|Hcom])%authorize_payment_cases)%exec_calls_iff.
  - destruct Hrec as (d1 & d2 & i & Hs1 & Ha & Hb & Hl & <- & Hres). pose proof (transitivity Ha Hb) as Hs2.
    split; [by etrans|]. exists (pi_request_hash i).
    destruct (recorded_later _ _ _ _ (reachable_steps _ _ Hreach Hs1) Hs2 Hl) as (_ & r' & _ & _ & Hr' & _ & Hrec).
    exists r'. by rewrite (authorization_result_intent _ _ Hres).
  - destruct (answered_by_commit_outcome _ _ _ _ _ _ _ _ _ Hreach Hcom)
      as (d1 & r & Hs1 & _ & Hs2 & _ & Hr & Hid & Hrec & _). split; [by etrans|].
    exists hash, r. by rewrite Hid.
Qed.

(** C2: an answer says what the database holds, whatever other transactions
    run between the calls of the service: the answer names a stored payment of
    the requested scenario and run with the hash of this very request.  Either
    the service's own transactions changed nothing and the answer restates that
    payment, with its latest approval, as they stood during the operation; or exactly one of them
    changed the database, the last one, and it stored the payment, new, for the
    challenge's amount, asset, recipient and resource, and then "authorized"
    means the whole amount is reserved within the daily and wallet limits and
    counted, "requires approval" that a pending approval for the amount exists
    that expires with the challenge and within the approval lifetime, and
    neither it nor "denied" touches any budget. *)
Theorem authorize_payment_outcome svc ids principal command now d calls res d' :
  reachable d -> exec_calls (rtc step) (authorize_payment svc ids principal command now) d calls (Ok res) d' ->
  exists hash r', request_hash command = Ok hash
    /\ t_intent d' !! result_intent res = Some r' /\ recorded_for command hash (ir_intent r')
    /\ ((wrote_nothing calls
         /\ exists d1 d2 r, rtc step d d1 /\ rtc step d1 d2 /\ rtc step d2 d' /\ t_intent d1 !! result_intent res = Some r
              /\ authorization_result {| ar_intent := ir_intent r;
                                         ar_approval := latest_approval d2 (result_intent res) |} = Ok res)
        \/ (exists d1, rtc step d d1 /\ wrote_only d1 d' calls
              /\ result_intent res = id_intent ids /\ t_intent d1 !! id_intent ids = None
              /\ pays command (ir_intent r') /\ outcome_holds svc command now d1 d' (ir_intent r') res)).
Proof.
  intros Hreach (hash & Hh & Hans)%authorize_payment_cases. exists hash.
  destruct Hans as [(Hw & d1 & d2 & i & Hs1 & Hs2 & Hs3 & Hl & <- & Hres)|Hcom].
  - destruct (recorded_later _ _ _ _ (reachable_steps _ _ Hreach Hs1) (transitivity Hs2 Hs3) Hl)
      as (r & r' & Hr & Hi & Hr' & _ & Hrec). subst i.
    pose proof (authorization_result_intent _ _ Hres) as Hri. simpl in Hri.
    exists r'. rewrite Hri. split_and!; try done. left. split; [done|]. by exists d1, d2, r.
  - destruct (answered_by_commit_outcome _ _ _ _ _ _ _ _ _ Hreach Hcom)
      as (d1 & r & Hs1 & Hw & Hs2 & Hf & Hr & Hid & Hrec & Hpays & Hout). exists r. rewrite Hid.
    split_and!; try done. right. by exists d1.
Qed.

(** ** One run, one payment *)

(** The text that [request_hash] digests. *)
Definition request_text (e : string) : string := "agentvault.authorize-payment.v2" ++ frame [e].

(** A request is a function of its JSON form. *)
Lemma command_json_inj c1 c2 :
  challenge_ok (cmd_challenge c1) -> challenge_ok (cmd_challenge c2) -> command_json c1 = command_json c2 -> c1 = c2.
Proof.
  intros Hok1 Hok2 Heq.
  assert (forall c, jget "scenario_id" (command_json c) = Some (JString (cmd_scenario_id c))
                    /\ jget "run_id" (command_json c) = Some (JString (cmd_run_id c))
                    /\ jget "challenge" (command_json c) = Some (challenge_to_json (cmd_challenge c))) as Hget by done.
  destruct (Hget c1) as (Hs1 & Hr1 & Hc1), (Hget c2) as (Hs2 & Hr2 & Hc2). rewrite Heq in Hs1, Hr1, Hc1.
  assert (challenge_to_json (cmd_challenge c1) = challenge_to_json (cmd_challenge c2)) as Hch by congruence.
  apply (f_equal challenge_from_json) in Hch. rewrite !challenge_from_to_json in Hch by done.
  destruct c1, c2. simpl in *. congruence.
Qed.

(** The request hash binds the whole request: two commands with the same
    hash have the same serialized scenario, run and challenge, or the two
    digested texts are themselves a SHA-256 collision. *)
Lemma request_hash_binds c1 c2 h :
  request_hash c1 = Ok h -> request_hash c2 = Ok h ->
  exists e1 e2, json_to_vec (command_json c1) = Ok e1 /\ json_to_vec (command_json c2) = Ok e2
    /\ (e1 = e2 \/ collide (request_text e1) (request_text e2)).
Proof.
  unfold request_hash. intros (e1 & He1%map_err_ok & [= Hh1])%rbind_ok (e2 & He2%map_err_ok & [= Hh2])%rbind_ok.
  exists e1, e2. split_and!; [done..|]. rewrite <- Hh2 in Hh1. apply hex_encode_inj in Hh1.
  assert (forall e, frame [e] = len_be_bytes e ++ e) as Hfr by (intros e; cbn [frame]; by rewrite str_app_nil).
  rewrite <- !Hfr in Hh1. destruct (decide (e1 = e2)) as [|Hne]; [by left|right]. split; [|done].
  unfold request_text. rewrite !Hfr. intros [_ E]%string_app_inj; [|done].
  by apply string_app_inj in E as [_ E].
Qed.

(** [serde_json] prints different values differently. *)
Class JsonTextInjective : Prop :=
  json_text_inj : forall j1 j2 t, json_to_vec j1 = Ok t -> json_to_vec j2 = Ok t -> j1 = j2.

(** C33: one run pays once: whoever asks, with whatever service configuration,
    at whatever time and however the calls interleave, two successful
    authorizations of the same scenario and run, seen from a common later
    database, are answered with the same payment and were the same request,
    challenge included, unless the texts of the two requests are a SHA-256
    collision. *)
Theorem run_pays_once `{!JsonTextInjective} svc1 ids1 p1 c1 now1 d1 res1 d1' svc2 ids2 p2 c2 now2 d2 res2 d2' d :
  reachable d1 -> reachable d2 ->
  exec (rtc step) (authorize_payment svc1 ids1 p1 c1 now1) d1 (Ok res1) d1' ->
  exec (rtc step) (authorize_payment svc2 ids2 p2 c2 now2) d2 (Ok res2) d2' ->
  rtc step d1' d -> rtc step d2' d ->
  challenge_ok (cmd_challenge c1) -> challenge_ok (cmd_challenge c2) ->
  cmd_scenario_id c1 = cmd_scenario_id c2 -> cmd_run_id c1 = cmd_run_id c2 ->
  result_intent res1 = result_intent res2
  /\ (c1 = c2 \/ exists e1 e2, json_to_vec (command_json c1) = Ok e1 /\ json_to_vec (command_json c2) = Ok e2
                    /\ collide (request_text e1) (request_text e2)).
Proof.
  intros Hr1 Hr2 Hx1 Hx2 Hd1 Hd2 Hok1 Hok2 Hsc Hrun.
  apply authorize_payment_recorded in Hx1 as (Hs1 & h1 & r1 & Hh1 & Hi1 & Hrec1); [|done].
  apply authorize_payment_recorded in Hx2 as (Hs2 & h2 & r2 & Hh2 & Hi2 & Hrec2); [|done].
  pose proof (reachable_safe _ (reachable_steps _ _ Hr1 Hs1)) as Hsafe1.
  pose proof (reachable_safe _ (reachable_steps _ _ Hr2 Hs2)) as Hsafe2.
  destruct (run_safe _ _ Hd1 Hsafe1) as [[Hdb _] Hk1]. destruct (run_safe _ _ Hd2 Hsafe2) as [_ Hk2].
  destruct (hk_intents _ _ Hk1 _ _ Hi1) as (x1 & Hx1 & E1), (hk_intents _ _ Hk2 _ _ Hi2) as (x2 & Hx2 & E2).
  apply re_identity, same_immutable_identity_iff in E1 as (_ & ? & ? & _ & _ & _ & _ & _ & _ & _ & _ & _ & _ & ? & _).
  apply re_identity, same_immutable_identity_iff in E2 as (_ & ? & ? & _ & _ & _ & _ & _ & _ & _ & _ & _ & _ & ? & _).
  unfold recorded_for in *. destruct (decide (result_intent res1 = result_intent res2)) as [Heq|Hne].
  - split; [done|]. assert (x1 = x2) as -> by congruence. assert (h2 = h1) as -> by intuition congruence.
    destruct (request_hash_binds _ _ _ Hh1 Hh2) as (e1 & e2 & He1 & He2 & [->|Hcol]); [left|by eauto 6].
    apply command_json_inj; try done. by eapply json_text_inj.
  - exfalso. pose proof (intents_unique _ (db_intents _ Hdb) _ _ _ _ Hx1 Hx2 Hne) as Hcol.
    unfold intent_collision in Hcol. apply orb_false_iff in Hcol as [[Hcol _]%orb_false_iff _].
    apply andb_false_iff in Hcol as [?|?]; bool_inv; intuition congruence.
Qed.
End Answers.

(** ** Selection *)

(** A comparison that is a total preorder and agrees with its equivalence. *)
Record Lawful {A} (c : A -> A -> comparison) : Prop := {
  lw_antisym : forall x y, c y x = CompOpp (c x y);
  lw_trans : forall r x y z, c x y = r -> c y z = r -> c x z = r;
  lw_eq : forall x y z, c x y = Eq -> c x z = c y z
}.

Lemma lawful_key {A K} (f : A -> K) (c : K -> K -> comparison) :
  Lawful c -> Lawful (fun x y => c (f x) (f y)).
Proof. intros [Ha Ht He]. split; eauto. Qed.

Lemma lawful_N : Lawful N.compare.
Proof.
  split.
  - intros x y. apply N.compare_antisym.
  - intros [] x y z; rewrite ?N.compare_eq_iff, ?N.compare_lt_iff, ?N.compare_gt_iff; lia.
  - intros x y z. rewrite N.compare_eq_iff. by intros ->.
Qed.

Lemma lawful_str : Lawful str_compare.
Proof.
  split.
  - intros x y. apply str_compare_antisym.
  - intros [] x y z; [by intros ->%str_compare_eq|apply str_compare_trans|].
    rewrite (str_compare_antisym x y), (str_compare_antisym y z), (str_compare_antisym x z).
    destruct (str_compare y x) eqn:H1; try done. destruct (str_compare z y) eqn:H2; try done. intros _ _.
    by rewrite (str_compare_trans _ _ _ H2 H1).
  - intros x y z ->%str_compare_eq. done.
Qed.

Lemma lawful_then {A} (c1 c2 : A -> A -> comparison) :
  Lawful c1 -> Lawful c2 -> Lawful (fun x y => then_with (c1 x y) (c2 x y)).
Proof.
  intros [A1 T1 E1] [A2 T2 E2]. unfold then_with. split.
  - intros x y. rewrite A1, A2. by destruct (c1 x y).
  - intros r x y z Hxy Hyz. destruct (c1 x y) eqn:H1.
    + rewrite (E1 _ _ z H1). destruct (c1 y z); [by eapply T2|done..].
    + destruct (c1 y z) eqn:H2; [|by rewrite (T1 _ _ _ _ H1 H2)|congruence].
      assert (c1 z y = Eq) as H3 by (by rewrite A1, H2).
      by rewrite A1, (E1 _ _ x H3), <- A1, H1.
    + destruct (c1 y z) eqn:H2; [|congruence|by rewrite (T1 _ _ _ _ H1 H2)].
      assert (c1 z y = Eq) as H3 by (by rewrite A1, H2).
      by rewrite A1, (E1 _ _ x H3), <- A1, H1.
  - intros x y z. destruct (c1 x y) eqn:H1; [|done..]. intros H2. by rewrite (E1 _ _ z H1), (E2 _ _ z H2).
Qed.

Lemma compare_candidates_lawful strategy : Lawful (compare_candidates strategy).
Proof.
  assert (forall {K} (f : PolicyWalletCandidate -> K) c, Lawful c -> Lawful (fun x y => c (f x) (f y))) as Hkey
    by (intros; by apply lawful_key).
  unfold compare_candidates. destruct strategy; repeat apply lawful_then;
    (apply (Hkey _ _ _ lawful_str) || apply (Hkey _ _ _ lawful_N)).
Qed.

(** The identity of a candidate. *)
Definition candidate_id (c : PolicyWalletCandidate) : string * string := (po_id (cd_policy c), cd_wallet_id c).

Lemma compare_candidates_eq strategy l r : compare_candidates strategy l r = Eq -> candidate_id l = candidate_id r.
Proof.
  unfold compare_candidates, then_with, candidate_id.
  repeat case_match; try done; intros; f_equal; by apply str_compare_eq.
Qed.

Section Minimum.
Context {A : Type} (c : A -> A -> comparison) (Hc : Lawful c).
Let leb x y := match c x y with Gt => false | _ => true end.

Lemma leb_total x y : leb x y = false -> leb y x = true.
Proof using Hc. unfold leb. rewrite (lw_antisym _ Hc x y). by destruct (c x y). Qed.

Lemma leb_trans x y z : leb x y = true -> leb y z = true -> leb x z = true.
Proof using Hc.
  unfold leb. destruct (c x y) eqn:H1; try done.
  - by rewrite (lw_eq _ Hc _ _ z H1).
  - destruct (c y z) eqn:H2; try done; intros _ _; [|by rewrite (lw_trans _ Hc _ _ _ _ H1 H2)].
    assert (c z y = Eq) as H3 by (by rewrite (lw_antisym _ Hc), H2).
    by rewrite (lw_antisym _ Hc z x), (lw_eq _ Hc _ _ x H3), <- (lw_antisym _ Hc y x), H1.
Qed.

Lemma order_by_head x l : head (order_by leb l) = Some x -> x ∈ l /\ forall y, y ∈ l -> leb x y = true.
Proof using Hc.
  assert (forall y, leb y y = true) as Hrefl by (intros y; destruct (leb y y) eqn:E; [done|by rewrite (leb_total _ _ E) in E]).
  revert x. induction l as [|a l IH]; intros x; simpl; [done|].
  destruct (order_by leb l) as [|b rest] eqn:Hl; simpl.
  - intros [= ->]. assert (l = []) as -> by (apply Permutation_nil; by rewrite <- Hl, order_by_perm).
    split; [by left|]. intros y Hy. apply list_elem_of_singleton in Hy as ->. apply Hrefl.
  - destruct (IH b eq_refl) as [Hb Hmin]. destruct (leb a b) eqn:Hab; simpl; intros [= <-].
    + split; [by left|]. intros y [->|Hy]%elem_of_cons; [apply Hrefl|]. by eapply leb_trans, Hmin.
    + split; [by right|]. intros y [->|Hy]%elem_of_cons; [by apply leb_total|]. by apply Hmin.
Qed.
End Minimum.

Lemma select_candidate_min strategy l x :
  select_candidate strategy l = Some x ->
  x ∈ l /\ forall y, y ∈ l -> compare_candidates strategy x y <> Gt.
Proof.
  intros Hs. apply order_by_head in Hs as [Hin Hmin]; [|apply compare_candidates_lawful].
  split; [done|]. intros y Hy Hgt. specialize (Hmin y Hy). by rewrite Hgt in Hmin.
Qed.

Lemma select_candidate_some strategy l : l <> [] -> exists x, select_candidate strategy l = Some x.
Proof.
  intros Hne. unfold select_candidate. destruct (order_by _ l) as [|x rest] eqn:Ho; [|by exists x].
  destruct Hne. apply Permutation_nil. by rewrite <- Ho, order_by_perm.
Qed.

(** The selection is deterministic: it depends only on the set of
    candidates, not on the order in which policies and wallets were examined. *)
Lemma select_candidate_order_independent strategy l1 l2 :
  l1 ≡ₚ l2 -> NoDup (map candidate_id l1) -> select_candidate strategy l1 = select_candidate strategy l2.
Proof.
  intros Hp Hnd. destruct (decide (l1 = [])) as [->|Hne].
  { apply Permutation_nil in Hp as ->. done. }
  destruct (select_candidate_some strategy l1 Hne) as [x Hx].
  destruct (select_candidate_some strategy l2) as [y Hy]; [by intros ->; apply Permutation_sym, Permutation_nil in Hp|].
  rewrite Hx, Hy. apply select_candidate_min in Hx as [Hx Hxm], Hy as [Hy Hym].
  rewrite <- Hp in Hy. assert (compare_candidates strategy x y = Eq) as Heq.
  { specialize (Hxm y Hy). specialize (Hym x ltac:(by rewrite <- Hp)).
    rewrite (lw_antisym _ (compare_candidates_lawful strategy) x y) in Hym. by destruct (compare_candidates strategy x y). }
  apply compare_candidates_eq in Heq. f_equal.
  apply list_elem_of_lookup in Hx as [i Hi], Hy as [j Hj].
  assert (i = j) as ->; [|congruence].
  eapply (NoDup_lookup _ _ _ (candidate_id x) Hnd); rewrite list_lookup_fmap.
  - by rewrite Hi.
  - by rewrite Hj, Heq.
Qed.

Section Decision.
Context `{SolanaPubkey, UrlParser, Sha256}.

(** A policy of the scenario that covers the challenge, and one of its wallets. *)
Definition eligible (d : DB) (command : AuthorizePayment) (origin : string) (p : PaymentPolicy) (w : string) : Prop :=
  (exists k, t_policy d !! k = Some p) /\ po_scenario_id p = cmd_scenario_id command
  /\ policy_covers p (cmd_challenge command) origin = true /\ w ∈ po_wallet_ids p.

(** The decision on a candidate, read off one database. *)
Definition decides (d : DB) (command : AuthorizePayment) (origin : string) (now : Z) (p : PaymentPolicy) (w : string)
    (b : BudgetSnapshot) (x : PolicyDecision) : Prop :=
  budget_snapshot (cmd_scenario_id command) w Outbound (budget_unit (ch_asset (cmd_challenge command)))
    (utc_day_start now) now d = Ok (b, d)
  /\ candidate_decision p w origin (cmd_challenge command) b now = Ok x.

(** The candidate made for a policy and a wallet. *)
Definition candidate_for (d : DB) (command : AuthorizePayment) (hash origin : string) (now : Z) (p : PaymentPolicy)
    (w : string) (c : PolicyWalletCandidate) : Prop :=
  cd_policy c = p /\ cd_wallet_id c = w /\ cd_origin c = origin
  /\ cd_selection_key c = selection_key hash (po_id p) w
  /\ decides d command origin now p w (cd_budget c) (cd_decision c).

Lemma consider_wallets_alone command hash origin now p ws cands d l d' :
  run_alone (gfold (consider_wallet command hash origin now p) cands ws) d = (Ok l, d') ->
  d' = d /\ exists new, l = (cands ++ new)%list /\ Forall2 (candidate_for d command hash origin now p) ws new.
Proof.
  revert cands. induction ws as [|w ws IH]; intros cands; cbn [gfold]; intros Hr.
  { prog_inv. split; [done|]. exists []. by rewrite app_nil_r. }
  apply run_alone_bind_ok in Hr as (l1 & d1 & Hone & Hr). unfold consider_wallet in Hone. prog_inv.
  match goal with Hb : budget_snapshot _ _ _ _ _ _ _ = Ok _ |- _ => pose proof (read_only _ _ _ Hb) as -> end.
  apply IH in Hr as (-> & new & -> & Hall). split; [done|].
  eexists (_ :: new). split; [by rewrite <- app_assoc|]. constructor; [|done]. by split_and!.
Qed.

(** The candidates of the policies examined. *)
Definition candidates_of (d : DB) (command : AuthorizePayment) (hash origin : string) (now : Z)
    (ps : list PaymentPolicy) (l : list PolicyWalletCandidate) : Prop :=
  (forall c, c ∈ l -> exists p w, p ∈ ps /\ policy_covers p (cmd_challenge command) origin = true
                        /\ w ∈ po_wallet_ids p /\ candidate_for d command hash origin now p w c)
  /\ (forall p w, p ∈ ps -> policy_covers p (cmd_challenge command) origin = true -> w ∈ po_wallet_ids p ->
        exists c, c ∈ l /\ candidate_for d command hash origin now p w c).

Lemma consider_policies_alone command hash origin now ps cands d l d' :
  run_alone (gfold (consider_policy command hash origin now) cands ps) d = (Ok l, d') ->
  d' = d /\ exists new, l = (cands ++ new)%list /\ candidates_of d command hash origin now ps new.
Proof.
  revert cands. induction ps as [|p ps IH]; intros cands; cbn [gfold]; intros Hr.
  { prog_inv. split; [done|]. exists []. rewrite app_nil_r. split; [done|]. split; [by intros c Hc; inversion Hc|].
    by intros p w Hp; inversion Hp. }
  apply run_alone_bind_ok in Hr as (l1 & d1 & Hone & Hr). unfold consider_policy in Hone.
  apply run_alone_bind_ok in Hone as (u & d2 & Hv & Hone). prog_inv.
  destruct (policy_covers p (cmd_challenge command) origin) eqn:Hcov.
  - apply consider_wallets_alone in Hone as (-> & new1 & -> & Hall).
    apply IH in Hr as (-> & new2 & -> & Hmade & Hcovered). split; [done|]. exists (new1 ++ new2)%list.
    rewrite app_assoc. split; [done|]. split.
    + intros c [Hc|Hc]%elem_of_app.
      * apply list_elem_of_lookup in Hc as [i Hi]. destruct (Forall2_lookup_r _ _ _ _ _ Hall Hi) as (w & Hw & Hcf).
        exists p, w. split_and!; [by left|done|by eapply list_elem_of_lookup_2|done].
      * destruct (Hmade c Hc) as (q & w & Hq & ?). exists q, w. split; [by right|done].
    + intros q w [->|Hq]%elem_of_cons Hqc Hw.
      * apply list_elem_of_lookup in Hw as [i Hi]. destruct (Forall2_lookup_l _ _ _ _ _ Hall Hi) as (c & Hc & Hcf).
        exists c. split; [|done]. apply elem_of_app. left. by eapply list_elem_of_lookup_2.
      * destruct (Hcovered q w Hq Hqc Hw) as (c & Hc & Hcf). exists c. split; [|done]. apply elem_of_app. by right.
  - prog_inv. apply IH in Hr as (-> & new2 & -> & Hmade & Hcovered). split; [done|]. exists new2.
    split; [done|]. split.
    + intros c Hc. destruct (Hmade c Hc) as (q & w & Hq & ?). exists q, w. split; [by right|done].
    + intros q w [->|Hq]%elem_of_cons Hqc Hw; [congruence|by apply Hcovered].
Qed.

(** The policy table is keyed by policy identity. *)
Definition policies_keyed (d : DB) : Prop := forall k p, t_policy d !! k = Some p -> po_id p = k.

Lemma with_wallet_ids_same p : with_wallet_ids p (po_wallet_ids p) = p.
Proof. by destruct p. Qed.

Lemma load_items_alone d rows acc l d' :
  policies_keyed d -> (forall p, p ∈ rows -> exists k, t_policy d !! k = Some p) ->
  run_alone (gfold (fun items row =>
               let& wallet_ids := await (treads (fun d => match t_policy d !! po_id row with
                                                          | Some x => po_wallet_ids x
                                                          | None => []
                                                          end)) in
               gret (items ++ [with_wallet_ids row wallet_ids])%list) acc rows) d = (Ok l, d') ->
  d' = d /\ l = (acc ++ rows)%list.
Proof.
  intros Hkey. revert acc. induction rows as [|p rows IH]; intros acc Hrows; cbn [gfold]; intros Hr.
  { prog_inv. by rewrite app_nil_r. }
  apply run_alone_bind_ok in Hr as (l1 & d1 & Hone & Hr). prog_inv.
  destruct (Hrows p ltac:(by left)) as [k Hk]. pose proof (Hkey _ _ Hk) as <-. rewrite Hk, with_wallet_ids_same in Hr.
  apply IH in Hr as (-> & ->); [|intros q Hq; apply Hrows; by right]. by rewrite <- app_assoc.
Qed.

(** The page is complete exactly when the scenario is within the bound. *)
Lemma list_for_scenario_alone d scenario_id page l d' :
  policies_keyed d -> run_alone (list_for_scenario scenario_id page) d = (Ok l, d') ->
  let all := order_by policy_before (select (fun p => po_scenario_id p == scenario_id) (t_policy d)) in
  d' = d /\ pg_items l = take (N.to_nat (pq_limit page)) (drop (N.to_nat (pq_offset page)) all)
  /\ pg_total l = N.of_nat (length all).
Proof.
  intros Hkey. unfold list_for_scenario, list_policies. intros Hr. prog_inv.
  match goal with Hf : run_alone (gfold _ _ _) _ = _ |- _ => apply load_items_alone in Hf as (-> & ->); [|done|] end.
  - simpl. split_and!; [done..|]. f_equal. apply Permutation_length. by rewrite order_by_perm.
  - intros p Hp. apply elem_of_take in Hp as (i & Hp & _). rewrite lookup_drop in Hp.
    apply list_elem_of_lookup_2, elem_of_order_by, elem_of_select in Hp as [_ [k Hk]]. by exists k.
Qed.

Lemma compare_candidates_rank strategy l r :
  compare_candidates strategy l r <> Gt ->
  (decision_rank (cd_decision l) <= decision_rank (cd_decision r))%N
  /\ (strategy = LeastSpent -> decision_rank (cd_decision l) = decision_rank (cd_decision r) ->
      (bs_wallet_spent_and_reserved (cd_budget l) <= bs_wallet_spent_and_reserved (cd_budget r))%N).
Proof.
  unfold compare_candidates. intros Hc.
  destruct (N.compare_spec (decision_rank (cd_decision l)) (decision_rank (cd_decision r))) as [Hr|Hr|Hr].
  - split; [lia|]. intros -> _. simpl in Hc.
    destruct (N.compare_spec (bs_wallet_spent_and_reserved (cd_budget l)) (bs_wallet_spent_and_reserved (cd_budget r)));
      [lia..|done].
  - split; [lia|]. intros _. lia.
  - by destruct strategy.
Qed.

(** C34: the service picks the best candidate: without interference, the chosen
    policy and wallet are an eligible pair of the scenario, the decision is the
    policy engine's on the budget of that wallet, every other eligible pair has
    a decision that is no better (allowed before approval before denied), and
    under least-spent selection no equally ranked wallet has spent less.  So a
    payment is denied only if every eligible wallet denies it. *)
Theorem policy_decision_best strategy command hash now d c d' :
  policies_keyed d -> run_alone (policy_decision strategy command hash now) d = (Ok c, d') ->
  d' = d
  /\ exists origin, canonical_http_origin (ch_resource (cmd_challenge command)) = Ok origin
  /\ eligible d command origin (cd_policy c) (cd_wallet_id c)
  /\ decides d command origin now (cd_policy c) (cd_wallet_id c) (cd_budget c) (cd_decision c)
  /\ forall p w, eligible d command origin p w ->
       exists b x, decides d command origin now p w b x
         /\ (decision_rank (cd_decision c) <= decision_rank x)%N
         /\ (strategy = LeastSpent -> decision_rank (cd_decision c) = decision_rank x ->
             (bs_wallet_spent_and_reserved (cd_budget c) <= bs_wallet_spent_and_reserved b)%N).
Proof.
  intros Hkey. unfold policy_decision. intros Hr. prog_inv. bool_inv.
  match goal with Hl : run_alone (list_for_scenario _ _) _ = _ |- _ =>
    apply list_for_scenario_alone in Hl as (-> & Hitems & Htotal); [|done] end.
  match goal with Hf : run_alone (gfold _ _ _) _ = _ |- _ =>
    apply consider_policies_alone in Hf as (-> & new & -> & Hmade & Hcovered) end.
  cbn [pq_limit pq_offset app] in *. rewrite drop_0 in Hitems.
  set (all := order_by policy_before _) in *.
  assert (forall p, p ∈ pg_items x <-> (exists k, t_policy d !! k = Some p) /\ po_scenario_id p = cmd_scenario_id command)
    as Hall.
  { assert (pg_items x = all) as ->.
    { match goal with Ht : pg_total x = N.of_nat (length (pg_items x)) |- _ =>
        rewrite Htotal, Hitems, length_take in Ht end. rewrite Hitems. apply take_ge. lia. }
    intros p. subst all. rewrite elem_of_order_by, elem_of_select, bool_decide_eq_true. tauto. }
  apply select_candidate_min in Hr as [Hin Hmin]. split; [done|]. exists x3. split; [done|].
  destruct (Hmade c Hin) as (p & w & Hp & Hcov & Hw & (-> & -> & _ & _ & Hdec)). apply Hall in Hp as [Hp Hps].
  split; [by split_and!|]. split; [done|]. intros q v (Hq & Hs & Hqc & Hv).
  destruct (Hcovered q v) as (y & Hy & (_ & _ & _ & _ & Hydec)); [by apply Hall|done..|].
  exists (cd_budget y), (cd_decision y). split; [done|]. specialize (Hmin y Hy).
  apply compare_candidates_rank in Hmin. done.
Qed.
End Decision.

(** ** The write meets the storage contract *)

Section Contract.
Context `{SolanaPubkey, UrlParser, Sha256, JsonText}.

Lemma payment_recipients_match_refl network a c :
  canonicalize_payment_recipient network a = Ok c -> payment_recipients_match network a a = true.
Proof. unfold payment_recipients_match. intros ->. by apply bool_decide_eq_true. Qed.

Definition received_event (ids : FreshIds) (command : AuthorizePayment) (i : PaymentIntent) (now : Z) : PaymentEvent :=
  payment_event (id_received_event ids) i EvChallengeReceived
    (jobject [("challenge_hash", JString (ch_challenge_hash (cmd_challenge command)));
              ("challenge", challenge_to_json (cmd_challenge command))]) now.

Lemma artifacts_received ids access command i decision hash ttl now :
  of_type EvChallengeReceived (aa_events (build_authorization_artifacts ids access command i decision hash ttl now))
  = [received_event ids command i now].
Proof. by destruct decision. Qed.

Lemma challenge_matches_own command i :
  validate_command command = Ok tt -> pays command i -> pi_scenario_id i = cmd_scenario_id command ->
  pi_price_id i = None -> blank (ch_nonce (cmd_challenge command)) = false ->
  blank (ch_challenge_hash (cmd_challenge command)) = false ->
  challenge_matches_intent (cmd_challenge command) i Outbound = true.
Proof.
  intros Hv (Hd & Hp & Ha & Hr & Ham & Hre & Hh & Hx) Hs Hprice Hn Hch.
  unfold validate_command in Hv. run_inv. bool_inv.
  match goal with Hc : canonicalize_payment_recipient _ _ = Ok _ |- _ => apply payment_recipients_match_refl in Hc as Hm end.
  unfold challenge_matches_intent.
  assert (ch_price_id (cmd_challenge command) = None) as Hnp by (by destruct (ch_price_id _)).
  rewrite Hd, Hs, Hprice, Hnp, Hp, Ha, Hr, Ham, Hre, Hh, Hx, Hn, Hch, Hm. by rewrite !bool_decide_true.
Qed.

Lemma received_event_accepted ids command i events :
  of_type EvChallengeReceived events = [received_event ids command i (pi_created_at i)] ->
  challenge_ok (cmd_challenge command) -> challenge_matches_intent (cmd_challenge command) i Outbound = true ->
  validate_challenge_received_event events i = Ok tt.
Proof.
  intros He Hok Hm. unfold validate_challenge_received_event. rewrite He. unfold event_challenge.
  assert (jget "challenge" (ev_payload (received_event ids command i (pi_created_at i)))
          = Some (challenge_to_json (cmd_challenge command))) as -> by reflexivity.
  simpl. rewrite challenge_from_to_json by done. simpl.
  apply reject_if_ok. unfold opening_event. simpl. rewrite Hm, !bool_decide_true by done. done.
Qed.

(** The write the service builds is the one the storage layer asks for:
    for every decision, its received-challenge event carries the whole
    challenge and is bound to the intent, the approval and the lifecycle are
    those of its action, so that of the storage layer's content checks only
    the budget of a reservation is left to decide. *)
Lemma authorization_write_accepted svc ids access command selected hash i action now d :
  validate_command command = Ok tt -> challenge_ok (cmd_challenge command) ->
  blank (ch_nonce (cmd_challenge command)) = false -> blank (ch_challenge_hash (cmd_challenge command)) = false ->
  build_payment_intent ids command (po_id (cd_policy selected)) (cd_wallet_id selected) hash (cd_decision selected) now
  = Ok (i, action) ->
  let w := authorization_write svc ids access command selected hash i action now in
  PaymentIntent_validate (aw_intent w) = Ok tt
  /\ validate_challenge_received_event (aw_events w) (aw_intent w) = Ok tt
  /\ check_action w d = match cd_decision selected with
                        | Allowed => enforce_budget (aw_intent w) (utc_day_start now) now false d
                        | _ => Ok (tt, d)
                        end.
Proof.
  intros Hv Hok Hn Hh (Hval & Hid & _ & _ & Hprice & Hcr & (Hsc & Hrun & Hhash) & Hpays & Hst)%build_payment_intent_ok. simpl.
  split; [done|]. split.
  - eapply received_event_accepted; [|done|].
    + rewrite artifacts_received. by rewrite Hcr.
    + by apply challenge_matches_own.
  - unfold check_action. simpl. destruct (cd_decision selected); simpl in *; injection Hst as Hs Hr Hm ->.
    + rewrite Hs, Hr, Hm, !bool_decide_true by (done || (symmetry; apply Hpays)). done.
    + rewrite Hs, Hr, !bool_decide_true by done. done.
    + rewrite Hs, Hr, !bool_decide_true by done. done.
Qed.

End Contract.

(** ** Retries *)

Section Retry.
Context `{SolanaPubkey, UrlParser, Sha256, JsonText}.

Lemma latest_approval_some d id k a :
  t_approval d !! k = Some a -> ap_intent_id a = id -> is_Some (latest_approval d id).
Proof.
  intros Hk Ha. unfold latest_approval. destruct (order_by _ _) as [|b l] eqn:Ho; [|by eexists].
  assert (a ∈ order_by approval_newer (select (fun x => ap_intent_id x == id) (t_approval d))) as Hin.
  { apply elem_of_order_by, elem_of_select. rewrite bool_decide_true by done. eauto. }
  rewrite Ho in Hin. inversion Hin.
Qed.

(** A recorded authorization can always be answered again. *)
Lemma recorded_answer w d r d1 d2 :
  reachable d -> authorize w d = Ok (Inserted r, d1) -> rtc step d1 d2 ->
  exists i res, load_intent_by_run (pi_scenario_id (aw_intent w)) (pi_run_id (aw_intent w)) d2 = Ok (Some i, d2)
    /\ pi_id i = pi_id (aw_intent w) /\ pi_request_hash i = pi_request_hash (aw_intent w)
    /\ authorization_result {| ar_intent := i; ar_approval := latest_approval d2 (pi_id i) |} = Ok res.
Proof.
  intros Hreach Ha Hstep.
  pose proof (reachable_steps _ _ Hreach (authorize_step _ _ _ _ Ha)) as Hr1.
  pose proof (reachable_safe _ (reachable_steps _ _ Hr1 Hstep)) as [Hdb2 _].
  destruct (run_safe _ _ Hstep (reachable_safe _ Hr1)) as [_ [_ _ Hev Hap]].
  destruct (authorize_inserted_row _ _ _ _ Ha) as (_ & Hi & _ & Happ & Hbind).
  destruct (Hev (pi_id (aw_intent w)) (fresh_row (aw_intent w))) as (x & Hx & E); [by rewrite Hi, lookup_insert_eq|].
  pose proof (re_identity _ _ E) as Hid. simpl in Hid.
  pose proof (load_intent_by_run_find d2 (ir_intent x) _ _ (db_intents _ Hdb2) Hx eq_refl) as Hfind.
  apply same_immutable_identity_iff in Hid as (Hid & Hs & Hr & _ & _ & _ & _ & _ & _ & _ & _ & _ & _ & Hh & _).
  rewrite Hs, Hr. exists (ir_intent x).
  enough (exists res, authorization_result {| ar_intent := ir_intent x;
                        ar_approval := latest_approval d2 (pi_id (ir_intent x)) |} = Ok res) as [res Hres]
    by (exists res; split_and!; congruence).
  unfold authorization_result. simpl. destruct (pi_status (ir_intent x)) eqn:Hst; try (by eexists).
  pose proof (re_rank _ _ E) as Hrank. rewrite Hst in Hrank. simpl in Hrank.
  apply authorize_inserted in Ha as (_ & _ & _ & [u Hc] & _). unfold check_action in Hc.
  destruct (aw_action w); run_inv; bool_inv;
    match goal with Hps : pi_status (aw_intent w) = _ |- _ => rewrite Hps in Hrank; simpl in Hrank; try lia end.
  destruct (aw_approval w) as [a|]; [|done]. simpl in *. bool_inv.
  destruct (Hap (ap_id a) a) as (a' & Ha' & Ea); [by rewrite Happ, lookup_insert_eq|].
  destruct (latest_approval_some d2 (pi_id (ir_intent x)) _ _ Ha') as [b ->]; [|by eexists].
  destruct (ae_identity _ _ Ea) as (_ & Hai & _). congruence.
Qed.

(** A retry is always answered: once a request was committed, then at any
    later time and whatever happened in between, every retry of it by a
    principal that still has access to the scenario returns, names the same
    payment and changes nothing, even where policy, wallet, budget or protocol
    would no longer allow it. *)
Lemma authorize_payment_retry_answered w d r d1 d2 svc ids principal command now hash access :
  reachable d -> authorize w d = Ok (Inserted r, d1) -> rtc step d1 d2 ->
  recorded_for command hash (aw_intent w) -> request_hash command = Ok hash -> validate_command command = Ok tt ->
  run_alone (scenario_authorize principal (cmd_scenario_id command)) d2 = (Ok access, d2) ->
  exists res, run_alone (authorize_payment svc ids principal command now) d2 = (Ok res, d2)
    /\ result_intent res = pi_id (aw_intent w).
Proof.
  intros Hreach Ha Hstep (Hsc & Hrun & Hhash) Hh Hv Hacc.
  destruct (recorded_answer _ _ _ _ _ Hreach Ha Hstep) as (i & res & Hl & Hid & Hreq & Hres).
  rewrite Hsc, Hrun in Hl. exists res. split; [|by rewrite (authorization_result_intent _ _ Hres)].
  unfold authorize_payment. rewrite run_alone_bind, Hv. cbn [glift run_alone].
  rewrite run_alone_bind, Hacc, run_alone_bind, Hh. cbn [glift run_alone].
  assert (run_alone (replay_result command hash) d2 = (Ok (Some res), d2)) as Hrep.
  { unfold replay_result, find_run. rewrite !run_alone_bind. rewrite (proj2 (run_alone_await_ok _ _ _ _) Hl).
    rewrite run_alone_bind, (proj2 (run_alone_await_ok _ _ _ _) eq_refl). cbn [gret run_alone].
    rewrite run_alone_bind. cbn [ar_intent]. rewrite bool_decide_true by congruence. cbn [negb reject_if glift run_alone].
    by rewrite Hres. }
  rewrite run_alone_bind, Hrep. done.
Qed.
End Retry.

(** ** A request *)

Module SampleRequest.
(** A serializer for evaluation: strings unescaped, numbers in decimal. *)
Definition show_Z (z : Z) : string :=
  match z with Z.neg p => "-" ++ show_unsigned (N.pos p) | _ => show_unsigned (Z.to_N z) end.
Fixpoint show_json (j : json) : string :=
  match j with
  | JNull => "null"
  | JBool b => if b then "true" else "false"
  | JNumber z | JFloat z => show_Z z
  | JString s => "'" ++ s ++ "'"
  | JArray l => "[" ++ foldr (fun x acc => show_json x ++ "," ++ acc) "]" l
  | JObject m => "{" ++ foldr (fun kv acc => fst kv ++ ":" ++ show_json (snd kv) ++ "," ++ acc) "}" m
  end.
Definition serializer : JsonText := {| json_to_vec := fun j => Ok (show_json j) |}.

Definition x402 : PaymentProtocolAdapter :=
  {| adapter_name := "x402";
     decode_http_challenge := fun resource headers body => Ok None;
     encode_http_credential := fun credential =>
       Ok {| hc_header_name := "payment-signature"; hc_header_value := cr_credential_hash credential |};
     parse_challenge := fun scenario resource wire now expires => Err (PaymentProtocol "no challenge");
     merchant_evidence_header := "payment-response";
     decode_merchant_evidence := fun text =>
       Ok {| me_accepted := true; me_transaction := Some text; me_network := None; me_payer := None |};
     credential_payer := fun c credential =>
       ok_or (jget_str "payer" (cr_payload credential)) (PaymentProtocol "credential has no payer");
     validate_payment := fun c i => reject_if (ch_amount c != pi_amount i) (PaymentProtocol "mismatch");
     prepare_signing := fun c payer now =>
       Ok {| pr_digest := payer ++ ch_challenge_hash c; pr_payload := jobject [("payer", JString payer)] |};
     complete_signing := fun c request signature =>
       Ok {| cr_protocol := "x402"; cr_challenge_hash := ch_challenge_hash c; cr_credential_hash := signature;
             cr_payload := pr_payload request |};
     build_challenge := fun price recipient now =>
       Ok {| ch_scenario_id := pr_scenario_id price; ch_price_id := Some (pr_id price);
             ch_resource := pr_resource price; ch_protocol := "x402"; ch_asset := pr_asset price;
             ch_amount := pr_amount price; ch_recipient := recipient; ch_nonce := "nonce-" ++ pr_id price;
             ch_challenge_hash := "hash-" ++ pr_id price; ch_expires_at := i64_saturating_add now 600;
             ch_payload := jobject [("scheme", JString "exact")] |};
     verify_credential := fun c credential now =>
       reject_if (ch_expires_at c <=? now)%Z (PaymentProtocol "challenge expired") ;?
       Ok {| pv_payer := None; pv_requires_external_settlement := true |};
     credential_fingerprint := fun c credential => Ok ("fingerprint-" ++ cr_credential_hash credential);
     protocol_settlement := fun c credential =>
       Ok {| pt_protocol := "x402"; pt_payment_payload := cr_payload credential;
             pt_payment_requirements := ch_payload c |} |}.
Definition registry : ProtocolRegistry := {| reg_adapters := {["x402" := x402]}; reg_priority := ["x402"] |}.
Definition service : PaymentAuthorizer :=
  {| pa_protocols := registry; pa_approval_ttl_seconds := 300; pa_wallet_selection_strategy := LeastSpent |}.
Definition ids (suffix : string) : FreshIds :=
  {| id_intent := "intent-" ++ suffix; id_received_event := "received-" ++ suffix;
     id_outcome_event := "outcome-" ++ suffix; id_approval := "approval-" ++ suffix; id_outbox := "outbox-" ++ suffix |}.
Definition command (amount : N) : AuthorizePayment :=
  {| cmd_scenario_id := "scenario-1"; cmd_run_id := "run-a";
     cmd_challenge := {| ch_scenario_id := "scenario-1"; ch_price_id := None;
                         ch_resource := "https://api.example/feed"; ch_protocol := "x402"; ch_asset := sample_asset;
                         ch_amount := amount; ch_recipient := "0xabcdef0123456789abcdef0123456789abcdef01";
                         ch_nonce := "n-1"; ch_challenge_hash := "challenge-1"; ch_expires_at := 1700000600;
                         ch_payload := jobject [("scheme", JString "exact")] |} |}.
End SampleRequest.

#[local] Existing Instance Sample.codec.
#[local] Existing Instance Sample.parser.
#[local] Existing Instance sample_sha256.
#[local] Existing Instance SampleRequest.serializer.

Definition sample_request : Prog DB PaymentAuthorizationResult :=
  authorize_payment SampleRequest.service (SampleRequest.ids "a") "principal-1" (SampleRequest.command 250000) Sample.now.
Definition sample_answered : DB := snd (run_alone sample_request Sample.db).

Lemma sample_request_alone : run_alone sample_request Sample.db = (Ok (ResAuthorized "intent-a" 250000), sample_answered).
Proof. vm_compute. reflexivity. Qed.
Lemma sample_request_exec : exec (rtc step) sample_request Sample.db (Ok (ResAuthorized "intent-a" 250000)) sample_answered.
Proof. pose proof (run_alone_exec (rtc step) sample_request Sample.db) as Hx. by rewrite sample_request_alone in Hx. Qed.
Lemma sample_db_reachable : reachable Sample.db.
Proof. exists Sample.db. split; [split_and!; reflexivity|apply rtc_refl]. Qed.

(** Whether a list of transactions has one that creates the payment. *)
Definition creates (id : string) (c : DB * DB) : bool := is_none (t_intent (fst c) !! id) && is_some (t_intent (snd c) !! id).
Lemma creates_writes id calls : existsb (creates id) calls = true -> ~ wrote_nothing calls.
Proof.
  intros (c & Hin & Hc)%existsb_exists Hn. unfold wrote_nothing in Hn. rewrite Forall_forall in Hn.
  unfold creates in Hc. rewrite (Hn c) in Hc by by apply list_elem_of_In. by destruct (t_intent (fst c) !! id).
Qed.
Lemma sample_request_creates : existsb (creates "intent-a") (alone_calls sample_request Sample.db) = true.
Proof. vm_compute. reflexivity. Qed.

Lemma authorize_payment_outcome_witness :
  exists d1 r, t_intent d1 !! "intent-a" = None /\ t_intent sample_answered !! "intent-a" = Some r
    /\ outcome_holds SampleRequest.service (SampleRequest.command 250000) Sample.now d1 sample_answered
         (ir_intent r) (ResAuthorized "intent-a" 250000).
Proof.
  destruct (authorize_payment_outcome SampleRequest.service (SampleRequest.ids "a") "principal-1"
              (SampleRequest.command 250000) Sample.now Sample.db (alone_calls sample_request Sample.db)
              (ResAuthorized "intent-a" 250000) sample_answered sample_db_reachable
              (alone_exec_calls (rtc step) _ _ _ _ sample_request_alone)) as (hash & r & _ & Hr & _ & [[Hn _]|Hc]).
  - destruct (creates_writes _ _ sample_request_creates Hn).
  - destruct Hc as (d1 & _ & _ & _ & Hf & _ & Hout). exists d1, r. split; [exact Hf|]. split; [exact Hr|exact Hout].
Defined.

(** The same request again, later, by the owner of the vault; the serializer
    knows this request only. *)
Definition sample_json : JsonText :=
  {| json_to_vec j := if j == command_json (SampleRequest.command 250000) then Ok "request" else Err "unknown" |}.
Lemma sample_json_injective : @JsonTextInjective sample_json.
Proof.
  intros j1 j2 t. simpl. case_bool_decide as Hj1; [|done]. case_bool_decide as Hj2; [|done]. congruence.
Qed.
Definition sample_ask (suffix principal : string) (now : Z) : Prog DB PaymentAuthorizationResult :=
  @authorize_payment Sample.codec Sample.parser sample_sha256 sample_json SampleRequest.service
    (SampleRequest.ids suffix) principal (SampleRequest.command 250000) now.
Definition sample_asked : DB := snd (run_alone (sample_ask "a" "principal-1" Sample.now) Sample.db).
Lemma sample_ask_first :
  run_alone (sample_ask "a" "principal-1" Sample.now) Sample.db = (Ok (ResAuthorized "intent-a" 250000), sample_asked).
Proof. vm_compute. reflexivity. Qed.
Lemma sample_ask_again :
  run_alone (sample_ask "b" UNRESTRICTED_PRINCIPAL 1700000100) sample_asked
  = (Ok (ResAuthorized "intent-a" 250000), sample_asked).
Proof. vm_compute. reflexivity. Qed.

Lemma run_pays_once_witness :
  exists res1 res2, fst (run_alone (sample_ask "a" "principal-1" Sample.now) Sample.db) = Ok res1
    /\ fst (run_alone (sample_ask "b" UNRESTRICTED_PRINCIPAL 1700000100) sample_asked) = Ok res2
    /\ result_intent res1 = result_intent res2.
Proof.
  do 2 eexists. split; [rewrite sample_ask_first; reflexivity|]. split; [rewrite sample_ask_again; reflexivity|].
  pose proof (run_alone_exec_eq (rtc step) _ _ _ _ sample_ask_first) as Hx1.
  pose proof (run_alone_exec_eq (rtc step) _ _ _ _ sample_ask_again) as Hx2.
  pose proof (authorize_payment_recorded _ _ _ _ _ _ _ _ sample_db_reachable Hx1) as [Hs _].
  assert (challenge_ok (cmd_challenge (SampleRequest.command 250000))) as Hok by (vm_compute; intuition discriminate).
  exact (proj1 (@run_pays_once _ _ _ _ sample_json_injective
           SampleRequest.service (SampleRequest.ids "a") "principal-1" (SampleRequest.command 250000) Sample.now
           Sample.db _ sample_asked
           SampleRequest.service (SampleRequest.ids "b") UNRESTRICTED_PRINCIPAL (SampleRequest.command 250000) 1700000100
           sample_asked _ sample_asked sample_asked
           sample_db_reachable (reachable_steps _ _ sample_db_reachable Hs) Hx1 Hx2
           (rtc_refl _ _) (rtc_refl _ _) Hok Hok eq_refl eq_refl)).
Defined.

(** The candidate of the sample request. *)
Definition sample_candidate : option PolicyWalletCandidate :=
  match fst (run_alone (policy_decision LeastSpent (SampleRequest.command 250000) "h" Sample.now) Sample.db) with
  | Ok c => Some c
  | Err _ => None
  end.

Lemma policy_decision_best_witness :
  exists c, sample_candidate = Some c
    /\ eligible Sample.db (SampleRequest.command 250000) "https://api.example" (cd_policy c) (cd_wallet_id c)
    /\ cd_decision c = Allowed.
Proof.
  destruct (run_alone (policy_decision LeastSpent (SampleRequest.command 250000) "h" Sample.now) Sample.db)
    as [[c|e] d'] eqn:Hr; [|vm_compute in Hr; discriminate Hr].
  assert (policies_keyed Sample.db) as Hkey.
  { intros k p Hk. change (({["policy-1" := Sample.policy]} : gmap string PaymentPolicy) !! k = Some p) in Hk.
    apply lookup_singleton_Some in Hk as [<- <-]. reflexivity. }
  destruct (policy_decision_best LeastSpent (SampleRequest.command 250000) "h" Sample.now Sample.db c d' Hkey Hr)
    as (_ & origin & Ho & He & _ & _).
  exists c. unfold sample_candidate. rewrite Hr. split; [reflexivity|].
  vm_compute in Ho. injection Ho as <-. split; [exact He|]. vm_compute in Hr. injection Hr as <- _. reflexivity.
Defined.

(** Another wallet of the same policy. *)
Definition sample_other (c : PolicyWalletCandidate) : PolicyWalletCandidate :=
  {| cd_policy := cd_policy c; cd_wallet_id := "wallet-2"; cd_selection_key := cd_selection_key c;
     cd_budget := cd_budget c; cd_origin := cd_origin c; cd_decision := cd_decision c |}.

(** The write of the sample request, as the service builds it. *)
Definition sample_hash : string :=
  match request_hash (SampleRequest.command 250000) with Ok h => h | Err _ => "" end.
Definition sample_write : option AuthorizationWrite :=
  c ← sample_candidate;
  match build_payment_intent (SampleRequest.ids "a") (SampleRequest.command 250000) (po_id (cd_policy c))
          (cd_wallet_id c) sample_hash (cd_decision c) Sample.now with
  | Ok (i, action) =>
      Some (authorization_write SampleRequest.service (SampleRequest.ids "a")
              {| ax_principal := "principal-1"; ax_client := Sample.client; ax_scenario := Sample.scenario |}
              (SampleRequest.command 250000) c sample_hash i action Sample.now)
  | Err _ => None
  end.
