(* ===== verification/Sealing.v ===== *)
(** * Sealed material

    The envelope encryption of [src/src/utils/secure_material.rs] with the
    nonce codec of [src/src/utils/aead.rs]: secrets enter the database only as
    envelopes bound to a context and to a version of a key ring.

    AES-256-GCM, base64url and UUIDs are third-party code: [Aead], [Base64Url]
    and [UuidNonce] are what the source calls of them, [AeadLaws] and
    [Base64UrlLaws] what it relies on.  The trait [SensitiveMaterialProtector]
    is the class [MaterialProtector], with [MaterialProtectorLaws] what its
    clients rely on; the key ring is an instance of both. *)

From S2P Require Import Prelude Text Money Json Wallet Intent Policy Ledger Records Store PaymentRules Budget PaymentStore Program Authorizer.

#[local] Open Scope string_scope.
#[local] Open Scope vault_scope.

(** ** The trait *)

(** The first argument of [mp_seal] is the nonce the call draws. *)
Class MaterialProtector : Type := {
  mp_seal : string -> string -> string -> Result Error SealedSensitiveMaterial;
  mp_open : string -> SealedSensitiveMaterial -> Result Error string
}.

(** [Uuid::from_bytes] with its variant and version: sixteen bytes are the
    value of an RFC 4122 UUID v4. *)
Class UuidNonce : Type := { rfc4122_v4 : string -> bool }.

(** ** Third-party codecs *)

Class Base64Url : Type := {
  b64_encode : string -> string;
  b64_decode : string -> option string
}.
Class Base64UrlLaws `{Base64Url} : Prop := {
  b64_decode_encode : forall s, b64_decode (b64_encode s) = Some s
}.

(** [cipher.encrypt(nonce, Payload { msg, aad })] and [decrypt], for a key. *)
Class Aead : Type := {
  aead_encrypt : string -> string -> string -> string -> option string;
  aead_decrypt : string -> string -> string -> string -> option string
}.
(** GCM is deterministic for a key and a nonce, and decryption accepts exactly
    the ciphertext with the right tag. *)
Class AeadLaws `{Aead} : Prop := {
  aead_decrypt_iff : forall key nonce aad msg ciphertext,
    aead_decrypt key nonce aad ciphertext = Some msg <-> aead_encrypt key nonce aad msg = Some ciphertext
}.

(** ** Nonces *)

Definition UUID_NONCE_BYTES : N := 16.

(** [UuidNonceCodec::parse] *)
Definition nonce_parse `{UuidNonce} (bytes : string) : Result Error string :=
  reject_if (negb (str_len bytes =? UUID_NONCE_BYTES)%N) (Crypto "AES-GCM nonce is not a UUID v4") ;?
  reject_if (negb (rfc4122_v4 bytes)) (Crypto "AES-GCM nonce is not a UUID v4") ;?
  Ok bytes.

(** What [Uuid::new_v4] draws. *)
Definition fresh_nonce `{UuidNonce} (nonce : string) : Prop :=
  str_len nonce = UUID_NONCE_BYTES /\ rfc4122_v4 nonce = true.

(** ** The key ring *)

Definition MATERIAL_VERSION : N := 2.
Definition AAD_DOMAIN : string := "agentvault.sensitive-material.v2".
Definition NUL : ascii := ascii_of_N 0.

Record KeyRing : Type := {
  kr_active_key_id : string;
  kr_keys : gmap string string
}.

(** [validate_context] *)
Definition validate_context (context : string) : Result Error unit :=
  reject_if (is_empty context || (512 <? str_len context)%N || has_control context)
            (Crypto "sensitive-material context is invalid").

(** [validate_key_id] *)
Definition validate_material_key_id (key_id : string) : Result Error unit :=
  reject_if (is_empty key_id || (128 <? str_len key_id)%N || negb (bytes_all identifier_byte key_id))
            (Config "sensitive-material key id is invalid").

(** One iteration of the loop that fills a ring: a [BTreeMap::insert] that
    must not replace. *)
Definition ring_insert (validate : string -> Result Error unit) (duplicate : string -> Error)
    (ring : gmap string string) (entry : string * string) : Result Error (gmap string string) :=
  validate (fst entry) ;?
  reject_if (is_some (ring !! fst entry)) (duplicate (fst entry)) ;?
  Ok (<[fst entry := snd entry]> ring).

(** [Aes256GcmMaterialProtector::new] *)
Definition protector_new (active_key_id : string) (keys : list (string * string)) : Result Error KeyRing :=
  validate_material_key_id active_key_id ;?
  let? ring := rfold (ring_insert validate_material_key_id
                        (fun key_id => Config ("duplicate sensitive-material key id: " ++ key_id))) ∅ keys in
  reject_if (bool_decide (ring = ∅) || is_none (ring !! active_key_id))
            (Config "sensitive-material active key is missing from the key ring") ;?
  Ok {| kr_active_key_id := active_key_id; kr_keys := ring |}.

(** [aad] *)
Definition aad (context key_id : string) : string :=
  AAD_DOMAIN ++ String NUL (context ++ String NUL key_id).

Section Ring.
Context `{Base64Url, Aead, UuidNonce}.

(** [Aes256GcmMaterialProtector::seal] *)
Definition seal (ring : KeyRing) (nonce context plaintext : string) : Result Error SealedSensitiveMaterial :=
  validate_context context ;?
  reject_if (is_empty plaintext) (Crypto "sensitive material must not be empty") ;?
  let? key := ok_or (kr_keys ring !! kr_active_key_id ring)
                    (Crypto "active sensitive-material key is unavailable") in
  let? ciphertext := ok_or (aead_encrypt key nonce (aad context (kr_active_key_id ring)) plaintext)
                           (Crypto "sensitive-material encryption failed") in
  Ok {| sm_version := MATERIAL_VERSION; sm_key_id := kr_active_key_id ring; sm_nonce := b64_encode nonce;
        sm_ciphertext := b64_encode ciphertext |}.

(** [Aes256GcmMaterialProtector::open] *)
Definition open (ring : KeyRing) (context : string) (material : SealedSensitiveMaterial) : Result Error string :=
  validate_context context ;?
  reject_if (sm_version material != MATERIAL_VERSION) (Crypto "unsupported sensitive-material envelope version") ;?
  validate_material_key_id (sm_key_id material) ;?
  let? key := ok_or (kr_keys ring !! sm_key_id material)
                    (Crypto "sensitive-material key version is unavailable") in
  let? nonce := ok_or (b64_decode (sm_nonce material)) (Crypto "sensitive-material nonce is invalid") in
  let? nonce := map_err (fun _ => Crypto "sensitive-material nonce is invalid") (nonce_parse nonce) in
  let? ciphertext := ok_or (b64_decode (sm_ciphertext material)) (Crypto "sensitive-material ciphertext is invalid") in
  ok_or (aead_decrypt key nonce (aad context (sm_key_id material)) ciphertext)
        (Crypto "sensitive-material authentication failed").

#[export] Instance ring_protector (ring : KeyRing) : MaterialProtector :=
  {| mp_seal := seal ring; mp_open := open ring |}.
End Ring.

(** What clients of the trait rely on. *)
Class MaterialProtectorLaws `{UuidNonce} (p : MaterialProtector) : Prop := {
  open_sealed : forall nonce context plaintext m,
    fresh_nonce nonce -> mp_seal nonce context plaintext = Ok m -> mp_open context m = Ok plaintext
}.

(** ** Rings *)

Definition ring_ok (ring : KeyRing) : Prop :=
  is_Some (kr_keys ring !! kr_active_key_id ring)
  /\ forall id key, kr_keys ring !! id = Some key -> validate_material_key_id id = Ok tt.

(** A later ring that still holds every key of an earlier one. *)
Definition retains (old new : KeyRing) : Prop := kr_keys old ⊆ kr_keys new.

Lemma ring_insert_fold validate duplicate keys ring out :
  rfold (ring_insert validate duplicate) ring keys = Ok out ->
  ring ⊆ out /\ NoDup keys.*1
  /\ (forall id, id ∈ keys.*1 -> ring !! id = None /\ validate id = Ok tt)
  /\ (forall id key, out !! id = Some key <-> ring !! id = Some key \/ (id, key) ∈ keys).
Proof.
  revert ring. induction keys as [|[id key] keys IH]; intros ring Hf; simpl in Hf; run_inv.
  { split_and!; [done|constructor|set_solver|]. intros i k. rewrite elem_of_nil. tauto. }
  unfold ring_insert in *. run_inv. simpl in *.
  match goal with Hn : is_some (ring !! id) = false |- _ => destruct (ring !! id) eqn:Hfresh; [done|] end.
  match goal with Hf : rfold _ _ _ = Ok _ |- _ => apply IH in Hf as (Hsub & Hnd & Hval & Hin) end.
  split_and!.
  - etrans; [by apply insert_subseteq|done].
  - constructor; [|done]. intros Hid. apply Hval in Hid as [Hid _]. by rewrite lookup_insert_eq in Hid.
  - intros i [->|Hi]%elem_of_cons.
    + split; [done|]. by match goal with Hv : validate id = Ok ?u |- _ => destruct u end.
    + apply Hval in Hi as [Hi Hv]. split; [|done]. by apply lookup_insert_None in Hi as [Hi _].
  - intros i k. rewrite Hin, elem_of_cons, lookup_insert_Some. split.
    + intros [[[-> ->]|[_ ?]]|?]; auto.
    + intros [Hi|[[= -> ->]|Hi]]; auto. left. right. split; [congruence|done].
Qed.

Lemma protector_new_ok active keys ring :
  protector_new active keys = Ok ring ->
  ring_ok ring /\ kr_active_key_id ring = active /\ NoDup keys.*1
  /\ forall id key, kr_keys ring !! id = Some key <-> (id, key) ∈ keys.
Proof.
  unfold protector_new. intros Hn. run_inv.
  match goal with Hf : rfold _ _ _ = Ok _ |- _ => apply ring_insert_fold in Hf as (_ & Hnd & Hval & Hin) end.
  bool_inv. unfold ring_ok. simpl. split_and!; try done.
  - by match goal with Hs : is_none (_ !! active) = false |- _ => destruct (_ !! active) end.
  - intros id key Hid. apply Hin in Hid as [?|Hid]; [done|]. apply (Hval id). by apply (list_elem_of_fmap_2 fst) in Hid.
  - intros id key. rewrite Hin, lookup_empty. split; [intros [?|?]|]; auto. done.
Qed.

(** ** Round trip *)

Section Laws.
Context `{Base64Url, !Base64UrlLaws, Aead, !AeadLaws, UuidNonce}.

(** An envelope stays readable, in its context, by every later ring that
    retains the keys. *)
Lemma open_retained ring ring' nonce context plaintext m :
  ring_ok ring -> retains ring ring' -> fresh_nonce nonce ->
  seal ring nonce context plaintext = Ok m -> open ring' context m = Ok plaintext.
Proof.
  intros [_ Hids] Hret [Hlen Hv4] Hs. unfold seal in Hs. run_inv. unfold open.
  match goal with Hc : validate_context context = Ok ?u |- _ => destruct u; rewrite Hc end.
  cbn [rbind sm_version sm_key_id sm_nonce sm_ciphertext]. rewrite bool_decide_true by done. cbn [negb reject_if rbind].
  match goal with Hk : kr_keys ring !! _ = Some ?k |- _ =>
    rewrite (Hids _ _ Hk); cbn [rbind]; rewrite (lookup_weaken _ _ _ _ Hk Hret) end.
  cbn [ok_or rbind]. rewrite !b64_decode_encode. cbn [ok_or rbind].
  unfold nonce_parse. rewrite Hlen, Hv4, N.eqb_refl. cbn [negb reject_if rbind map_err].
  match goal with He : aead_encrypt _ _ _ _ = Some _ |- _ => apply aead_decrypt_iff in He as -> end. done.
Qed.

Lemma ring_protector_laws ring : ring_ok ring -> MaterialProtectorLaws (ring_protector ring).
Proof. intros Hok. split. intros nonce context plaintext m. apply (open_retained ring ring); [done|]. unfold retains. done. Qed.

(** What [open] returns was sealed under a key of the ring, for the same
    context and key version. *)
Lemma open_authentic ring context m plaintext :
  open ring context m = Ok plaintext ->
  exists key nonce ciphertext, kr_keys ring !! sm_key_id m = Some key
    /\ b64_decode (sm_nonce m) = Some nonce /\ b64_decode (sm_ciphertext m) = Some ciphertext
    /\ aead_encrypt key nonce (aad context (sm_key_id m)) plaintext = Some ciphertext.
Proof.
  unfold open, nonce_parse. intros Ho. run_inv. do 3 eexists. split_and!; try eassumption.
  by apply aead_decrypt_iff.
Qed.
End Laws.

(** ** The associated data *)

Lemma split_at_nul s1 t1 s2 t2 :
  bytes_all (fun c => c != NUL) s1 = true -> bytes_all (fun c => c != NUL) s2 = true ->
  s1 ++ String NUL t1 = s2 ++ String NUL t2 -> s1 = s2 /\ t1 = t2.
Proof.
  revert s2. induction s1 as [|c s1 IH]; intros [|c2 s2] H1 H2 Heq.
  - by injection Heq.
  - rewrite str_app_cons in Heq. injection Heq as <- _. by cbn in H2.
  - rewrite str_app_cons in Heq. injection Heq as -> _. by cbn in H1.
  - rewrite !str_app_cons in Heq. injection Heq as -> Heq. cbn [bytes_all] in *. bool_inv.
    by destruct (IH s2) as [-> ->].
Qed.

Lemma no_control_no_nul s : has_control s = false -> bytes_all (fun c => c != NUL) s = true.
Proof.
  induction s as [|c s IH]; [done|]. cbn [has_control bytes_all]. intros Hc. bool_inv. rewrite IH by done.
  rewrite andb_true_r. apply negb_true_iff, bool_decide_eq_false. intros ->. done.
Qed.

Lemma aad_binds c1 k1 c2 k2 :
  validate_context c1 = Ok tt -> validate_context c2 = Ok tt -> aad c1 k1 = aad c2 k2 -> c1 = c2 /\ k1 = k2.
Proof.
  unfold validate_context, aad. intros H1 H2 Heq. run_inv. bool_inv.
  apply string_app_inj in Heq as [_ Heq]; [|done]. injection Heq as Heq.
  by apply split_at_nul in Heq; [|apply no_control_no_nul..].
Qed.

Section Claims.
Context `{Base64Url, !Base64UrlLaws, Aead, !AeadLaws, UuidNonce}.

(** Sealed material survives key rotation: whatever a configured key ring
    seals under a fresh UUID nonce, every ring configured later with (at
    least) the same keys, under whatever active key, opens in the same context
    to exactly the sealed bytes. *)
Lemma sealed_material_survives_rotation active keys ring active' keys' ring' nonce context plaintext m :
  protector_new active keys = Ok ring -> protector_new active' keys' = Ok ring' -> keys ⊆ keys' ->
  fresh_nonce nonce -> seal ring nonce context plaintext = Ok m -> open ring' context m = Ok plaintext.
Proof.
  intros (Hok & _ & _ & Hk)%protector_new_ok (_ & _ & _ & Hk')%protector_new_ok Hsub Hn Hs.
  eapply open_retained; [exact Hok| |exact Hn|exact Hs].
  apply map_subseteq_spec. intros id key Hid. apply Hk', Hsub, Hk, Hid.
Qed.

(** Sealed material is bound to its context: an envelope opens only in the
    context it was sealed for and only to the sealed bytes, unless the cipher
    gives one ciphertext, tag included, to two different messages with
    different associated data under one key and nonce; the two are named. *)
Lemma sealed_material_bound ring nonce c1 p1 m c2 p2 :
  seal ring nonce c1 p1 = Ok m -> open ring c2 m = Ok p2 ->
  (c1 = c2 /\ p1 = p2)
  \/ exists key ciphertext, aad c1 (sm_key_id m) <> aad c2 (sm_key_id m)
       /\ aead_encrypt key nonce (aad c1 (sm_key_id m)) p1 = Some ciphertext
       /\ aead_encrypt key nonce (aad c2 (sm_key_id m)) p2 = Some ciphertext.
Proof.
  intros Hs Ho. pose proof (open_authentic _ _ _ _ Ho) as (key & n2 & ct & Hk & Hn & Hct & He).
  unfold open in Ho. apply rbind_ok in Ho as ([] & Hc2 & _).
  unfold seal in Hs. run_inv. simpl in *. rewrite b64_decode_encode in Hn, Hct. simplify_eq.
  match goal with He1 : aead_encrypt _ _ (aad c1 _) _ = Some _ |- _ => rename He1 into Hs1 end.
  destruct (decide (c1 = c2)) as [->|Hne]; [left|right].
  - split; [done|]. apply aead_decrypt_iff in He, Hs1. congruence.
  - do 2 eexists. split_and!; [|exact Hs1|exact He]. intros Haad. apply aad_binds in Haad as [? _]; [done|..|done].
    by match goal with Hv : validate_context c1 = Ok ?u |- _ => destruct u end.
Qed.
End Claims.

(** ** A key ring *)

Module SampleRing.
Definition base64 : Base64Url := {| b64_encode := fun s => s; b64_decode := Some |}.
(** A transparent cipher: the key, nonce and associated data are its tag. *)
Definition cipher : Aead :=
  {| aead_encrypt := fun key nonce aad msg => Some (key ++ nonce ++ aad ++ msg);
     aead_decrypt := fun key nonce aad ciphertext => strip_prefix (key ++ nonce ++ aad) ciphertext |}.
Definition uuids : UuidNonce := {| rfc4122_v4 := fun s => negb (is_empty s) |}.

Definition keys : list (string * string) := [("k1", "key-one"); ("k2", "key-two")].
Definition ring : KeyRing := {| kr_active_key_id := "k1"; kr_keys := {["k1" := "key-one"]} |}.
Definition rotated : KeyRing := {| kr_active_key_id := "k2"; kr_keys := <["k2" := "key-two"]> {["k1" := "key-one"]} |}.
Definition nonce : string := "0123456789abcdef".
Definition context : string := "approval:approval-1:grant:jti-1".
Definition envelope : SealedSensitiveMaterial :=
  {| sm_version := 2; sm_key_id := "k1"; sm_nonce := nonce;
     sm_ciphertext := "key-one" ++ nonce ++ aad context "k1" ++ "token" |}.
End SampleRing.

#[local] Existing Instance SampleRing.base64.
#[local] Existing Instance SampleRing.cipher.
#[local] Existing Instance SampleRing.uuids.

#[export] Instance sample_base64_laws : @Base64UrlLaws SampleRing.base64.
Proof. by split. Qed.
#[export] Instance sample_cipher_laws : @AeadLaws SampleRing.cipher.
Proof.
  split. intros key nonce ad msg ct. cbn [aead_decrypt aead_encrypt SampleRing.cipher].
  rewrite strip_prefix_Some, !str_app_assoc. split; [by intros ->|by intros [= ->]].
Qed.
