(* ===== verification/GrantTokens.v ===== *)
(** * Approval grant tokens

    The one-time JWTs of [src/src/payment/approval_grant.rs].  A token binds an
    approval, its payment and amount, the approver and a lifetime; it is kept
    sealed in the approval row, beside a digest of its claims, and verified
    against that row before it is spent.

    The [jsonwebtoken] crate is the parameter [Jwt], with what the source
    relies on in [JwtLaws]; the token identity and the sealing nonce that the
    service draws are arguments.  The trait [ApprovalGrantTokenService] is the
    class [GrantTokenService], whose laws are [GrantTokenLaws]; the JWT service
    is an instance of both. *)

From S2P Require Import Prelude Text Money Json Wallet Intent Policy Ledger Records Store PaymentRules Budget PaymentStore Program Authorizer ApprovalStore Sealing.

#[local] Open Scope string_scope.
#[local] Open Scope vault_scope.

(** ** The trait *)

(** [issue] takes the drawn token identity and sealing nonce first. *)
Class GrantTokenService : Type := {
  gt_issue : string -> string -> ApprovalRequest -> ApprovalDecision -> Z -> Result Error ApprovalGrant;
  gt_verify : ApprovalRequest -> Z -> Result Error VerifiedApprovalGrant
}.

(** ** JSON web tokens *)

Inductive JwtAlgorithm : Type := HS256 | OtherAlgorithm (name : string).
#[export] Instance JwtAlgorithm_eq_dec : EqDecision JwtAlgorithm.
Proof. solve_decision. Defined.

Record JwtHeader : Type := {
  jh_alg : JwtAlgorithm;
  jh_typ : option string;
  jh_kid : option string
}.

(** [encode], [decode_header] and [decode] with an HS256 validation of the
    audience and the issuer alone. *)
Class Jwt : Type := {
  jwt_encode : JwtHeader -> ApprovalGrantClaims -> string -> option string;
  jwt_decode_header : string -> option JwtHeader;
  jwt_decode : string -> string -> string -> string -> option ApprovalGrantClaims
}.

(** The claims are values of their Rust types. *)
Definition claims_fit (c : ApprovalGrantClaims) : Prop :=
  (gc_amount c <= U128_MAX)%N /\ i64_in_range (gc_iat c) = true /\ i64_in_range (gc_exp c) = true.

Class JwtLaws `{Jwt} : Prop := {
  jwt_header_of : forall h c key token, jwt_encode h c key = Some token -> jwt_decode_header token = Some h;
  jwt_text_of : forall h c key token, jwt_encode h c key = Some token -> utf8_valid token = true;
  jwt_decode_of : forall h c key token, jwt_encode h c key = Some token -> jh_alg h = HS256 -> claims_fit c ->
    jwt_decode token key (gc_aud c) (gc_iss c) = Some c
}.

(** ** The service *)

Definition APPROVAL_JWT_KEY_BYTES : N := 32.
Definition APPROVAL_CLAIMS_HASH_DOMAIN : string := "agentvault.approval-jwt-claims.v1".

Record JwtApprovalGrantTokenService : Type := {
  jw_issuer : string;
  jw_audience : string;
  jw_active_key_id : string;
  jw_signing_keys : gmap string string
}.

(** [validate_jwt_identity] *)
Definition validate_jwt_identity (field value : string) : Result Error unit :=
  reject_if (blank value || (256 <? str_len value)%N || has_control value)
            (Config ("approval JWT " ++ field ++ " is invalid")).

(** [validate_key_id] *)
Definition validate_jwt_key_id (key_id : string) : Result Error unit :=
  reject_if (is_empty key_id || (128 <? str_len key_id)%N || negb (bytes_all identifier_byte key_id))
            (Config "approval JWT key id is invalid").

(** [new] and [from_resolved_keys] *)
Definition from_resolved_keys (issuer audience active_key_id : string) (signing_keys : list (string * string))
  : Result Error JwtApprovalGrantTokenService :=
  validate_jwt_identity "issuer" issuer ;?
  validate_jwt_identity "audience" audience ;?
  validate_jwt_key_id active_key_id ;?
  let? ring := rfold (ring_insert validate_jwt_key_id
                        (fun key_id => Config ("duplicate approval JWT key id: " ++ key_id))) ∅ signing_keys in
  reject_if (bool_decide (ring = ∅) || is_none (ring !! active_key_id))
            (Config "approval JWT active signing key is missing from the key ring") ;?
  Ok {| jw_issuer := issuer; jw_audience := audience; jw_active_key_id := active_key_id; jw_signing_keys := ring |}.

(** [constant_time_eq]: the difference of all bytes is accumulated. *)
Fixpoint fold_difference (difference : N) (l r : string) : N :=
  match l, r with
  | String a l', String b r' => fold_difference (N.lor difference (N.lxor (byte_of a) (byte_of b))) l' r'
  | _, _ => difference
  end.
Definition constant_time_eq (l r : string) : bool :=
  if negb (String.length l =? String.length r)%nat then false else (fold_difference 0 l r =? 0)%N.

(** [grant_material_context] *)
Definition grant_material_context (approval_id jti : string) : string :=
  "approval:" ++ approval_id ++ ":grant:" ++ jti.

(** The serde form of the claims: a struct, in the order of its fields. *)
Definition claims_json (c : ApprovalGrantClaims) : json :=
  JObject [("iss", JString (gc_iss c)); ("aud", JString (gc_aud c)); ("jti", JString (gc_jti c));
           ("approval_id", JString (gc_approval_id c)); ("intent_id", JString (gc_intent_id c));
           ("intent_hash", JString (gc_intent_hash c)); ("amount", JString (Amount.to_string (gc_amount c)));
           ("approver", JString (gc_approver c)); ("iat", JNumber (gc_iat c)); ("exp", JNumber (gc_exp c))].

(** [claims_hash] *)
Definition claims_hash `{Sha256, JsonText} (c : ApprovalGrantClaims) : Result Error string :=
  let? encoded := map_err Json (json_to_vec (claims_json c)) in
  reject_if (U64_MAX <? str_len encoded)%N (Crypto "approval JWT claims are too large") ;?
  Ok (hash_request APPROVAL_CLAIMS_HASH_DOMAIN encoded).

Section Service.
Context `{Sha256, JsonText, Jwt, MaterialProtector}.

(** [validate_stored_claims] *)
Definition validate_stored_claims (svc : JwtApprovalGrantTokenService) (a : ApprovalRequest)
    (c : ApprovalGrantClaims) (hash : string) (now : Z) : Result Error unit :=
  map_err (fun _ => Forbidden) (ApprovalGrantClaims_validate c) ;?
  let? stored_amount := ok_or (ap_approved_amount a) (Storage "approved row has no amount") in
  let? stored_approver := ok_or (ap_approved_by a) (Storage "approved row has no approver") in
  let? stored_jti := ok_or (ap_grant_jti a) (Storage "approved row has no grant jti") in
  let? stored_hash := ok_or (ap_grant_claims_hash a) (Storage "approved row has no grant claims hash") in
  reject_if ((gc_iss c != jw_issuer svc)
             || (gc_aud c != jw_audience svc)
             || (gc_jti c != stored_jti)
             || (gc_approval_id c != ap_id a)
             || (gc_intent_id c != ap_intent_id a)
             || (gc_intent_hash c != ap_intent_hash a)
             || (gc_amount c != stored_amount)
             || (gc_approver c != stored_approver)
             || (Some (gc_iat c) != ap_approved_at a)
             || (gc_exp c != ap_expires_at a)
             || (now <? gc_iat c)%Z
             || (gc_exp c <=? now)%Z
             || negb (constant_time_eq hash stored_hash))
            Forbidden.

(** [issue] *)
Definition issue (svc : JwtApprovalGrantTokenService) (jti nonce : string) (a : ApprovalRequest)
    (dec : ApprovalDecision) (expires_at : Z) : Result Error ApprovalGrant :=
  reject_if ((ad_decision dec != Approve)
             || (ap_id a != ad_approval_id dec)
             || (ap_intent_id a != ad_intent_id dec))
            (InvalidRequest "approval JWT can only be issued for the bound approval decision") ;?
  let? amount := ok_or (ad_approved_amount dec) (InvalidRequest "approved amount is required") in
  let claims := {| gc_iss := jw_issuer svc; gc_aud := jw_audience svc; gc_jti := jti; gc_approval_id := ap_id a;
                   gc_intent_id := ap_intent_id a; gc_intent_hash := ap_intent_hash a; gc_amount := amount;
                   gc_approver := ad_approved_by dec; gc_iat := ad_decided_at dec; gc_exp := expires_at |} in
  map_err (fun field => InvalidRequest ("invalid approval JWT claim: " ++ field))
          (ApprovalGrantClaims_validate claims) ;?
  let? key := ok_or (jw_signing_keys svc !! jw_active_key_id svc)
                    (Crypto "active approval JWT signing key is unavailable") in
  let header := {| jh_alg := HS256; jh_typ := Some "JWT"; jh_kid := Some (jw_active_key_id svc) |} in
  let? token := ok_or (jwt_encode header claims key) (Crypto "approval JWT signing failed") in
  let? sealed := mp_seal nonce (grant_material_context (gc_approval_id claims) (gc_jti claims)) token in
  let? hash := claims_hash claims in
  Ok {| ag_claims := claims; ag_claims_hash := hash; ag_sealed_token := sealed |}.

(** [verify] *)
Definition verify (svc : JwtApprovalGrantTokenService) (a : ApprovalRequest) (now : Z)
  : Result Error VerifiedApprovalGrant :=
  reject_if (negb ((ap_status a == ApApproved) || (ap_status a == ApConsumed)) || negb (has_persisted_grant a))
            (InvalidTransition "approval JWT is not available for this approval") ;?
  let? jti := ok_or (ap_grant_jti a) (Storage "approved row has no grant jti") in
  let? sealed := ok_or (ap_sealed_grant_token a) (Storage "approved row has no sealed grant JWT") in
  let? token := mp_open (grant_material_context (ap_id a) jti) sealed in
  reject_if (negb (utf8_valid token)) (Crypto "sealed approval JWT is invalid") ;?
  let? header := ok_or (jwt_decode_header token) Forbidden in
  reject_if ((jh_alg header != HS256) || (jh_typ header != Some "JWT")) Forbidden ;?
  let? key_id := ok_or (jh_kid header) Forbidden in
  let? key := ok_or (jw_signing_keys svc !! key_id) Forbidden in
  let? claims := ok_or (jwt_decode token key (jw_audience svc) (jw_issuer svc)) Forbidden in
  let? hash := claims_hash claims in
  validate_stored_claims svc a claims hash now ;?
  Ok {| vg_claims := claims; vg_claims_hash := hash |}.

#[export] Instance jwt_grant_tokens (svc : JwtApprovalGrantTokenService) : GrantTokenService :=
  {| gt_issue := issue svc; gt_verify := verify svc |}.
End Service.

(** ** What clients rely on *)

(** The claims carry out the decision. *)
Definition grant_binds (a : ApprovalRequest) (dec : ApprovalDecision) (expires_at : Z) (c : ApprovalGrantClaims) : Prop :=
  ad_decision dec = Approve /\ ap_id a = ad_approval_id dec /\ ap_intent_id a = ad_intent_id dec
  /\ ad_approved_amount dec = Some (gc_amount c) /\ gc_approval_id c = ap_id a /\ gc_intent_id c = ap_intent_id a
  /\ gc_intent_hash c = ap_intent_hash a /\ gc_approver c = ad_approved_by dec /\ gc_iat c = ad_decided_at dec
  /\ gc_exp c = expires_at /\ ApprovalGrantClaims_validate c = Ok tt.

(** The verified claims are the row's, within their lifetime. *)
Definition grant_matches (a : ApprovalRequest) (now : Z) (v : VerifiedApprovalGrant) : Prop :=
  let c := vg_claims v in
  (ap_status a = ApApproved \/ ap_status a = ApConsumed) /\ has_persisted_grant a = true
  /\ ap_grant_jti a = Some (gc_jti c) /\ ap_grant_claims_hash a = Some (vg_claims_hash v)
  /\ gc_approval_id c = ap_id a /\ gc_intent_id c = ap_intent_id a /\ gc_intent_hash c = ap_intent_hash a
  /\ ap_approved_amount a = Some (gc_amount c) /\ ap_approved_by a = Some (gc_approver c)
  /\ ap_approved_at a = Some (gc_iat c) /\ gc_exp c = ap_expires_at a /\ (gc_iat c <= now < gc_exp c)%Z.

Class GrantTokenLaws `{UuidNonce} (g : GrantTokenService) : Prop := {
  issued_binds : forall jti nonce a dec expires_at gr,
    gt_issue jti nonce a dec expires_at = Ok gr -> grant_binds a dec expires_at (ag_claims gr);
  verified_matches : forall a now v, gt_verify a now = Ok v -> grant_matches a now v;
  verify_issued : forall jti nonce a dec expires_at gr now,
    fresh_nonce nonce -> gt_issue jti nonce a dec expires_at = Ok gr -> claims_fit (ag_claims gr) ->
    (ad_decided_at dec <= now < expires_at)%Z ->
    gt_verify (approved_columns gr (ad_decided_at dec) a) now
    = Ok {| vg_claims := ag_claims gr; vg_claims_hash := ag_claims_hash gr |}
}.

(** ** Comparing in constant time *)

Lemma fold_difference_zero d l r :
  String.length l = String.length r -> fold_difference d l r = 0%N <-> d = 0%N /\ l = r.
Proof.
  revert d r. induction l as [|a l IH]; intros d [|b r] Hlen; try done; cbn [fold_difference]; [tauto|].
  injection Hlen as Hlen. rewrite (IH _ _ Hlen), N.lor_eq_0_iff, N.lxor_eq_0_iff. split.
  - intros [[-> Hb] ->]. by rewrite (byte_of_inj _ _ Hb).
  - by intros [-> [= -> ->]].
Qed.

(** The constant-time comparison is equality. *)
Lemma constant_time_eq_iff l r : constant_time_eq l r = true <-> l = r.
Proof.
  unfold constant_time_eq. destruct (Nat.eqb_spec (String.length l) (String.length r)) as [Hlen|Hlen]; simpl.
  - rewrite N.eqb_eq, (fold_difference_zero _ _ _ Hlen). tauto.
  - split; [done|]. by intros ->.
Qed.

(** ** Issuing and verifying *)

Section Laws.
Context `{Sha256, JsonText, Jwt, !JwtLaws, UuidNonce}.

Lemma issue_ok (p : MaterialProtector) svc jti nonce a dec expires_at gr :
  issue svc jti nonce a dec expires_at = Ok gr ->
  let c := ag_claims gr in
  grant_binds a dec expires_at c /\ gc_iss c = jw_issuer svc /\ gc_aud c = jw_audience svc /\ gc_jti c = jti
  /\ claims_hash c = Ok (ag_claims_hash gr)
  /\ exists key token, jw_signing_keys svc !! jw_active_key_id svc = Some key
       /\ jwt_encode {| jh_alg := HS256; jh_typ := Some "JWT"; jh_kid := Some (jw_active_key_id svc) |} c key
          = Some token
       /\ mp_seal nonce (grant_material_context (ap_id a) jti) token = Ok (ag_sealed_token gr).
Proof.
  unfold issue. intros Hi. run_inv. bool_inv. cbv zeta. simpl in *. unfold grant_binds. simpl.
  match goal with Hv : ApprovalGrantClaims_validate _ = Ok ?u |- _ => destruct u end.
  split_and!; try done. by do 2 eexists.
Qed.

Lemma verify_ok (p : MaterialProtector) svc a now v : verify svc a now = Ok v -> grant_matches a now v.
Proof.
  unfold verify, validate_stored_claims. intros Hv. run_inv. bool_inv. unfold grant_matches. simpl.
  match goal with Hc : constant_time_eq _ _ = true |- _ => apply constant_time_eq_iff in Hc as -> end.
  simplify_eq. split_and!; try congruence; try lia.
  match goal with Hs : _ || _ = true |- _ => apply orb_true_iff in Hs as [Hs|Hs]; bool_inv; auto end.
Qed.

(** A token issued under one configuration verifies under another one that
    keeps the identity, the signing key and the sealing key. *)
Lemma verify_issued_by (p p' : MaterialProtector) svc svc' jti nonce a dec expires_at gr now :
  (forall context plaintext m, mp_seal (MaterialProtector:=p) nonce context plaintext = Ok m ->
     mp_open (MaterialProtector:=p') context m = Ok plaintext) ->
  jw_issuer svc' = jw_issuer svc -> jw_audience svc' = jw_audience svc ->
  jw_signing_keys svc ⊆ jw_signing_keys svc' ->
  issue (H2:=p) svc jti nonce a dec expires_at = Ok gr -> claims_fit (ag_claims gr) ->
  (ad_decided_at dec <= now < expires_at)%Z ->
  verify (H2:=p') svc' (approved_columns gr (ad_decided_at dec) a) now
  = Ok {| vg_claims := ag_claims gr; vg_claims_hash := ag_claims_hash gr |}.
Proof.
  intros Hopen Hiss Haud Hkeys Hi Hfit Hnow.
  apply issue_ok in Hi as (Hb & Hci & Hca & Hcj & Hh & key & token & Hk & Henc & Hseal).
  destruct Hb as (_ & _ & _ & _ & Hai & Hii & Hih & Hap & Hiat & Hexp & Hval).
  unfold verify. simpl. rewrite Hcj, (Hopen _ _ _ Hseal). simpl.
  rewrite (jwt_text_of _ _ _ _ Henc), (jwt_header_of _ _ _ _ Henc). simpl.
  rewrite (lookup_weaken _ _ _ _ Hk Hkeys). simpl.
  rewrite Hiss, Haud, <- Hci, <- Hca, (jwt_decode_of _ _ _ _ Henc eq_refl Hfit). simpl. rewrite Hh. simpl.
  unfold validate_stored_claims. simpl. rewrite Hval. simpl.
  rewrite Hiss, Haud, !bool_decide_true by congruence. simpl.
  rewrite (proj2 (Z.ltb_ge _ _)), (proj2 (Z.leb_gt _ _)) by lia.
  by rewrite (proj2 (constant_time_eq_iff _ _) eq_refl).
Qed.

#[export] Instance jwt_grant_laws (p : MaterialProtector) `{!MaterialProtectorLaws p} svc :
  GrantTokenLaws (jwt_grant_tokens svc).
Proof.
  split.
  - intros jti nonce a dec expires_at gr Hi. by apply issue_ok in Hi as [Hb _].
  - intros a now v. apply verify_ok.
  - intros jti nonce a dec expires_at gr now Hn Hi Hfit Hnow.
    apply (verify_issued_by p p svc svc jti nonce a dec expires_at); try done.
    intros context plaintext m. by apply open_sealed.
Qed.
End Laws.
