(* ===== verification/ApprovalService.v ===== *)
(** * Approval workflow

    [ApprovalWorkflow] of [src/src/payment/approval.rs], the approver check of
    the same file over [src/src/storage/approver/sqlite.rs], and the expiry job
    of [src/src/job/approval.rs].  An operation is a [Prog]: each repository
    call is one transaction and others may run in between.  The token service
    is the class [GrantTokenService]; the identities and the nonce that an
    operation draws are arguments. *)

From S2P Require Import Prelude Text Money Json Wallet Intent Policy Ledger Records Store PaymentRules Budget PaymentStore Program Authorizer ApprovalStore Sealing GrantTokens.

#[local] Open Scope string_scope.
#[local] Open Scope vault_scope.

Record SubmitApprovalDecision : Type := {
  sd_approval_id : string;
  sd_intent_id : string;
  sd_decision : ApprovalDecisionKind;
  sd_approved_amount : option Amount;
  sd_reason : option string
}.

Record ApprovalDecisionResult : Type := { dr_approval : ApprovalRequest }.

(** ** Approvers *)

(** [IApproverRepository::is_authorized] *)
Definition is_authorized (scenario_id auth_principal : string) : Tx DB bool :=
  treads (fun d =>
    match t_approver d !! (scenario_id, auth_principal), t_scenario d !! scenario_id with
    | Some a, Some s => match t_client d !! sc_client_id s with
                        | Some c => apr_enabled a && sc_enabled s && cl_enabled c
                        | None => false
                        end
    | _, _ => false
    end).

(** [StoredApprovalPrincipalAuthorizer::authorize_approver] *)
Definition authorize_approver (principal scenario_id : string) : Prog DB unit :=
  if principal == UNRESTRICTED_PRINCIPAL then gret tt else
  glift (reject_if (blank principal || blank scenario_id) Forbidden) ;&
  let& authorized := await (is_authorized scenario_id principal) in
  glift (if authorized : bool then Ok tt else Err Forbidden).

(** ** Pieces of a decision *)

(** [approval_decision_from_request] *)
Definition approval_decision_from_request (principal : string) (r : SubmitApprovalDecision) (now : Z)
  : ApprovalDecision :=
  {| ad_approval_id := sd_approval_id r; ad_intent_id := sd_intent_id r; ad_decision := sd_decision r;
     ad_approved_amount := sd_approved_amount r; ad_approved_by := principal; ad_reason := sd_reason r;
     ad_decided_at := now |}.

(** [next_timestamp] *)
Definition next_timestamp (previous now : Z) : Z := Z.max now (i64_saturating_add previous 1).

(** [grant_expiration] *)
Definition grant_expiration (request_expires_at decided_at grant_ttl_seconds : Z) : Z :=
  Z.min request_expires_at (i64_saturating_add decided_at grant_ttl_seconds).

(** The identities one operation draws. *)
Record DecisionIds : Type := {
  di_jti : string;
  di_nonce : string;
  di_event : string;
  di_outbox : string
}.

(** [approval_decision_event] *)
Definition approval_decision_event (id : string) (a : ApprovalRequest) (i : PaymentIntent) (principal : string)
    (granted : bool) (now : Z) : PaymentEvent :=
  {| ev_id := id; ev_intent_id := pi_id i;
     ev_event_type := if granted then EvApprovalGranted else EvApprovalRejected;
     ev_attempt_no := 0; ev_signature_ref := None; ev_tx_hash := None;
     ev_payload := jobject [("approval_id", JString (ap_id a)); ("approved_by", JString principal)];
     ev_created_at := now |}.

Definition approval_payload (a : ApprovalRequest) (i : PaymentIntent) : json :=
  jobject [("approval_id", JString (ap_id a)); ("intent_id", JString (pi_id i)); ("run_id", JString (pi_run_id i))].

(** [approval_decision_message] *)
Definition approval_decision_message (id : string) (a : ApprovalRequest) (i : PaymentIntent) (granted : bool)
    (now : Z) : OutboxMessage :=
  {| ob_id := id; ob_aggregate_type := "payment_approval"; ob_aggregate_id := ap_id a;
     ob_event_type := if granted then "approval_granted" else "approval_rejected";
     ob_destination := "scenario:" ++ pi_scenario_id i ++ ".payments"; ob_run_id := pi_run_id i;
     ob_payload := approval_payload a i; ob_status := ObPending; ob_attempt_count := 0; ob_available_at := now;
     ob_lease_owner := None; ob_lease_expires_at := None; ob_last_error := None; ob_created_at := now;
     ob_delivered_at := None |}.

(** The status, reservation and revision of an intent replaced. *)
Definition with_lifecycle (i : PaymentIntent) (status : PaymentStatus) (reservation : ReservationStatus)
    (reserved : Amount) (next_reconcile_at : option Z) (updated_at : Z) : PaymentIntent :=
  {| pi_id := pi_id i; pi_scenario_id := pi_scenario_id i; pi_run_id := pi_run_id i;
     pi_wallet_id := pi_wallet_id i; pi_policy_id := pi_policy_id i; pi_price_id := pi_price_id i;
     pi_direction := pi_direction i; pi_protocol := pi_protocol i; pi_asset := pi_asset i;
     pi_recipient := pi_recipient i; pi_amount := pi_amount i; pi_settled_amount := pi_settled_amount i;
     pi_resource := pi_resource i; pi_challenge_hash := pi_challenge_hash i;
     pi_request_hash := pi_request_hash i; pi_status := status; pi_reservation_status := reservation;
     pi_reserved_amount := reserved; pi_tx_hash := pi_tx_hash i; pi_settlement_ref := pi_settlement_ref i;
     pi_next_reconcile_at := next_reconcile_at; pi_created_at := pi_created_at i; pi_updated_at := updated_at;
     pi_expires_at := pi_expires_at i; pi_settled_at := pi_settled_at i |}.

(** The intent a rejection leaves behind. *)
Definition rejected_intent (i : PaymentIntent) (now : Z) : PaymentIntent :=
  with_lifecycle i Failed Unreserved Amount.ZERO None (next_timestamp (pi_updated_at i) now).

(** The write that [submit_decision] hands to [decide]. *)
Definition decision_write (ids : DecisionIds) (principal : string) (a : ApprovalRequest) (i : PaymentIntent)
    (dec : ApprovalDecision) (grant : option ApprovalGrant) (now : Z) : ApprovalWrite :=
  let granted := is_some grant in
  {| dw_decision := dec; dw_grant := grant;
     dw_intent_transition := if granted then None else Some (rejected_intent i now, pi_updated_at i);
     dw_event := approval_decision_event (di_event ids) a i principal granted now;
     dw_outbox := [approval_decision_message (di_outbox ids) a i granted now] |}.

(** ** The workflow *)

Record ApprovalWorkflow : Type := { wf_grant_ttl_seconds : Z }.

(** [ApprovalWorkflow::new] *)
Definition ApprovalWorkflow_new (grant_ttl_seconds : Z) : Result Error ApprovalWorkflow :=
  reject_if (grant_ttl_seconds <=? 0)%Z (Config "approval grant TTL must be positive") ;?
  Ok {| wf_grant_ttl_seconds := grant_ttl_seconds |}.

(** [IApprovalRepository::get] and [IIntentRepository::get], with [ok_or_else]. *)
Definition get_approval (id : string) : Prog DB ApprovalRequest :=
  let& a := await (treads (fun d => t_approval d !! id)) in
  glift (ok_or a (NotFound "payment approval")).
Definition get_intent (id : string) : Prog DB PaymentIntent :=
  let& i := await (load_intent id) in
  glift (ok_or i (NotFound "payment intent")).

Definition replay_changed : Error := PaymentConflict "approval decision replay changed".

Section Workflow.
Context `{SolanaPubkey, UrlParser, GrantTokenService}.

(** The answer to a repeated decision. *)
Definition replay_outcome (a : ApprovalRequest) (i : PaymentIntent) (r : SubmitApprovalDecision) (now : Z)
  : Result Error (option ApprovalDecisionResult) :=
  match ap_status a, sd_decision r with
  | ApApproved, Approve =>
      reject_if (sd_approved_amount r != ap_approved_amount a) replay_changed ;?
      let? v := gt_verify a now in
      reject_if ((gc_intent_id (vg_claims v) != pi_id i)
                 || (gc_intent_hash (vg_claims v) != pi_request_hash i)
                 || (gc_amount (vg_claims v) != pi_amount i)) replay_changed ;?
      Ok (Some {| dr_approval := a |})
  | ApConsumed, Approve =>
      if sd_approved_amount r == ap_approved_amount a then Ok (Some {| dr_approval := a |}) else Err replay_changed
  | ApRejected, Reject =>
      if is_none (sd_approved_amount r) then Ok (Some {| dr_approval := a |}) else Err replay_changed
  | _, _ => Err replay_changed
  end.

(** [replay_decision] *)
Definition replay_decision (principal : string) (r : SubmitApprovalDecision) (now : Z)
  : Prog DB (option ApprovalDecisionResult) :=
  let& a := get_approval (sd_approval_id r) in
  if ap_status a == ApPending then gret None else
  glift (reject_if (ap_intent_id a != sd_intent_id r) (PaymentConflict "approval is bound to another intent")) ;&
  let& i := get_intent (sd_intent_id r) in
  authorize_approver principal (pi_scenario_id i) ;&
  glift (reject_if ((ap_requested_by a == principal) || (ap_approved_by a != Some principal)) Forbidden) ;&
  glift (replay_outcome a i r now).

(** [decision_context] *)
Definition decision_context (principal : string) (r : SubmitApprovalDecision) (now : Z)
  : Prog DB (ApprovalRequest * PaymentIntent * ApprovalDecision) :=
  let& a := get_approval (sd_approval_id r) in
  let& i := get_intent (sd_intent_id r) in
  glift (reject_if ((ap_intent_id a != pi_id i) || (ap_intent_id a != sd_intent_id r)
                    || (ap_intent_hash a != pi_request_hash i))
                   (PaymentConflict "approval is bound to another intent")) ;&
  authorize_approver principal (pi_scenario_id i) ;&
  glift (reject_if (ap_requested_by a == principal) Forbidden) ;&
  glift (reject_if ((sd_decision r == Approve) && (sd_approved_amount r != Some (pi_amount i)))
                   (InvalidRequest "fixed-charge approval must authorize the exact intent amount")) ;&
  let dec := approval_decision_from_request principal r now in
  glift (map_err (fun field => InvalidTransition ("invalid approval decision: " ++ field))
                 (validate_decision a dec now)) ;&
  gret (a, i, dec).

(** [submit_decision] *)
Definition submit_decision (wf : ApprovalWorkflow) (ids : DecisionIds) (principal : string)
    (r : SubmitApprovalDecision) (now : Z) : Prog DB ApprovalDecisionResult :=
  let& replay := replay_decision principal r now in
  match replay with
  | Some res => gret res
  | None =>
      let& context := decision_context principal r now in
      let '(a, i, dec) := context in
      let& grant := glift (if ad_decision dec == Approve then
                             let expires_at := grant_expiration (ap_expires_at a) now (wf_grant_ttl_seconds wf) in
                             let? g := gt_issue (di_jti ids) (di_nonce ids) a dec expires_at in
                             Ok (Some g)
                           else Ok None) in
      let& persisted := await (decide_approval (decision_write ids principal a i dec grant now)) in
      gret {| dr_approval := persisted |}
  end.

(** The event and message of a consumption. *)
Definition consumed_event (id : string) (a : ApprovalRequest) (i : PaymentIntent) (now : Z) : PaymentEvent :=
  {| ev_id := id; ev_intent_id := pi_id i; ev_event_type := EvApprovalConsumed; ev_attempt_no := 0;
     ev_signature_ref := None; ev_tx_hash := None; ev_payload := jobject [("approval_id", JString (ap_id a))];
     ev_created_at := now |}.
Definition authorized_message (id : string) (a : ApprovalRequest) (i : PaymentIntent) (now : Z) : OutboxMessage :=
  {| ob_id := id; ob_aggregate_type := "payment_intent"; ob_aggregate_id := pi_id i;
     ob_event_type := "payment_authorized"; ob_destination := "scenario:" ++ pi_scenario_id i ++ ".payments";
     ob_run_id := pi_run_id i; ob_payload := approval_payload a i; ob_status := ObPending; ob_attempt_count := 0;
     ob_available_at := now; ob_lease_owner := None; ob_lease_expires_at := None; ob_last_error := None;
     ob_created_at := now; ob_delivered_at := None |}.

(** [ApprovalWorkflow::consume] *)
Definition consume (ids : DecisionIds) (principal approval_id intent_id : string) (now : Z) : Prog DB PaymentIntent :=
  let& a := get_approval approval_id in
  let& i := get_intent intent_id in
  authorize_approver principal (pi_scenario_id i) ;&
  glift (reject_if ((ap_intent_id a != pi_id i) || (ap_intent_hash a != pi_request_hash i)
                    || (ap_status a != ApApproved) || (pi_status i != PendingApproval))
                   (InvalidTransition "approval grant is not available for this intent")) ;&
  let& v := glift (gt_verify a now) in
  glift (reject_if ((gc_intent_id (vg_claims v) != pi_id i) || (gc_intent_hash (vg_claims v) != pi_request_hash i)
                    || (gc_amount (vg_claims v) != pi_amount i)) Forbidden) ;&
  let authorized := with_lifecycle i Authorized Reserved (gc_amount (vg_claims v)) (pi_next_reconcile_at i)
                      (next_timestamp (pi_updated_at i) now) in
  let& origin := glift (canonical_http_origin (pi_resource authorized)) in
  await (consume_and_reserve
           {| cn_grant := v; cn_intent := authorized; cn_origin := origin; cn_day_started_at := utc_day_start now;
              cn_evaluated_at := now; cn_expected_intent_updated_at := pi_updated_at i; cn_consumed_at := now;
              cn_event := consumed_event (di_event ids) a authorized now;
              cn_outbox := [authorized_message (di_outbox ids) a authorized now] |}).
End Workflow.

(** ** The expiry job *)

Definition MAX_EXPIRATION_BATCH_SIZE : N := 10000.

Record ApprovalExpirationJob : Type := { ej_batch_size : N }.
Record ApprovalExpirationRun : Type := { er_expired : N }.

(** [ApprovalExpirationJob::with_clock] *)
Definition expiration_job_new (batch_size : N) : Result Error ApprovalExpirationJob :=
  reject_if ((batch_size =? 0)%N || (MAX_EXPIRATION_BATCH_SIZE <? batch_size)%N)
            (Config "approval expiry batch_size must be between 1 and 10000") ;?
  Ok {| ej_batch_size := batch_size |}.

(** [ApprovalExpirationJob::run_once], given what its clock returns. *)
Definition expiration_run_once (job : ApprovalExpirationJob) (clock : Result Error Z) : Prog DB ApprovalExpirationRun :=
  let& now := glift clock in
  let& expired := await (expire_due now (ej_batch_size job)) in
  gret {| er_expired := N.min U32_MAX (N.of_nat (length expired)) |}.
