(* ===== verification/ApprovalServiceSafety.v ===== *)
(** * What the approval workflow guarantees

    Decisions and consumptions of [ApprovalService] while every other
    transaction of the vault runs between their calls ([exec] under
    [rtc step]): four eyes on every decision, the exact amount, a rejection
    that fails its own payment, a consumption within the hard limits, tokens
    that survive key rotation, and retries that are answered. *)

From S2P Require Import Prelude Text Money Json Wallet Intent Policy Ledger Records Store LedgerStore PaymentRules Budget PaymentStore Program Authorizer Samples IntentFlow BudgetSafety Lifecycle ApprovalStore ApprovalSafety SigningStore OutboxStore System AuthorizerSafety Sealing GrantTokens ApprovalService.
From stdpp Require Import relations.

#[local] Open Scope string_scope.
#[local] Open Scope vault_scope.

(** ** Calls *)

Section Calls.
Context `{SolanaPubkey, UrlParser}.

Lemma decide_step w d a d' : decide_approval w d = Ok (a, d') -> rtc step d d'.
Proof.
  intros Ha. apply rtc_once, (step_commit (OpDecideApproval w)). simpl. by rewrite (tbind_run _ _ _ _ _ Ha).
Qed.
Lemma consume_step c d i d' : consume_and_reserve c d = Ok (i, d') -> rtc step d d'.
Proof.
  intros Ha. apply rtc_once, (step_commit (OpConsumeApproval c)). simpl. by rewrite (tbind_run _ _ _ _ _ Ha).
Qed.

(** The principal may decide the approvals of the scenario. *)
Definition may_approve (d : DB) (principal scenario_id : string) : Prop :=
  principal = UNRESTRICTED_PRINCIPAL
  \/ exists a s c, t_approver d !! (scenario_id, principal) = Some a /\ apr_enabled a = true
       /\ t_scenario d !! scenario_id = Some s /\ sc_enabled s = true
       /\ t_client d !! sc_client_id s = Some c /\ cl_enabled c = true.

Lemma is_authorized_true scenario_id principal d s :
  is_authorized scenario_id principal d = Ok (true, s) -> may_approve d principal scenario_id.
Proof.
  unfold is_authorized. intros Hi. run_inv. right.
  match goal with Heq : true = _ |- _ => symmetry in Heq end. repeat case_match; try done. bool_inv. by do 3 eexists.
Qed.

Lemma get_approval_exec id d a d1 :
  exec (rtc step) (get_approval id) d (Ok a) d1 -> rtc step d d1 /\ t_approval d1 !! id = Some a.
Proof. unfold get_approval. intros Hx. prog_inv. done. Qed.

Lemma get_intent_exec id d i d1 :
  exec (rtc step) (get_intent id) d (Ok i) d1 ->
  rtc step d d1 /\ exists r, t_intent d1 !! id = Some r /\ ir_intent r = i.
Proof.
  unfold get_intent, load_intent. intros Hx. prog_inv. split; [done|].
  match goal with Hs : ir_intent <$> _ = Some _ |- _ => by apply fmap_Some in Hs as (r & ? & ->); exists r end.
Qed.

Lemma authorize_approver_exec principal scenario_id d u d1 :
  exec (rtc step) (authorize_approver principal scenario_id) d (Ok u) d1 ->
  rtc step d d1 /\ may_approve d1 principal scenario_id.
Proof.
  unfold authorize_approver. case_bool_decide as Hu; intros Hx; prog_inv.
  { split; [done|by left]. }
  match goal with Ha : is_authorized _ _ _ = Ok (?b, _) |- _ =>
    pose proof (read_only _ _ _ Ha) as ->; destruct b; [|done]; by apply is_authorized_true in Ha end.
Qed.
End Calls.

(** ** Rows over time *)

Section Later.
Context `{SolanaPubkey, UrlParser}.

Lemma intent_later d d' k r :
  reachable d -> rtc step d d' -> t_intent d !! k = Some r -> exists r', t_intent d' !! k = Some r' /\ row_evolves r r'.
Proof.
  intros Hr Hs Hk. destruct (run_safe _ _ Hs (reachable_safe _ Hr)) as [_ Hkept]. by apply (hk_intents _ _ Hkept).
Qed.
Lemma approval_later d d' k a :
  reachable d -> rtc step d d' -> t_approval d !! k = Some a ->
  exists a', t_approval d' !! k = Some a' /\ approval_evolves a a'.
Proof.
  intros Hr Hs Hk. destruct (run_safe _ _ Hs (reachable_safe _ Hr)) as [_ Hkept]. by apply (hk_approvals _ _ Hkept).
Qed.
Lemma approval_key d k a : reachable d -> t_approval d !! k = Some a -> ap_id a = k.
Proof. intros [Hdb _]%reachable_safe. apply (approvals_keyed _ (db_approvals _ Hdb)). Qed.
Lemma intent_key d k r : reachable d -> t_intent d !! k = Some r -> pi_id (ir_intent r) = k.
Proof. intros [Hdb _]%reachable_safe. apply (intents_keyed _ (db_intents _ Hdb)). Qed.

(** An approval and its payment. *)
Lemma approval_intent d k a r :
  reachable d -> t_approval d !! k = Some a -> forall id, t_intent d !! id = Some r -> ap_intent_id a = id ->
  ap_intent_id a = pi_id (ir_intent r) /\ ap_intent_hash a = pi_request_hash (ir_intent r).
Proof.
  intros Hr Ha id Hi Hid. pose proof (intent_key _ _ _ Hr Hi) as Hkey. apply reachable_safe in Hr as [Hdb _].
  destruct (db_approvals_bound _ Hdb _ _ Ha) as (r' & Hr' & ? & ?).
  split; congruence.
Qed.

(** What stays the same of an intent. *)
Lemma row_evolves_same r r' :
  row_evolves r r' -> pi_id (ir_intent r') = pi_id (ir_intent r)
  /\ pi_scenario_id (ir_intent r') = pi_scenario_id (ir_intent r)
  /\ pi_amount (ir_intent r') = pi_amount (ir_intent r)
  /\ pi_request_hash (ir_intent r') = pi_request_hash (ir_intent r).
Proof.
  intros E. apply re_identity, same_immutable_identity_iff in E.
  destruct E as (? & ? & _ & _ & _ & _ & _ & _ & _ & _ & ? & _ & _ & ? & _). split_and!; congruence.
Qed.
End Later.

(** ** Decisions *)

Section Decisions.
Context `{SolanaPubkey, UrlParser, UuidNonce} (tokens : GrantTokenService) `{!GrantTokenLaws tokens}.

(** The principal was allowed to decide for this payment's scenario. *)
Definition allowed_for (d d' : DB) (principal intent_id : string) : Prop :=
  exists dm r, rtc step d dm /\ rtc step dm d' /\ t_intent dm !! intent_id = Some r
    /\ may_approve dm principal (pi_scenario_id (ir_intent r)).

Lemma allowed_for_weaken d0 d d' d1 principal intent_id :
  rtc step d0 d -> rtc step d' d1 -> allowed_for d d' principal intent_id -> allowed_for d0 d1 principal intent_id.
Proof. intros Ha Hb (dm & r & Hd & Hd' & Hrest). exists dm, r. split; [by etrans|]. split; [by etrans|done]. Qed.

Lemma approver_checked id principal d i d1 u d2 :
  reachable d -> exec (rtc step) (get_intent id) d (Ok i) d1 ->
  exec (rtc step) (authorize_approver principal (pi_scenario_id i)) d1 (Ok u) d2 ->
  rtc step d d2 /\ (exists r, t_intent d1 !! id = Some r /\ ir_intent r = i) /\ allowed_for d d2 principal id.
Proof.
  intros Hr (Hs1 & r & Hi & <-)%get_intent_exec (Hs2 & Hmay)%authorize_approver_exec.
  split_and!; [by etrans|by exists r|].
  destruct (intent_later d1 d2 _ _ (reachable_steps _ _ Hr Hs1) Hs2 Hi) as (r2 & Hi2 & E).
  apply row_evolves_same in E as (_ & Hsc & _). exists d2, r2. split_and!; [by etrans|done|done|by rewrite Hsc].
Qed.

Lemma replay_decision_some principal r now d res d' :
  reachable d -> exec (rtc step) (replay_decision principal r now) d (Ok (Some res)) d' ->
  let a := dr_approval res in
  rtc step d d' /\ allowed_for d d' principal (sd_intent_id r)
  /\ (exists d1, rtc step d d1 /\ rtc step d1 d' /\ t_approval d1 !! sd_approval_id r = Some a)
  /\ ap_intent_id a = sd_intent_id r /\ ap_requested_by a <> principal /\ ap_approved_by a = Some principal
  /\ match sd_decision r with
     | Approve => ap_status a = ApApproved \/ ap_status a = ApConsumed
     | Reject => ap_status a = ApRejected
     end.
Proof.
  intros Hr Hx. unfold replay_decision in Hx. prog_inv.
  match goal with Hg : exec _ (get_approval _) _ (Ok ?x) ?s |- _ =>
    apply get_approval_exec in Hg as [Hs1 Ha]; rename x into a, s into d1 end.
  case_bool_decide as Hp; [by prog_inv|]. prog_inv.
  match goal with Hg : exec _ (get_intent _) _ (Ok ?x) _, Hc : exec _ (authorize_approver _ _) _ _ ?s |- _ =>
    destruct (approver_checked _ _ _ _ _ _ _ (reachable_steps _ _ Hr Hs1) Hg Hc) as (Hs2 & _ & Hall) end.
  bool_inv. unfold replay_outcome in Hx.
  assert (dr_approval res = a /\ match sd_decision r with
            | Approve => ap_status a = ApApproved \/ ap_status a = ApConsumed
            | Reject => ap_status a = ApRejected end) as [<- Hst].
  { destruct (ap_status a), (sd_decision r); run_inv; try done; repeat case_match; simplify_eq; simpl; auto. }
  split_and!; try done; [by etrans| |by exists d1].
  by eapply allowed_for_weaken; [exact Hs1|apply rtc_refl|].
Qed.

(** What [decision_context] has established about the rows it read. *)
Record context_ok (principal : string) (r : SubmitApprovalDecision) (now : Z) (d d' : DB)
    (a : ApprovalRequest) (i : PaymentIntent) (dec : ApprovalDecision) : Prop := {
  cx_steps : rtc step d d';
  cx_allowed : allowed_for d d' principal (sd_intent_id r);
  cx_approval : exists d1, rtc step d d1 /\ rtc step d1 d' /\ t_approval d1 !! sd_approval_id r = Some a;
  cx_intent : exists d1 row, rtc step d d1 /\ rtc step d1 d' /\ t_intent d1 !! sd_intent_id r = Some row
                /\ ir_intent row = i;
  cx_bound : ap_intent_id a = pi_id i /\ ap_intent_id a = sd_intent_id r /\ ap_intent_hash a = pi_request_hash i;
  cx_four_eyes : ap_requested_by a <> principal;
  cx_amount : sd_decision r = Approve -> sd_approved_amount r = Some (pi_amount i);
  cx_decision : dec = approval_decision_from_request principal r now;
  cx_valid : validate_decision a dec now = Ok tt
}.

Lemma decision_context_ok principal r now d a i dec d' :
  reachable d -> exec (rtc step) (decision_context principal r now) d (Ok (a, i, dec)) d' ->
  context_ok principal r now d d' a i dec.
Proof.
  intros Hr Hx. unfold decision_context in Hx. prog_inv. simplify_eq.
  match goal with Hg : exec _ (get_approval _) _ (Ok ?x) ?s |- _ =>
    apply get_approval_exec in Hg as [Hs1 Ha]; rename s into d1 end.
  match goal with Hg : exec _ (get_intent _) _ (Ok ?x) ?s, Hc : exec _ (authorize_approver _ _) _ _ _ |- _ =>
    destruct (approver_checked _ _ _ _ _ _ _ (reachable_steps _ _ Hr Hs1) Hg Hc) as (Hs2 & (row & Hrow & Hi) & Hall);
    apply get_intent_exec in Hg as [Hs3 _]; apply authorize_approver_exec in Hc as [Hs4 _]; rename s into d2 end.
  match goal with Hv : validate_decision _ _ _ = Ok ?u |- _ => destruct u end.
  bool_inv. split; try done.
  - by etrans.
  - by eapply allowed_for_weaken; [exact Hs1|apply rtc_refl|].
  - by exists d1.
  - exists d2, row. split_and!; try done. by etrans.
  - intros Hap. match goal with Hb : _ && _ = false |- _ => apply andb_false_iff in Hb as [Hb|Hb]; bool_inv; done end.
Qed.

(** What a decision that was just recorded means. *)
Definition decided (wf : ApprovalWorkflow) (r : SubmitApprovalDecision) (now : Z) (d d' : DB) (p : ApprovalRequest)
  : Prop :=
  exists a row, t_approval d !! sd_approval_id r = Some a /\ ap_status a = ApPending /\ (now < ap_expires_at a)%Z
    /\ t_approval d' !! sd_approval_id r = Some p /\ t_intent d' !! sd_intent_id r = Some row
    /\ match sd_decision r with
       | Approve => ap_status p = ApApproved /\ ap_approved_amount p = Some (pi_amount (ir_intent row))
                    /\ (ap_expires_at p <= ap_expires_at a)%Z
                    /\ (ap_expires_at p <= i64_saturating_add now (wf_grant_ttl_seconds wf))%Z
       | Reject => ap_status p = ApRejected /\ pi_status (ir_intent row) = Failed
       end.

Definition granted_by (wf : ApprovalWorkflow) (ids : DecisionIds) (now : Z) (a : ApprovalRequest)
    (dec : ApprovalDecision) (grant : option ApprovalGrant) : Prop :=
  match grant with
  | Some g => gt_issue (di_jti ids) (di_nonce ids) a dec
                (grant_expiration (ap_expires_at a) now (wf_grant_ttl_seconds wf)) = Ok g
  | None => ad_decision dec = Reject
  end.

Lemma replay_decision_queries principal r now : queries (replay_decision principal r now).
Proof.
  unfold replay_decision, get_approval, get_intent, authorize_approver, load_intent, is_authorized. solve_queries.
Qed.
Lemma decision_context_queries principal r now : queries (decision_context principal r now).
Proof.
  unfold decision_context, get_approval, get_intent, authorize_approver, load_intent, is_authorized. solve_queries.
Qed.

Lemma submit_decision_cases wf ids principal r now d calls res d' :
  reachable d -> exec_calls (rtc step) (submit_decision wf ids principal r now) d calls (Ok res) d' ->
  (wrote_nothing calls /\ exec (rtc step) (replay_decision principal r now) d (Ok (Some res)) d')
  \/ exists d0 d1 d2 a i grant, rtc step d d0
       /\ context_ok principal r now d0 d1 a i (approval_decision_from_request principal r now)
       /\ granted_by wf ids now a (approval_decision_from_request principal r now) grant
       /\ rtc step d1 d2
       /\ decide_approval (decision_write ids principal a i (approval_decision_from_request principal r now) grant now)
            d2 = Ok (dr_approval res, d')
       /\ (d' <> d2 -> wrote_only d2 d' calls).
Proof.
  intros Hr Hx. unfold submit_decision in Hx. prog_inv.
  match goal with Hp : exec_calls _ (replay_decision _ _ _) _ _ (Ok ?o) _ |- _ =>
    pose proof (queries_wrote_nothing _ _ _ _ _ _ (replay_decision_queries _ _ _) Hp) as Wrep;
    apply exec_of_calls in Hp as Hrep; clear Hp; apply exec_steps in Hrep as Hs;
    [destruct o as [res'|]|apply (queries_in _), replay_decision_queries] end;
    prog_inv; [left; split; [solve_wrote|done]|right].
  match goal with Hc : exec_calls _ (decision_context _ _ _) _ _ (Ok ?t) _ |- _ =>
    pose proof (queries_wrote_nothing _ _ _ _ _ _ (decision_context_queries _ _ _) Hc) as Wcx;
    destruct t as [[a i] dec]; apply exec_of_calls in Hc as Hcx; clear Hc end.
  prog_inv. apply decision_context_ok in Hcx; [|by eapply reachable_steps].
  pose proof (cx_decision _ _ _ _ _ _ _ _ Hcx) as ->.
  do 6 eexists. split_and!; try eassumption; [|intros Hne; solve_wrote].
  unfold granted_by. simpl in *. case_bool_decide as Hk; run_inv; [done|]. simpl. by destruct (sd_decision r).
Qed.

Lemma decision_committed wf ids principal r now d d1 d2 a i grant p d' :
  reachable d -> context_ok principal r now d d1 a i (approval_decision_from_request principal r now) ->
  granted_by wf ids now a (approval_decision_from_request principal r now) grant -> rtc step d1 d2 ->
  decide_approval (decision_write ids principal a i (approval_decision_from_request principal r now) grant now) d2
  = Ok (p, d') ->
  ap_id p = sd_approval_id r /\ ap_intent_id p = sd_intent_id r /\ ap_requested_by p <> principal
  /\ ap_approved_by p = Some principal /\ decided wf r now d2 d' p.
Proof.
  intros Hr [Hs _ (da & Hsa & Hsa' & Ha) (di & row & Hsi & Hsi' & Hi & Hrow) (Hb1 & Hb2 & Hb3) Hfour Ham _ _] Hg Hs2 Hd.
  pose proof (decide_step _ _ _ _ Hd) as Hs3.
  destruct (approval_later da d2 _ _ (reachable_steps _ _ Hr Hsa) (transitivity Hsa' Hs2) Ha) as (a2 & Ha2 & Ea).
  destruct (intent_later di d' _ _ (reachable_steps _ _ Hr Hsi) (transitivity Hsi' (transitivity Hs2 Hs3)) Hi)
    as (row' & Hrow' & Er).
  apply row_evolves_same in Er as (_ & _ & Hamt & _).
  destruct (ae_identity _ _ Ea) as (Hid & Hii & _ & _ & _ & Hrb & _).
  pose proof (approval_key _ _ _ (reachable_steps _ _ Hr (transitivity Hs Hs2)) Ha2) as Hid2.
  apply decide_approval_shape in Hd as (a2' & i2 & d3 & Ha2' & Hida & Hv & Hbr & Happ). simpl in Hida, Hv, Hbr.
  assert (a2' = a2) as -> by (rewrite Hida in Ha2'; congruence). rewrite Hid2 in Ha2'.
  assert (is_pending_at a2 now = true) as Hpend by (unfold validate_decision in Hv; run_inv; by bool_inv).
  unfold is_pending_at in Hpend. bool_inv. unfold decided.
  destruct (sd_decision r) eqn:Hk.
  - apply decide_approve_ok in Hbr as (g & Hgr & Hvg & _ & -> & -> & _); [|by rewrite Hid2].
    simpl in Hgr. subst grant. simpl in Hg. apply issued_binds in Hg as (_ & _ & _ & Hga & _ & _ & _ & Hgb & _ & Hge & _).
    unfold validate_grant in Hvg. run_inv. bool_inv. simpl in *. rewrite Hgb.
    split_and!; try done; try congruence. exists a2, row'.
    rewrite (ap_same_approval _ _ Happ). simpl. rewrite Hid2, lookup_insert_eq, Hamt.
    specialize (Ham eq_refl). unfold grant_expiration in Hge. split_and!; try done; [congruence|lia..].
  - apply decide_reject_ok in Hbr as (j & expected & d4 & u & Htr & Hu & _ & -> & -> & _); [|by rewrite Hid2].
    simpl. split_and!; try done; try congruence. simpl in Htr.
    destruct grant as [g|]; [by apply issued_binds in Hg as [? _]|]. simpl in Htr. injection Htr as <- <-.
    apply update_intent_row in Hu as (rowj & _ & Hint & Heq & _).
    assert (pi_status (ir_intent (update_columns (rejected_intent i now) rowj)) = Failed) as Hfail by (by rewrite Heq).
    exists a2, (update_columns (rejected_intent i now) rowj).
    rewrite (ap_same_approval _ _ Happ), (ap_same_intent _ _ Happ). cbn [t_approval t_intent set_approval].
    rewrite Hint, Hid2. replace (pi_id (rejected_intent i now)) with (sd_intent_id r) by (simpl; congruence).
    rewrite !lookup_insert_eq. split_and!; done.
Qed.

Lemma decided_differs wf r now d d' p : decided wf r now d d' p -> d' <> d.
Proof.
  intros (a & row & Ha & Hst & _ & Hp & _ & Hk) ->. assert (a = p) as -> by congruence.
  destruct (sd_decision r); destruct Hk as [Hs _]; congruence.
Qed.


Lemma consume_and_reserve_stores c d i d' :
  consume_and_reserve c d = Ok (i, d') ->
  i = cn_intent c /\ exists row, t_intent d' !! pi_id i = Some row /\ ir_intent row = i.
Proof.
  intros (-> & a & d2 & u1 & u2 & u3 & _ & _ & _ & _ & Hu & _ & Happ)%consume_and_reserve_shape. split; [done|].
  apply update_intent_row in Hu as (r & _ & Hi & Heq & _). exists (update_columns (cn_intent c) r).
  by rewrite (ap_same_intent _ _ Happ), Hi, lookup_insert_eq.
Qed.


(** ** Retries *)

(** The row a decision leaves, and what it says of the request. *)
Lemma decided_row w d p d' principal r now a :
  reachable d -> decide_approval w d = Ok (p, d') -> dw_decision w = approval_decision_from_request principal r now ->
  t_approval d !! sd_approval_id r = Some a ->
  t_approval d' !! sd_approval_id r = Some p /\ ap_intent_id p = sd_intent_id r /\ ap_approved_by p = Some principal
  /\ match sd_decision r with
     | Approve => exists g, dw_grant w = Some g /\ p = approved_columns g now a
                    /\ sd_approved_amount r = Some (gc_amount (ag_claims g))
     | Reject => ap_status p = ApRejected /\ sd_approved_amount r = None
     end.
Proof.
  intros Hr Hd Hdec Ha. pose proof (approval_key _ _ _ Hr Ha) as Hkey.
  apply decide_approval_shape in Hd as (a' & i2 & d3 & Ha' & Hid & Hv & Hbr & Happ).
  rewrite Hdec in *. simpl in *. assert (a' = a) as -> by congruence. rewrite (ap_same_approval _ _ Happ).
  unfold validate_decision in Hv. simpl in *. destruct (sd_decision r) eqn:Hk; run_inv; bool_inv.
  - apply decide_approve_ok in Hbr as (g & Hg & Hvg & _ & -> & -> & _); [|done].
    unfold validate_grant in Hvg. run_inv. bool_inv. rewrite Hdec in *. simpl in *. rewrite Hkey, lookup_insert_eq.
    split_and!; try done; [congruence|]. by exists g.
  - apply decide_reject_ok in Hbr as (j & expected & d4 & u & _ & _ & _ & -> & -> & _); [|done].
    simpl. rewrite Hdec, Hkey, lookup_insert_eq. simpl. split_and!; try done.
    by match goal with Hn : is_some ?o = false |- _ => destruct o end.
Qed.

Lemma replay_alone wf ids principal r now d a row :
  t_approval d !! sd_approval_id r = Some a -> t_intent d !! sd_intent_id r = Some row ->
  ap_status a <> ApPending -> ap_intent_id a = sd_intent_id r ->
  run_alone (authorize_approver principal (pi_scenario_id (ir_intent row))) d = (Ok tt, d) ->
  ap_requested_by a <> principal -> ap_approved_by a = Some principal ->
  replay_outcome a (ir_intent row) r now = Ok (Some {| dr_approval := a |}) ->
  run_alone (submit_decision wf ids principal r now) d = (Ok {| dr_approval := a |}, d).
Proof.
  intros Ha Hi Hst Hint Hauth Hreq Hby Hout.
  assert (run_alone (get_approval (sd_approval_id r)) d = (Ok a, d)) as Hga.
  { unfold get_approval. rewrite run_alone_bind, (proj2 (run_alone_await_ok _ _ _ _) eq_refl), Ha. done. }
  assert (run_alone (get_intent (sd_intent_id r)) d = (Ok (ir_intent row), d)) as Hgi.
  { unfold get_intent, load_intent. rewrite run_alone_bind, (proj2 (run_alone_await_ok _ _ _ _) eq_refl), Hi. done. }
  unfold submit_decision, replay_decision.
  rewrite run_alone_bind, run_alone_bind, Hga, bool_decide_false by done.
  rewrite run_alone_bind, bool_decide_true by done. cbn [negb reject_if glift run_alone].
  rewrite run_alone_bind, Hgi, run_alone_bind, Hauth, run_alone_bind, bool_decide_false by done.
  rewrite bool_decide_true by done. cbn [negb orb reject_if glift run_alone]. by rewrite Hout.
Qed.

(** A decision that committed stays answerable: at any later time, whatever
    ran in between, until the grant expires, the approver's exact retry returns
    the stored approval and changes nothing, before and after the payment
    consumed it; for an approval, the sealed token it stored verifies again. *)
Lemma decision_retry_answered w d a p d1 d2 wf ids principal r now jti nonce expires_at a2 row now2 :
  reachable d -> t_approval d !! sd_approval_id r = Some a ->
  decide_approval w d = Ok (p, d1) -> dw_decision w = approval_decision_from_request principal r now ->
  (forall g, dw_grant w = Some g ->
     fresh_nonce nonce /\ gt_issue jti nonce a (dw_decision w) expires_at = Ok g /\ claims_fit (ag_claims g)) ->
  rtc step d1 d2 -> t_approval d2 !! sd_approval_id r = Some a2 -> ap_status a2 <> ApExpired ->
  (ap_status a2 = ApApproved -> now <= now2 < ap_expires_at a2)%Z ->
  t_intent d2 !! sd_intent_id r = Some row ->
  (sd_decision r = Approve -> sd_approved_amount r = Some (pi_amount (ir_intent row))) ->
  run_alone (authorize_approver principal (pi_scenario_id (ir_intent row))) d2 = (Ok tt, d2) ->
  ap_requested_by a2 <> principal ->
  run_alone (submit_decision wf ids principal r now2) d2 = (Ok {| dr_approval := a2 |}, d2).
Proof.
  intros Hr Ha Hd Hdec Hgr Hs Ha2 Hnx Hlive Hrow Ham Hauth Hreq.
  pose proof (reachable_steps _ _ Hr (decide_step _ _ _ _ Hd)) as Hr1.
  pose proof (reachable_steps _ _ Hr1 Hs) as Hr2.
  destruct (decided_row _ _ _ _ _ _ _ _ Hr Hd Hdec Ha) as (Hp & Hint & Hby & Hkind).
  destruct (approval_later _ _ _ _ Hr1 Hs Hp) as (a2' & Ha2' & E). assert (a2' = a2) as -> by congruence.
  destruct (ae_identity _ _ E) as (_ & Hi2 & _ & _ & Hh2 & _).
  pose proof (ae_status _ _ E) as Hle.
  assert (ap_status p <> ApPending) as Hnp.
  { destruct (sd_decision r); [destruct Hkind as (g & _ & -> & _); done|]. destruct Hkind as [-> _]. done. }
  destruct (ae_grant _ _ E Hnp) as (_ & _ & Hamt & Hab & _ & _ & Hex).
  apply (replay_alone _ _ _ _ _ _ _ row); try congruence; [by intros Hx; rewrite Hx in Hle; destruct (ap_status p)|].
  unfold replay_outcome. destruct (sd_decision r) eqn:Hk.
  - destruct Hkind as (g & Hg & Hpc & Hsd). destruct (Hgr g Hg) as (Hn & Hiss & Hfit). rewrite Hpc in *. simpl in *.
    destruct (ap_status a2) eqn:Hst; try done.
    + rewrite bool_decide_true by congruence. simpl.
      pose proof (ae_fixed _ _ E Hnp Hst) as ->.
      pose proof (issued_binds _ _ _ _ _ _ Hiss) as (_ & _ & _ & _ & _ & Hgi & Hgh & _ & _ & Hge & _).
      pose proof (verify_issued _ _ _ _ _ _ now2 Hn Hiss Hfit) as Hver. rewrite Hdec in Hver. simpl in Hver.
      specialize (Hlive eq_refl). specialize (Ham eq_refl). simpl in Hlive. rewrite Hver by lia. simpl.
      destruct (approval_intent _ _ _ _ Hr2 Ha2 _ Hrow Hint) as [Hk1 Hk2]. simpl in Hk1, Hk2.
      by rewrite !bool_decide_true by congruence.
    + by rewrite bool_decide_true by congruence.
  - destruct Hkind as [Hst Hnone]. rewrite Hst in Hle. destruct (ap_status a2); try done. by rewrite Hnone.
Qed.
End Decisions.

(** ** Tokens *)

Section Tokens.
Context `{Sha256, JsonText, Jwt, !JwtLaws, Base64Url, !Base64UrlLaws, Aead, !AeadLaws, UuidNonce}.

Lemma from_resolved_keys_ok issuer audience active keys svc :
  from_resolved_keys issuer audience active keys = Ok svc ->
  jw_issuer svc = issuer /\ jw_audience svc = audience
  /\ forall id key, jw_signing_keys svc !! id = Some key <-> (id, key) ∈ keys.
Proof.
  unfold from_resolved_keys. intros Hn. run_inv.
  match goal with Hf : rfold _ _ _ = Ok _ |- _ => apply ring_insert_fold in Hf as (_ & _ & _ & Hin) end.
  simpl. split_and!; try done. intros id key. rewrite Hin, lookup_empty. split; [intros [?|?]|]; auto. done.
Qed.

(** Grants survive key rotation: a token issued by one configuration and
    stored by the decision verifies to exactly the issued claims and digest,
    at any time of its lifetime, under every later configuration with the same
    issuer and audience whose signing and sealing key rings still hold the old
    keys, whichever keys are active then. *)
Lemma grant_survives_rotation issuer audience active keys svc mactive mkeys ring
    active' keys' svc' mactive' mkeys' ring' jti nonce a dec expires_at g now :
  from_resolved_keys issuer audience active keys = Ok svc -> protector_new mactive mkeys = Ok ring ->
  from_resolved_keys issuer audience active' keys' = Ok svc' -> protector_new mactive' mkeys' = Ok ring' ->
  keys ⊆ keys' -> mkeys ⊆ mkeys' -> fresh_nonce nonce ->
  gt_issue (GrantTokenService:=jwt_grant_tokens (H2:=ring_protector ring) svc) jti nonce a dec expires_at = Ok g ->
  claims_fit (ag_claims g) -> (ad_decided_at dec <= now < expires_at)%Z ->
  gt_verify (GrantTokenService:=jwt_grant_tokens (H2:=ring_protector ring') svc')
    (approved_columns g (ad_decided_at dec) a) now
  = Ok {| vg_claims := ag_claims g; vg_claims_hash := ag_claims_hash g |}.
Proof.
  intros (Hi & Ha & Hk)%from_resolved_keys_ok (Hring & _ & _ & Hm)%protector_new_ok
    (Hi' & Ha' & Hk')%from_resolved_keys_ok (_ & _ & _ & Hm')%protector_new_ok Hsub Hmsub Hn Hiss Hfit Hnow.
  apply (verify_issued_by (ring_protector ring) (ring_protector ring') svc svc' jti nonce a dec expires_at);
    try done; try congruence.
  - intros context plaintext m. apply (open_retained ring ring'); [done| |done].
    apply map_subseteq_spec. intros id key Hid. apply Hm', Hmsub, Hm, Hid.
  - apply map_subseteq_spec. intros id key Hid. apply Hk', Hsub, Hk, Hid.
Qed.

(** Only the stored grant verifies: a successful verification means that
    the row's envelope opened, in the context of this approval and token
    identity, to an HS256 token of a key of the ring, that its claims are the
    row's in every field and in digest, and that its lifetime covers now. *)
Lemma verified_grant_is_stored svc ring a now v :
  gt_verify (GrantTokenService:=jwt_grant_tokens (H2:=ring_protector ring) svc) a now = Ok v ->
  grant_matches a now v /\ gc_iss (vg_claims v) = jw_issuer svc /\ gc_aud (vg_claims v) = jw_audience svc
  /\ claims_hash (vg_claims v) = Ok (vg_claims_hash v)
  /\ exists sealed token header kid key,
       ap_sealed_grant_token a = Some sealed
       /\ open ring (grant_material_context (ap_id a) (gc_jti (vg_claims v))) sealed = Ok token
       /\ jwt_decode_header token = Some header /\ jh_alg header = HS256 /\ jh_kid header = Some kid
       /\ jw_signing_keys svc !! kid = Some key
       /\ jwt_decode token key (jw_audience svc) (jw_issuer svc) = Some (vg_claims v).
Proof.
  intros Hv. pose proof (verify_ok _ _ _ _ _ Hv) as Hm. split; [done|]. destruct Hm as (_ & _ & Hj & _).
  simpl in Hv. unfold verify in Hv. run_inv. bool_inv. simpl in *.
  match goal with Hs : validate_stored_claims _ _ _ _ _ = Ok _ |- _ =>
    unfold validate_stored_claims in Hs; run_inv; bool_inv end.
  split_and!; try done. do 5 eexists. split_and!; try eassumption.
  match goal with Ho : open ring _ _ = Ok _ |- _ => by simplify_eq end.
Qed.
End Tokens.

(** ** An approval from request to payment *)

Module SampleWorkflow.
Definition digest : Sha256 := {| sha256 := fun _ => "bbbbbbbbbbbbbbbbbbbbbbbbbbbbbbbb" |}.
Definition key : string := "0123456789abcdef0123456789abcdef".
Definition service : JwtApprovalGrantTokenService :=
  {| jw_issuer := "agentvault"; jw_audience := "agentvault"; jw_active_key_id := "j1";
     jw_signing_keys := {["j1" := key]} |}.
Definition rotated : JwtApprovalGrantTokenService :=
  {| jw_issuer := "agentvault"; jw_audience := "agentvault"; jw_active_key_id := "j2";
     jw_signing_keys := <["j2" := SampleRing.nonce]> {["j1" := key]} |}.

Definition claims : ApprovalGrantClaims :=
  {| gc_iss := "agentvault"; gc_aud := "agentvault"; gc_jti := "jti-1"; gc_approval_id := "approval-1";
     gc_intent_id := "intent-2"; gc_intent_hash := "request-1"; gc_amount := 290000; gc_approver := "admin-1";
     gc_iat := 1700000050; gc_exp := 1700000350 |}.
Definition header : JwtHeader := {| jh_alg := HS256; jh_typ := Some "JWT"; jh_kid := Some "j1" |}.
(** A token codec that knows one token. *)
Definition jwt : Jwt :=
  {| jwt_encode := fun h c k =>
       if bool_decide (jh_alg h = HS256 /\ jh_typ h = Some "JWT" /\ jh_kid h = Some "j1")
          && bool_decide (c = claims) && bool_decide (k = key) then Some "token" else None;
     jwt_decode_header := fun t => if t == "token" then Some header else None;
     jwt_decode := fun t k aud iss =>
       if (t == "token") && (k == key) && (aud == "agentvault") && (iss == "agentvault") then Some claims else None |}.

Definition workflow : ApprovalWorkflow := {| wf_grant_ttl_seconds := 300 |}.
Definition ids (suffix : string) : DecisionIds :=
  {| di_jti := "jti-1"; di_nonce := SampleRing.nonce; di_event := "event-" ++ suffix; di_outbox := "outbox-" ++ suffix |}.
Definition admin : PaymentScenarioApprover :=
  {| apr_scenario_id := "scenario-1"; apr_auth_principal := "admin-1"; apr_enabled := true;
     apr_created_at := 1690000000; apr_updated_at := 1690000000 |}.
Definition with_admin (d : DB) : DB :=
  {| t_client := t_client d; t_scenario := t_scenario d; t_approver := {[("scenario-1", "admin-1") := admin]};
     t_wallet := t_wallet d; t_key := t_key d; t_policy := t_policy d; t_price := t_price d; t_intent := t_intent d;
     t_event := t_event d; t_approval := t_approval d; t_ledger := t_ledger d; t_outbox := t_outbox d |}.
Definition pending_db : DB := with_admin Sample.pending_db.
Definition request (kind : ApprovalDecisionKind) (amount : option N) : SubmitApprovalDecision :=
  {| sd_approval_id := "approval-1"; sd_intent_id := "intent-2"; sd_decision := kind; sd_approved_amount := amount;
     sd_reason := None |}.
Definition approve : SubmitApprovalDecision := request Approve (Some 290000%N).
Definition decided_at : Z := 1700000050.
End SampleWorkflow.

#[local] Existing Instance Sample.codec.
#[local] Existing Instance Sample.parser.
#[local] Existing Instance SampleWorkflow.digest.
#[local] Existing Instance SampleRequest.serializer.
#[local] Existing Instance SampleWorkflow.jwt.
#[local] Existing Instance SampleRing.base64.
#[local] Existing Instance SampleRing.cipher.
#[local] Existing Instance SampleRing.uuids.

#[export] Instance sample_jwt_laws : @JwtLaws SampleWorkflow.jwt.
Proof.
  split; intros [alg typ kid] c k token; cbn [jwt_encode SampleWorkflow.jwt jh_alg jh_typ jh_kid]; intros He;
    case_match; simplify_eq; bool_inv; [|done|].
  - match goal with Hh : _ /\ _ |- _ => destruct Hh as (-> & -> & ->) end. done.
  - intros _ _. subst. done.
Qed.

Definition sample_tokens : GrantTokenService :=
  jwt_grant_tokens (H2:=ring_protector SampleRing.ring) SampleWorkflow.service.
#[export] Instance sample_ring_laws : MaterialProtectorLaws (ring_protector SampleRing.ring).
Proof. apply ring_protector_laws. apply (protector_new_ok "k1" [("k1", "key-one")]). vm_compute. reflexivity. Qed.
#[export] Instance sample_token_laws : GrantTokenLaws sample_tokens.
Proof. apply jwt_grant_laws, _. Qed.
#[local] Existing Instance sample_tokens.

Definition sample_submit : Prog DB ApprovalDecisionResult :=
  submit_decision SampleWorkflow.workflow (SampleWorkflow.ids "a") "admin-1" SampleWorkflow.approve
    SampleWorkflow.decided_at.
Definition sample_granted_db : DB := snd (run_alone sample_submit SampleWorkflow.pending_db).
Definition sample_consume : Prog DB PaymentIntent :=
  consume (SampleWorkflow.ids "b") "admin-1" "approval-1" "intent-2" 1700000060.
Definition sample_paid_db : DB := snd (run_alone sample_consume sample_granted_db).
Definition sample_approval (d : DB) : ApprovalRequest :=
  match t_approval d !! "approval-1" with Some a => a | None => Sample.approval end.

Lemma sample_submit_alone :
  run_alone sample_submit SampleWorkflow.pending_db
  = (Ok {| dr_approval := sample_approval sample_granted_db |}, sample_granted_db).
Proof. vm_compute. reflexivity. Qed.
Lemma sample_consume_alone :
  exists i, run_alone sample_consume sample_granted_db = (Ok i, sample_paid_db) /\ pi_id i = "intent-2".
Proof. eexists. split; vm_compute; reflexivity. Qed.

Lemma sample_workflow_reachable : reachable SampleWorkflow.pending_db.
Proof.
  eapply reachable_steps; [exact sample_db_reachable|]. eapply rtc_l.
  - apply (step_commit (OpAuthorize Sample.request_approval) _ Sample.pending_db). vm_compute. reflexivity.
  - apply rtc_once, step_catalog. split_and!; reflexivity.
Qed.
Lemma sample_granted_steps : rtc step SampleWorkflow.pending_db sample_granted_db.
Proof.
  pose proof (run_alone_exec (rtc step) sample_submit SampleWorkflow.pending_db) as Hx.
  eapply exec_steps, Hx. unfold sample_submit, submit_decision, replay_decision, decision_context, get_approval,
    get_intent, authorize_approver, load_intent, is_authorized.
  repeat first [progress solve_steps | apply calls_in_await; intros ? ? ?; apply decide_step].
Qed.

(** Whether a list of transactions has one that decides the approval. *)
Definition decides (id : string) (c : DB * DB) : bool :=
  bool_decide (ap_status <$> t_approval (fst c) !! id = Some ApPending)
  && negb (bool_decide (ap_status <$> t_approval (snd c) !! id = Some ApPending)).
Lemma decides_writes id calls : existsb (decides id) calls = true -> ~ wrote_nothing calls.
Proof.
  intros (c & Hin & Hc)%existsb_exists Hn. unfold wrote_nothing in Hn. rewrite Forall_forall in Hn.
  unfold decides in Hc. rewrite (Hn c) in Hc by by apply list_elem_of_In. bool_inv. done.
Qed.
Lemma sample_submit_decides : existsb (decides "approval-1") (alone_calls sample_submit SampleWorkflow.pending_db) = true.
Proof. vm_compute. reflexivity. Qed.


Lemma sample_consume_exec :
  exists i, exec (rtc step) sample_consume sample_granted_db (Ok i) sample_paid_db /\ pi_id i = "intent-2".
Proof.
  destruct sample_consume_alone as (i & Hr & Hid). exists i. split; [|exact Hid].
  exact (run_alone_exec_eq (rtc step) _ _ _ _ Hr).
Qed.
Lemma sample_granted_reachable : reachable sample_granted_db.
Proof. exact (reachable_steps _ _ sample_workflow_reachable sample_granted_steps). Qed.


Definition sample_grant : option ApprovalGrant :=
  match gt_issue "jti-1" SampleRing.nonce Sample.approval
          (approval_decision_from_request "admin-1" SampleWorkflow.approve SampleWorkflow.decided_at) 1700000350 with
  | Ok g => Some g
  | Err _ => None
  end.
Definition sample_decision_write : ApprovalWrite :=
  decision_write (SampleWorkflow.ids "a") "admin-1" Sample.approval Sample.pending
    (approval_decision_from_request "admin-1" SampleWorkflow.approve SampleWorkflow.decided_at) sample_grant
    SampleWorkflow.decided_at.
