(* ===== verification/SigningService.v ===== *)
(** * Signing of authorized payments

    [OutboundSigner] of [src/src/payment/signing.rs]: it revalidates the
    authorization it reads, checks balances, lets the protocol adapter and the
    wallet signer produce a credential, seals it and commits it, or opens the
    credential that is already on record.  An operation is a [Prog].

    The protocol adapters, the balance source, the wallet signer and the
    material protector are arguments, as are the drawn identities.  [serde_json]
    is [JsonText] and [JsonParse]: the parser returns the members of an object
    in document order. *)

From S2P Require Import Prelude Text Money Json Wallet Intent Policy Ledger Records Store PaymentRules Budget PaymentStore Program Authorizer SigningStore Sealing.

#[local] Open Scope string_scope.
#[local] Open Scope vault_scope.

Record SignAuthorizedPayment : Type := {
  sp_intent_id : string;
  sp_challenge : PaymentChallenge
}.

Record SignedOutboundPayment : Type := {
  so_intent : PaymentIntent;
  so_credential : PaymentCredential;
  so_replayed : bool
}.

(** ** Collaborators *)

Record WalletBalanceSnapshot : Type := {
  wbs_asset_available : Amount;
  wbs_native_available : Amount;
  wbs_minimum_native_required : Amount
}.
Record IntentBoundPaymentSignatureRequest : Type := {
  sr_intent : PaymentIntent;
  sr_challenge : PaymentChallenge;
  sr_wallet : PaymentWallet;
  sr_active_key : EncryptedWalletKeyVersion;
  sr_protocol_request : ProtocolSigningRequest
}.
Record WalletPaymentSignature : Type := {
  ws_wallet_id : string;
  ws_key_version : N;
  ws_signer_address : string;
  ws_bytes : string
}.

(** [OutboundSigningDependencies], less the repository and the protector. *)
Record OutboundSigner : Type := {
  os_protocols : ProtocolRegistry;
  os_balances : Wallet -> AssetIdentity -> Result Error WalletBalanceSnapshot;
  os_signer : IntentBoundPaymentSignatureRequest -> Result Error WalletPaymentSignature
}.

(** The identities one signing draws. *)
Record SigningIds : Type := {
  gi_nonce : string;
  gi_request_event : string;
  gi_signed_event : string;
  gi_outbox : string
}.

(** ** Credentials as text *)

(** [serde_json::from_slice] *)
Class JsonParse : Type := { json_from_slice : string -> option json }.
Class JsonTextLaws `{JsonText, JsonParse} : Prop := {
  json_from_to : forall j text, json_to_vec j = Ok text -> json_from_slice text = Some j
}.

(** The serde form of a credential: a struct, in the order of its fields. *)
Definition credential_to_json (c : PaymentCredential) : json :=
  JObject [("protocol", JString (cr_protocol c)); ("challenge_hash", JString (cr_challenge_hash c));
           ("credential_hash", JString (cr_credential_hash c)); ("payload", cr_payload c)].
(** A field given twice is refused. *)
Definition no_repeated_fields (j : json) : bool :=
  match j with JObject m => bool_decide (NoDup m.*1) | _ => false end.
Definition credential_from_json (j : json) : option PaymentCredential :=
  if known_fields ["protocol"; "challenge_hash"; "credential_hash"; "payload"] j && no_repeated_fields j then
    protocol ← jget_str "protocol" j;
    challenge_hash ← jget_str "challenge_hash" j;
    credential_hash ← jget_str "credential_hash" j;
    payload ← jget "payload" j;
    Some {| cr_protocol := protocol; cr_challenge_hash := challenge_hash; cr_credential_hash := credential_hash;
            cr_payload := payload |}
  else None.

(** [PaymentValidation::outbound_credential_context] *)
Definition outbound_credential_context (intent_id : string) : string :=
  "payment:" ++ intent_id ++ ":outbound-credential".

(** ** Validation *)

(** [OutboundSigner::validate_request] *)
Definition validate_sign_request (principal : string) (command : SignAuthorizedPayment) : Result Error unit :=
  reject_if (blank principal) Unauthenticated ;?
  validate_identifier "intent_id" (sp_intent_id command) ;?
  reject_if (blank (ch_challenge_hash (sp_challenge command)) || blank (ch_nonce (sp_challenge command)))
            (InvalidRequest "payment challenge identity is incomplete").

(** [validate_replay_status] *)
Definition validate_replay_status (i : PaymentIntent) : Result Error unit :=
  match pi_status i with
  | Signed | Submitted | PendingSettlement | Settled | Unknown => Ok tt
  | _ => Err (InvalidTransition "payment intent has no replayable signed credential")
  end.

(** [validate_credential] *)
Definition validate_credential (identity : OutboundSigningIdentity) (c : PaymentCredential) : Result Error unit :=
  reject_if ((cr_protocol c != pi_protocol (si_intent identity))
             || (cr_challenge_hash c != ch_challenge_hash (si_challenge identity))
             || blank (cr_credential_hash c)
             || (256 <? str_len (cr_credential_hash c))%N
             || has_control (cr_credential_hash c))
            (PaymentProtocol "payment credential is not bound to the authorized intent").

(** [str::eq_ignore_ascii_case] *)
Definition eq_ignore_ascii_case (l r : string) : bool := to_ascii_lowercase l == to_ascii_lowercase r.

Definition WALLET_KEY_ENCRYPTION_SCHEME : string := "aes-256-gcm-uuid-v4-nonce-envelope-v1".

Section Validation.
Context `{SolanaPubkey, UrlParser, UuidNonce}.

(** [Wallet::address_matches] *)
Definition address_matches (w : Wallet) (other : string) : bool :=
  wallet_addresses_match (w_algorithm w) (w_address w) other.

(** [validate_common_identity] *)
Definition validate_common_identity (principal : string) (command : SignAuthorizedPayment)
    (identity : OutboundSigningIdentity) (now : Z) : Result Error unit :=
  let i := si_intent identity in
  let c := si_challenge identity in
  reject_if (((principal != UNRESTRICTED_PRINCIPAL) && negb (authenticates (si_client identity) principal))
             || negb (sc_enabled (si_scenario identity))
             || negb (belongs_to (si_scenario identity) (cl_id (si_client identity)))
             || (pi_scenario_id i != sc_id (si_scenario identity)))
            Forbidden ;?
  reject_if ((pi_id i != sp_intent_id command)
             || (c != sp_challenge command)
             || (ch_scenario_id c != sc_id (si_scenario identity))
             || is_some (ch_price_id c))
            (PaymentConflict "payment challenge does not match its durable intent") ;?
  reject_if ((pi_direction i != Outbound)
             || (pi_protocol i != ch_protocol c)
             || (pi_asset i != ch_asset c)
             || (pi_recipient i != ch_recipient c)
             || (pi_amount i != ch_amount c)
             || (pi_resource i != ch_resource c)
             || (pi_challenge_hash i != Some (ch_challenge_hash c))
             || (pi_expires_at i != Some (ch_expires_at c)))
            (Storage "outbound intent and durable challenge binding is invalid") ;?
  map_err (fun field => Storage ("invalid signing intent " ++ field)) (PaymentIntent_validate i) ;?
  reject_if ((now <? 0)%Z || (ch_expires_at c <=? now)%Z)
            (InvalidTransition "payment challenge expired before signing or replay") ;?
  let? canonical := map_err (fun _ => Storage "payment recipient is invalid for its network")
                            (canonicalize_payment_recipient (as_network (pi_asset i)) (pi_recipient i)) in
  reject_if (canonical != pi_recipient i) (Storage "payment recipient is not stored in canonical form").

(** The policy part of [validate_authorization]. *)
Definition authorization_covered (a : OutboundSigningAuthorization) (policy_id wallet_id origin : string)
    (limits : PaymentPolicyLimits) : bool :=
  let i := si_intent (sa_identity a) in
  let p := sa_policy a in
  negb (negb (po_enabled p)
        || (po_id p != policy_id)
        || (po_scenario_id p != sc_id (si_scenario (sa_identity a)))
        || negb (allows_wallet p wallet_id)
        || negb (allows_protocol p (pi_protocol i))
        || negb (allows_asset p (pi_asset i))
        || negb (allows_payment_recipient p (as_network (pi_asset i)) (pi_recipient i))
        || negb (allows_origin p origin)
        || negb (BudgetUnit_matches (po_budget_unit p) (pi_asset i))
        || (pl_max_per_payment limits <? pi_amount i)%N
        || is_none_or (fun hard_limit => (hard_limit <? pi_amount i)%N) (hard_daily_limit limits)).

(** The wallet part. *)
Definition authorization_wallet_ready (a : OutboundSigningAuthorization) (wallet_id : string) : bool :=
  let i := si_intent (sa_identity a) in
  let w := sa_wallet a in
  negb ((w_id (pw_wallet w) != wallet_id)
        || negb (signing_ready_for_payment_network w (as_network (pi_asset i)))
        || (pw_custody w != Local)
        || (pw_budget_unit w != Some (po_budget_unit (sa_policy a)))
        || is_some_and (fun limit => (limit <? pi_amount i)%N) (pw_max_per_payment w)
        || is_some_and (fun limit => (limit <? pi_amount i)%N) (pw_max_per_day w)).

(** The key part. *)
Definition authorization_key_ready (a : OutboundSigningAuthorization) (wallet_id : string) (now : Z) : bool :=
  let key := sa_active_key a in
  let w := sa_wallet a in
  negb ((k_wallet_id key != wallet_id)
        || (pw_active_key_version w != Some (k_version key))
        || (k_version key =? 0)%N
        || (k_status key != KeyActive)
        || is_some (k_retired_at key)
        || (now <? k_activated_at key)%Z
        || negb (eq_ignore_ascii_case (k_algorithm key) (w_algorithm (pw_wallet w)))
        || negb (address_matches (pw_wallet w) (k_address key))
        || (k_public_key key != w_public_key (pw_wallet w))
        || (k_encryption_scheme key != WALLET_KEY_ENCRYPTION_SCHEME)
        || blank (k_kek_id key)
        || is_empty (k_wrapped_data_key key)
        || is_err (nonce_parse (k_wrap_nonce key))
        || is_empty (k_key_ciphertext key)
        || is_err (nonce_parse (k_key_nonce key))
        || is_empty (k_aad key)).

(** [validate_authorization] *)
Definition validate_authorization (a : OutboundSigningAuthorization) (now : Z) : Result Error unit :=
  let i := si_intent (sa_identity a) in
  reject_if ((pi_status i != Authorized) || (pi_reservation_status i != Reserved) || (pi_reserved_amount i != pi_amount i))
            (InvalidTransition "outbound payment must hold its complete budget reservation before signing") ;?
  let? policy_id := ok_or (pi_policy_id i) (Storage "authorized intent has no policy binding") in
  let? wallet_id := ok_or (pi_wallet_id i) (Storage "authorized intent has no wallet binding") in
  let? origin := canonical_http_origin (pi_resource i) in
  let? limits := ok_or (limits_for (sa_policy a) Outbound)
                       (PolicyDenied "payment policy no longer allows outbound payments") in
  reject_if (negb (authorization_covered a policy_id wallet_id origin limits))
            (PolicyDenied "payment no longer matches its policy authorization") ;?
  map_err (fun field => Storage ("invalid signing policy " ++ field)) (PaymentPolicy_validate (sa_policy a)) ;?
  reject_if (negb (authorization_wallet_ready a wallet_id))
            (PolicyDenied "payment wallet is not enabled for local signing") ;?
  map_err (fun field => Storage ("invalid payment wallet " ++ field)) (validate_payment_metadata (sa_wallet a)) ;?
  reject_if (negb (authorization_key_ready a wallet_id now))
            (PolicyDenied "wallet has no matching active local key").

(** [validate_signature_binding] *)
Definition validate_signature_binding (a : OutboundSigningAuthorization) (signature : WalletPaymentSignature)
  : Result Error unit :=
  reject_if ((pi_wallet_id (si_intent (sa_identity a)) != Some (ws_wallet_id signature))
             || (ws_key_version signature != k_version (sa_active_key a))
             || negb (address_matches (pw_wallet (sa_wallet a)) (ws_signer_address signature))
             || is_empty (ws_bytes signature))
            (Crypto "wallet signer returned material for a different key binding").
End Validation.

(** ** The write *)

Definition next_signing_timestamp (previous now : Z) : Z := Z.max now (i64_saturating_add previous 1).

(** The intent that [persist_credential] stores. *)
Definition signed_intent (i : PaymentIntent) (now : Z) : PaymentIntent :=
  {| pi_id := pi_id i; pi_scenario_id := pi_scenario_id i; pi_run_id := pi_run_id i;
     pi_wallet_id := pi_wallet_id i; pi_policy_id := pi_policy_id i; pi_price_id := pi_price_id i;
     pi_direction := pi_direction i; pi_protocol := pi_protocol i; pi_asset := pi_asset i;
     pi_recipient := pi_recipient i; pi_amount := pi_amount i; pi_settled_amount := pi_settled_amount i;
     pi_resource := pi_resource i; pi_challenge_hash := pi_challenge_hash i;
     pi_request_hash := pi_request_hash i; pi_status := Signed; pi_reservation_status := pi_reservation_status i;
     pi_reserved_amount := pi_reserved_amount i; pi_tx_hash := pi_tx_hash i;
     pi_settlement_ref := pi_settlement_ref i; pi_next_reconcile_at := Some (i64_saturating_add now 1);
     pi_created_at := pi_created_at i; pi_updated_at := next_signing_timestamp (pi_updated_at i) now;
     pi_expires_at := pi_expires_at i; pi_settled_at := pi_settled_at i |}.

(** [signing_events] *)
Definition signing_events (ids : SigningIds) (i : PaymentIntent) (c : PaymentCredential)
    (a : OutboundSigningAuthorization) (sealed : SealedSensitiveMaterial) (digest_hash : string) (now : Z)
  : list PaymentEvent :=
  [{| ev_id := gi_request_event ids; ev_intent_id := pi_id i; ev_event_type := EvSignRequested; ev_attempt_no := 0;
      ev_signature_ref := None; ev_tx_hash := None;
      ev_payload := jobject [("protocol", JString (pi_protocol i));
                             ("wallet_id", JString (w_id (pw_wallet (sa_wallet a))));
                             ("key_version", JNumber (Z.of_N (k_version (sa_active_key a))));
                             ("digest_hash", JString digest_hash)];
      ev_created_at := now |};
   {| ev_id := gi_signed_event ids; ev_intent_id := pi_id i; ev_event_type := EvSigned; ev_attempt_no := 0;
      ev_signature_ref := Some (cr_credential_hash c); ev_tx_hash := None;
      ev_payload := jobject [("credential_hash", JString (cr_credential_hash c));
                             ("sealed_credential", sealed_to_json sealed)];
      ev_created_at := now |}].

(** [signed_message] *)
Definition signed_message (ids : SigningIds) (a : OutboundSigningAuthorization) (c : PaymentCredential) (now : Z)
  : OutboxMessage :=
  let i := si_intent (sa_identity a) in
  {| ob_id := gi_outbox ids; ob_aggregate_type := "payment_intent"; ob_aggregate_id := pi_id i;
     ob_event_type := "payment_signed";
     ob_destination := "client:" ++ cl_id (si_client (sa_identity a)) ++ ".payments"; ob_run_id := pi_run_id i;
     ob_payload := jobject [("intent_id", JString (pi_id i)); ("scenario_id", JString (pi_scenario_id i));
                            ("run_id", JString (pi_run_id i)); ("credential_hash", JString (cr_credential_hash c))];
     ob_status := ObPending; ob_attempt_count := 0; ob_available_at := now; ob_lease_owner := None;
     ob_lease_expires_at := None; ob_last_error := None; ob_created_at := now; ob_delivered_at := None |}.

Record PreparedCredential : Type := {
  pc_credential : PaymentCredential;
  pc_sealed_credential : SealedSensitiveMaterial;
  pc_digest_hash : string
}.

(** The guard and the write of [persist_credential]. *)
Definition signing_guard (principal : string) (a : OutboundSigningAuthorization) (policy_id wallet_id : string)
    (now : Z) : SigningGuard :=
  let identity := sa_identity a in
  {| sg_principal := principal; sg_client_id := cl_id (si_client identity);
     sg_expected_client_updated_at := cl_updated_at (si_client identity);
     sg_scenario_id := sc_id (si_scenario identity);
     sg_expected_scenario_updated_at := sc_updated_at (si_scenario identity);
     sg_policy_id := policy_id; sg_expected_policy_updated_at := po_updated_at (sa_policy a);
     sg_wallet_id := wallet_id; sg_expected_wallet_updated_at := pw_updated_at (sa_wallet a);
     sg_expected_key_version := k_version (sa_active_key a);
     sg_expected_intent_updated_at := pi_updated_at (si_intent identity);
     sg_challenge_hash := ch_challenge_hash (si_challenge identity); sg_evaluated_at := now |}.
Definition signing_write (ids : SigningIds) (principal : string) (a : OutboundSigningAuthorization)
    (prepared : PreparedCredential) (policy_id wallet_id : string) (now : Z) : SigningWrite :=
  let signed := signed_intent (si_intent (sa_identity a)) now in
  {| gw_intent := signed; gw_challenge := si_challenge (sa_identity a);
     gw_credential_hash := cr_credential_hash (pc_credential prepared);
     gw_sealed_credential := pc_sealed_credential prepared;
     gw_guard := signing_guard principal a policy_id wallet_id now;
     gw_events := signing_events ids signed (pc_credential prepared) a (pc_sealed_credential prepared)
                    (pc_digest_hash prepared) now;
     gw_outbox := [signed_message ids a (pc_credential prepared) now] |}.

(** ** The service *)

Section Service.
Context `{SolanaPubkey, UrlParser, UuidNonce, Sha256, JsonText, JsonParse, MaterialProtector}.

(** [open_persisted] *)
Definition open_persisted (p : PersistedSignedPayment) (replayed : bool) : Result Error SignedOutboundPayment :=
  let? plaintext := mp_open (outbound_credential_context (pi_id (si_intent (ps_identity p)))) (ps_sealed_credential p) in
  let? credential := ok_or (j ← json_from_slice plaintext; credential_from_json j)
                           (Crypto "sealed payment credential is invalid") in
  validate_credential (ps_identity p) credential ;?
  reject_if (cr_credential_hash credential != ps_credential_hash p)
            (Storage "sealed credential hash does not match its signed event") ;?
  Ok {| so_intent := si_intent (ps_identity p); so_credential := credential; so_replayed := replayed |}.

(** [create_credential] *)
Definition create_credential (svc : OutboundSigner) (ids : SigningIds) (a : OutboundSigningAuthorization) (now : Z)
  : Result Error PreparedCredential :=
  let i := si_intent (sa_identity a) in
  let c := si_challenge (sa_identity a) in
  let w := sa_wallet a in
  let? adapter := registry_get (os_protocols svc) (pi_protocol i) in
  validate_payment adapter c i ;?
  let? balances := os_balances svc (pw_wallet w) (pi_asset i) in
  reject_if (wbs_asset_available balances <? pi_amount i)%N
            (PolicyDenied "wallet token balance is insufficient for this payment") ;?
  reject_if (wbs_native_available balances <? wbs_minimum_native_required balances)%N
            (PolicyDenied "wallet native balance is below the configured gas threshold") ;?
  let? request := prepare_signing adapter c (w_address (pw_wallet w)) now in
  reject_if (is_empty (pr_digest request)) (PaymentProtocol "protocol adapter produced an empty signing digest") ;?
  let? signature := os_signer svc {| sr_intent := i; sr_challenge := c; sr_wallet := w;
                                     sr_active_key := sa_active_key a; sr_protocol_request := request |} in
  validate_signature_binding a signature ;?
  let digest_hash := sha256 (pr_digest request) in
  let? credential := complete_signing adapter c request (ws_bytes signature) in
  validate_credential (sa_identity a) credential ;?
  let? plaintext := map_err Json (json_to_vec (credential_to_json credential)) in
  let? sealed := mp_seal (gi_nonce ids) (outbound_credential_context (pi_id i)) plaintext in
  Ok {| pc_credential := credential; pc_sealed_credential := sealed; pc_digest_hash := hex_encode digest_hash |}.

(** [persist_credential] *)
Definition persist_credential (ids : SigningIds) (principal : string) (a : OutboundSigningAuthorization)
    (prepared : PreparedCredential) (now : Z) : Prog DB SignedOutboundPayment :=
  let i := si_intent (sa_identity a) in
  let& policy_id := glift (ok_or (pi_policy_id i) (Storage "authorized intent has no policy binding")) in
  let& wallet_id := glift (ok_or (pi_wallet_id i) (Storage "authorized intent has no wallet binding")) in
  let& committed := await (commit_signed (signing_write ids principal a prepared policy_id wallet_id now)) in
  glift (match committed with
         | Inserted record => open_persisted record false
         | Replayed record => open_persisted record true
         end).

Definition with_wallet (a : OutboundSigningAuthorization) (w : PaymentWallet) : OutboundSigningAuthorization :=
  {| sa_identity := sa_identity a; sa_policy := sa_policy a; sa_wallet := w; sa_active_key := sa_active_key a |}.

(** [OutboundSigner::sign_authorized] *)
Definition sign_authorized_payment (svc : OutboundSigner) (ids : SigningIds) (principal : string)
    (a : OutboundSigningAuthorization) (now : Z) : Prog DB SignedOutboundPayment :=
  let& wallet := glift (map_err (fun field => Storage ("invalid signing wallet " ++ field))
                          (PaymentWallet_canonicalized_for_payment_network (sa_wallet a)
                             (as_network (pi_asset (si_intent (sa_identity a)))))) in
  let a := with_wallet a wallet in
  glift (validate_authorization a now) ;&
  let& prepared := glift (create_credential svc ids a now) in
  persist_credential ids principal a prepared now.

(** [OutboundSigner::sign] *)
Definition sign (svc : OutboundSigner) (ids : SigningIds) (principal : string) (command : SignAuthorizedPayment)
    (now : Z) : Prog DB SignedOutboundPayment :=
  glift (validate_sign_request principal command) ;&
  let expected_principal := if principal != UNRESTRICTED_PRINCIPAL then Some principal else None in
  let& read := await (load_for_principal expected_principal (sp_intent_id command)) in
  let& read := glift (ok_or read (NotFound "authorized outbound payment")) in
  match read with
  | ReadSigned record =>
      glift (validate_common_identity principal command (ps_identity record) now) ;&
      glift (validate_replay_status (si_intent (ps_identity record))) ;&
      glift (open_persisted record true)
  | ReadAuthorized a =>
      glift (validate_common_identity principal command (sa_identity a) now) ;&
      let effective := if principal == UNRESTRICTED_PRINCIPAL then cl_auth_principal (si_client (sa_identity a))
                       else principal in
      sign_authorized_payment svc ids effective a now
  end.
End Service.
