(* ===== verification/SigningServiceSafety.v ===== *)
(** * What signing returns

    The guarantees of the signing service of [SigningService] while every other
    transaction of the vault runs between its calls: what it returns is the
    credential on record, a payment never gets a second one, a fresh one was
    made under full authority and balance, and a retry is answered. *)

From S2P Require Import Prelude Text Money Json Wallet Intent Policy Ledger Records Store LedgerStore PaymentRules Budget PaymentStore Program Authorizer Samples IntentFlow BudgetSafety Lifecycle ApprovalStore SigningStore SigningSafety OutboxStore System AuthorizerSafety Sealing ApprovalServiceSafety SigningService.
From stdpp Require Import relations.

#[local] Open Scope string_scope.
#[local] Open Scope vault_scope.

(** ** The credential on record *)

(** The first signed event of a payment names a credential and seals it. *)
Definition on_record (d : DB) (id hash : string) (sealed : SealedSensitiveMaterial) : Prop :=
  exists e v, fetch_optional (initial_event id EvSigned) (t_event d) = Some e /\ ev_signature_ref e = Some hash
    /\ jget "sealed_credential" (ev_payload e) = Some v /\ sealed_from_json v = Some sealed.

Lemma on_record_functional d id h1 s1 h2 s2 : on_record d id h1 s1 -> on_record d id h2 s2 -> h1 = h2 /\ s1 = s2.
Proof. intros (e & v & He & Hh & Hv & Hs) (e' & v' & He' & Hh' & Hv' & Hs'). split; congruence. Qed.

Lemma load_signed_on_record identity d p s :
  load_signed identity d = Ok (p, s) ->
  ps_identity p = identity
  /\ on_record d (pi_id (si_intent identity)) (ps_credential_hash p) (ps_sealed_credential p).
Proof.
  unfold load_signed. intros Hl. run_inv. split; [done|]. simpl. eexists _, _. split_and!; eassumption.
Qed.

Section Steps.
Context `{SolanaPubkey, UrlParser}.

Lemma on_record_later d d' id h sealed :
  reachable d -> rtc step d d' -> on_record d id h sealed -> on_record d' id h sealed.
Proof.
  intros Hr Hs (e & v & He & Hrest). exists e, v. split; [|done].
  destruct (run_safe _ _ Hs (reachable_safe _ Hr)) as [[Hdb _] Hkept].
  eapply initial_event_stable; [apply Hdb|apply (hk_events _ _ Hkept)|exact He].
Qed.

Lemma commit_signed_step w d x d' : commit_signed w d = Ok (x, d') -> rtc step d d'.
Proof.
  intros Hc. apply rtc_once, (step_commit (OpCommitSigned w)). simpl. by rewrite (tbind_run _ _ _ _ _ Hc).
Qed.

(** Either way, a commit returns what is then on record. *)
Lemma commit_signed_on_record w d x d' :
  db_ok d -> commit_signed w d = Ok (x, d') ->
  let p := match x with Inserted p | Replayed p => p end in
  on_record d' (pi_id (si_intent (ps_identity p))) (ps_credential_hash p) (ps_sealed_credential p)
  /\ pi_id (si_intent (ps_identity p)) = pi_id (gw_intent w)
  /\ pi_protocol (si_intent (ps_identity p)) = pi_protocol (gw_intent w)
  /\ si_challenge (ps_identity p) = gw_challenge w.
Proof.
  intros Hdb Hc. pose proof Hc as (identity & Hid & [[_ Hrep]|(_ & _ & Hs)])%commit_signed_cases.
  - pose proof (read_only _ _ _ Hrep) as ->. unfold replay_signed in Hrep. run_inv. bool_inv.
    match goal with Hl : load_signed _ _ = Ok _ |- _ => apply load_signed_on_record in Hl as [Hi Hrec] end.
    rewrite <- Hi in Hrec. cbv zeta. split_and!; try done;
      match goal with Hsame : same_immutable_identity_as _ _ = true |- _ =>
        apply same_immutable_identity_iff in Hsame; intuition congruence end.
  - pose proof Hs as (a & p & r & d1 & d2 & u & -> & _ & _ & _ & Hi & Hch & Hh & Hse & _)%sign_authorized_ok.
    destruct (commit_signed_stored _ _ _ _ Hdb Hc) as (e & v & He & Href & _ & Hv & Hsv).
    cbv zeta. rewrite Hi, Hh, Hse. split_and!; try done. by exists e, v.
Qed.

(** What the read of [sign] found. *)
Lemma load_for_principal_reads expected id d x s :
  load_for_principal expected id d = Ok (Some x, s) ->
  s = d /\ exists identity,
    owned_intent d id = Some (si_intent identity, si_scenario identity, si_client identity)
    /\ is_none_or (fun p => cl_auth_principal (si_client identity) == p) expected = true
    /\ match x with
       | ReadAuthorized a => load_authorized identity d = Ok (a, d)
       | ReadSigned p => load_signed identity d = Ok (p, d)
       end.
Proof.
  intros Hl. pose proof (read_only _ _ _ Hl) as ->. split; [done|]. unfold load_for_principal in Hl. run_inv.
  match goal with Ha : load_identity_for_access _ _ _ = Ok (?f, _) |- _ =>
    pose proof (read_only _ _ _ Ha) as ->; unfold load_identity_for_access in Ha; run_inv;
    destruct f as [identity|]; [|run_inv; done]; rename Ha into Hacc end.
  destruct (owned_intent d id) as [[[i sc] c]|] eqn:Hown; [|run_inv; done].
  destruct (is_none_or _ expected) eqn:Hp; [|run_inv; done].
  apply load_identity_ok in Hacc as (Hown' & _). rewrite Hown in Hown'. injection Hown' as -> -> ->.
  exists identity. split_and!; try done.
  destruct (pi_status (si_intent identity)) eqn:Hst; run_inv; simplify_eq; try done.
  all: match goal with
       | Ha : load_authorized _ _ = Ok (_, ?s) |- _ => by pose proof (read_only _ _ _ Ha) as ->
       | Ha : load_signed _ _ = Ok (_, ?s) |- _ => by pose proof (read_only _ _ _ Ha) as ->
       end.
Qed.
End Steps.

(** ** Answers *)

Section Answers.
Context `{SolanaPubkey, UrlParser, UuidNonce, Sha256, JsonText, JsonParse, MaterialProtector}.

(** The envelope of a payment opens to the credential. *)
Definition holds (id : string) (sealed : SealedSensitiveMaterial) (c : PaymentCredential) : Prop :=
  exists text j, mp_open (outbound_credential_context id) sealed = Ok text /\ json_from_slice text = Some j
    /\ credential_from_json j = Some c.

Lemma holds_functional id sealed c1 c2 : holds id sealed c1 -> holds id sealed c2 -> c1 = c2.
Proof. intros (t & j & Ht & Hj & Hc) (t' & j' & Ht' & Hj' & Hc'). congruence. Qed.

Lemma open_persisted_ok p replayed res :
  open_persisted p replayed = Ok res ->
  so_intent res = si_intent (ps_identity p) /\ so_replayed res = replayed
  /\ holds (pi_id (si_intent (ps_identity p))) (ps_sealed_credential p) (so_credential res)
  /\ cr_credential_hash (so_credential res) = ps_credential_hash p
  /\ cr_protocol (so_credential res) = pi_protocol (si_intent (ps_identity p))
  /\ cr_challenge_hash (so_credential res) = ch_challenge_hash (si_challenge (ps_identity p)).
Proof.
  unfold open_persisted. intros Ho. run_inv. simpl.
  match goal with Hj : (_ ← json_from_slice _; _) = Some _ |- _ => apply bind_Some in Hj as (j & Hj & Hc) end.
  match goal with Hv : validate_credential _ _ = Ok _ |- _ => unfold validate_credential in Hv; run_inv; bool_inv end.
  split_and!; try done. by eexists _, j.
Qed.

(** The principal reached the payment through its owner. *)
Definition reached (d : DB) (principal : string) (identity : OutboundSigningIdentity) (id : string) : Prop :=
  owned_intent d id = Some (si_intent identity, si_scenario identity, si_client identity)
  /\ (principal = UNRESTRICTED_PRINCIPAL \/ cl_auth_principal (si_client identity) = principal).

(** The wallet and the key of an authorization are the payment's stored ones:
    the wallet of the intent, canonical for the payment's network, and the key
    version of it that is active. *)
Definition stored_authority (d : DB) (a : OutboundSigningAuthorization) : Prop :=
  exists wid stored, pi_wallet_id (si_intent (sa_identity a)) = Some wid
    /\ load_payment_wallet wid d = Ok (Some stored, d)
    /\ PaymentWallet_canonicalized_for_payment_network stored (as_network (pi_asset (si_intent (sa_identity a))))
       = Ok (sa_wallet a)
    /\ active_key d wid = Some (sa_active_key a).

Lemma load_authorized_stored identity d a w :
  load_authorized identity d = Ok (a, d) ->
  PaymentWallet_canonicalized_for_payment_network (sa_wallet a) (as_network (pi_asset (si_intent (sa_identity a)))) = Ok w ->
  sa_identity a = identity /\ stored_authority d (with_wallet a w).
Proof.
  intros Hl Hw. unfold load_authorized in Hl. run_inv. split; [done|]. simpl in *.
  repeat match goal with Hx : load_or _ _ _ = Ok (_, ?y) |- _ => apply load_or_ok in Hx; pose proof (read_only _ _ _ Hx) as -> end.
  unfold stored_authority. simpl. run_inv. eexists _, _. split_and!; first [eassumption|by symmetry].
Qed.

(** The commit of a freshly made credential. *)
Definition fresh_commit (svc : OutboundSigner) (ids : SigningIds) (a : OutboundSigningAuthorization) (now : Z)
    (d d' : DB) (res : SignedOutboundPayment) : Prop :=
  exists principal prepared pid wid x, create_credential svc ids a now = Ok prepared
    /\ validate_authorization a now = Ok tt
    /\ commit_signed (signing_write ids principal a prepared pid wid now) d = Ok (x, d')
    /\ match x with
       | Inserted p => open_persisted p false
       | Replayed p => open_persisted p true
       end = Ok res.

Lemma sign_cases svc ids principal command now d res d' :
  exec (rtc step) (sign svc ids principal command now) d (Ok res) d' ->
  exists d1 identity, rtc step d d1 /\ reached d1 principal identity (sp_intent_id command)
    /\ validate_common_identity principal command identity now = Ok tt
    /\ ((d' = d1 /\ exists p, load_signed identity d1 = Ok (p, d1) /\ open_persisted p true = Ok res)
        \/ (exists a d2, sa_identity a = identity /\ stored_authority d1 a
              /\ rtc step d1 d2 /\ fresh_commit svc ids a now d2 d' res)).
Proof.
  unfold sign. intros Hx. prog_inv.
  match goal with Hl : load_for_principal _ _ ?s = Ok (_, _) |- _ =>
    apply load_for_principal_reads in Hl as (-> & identity & Hown & Hp & Hread); exists s, identity end.
  assert (principal = UNRESTRICTED_PRINCIPAL \/ cl_auth_principal (si_client identity) = principal) as Hpr.
  { case_bool_decide; [by left|]. simpl in Hp. bool_inv. by right. }
  match goal with Hread : match ?x with ReadAuthorized _ => _ | ReadSigned _ => _ end |- _ => destruct x as [a|p] end.
  - unfold sign_authorized_payment, persist_credential in Hx. prog_inv. simplify_eq.
    repeat match goal with u : unit |- _ => destruct u end.
    match goal with Hw : PaymentWallet_canonicalized_for_payment_network _ _ = Ok _ |- _ =>
      destruct (load_authorized_stored _ _ _ _ Hread Hw) as [<- Hst] end.
    split_and!; try done. right.
    eexists (with_wallet _ _), _. split_and!; [done|exact Hst|eassumption|]. do 5 eexists. split_and!; try eassumption.
  - pose proof (load_signed_on_record _ _ _ _ Hread) as [Hpi _]. prog_inv.
    repeat match goal with u : unit |- _ => destruct u end. split_and!; try done. left. eauto.
Qed.

Lemma common_identity_ok principal command identity now :
  validate_common_identity principal command identity now = Ok tt ->
  pi_id (si_intent identity) = sp_intent_id command /\ si_challenge identity = sp_challenge command
  /\ pi_protocol (si_intent identity) = ch_protocol (sp_challenge command)
  /\ (now < ch_expires_at (sp_challenge command))%Z.
Proof.
  unfold validate_common_identity. intros Hv. run_inv. bool_inv.
  match goal with Hc : si_challenge identity = sp_challenge command |- _ => rewrite <- Hc end. done.
Qed.

Lemma sign_answer svc ids principal command now d res d' :
  reachable d -> exec (rtc step) (sign svc ids principal command now) d (Ok res) d' ->
  let c := so_credential res in
  pi_id (so_intent res) = sp_intent_id command
  /\ cr_protocol c = ch_protocol (sp_challenge command)
  /\ cr_challenge_hash c = ch_challenge_hash (sp_challenge command)
  /\ (now < ch_expires_at (sp_challenge command))%Z
  /\ (exists d1 identity, rtc step d d1 /\ rtc step d1 d' /\ reached d1 principal identity (sp_intent_id command))
  /\ exists sealed, on_record d' (sp_intent_id command) (cr_credential_hash c) sealed
       /\ holds (sp_intent_id command) sealed c.
Proof.
  intros Hr (d1 & identity & Hs1 & Hreach & Hv & Hcase)%sign_cases. cbv zeta.
  destruct (common_identity_ok _ _ _ _ Hv) as (Hid & Hch & Hpr & Hexp).
  destruct Hcase as [(-> & p & Hl & Ho)|(a & d2 & Ha & _ & Hs2 & eff & prepared & pid & wid & x & _ & _ & Hc & Ho)].
  - apply load_signed_on_record in Hl as [Hpi Hrec].
    apply open_persisted_ok in Ho as (Hi & _ & Hh & Hhash & Hp & Hcc). rewrite Hpi in *.
    split_and!; try congruence; [by exists d1, identity|].
    exists (ps_sealed_credential p). rewrite Hhash, <- Hid. done.
  - pose proof (reachable_steps _ _ Hr (transitivity Hs1 Hs2)) as Hr2. pose proof (commit_signed_step _ _ _ _ Hc) as Hs3.
    destruct (commit_signed_on_record _ _ _ _ (proj1 (reachable_safe _ Hr2)) Hc) as (Hrec & Hci & Hcp & Hcc).
    simpl in Hci, Hcp, Hcc. rewrite Ha in *.
    assert (exists replayed, open_persisted (match x with Inserted p | Replayed p => p end) replayed = Ok res)
      as [replayed Hop] by (destruct x; eauto).
    apply open_persisted_ok in Hop as (Hi & _ & Hh & Hhash & Hp & Hcch). rewrite Hci, Hid in *.
    split_and!; try congruence; [exists d1, identity; split_and!; [done|by etrans|done]|].
    eexists. rewrite Hhash. split; eassumption.
Qed.

Lemma sign_recorded svc ids principal command now d res d' :
  reachable d -> exec (rtc step) (sign svc ids principal command now) d (Ok res) d' ->
  rtc step d d' /\ exists sealed,
    on_record d' (sp_intent_id command) (cr_credential_hash (so_credential res)) sealed
    /\ holds (sp_intent_id command) sealed (so_credential res).
Proof.
  intros Hr Hx. apply sign_answer in Hx as (_ & _ & _ & _ & (d1 & identity & Hs & Hs' & _) & Hrec); [|done].
  split; [by etrans|done].
Qed.

(** Signing returns the credential on record: however other transactions
    interleave, an answer goes only to the principal that owns the payment
    through an enabled client and scenario (or to the unrestricted one), for
    the challenge the payment was authorized for, before it expires; and the
    returned credential is the one the payment's first signed event names and
    its envelope holds, in the database the answer leaves. *)
Lemma sign_returns_recorded svc ids principal command now d res d' :
  reachable d -> exec (rtc step) (sign svc ids principal command now) d (Ok res) d' ->
  let c := so_credential res in
  pi_id (so_intent res) = sp_intent_id command
  /\ cr_protocol c = ch_protocol (sp_challenge command)
  /\ cr_challenge_hash c = ch_challenge_hash (sp_challenge command)
  /\ (now < ch_expires_at (sp_challenge command))%Z
  /\ (exists d1 identity, rtc step d d1 /\ rtc step d1 d' /\ reached d1 principal identity (sp_intent_id command))
  /\ exists sealed, on_record d' (sp_intent_id command) (cr_credential_hash c) sealed
       /\ holds (sp_intent_id command) sealed c.
Proof. apply sign_answer. Qed.

(** C32: a payment never gets a second credential: whatever two services,
    principals, times and interleavings, two signings of one payment that were
    both answered, seen from a common later database, returned the same
    credential, byte for byte. *)
Theorem sign_once svc1 ids1 p1 c1 now1 d1 res1 d1' svc2 ids2 p2 c2 now2 d2 res2 d2' d :
  reachable d1 -> reachable d2 ->
  exec (rtc step) (sign svc1 ids1 p1 c1 now1) d1 (Ok res1) d1' ->
  exec (rtc step) (sign svc2 ids2 p2 c2 now2) d2 (Ok res2) d2' ->
  rtc step d1' d -> rtc step d2' d -> sp_intent_id c1 = sp_intent_id c2 ->
  so_credential res1 = so_credential res2.
Proof.
  intros Hr1 Hr2 Hx1 Hx2 Hd1 Hd2 Hid.
  apply sign_recorded in Hx1 as (Hs1 & sealed1 & Hrec1 & Hh1); [|done].
  apply sign_recorded in Hx2 as (Hs2 & sealed2 & Hrec2 & Hh2); [|done].
  apply (on_record_later _ _ _ _ _ (reachable_steps _ _ Hr1 Hs1) Hd1) in Hrec1.
  apply (on_record_later _ _ _ _ _ (reachable_steps _ _ Hr2 Hs2) Hd2) in Hrec2.
  rewrite Hid in *. destruct (on_record_functional _ _ _ _ _ _ Hrec1 Hrec2) as [_ <-].
  by eapply holds_functional.
Qed.

(** The credential comes from the payment's adapter and the wallet signer,
    asked with this wallet and key, whose funds cover the payment. *)
Definition signed_with (svc : OutboundSigner) (i : PaymentIntent) (c : PaymentChallenge) (w : PaymentWallet)
    (key : EncryptedWalletKeyVersion) (now : Z) (credential : PaymentCredential) : Prop :=
  exists balances adapter request signature,
    os_balances svc (pw_wallet w) (pi_asset i) = Ok balances
    /\ (pi_amount i <= wbs_asset_available balances)%N
    /\ (wbs_minimum_native_required balances <= wbs_native_available balances)%N
    /\ registry_get (os_protocols svc) (pi_protocol i) = Ok adapter
    /\ prepare_signing adapter c (w_address (pw_wallet w)) now = Ok request /\ pr_digest request <> ""
    /\ os_signer svc {| sr_intent := i; sr_challenge := c; sr_wallet := w; sr_active_key := key;
                        sr_protocol_request := request |} = Ok signature
    /\ pi_wallet_id i = Some (ws_wallet_id signature) /\ ws_key_version signature = k_version key
    /\ address_matches (pw_wallet w) (ws_signer_address signature) = true
    /\ complete_signing adapter c request (ws_bytes signature) = Ok credential.

(** What [create_credential] has checked before it returns. *)
Lemma create_credential_ok svc ids a now prepared :
  create_credential svc ids a now = Ok prepared ->
  signed_with svc (si_intent (sa_identity a)) (si_challenge (sa_identity a)) (sa_wallet a) (sa_active_key a) now
    (pc_credential prepared).
Proof.
  unfold create_credential. intros Hc. run_inv.
  match goal with Hs : validate_signature_binding _ _ = Ok _ |- _ => unfold validate_signature_binding in Hs; run_inv end.
  bool_inv. do 4 eexists. split_and!; try eassumption.
  match goal with He : is_empty (pr_digest _) = false |- _ => by intros Hd; rewrite Hd in He end.
Qed.

Lemma validate_authorization_ok a now :
  validate_authorization a now = Ok tt ->
  pi_wallet_id (si_intent (sa_identity a)) = Some (w_id (pw_wallet (sa_wallet a)))
  /\ k_status (sa_active_key a) = KeyActive /\ (k_activated_at (sa_active_key a) <= now)%Z
  /\ po_enabled (sa_policy a) = true /\ pw_enabled (sa_wallet a) = true
  /\ address_matches (pw_wallet (sa_wallet a)) (k_address (sa_active_key a)) = true.
Proof.
  unfold validate_authorization. intros Hv. run_inv. bool_inv.
  match goal with Hw : authorization_wallet_ready _ _ = true, Hk : authorization_key_ready _ _ _ = true,
                  Hp : authorization_covered _ _ _ _ _ = true |- _ =>
    unfold authorization_wallet_ready, signing_ready_for_payment_network, signing_ready in Hw;
    unfold authorization_key_ready in Hk; unfold authorization_covered in Hp end.
  bool_inv. split_and!; try done. congruence.
Qed.

End Answers.

(** ** Retries *)

Lemma credential_json_roundtrip c : credential_from_json (credential_to_json c) = Some c.
Proof. by destruct c. Qed.

Section Retry.
Context `{SolanaPubkey, UrlParser, UuidNonce, Sha256, JsonText, JsonParse, !JsonTextLaws}.
Context (protector : MaterialProtector) `{!MaterialProtectorLaws protector}.

(** The envelope that [create_credential] seals holds the credential. *)
Lemma sealed_holds nonce id c text sealed :
  fresh_nonce nonce -> json_to_vec (credential_to_json c) = Ok text ->
  mp_seal nonce (outbound_credential_context id) text = Ok sealed -> holds id sealed c.
Proof.
  intros Hn Ht Hs. exists text, (credential_to_json c).
  split_and!; [by eapply open_sealed|by apply json_from_to|apply credential_json_roundtrip].
Qed.

Lemma open_persisted_holds p replayed c :
  holds (pi_id (si_intent (ps_identity p))) (ps_sealed_credential p) c ->
  validate_credential (ps_identity p) c = Ok tt -> cr_credential_hash c = ps_credential_hash p ->
  open_persisted p replayed
  = Ok {| so_intent := si_intent (ps_identity p); so_credential := c; so_replayed := replayed |}.
Proof.
  intros (text & j & Ht & Hj & Hc) Hv Hh. unfold open_persisted. rewrite Ht. cbn [rbind]. rewrite Hj. cbn [mbind option_bind].
  rewrite Hc. cbn [ok_or rbind]. rewrite Hv. cbn [rbind]. by rewrite Hh, bool_decide_true.
Qed.

Lemma signed_row_later w d p d1 d2 i s c :
  reachable d -> commit_signed w d = Ok (Inserted p, d1) -> rtc step d1 d2 ->
  owned_intent d2 (pi_id (gw_intent w)) = Some (i, s, c) ->
  exists row, t_intent d2 !! pi_id (gw_intent w) = Some row /\ ir_intent row = i
    /\ ir_credential_hash row = Some (gw_credential_hash w) /\ same_immutable_identity_as (gw_intent w) i = true.
Proof.
  intros Hr Hc Hs ((row & Hrow & Hi) & _)%owned_intent_ok.
  destruct (commit_signed_inserts _ _ _ _ (proj1 (reachable_safe _ Hr)) Hc) as (_ & _ & _ & _ & _ & _ & _ & _ & _ & _ & _
    & (row1 & Hrow1 & Hi1 & _ & Hcred1 & _) & _).
  pose proof (reachable_steps _ _ Hr (commit_signed_step _ _ _ _ Hc)) as Hr1.
  destruct (intent_later _ _ _ _ Hr1 Hs Hrow1) as (row2 & Hrow2 & E). assert (row2 = row) as -> by congruence.
  exists row. split_and!; try done; [by rewrite (re_credential _ _ E) by (by rewrite Hcred1)|].
  rewrite <- Hi, <- Hi1. apply (re_identity _ _ E).
Qed.

(** A signed payment reads back as signed. *)
Lemma load_for_principal_signed w d p d1 d2 expected i s c :
  reachable d -> commit_signed w d = Ok (Inserted p, d1) -> rtc step d1 d2 ->
  owned_intent d2 (pi_id (gw_intent w)) = Some (i, s, c) -> is_signed_replay_status (pi_status i) = true ->
  is_none_or (fun q => cl_auth_principal c == q) expected = true -> is_some_and is_empty expected = false ->
  let identity := {| si_client := c; si_scenario := s; si_intent := i; si_challenge := gw_challenge w |} in
  load_for_principal expected (pi_id (gw_intent w)) d2
  = Ok (Some (ReadSigned {| ps_identity := identity; ps_credential_hash := gw_credential_hash w;
                            ps_sealed_credential := gw_sealed_credential w |}), d2).
Proof.
  intros Hr Hc Hs Hown Hst Hexp Hne identity.
  pose proof (reachable_steps _ _ Hr (commit_signed_step _ _ _ _ Hc)) as Hr1.
  pose proof (reachable_steps _ _ Hr1 Hs) as Hr2.
  destruct (run_safe _ _ (transitivity (commit_signed_step _ _ _ _ Hc) Hs) (reachable_safe _ Hr)) as [[Hdb2 _] Hkept].
  destruct (run_safe _ _ Hs (reachable_safe _ Hr1)) as [_ Hkept1].
  pose proof (proj1 (reachable_safe _ Hr)) as Hdb.
  destruct (commit_signed_stored _ _ _ _ Hdb Hc) as (e & v & Hfe & Href & Hh & Hv & Hse).
  pose proof (initial_event_stable _ _ _ _ _ (db_events _ Hdb2) (hk_events _ _ Hkept1) Hfe) as Hfe2.
  destruct (commit_signed_inserts _ _ _ _ Hdb Hc) as (au & _ & Hau & _).
  destruct (signed_row_later _ _ _ _ _ _ _ _ Hr Hc Hs Hown) as (row & Hrow & Hi & Hcred & Hsame).
  pose proof (intent_key _ _ _ Hr2 Hrow) as Hkey. rewrite Hi in Hkey.
  destruct (au_challenge _ _ _ Hau) as [Hload _].
  pose proof (au_identity _ _ _ Hau) as Hidn. pose proof (au_state _ _ _ Hau) as Hstate.
  apply validate_authorization_state_ok in Hstate as [Hb _]. unfold signing_challenge_bound in Hb. bool_inv.
  apply same_immutable_identity_iff in Hidn as (Hid & _ & _ & _ & _ & _ & Hdir & _).
  apply same_immutable_identity_iff in Hsame as (_ & _ & _ & _ & _ & _ & Hdir2 & _).
  assert (load_challenge (pi_id i) d2 = Ok (gw_challenge w, d2)) as Hload2.
  { rewrite Hkey, <- Hid. eapply load_challenge_stable; [apply Hdb2|apply (hk_events _ _ Hkept)|exact Hload]. }
  assert (load_identity (cl_auth_principal c) (pi_id (gw_intent w)) d2 = Ok (Some identity, d2)) as Hli
    by (apply load_identity_run; congruence).
  unfold load_for_principal. rewrite Hne. erewrite tbind_run; [|reflexivity].
  unfold load_identity_for_access. erewrite tbind_run; [|erewrite tbind_run; [|reflexivity]; rewrite Hown, Hexp; exact Hli].
  assert (load_signed identity d2 = Ok ({| ps_identity := identity; ps_credential_hash := gw_credential_hash w;
            ps_sealed_credential := gw_sealed_credential w |}, d2)) as Hls.
  { eapply load_signed_run; simpl; rewrite ?Hkey; eassumption. }
  cbn [si_intent identity]. destruct (pi_status i); try done; by rewrite (tbind_run _ _ _ _ _ Hls).
Qed.

(** A signed payment can always be fetched again: once a credential was
    committed, at any later time and whatever ran in between, as long as the
    payment has not failed and the challenge has not expired, the owner's
    repeated request returns exactly the first credential and changes nothing,
    without asking the adapter, the balance source or the signer. *)
Lemma sign_retry_answered w d p d1 d2 c nonce text svc ids principal command now i s cl :
  reachable d -> commit_signed w d = Ok (Inserted p, d1) ->
  fresh_nonce nonce -> json_to_vec (credential_to_json c) = Ok text ->
  mp_seal nonce (outbound_credential_context (pi_id (gw_intent w))) text = Ok (gw_sealed_credential w) ->
  cr_credential_hash c = gw_credential_hash w -> validate_credential (ps_identity p) c = Ok tt ->
  rtc step d1 d2 -> owned_intent d2 (pi_id (gw_intent w)) = Some (i, s, cl) ->
  is_signed_replay_status (pi_status i) = true ->
  sp_intent_id command = pi_id (gw_intent w) -> validate_sign_request principal command = Ok tt ->
  (principal = UNRESTRICTED_PRINCIPAL \/ cl_auth_principal cl = principal) ->
  validate_common_identity principal command
    {| si_client := cl; si_scenario := s; si_intent := i; si_challenge := gw_challenge w |} now = Ok tt ->
  run_alone (sign svc ids principal command now) d2
  = (Ok {| so_intent := i; so_credential := c; so_replayed := true |}, d2).
Proof.
  intros Hr Hc Hn Ht Hseal Hh Hvc Hs Hown Hst Hid Hreq Hpr Hcommon.
  assert (is_none_or (fun q => cl_auth_principal cl == q)
            (if principal != UNRESTRICTED_PRINCIPAL then Some principal else None) = true) as Hexp.
  { case_bool_decide; [done|]. simpl. apply bool_decide_eq_true. by destruct Hpr. }
  assert (is_some_and is_empty (if principal != UNRESTRICTED_PRINCIPAL then Some principal else None) = false) as Hne.
  { case_bool_decide; [done|]. simpl. unfold validate_sign_request in Hreq. run_inv. by destruct principal. }
  pose proof (load_for_principal_signed _ _ _ _ _ _ _ _ _ Hr Hc Hs Hown Hst Hexp Hne) as Hload. simpl in Hload.
  pose proof (sealed_holds _ _ _ _ _ Hn Ht Hseal) as Hholds.
  assert (pi_id i = pi_id (gw_intent w)) as Hkey by (apply common_identity_ok in Hcommon as [Hi _]; simpl in Hi; congruence).
  unfold sign. rewrite run_alone_bind, Hreq. cbn [glift run_alone]. rewrite Hid.
  rewrite run_alone_bind, (proj2 (run_alone_await_ok _ _ _ _) Hload), run_alone_bind. cbn [ok_or glift run_alone].
  rewrite run_alone_bind. cbn [ps_identity]. rewrite Hcommon. cbn [glift run_alone]. rewrite run_alone_bind. cbn [si_intent].
  assert (validate_replay_status i = Ok tt) as -> by (unfold validate_replay_status; by destruct (pi_status i)).
  cbn [glift run_alone]. rewrite (open_persisted_holds _ _ c); [done|simpl; by rewrite Hkey| |done].
  destruct (signed_row_later _ _ _ _ _ _ _ _ Hr Hc Hs Hown) as (_ & _ & _ & _ & Hsame).
  apply same_immutable_identity_iff in Hsame as (_ & _ & _ & _ & _ & _ & _ & Hproto & _).
  apply commit_signed_inserted, sign_authorized_ok in Hc as (_ & p' & _ & _ & _ & _ & [= <-] & _ & _ & _ & Hpi & Hpc & _).
  unfold validate_credential in *. rewrite Hpi, Hpc in Hvc. simpl. by rewrite <- Hproto.
Qed.
End Retry.

(** ** The sample payment is signed *)

Module SampleSigner.
Definition credential : PaymentCredential :=
  {| cr_protocol := "x402"; cr_challenge_hash := "challenge-1"; cr_credential_hash := "signature-1";
     cr_payload := jobject [("payer", JString "0xabcdef0123456789abcdef0123456789abcdef01")] |}.
(** A text codec that knows one credential. *)
Definition text : JsonText :=
  {| json_to_vec := fun j => if bool_decide (j = credential_to_json credential) then Ok "credential" else Err "unknown" |}.
Definition parse : JsonParse :=
  {| json_from_slice := fun s => if s == "credential" then Some (credential_to_json credential) else None |}.
Definition service : OutboundSigner :=
  {| os_protocols := SampleRequest.registry;
     os_balances := fun _ _ => Ok {| wbs_asset_available := 300000; wbs_native_available := 10;
                                     wbs_minimum_native_required := 5 |};
     os_signer := fun q => Ok {| ws_wallet_id := w_id (pw_wallet (sr_wallet q)); ws_key_version := k_version (sr_active_key q);
                                 ws_signer_address := w_address (pw_wallet (sr_wallet q)); ws_bytes := "signature-1" |} |}.
Definition ids (suffix : string) : SigningIds :=
  {| gi_nonce := SampleRing.nonce; gi_request_event := "event-r" ++ suffix; gi_signed_event := "event-s" ++ suffix;
     gi_outbox := "outbox-s" ++ suffix |}.
Definition command : SignAuthorizedPayment :=
  {| sp_intent_id := "intent-a"; sp_challenge := cmd_challenge (SampleRequest.command 250000) |}.
End SampleSigner.

#[local] Existing Instance Sample.codec.
#[local] Existing Instance Sample.parser.
#[local] Existing Instance sample_sha256.
#[local] Existing Instance SampleSigner.text.
#[local] Existing Instance SampleSigner.parse.
#[local] Existing Instance SampleRing.base64.
#[local] Existing Instance SampleRing.cipher.
#[local] Existing Instance SampleRing.uuids.

#[export] Instance sample_text_laws : @JsonTextLaws SampleSigner.text SampleSigner.parse.
Proof.
  split. intros j t. cbn [json_to_vec json_from_slice SampleSigner.text SampleSigner.parse]. case_bool_decide as Hj; [|done].
  intros [= <-]. by rewrite Hj.
Qed.
Definition sample_protector : MaterialProtector := ring_protector SampleRing.ring.
#[export] Instance sample_protector_laws : MaterialProtectorLaws sample_protector.
Proof. apply sample_ring_laws. Qed.
#[local] Existing Instance sample_protector.

Definition sample_sign (suffix : string) (now : Z) : Prog DB SignedOutboundPayment :=
  sign SampleSigner.service (SampleSigner.ids suffix) "principal-1" SampleSigner.command now.
Definition sample_sign_db : DB := snd (run_alone (sample_sign "1" 1700000010) sample_answered).
Definition sample_sign_result (suffix : string) (now : Z) (d : DB) : SignedOutboundPayment :=
  match fst (run_alone (sample_sign suffix now) d) with
  | Ok res => res
  | Err _ => {| so_intent := Sample.intent; so_credential := SampleSigner.credential; so_replayed := true |}
  end.

Lemma sample_sign_first :
  run_alone (sample_sign "1" 1700000010) sample_answered
  = (Ok (sample_sign_result "1" 1700000010 sample_answered), sample_sign_db)
  /\ so_replayed (sample_sign_result "1" 1700000010 sample_answered) = false.
Proof. split; vm_compute; reflexivity. Qed.
Lemma sample_sign_again :
  run_alone (sample_sign "2" 1700000020) sample_sign_db
  = (Ok (sample_sign_result "2" 1700000020 sample_sign_db), sample_sign_db).
Proof. vm_compute. reflexivity. Qed.
Lemma sample_answered_reachable : reachable sample_answered.
Proof.
  eapply reachable_steps; [exact sample_db_reachable|].
  exact (proj1 (authorize_payment_recorded _ _ _ _ _ _ _ _ sample_db_reachable sample_request_exec)).
Qed.
Lemma sample_sign_reachable : reachable sample_sign_db.
Proof.
  eapply reachable_steps; [exact sample_answered_reachable|].
  refine (proj1 (sign_recorded _ _ _ _ _ _ _ _ sample_answered_reachable _)).
  exact (run_alone_exec_eq (rtc step) _ _ _ _ (proj1 sample_sign_first)).
Qed.

Lemma sign_once_witness :
  so_credential (sample_sign_result "1" 1700000010 sample_answered)
  = so_credential (sample_sign_result "2" 1700000020 sample_sign_db).
Proof.
  apply (sign_once SampleSigner.service (SampleSigner.ids "1") "principal-1" SampleSigner.command 1700000010
           sample_answered (sample_sign_result "1" 1700000010 sample_answered) sample_sign_db
           SampleSigner.service (SampleSigner.ids "2") "principal-1" SampleSigner.command 1700000020
           sample_sign_db (sample_sign_result "2" 1700000020 sample_sign_db) sample_sign_db sample_sign_db).
  - exact sample_answered_reachable.
  - exact sample_sign_reachable.
  - exact (run_alone_exec_eq (rtc step) _ _ _ _ (proj1 sample_sign_first)).
  - exact (run_alone_exec_eq (rtc step) _ _ _ _ sample_sign_again).
  - apply rtc_refl.
  - apply rtc_refl.
  - reflexivity.
Defined.


(** The write of the first signing. *)
Definition sample_signing_write : option SigningWrite :=
  match load_for_principal (Some "principal-1") "intent-a" sample_answered with
  | Ok (Some (ReadAuthorized a), _) =>
      match create_credential SampleSigner.service (SampleSigner.ids "1") a 1700000010 with
      | Ok prepared => Some (signing_write (SampleSigner.ids "1") "principal-1" a prepared "policy-1" "wallet-1" 1700000010)
      | Err _ => None
      end
  | _ => None
  end.
Definition sample_persisted (w : SigningWrite) : PersistedSignedPayment :=
  {| ps_identity := {| si_client := Sample.client; si_scenario := Sample.scenario; si_intent := gw_intent w;
                       si_challenge := gw_challenge w |};
     ps_credential_hash := gw_credential_hash w; ps_sealed_credential := gw_sealed_credential w |}.
