(* ===== verification/CanonicalJson.v ===== *)
(** * Canonical JSON values

    [X402Wire::canonical_json] of [src/src/protocol/x402_wire.rs] sorts the
    members of every object, so that a challenge keeps its identity when a
    parser or a database returns them in another order.  The order of members
    of a [serde_json::Value] is immaterial to its equality; here it is kept, and
    [value_eqb] is that equality.  [canonical_json] is shown to decide it, which
    makes [same_value] the equivalence that everything computed from the
    canonical form respects. *)

From Stdlib Require Sorted.
From S2P Require Import Prelude Text Json Store.

#[local] Open Scope string_scope.
#[local] Open Scope vault_scope.

(** ** The operation *)

Definition entry_leb (a b : string * json) : bool :=
  match str_compare (fst a) (fst b) with Gt => false | _ => true end.

(** [X402Wire::canonical_json] *)
Fixpoint canonical_json (value : json) : json :=
  match value with
  | JArray items => JArray (map canonical_json items)
  | JObject fields => jobject (order_by entry_leb (map (fun kv => (fst kv, canonical_json (snd kv))) fields))
  | scalar => scalar
  end.

(** ** Equality of values *)

(** The two zeros are equal although their bits differ; a JSON number is never
    a NaN. *)
Definition NEGATIVE_ZERO : Z := 2 ^ 63.
Definition float_zero (bits : Z) : bool := (bits =? 0)%Z || (bits =? NEGATIVE_ZERO)%Z.
Definition float_eqb (x y : Z) : bool := (x =? y)%Z || float_zero x && float_zero y.

(** [PartialEq for serde_json::Value]: two objects are equal when they have as
    many members and every member of one is a member of the other. *)
Fixpoint value_eqb (a b : json) : bool :=
  match a, b with
  | JNull, JNull => true
  | JBool x, JBool y => Bool.eqb x y
  | JNumber x, JNumber y => (x =? y)%Z
  | JFloat x, JFloat y => float_eqb x y
  | JString x, JString y => (x =? y)%string
  | JArray x, JArray y =>
      (fix go x y := match x, y with
        | [], [] => true
        | j :: x', k :: y' => value_eqb j k && go x' y'
        | _, _ => false
        end) x y
  | JObject x, JObject y =>
      (length x =? length y)%nat
      && (fix go x := match x with
           | [] => true
           | (k, j) :: x' => match entry_lookup k y with Some j' => value_eqb j j' | None => false end && go x'
           end) x
  | _, _ => false
  end.

(** A map has one member per key, and no number is a negative zero. *)
Fixpoint regular_value (j : json) : Prop :=
  match j with
  | JArray l => (fix go l := match l with [] => True | x :: r => regular_value x /\ go r end) l
  | JObject m => NoDup m.*1 /\ (fix go m := match m with [] => True | kv :: r => regular_value (snd kv) /\ go r end) m
  | JFloat bits => bits <> NEGATIVE_ZERO
  | _ => True
  end.

Lemma float_eqb_eq x y : x <> NEGATIVE_ZERO -> y <> NEGATIVE_ZERO -> (float_eqb x y = true <-> x = y).
Proof.
  unfold float_eqb, float_zero. generalize NEGATIVE_ZERO. intros z Hx Hy.
  rewrite orb_true_iff, andb_true_iff, !orb_true_iff, !Z.eqb_eq. naive_solver.
Qed.

Lemma regular_value_array l : regular_value (JArray l) <-> Forall regular_value l.
Proof. simpl. induction l as [|x l IH]; [by split|]. by rewrite list.Forall_cons, IH. Qed.
Lemma regular_value_object m :
  regular_value (JObject m) <-> NoDup m.*1 /\ Forall (fun kv => regular_value (snd kv)) m.
Proof.
  simpl. apply and_iff_compat_l. induction m as [|x m IH]; [by split|]. by rewrite list.Forall_cons, IH.
Qed.

(** ** Ordered entries *)

Definition key_before (a b : string * json) : Prop := str_compare (fst a) (fst b) = Lt.
Notation ordered := (Sorted.StronglySorted key_before).

Lemma entry_insert_elem k v m kv : kv ∈ entry_insert k v m -> kv = (k, v) \/ kv ∈ m.
Proof.
  induction m as [|[k' v'] m IH]; simpl; [set_solver|].
  destruct (str_compare k k'); set_solver.
Qed.
Lemma entry_insert_ordered k v m : ordered m -> ordered (entry_insert k v m).
Proof.
  induction 1 as [|[k' v'] m Hm IH Hall]; simpl; [repeat constructor|].
  destruct (str_compare k k') eqn:Hc.
  - apply str_compare_eq in Hc as ->. by constructor.
  - constructor; [by constructor|]. constructor; [done|].
    eapply List.Forall_impl; [|exact Hall]. intros a Ha. by eapply str_compare_trans.
  - constructor; [done|]. apply List.Forall_forall. intros a Ha%list_elem_of_In.
    apply entry_insert_elem in Ha as [->|Ha].
    + unfold key_before. simpl. rewrite str_compare_antisym, Hc. done.
    + apply list_elem_of_In in Ha. by eapply List.Forall_forall in Hall.
Qed.

Lemma entry_lookup_Some k m v : entry_lookup k m = Some v -> (k, v) ∈ m.
Proof.
  induction m as [|[k' v'] m IH]; simpl; [done|]. case_bool_decide; [|set_solver]. intros [= ->]. subst. set_solver.
Qed.
Lemma entry_lookup_elem k v m : NoDup m.*1 -> (k, v) ∈ m -> entry_lookup k m = Some v.
Proof.
  induction m as [|[k' v'] m IH]; simpl; [set_solver|]. intros [Hk Hm]%list.NoDup_cons [E|Hin]%elem_of_cons.
  - simplify_eq. by rewrite bool_decide_true.
  - rewrite bool_decide_false; [auto|]. intros ->. apply Hk. by apply (list_elem_of_fmap_2 fst m (k', v)) in Hin.
Qed.
Lemma entry_lookup_None k m : entry_lookup k m = None <-> k ∉ m.*1.
Proof.
  induction m as [|[k' v'] m IH]; simpl; [set_solver|]. case_bool_decide; [subst; set_solver|].
  rewrite IH. set_solver.
Qed.

(** With one member per key the order of entries does not matter to a lookup. *)
Lemma entry_lookup_perm k m m' : m ≡ₚ m' -> NoDup m.*1 -> entry_lookup k m = entry_lookup k m'.
Proof.
  intros Hp Hnd. assert (NoDup m'.*1) as Hnd' by by rewrite <- Hp.
  destruct (entry_lookup k m) as [v|] eqn:Hl.
  - symmetry. apply entry_lookup_elem; [done|]. rewrite <- Hp. by apply entry_lookup_Some.
  - symmetry. apply entry_lookup_None. rewrite <- Hp. by apply entry_lookup_None.
Qed.

Lemma ordered_lookup_below k m : Forall (key_before (k, JNull)) m -> entry_lookup k m = None.
Proof.
  intros Hall. apply entry_lookup_None. intros ([k' v] & -> & Hin)%list_elem_of_fmap.
  eapply list.Forall_forall in Hall; [|done]. unfold key_before in Hall. simpl in Hall. by rewrite str_compare_refl in Hall.
Qed.

(** Ordered entries are determined by what a lookup finds. *)
Lemma ordered_ext m m' : ordered m -> ordered m' -> (forall k, entry_lookup k m = entry_lookup k m') -> m = m'.
Proof.
  intros Hm. revert m'. induction Hm as [|[k v] m Hm IH Hall]; intros m' Hm' Hl.
  - destruct m' as [|[k' v'] m']; [done|]. specialize (Hl k'). simpl in Hl. by rewrite bool_decide_true in Hl.
  - destruct Hm' as [|[k' v'] m' Hm' Hall'].
    + specialize (Hl k). simpl in Hl. by rewrite bool_decide_true in Hl.
    + pose proof (ordered_lookup_below k m Hall) as Hk. pose proof (ordered_lookup_below k' m' Hall') as Hk'.
      destruct (str_compare k k') eqn:Hc.
      * apply str_compare_eq in Hc as ->. f_equal.
        -- specialize (Hl k'). simpl in Hl. rewrite bool_decide_true in Hl by done. by simplify_eq.
        -- apply IH; [done|]. intros k. destruct (decide (k = k')) as [->|Hne]; [by rewrite Hk, Hk'|].
           specialize (Hl k). simpl in Hl. by rewrite bool_decide_false in Hl by done.
      * exfalso. specialize (Hl k). simpl in Hl. rewrite bool_decide_true in Hl by done.
        rewrite bool_decide_false in Hl by (intros ->; by rewrite str_compare_refl in Hc).
        rewrite (ordered_lookup_below k m') in Hl; [done|].
        eapply List.Forall_impl; [|exact Hall']. intros a Ha. by eapply str_compare_trans.
      * exfalso. specialize (Hl k'). simpl in Hl. rewrite (bool_decide_true (k' = k')) in Hl by done.
        rewrite bool_decide_false in Hl by (intros ->; by rewrite str_compare_refl in Hc).
        rewrite (ordered_lookup_below k' m) in Hl; [done|].
        eapply List.Forall_impl; [|exact Hall]. intros a Ha. eapply str_compare_trans; [|exact Ha].
        simpl. by rewrite str_compare_antisym, Hc.
Qed.

(** ** The canonical form *)

Lemma fold_insert_ordered l m :
  ordered m -> ordered (fold_left (fun m kv => entry_insert (fst kv) (snd kv) m) l m).
Proof. revert m. induction l as [|kv l IH]; intros m Hm; simpl; [done|]. apply IH. by apply entry_insert_ordered. Qed.

Definition entries (j : json) : list (string * json) := match j with JObject m => m | _ => [] end.

Lemma canonical_object m :
  exists m', canonical_json (JObject m) = JObject m' /\ ordered m'.
Proof. eexists. split; [done|]. apply fold_insert_ordered. constructor. Qed.

(** A member of the canonical form is the canonical form of the member. *)
Lemma canonical_lookup k m :
  NoDup m.*1 -> entry_lookup k (entries (canonical_json (JObject m))) = canonical_json <$> entry_lookup k m.
Proof.
  intros Hnd. set (l := map (fun kv => (fst kv, canonical_json (snd kv))) m).
  assert (l.*1 = m.*1) as Hl.
  { subst l. clear Hnd. induction m as [|[k' v'] m IH]; simpl; [done|]. by f_equal. }
  change (entry_lookup k (entries (canonical_json (JObject m)))) with (jget k (jobject (order_by entry_leb l))).
  rewrite jget_jobject.
  assert (rev (order_by entry_leb l) ≡ₚ l) as Hp.
  { by rewrite <- Permutation_rev, order_by_perm. }
  rewrite (entry_lookup_perm k _ _ Hp) by (rewrite Hp, Hl; done).
  subst l. clear. induction m as [|[k' v'] m IH]; simpl; [done|]. by case_bool_decide.
Qed.

(** Canonical forms of two objects agree exactly when their members do. *)
Lemma canonical_objects_eq m m' :
  NoDup m.*1 -> NoDup m'.*1 ->
  (canonical_json (JObject m) = canonical_json (JObject m')
   <-> forall k, canonical_json <$> entry_lookup k m = canonical_json <$> entry_lookup k m').
Proof.
  intros Hm Hm'. destruct (canonical_object m) as (c & Hc & Ho). destruct (canonical_object m') as (c' & Hc' & Ho').
  split.
  - intros Heq k. by rewrite <- (canonical_lookup k m), <- (canonical_lookup k m'), Heq by done.
  - intros Hl. rewrite Hc, Hc'. f_equal. apply ordered_ext; [done..|]. intros k. specialize (Hl k).
    rewrite <- (canonical_lookup k m), <- (canonical_lookup k m'), Hc, Hc' in Hl by done. exact Hl.
Qed.

Lemma value_eqb_objects m m' :
  value_eqb (JObject m) (JObject m') = true
  <-> length m = length m'
      /\ Forall (fun kv => exists v, entry_lookup (fst kv) m' = Some v /\ value_eqb (snd kv) v = true) m.
Proof.
  simpl. rewrite andb_true_iff, Nat.eqb_eq. apply and_iff_compat_l.
  induction m as [|[k v] m IH]; [by split|].
  rewrite list.Forall_cons, andb_true_iff, IH. apply and_iff_compat_r. simpl.
  destruct (entry_lookup k m'); naive_solver.
Qed.

Lemma value_eqb_arrays l l' :
  value_eqb (JArray l) (JArray l') = true <-> Forall2 (fun a b => value_eqb a b = true) l l'.
Proof.
  simpl. revert l'. induction l as [|x l IH]; intros [|y l'].
  - by split.
  - split; [done|by inversion 1].
  - split; [done|by inversion 1].
  - rewrite andb_true_iff, IH. split; [intros []; by constructor|by inversion 1].
Qed.

Lemma same_keys_same_length (m m' : list (string * json)) :
  NoDup m.*1 -> NoDup m'.*1 -> (forall k, k ∈ m.*1 <-> k ∈ m'.*1) -> length m = length m'.
Proof.
  intros Hm Hm' Hk. rewrite <- (length_fmap fst m), <- (length_fmap fst m').
  apply Permutation_length. by apply NoDup_Permutation.
Qed.

Lemma included_keys_same (m m' : list (string * json)) :
  NoDup m.*1 -> length m = length m' -> (forall k, k ∈ m.*1 -> k ∈ m'.*1) -> forall k, k ∈ m'.*1 -> k ∈ m.*1.
Proof.
  intros Hm Hlen Hin k. rewrite !list_elem_of_In. revert k.
  apply NoDup_length_incl; [by apply NoDup_ListNoDup| |].
  - rewrite !length_fmap. lia.
  - intros k. rewrite <- !list_elem_of_In. auto.
Qed.

(** Objects: the members of one are those of the other, by induction. *)
Lemma canonical_decides_object m m' :
  Forall (fun kv => forall b, regular_value (snd kv) -> regular_value b ->
            (value_eqb (snd kv) b = true <-> canonical_json (snd kv) = canonical_json b)) m ->
  regular_value (JObject m) -> regular_value (JObject m') ->
  (value_eqb (JObject m) (JObject m') = true <-> canonical_json (JObject m) = canonical_json (JObject m')).
Proof.
  intros IH [Hm Hu]%regular_value_object [Hm' Hu']%regular_value_object.
  rewrite list.Forall_forall in IH, Hu, Hu'.
  assert (forall k v, entry_lookup k m' = Some v -> regular_value v) as Hv'.
  { intros k v Hl%entry_lookup_Some. by apply (Hu' (k, v)). }
  rewrite value_eqb_objects, canonical_objects_eq, list.Forall_forall by done. split.
  - intros [Hlen Hall] k.
    assert (forall k, k ∈ m.*1 -> k ∈ m'.*1) as Hincl.
    { intros k' ([k0 v] & -> & Hin)%list_elem_of_fmap. destruct (Hall _ Hin) as (v' & Hl & _).
      apply entry_lookup_Some in Hl. by apply (list_elem_of_fmap_2 fst m' (k0, v')). }
    destruct (entry_lookup k m) as [v|] eqn:Hl; simpl.
    + pose proof (entry_lookup_Some _ _ _ Hl) as Hin. destruct (Hall _ Hin) as (v' & Hl' & Heq). simpl in *.
      rewrite Hl'. simpl. f_equal. apply (IH _ Hin v'); eauto.
    + apply entry_lookup_None in Hl. assert (entry_lookup k m' = None) as ->; [|done].
      apply entry_lookup_None. intros Hk. apply Hl. by eapply included_keys_same.
  - intros Hl. split.
    + apply same_keys_same_length; [done..|]. intros k. pose proof (Hl k) as Hk.
      destruct (decide (k ∈ m.*1)) as [H1|H1], (decide (k ∈ m'.*1)) as [H2|H2]; try tauto; exfalso.
      * apply entry_lookup_None in H2. rewrite H2 in Hk. simpl in Hk. by apply fmap_None, entry_lookup_None in Hk.
      * apply entry_lookup_None in H1. rewrite H1 in Hk. simpl in Hk. symmetry in Hk. by apply fmap_None, entry_lookup_None in Hk.
    + intros [k v] Hin. pose proof (entry_lookup_elem _ _ _ Hm Hin) as Hk. specialize (Hl k). rewrite Hk in Hl. simpl in Hl.
      symmetry in Hl. apply fmap_Some in Hl as (v' & Hl' & Heq). exists v'. split; [done|].
      apply (IH _ Hin v'); eauto.
Qed.

(** [canonical_json] decides the equality of values. *)
Lemma canonical_json_decides a b :
  regular_value a -> regular_value b -> (value_eqb a b = true <-> canonical_json a = canonical_json b).
Proof.
  revert b. induction a as [|x|x|x|x|l IH|m IH] using json_nested_ind; intros b Ha Hb;
    destruct b as [|y|y|y|y|l'|m']; try (simpl; split; [done|discriminate]).
  - done.
  - simpl. rewrite Bool.eqb_true_iff. split; congruence.
  - simpl. rewrite Z.eqb_eq. split; congruence.
  - transitivity (x = y); [|simpl; split; congruence]. by apply float_eqb_eq.
  - simpl. rewrite String.eqb_eq. split; congruence.
  - rewrite regular_value_array in Ha, Hb. rewrite value_eqb_arrays.
    transitivity (map canonical_json l = map canonical_json l'); [|simpl; split; congruence].
    revert l' Hb Ha. induction IH as [|x l Hx _ IHl]; intros [|y l'] Hb Ha; simpl.
    + by split.
    + split; [by inversion 1|done].
    + split; [by inversion 1|done].
    + apply list.Forall_cons in Ha as [? ?], Hb as [? ?]. split.
      * inversion 1; subst. f_equal; [by apply Hx|by apply IHl].
      * intros [= ? ?]. constructor; [by apply Hx|by apply IHl].
  - by apply canonical_decides_object.
Qed.

Lemma ordered_nodup m : ordered m -> NoDup m.*1.
Proof.
  induction 1 as [|[k v] m _ IH Hall]; simpl; [constructor|]. constructor; [|done].
  apply entry_lookup_None. by apply ordered_lookup_below.
Qed.

(** The members of a canonical object are canonical forms of members. *)
Lemma canonical_member m k v :
  NoDup m.*1 -> (k, v) ∈ entries (canonical_json (JObject m)) ->
  exists v0, (k, v0) ∈ m /\ v = canonical_json v0.
Proof.
  intros Hnd Hin. destruct (canonical_object m) as (c & Hc & Ho). rewrite Hc in Hin.
  apply entry_lookup_elem in Hin; [|by apply ordered_nodup].
  assert (entry_lookup k (entries (canonical_json (JObject m))) = Some v) as Hl by by rewrite Hc.
  rewrite canonical_lookup in Hl by done. apply fmap_Some in Hl as (v0 & Hl & ->). exists v0. split; [|done]. by apply entry_lookup_Some.
Qed.

Lemma canonical_regular j : regular_value j -> regular_value (canonical_json j).
Proof.
  induction j as [| | | | |l IH|m IH] using json_nested_ind; intros Hj; try done.
  - apply regular_value_array in Hj. change (regular_value (JArray (map canonical_json l))).
    apply regular_value_array. induction IH as [|x l Hx _ IHl]; simpl; [done|].
    apply list.Forall_cons in Hj as [? ?]. constructor; auto.
  - apply regular_value_object in Hj as [Hnd Hm]. destruct (canonical_object m) as (c & Hc & Ho).
    pose proof (canonical_member m) as Hmem. rewrite Hc in *.
    apply regular_value_object. split; [by apply ordered_nodup|].
    apply list.Forall_forall. intros [k v] Hin. destruct (Hmem k v Hnd Hin) as (v0 & Hin0 & ->).
    rewrite list.Forall_forall in IH, Hm. by apply (IH _ Hin0), (Hm _ Hin0).
Qed.

Lemma canonical_idempotent j : regular_value j -> canonical_json (canonical_json j) = canonical_json j.
Proof.
  induction j as [| | | | |l IH|m IH] using json_nested_ind; intros Hj; try done.
  - apply regular_value_array in Hj. simpl. f_equal. induction IH as [|x l Hx _ IHl]; simpl; [done|].
    apply list.Forall_cons in Hj as [? ?]. f_equal; auto.
  - apply regular_value_object in Hj as [Hnd Hm]. destruct (canonical_object m) as (c & Hc & Ho).
    pose proof (fun k => canonical_lookup k m Hnd) as Hl. transitivity (canonical_json (JObject m)); [|done].
    rewrite Hc in Hl |- * at 1. simpl in Hl. apply canonical_objects_eq; [by apply ordered_nodup|done|]. intros k.
    rewrite (Hl k).
    destruct (entry_lookup k m) as [v|] eqn:Hv; [|done]. simpl. f_equal.
    rewrite list.Forall_forall in IH, Hm. apply entry_lookup_Some in Hv. by apply (IH _ Hv), (Hm _ Hv).
Qed.

Lemma value_eqb_refl j : regular_value j -> value_eqb j j = true.
Proof. intros Hj. by apply canonical_json_decides. Qed.

Lemma jget_canonical k j : regular_value j -> jget k (canonical_json j) = canonical_json <$> jget k j.
Proof.
  destruct j as [| | | | | |m]; try done. intros [Hm _]%regular_value_object. exact (canonical_lookup k m Hm).
Qed.
Lemma jget_str_canonical k j s : regular_value j -> jget_str k j = Some s -> jget_str k (canonical_json j) = Some s.
Proof.
  intros Hj. unfold jget_str. rewrite jget_canonical by done. destruct (jget k j) as [v|]; [|done]. simpl.
  by destruct v.
Qed.

(** ** Values up to the order of members *)

Definition same_value (a b : json) : Prop := canonical_json a = canonical_json b.
#[export] Instance same_value_equivalence : Equivalence same_value.
Proof. split; unfold same_value; repeat intro; congruence. Qed.
#[export] Instance canonical_json_proper : Proper (same_value ==> eq) canonical_json.
Proof. by intros a b. Qed.

Lemma same_value_perm m m' : m ≡ₚ m' -> NoDup m.*1 -> same_value (JObject m) (JObject m').
Proof.
  intros Hp Hm. apply canonical_objects_eq; [done|by rewrite <- Hp|]. intros k. by rewrite (entry_lookup_perm k m m').
Qed.
