(* ===== verification/X402Sdk.v ===== *)
(** * The official x402 types

    What [src/src/protocol/x402*.rs] uses of the crates [x402_types],
    [x402_chain_eip155], [x402_chain_solana], [alloy], [k256] and
    [solana_transaction].  Their records are listed with the fields the code
    reads; a chain identity, an address or a public key is kept as the text it
    prints, which identifies it, and bytes as bytes.  Their functions are the
    members of the classes [X402Sdk] (the [serde] codecs), [EvmCrypto] and
    [SolanaCrypto]. *)

From S2P Require Import Prelude Text Money Json.

#[local] Open Scope string_scope.
#[local] Open Scope vault_scope.

(** ** Challenges *)

Record ResourceInfo : Type := {
  ri_url : string;
  ri_description : option string;
  ri_mime_type : option string
}.
#[export] Instance ResourceInfo_eq_dec : EqDecision ResourceInfo.
Proof. solve_decision. Defined.

(** [PaymentRequired<OriginalJson>]: a requirement is kept as its raw text. *)
Record X402PaymentRequired : Type := {
  rq_error : option string;
  rq_resource : option ResourceInfo;
  rq_accepts : list string
}.

Inductive AssetTransferMethod : Type :=
| MethodEip3009 (name version : string)
| MethodPermit2.
#[export] Instance AssetTransferMethod_eq_dec : EqDecision AssetTransferMethod.
Proof. solve_decision. Defined.

Record EvmPaymentRequirements : Type := {
  er_scheme : string;
  er_network : string;
  er_amount : N;
  er_asset : string;
  er_pay_to : string;
  er_max_timeout_seconds : N;
  er_extra : AssetTransferMethod
}.
#[export] Instance EvmPaymentRequirements_eq_dec : EqDecision EvmPaymentRequirements.
Proof. solve_decision. Defined.

Record SolanaPaymentRequirements : Type := {
  sq_scheme : string;
  sq_network : string;
  sq_amount : N;
  sq_asset : string;
  sq_pay_to : string;
  sq_max_timeout_seconds : N;
  sq_fee_payer : string
}.
#[export] Instance SolanaPaymentRequirements_eq_dec : EqDecision SolanaPaymentRequirements.
Proof. solve_decision. Defined.

(** ** Payloads *)

(** Times are in seconds; the nonce is its 32 bytes. *)
Record Eip3009Authorization : Type := {
  ea_from : string;
  ea_to : string;
  ea_value : N;
  ea_valid_after : N;
  ea_valid_before : N;
  ea_nonce : string
}.
Record Eip3009Payload : Type := {
  e3_signature : string;
  e3_authorization : Eip3009Authorization
}.
(** The fields of a Permit2 payload are never read. *)
Inductive ExactEvmPayload : Type :=
| Eip3009 (payload : Eip3009Payload)
| Permit2.
Record EvmPaymentPayload : Type := {
  ep_accepted : EvmPaymentRequirements;
  ep_payload : ExactEvmPayload;
  ep_resource : option ResourceInfo;
  ep_extensions : option json
}.
Record SolanaPaymentPayload : Type := {
  so_accepted : SolanaPaymentRequirements;
  so_transaction : string;
  so_resource : option ResourceInfo;
  so_extensions : option json
}.

Inductive SettleResponse : Type :=
| SettleSuccess (payer transaction network : string)
| SettleError (reason network : string).
Inductive VerifyResponse : Type :=
| VerifyValid (payer : string)
| VerifyInvalid (reason : string) (payer : option string).

(** [serde_json::from_value] and [to_value] at these types, and the printed
    form of a nonce. *)
Class X402Sdk : Type := {
  payment_required_from_value : json -> Result string X402PaymentRequired;
  payment_required_to_value : X402PaymentRequired -> Result string json;
  evm_requirement_from_value : json -> Result string EvmPaymentRequirements;
  evm_requirement_to_value : EvmPaymentRequirements -> Result string json;
  solana_requirement_from_value : json -> Result string SolanaPaymentRequirements;
  solana_requirement_to_value : SolanaPaymentRequirements -> Result string json;
  evm_payload_from_value : json -> Result string EvmPaymentPayload;
  evm_payload_to_value : EvmPaymentPayload -> Result string json;
  solana_payload_from_value : json -> Result string SolanaPaymentPayload;
  solana_payload_to_value : SolanaPaymentPayload -> Result string json;
  settle_response_from_value : json -> Result string SettleResponse;
  verify_response_from_value : json -> Result string VerifyResponse;
  (** [B256::to_string] *)
  b256_to_string : string -> string
}.

(** ** EVM *)

(** [TransferWithAuthorization] with the EIP-712 domain it is hashed under. *)
Record TransferWithAuthorization : Type := {
  tw_domain_name : string;
  tw_domain_version : string;
  tw_chain_id : N;
  tw_verifying_contract : string;
  tw_authorization : Eip3009Authorization
}.

Class EvmCrypto : Type := {
  (** [str::parse::<Address>] and [ChecksummedAddress]: the address as printed *)
  address_from_str : string -> option string;
  checksummed_from_str : string -> option string;
  (** [str::parse::<ChainId>] and [Eip155ChainReference::try_from] *)
  chain_id_from_str : string -> option string;
  eip155_reference : string -> option N;
  (** [eip712_signing_hash] *)
  eip712_signing_hash : TransferWithAuthorization -> string;
  (** [Signature::try_from] accepts 64 bytes *)
  ecdsa_signature_valid : string -> bool;
  (** [VerifyingKey::recover_from_prehash], as the uncompressed point *)
  recover_from_prehash : string -> string -> N -> option string;
  keccak256 : string -> string
}.

(** ** Solana *)

(** A versioned transaction: signer count and account keys of its message, the
    serialized message and the signatures. *)
Record VersionedTransaction : Type := {
  vt_num_required_signatures : N;
  vt_static_account_keys : list string;
  vt_message : string;
  vt_signatures : list string
}.

(** An SDK call that asks a [Signer] for signatures while it runs. *)
Inductive Signing (A : Type) : Type :=
| SignMessage (message : string) (k : Result string string -> Signing A)
| SigningDone (r : Result string A).
Arguments SignMessage {A} message k.
Arguments SigningDone {A} r.

Class SolanaCrypto : Type := {
  (** [ChainId::from_str] with [SolanaChainReference::try_from] *)
  solana_chain_reference : string -> bool;
  (** [bincode::deserialize] *)
  transaction_from_bytes : string -> option VersionedTransaction;
  (** [TransactionInt::as_base64] *)
  transaction_as_base64 : VersionedTransaction -> Result string string;
  (** [TransactionInt::sign_with_keypair] for a signer's public key *)
  sign_with_keypair : VersionedTransaction -> string -> Signing VersionedTransaction;
  (** [build_signed_transfer_transaction] for a signer's public key, the fee
      payer, the recipient, the mint and the amount *)
  build_signed_transfer_transaction : string -> string -> string -> string -> N -> Signing string;
  (** [SolanaSignature::verify]: signature, public key, message *)
  ed25519_verify : string -> string -> string -> bool
}.

(** [Base64Bytes] *)
Class Base64 : Type := {
  base64_decode : string -> option string;
  base64_encode : string -> string
}.
