(* ===== verification/X402Evm.v ===== *)
(** * The EVM side of x402

    [src/src/protocol/x402_evm.rs] with the requirement checks of
    [x402_wire.rs] it calls: the shape of an EIP-3009 payload, the digest a
    wallet signs, the payer a signature proves, and the authorization identity
    that settlement recovery looks up on chain. *)

From S2P Require Import Prelude Text Money Json Wallet Ledger Store X402Sdk.

#[local] Open Scope string_scope.
#[local] Open Scope vault_scope.

(** ** The wire shape *)

(** [X402Wire::exact_object_fields] *)
Definition exact_object_fields (value : json) (required allowed : list string) (name : string) : Result Error unit :=
  match value with
  | JObject m =>
      reject_if (existsb (fun field => is_none (jget field value)) required
                 || existsb (fun kv => bool_decide (fst kv ∉ allowed)) m)
                (PaymentProtocol ("x402 " ++ name ++ " fields do not match the official wire"))
  | _ => Err (PaymentProtocol ("x402 " ++ name ++ " must be an object"))
  end.

Definition field_of (value : json) (field name : string) : Result Error json :=
  ok_or (jget field value) (PaymentProtocol ("x402 paymentPayload " ++ name ++ " is missing")).

Definition requirement_fields : list string :=
  ["scheme"; "network"; "amount"; "asset"; "payTo"; "maxTimeoutSeconds"; "extra"].
Definition authorization_fields : list string := ["from"; "to"; "value"; "validAfter"; "validBefore"; "nonce"].

(** [X402Evm::validate_payment_payload_wire] *)
Definition validate_payment_payload_wire (value : json) : Result Error unit :=
  exact_object_fields value ["x402Version"; "accepted"; "payload"]
    ["x402Version"; "accepted"; "payload"; "resource"; "extensions"] "paymentPayload" ;?
  let? accepted := field_of value "accepted" "accepted" in
  exact_object_fields accepted requirement_fields requirement_fields "paymentPayload.accepted" ;?
  let? extra := field_of accepted "extra" "accepted.extra" in
  exact_object_fields extra ["name"; "version"] ["assetTransferMethod"; "name"; "version"]
    "paymentPayload.accepted.extra" ;?
  let? payload := field_of value "payload" "payload" in
  exact_object_fields payload ["signature"; "authorization"] ["signature"; "authorization"] "paymentPayload.payload" ;?
  let? authorization := field_of payload "authorization" "authorization" in
  exact_object_fields authorization authorization_fields authorization_fields "paymentPayload.payload.authorization" ;?
  match jget "resource" value with
  | Some resource => exact_object_fields resource ["url"] ["url"; "description"; "mimeType"] "paymentPayload.resource"
  | None => Ok tt
  end.

Record Eip3009AuthorizationIdentity : Type := {
  ei_payer : string;
  ei_nonce : string;
  ei_valid_before : Z
}.

(** ** Requirements *)

Definition EXACT_SCHEME : string := "exact".

(** [X402Evm::valid_network] *)
Definition evm_valid_network (network : string) : bool :=
  is_some_and (fun chain => negb (is_empty chain) && bytes_all is_ascii_digit chain)
              (Text.strip_prefix "eip155:" network).
(** [X402Evm::valid_address] *)
Definition evm_valid_address `{SolanaPubkey} (value : string) : bool :=
  is_ok (canonicalize_wallet_address EVM_EOA_ALGORITHM value).
(** [X402Evm::valid_signature] *)
Definition evm_valid_signature (signature : string) : bool := (str_len signature =? 65)%N.

Inductive X402Requirement : Type :=
| Evm (requirement : EvmPaymentRequirements)
| Solana (requirement : SolanaPaymentRequirements).
#[export] Instance X402Requirement_eq_dec : EqDecision X402Requirement.
Proof. solve_decision. Defined.

Definition requirement_network (r : X402Requirement) : string :=
  match r with Evm q => er_network q | Solana q => sq_network q end.
Definition requirement_asset (r : X402Requirement) : string :=
  match r with Evm q => er_asset q | Solana q => sq_asset q end.
Definition requirement_pay_to (r : X402Requirement) : string :=
  match r with Evm q => er_pay_to q | Solana q => sq_pay_to q end.
Definition requirement_max_timeout_seconds (r : X402Requirement) : N :=
  match r with Evm q => er_max_timeout_seconds q | Solana q => sq_max_timeout_seconds q end.

(** [X402Wire::amount_from_u256] *)
Definition amount_from_u256 (value : N) : Result Error Amount :=
  reject_if (U128_MAX <? value)%N (PaymentProtocol "payment amount exceeds supported precision") ;?
  reject_if (value =? 0)%N (PaymentProtocol "payment amount must be a positive base-unit integer") ;?
  Ok value.
(** [X402Requirement::amount] *)
Definition requirement_amount (r : X402Requirement) : Result Error Amount :=
  match r with
  | Evm q => amount_from_u256 (er_amount q)
  | Solana q =>
      reject_if (sq_amount q =? 0)%N (PaymentProtocol "payment amount must be a positive base-unit integer") ;?
      Ok (sq_amount q)
  end.

Section Requirements.
Context `{SolanaCrypto}.

(** [X402Solana::valid_network] *)
Definition solana_valid_network (network : string) : bool := solana_chain_reference network.

(** [X402Wire::validate_requirement] *)
Definition validate_requirement (requirement : X402Requirement) (max_timeout : N) : Result Error unit :=
  let valid :=
    match requirement with
    | Evm q =>
        (er_scheme q == EXACT_SCHEME) && evm_valid_network (er_network q)
        && match er_extra q with MethodEip3009 name version => (name == "USDC") && (version == "2") | MethodPermit2 => false end
        && negb (er_amount q =? 0)%N
    | Solana q => (sq_scheme q == EXACT_SCHEME) && solana_valid_network (sq_network q) && (0 <? sq_amount q)%N
    end in
  reject_if (negb valid || (requirement_max_timeout_seconds requirement =? 0)%N
             || (max_timeout <? requirement_max_timeout_seconds requirement)%N)
            (PaymentProtocol "unsupported or unsafe x402 requirement").
End Requirements.

(** ** Payloads *)

Section Decoding.
Context `{X402Sdk}.

(** [X402Evm::decode_payment_payload] *)
Definition decode_payment_payload (value : json) : Result Error EvmPaymentPayload :=
  validate_payment_payload_wire value ;?
  map_err (fun error => PaymentProtocol ("invalid x402 payment payload: " ++ error)) (evm_payload_from_value value).

(** [X402Evm::authorization_payload] *)
Definition authorization_payload (payload : EvmPaymentPayload) : Result Error Eip3009Payload :=
  match ep_payload payload with
  | Eip3009 payload => Ok payload
  | Permit2 => Err (PaymentProtocol "x402 exact currently supports only EIP-3009")
  end.

(** [X402Evm::authorization_payload_mut] with the assignment of a signature *)
Definition with_signature (payload : EvmPaymentPayload) (signature : string) : Result Error EvmPaymentPayload :=
  match ep_payload payload with
  | Eip3009 e =>
      Ok {| ep_accepted := ep_accepted payload;
            ep_payload := Eip3009 {| e3_signature := signature; e3_authorization := e3_authorization e |};
            ep_resource := ep_resource payload; ep_extensions := ep_extensions payload |}
  | Permit2 => Err (PaymentProtocol "x402 exact currently supports only EIP-3009")
  end.

(** [X402Evm::payer] *)
Definition evm_payer (value : json) : Result Error string :=
  let? payload := decode_payment_payload value in
  let? e := authorization_payload payload in
  Ok (ea_from (e3_authorization e)).

(** [X402Evm::authorization_identity] *)
Definition authorization_identity (value : json) : Result Error Eip3009AuthorizationIdentity :=
  let? payload := decode_payment_payload value in
  let? e := authorization_payload payload in
  let authorization := e3_authorization e in
  reject_if (negb (i64_in_range (Z.of_N (ea_valid_before authorization))))
            (PaymentProtocol "x402 validBefore is invalid") ;?
  Ok {| ei_payer := ea_from authorization; ei_nonce := b256_to_string (ea_nonce authorization);
        ei_valid_before := Z.of_N (ea_valid_before authorization) |}.

Context `{EvmCrypto, SolanaCrypto}.

(** [X402Evm::digest], of a decoded payload *)
Definition payload_digest (payload : EvmPaymentPayload) : Result Error string :=
  let requirement := ep_accepted payload in
  validate_requirement (Evm requirement) U64_MAX ;?
  let? e := authorization_payload payload in
  let? chain_id := ok_or (eip155_reference (er_network requirement)) (PaymentProtocol "x402 EIP-712 chain ID is invalid") in
  match er_extra requirement with
  | MethodEip3009 name version =>
      Ok (eip712_signing_hash
            {| tw_domain_name := name; tw_domain_version := version; tw_chain_id := chain_id;
               tw_verifying_contract := er_asset requirement; tw_authorization := e3_authorization e |})
  | MethodPermit2 => Err (PaymentProtocol "x402 exact currently supports only EIP-3009")
  end.
(** [X402Evm::digest] *)
Definition evm_digest (value : json) : Result Error string :=
  let? payload := decode_payment_payload value in payload_digest payload.

(** The recovery identity a 65-byte signature ends with. *)
Definition recovery_id (byte : N) : option N :=
  if (byte <=? 1)%N then Some byte
  else if ((byte =? 27) || (byte =? 28))%N then Some (byte - 27)%N
  else None.

(** [X402Evm::verify_signature] *)
Definition verify_signature (value : json) : Result Error string :=
  let? payload := decode_payment_payload value in
  let? e := authorization_payload payload in
  let bytes := e3_signature e in
  reject_if (negb (str_len bytes =? 65)%N) (PaymentProtocol "x402 EIP-3009 signature is invalid") ;?
  let signature := String.substring 0 64 bytes in
  reject_if (negb (ecdsa_signature_valid signature)) (PaymentProtocol "x402 EIP-3009 signature is invalid") ;?
  let? recovery := ok_or (byte ← String.get 64 bytes; recovery_id (byte_of byte))
                         (PaymentProtocol "x402 EIP-3009 recovery ID is invalid") in
  let? digest := evm_digest value in
  let? point := ok_or (recover_from_prehash digest signature recovery)
                      (PaymentProtocol "x402 EIP-3009 signature recovery failed") in
  let hash := keccak256 (String.substring 1 (String.length point - 1) point) in
  Ok ("0x" ++ hex_encode (String.substring 12 (String.length hash - 12) hash)).
End Decoding.
