(* ===== verification/X402Solana.v ===== *)
(** * The Solana side of x402

    [src/src/protocol/x402_solana.rs]: the shape of a payload, the signer layout
    of its transaction, the payer a signature proves, and the two signers that
    bridge the official transaction builder to the vault: one only captures the
    message to be signed, the other hands out one signature for one message. *)

From S2P Require Import Prelude Text Money Json Wallet Authorizer X402Sdk X402Evm.

#[local] Open Scope string_scope.
#[local] Open Scope vault_scope.

Definition MAX_X402_HTTP_WIRE_BYTES : N := 65536.

(** [SolanaSignature::default]: 64 zero bytes *)
Fixpoint zero_bytes (n : nat) : string :=
  match n with O => "" | S n' => String zero (zero_bytes n') end.
Definition default_signature : string := zero_bytes 64.

(** ** Signers *)

(** [DeferredSolanaSigner::try_sign_message]: the captured message is the state. *)
Definition deferred_sign (captured : option string) (message : string) : Result string string * option string :=
  if is_some_and (fun prior => prior != message) captured
  then (Err "official x402 Solana builder requested multiple messages", captured)
  else (Ok default_signature, Some message).

(** A builder run against the deferred signer. *)
Fixpoint run_deferred {A} (captured : option string) (build : Signing A) : Result string A * option string :=
  match build with
  | SignMessage message k =>
      let '(reply, captured') := deferred_sign captured message in
      run_deferred captured' (k reply)
  | SigningDone r => (r, captured)
  end.

(** [DeferredSolanaSigner::message] *)
Definition deferred_message (captured : option string) : Result Error string :=
  ok_or captured (PaymentProtocol "official x402 Solana builder did not request a signature").

Record FixedSolanaSigner : Type := {
  fs_pubkey : string;
  fs_message : string;
  fs_signature : string
}.

Section Solana.
Context `{SolanaCrypto, X402Sdk, Base64}.

(** [FixedSolanaSigner::try_sign_message] *)
Definition fixed_sign (signer : FixedSolanaSigner) (message : string) : Result string string :=
  if (message != fs_message signer) || negb (ed25519_verify (fs_signature signer) (fs_pubkey signer) message)
  then Err "Solana signature does not match the intent-bound transaction message"
  else Ok (fs_signature signer).

Fixpoint run_fixed {A} (signer : FixedSolanaSigner) (call : Signing A) : Result string A :=
  match call with
  | SignMessage message k => run_fixed signer (k (fixed_sign signer message))
  | SigningDone r => r
  end.

(** ** Transactions *)

(** [X402Solana::decode_transaction] *)
Definition decode_transaction (encoded : string) : Result Error VersionedTransaction :=
  reject_if (is_empty encoded || (MAX_X402_HTTP_WIRE_BYTES <? str_len encoded)%N)
            (PaymentProtocol "x402 Solana transaction encoding is invalid") ;?
  let? bytes := ok_or (base64_decode encoded) (PaymentProtocol "x402 Solana transaction is not valid base64") in
  ok_or (transaction_from_bytes bytes) (PaymentProtocol "x402 Solana transaction is malformed").

(** [X402Solana::required_signers] *)
Definition required_signers (t : VersionedTransaction) : Result Error (list string) :=
  let required := vt_num_required_signatures t in
  let keys := vt_static_account_keys t in
  reject_if ((required =? 0)%N || (N.of_nat (length keys) <? required)%N
             || negb (N.of_nat (length (vt_signatures t)) =? required)%N)
            (PaymentProtocol "x402 Solana transaction signer layout is invalid") ;?
  Ok (take (N.to_nat required) keys).

(** [X402Solana::unsigned_payer_from_requirement] *)
Definition unsigned_payer_from_requirement (t : VersionedTransaction) (requirement : SolanaPaymentRequirements)
  : Result Error string :=
  let? signers := required_signers t in
  match signers with
  | [fee_payer; payer] =>
      reject_if ((fee_payer != sq_fee_payer requirement)
                 || existsb (fun signature => signature != default_signature) (vt_signatures t))
                (PaymentProtocol "unsigned x402 Solana transaction signer binding is invalid") ;?
      Ok payer
  | _ => Err (PaymentProtocol "unsigned x402 Solana transaction signer binding is invalid")
  end.

(** [X402Solana::unsigned_payer] *)
Definition unsigned_payer (t : VersionedTransaction) (requirement : SolanaPaymentRequirements) (expected : string)
  : Result Error string :=
  let? payer := unsigned_payer_from_requirement t requirement in
  reject_if (payer != expected)
            (PaymentProtocol "official x402 Solana transaction is bound to a different payer") ;?
  Ok payer.

(** [X402Solana::payer]: two signers have two signatures. *)
Definition solana_payer (t : VersionedTransaction) (requirement : SolanaPaymentRequirements) : Result Error string :=
  let? signers := required_signers t in
  match signers, vt_signatures t with
  | [fee_payer; payer], s0 :: s1 :: _ =>
      reject_if ((fee_payer != sq_fee_payer requirement) || (s0 != default_signature) || (s1 == default_signature)
                 || negb (ed25519_verify s1 payer (vt_message t)))
                (PaymentProtocol "x402 Solana payer signature or fee-payer binding is invalid") ;?
      Ok payer
  | _, _ => Err (PaymentProtocol "x402 Solana payer signature or fee-payer binding is invalid")
  end.

(** ** Payloads *)

(** [X402Solana::validate_payment_payload_wire] *)
Definition solana_validate_payment_payload_wire (value : json) : Result Error unit :=
  exact_object_fields value ["x402Version"; "accepted"; "payload"]
    ["x402Version"; "accepted"; "payload"; "resource"; "extensions"] "paymentPayload" ;?
  let? accepted := field_of value "accepted" "accepted" in
  exact_object_fields accepted requirement_fields requirement_fields "paymentPayload.accepted" ;?
  let? extra := field_of accepted "extra" "accepted.extra" in
  exact_object_fields extra ["feePayer"] ["feePayer"] "paymentPayload.accepted.extra" ;?
  let? payload := field_of value "payload" "payload" in
  exact_object_fields payload ["transaction"] ["transaction"] "paymentPayload.payload" ;?
  match jget "resource" value with
  | Some resource => exact_object_fields resource ["url"] ["url"; "description"; "mimeType"] "paymentPayload.resource"
  | None => Ok tt
  end.

(** [X402Solana::decode_payment_payload] *)
Definition solana_decode_payment_payload (value : json) : Result Error SolanaPaymentPayload :=
  solana_validate_payment_payload_wire value ;?
  map_err (fun error => PaymentProtocol ("invalid x402 Solana payment payload: " ++ error))
          (solana_payload_from_value value).

(** [X402Solana::payment_payer] *)
Definition payment_payer (value : json) : Result Error string :=
  let? payload := solana_decode_payment_payload value in
  let? t := decode_transaction (so_transaction payload) in
  solana_payer t (so_accepted payload).

(** ** Signing *)

(** [X402Solana::complete_signing] *)
Definition solana_complete_signing (request : ProtocolSigningRequest) (signature : string) : Result Error json :=
  let? payload := solana_decode_payment_payload (pr_payload request) in
  let? t := decode_transaction (so_transaction payload) in
  let message := vt_message t in
  reject_if ((pr_digest request != message) || negb (str_len signature =? 64)%N)
            (PaymentProtocol "x402 signer returned invalid Solana transaction material") ;?
  let? payer := unsigned_payer_from_requirement t (so_accepted payload) in
  let signer := {| fs_pubkey := payer; fs_message := message; fs_signature := signature |} in
  let? signed := map_err (fun error => PaymentProtocol ("complete official x402 Solana transaction: " ++ error))
                         (run_fixed signer (sign_with_keypair t payer)) in
  let? encoded := map_err (fun error => PaymentProtocol ("encode official x402 Solana transaction: " ++ error))
                          (transaction_as_base64 signed) in
  let? value := map_err Prelude.Json
                  (solana_payload_to_value {| so_accepted := so_accepted payload; so_transaction := encoded;
                                              so_resource := so_resource payload; so_extensions := so_extensions payload |}) in
  let? completed := solana_decode_payment_payload value in
  let? completed_transaction := decode_transaction (so_transaction completed) in
  solana_payer completed_transaction (so_accepted completed) ;?
  Ok value.

Context `{SolanaPubkey}.

(** [X402Adapter::prepare_solana_signing] for the configured fee payer of the
    requirement's network, if there is one. *)
Definition prepare_solana_signing (resource : option ResourceInfo) (requirement : SolanaPaymentRequirements)
  (payer : string) (configured_fee_payer : option string) : Result Error ProtocolSigningRequest :=
  let? payer := map_err (fun _ => PaymentProtocol "x402 payer is not a valid Solana address")
                        (canonicalize_wallet_address SOLANA_ED25519_ALGORITHM payer) in
  let? payer := ok_or (pubkey_to_string <$> pubkey_from_str payer)
                      (PaymentProtocol "x402 payer is not a valid Solana address") in
  let? fee_payer := ok_or configured_fee_payer (PaymentProtocol "x402 Solana runtime is not configured") in
  reject_if (fee_payer != sq_fee_payer requirement)
            (PaymentProtocol "x402 Solana fee payer binding changed before signing") ;?
  let '(built, captured) :=
    run_deferred None (build_signed_transfer_transaction payer fee_payer (sq_pay_to requirement)
                         (sq_asset requirement) (sq_amount requirement)) in
  let? transaction := map_err (fun error => PaymentProtocol ("build official x402 Solana transaction: " ++ error)) built in
  let? digest := deferred_message captured in
  let? decoded := decode_transaction transaction in
  reject_if (vt_message decoded != digest)
            (PaymentProtocol "official x402 Solana builder signed unexpected message bytes") ;?
  unsigned_payer decoded requirement payer ;?
  let? payload := map_err Prelude.Json
                    (solana_payload_to_value {| so_accepted := requirement; so_transaction := transaction;
                                                so_resource := resource; so_extensions := None |}) in
  Ok {| pr_digest := digest; pr_payload := payload |}.
End Solana.
