(* ===== verification/X402Wire.v ===== *)
(** * The x402 wire

    [src/src/protocol/x402_wire.rs]: what the adapter reads from a challenge and
    from a payload, the checks that bind a payload to its challenge, and the
    digests that give a challenge and a credential their identity.  The
    construction of the adapter is the one of [x402.rs].

    [serde_json] parses a document into a value with one member per key, the
    last one given; [parse_value] keeps its members in key order. *)

From S2P Require Import Prelude Text Money Json Wallet Intent Policy Ledger Records Store Authorizer SigningService CanonicalJson X402Sdk X402Evm X402Solana.

#[local] Open Scope string_scope.
#[local] Open Scope vault_scope.

Definition X402_PROTOCOL : string := "x402".

(** ** Text *)

(** [X402Wire::hash_values] *)
Definition hash_values `{Sha256} (values : list string) : string := hex_encode (sha256 (frame values)).

(** A text of [is_ascii_graphic] bytes within the limits of a header. *)
Definition header_text_ok (encoded : string) : bool :=
  negb (is_empty encoded || (MAX_X402_HTTP_WIRE_BYTES <? str_len encoded)%N
        || negb (bytes_all is_ascii_graphic encoded)).

(** [serde_json::from_slice::<Value>] *)
Definition parse_value `{JsonParse} (text : string) : option json := canonical_json <$> json_from_slice text.

(** ** The adapter *)

Record X402Asset : Type := {
  xa_network : string;
  xa_contract : string;
  xa_symbol : string;
  xa_decimals : N
}.

(** [X402SolanaConfig]; a timeout is in nanoseconds. *)
Record X402SolanaConfig : Type := {
  sc_network : string;
  sc_fee_payer : string;
  sc_rpc_url : string;
  sc_rpc_timeout : N;
  sc_rpc_max_response_bytes : N;
  sc_rpc_headers : list (string * string);
  sc_allow_insecure_loopback : bool
}.

(** [X402Adapter]; of a Solana runtime only the fee payer is read here. *)
Record X402Adapter : Type := {
  xd_assets : list X402Asset;
  xd_max_timeout_seconds : N;
  xd_solana : gmap string string
}.

Section Construction.
Context `{SolanaPubkey, SolanaCrypto}.

Definition x402_asset_valid (asset : X402Asset) : bool :=
  if evm_valid_network (xa_network asset) then evm_valid_address (xa_contract asset)
  else if solana_valid_network (xa_network asset) then is_some (pubkey_from_str (xa_contract asset))
  else false.

(** The loop over [assets]; [prior] are the ones before. *)
Fixpoint check_x402_assets (prior assets : list X402Asset) : Result Error unit :=
  match assets with
  | [] => Ok tt
  | asset :: rest =>
      reject_if (negb (x402_asset_valid asset) || negb (eq_ignore_ascii_case (xa_symbol asset) "USDC")
                 || negb (xa_decimals asset =? 6)%N
                 || existsb (fun p => (xa_network p == xa_network asset)
                                      && payment_recipients_match (xa_network asset) (xa_contract p) (xa_contract asset))
                            prior)
                (Config "x402 v2 assets must be unique registered EVM or Solana USDC deployments") ;?
      check_x402_assets (prior ++ [asset])%list rest
  end.

(** [X402Adapter::new_with_solana]; [build_rpc] is the construction of the HTTP
    client of a runtime. *)
Definition new_with_solana (build_rpc : X402SolanaConfig -> Result Error unit) (assets : list X402Asset)
  (max_timeout_seconds : N) (solana : list X402SolanaConfig) : Result Error X402Adapter :=
  reject_if (match assets with [] => true | _ => false end || (max_timeout_seconds =? 0)%N || (3600 <? max_timeout_seconds)%N)
            (Config "x402 asset registry or timeout is invalid") ;?
  check_x402_assets [] assets ;?
  let? runtime :=
    rfold (fun runtime config =>
             reject_if (negb (solana_valid_network (sc_network config))
                        || negb (existsb (fun asset => xa_network asset == sc_network config) assets)
                        || (sc_rpc_timeout config =? 0)%N || (sc_rpc_max_response_bytes config =? 0)%N)
                       (Config "x402 Solana runtime binding is invalid") ;?
             let? fee_payer := ok_or (pubkey_to_string <$> pubkey_from_str (sc_fee_payer config))
                                     (Config "x402 Solana fee payer is invalid") in
             build_rpc config ;?
             reject_if (is_some (runtime !! sc_network config)) (Config "duplicate x402 Solana runtime binding") ;?
             Ok (<[sc_network config := fee_payer]> runtime))
          (∅ : gmap string string) solana in
  reject_if (existsb (fun asset => solana_valid_network (xa_network asset) && is_none (runtime !! xa_network asset)) assets)
            (Config "every x402 Solana asset requires a fixed runtime binding") ;?
  Ok {| xd_assets := assets; xd_max_timeout_seconds := max_timeout_seconds; xd_solana := runtime |}.
(** [X402Adapter::new] *)
Definition x402_new (build_rpc : X402SolanaConfig -> Result Error unit) (assets : list X402Asset)
  (max_timeout_seconds : N) : Result Error X402Adapter := new_with_solana build_rpc assets max_timeout_seconds [].

(** [X402Adapter::registered_asset] *)
Definition registered_asset (a : X402Adapter) (network contract : string) : Result Error AssetIdentity :=
  let? registered := ok_or (List.find (fun asset => (xa_network asset == network)
                                                    && payment_recipients_match network (xa_contract asset) contract)
                                      (xd_assets a))
                           (PaymentProtocol "x402 asset or network is not registered") in
  Ok {| as_network := xa_network registered; as_asset := xa_symbol registered;
        as_token_contract := Some (xa_contract registered); as_decimals := xa_decimals registered |}.
End Construction.

(** ** Resources *)

(** [X402Wire::validate_resource] *)
Definition x402_validate_resource `{UrlParser} (resource : string) : Result Error unit :=
  let? parsed := ok_or (url_parse resource) (PaymentProtocol "payment resource is not an absolute URL") in
  reject_if (negb ((url_scheme parsed == "http") || (url_scheme parsed == "https"))
             || is_none (url_host_str parsed) || negb (is_empty (url_username parsed))
             || is_some (url_password parsed) || is_some (url_fragment parsed))
            (PaymentProtocol "payment resource URL is unsafe").

(** [X402Wire::resource_matches] *)
Definition resource_matches (resource : ResourceInfo) (expected : option ResourceInfo) : bool :=
  is_some_and (fun expected => (ri_url resource == ri_url expected) && (ri_description resource == ri_description expected)
                               && (ri_mime_type resource == ri_mime_type expected)) expected.
(** [X402Wire::payload_resource_matches] *)
Definition payload_resource_matches (resource expected : option ResourceInfo) (url : string) : bool :=
  is_none_or (fun resource => resource_matches resource expected && (ri_url resource == url)) resource.

(** ** HTTP *)

(** [X402Adapter::header_value] *)
Definition header_value (headers : list (string * string)) (wanted : string) : option string :=
  snd <$> List.find (fun h => eq_ignore_ascii_case (fst h) wanted) headers.

Section Http.
Context `{JsonParse, Base64}.

(** [X402Adapter::decode_payment_required_header] *)
Definition decode_payment_required_header (encoded : string) : Result Error json :=
  reject_if (negb (header_text_ok encoded)) (PaymentProtocol "x402 PAYMENT-REQUIRED header is invalid") ;?
  let? decoded := ok_or (base64_decode encoded) (PaymentProtocol "x402 PAYMENT-REQUIRED is not valid base64") in
  reject_if (is_empty decoded || (MAX_X402_HTTP_WIRE_BYTES <? str_len decoded)%N)
            (PaymentProtocol "x402 PAYMENT-REQUIRED payload is too large") ;?
  ok_or (parse_value decoded) (PaymentProtocol "invalid x402 PAYMENT-REQUIRED JSON").

(** [X402Adapter::decode_payment_required_body] *)
Definition decode_payment_required_body (body : string) : Result Error (option json) :=
  if blank body then Ok None
  else
    reject_if (MAX_X402_HTTP_WIRE_BYTES <? str_len body)%N (PaymentProtocol "x402 402 body is too large") ;?
    Ok (value ← parse_value body;
        if is_some (jget "x402Version" value)
           && is_some_and (fun accepts => match accepts with JArray _ => true | _ => false end) (jget "accepts" value)
        then Some value else None).

(** [X402Wire::strict_variant_wire] *)
Definition strict_variant_wire (response discriminant : string)
  (success_required success_allowed error_required error_allowed : list string) : Result Error json :=
  let? value := ok_or (parse_value response) (Settlement "invalid x402 facilitator response") in
  match value with
  | JObject object =>
      let? success := ok_or (v ← entry_lookup discriminant object; as_bool v)
                            (Settlement ("x402 facilitator response has no boolean " ++ discriminant)) in
      let '(required, allowed) :=
        if (success : bool) then (success_required, success_allowed) else (error_required, error_allowed) in
      reject_if (existsb (fun field => is_none (entry_lookup field object)) required
                 || existsb (fun kv => bool_decide (fst kv ∉ allowed)) object)
                (Settlement "x402 facilitator response fields do not match the official wire variant") ;?
      Ok value
  | _ => Err (Settlement "x402 facilitator response must be an object")
  end.

Context `{X402Sdk}.

(** [X402Wire::parse_verify_response] *)
Definition parse_verify_response (response : string) : Result Error VerifyResponse :=
  let? wire := strict_variant_wire response "isValid" ["isValid"; "payer"] ["isValid"; "payer"]
                 ["isValid"; "invalidReason"] ["isValid"; "invalidReason"; "payer"] in
  map_err (fun error => Settlement ("invalid x402 /verify response: " ++ error)) (verify_response_from_value wire).
(** [X402Wire::parse_settle_response] *)
Definition parse_settle_response (response : string) : Result Error SettleResponse :=
  let? wire := strict_variant_wire response "success" ["success"; "payer"; "transaction"; "network"]
                 ["success"; "payer"; "transaction"; "network"] ["success"; "errorReason"; "network"]
                 ["success"; "errorReason"; "network"] in
  map_err (fun error => Settlement ("invalid x402 /settle response: " ++ error)) (settle_response_from_value wire).
End Http.

(** ** Challenge identity *)

Section Identity.
Context `{Sha256, JsonText}.

(** [X402Wire::deterministic_nonce] *)
Definition deterministic_nonce (resource : string) (expires_at : Z) (raw_wire : json) : Result Error string :=
  let? text := map_err Prelude.Json (json_to_vec (canonical_json raw_wire)) in
  Ok (hash_values ["agentvault.x402.challenge.nonce.v2"; resource; show_i64 expires_at; text]).

(** [X402Wire::challenge_hash] *)
Definition challenge_hash (resource : string) (expires_at : Z) (raw_wire : json) (nonce : string) : Result Error string :=
  reject_if (negb (str_len nonce =? 64)%N || negb (bytes_all is_lower_hexdigit nonce))
            (PaymentProtocol "x402 challenge nonce is invalid") ;?
  let? text := map_err Prelude.Json (json_to_vec (canonical_json raw_wire)) in
  Ok (hash_values ["agentvault.x402.challenge.v2"; resource; show_i64 expires_at; text; nonce]).

(** [X402Wire::server_identity]; [drawn] are the 32 random bytes. *)
Definition server_identity (drawn resource : string) (expires_at : Z) (raw_wire : json) : Result Error (string * string) :=
  let nonce := hex_encode drawn in
  let? hash := challenge_hash resource expires_at raw_wire nonce in
  Ok (nonce, hash).
End Identity.

(** ** Challenges *)

(** [X402ChallengeIntegrity] *)
Record X402ChallengeIntegrity : Type := {
  ci_payment_required : X402PaymentRequired;
  ci_selected : X402Requirement;
  ci_selected_wire : json;
  ci_asset : AssetIdentity;
  ci_amount : Amount;
  ci_recipient : string
}.

(** [X402Wire::ensure_protocol] *)
Definition ensure_protocol (challenge : PaymentChallenge) (expected : string) : Result Error unit :=
  reject_if (ch_protocol challenge != expected) (PaymentProtocol "protocol adapter mismatch").

Section Challenge.
Context `{SolanaPubkey, SolanaCrypto, X402Sdk, JsonText, JsonParse, UrlParser, Sha256}.

(** [X402Requirement::to_value] *)
Definition requirement_to_value (r : X402Requirement) : Result Error json :=
  map_err Prelude.Json match r with Evm q => evm_requirement_to_value q | Solana q => solana_requirement_to_value q end.

(** [X402Adapter::parse_requirement] *)
Definition parse_requirement (a : X402Adapter) (wire : json) : Result Error X402Requirement :=
  let? network := ok_or (jget_str "network" wire) (PaymentProtocol "x402 requirement network is missing") in
  let? requirement :=
    if evm_valid_network network
    then let? q := map_err (fun error => PaymentProtocol ("invalid x402 EVM requirement: " ++ error))
                           (evm_requirement_from_value wire) in Ok (Evm q)
    else if solana_valid_network network
    then let? q := map_err (fun error => PaymentProtocol ("invalid x402 Solana requirement: " ++ error))
                           (solana_requirement_from_value wire) in Ok (Solana q)
    else Err (PaymentProtocol "unsupported x402 requirement network") in
  validate_requirement requirement (xd_max_timeout_seconds a) ;?
  registered_asset a (requirement_network requirement) (requirement_asset requirement) ;?
  match requirement with
  | Solana q =>
      let? fee_payer := ok_or (xd_solana a !! sq_network q) (PaymentProtocol "x402 Solana runtime is not configured") in
      reject_if (fee_payer != sq_fee_payer q) (PaymentProtocol "x402 Solana requirement fee payer is not registered") ;?
      Ok requirement
  | Evm _ => Ok requirement
  end.

(** The loop of [X402Adapter::requirement] *)
Fixpoint select_requirement (a : X402Adapter) (accepts : list string) : Result Error (X402Requirement * json) :=
  match accepts with
  | [] => Err (PaymentProtocol "no supported x402 exact requirement")
  | raw :: rest =>
      let? value := ok_or (parse_value raw) (PaymentProtocol "invalid x402 requirement JSON") in
      match parse_requirement a value with
      | Ok requirement => Ok (requirement, value)
      | Err _ => select_requirement a rest
      end
  end.
(** [X402Adapter::requirement] *)
Definition requirement (a : X402Adapter) (wire : X402PaymentRequired) : Result Error (X402Requirement * json) :=
  select_requirement a (rq_accepts wire).

(** The selected requirement is one of the advertised ones. *)
Definition advertised (required : X402PaymentRequired) (selected_wire : json) : bool :=
  existsb (fun raw => is_some_and (fun q => value_eqb (canonical_json q) (canonical_json selected_wire)) (parse_value raw))
          (rq_accepts required).

(** [X402Adapter::decode_challenge_wire] *)
Definition decode_challenge_wire (a : X402Adapter) (expected_resource : string) (raw_wire : json)
  (stored_selected : option json) : Result Error X402ChallengeIntegrity :=
  x402_validate_resource expected_resource ;?
  let? required := map_err (fun error => PaymentProtocol ("invalid x402 v2 challenge: " ++ error))
                           (payment_required_from_value raw_wire) in
  let? resource := ok_or (rq_resource required) (PaymentProtocol "x402 resource metadata is required") in
  reject_if (ri_url resource != expected_resource)
            (PaymentProtocol "x402 version or resource binding does not match the request") ;?
  let? selected :=
    match stored_selected with
    | Some selected => let? q := parse_requirement a selected in Ok (q, selected)
    | None => requirement a required
    end in
  let '(selected, selected_wire) := selected in
  reject_if (negb (advertised required selected_wire))
            (PaymentProtocol "x402 selected requirement is not advertised by PaymentRequired") ;?
  validate_requirement selected (xd_max_timeout_seconds a) ;?
  let network := requirement_network selected in
  let? asset := registered_asset a network (requirement_asset selected) in
  let? amount := requirement_amount selected in
  let? recipient := map_err (fun _ => PaymentProtocol "x402 recipient is invalid for its network")
                            (canonicalize_payment_recipient network (requirement_pay_to selected)) in
  Ok {| ci_payment_required := required; ci_selected := selected; ci_selected_wire := selected_wire;
        ci_asset := asset; ci_amount := amount; ci_recipient := recipient |}.

(** [X402Adapter::validate_challenge_integrity] *)
Definition validate_challenge_integrity (a : X402Adapter) (c : PaymentChallenge) : Result Error X402ChallengeIntegrity :=
  ensure_protocol c X402_PROTOCOL ;?
  let? raw_wire := ok_or (jget "payment_required" (ch_payload c)) (PaymentProtocol "stored x402 challenge is missing") in
  let? stored_selected := ok_or (jget "selected" (ch_payload c))
                                (PaymentProtocol "x402 selected requirement is missing") in
  let? integrity := decode_challenge_wire a (ch_resource c) raw_wire (Some stored_selected) in
  let? expected_hash := challenge_hash (ch_resource c) (ch_expires_at c) raw_wire (ch_nonce c) in
  let? outer_recipient := map_err (fun _ => PaymentProtocol "x402 outer recipient is invalid")
                            (canonicalize_payment_recipient (as_network (ch_asset c)) (ch_recipient c)) in
  reject_if ((ch_asset c != ci_asset integrity) || (ch_amount c != ci_amount integrity)
             || (ch_recipient c != outer_recipient) || (ch_recipient c != ci_recipient integrity)
             || (ch_challenge_hash c != expected_hash) || (ch_expires_at c <=? 0)%Z)
            (PaymentProtocol "stored x402 challenge integrity check failed") ;?
  Ok integrity.
End Challenge.

(** ** Payloads *)

Inductive X402PaymentPayload : Type :=
| EvmPayload (payload : EvmPaymentPayload)
| SolanaPayload (payload : SolanaPaymentPayload).

Section Payload.
Context `{SolanaPubkey, SolanaCrypto, X402Sdk, Base64}.

(** [X402PaymentPayload::payer] *)
Definition payload_payer (payload : X402PaymentPayload) : Result Error string :=
  match payload with
  | EvmPayload p => let? e := authorization_payload p in Ok (ea_from (e3_authorization e))
  | SolanaPayload p => let? t := decode_transaction (so_transaction p) in solana_payer t (so_accepted p)
  end.

(** [X402Wire::decode_payment_payload] *)
Definition decode_x402_payload (value : json) (integrity : X402ChallengeIntegrity) : Result Error X402PaymentPayload :=
  match ci_selected integrity with
  | Evm _ => let? p := decode_payment_payload value in Ok (EvmPayload p)
  | Solana _ => let? p := solana_decode_payment_payload value in Ok (SolanaPayload p)
  end.

(** [i64::try_from] of a [u64] number of seconds *)
Definition seconds_i64 (seconds : N) (error : string) : Result Error Z :=
  reject_if (negb (i64_in_range (Z.of_N seconds))) (PaymentProtocol error) ;? Ok (Z.of_N seconds).

(** [X402Wire::validate_payload] *)
Definition validate_payload (c : PaymentChallenge) (integrity : X402ChallengeIntegrity) (payload : X402PaymentPayload)
  (now : option Z) : Result Error unit :=
  let network := as_network (ch_asset c) in
  let expected_resource := rq_resource (ci_payment_required integrity) in
  match payload, ci_selected integrity with
  | EvmPayload p, Evm q =>
      let? e := authorization_payload p in
      let authorization := e3_authorization e in
      let? valid_after := seconds_i64 (ea_valid_after authorization) "x402 validAfter is invalid" in
      let? valid_before := seconds_i64 (ea_valid_before authorization) "x402 validBefore is invalid" in
      reject_if (negb (payload_resource_matches (ep_resource p) expected_resource (ch_resource c))
                 || (ep_accepted p != q)
                 || negb (payment_recipients_match network (ea_to authorization) (ch_recipient c))
                 || (ea_value authorization != ch_amount c)
                 || (valid_before <=? valid_after)%Z
                 || (ch_expires_at c <? valid_before)%Z
                 || negb (evm_valid_signature (e3_signature e))
                 || is_some_and (fun now => (now <? valid_after)%Z || (valid_before <=? now)%Z) now)
                (PaymentProtocol "x402 EIP-3009 payload binding failed")
  | SolanaPayload p, Solana q =>
      let? t := decode_transaction (so_transaction p) in
      let? payer := solana_payer t (so_accepted p) in
      reject_if (negb (payload_resource_matches (so_resource p) expected_resource (ch_resource c))
                 || (so_accepted p != q)
                 || negb (payment_recipients_match network (sq_pay_to (so_accepted p)) (ch_recipient c))
                 || (sq_amount (so_accepted p) != (if (ch_amount c <=? U64_MAX)%N then ch_amount c else U64_MAX))
                 || (sq_asset (so_accepted p) != unwrap_or "" (as_token_contract (ch_asset c)))
                 || (payer == sq_fee_payer (so_accepted p)))
                (PaymentProtocol "x402 Solana payload binding failed")
  | _, _ => Err (PaymentProtocol "x402 payload does not match the selected chain scheme")
  end.
End Payload.
