(* ===== verification/SettlementFacts.v ===== *)
(** * Settlement evidence and facts

    The payee-side data of [src/src/model/{settlement,receipt,reconciliation}.rs]
    and [src/src/model/domain/receipt.rs], the provider registry of
    [src/src/payment/provider.rs] and the pure functions of
    [src/src/payment/settlement/facts.rs]: what a settlement writes, and how
    the durable events it reads back are decoded.  A provider is a function;
    the message of a [serde] decoding error is not modelled. *)

From S2P Require Import Prelude Text Money Json Wallet Intent Policy Ledger Records Store PaymentRules Budget PaymentStore Program Authorizer Sealing SigningService X402Sdk X402Evm.

#[local] Open Scope string_scope.
#[local] Open Scope vault_scope.

(** ** Providers *)

Inductive SettlementOperation : Type := OpVerify | OpSettle.

Record SettlementProviderRequest : Type := {
  rq_protocol : string;
  rq_run_id : string;
  rq_payment_payload : json;
  rq_payment_requirements : json
}.

(** [spr_extensions] lists the entries of the map in key order. *)
Record SettlementProviderResult : Type := {
  spr_valid : bool;
  spr_settled : bool;
  spr_payer : option string;
  spr_transaction : option string;
  spr_settlement_ref : option string;
  spr_effect_ref : option string;
  spr_invalid_reason : option string;
  spr_asset : option AssetIdentity;
  spr_amount : option Amount;
  spr_recipient : option string;
  spr_confirmations : option N;
  spr_extensions : list (string * json)
}.

Definition opt_json {A} (f : A -> json) (o : option A) : json :=
  match o with Some a => f a | None => JNull end.

(** [serde_json::to_value(&result)] *)
Definition provider_result_to_json (r : SettlementProviderResult) : json :=
  jobject [("valid", JBool (spr_valid r)); ("settled", JBool (spr_settled r));
           ("payer", opt_json JString (spr_payer r)); ("transaction", opt_json JString (spr_transaction r));
           ("settlementRef", opt_json JString (spr_settlement_ref r));
           ("effectRef", opt_json JString (spr_effect_ref r));
           ("invalidReason", opt_json JString (spr_invalid_reason r));
           ("asset", opt_json asset_to_json (spr_asset r));
           ("amount", opt_json (fun a => JString (Amount.to_string a)) (spr_amount r));
           ("recipient", opt_json JString (spr_recipient r));
           ("confirmations", opt_json (fun n => JNumber (Z.of_N n)) (spr_confirmations r));
           ("extensions", JObject (spr_extensions r))].

(** [asset_identity_matches] *)
Definition asset_identity_matches (observed expected : AssetIdentity) : bool :=
  (as_network observed == as_network expected)
  && eq_ignore_ascii_case (as_asset observed) (as_asset expected)
  && (as_decimals observed =? as_decimals expected)%N
  && match as_token_contract observed, as_token_contract expected with
     | Some o, Some e => eq_ignore_ascii_case o e
     | None, None => true
     | _, _ => false
     end.

Section Confirmed.
Context `{SolanaPubkey}.

(** [SettlementProviderResult::validate_confirmed_for] *)
Definition validate_confirmed_for (r : SettlementProviderResult) (i : PaymentIntent) (minimum_confirmations : N)
  : Result Error unit :=
  let asset_matches := is_some_and (fun a => asset_identity_matches a (pi_asset i)) (spr_asset r) in
  let recipient_matches :=
    is_some_and (fun p => payment_recipients_match (as_network (pi_asset i)) p (pi_recipient i)) (spr_recipient r) in
  let confirmations_match := (minimum_confirmations =? 0)%N
                             || is_some_and (fun n => (minimum_confirmations <=? n)%N) (spr_confirmations r) in
  reject_if (negb (spr_valid r)
             || negb (spr_settled r)
             || negb asset_matches
             || (spr_amount r != Some (pi_amount i))
             || negb recipient_matches
             || negb confirmations_match
             || (is_none_or is_empty (spr_transaction r) && is_none_or is_empty (spr_settlement_ref r)))
            (Settlement "provider settlement evidence does not match the payment intent").
End Confirmed.

(** [ExternalSettlementProvider::execute] *)
Definition SettlementProvider : Type :=
  SettlementOperation -> SettlementProviderRequest -> Result Error SettlementProviderResult.

Record SettlementProviderBinding : Type := {
  pb_authority : string;
  pb_confirmation_depths : gmap string N;
  pb_provider : SettlementProvider
}.

(** [SettlementProviderBinding::confirmation_depth] *)
Definition confirmation_depth (b : SettlementProviderBinding) (network : string) : Result Error N :=
  ok_or (pb_confirmation_depths b !! network)
        (Settlement ("external provider " ++ pb_authority b ++ " has no trusted confirmation depth for " ++ network)).

Definition SettlementProviderRegistry : Type := gmap string SettlementProviderBinding.

(** [SettlementProviderRegistry::new] *)
Definition SettlementProviderRegistry_new (providers : list (string * SettlementProviderBinding))
  : Result Error SettlementProviderRegistry :=
  rfold (fun registered entry =>
           let '(protocol, binding) := entry in
           reject_if (blank protocol
                      || blank (pb_authority binding)
                      || bool_decide (map_to_list (pb_confirmation_depths binding) = [])
                      || existsb (fun nd => blank (fst nd) || (snd nd =? 0)%N)
                                 (map_to_list (pb_confirmation_depths binding))
                      || is_some (registered !! protocol))
                     (Config ("invalid or duplicate settlement provider protocol: " ++ protocol)) ;?
           Ok (<[protocol := binding]> registered)) ∅ providers.

(** [SettlementProviderRegistry::get] *)
Definition providers_get (registry : SettlementProviderRegistry) (protocol : string)
  : Result Error SettlementProviderBinding :=
  ok_or (registry !! protocol) (Settlement ("no external provider configured for " ++ protocol)).

(** ** Chain evidence *)

Record EvmAuthorizationQuery : Type := {
  aq_network : string;
  aq_token_contract : string;
  aq_payer : string;
  aq_nonce : string;
  aq_recipient : string;
  aq_amount : Amount;
  aq_from_block : N
}.
Record ConfirmedTransfer : Type := {
  ct_authority : string;
  ct_transaction : string;
  ct_effect_ref : string;
  ct_confirmations : N;
  ct_minimum_confirmations : N;
  ct_effective_at : Z
}.
Inductive EvmAuthorizationObservation : Type :=
| AuthConfirmed (evidence : ConfirmedTransfer)
| AuthPending
| AuthNoEffect (observed_block : N) (observed_at : Z)
| AuthMismatch (reason : string).

Inductive ReconciliationProviderObservation : Type :=
| ObsObserved (authority : string) (minimum_confirmations : N) (result : SettlementProviderResult)
    (effective_at : option Z)
| ObsExpired (reason : string).

(** ** Receipts *)

Record PaymentReceipt : Type := {
  rt_intent_id : string;
  rt_scenario_id : string;
  rt_direction : PaymentDirection;
  rt_protocol : string;
  rt_asset : AssetIdentity;
  rt_recipient : string;
  rt_payer : option string;
  rt_requested_amount : Amount;
  rt_settled_amount : Amount;
  rt_status : PaymentStatus;
  rt_tx_hash : option string;
  rt_settlement_ref : option string;
  rt_evidence_hash : string;
  rt_confirmed_at : Z
}.
#[export] Instance PaymentReceipt_eq_dec : EqDecision PaymentReceipt.
Proof. solve_decision. Defined.

(** [PaymentReceipt::validate] *)
Definition PaymentReceipt_validate (r : PaymentReceipt) : Result string unit :=
  reject_if (blank (rt_intent_id r)) "intent_id" ;?
  reject_if (blank (rt_scenario_id r)) "scenario_id" ;?
  reject_if (blank (rt_protocol r)) "protocol" ;?
  AssetIdentity_validate (rt_asset r) ;?
  reject_if (Amount.is_zero (rt_requested_amount r)) "requested_amount" ;?
  reject_if (is_some_and is_empty (rt_payer r)) "payer" ;?
  reject_if (rt_requested_amount r <? rt_settled_amount r)%N "settled_amount" ;?
  if rt_status r == Settled then
    reject_if (Amount.is_zero (rt_settled_amount r)) "settled_amount" ;?
    reject_if (is_none (rt_tx_hash r) && is_none (rt_settlement_ref r)) "settlement_reference" ;?
    reject_if (blank (rt_evidence_hash r)) "evidence_hash"
  else Ok tt.

Definition receipt_to_json (r : PaymentReceipt) : json :=
  jobject ([("intent_id", JString (rt_intent_id r)); ("scenario_id", JString (rt_scenario_id r));
            ("direction", JString (direction_as_str (rt_direction r))); ("protocol", JString (rt_protocol r));
            ("asset", asset_to_json (rt_asset r)); ("recipient", JString (rt_recipient r))]
           ++ opt_entry "payer" (rt_payer r)
           ++ [("requested_amount", JString (Amount.to_string (rt_requested_amount r)));
               ("settled_amount", JString (Amount.to_string (rt_settled_amount r)));
               ("status", JString (status_as_str (rt_status r)))]
           ++ opt_entry "tx_hash" (rt_tx_hash r)
           ++ opt_entry "settlement_ref" (rt_settlement_ref r)
           ++ [("evidence_hash", JString (rt_evidence_hash r)); ("confirmed_at", JNumber (rt_confirmed_at r))])%list.

Definition amount_field (k : string) (j : json) : option Amount := text ← jget_str k j; Amount.from_str text.
Definition result_option {E A} (r : Result E A) : option A := match r with Ok a => Some a | Err _ => None end.

Definition receipt_from_json (j : json) : option PaymentReceipt :=
  if known_fields ["intent_id"; "scenario_id"; "direction"; "protocol"; "asset"; "recipient"; "payer";
                   "requested_amount"; "settled_amount"; "status"; "tx_hash"; "settlement_ref";
                   "evidence_hash"; "confirmed_at"] j then
    intent_id ← jget_str "intent_id" j;
    scenario_id ← jget_str "scenario_id" j;
    direction_text ← jget_str "direction" j;
    direction ← result_option (PaymentStorageCodec.direction direction_text);
    protocol ← jget_str "protocol" j;
    asset_json ← jget "asset" j;
    asset ← asset_from_json asset_json;
    recipient ← jget_str "recipient" j;
    payer ← opt_str_field "payer" j;
    requested_amount ← amount_field "requested_amount" j;
    settled_amount ← amount_field "settled_amount" j;
    status_text ← jget_str "status" j;
    status ← result_option (PaymentStorageCodec.payment_status status_text);
    tx_hash ← opt_str_field "tx_hash" j;
    settlement_ref ← opt_str_field "settlement_ref" j;
    evidence_hash ← jget_str "evidence_hash" j;
    confirmed_at ← i64_field "confirmed_at" j;
    Some {| rt_intent_id := intent_id; rt_scenario_id := scenario_id; rt_direction := direction;
            rt_protocol := protocol; rt_asset := asset; rt_recipient := recipient; rt_payer := payer;
            rt_requested_amount := requested_amount; rt_settled_amount := settled_amount; rt_status := status;
            rt_tx_hash := tx_hash; rt_settlement_ref := settlement_ref; rt_evidence_hash := evidence_hash;
            rt_confirmed_at := confirmed_at |}
  else None.

(** [serde_json::from_value] on an optional member, with [transpose()?]. *)
Definition serde_error : Error := Json "invalid JSON value".
Definition decode_member {A} (decode : json -> option A) (k : string) (payload : json) : Result Error (option A) :=
  match jget k payload with
  | None => Ok None
  | Some value => let? a := ok_or (decode value) serde_error in Ok (Some a)
  end.

(** ** Settlement material as text *)

Definition settlement_to_json (s : ProtocolSettlement) : json :=
  JObject [("protocol", JString (pt_protocol s)); ("payment_payload", pt_payment_payload s);
           ("payment_requirements", pt_payment_requirements s)].
Definition settlement_from_json (j : json) : option ProtocolSettlement :=
  if known_fields ["protocol"; "payment_payload"; "payment_requirements"] j && no_repeated_fields j then
    protocol ← jget_str "protocol" j;
    payment_payload ← jget "payment_payload" j;
    payment_requirements ← jget "payment_requirements" j;
    Some {| pt_protocol := protocol; pt_payment_payload := payment_payload;
            pt_payment_requirements := payment_requirements |}
  else None.

(** ** Commands *)

Record IssuePaymentChallenge : Type := {
  ic_scenario_id : string;
  ic_run_id : string;
  ic_price_id : string;
  ic_resource : string;
  ic_origin : string;
  ic_protocol : string;
  ic_request_hash : string
}.
Record VerifyIncomingPayment : Type := {
  vc_scenario_id : string;
  vc_run_id : string;
  vc_challenge_hash : string;
  vc_request_hash : string;
  vc_credential : PaymentCredential
}.
Record IncomingVerification : Type := {
  iv_intent : PaymentIntent;
  iv_valid : bool;
  iv_verification_ref : option string
}.
Record SettleIncomingPayment : Type := {
  sc_scenario : string;
  sc_run : string;
  sc_intent : string;
  sc_verification_ref : string
}.
Record SettledIncomingPayment : Type := {
  sd_intent : PaymentIntent;
  sd_receipt : PaymentReceipt
}.

(** The identities one settlement operation draws. *)
Record SettlementIds : Type := {
  xi_intent : string;
  xi_challenge_event : string;
  xi_nonce : string;
  xi_submitted_event : string;
  xi_request_event : string;
  xi_progress_event : string;
  xi_ledger : string;
  xi_settled_event : string;
  xi_outbox : string
}.

(** ** [SettlementFacts] *)

(** [durable_receipt] *)
Definition durable_receipt (settled reconciled : option PaymentEvent) : Result Error PaymentReceipt :=
  let event := match settled with Some e => Some e | None => reconciled end in
  let? receipt := match event with
                  | Some e => decode_member receipt_from_json "receipt" (ev_payload e)
                  | None => Ok None
                  end in
  ok_or receipt (Storage "settled intent has no durable receipt").

(** [is_concurrent_settlement_winner] *)
Definition is_concurrent_settlement_winner (expected current : PaymentIntent) : bool :=
  (pi_status current == Settled) && same_immutable_identity_as current expected.

(** [uses_eip3009_recovery] *)
Definition uses_eip3009_recovery (i : PaymentIntent) : bool :=
  (pi_direction i == Inbound) && (pi_protocol i == "x402") && is_evm_payment_network (as_network (pi_asset i)).

(** [authorization_query] *)
Definition authorization_query `{X402Sdk} (i : PaymentIntent) (s : ProtocolSettlement) (from_block : N)
  : Result Error (EvmAuthorizationQuery * Z) :=
  reject_if (negb (uses_eip3009_recovery i) || (pt_protocol s != "x402"))
            (Settlement "EIP-3009 recovery requires an inbound x402 intent") ;?
  let? token_contract := ok_or (as_token_contract (pi_asset i))
                               (Settlement "x402 recovery intent has no token contract") in
  let? authorization := authorization_identity (pt_payment_payload s) in
  Ok ({| aq_network := as_network (pi_asset i); aq_token_contract := token_contract;
         aq_payer := ei_payer authorization; aq_nonce := ei_nonce authorization; aq_recipient := pi_recipient i;
         aq_amount := pi_amount i; aq_from_block := from_block |}, ei_valid_before authorization).

Definition recovery_method (i : PaymentIntent) : string :=
  if uses_eip3009_recovery i then "eip3009_authorization_event" else "provider_verify".

(** [settlement_request_payload] *)
Definition settlement_request_payload (i : PaymentIntent) (from_block : option N) : json :=
  jobject ([("run_id", JString (pi_run_id i)); ("recovery", JString (recovery_method i))]
           ++ match from_block with Some b => [("from_block", JNumber (Z.of_N b))] | None => [] end)%list.

(** [Value::as_u64] *)
Definition as_u64 (j : json) : option N :=
  match j with
  | JNumber z => if (0 <=? z)%Z && (z <=? Z.of_N U64_MAX)%Z then Some (Z.to_N z) else None
  | _ => None
  end.

(** [settlement_request_from_block] *)
Definition settlement_request_from_block (i : PaymentIntent) (e : PaymentEvent) : Result Error (option N) :=
  let? payload := match ev_payload e with
                  | JObject m => Ok m
                  | _ => Err (Storage "settlement operation payload is malformed")
                  end in
  let member k := entry_lookup k payload in
  let exact_fields := (length payload =? (if uses_eip3009_recovery i then 3 else 2))%nat
                      && is_some (member "run_id") && is_some (member "recovery")
                      && (negb (uses_eip3009_recovery i) || is_some (member "from_block")) in
  reject_if ((ev_intent_id e != pi_id i)
             || (ev_event_type e != EvSettlementRequested)
             || negb (ev_attempt_no e =? 0)%N
             || is_some (ev_signature_ref e)
             || is_some (ev_tx_hash e)
             || negb exact_fields
             || (jstr (member "run_id") != Some (pi_run_id i))
             || (jstr (member "recovery") != Some (recovery_method i)))
            (Storage "durable settlement operation does not match the payment intent") ;?
  match member "from_block" with
  | Some value => let? block := ok_or (as_u64 value) (Storage "settlement recovery checkpoint is malformed") in
                  Ok (Some block)
  | None => Ok None
  end.

(** [authorization_expiry_deadline] *)
Definition authorization_expiry_deadline (i : PaymentIntent) (valid_before : Z) : Z :=
  Z.max (unwrap_or valid_before (pi_expires_at i)) valid_before.

(** [authorization_is_definitively_expired] *)
Definition authorization_is_definitively_expired (observed_at chain_observed_at expiry : Z) : bool :=
  (expiry <=? observed_at)%Z && (expiry <=? chain_observed_at)%Z.

(** [reservation_after_non_settlement] *)
Definition reservation_after_non_settlement (status : PaymentStatus) (r : ReservationStatus) : ReservationStatus :=
  if match status with Failed | Expired => true | _ => false end && (r == Reserved) then Released else r.

(** [validate_verify_command] *)
Definition validate_verify_command (c : VerifyIncomingPayment) : Result Error unit :=
  validate_identifier "scenario_id" (vc_scenario_id c) ;?
  validate_identifier "run_id" (vc_run_id c) ;?
  validate_identifier "challenge_hash" (vc_challenge_hash c) ;?
  validate_identifier "request_hash" (vc_request_hash c) ;?
  validate_identifier "credential.protocol" (cr_protocol (vc_credential c)) ;?
  validate_identifier "credential.challenge_hash" (cr_challenge_hash (vc_credential c)) ;?
  validate_identifier "credential.credential_hash" (cr_credential_hash (vc_credential c)) ;?
  reject_if (cr_challenge_hash (vc_credential c) != vc_challenge_hash c)
            (PaymentConflict "credential is bound to another challenge").

(** [validate_settle_command] *)
Definition validate_settle_command (c : SettleIncomingPayment) : Result Error unit :=
  validate_identifier "scenario_id" (sc_scenario c) ;?
  validate_identifier "run_id" (sc_run c) ;?
  validate_identifier "intent_id" (sc_intent c) ;?
  validate_identifier "verification_ref" (sc_verification_ref c).

(** [ensure_settlement_intent_binding] *)
Definition ensure_settlement_intent_binding (i : PaymentIntent) (c : SettleIncomingPayment) : Result Error unit :=
  reject_if ((pi_run_id i != sc_run c) || (pi_direction i != Inbound)) Forbidden.

(** [ensure_replay_identity] *)
Definition ensure_replay_identity (i : PaymentIntent) (c : IssuePaymentChallenge) : Result Error unit :=
  reject_if ((pi_scenario_id i != ic_scenario_id c)
             || (pi_run_id i != ic_run_id c)
             || (pi_price_id i != Some (ic_price_id c))
             || (pi_resource i != ic_resource c)
             || (pi_protocol i != ic_protocol c)
             || (pi_request_hash i != ic_request_hash c))
            (PaymentConflict "run_id was reused for different challenge content").

(** [ensure_incoming_identity] *)
Definition ensure_incoming_identity (i : PaymentIntent) (run_id request_hash : string) : Result Error unit :=
  reject_if ((pi_direction i != Inbound) || (pi_run_id i != run_id)) Forbidden ;?
  match check_replay i request_hash with
  | Replay => Ok tt
  | Conflict => Err (PaymentConflict "run_id was reused for different request content")
  end.

(** [next_timestamp] *)
Definition next_timestamp (previous now : Z) : Z := Z.max now (i64_saturating_add previous 1).

(** [settlement_material_context] *)
Definition settlement_material_context (i : PaymentIntent) : string :=
  "payment-intent:" ++ pi_id i ++ ":" ++ pi_protocol i.

(** The [PaymentEvent] literals of the coordinator: a first attempt. *)
Definition intent_event (id : string) (i : PaymentIntent) (t : PaymentEventType) (tx_hash : option string)
    (payload : json) (at_time : Z) : PaymentEvent :=
  {| ev_id := id; ev_intent_id := pi_id i; ev_event_type := t; ev_attempt_no := 0; ev_signature_ref := None;
     ev_tx_hash := tx_hash; ev_payload := payload; ev_created_at := at_time |}.

(** The fields of an intent that the services assign. *)
Definition with_progress (i : PaymentIntent) (status : PaymentStatus) (reservation : ReservationStatus)
    (next_reconcile_at : option Z) (updated_at : Z) : PaymentIntent :=
  {| pi_id := pi_id i; pi_scenario_id := pi_scenario_id i; pi_run_id := pi_run_id i;
     pi_wallet_id := pi_wallet_id i; pi_policy_id := pi_policy_id i; pi_price_id := pi_price_id i;
     pi_direction := pi_direction i; pi_protocol := pi_protocol i; pi_asset := pi_asset i;
     pi_recipient := pi_recipient i; pi_amount := pi_amount i; pi_settled_amount := pi_settled_amount i;
     pi_resource := pi_resource i; pi_challenge_hash := pi_challenge_hash i;
     pi_request_hash := pi_request_hash i; pi_status := status; pi_reservation_status := reservation;
     pi_reserved_amount := pi_reserved_amount i; pi_tx_hash := pi_tx_hash i;
     pi_settlement_ref := pi_settlement_ref i; pi_next_reconcile_at := next_reconcile_at;
     pi_created_at := pi_created_at i; pi_updated_at := updated_at; pi_expires_at := pi_expires_at i;
     pi_settled_at := pi_settled_at i |}.
Definition with_settlement (i : PaymentIntent) (settled_amount : Amount) (tx_hash settlement_ref : option string)
    (updated_at settled_at : Z) : PaymentIntent :=
  {| pi_id := pi_id i; pi_scenario_id := pi_scenario_id i; pi_run_id := pi_run_id i;
     pi_wallet_id := pi_wallet_id i; pi_policy_id := pi_policy_id i; pi_price_id := pi_price_id i;
     pi_direction := pi_direction i; pi_protocol := pi_protocol i; pi_asset := pi_asset i;
     pi_recipient := pi_recipient i; pi_amount := pi_amount i; pi_settled_amount := settled_amount;
     pi_resource := pi_resource i; pi_challenge_hash := pi_challenge_hash i;
     pi_request_hash := pi_request_hash i; pi_status := Settled;
     pi_reservation_status := match pi_reservation_status i with Reserved => Consumed | r => r end;
     pi_reserved_amount := pi_reserved_amount i; pi_tx_hash := tx_hash; pi_settlement_ref := settlement_ref;
     pi_next_reconcile_at := None; pi_created_at := pi_created_at i; pi_updated_at := updated_at;
     pi_expires_at := pi_expires_at i; pi_settled_at := Some settled_at |}.

(** [confirmed_intent] *)
Definition confirmed_intent (i : PaymentIntent) (r : SettlementProviderResult) (updated_at effective_at : Z)
  : PaymentIntent :=
  with_settlement i (pi_amount i) (spr_transaction r) (spr_settlement_ref r) updated_at
    (Z.max effective_at (pi_created_at i)).

(** [settled_response] *)
Definition settled_response (i : PaymentIntent) (r : PaymentReceipt) : SettledIncomingPayment :=
  {| sd_intent := i; sd_receipt := r |}.

(** [confirmed_event] *)
Definition confirmed_event (ids : SettlementIds) (i : PaymentIntent) (r : SettlementProviderResult)
    (receipt : PaymentReceipt) (confirmed_at : Z) : PaymentEvent :=
  intent_event (xi_settled_event ids) i EvSettled (spr_transaction r)
    (jobject [("receipt", receipt_to_json receipt)]) confirmed_at.

(** [confirmed_outbox] *)
Definition confirmed_outbox (ids : SettlementIds) (i : PaymentIntent) (confirmed_at : Z) : OutboxMessage :=
  {| ob_id := xi_outbox ids; ob_aggregate_type := "payment_intent"; ob_aggregate_id := pi_id i;
     ob_event_type := "payment_settled"; ob_destination := "scenario:" ++ pi_scenario_id i ++ ".payments";
     ob_run_id := pi_run_id i;
     ob_payload := jobject [("intent_id", JString (pi_id i)); ("scenario_id", JString (pi_scenario_id i));
                            ("run_id", JString (pi_run_id i))];
     ob_status := ObPending; ob_attempt_count := 0; ob_available_at := confirmed_at; ob_lease_owner := None;
     ob_lease_expires_at := None; ob_last_error := None; ob_created_at := confirmed_at; ob_delivered_at := None |}.

Section Facts.
Context `{SolanaPubkey, SolanaSignature, UrlParser, Sha256, JsonText}.

(** [validate_issue_command] *)
Definition validate_issue_command (c : IssuePaymentChallenge) : Result Error unit :=
  validate_identifier "scenario_id" (ic_scenario_id c) ;?
  validate_identifier "run_id" (ic_run_id c) ;?
  validate_identifier "price_id" (ic_price_id c) ;?
  validate_identifier "protocol" (ic_protocol c) ;?
  validate_identifier "request_hash" (ic_request_hash c) ;?
  let bad := InvalidRequest "resource and canonical origin binding is invalid" in
  reject_if (blank (ic_resource c)) bad ;?
  let? origin := canonical_http_origin (ic_resource c) in
  reject_if (origin != ic_origin c) bad.

(** [build_inbound_intent] *)
Definition build_inbound_intent (ids : SettlementIds) (c : IssuePaymentChallenge) (price : PaymentPrice)
    (wallet : Wallet) (challenge : PaymentChallenge) (now : Z) : Result Error PaymentIntent :=
  let intent :=
    {| pi_id := xi_intent ids; pi_scenario_id := ic_scenario_id c; pi_run_id := ic_run_id c;
       pi_wallet_id := Some (pr_wallet_id price); pi_policy_id := Some (pr_policy_id price);
       pi_price_id := Some (pr_id price); pi_direction := Inbound; pi_protocol := ic_protocol c;
       pi_asset := pr_asset price; pi_recipient := w_address wallet; pi_amount := pr_amount price;
       pi_settled_amount := Amount.ZERO; pi_resource := pr_resource price;
       pi_challenge_hash := Some (ch_challenge_hash challenge); pi_request_hash := ic_request_hash c;
       pi_status := Created; pi_reservation_status := Reserved; pi_reserved_amount := pr_amount price;
       pi_tx_hash := None; pi_settlement_ref := None; pi_next_reconcile_at := None; pi_created_at := now;
       pi_updated_at := now; pi_expires_at := Some (ch_expires_at challenge); pi_settled_at := None |} in
  map_err (fun field => InvalidRequest ("invalid inbound intent field: " ++ field)) (PaymentIntent_validate intent) ;?
  Ok intent.

(** [validate_payee_challenge] *)
Definition validate_payee_challenge (c : PaymentChallenge) (price : PaymentPrice) (wallet : Wallet) (now : Z)
  : Result Error unit :=
  reject_if ((ch_scenario_id c != pr_scenario_id price)
             || (ch_price_id c != Some (pr_id price))
             || (ch_resource c != pr_resource price)
             || (ch_asset c != pr_asset price)
             || (ch_amount c != pr_amount price)
             || negb (address_matches wallet (ch_recipient c))
             || (ch_expires_at c <=? now)%Z
             || blank (ch_challenge_hash c))
            (PaymentProtocol "adapter produced a challenge inconsistent with the price").

(** [evidence_hash] *)
Definition evidence_hash (value : json) : Result Error string :=
  let? encoded := map_err Json (json_to_vec value) in
  Ok (hash_request "agentvault.settlement-evidence.v1" encoded).

(** [provider_verification_ref] *)
Definition provider_verification_ref (intent_id : string) (r : SettlementProviderResult) : Result Error string :=
  evidence_hash (jobject [("intent_id", JString intent_id); ("operation", JString "verify");
                          ("result", provider_result_to_json r)]).

(** [confirmed_receipt] *)
Definition confirmed_receipt (i : PaymentIntent) (r : SettlementProviderResult) (confirmed_at : Z)
  : Result Error PaymentReceipt :=
  let? hash := evidence_hash (provider_result_to_json r) in
  let receipt :=
    {| rt_intent_id := pi_id i; rt_scenario_id := pi_scenario_id i; rt_direction := Inbound;
       rt_protocol := pi_protocol i; rt_asset := pi_asset i; rt_recipient := pi_recipient i;
       rt_payer := spr_payer r; rt_requested_amount := pi_amount i; rt_settled_amount := pi_amount i;
       rt_status := Settled; rt_tx_hash := spr_transaction r; rt_settlement_ref := spr_settlement_ref r;
       rt_evidence_hash := hash; rt_confirmed_at := confirmed_at |} in
  map_err (fun field => Settlement ("invalid confirmed receipt field: " ++ field)) (PaymentReceipt_validate receipt) ;?
  Ok receipt.

(** [confirmed_ledger] *)
Definition confirmed_ledger (ids : SettlementIds) (i : PaymentIntent) (authority : string)
    (r : SettlementProviderResult) (effective_at created_at : Z) : Result Error PaymentLedgerEntry :=
  let? posting_key :=
    map_err (fun field => Settlement ("invalid settlement posting evidence: " ++ field))
            (settlement_posting_key authority (as_network (pi_asset i)) (spr_transaction r) (spr_settlement_ref r)
               (spr_effect_ref r)) in
  let? wallet_id := ok_or (pi_wallet_id i) (Storage "inbound intent has no wallet") in
  let ledger :=
    {| le_id := xi_ledger ids; le_intent_id := Some (pi_id i); le_scenario_id := Some (pi_scenario_id i);
       le_wallet_id := wallet_id; le_entry_type := LPayment; le_direction := Inbound; le_asset := pi_asset i;
       le_amount := pi_amount i; le_posting_key := posting_key; le_tx_hash := spr_transaction r;
       le_settlement_ref := spr_settlement_ref r; le_effect_ref := spr_effect_ref r; le_transfer_ref := None;
       le_reversal_of := None; le_effective_at := effective_at; le_created_at := created_at |} in
  map_err (fun field => Settlement ("invalid ledger field: " ++ field)) (PaymentLedgerEntry_validate ledger) ;?
  Ok ledger.
End Facts.

(** ** Lemmas *)

(** A stored receipt reads back as it was written. *)
Definition receipt_ok (r : PaymentReceipt) : Prop :=
  (as_decimals (rt_asset r) <= 255)%N /\ amount_ok (rt_requested_amount r) /\ amount_ok (rt_settled_amount r)
  /\ (I64_MIN <= rt_confirmed_at r <= I64_MAX)%Z.

Lemma direction_decodes d : result_option (PaymentStorageCodec.direction (direction_as_str d)) = Some d.
Proof. by destruct d. Qed.
Lemma status_decodes s : result_option (PaymentStorageCodec.payment_status (status_as_str s)) = Some s.
Proof. by destruct s. Qed.

(** Compares the keys of a concrete entry list. *)
Ltac decide_keys :=
  repeat match goal with
         | |- context [bool_decide (?a = ?b)] =>
             let v := eval vm_compute in (bool_decide (a = b)) in
             first [constr_eq v true | constr_eq v false]; change (bool_decide (a = b)) with v; cbv iota
         end.

Lemma receipt_json_roundtrip r : receipt_ok r -> receipt_from_json (receipt_to_json r) = Some r.
Proof.
  intros (Hd & Ha & Hb & He).
  pose proof (parse_show_unsigned U128_MAX _ Ha : Amount.from_str (Amount.to_string _) = _) as Hpa.
  pose proof (parse_show_unsigned U128_MAX _ Hb : Amount.from_str (Amount.to_string _) = _) as Hpb.
  destruct r as [ii sc d pr a rc py qa sa st tx sr eh ca]; simpl in *.
  unfold receipt_from_json, receipt_to_json; cbn [rt_intent_id rt_scenario_id rt_direction rt_protocol rt_asset
    rt_recipient rt_payer rt_requested_amount rt_settled_amount rt_status rt_tx_hash rt_settlement_ref
    rt_evidence_hash rt_confirmed_at].
  rewrite known_fields_jobject by (by destruct py, tx, sr).
  unfold jget_str, opt_str_field, amount_field, i64_field, jget_str; rewrite !jget_jobject.
  destruct py, tx, sr; cbn [opt_entry app rev entry_lookup]; decide_keys;
    cbn [as_str mbind option_bind]; rewrite direction_decodes; cbn [mbind option_bind];
    rewrite asset_json_roundtrip by done; cbn [mbind option_bind];
    rewrite Hpa; cbn [mbind option_bind]; rewrite Hpb; cbn [mbind option_bind];
    rewrite status_decodes; cbn [mbind option_bind]; unfold i64_in_range;
    by rewrite (proj2 (Z.leb_le I64_MIN _)), (proj2 (Z.leb_le _ I64_MAX)) by lia.
Qed.

Lemma settlement_json_roundtrip s : settlement_from_json (settlement_to_json s) = Some s.
Proof. by destruct s. Qed.
