(* ===== verification/X402.v ===== *)
(** * The x402 adapter

    [impl PaymentProtocol for X402Adapter] of [src/src/protocol/x402.rs]: the
    payer parses a challenge and turns it into a signed credential, the payee
    builds a challenge and verifies a credential, and both sides give the
    credential the same replay identity.  The random bytes that a challenge or
    an authorization draws are arguments. *)

From S2P Require Import Prelude Text Money Json Wallet Intent Policy Ledger Records Store Authorizer SigningService CanonicalJson X402Sdk X402Evm X402Solana X402Wire SettlementFacts.

#[local] Open Scope string_scope.
#[local] Open Scope vault_scope.

Definition EIP3009_VALID_AFTER_SKEW_SECONDS : Z := 10 * 60.

Section Adapter.
Context `{SolanaPubkey, SolanaCrypto, EvmCrypto, X402Sdk, Base64, JsonText, JsonParse, UrlParser, Sha256}.

(** ** HTTP *)

(** [decode_http_challenge] *)
Definition x402_decode_http_challenge (a : X402Adapter) (resource : string) (headers : list (string * string))
  (body : string) : Result Error (option json) :=
  let? from_header :=
    match header_value headers "payment-required" with
    | Some encoded => let? value := decode_payment_required_header encoded in Ok (Some value)
    | None => Ok None
    end in
  let? from_body := decode_payment_required_body body in
  let? wire :=
    match from_header, from_body with
    | Some header, Some body =>
        reject_if (negb (value_eqb header body))
                  (PaymentConflict "x402 PAYMENT-REQUIRED header conflicts with the 402 body") ;?
        Ok (Some header)
    | Some header, None => Ok (Some header)
    | None, body => Ok body
    end in
  match wire with
  | Some wire => decode_challenge_wire a resource wire None ;? Ok (Some wire)
  | None => Ok None
  end.

(** [encode_http_credential] *)
Definition x402_encode_http_credential (credential : PaymentCredential) : Result Error ProtocolHttpCredential :=
  reject_if (cr_protocol credential != X402_PROTOCOL) (PaymentProtocol "x402 credential protocol mismatch") ;?
  let? text := map_err Prelude.Json (json_to_vec (cr_payload credential)) in
  Ok {| hc_header_name := "payment-signature"; hc_header_value := base64_encode text |}.

(** [decode_merchant_evidence] *)
Definition x402_decode_merchant_evidence (encoded : string) : Result Error ProtocolMerchantEvidence :=
  reject_if (negb (header_text_ok encoded)) (InvalidRequest "x402 PAYMENT-RESPONSE header is invalid") ;?
  let? decoded := ok_or (base64_decode encoded) (PaymentProtocol "x402 PAYMENT-RESPONSE is not valid base64") in
  reject_if (is_empty decoded || (MAX_X402_HTTP_WIRE_BYTES <? str_len decoded)%N)
            (InvalidRequest "x402 PAYMENT-RESPONSE payload is too large") ;?
  let? response := parse_settle_response decoded in
  match response with
  | SettleSuccess payer transaction network =>
      Ok {| me_accepted := true; me_transaction := Some transaction; me_network := Some network; me_payer := Some payer |}
  | SettleError _ _ => Ok {| me_accepted := false; me_transaction := None; me_network := None; me_payer := None |}
  end.

(** ** Credentials *)

(** The checks that [credential_payer], [credential_fingerprint] and
    [settle_payment] begin with: the challenge is intact, the credential names
    it and its payload is bound to it. *)
Definition bound_payload (a : X402Adapter) (c : PaymentChallenge) (credential : PaymentCredential) (mismatch : string)
  : Result Error (X402ChallengeIntegrity * X402PaymentPayload) :=
  let? integrity := validate_challenge_integrity a c in
  reject_if ((cr_protocol credential != X402_PROTOCOL) || (cr_challenge_hash credential != ch_challenge_hash c))
            (PaymentProtocol mismatch) ;?
  let? payload := decode_x402_payload (cr_payload credential) integrity in
  validate_payload c integrity payload None ;?
  Ok (integrity, payload).

(** [credential_payer] *)
Definition x402_credential_payer (a : X402Adapter) (c : PaymentChallenge) (credential : PaymentCredential)
  : Result Error string :=
  let? bound := bound_payload a c credential "x402 credential binding mismatch" in
  let? payer := payload_payer (snd bound) in
  map_err (fun _ => PaymentProtocol "x402 credential payer is invalid")
          (canonicalize_payment_recipient (as_network (ch_asset c)) payer).

(** The values that a replay identity hashes. *)
Definition replay_identity (network contract : string) (payload : X402PaymentPayload) : Result Error (list string) :=
  match payload with
  | EvmPayload p =>
      let? e := authorization_payload p in
      Ok ["agentvault.x402.replay.v1"; network; contract; to_ascii_lowercase (ea_from (e3_authorization e));
          ea_nonce (e3_authorization e)]
  | SolanaPayload p =>
      let? t := decode_transaction (so_transaction p) in
      let? payer := solana_payer t (so_accepted p) in
      Ok ["agentvault.x402.solana.replay.v1"; network; contract; payer; vt_message t]
  end.

(** [credential_fingerprint] *)
Definition x402_credential_fingerprint (a : X402Adapter) (c : PaymentChallenge) (credential : PaymentCredential)
  : Result Error string :=
  let? bound := bound_payload a c credential "x402 credential fingerprint binding mismatch" in
  let? contract := ok_or (as_token_contract (ch_asset c)) (PaymentProtocol "x402 asset has no token contract") in
  let? contract := map_err (fun _ => PaymentProtocol "x402 asset contract is invalid")
                           (canonicalize_payment_recipient (as_network (ch_asset c)) contract) in
  let? identity := replay_identity (as_network (ch_asset c)) contract (snd bound) in
  Ok (hash_values identity).

(** [build_credential] *)
Definition x402_build_credential (a : X402Adapter) (c : PaymentChallenge) (signed_payload : json)
  : Result Error PaymentCredential :=
  let? integrity := validate_challenge_integrity a c in
  let? payload := decode_x402_payload signed_payload integrity in
  validate_payload c integrity payload None ;?
  let credential := {| cr_protocol := X402_PROTOCOL; cr_challenge_hash := ch_challenge_hash c; cr_credential_hash := "";
                       cr_payload := signed_payload |} in
  let? fingerprint := x402_credential_fingerprint a c credential in
  Ok {| cr_protocol := X402_PROTOCOL; cr_challenge_hash := ch_challenge_hash c; cr_credential_hash := fingerprint;
        cr_payload := signed_payload |}.

(** [verify_credential] *)
Definition x402_verify_credential (a : X402Adapter) (c : PaymentChallenge) (credential : PaymentCredential) (now : Z)
  : Result Error ProtocolValidation :=
  let? integrity := validate_challenge_integrity a c in
  reject_if ((cr_protocol credential != X402_PROTOCOL) || (cr_challenge_hash credential != ch_challenge_hash c))
            (PaymentProtocol "x402 credential is bound to another challenge") ;?
  reject_if (ch_expires_at c <=? now)%Z (PaymentProtocol "x402 challenge expired") ;?
  let? payload := decode_x402_payload (cr_payload credential) integrity in
  validate_payload c integrity payload (Some now) ;?
  let? payer := payload_payer payload in
  Ok {| pv_payer := Some payer; pv_requires_external_settlement := true |}.

(** [settle_payment] *)
Definition x402_settle_payment (a : X402Adapter) (c : PaymentChallenge) (credential : PaymentCredential)
  : Result Error ProtocolSettlement :=
  let? bound := bound_payload a c credential "x402 credential binding mismatch" in
  Ok {| pt_protocol := X402_PROTOCOL; pt_payment_payload := cr_payload credential;
        pt_payment_requirements := ci_selected_wire (fst bound) |}.

(** ** Payer *)

(** [parse_challenge] *)
Definition x402_parse_challenge (a : X402Adapter) (scenario_id expected_resource : string) (wire : json) (now : Z)
  (advertised_expires_at : option Z) : Result Error PaymentChallenge :=
  let? integrity := decode_challenge_wire a expected_resource wire None in
  let? timeout := seconds_i64 (requirement_max_timeout_seconds (ci_selected integrity)) "x402 timeout overflows" in
  let? expires_at := ok_or advertised_expires_at (PaymentProtocol "x402 response is missing payment-expires-at") in
  reject_if ((expires_at <=? now)%Z || (i64_saturating_add now timeout <? expires_at)%Z)
            (PaymentProtocol "x402 payment-expires-at is outside the advertised timeout window") ;?
  let? nonce := deterministic_nonce expected_resource expires_at wire in
  let? hash := challenge_hash expected_resource expires_at wire nonce in
  let challenge :=
    {| ch_scenario_id := scenario_id; ch_price_id := None; ch_resource := expected_resource; ch_protocol := X402_PROTOCOL;
       ch_asset := ci_asset integrity; ch_amount := ci_amount integrity; ch_recipient := ci_recipient integrity;
       ch_nonce := nonce; ch_challenge_hash := hash; ch_expires_at := expires_at;
       ch_payload := jobject [("payment_required", wire); ("selected", ci_selected_wire integrity)] |} in
  validate_challenge_integrity a challenge ;?
  Ok challenge.

(** [validate_payment] *)
Definition x402_validate_payment (a : X402Adapter) (c : PaymentChallenge) (i : PaymentIntent) : Result Error unit :=
  validate_challenge_integrity a c ;?
  reject_if ((ch_scenario_id c != pi_scenario_id i) || (ch_resource c != pi_resource i) || (ch_asset c != pi_asset i)
             || (ch_amount c != pi_amount i)
             || negb (payment_recipients_match (as_network (pi_asset i)) (ch_recipient c) (pi_recipient i))
             || (pi_challenge_hash i != Some (ch_challenge_hash c)))
            (PaymentProtocol "x402 challenge does not match the payment intent").

(** The EIP-3009 payload that [prepare_signing] asks a wallet to sign. *)
Definition unsigned_evm_payload (c : PaymentChallenge) (q : EvmPaymentRequirements) (resource : option ResourceInfo)
  (drawn payer : string) (now : Z) : Result Error EvmPaymentPayload :=
  let? payer := map_err (fun _ => PaymentProtocol "x402 payer is not a valid EVM address")
                        (canonicalize_wallet_address EVM_EOA_ALGORITHM payer) in
  let? from := ok_or (address_from_str payer) (PaymentProtocol "x402 payer is not a valid EVM address") in
  let? to := ok_or (address_from_str (ch_recipient c)) (PaymentProtocol "x402 recipient is not a valid EVM address") in
  reject_if (now <? 0)%Z (PaymentProtocol "x402 signing time is invalid") ;?
  let valid_after := Z.to_N (now - EIP3009_VALID_AFTER_SKEW_SECONDS) in
  reject_if (ch_expires_at c <? 0)%Z (PaymentProtocol "x402 validBefore is invalid") ;?
  Ok {| ep_accepted := q;
        ep_payload := Eip3009 {| e3_signature := zero_bytes 65;
                                 e3_authorization := {| ea_from := from; ea_to := to; ea_value := ch_amount c;
                                                        ea_valid_after := valid_after;
                                                        ea_valid_before := Z.to_N (ch_expires_at c);
                                                        ea_nonce := drawn |} |};
        ep_resource := resource; ep_extensions := None |}.

(** [prepare_signing] *)
Definition x402_prepare_signing (a : X402Adapter) (drawn : string) (c : PaymentChallenge) (payer : string) (now : Z)
  : Result Error ProtocolSigningRequest :=
  let? integrity := validate_challenge_integrity a c in
  reject_if ((now <? 0)%Z || (ch_expires_at c <=? now)%Z) (PaymentProtocol "x402 challenge expired before signing") ;?
  let resource := rq_resource (ci_payment_required integrity) in
  match ci_selected integrity with
  | Evm q =>
      let? unsigned := unsigned_evm_payload c q resource drawn payer now in
      let? payload := map_err Prelude.Json (evm_payload_to_value unsigned) in
      let? digest := evm_digest payload in
      Ok {| pr_digest := digest; pr_payload := payload |}
  | Solana q => prepare_solana_signing resource q payer (xd_solana a !! sq_network q)
  end.

(** The payload with the wallet's signature, for an EVM challenge. *)
Definition signed_evm_payload (request : ProtocolSigningRequest) (signature : string) : Result Error json :=
  reject_if (negb (str_len (pr_digest request) =? 32)%N || negb (str_len signature =? 65)%N)
            (PaymentProtocol "x402 signer returned invalid EIP-3009 material") ;?
  let? expected := evm_digest (pr_payload request) in
  reject_if (pr_digest request != expected)
            (PaymentProtocol "x402 signing request digest no longer matches its payload") ;?
  let? payload := decode_payment_payload (pr_payload request) in
  let? signed := with_signature payload signature in
  let? value := map_err Prelude.Json (evm_payload_to_value signed) in
  let? recovered := verify_signature value in
  let? payer := evm_payer value in
  reject_if (negb (eq_ignore_ascii_case recovered payer))
            (PaymentProtocol "x402 signature was produced by a different wallet") ;?
  Ok value.

(** [complete_signing] *)
Definition x402_complete_signing (a : X402Adapter) (c : PaymentChallenge) (request : ProtocolSigningRequest)
  (signature : string) : Result Error PaymentCredential :=
  let? integrity := validate_challenge_integrity a c in
  let? payload :=
    match ci_selected integrity with
    | Evm _ => signed_evm_payload request signature
    | Solana _ => solana_complete_signing request signature
    end in
  x402_build_credential a c payload.

(** [verify_receipt] *)
Definition x402_verify_receipt (i : PaymentIntent) (r : PaymentReceipt) : Result Error unit :=
  reject_if ((pi_protocol i != X402_PROTOCOL) || (rt_protocol r != X402_PROTOCOL) || (rt_intent_id r != pi_id i)
             || (rt_scenario_id r != pi_scenario_id i) || (rt_asset r != pi_asset i)
             || negb (payment_recipients_match (as_network (pi_asset i)) (rt_recipient r) (pi_recipient i))
             || (rt_requested_amount r != pi_amount i) || (rt_status r != Settled))
            (PaymentProtocol "x402 receipt binding mismatch") ;?
  map_err (fun field => PaymentProtocol ("invalid x402 receipt field: " ++ field)) (PaymentReceipt_validate r).

(** ** Payee *)

(** The requirement that a price turns into. *)
Definition price_requirement (a : X402Adapter) (price : PaymentPrice) (contract recipient : string)
  : Result Error X402Requirement :=
  let network := as_network (pr_asset price) in
  let parsed_network := ok_or (chain_id_from_str network) (PaymentProtocol "x402 network is not a valid CAIP-2 ID") in
  if evm_valid_network network then
    let? network := parsed_network in
    let? asset := ok_or (checksummed_from_str contract) (PaymentProtocol "x402 token contract is invalid") in
    let? pay_to := ok_or (checksummed_from_str recipient) (PaymentProtocol "x402 recipient is invalid") in
    Ok (Evm {| er_scheme := EXACT_SCHEME; er_network := network; er_amount := pr_amount price; er_asset := asset;
               er_pay_to := pay_to; er_max_timeout_seconds := xd_max_timeout_seconds a;
               er_extra := MethodEip3009 "USDC" "2" |})
  else
    let? fee_payer := ok_or (xd_solana a !! network) (PaymentProtocol "x402 Solana runtime is not configured") in
    reject_if (U64_MAX <? pr_amount price)%N (PaymentProtocol "x402 Solana amount exceeds u64") ;?
    let? network := parsed_network in
    let? asset := ok_or (canonical_solana_address contract) (PaymentProtocol "x402 token mint is invalid") in
    let? pay_to := ok_or (canonical_solana_address recipient) (PaymentProtocol "x402 recipient is invalid") in
    Ok (Solana {| sq_scheme := EXACT_SCHEME; sq_network := network; sq_amount := pr_amount price; sq_asset := asset;
                  sq_pay_to := pay_to; sq_max_timeout_seconds := xd_max_timeout_seconds a; sq_fee_payer := fee_payer |}).

(** [build_challenge] *)
Definition x402_build_challenge (a : X402Adapter) (drawn : string) (price : PaymentPrice) (recipient : string) (now : Z)
  : Result Error PaymentChallenge :=
  reject_if (negb (supports_protocol price X402_PROTOCOL)) (PaymentProtocol "price cannot produce an x402 challenge") ;?
  let? recipient := map_err (fun _ => PaymentProtocol "price recipient is invalid for its network")
                            (canonicalize_payment_recipient (as_network (pr_asset price)) recipient) in
  x402_validate_resource (pr_resource price) ;?
  let? contract := ok_or (as_token_contract (pr_asset price)) (PaymentProtocol "x402 asset requires a token contract") in
  let? registered := registered_asset a (as_network (pr_asset price)) contract in
  reject_if (registered != pr_asset price) (PaymentProtocol "price asset is not the registered x402 asset") ;?
  let? requirement := price_requirement a price contract recipient in
  let expires_at := i64_saturating_add now (if i64_in_range (Z.of_N (xd_max_timeout_seconds a))
                                            then Z.of_N (xd_max_timeout_seconds a) else I64_MAX) in
  let? selected_wire := requirement_to_value requirement in
  let? raw := map_err Prelude.Json (json_to_vec selected_wire) in
  reject_if (is_none (json_from_slice raw)) (PaymentProtocol "encode x402 requirement") ;?
  let required := {| rq_error := None;
                     rq_resource := Some {| ri_url := pr_resource price; ri_description := None; ri_mime_type := None |};
                     rq_accepts := [raw] |} in
  let? wire := map_err Prelude.Json (payment_required_to_value required) in
  let? identity := server_identity drawn (pr_resource price) expires_at wire in
  let challenge :=
    {| ch_scenario_id := pr_scenario_id price; ch_price_id := Some (pr_id price); ch_resource := pr_resource price;
       ch_protocol := X402_PROTOCOL; ch_asset := pr_asset price; ch_amount := pr_amount price; ch_recipient := recipient;
       ch_nonce := fst identity; ch_challenge_hash := snd identity; ch_expires_at := expires_at;
       ch_payload := jobject [("payment_required", wire); ("selected", selected_wire)] |} in
  validate_challenge_integrity a challenge ;?
  Ok challenge.

(** ** The adapter of the registry *)

(** [X402Adapter] as a [PaymentProtocol]; [authorization_nonce] and
    [challenge_nonce] are the bytes that a signing and a challenge draw. *)
Definition x402_adapter (a : X402Adapter) (authorization_nonce challenge_nonce : string) : PaymentProtocolAdapter :=
  {| adapter_name := X402_PROTOCOL;
     decode_http_challenge := x402_decode_http_challenge a;
     encode_http_credential := x402_encode_http_credential;
     parse_challenge := x402_parse_challenge a;
     merchant_evidence_header := "payment-response";
     decode_merchant_evidence := x402_decode_merchant_evidence;
     credential_payer := x402_credential_payer a;
     validate_payment := x402_validate_payment a;
     prepare_signing := x402_prepare_signing a authorization_nonce;
     complete_signing := x402_complete_signing a;
     build_challenge := x402_build_challenge a challenge_nonce;
     verify_credential := x402_verify_credential a;
     credential_fingerprint := x402_credential_fingerprint a;
     protocol_settlement := x402_settle_payment a |}.
End Adapter.
