(* ===== verification/SettlementService.v ===== *)
(** * Payee settlement

    [SettlementCoordinator] of [src/src/payment/settlement/*.rs]: it issues a
    challenge from server-owned prices, binds and verifies one credential,
    asks the fixed provider to settle once, and recovers a requested settlement
    from chain or provider evidence.  An operation is a [Prog]; the provider,
    the chain source, the protocol adapters, the material protector and the
    drawn identities are arguments. *)

From S2P Require Import Prelude Text Money Json Wallet Intent Policy Ledger Records Store PaymentRules Budget PaymentStore Program Authorizer Sealing SigningService X402Sdk X402Evm SettlementFacts.

#[local] Open Scope string_scope.
#[local] Open Scope vault_scope.

Record SettlementCoordinator : Type := {
  co_protocols : ProtocolRegistry;
  co_providers : SettlementProviderRegistry;
  co_latest_block : string -> Result Error N;
  co_lookup_authorization : EvmAuthorizationQuery -> Result Error EvmAuthorizationObservation;
  co_reconciliation_delay_seconds : Z
}.

(** [SettlementCoordinator::new] *)
Definition SettlementCoordinator_new (protocols : ProtocolRegistry) (providers : SettlementProviderRegistry)
    (latest_block : string -> Result Error N)
    (lookup_authorization : EvmAuthorizationQuery -> Result Error EvmAuthorizationObservation) (delay : Z)
  : Result Error SettlementCoordinator :=
  reject_if (delay <=? 0)%Z (Config "reconciliation delay must be positive") ;?
  Ok {| co_protocols := protocols; co_providers := providers; co_latest_block := latest_block;
        co_lookup_authorization := lookup_authorization; co_reconciliation_delay_seconds := delay |}.

(** ** Reads *)

Definition event_is (intent_id : string) (t : PaymentEventType) (e : PaymentEvent) : bool :=
  (ev_intent_id e == intent_id) && (ev_event_type e == t).

(** [IEventRepository::find_for_intent_type] *)
Definition find_for_intent_type (intent_id : string) (t : PaymentEventType) (attempt_no : N)
  : Tx DB (option PaymentEvent) :=
  treads (fun d => fetch_optional (fun e => event_is intent_id t e && (ev_attempt_no e =? attempt_no)%N) (t_event d)).

(** [ORDER BY attempt_no DESC, created_at DESC LIMIT 1] *)
Definition event_newer (a b : PaymentEvent) : bool :=
  (ev_attempt_no b <? ev_attempt_no a)%N
  || ((ev_attempt_no a =? ev_attempt_no b)%N && (ev_created_at b <=? ev_created_at a)%Z).
(** [IEventRepository::find_latest_for_intent_type] *)
Definition find_latest_for_intent_type (intent_id : string) (t : PaymentEventType) : Tx DB (option PaymentEvent) :=
  treads (fun d => head (order_by event_newer (select (event_is intent_id t) (t_event d)))).

(** [IPolicyRepository::get]: the row, then its wallets. *)
Definition policy_get (policy_id : string) : Prog DB (option PaymentPolicy) :=
  let& row := await (treads (fun d => t_policy d !! policy_id)) in
  match row with
  | None => gret None
  | Some row => let& wallet_ids := await (treads (fun d => match t_policy d !! policy_id with
                                                           | Some x => po_wallet_ids x
                                                           | None => []
                                                           end)) in
                gret (Some (with_wallet_ids row wallet_ids))
  end.

(** [Option::filter] followed by [ok_or_else(..)?] *)
Definition keep_or {A} (keep : A -> bool) (o : option A) (e : Error) : Result Error A :=
  ok_or (match o with Some a => if keep a then Some a else None | None => None end) e.

Record PreparedInboundChallenge : Type := {
  pic_access : AccessContext;
  pic_price : PaymentPrice;
  pic_policy : PaymentPolicy;
  pic_wallet : PaymentWallet;
  pic_challenge : PaymentChallenge
}.

Inductive SettlementRequestRecord : Type :=
| ReqInserted (i : PaymentIntent)
| ReqReplay (i : PaymentIntent).

Definition provider_request (i : PaymentIntent) (s : ProtocolSettlement) : SettlementProviderRequest :=
  {| rq_protocol := pt_protocol s; rq_run_id := pi_run_id i; rq_payment_payload := pt_payment_payload s;
     rq_payment_requirements := pt_payment_requirements s |}.

Section Coordinator.
Context `{SolanaPubkey, SolanaSignature, UrlParser, UuidNonce, Sha256, JsonText, JsonParse, MaterialProtector, X402Sdk}.
Variable svc : SettlementCoordinator.

(** ** Challenges *)

(** [load_challenge] *)
Definition load_challenge (i : PaymentIntent) : Prog DB PaymentChallenge :=
  let expected_event := match pi_direction i with Inbound => EvChallengeCreated | Outbound => EvChallengeReceived end in
  let& event := await (find_for_intent_type (pi_id i) expected_event 0) in
  let& challenge := glift (match event with
                           | Some e => decode_member challenge_from_json "challenge" (ev_payload e)
                           | None => Ok None
                           end) in
  glift (keep_or (fun c => pi_challenge_hash i == Some (ch_challenge_hash c)) challenge
                 (Storage "durable challenge event is missing or inconsistent")).

(** [ensure_inbound_capacity] *)
Definition ensure_inbound_capacity (command : IssuePaymentChallenge) (price : PaymentPrice) (policy : PaymentPolicy)
    (challenge : PaymentChallenge) (now : Z) : Prog DB unit :=
  let& budget := await (budget_snapshot (ic_scenario_id command) (pr_wallet_id price) Inbound
                          (budget_unit (pr_asset price)) (utc_day_start now) now) in
  let& decision := glift (evaluate policy
         {| pe_direction := Inbound; pe_challenge := challenge; pe_wallet_id := pr_wallet_id price;
            pe_origin := ic_origin command; pe_scenario_usage := bs_scenario_spent_and_reserved budget;
            pe_wallet_budget := {| wb_usage := bs_wallet_spent_and_reserved budget;
                                   wb_shared_across_scenarios := bs_wallet_shared_across_scenarios budget;
                                   wb_max_per_payment := bs_wallet_max_per_payment budget;
                                   wb_max_per_day := bs_wallet_max_per_day budget |};
            pe_now := now |}) in
  match decision with
  | Allowed => gret tt
  | RequiresApproval =>
      glift (Err (PolicyDenied "inbound capacity requires administrator approval before challenge issuance"))
  | Denied reason => glift (Err (PolicyDenied reason))
  end.

(** [prepare_inbound_challenge] *)
Definition prepare_inbound_challenge (access : AccessContext) (command : IssuePaymentChallenge) (now : Z)
  : Prog DB PreparedInboundChallenge :=
  let& price := await (treads (fun d => t_price d !! ic_price_id command)) in
  let& price := glift (keep_or (fun p => pr_enabled p && (pr_scenario_id p == ic_scenario_id command)
                                         && (pr_resource p == ic_resource command)
                                         && supports_protocol p (ic_protocol command))
                               price (NotFound "payment price")) in
  let& origin := glift (canonical_http_origin (pr_resource price)) in
  glift (reject_if (origin != ic_origin command)
                   (InvalidRequest "protected resource origin does not match the price")) ;&
  let& policy := policy_get (pr_policy_id price) in
  let& policy := glift (keep_or (fun p => po_enabled p && (po_scenario_id p == ic_scenario_id command)
                                          && allows_direction p Inbound && allows_wallet p (pr_wallet_id price))
                                policy (PolicyDenied "price has no enabled inbound policy-wallet binding")) in
  let& wallet := await (load_payment_wallet (pr_wallet_id price)) in
  let& wallet := glift (keep_or pw_enabled wallet (NotFound "price recipient wallet")) in
  let& wallet := glift (map_err (fun field => Storage ("invalid price recipient wallet " ++ field))
                          (PaymentWallet_canonicalized_for_payment_network wallet (as_network (pr_asset price)))) in
  let& adapter := glift (registry_get (co_protocols svc) (ic_protocol command)) in
  let& challenge := glift (build_challenge adapter price (w_address (pw_wallet wallet)) now) in
  glift (validate_payee_challenge challenge price (pw_wallet wallet) now) ;&
  ensure_inbound_capacity command price policy challenge now ;&
  gret {| pic_access := access; pic_price := price; pic_policy := policy; pic_wallet := wallet;
          pic_challenge := challenge |}.

(** The guard and the write of a prepared challenge. *)
Definition challenge_write (ids : SettlementIds) (command : IssuePaymentChallenge) (p : PreparedInboundChallenge)
    (i : PaymentIntent) (now : Z) : ChallengeWrite :=
  {| cw_intent := i; cw_challenge := pic_challenge p;
     cw_guard := {| cg_principal := ax_principal (pic_access p); cg_client := ax_client (pic_access p);
                    cg_scenario := ax_scenario (pic_access p); cg_price := pic_price p; cg_policy := pic_policy p;
                    cg_wallet := pic_wallet p; cg_origin := ic_origin command;
                    cg_day_started_at := utc_day_start now; cg_evaluated_at := now |};
     cw_events := [intent_event (xi_challenge_event ids) i EvChallengeCreated None
                     (jobject [("challenge", challenge_to_json (pic_challenge p))]) now];
     cw_outbox := [] |}.

(** [issue_challenge] *)
Definition issue_challenge (ids : SettlementIds) (principal : string) (command : IssuePaymentChallenge) (now : Z)
  : Prog DB PaymentChallenge :=
  glift (validate_issue_command command) ;&
  let& access := scenario_authorize principal (ic_scenario_id command) in
  let& existing := find_run (ic_scenario_id command) (ic_run_id command) in
  match existing with
  | Some record =>
      glift (ensure_replay_identity (ar_intent record) command) ;&
      glift (reject_if (pi_direction (ar_intent record) != Inbound)
                       (PaymentConflict "run_id is already bound to an outbound payment")) ;&
      load_challenge (ar_intent record)
  | None =>
      let& p := prepare_inbound_challenge access command now in
      let& i := glift (build_inbound_intent ids command (pic_price p) (pw_wallet (pic_wallet p)) (pic_challenge p) now) in
      let& record := await (record_challenge (challenge_write ids command p i now)) in
      match record with
      | Inserted stored => glift (ensure_replay_identity stored command) ;& gret (pic_challenge p)
      | Replayed stored => glift (ensure_replay_identity stored command) ;& load_challenge stored
      end
  end.

(** ** Durable submissions *)

(** [load_submission] *)
Definition load_submission (i : PaymentIntent) : Prog DB (string * ProtocolSettlement) :=
  let& event := await (find_for_intent_type (pi_id i) EvSubmitted 0) in
  let& event := glift (ok_or event (Storage "durable submission event is missing")) in
  let& fingerprint := glift (ok_or (jget_str "credential_fingerprint" (ev_payload event))
                                   (Storage "durable credential fingerprint is missing")) in
  let& sealed := glift (decode_member sealed_from_json "sealed_settlement" (ev_payload event)) in
  let& sealed := glift (ok_or sealed (Storage "durable settlement material is missing")) in
  let& plaintext := glift (mp_open (settlement_material_context i) sealed) in
  let& settlement := glift (ok_or (j ← json_from_slice plaintext; settlement_from_json j) serde_error) in
  gret (fingerprint, settlement).

Definition submission_mismatch : Error :=
  PaymentConflict "credential retry does not match the submitted payment proof".

(** [ensure_credential_replay] *)
Definition ensure_credential_replay (i : PaymentIntent) (credential : PaymentCredential) : Prog DB unit :=
  let& challenge := load_challenge i in
  glift (reject_if ((cr_protocol credential != pi_protocol i)
                    || (cr_challenge_hash credential != ch_challenge_hash challenge))
                   (PaymentConflict "credential retry is bound to another protocol or challenge")) ;&
  let& adapter := glift (registry_get (co_protocols svc) (pi_protocol i)) in
  let& fingerprint := glift (credential_fingerprint adapter challenge credential) in
  let& stored := load_submission i in
  glift (reject_if (fingerprint != fst stored) submission_mismatch).

Definition latest_verification_ref (i : PaymentIntent) : Prog DB string :=
  let& event := await (find_latest_for_intent_type (pi_id i) EvCredentialVerified) in
  let& event := glift (ok_or event (Storage "credential verification event is missing")) in
  glift (ok_or (jget_str "verification_ref" (ev_payload event)) (Storage "verification reference is missing")).

(** [load_verification] *)
Definition load_verification (i : PaymentIntent) : Prog DB IncomingVerification :=
  let& verification_ref := latest_verification_ref i in
  gret {| iv_intent := i; iv_valid := true; iv_verification_ref := Some verification_ref |}.

(** [load_settlement_material] *)
Definition load_settlement_material (i : PaymentIntent) : Prog DB (string * ProtocolSettlement) :=
  let& verification_ref := latest_verification_ref i in
  let& submission := load_submission i in
  gret (verification_ref, snd submission).

(** [load_receipt] *)
Definition load_receipt (i : PaymentIntent) : Prog DB PaymentReceipt :=
  let& settled := await (find_latest_for_intent_type (pi_id i) EvSettled) in
  let& reconciled := match settled with
                     | Some _ => gret None
                     | None => await (find_latest_for_intent_type (pi_id i) EvReconciled)
                     end in
  glift (durable_receipt settled reconciled).

(** ** Verification *)

Definition with_credential_hash (c : PaymentCredential) (h : string) : PaymentCredential :=
  {| cr_protocol := cr_protocol c; cr_challenge_hash := cr_challenge_hash c; cr_credential_hash := h;
     cr_payload := cr_payload c |}.

Definition retry_at (now : Z) : Z := i64_saturating_add now (co_reconciliation_delay_seconds svc).

(** The intent and the write of a submitted credential. *)
Definition submitted_intent (i : PaymentIntent) (now : Z) : PaymentIntent :=
  with_progress i Submitted (pi_reservation_status i) (Some (retry_at now)) (next_timestamp (pi_updated_at i) now).
Definition submission_write (ids : SettlementIds) (i : PaymentIntent) (credential : PaymentCredential)
    (sealed : SealedSensitiveMaterial) (now : Z) : VerificationWrite :=
  let submitted := submitted_intent i now in
  {| vw_intent := submitted; vw_credential := credential; vw_expected_updated_at := pi_updated_at i;
     vw_events := [intent_event (xi_submitted_event ids) i EvSubmitted None
                     (jobject [("credential_fingerprint", JString (cr_credential_hash credential));
                               ("sealed_settlement", sealed_to_json sealed)]) (pi_updated_at submitted)];
     vw_outbox := [] |}.

(** [submit_credential] *)
Definition submit_credential (ids : SettlementIds) (i : PaymentIntent) (credential : PaymentCredential) (now : Z)
  : Prog DB (PaymentIntent * SettlementProviderRequest) :=
  let& challenge := load_challenge i in
  let& adapter := glift (registry_get (co_protocols svc) (pi_protocol i)) in
  glift (verify_credential adapter challenge credential now) ;&
  let& fingerprint := glift (credential_fingerprint adapter challenge credential) in
  let credential := with_credential_hash credential fingerprint in
  let& settlement := glift (protocol_settlement adapter challenge credential) in
  let& bytes := glift (map_err Json (json_to_vec (settlement_to_json settlement))) in
  let& sealed := glift (mp_seal (xi_nonce ids) (settlement_material_context i) bytes) in
  let& submitted := await (verify_incoming (submission_write ids i credential sealed now)) in
  gret (submitted, provider_request submitted settlement).

(** [resume_submitted] *)
Definition resume_submitted (i : PaymentIntent) (credential : PaymentCredential) (now : Z)
  : Prog DB (PaymentIntent * SettlementProviderRequest) :=
  let& challenge := load_challenge i in
  let& adapter := glift (registry_get (co_protocols svc) (pi_protocol i)) in
  glift (verify_credential adapter challenge credential now) ;&
  let& fingerprint := glift (credential_fingerprint adapter challenge credential) in
  let& stored := load_submission i in
  glift (reject_if (fingerprint != fst stored) submission_mismatch) ;&
  gret (i, provider_request i (snd stored)).

(** The intent and the write of a step that moves no money. *)
Definition non_settled_intent (i : PaymentIntent) (status : PaymentStatus) (now : Z) : PaymentIntent :=
  with_progress i status (reservation_after_non_settlement status (pi_reservation_status i))
    (match status with Unknown | PendingSettlement => Some (retry_at now) | _ => None end)
    (next_timestamp (pi_updated_at i) now).
Definition non_settlement_write (ids : SettlementIds) (i : PaymentIntent) (status : PaymentStatus)
    (t : PaymentEventType) (payload : json) (now : Z) : PaymentProgressWrite :=
  let updated := non_settled_intent i status now in
  {| pgw_intent := updated; pgw_expected_updated_at := pi_updated_at i;
     pgw_events := [intent_event (xi_progress_event ids) i t None payload (pi_updated_at updated)];
     pgw_outbox := [] |}.

(** [record_non_settlement] *)
Definition record_non_settlement (ids : SettlementIds) (i : PaymentIntent) (status : PaymentStatus)
    (t : PaymentEventType) (payload : json) (now : Z) : Prog DB PaymentIntent :=
  await (commit_progress (non_settlement_write ids i status t payload now)).

Definition refused (i : PaymentIntent) : IncomingVerification :=
  {| iv_intent := i; iv_valid := false; iv_verification_ref := None |}.

(** The provider's verdict on a submitted credential. *)
Definition provider_verdict (ids : SettlementIds) (submitted : PaymentIntent) (request : SettlementProviderRequest)
    (now : Z) : Prog DB IncomingVerification :=
  let& binding := glift (providers_get (co_providers svc) (pi_protocol submitted)) in
  let& result := glift (pb_provider binding OpVerify request) in
  if negb (spr_valid result) then
    let& hash := glift (evidence_hash (provider_result_to_json result)) in
    let& failed := record_non_settlement ids submitted Failed EvFailed
                     (jobject [("stage", JString "verify"); ("provider_evidence_hash", JString hash)]) now in
    gret (refused failed)
  else
    let& verification_ref := glift (provider_verification_ref (pi_id submitted) result) in
    let& pending := record_non_settlement ids submitted PendingSettlement EvCredentialVerified
                      (jobject [("verification_ref", JString verification_ref)]) now in
    gret {| iv_intent := pending; iv_valid := true; iv_verification_ref := Some verification_ref |}.

(** [verify_payment] *)
Definition verify_payment (ids : SettlementIds) (principal : string) (command : VerifyIncomingPayment) (now : Z)
  : Prog DB IncomingVerification :=
  glift (validate_verify_command command) ;&
  scenario_authorize principal (vc_scenario_id command) ;&
  let& i := await (get_for_challenge (vc_scenario_id command) (vc_challenge_hash command)) in
  let& i := glift (ok_or i (NotFound "payment challenge")) in
  glift (ensure_incoming_identity i (vc_run_id command) (vc_request_hash command)) ;&
  match pi_status i with
  | Settled | PendingSettlement =>
      ensure_credential_replay i (vc_credential command) ;& load_verification i
  | Failed | Expired => gret (refused i)
  | Created =>
      let& s := submit_credential ids i (vc_credential command) now in provider_verdict ids (fst s) (snd s) now
  | Submitted =>
      let& s := resume_submitted i (vc_credential command) now in provider_verdict ids (fst s) (snd s) now
  | s => glift (Err (InvalidTransition ("cannot verify inbound payment in " ++ status_as_str s)))
  end.

(** ** Recovery *)

(** [settlement_requested_event] *)
Definition settlement_requested_event (i : PaymentIntent) : Prog DB (option PaymentEvent) :=
  await (find_for_intent_type (pi_id i) EvSettlementRequested 0).

(** [load_reconciliation_settlement] *)
Definition load_reconciliation_settlement (i : PaymentIntent) : Prog DB ProtocolSettlement :=
  let& submitted := await (find_for_intent_type (pi_id i) EvSubmitted 0) in
  match submitted with
  | Some _ => let& submission := load_submission i in gret (snd submission)
  | None =>
      glift (reject_if (pi_direction i != Outbound)
                       (Storage "inbound reconciliation has no durable provider submission")) ;&
      let& challenge := load_challenge i in
      let& event := await (find_for_intent_type (pi_id i) EvSigned 0) in
      let& event := glift (ok_or event (Storage "outbound reconciliation has no durable signed credential")) in
      let& sealed := glift (decode_member sealed_from_json "sealed_credential" (ev_payload event)) in
      let& sealed := glift (ok_or sealed (Storage "signed event has no sealed credential")) in
      let& plaintext := glift (mp_open (outbound_credential_context (pi_id i)) sealed) in
      let& credential := glift (ok_or (j ← json_from_slice plaintext; credential_from_json j) serde_error) in
      let& adapter := glift (registry_get (co_protocols svc) (pi_protocol i)) in
      let& fingerprint := glift (credential_fingerprint adapter challenge credential) in
      glift (reject_if ((ev_signature_ref event != Some fingerprint) || (cr_credential_hash credential != fingerprint))
                       (PaymentConflict "durable outbound credential fingerprint is inconsistent")) ;&
      glift (protocol_settlement adapter challenge credential)
  end.

Definition chain_authority (i : PaymentIntent) : string := "evm-rpc:" ++ as_network (pi_asset i).

(** What the chain source's answer means for the intent. *)
Definition observation_of (i : PaymentIntent) (query : EvmAuthorizationQuery) (expiry observed_at : Z)
    (o : EvmAuthorizationObservation) : ReconciliationProviderObservation :=
  let result (valid settled : bool) (transaction effect_ref invalid_reason : option string)
             (exact : bool) (confirmations : option N) :=
    {| spr_valid := valid; spr_settled := settled; spr_payer := Some (aq_payer query);
       spr_transaction := transaction; spr_settlement_ref := None; spr_effect_ref := effect_ref;
       spr_invalid_reason := invalid_reason; spr_asset := if exact then Some (pi_asset i) else None;
       spr_amount := if exact then Some (pi_amount i) else None;
       spr_recipient := if exact then Some (pi_recipient i) else None; spr_confirmations := confirmations;
       spr_extensions := [] |} in
  let pending := ObsObserved (chain_authority i) 0 (result true false None None None true None) None in
  match o with
  | AuthConfirmed evidence =>
      ObsObserved (ct_authority evidence) (ct_minimum_confirmations evidence)
        (result true true (Some (ct_transaction evidence)) (Some (ct_effect_ref evidence)) None true
                (Some (ct_confirmations evidence))) (Some (ct_effective_at evidence))
  | AuthNoEffect _ chain_observed_at =>
      if authorization_is_definitively_expired observed_at chain_observed_at expiry
      then ObsExpired "EIP-3009 authorization expired without an on-chain AuthorizationUsed effect"
      else pending
  | AuthPending => pending
  | AuthMismatch reason =>
      ObsObserved (chain_authority i) 0 (result false false None None (Some reason) false None) None
  end.

(** [authorization_reconciliation_observation] *)
Definition authorization_reconciliation_observation (i : PaymentIntent) (s : ProtocolSettlement)
    (requested : PaymentEvent) (observed_at : Z) : Result Error ReconciliationProviderObservation :=
  let? from_block := settlement_request_from_block i requested in
  let? from_block := ok_or from_block (Storage "x402 settlement checkpoint is missing") in
  let? query := authorization_query i s from_block in
  let expiry := authorization_expiry_deadline i (snd query) in
  let? observation := co_lookup_authorization svc (fst query) in
  Ok (observation_of i (fst query) expiry observed_at observation).

(** [reconciliation_observation] *)
Definition reconciliation_observation (i : PaymentIntent) (observed_at : Z)
  : Prog DB ReconciliationProviderObservation :=
  let& settlement := load_reconciliation_settlement i in
  if uses_eip3009_recovery i then
    let& requested := settlement_requested_event i in
    let& requested := glift (ok_or requested
                               (Storage "inbound x402 reconciliation has no durable settlement operation")) in
    glift (authorization_reconciliation_observation i settlement requested observed_at)
  else
    let& binding := glift (providers_get (co_providers svc) (pi_protocol i)) in
    let& result := glift (pb_provider binding OpVerify (provider_request i settlement)) in
    let& minimum_confirmations := glift (confirmation_depth binding (as_network (pi_asset i))) in
    gret (ObsObserved (pb_authority binding) minimum_confirmations result None).

(** ** Settlement *)

(** [commit_confirmed] *)
Definition settlement_write (ids : SettlementIds) (i : PaymentIntent) (r : SettlementProviderResult)
    (receipt : PaymentReceipt) (ledger : PaymentLedgerEntry) (confirmed_at effective_at : Z) : SettlementWrite :=
  {| sw_intent := confirmed_intent i r confirmed_at effective_at; sw_expected_updated_at := pi_updated_at i;
     sw_events := [confirmed_event ids i r receipt confirmed_at]; sw_ledger_entries := [ledger];
     sw_outbox := [confirmed_outbox ids i confirmed_at] |}.
Definition commit_confirmed (ids : SettlementIds) (i : PaymentIntent) (authority : string)
    (r : SettlementProviderResult) (now : Z) (effective_at : option Z) : Prog DB SettledIncomingPayment :=
  let confirmed_at := next_timestamp (pi_updated_at i) now in
  let effective_at := unwrap_or confirmed_at effective_at in
  glift (validate_trusted_effective_time (pi_created_at i) effective_at now) ;&
  let& receipt := glift (confirmed_receipt i r effective_at) in
  let& ledger := glift (confirmed_ledger ids i authority r effective_at confirmed_at) in
  let& stored := attempt (commit_settlement (settlement_write ids i r receipt ledger confirmed_at effective_at)) in
  match stored with
  | Ok stored => gret (settled_response stored receipt)
  | Err (PaymentConflict reason) =>
      let& current := await (load_intent (pi_id i)) in
      let& current := glift (ok_or current (Storage "concurrently settled payment intent disappeared")) in
      glift (reject_if (negb (is_concurrent_settlement_winner i current)) (PaymentConflict reason)) ;&
      let& receipt := load_receipt current in
      gret (settled_response current receipt)
  | Err error => glift (Err error)
  end.

(** [recover_requested_settlement] *)
Definition recover_requested_settlement (ids : SettlementIds) (i : PaymentIntent) (now : Z)
  : Prog DB SettledIncomingPayment :=
  let& observation := reconciliation_observation i now in
  match observation with
  | ObsExpired reason =>
      let& expired := record_non_settlement ids i Expired EvFailed
                        (jobject [("stage", JString "settlement_recovery"); ("reason", JString reason)]) now in
      glift (Err (Settlement ("settlement authorization expired; intent " ++ pi_id expired ++ " is "
                              ++ status_as_str (pi_status expired))))
  | ObsObserved authority minimum_confirmations result effective_at =>
      if spr_valid result && spr_settled result then
        glift (validate_confirmed_for result i minimum_confirmations) ;&
        commit_confirmed ids i authority result now effective_at
      else
        (if spr_valid result then gret tt
         else let& evidence := glift (evidence_hash (provider_result_to_json result)) in
              record_non_settlement ids i Unknown EvRetried
                (jobject [("stage", JString "settlement_recovery"); ("provider_evidence_hash", JString evidence)])
                now ;& gret tt) ;&
        glift (Err (Settlement "durably requested settlement is awaiting trusted chain or provider evidence"))
  end.

(** The write that makes a settlement request durable. *)
Definition settlement_request_write (ids : SettlementIds) (i : PaymentIntent) (from_block : option N) (now : Z)
  : PaymentProgressWrite :=
  let requested := with_progress i (pi_status i) (pi_reservation_status i) (Some (retry_at now))
                     (next_timestamp (pi_updated_at i) now) in
  {| pgw_intent := requested; pgw_expected_updated_at := pi_updated_at i;
     pgw_events := [intent_event (xi_request_event ids) i EvSettlementRequested None
                      (settlement_request_payload i from_block) (pi_updated_at requested)];
     pgw_outbox := [] |}.

(** The current intent of a settlement someone else requested. *)
Definition replayed_request (i : PaymentIntent) (event : PaymentEvent) : Prog DB SettlementRequestRecord :=
  glift (settlement_request_from_block i event) ;&
  let& current := await (load_intent (pi_id i)) in
  let& current := glift (ok_or current (Storage "settlement intent disappeared")) in
  gret (ReqReplay current).

(** [record_settlement_requested] *)
Definition record_settlement_requested (ids : SettlementIds) (i : PaymentIntent) (now : Z)
  : Prog DB SettlementRequestRecord :=
  let& event := settlement_requested_event i in
  match event with
  | Some event => replayed_request i event
  | None =>
      let& from_block :=
        (if uses_eip3009_recovery i
         then let& latest := glift (co_latest_block svc (as_network (pi_asset i))) in gret (Some (latest - 1)%N)
         else gret None) in
      let& stored := attempt (commit_progress (settlement_request_write ids i from_block now)) in
      match stored with
      | Ok stored => gret (ReqInserted stored)
      | Err error =>
          let& winner := settlement_requested_event i in
          match winner with
          | Some winner => replayed_request i winner
          | None => glift (Err error)
          end
      end
  end.

(** The provider's answer to a settlement request. *)
Definition provider_settles (ids : SettlementIds) (i : PaymentIntent) (s : ProtocolSettlement) (now : Z)
  : Prog DB SettledIncomingPayment :=
  let& binding := glift (providers_get (co_providers svc) (pi_protocol i)) in
  let& minimum_confirmations := glift (confirmation_depth binding (as_network (pi_asset i))) in
  let& result := glift (pb_provider binding OpSettle (provider_request i s)) in
  if negb (spr_valid result) || negb (spr_settled result)
     || (is_none (spr_transaction result) && is_none (spr_settlement_ref result)) then
    let status := if negb (spr_valid result) && is_some (spr_invalid_reason result) then Failed else Unknown in
    let& hash := glift (evidence_hash (provider_result_to_json result)) in
    let& updated := record_non_settlement ids i status (if status == Failed then EvFailed else EvRetried)
                      (jobject [("stage", JString "settle"); ("provider_evidence_hash", JString hash)]) now in
    glift (Err (Settlement ("settlement is not confirmed; intent " ++ pi_id updated ++ " is "
                            ++ status_as_str (pi_status updated))))
  else match validate_confirmed_for result i minimum_confirmations with
  | Err error =>
      let& hash := glift (evidence_hash (provider_result_to_json result)) in
      record_non_settlement ids i Unknown EvRetried
        (jobject [("stage", JString "settle_evidence_validation"); ("provider_evidence_hash", JString hash)]) now ;&
      glift (Err error)
  | Ok _ => commit_confirmed ids i (pb_authority binding) result now None
  end.

(** [settle_payment] *)
Definition settle_payment (ids : SettlementIds) (principal : string) (command : SettleIncomingPayment) (now : Z)
  : Prog DB SettledIncomingPayment :=
  glift (validate_settle_command command) ;&
  scenario_authorize principal (sc_scenario command) ;&
  let& i := await (get_for_scenario (sc_scenario command) (sc_intent command)) in
  let& i := glift (ok_or i (NotFound "payment intent")) in
  glift (ensure_settlement_intent_binding i command) ;&
  match pi_status i with
  | Settled => let& receipt := load_receipt i in gret (settled_response i receipt)
  | PendingSettlement =>
      let& material := load_settlement_material i in
      glift (reject_if (fst material != sc_verification_ref command)
                       (PaymentConflict "verification reference does not match the verified credential")) ;&
      let& requested := record_settlement_requested ids i now in
      match requested with
      | ReqInserted i => provider_settles ids i (snd material) now
      | ReqReplay i =>
          if pi_status i == Settled
          then let& receipt := load_receipt i in gret (settled_response i receipt)
          else recover_requested_settlement ids i now
      end
  | s => glift (Err (InvalidTransition ("cannot settle inbound payment in " ++ status_as_str s)))
  end.
End Coordinator.
