(* ===== verification/SettlementSamples.v ===== *)
(** * A payee at work

    A concrete payee service over the sample vault: it issues a challenge for
    the sample price, verifies a credential and settles, on which the
    hypotheses of the theorems about the payee are evaluated. *)

From S2P Require Import Prelude Text Money Json Wallet Intent Policy Ledger Records Store PaymentRules Budget PaymentStore Program Authorizer Samples AuthorizerSafety Sealing SigningService SigningServiceSafety X402Sdk X402Evm SettlementFacts SettlementService.

#[local] Open Scope string_scope.
#[local] Open Scope vault_scope.

Module SamplePayee.
Definition settlement : ProtocolSettlement :=
  {| pt_protocol := "x402"; pt_payment_payload := jobject [("payer", JString "0x02")];
     pt_payment_requirements := jobject [("scheme", JString "exact")] |}.
Definition text : JsonText := SampleRequest.serializer.
(** A digest of 32 bytes: the end of its input. *)
Definition digest : Sha256 := {| sha256 := fun s => substring (String.length s - 32) 32 s |}.
(** A parser that knows the settlement material of the sample. *)
Definition parse : JsonParse :=
  {| json_from_slice := fun s => if s == SampleRequest.show_json (settlement_to_json settlement)
                                 then Some (settlement_to_json settlement) else None |}.
Definition sdk : X402Sdk :=
  {| payment_required_from_value := fun _ => Err "unknown challenge";
     payment_required_to_value := fun _ => Err "unknown challenge";
     evm_requirement_from_value := fun _ => Err "unknown requirement";
     evm_requirement_to_value := fun _ => Err "unknown requirement";
     solana_requirement_from_value := fun _ => Err "unknown requirement";
     solana_requirement_to_value := fun _ => Err "unknown requirement";
     evm_payload_from_value := fun _ => Err "unknown payload"; evm_payload_to_value := fun _ => Err "unknown payload";
     solana_payload_from_value := fun _ => Err "unknown payload";
     solana_payload_to_value := fun _ => Err "unknown payload";
     settle_response_from_value := fun _ => Err "unknown response";
     verify_response_from_value := fun _ => Err "unknown response"; b256_to_string := fun s => s |}.

(** A provider that confirms what it is asked. *)
Definition answer (op : SettlementOperation) : SettlementProviderResult :=
  {| spr_valid := true; spr_settled := match op with OpSettle => true | OpVerify => false end; spr_payer := Some "0x02";
     spr_transaction := match op with OpSettle => Some "0xfeedfeedfeedfeedfeedfeedfeedfeedfeedfeedfeedfeedfeedfeedfeedfeed" | OpVerify => None end; spr_settlement_ref := None;
     spr_effect_ref := match op with OpSettle => Some "0" | OpVerify => None end; spr_invalid_reason := None;
     spr_asset := Some sample_asset; spr_amount := Some 250000%N;
     spr_recipient := Some "0xabcdef0123456789abcdef0123456789abcdef01"; spr_confirmations := Some 12%N;
     spr_extensions := [] |}.
Definition binding : SettlementProviderBinding :=
  {| pb_authority := "facilitator"; pb_confirmation_depths := {["eip155:8453" := 6%N]};
     pb_provider := fun op _ => Ok (answer op) |}.
Definition service : SettlementCoordinator :=
  {| co_protocols := SampleRequest.registry; co_providers := {["x402" := binding]};
     co_latest_block := fun _ => Ok 100%N; co_lookup_authorization := fun _ => Ok AuthPending;
     co_reconciliation_delay_seconds := 30 |}.
Definition ids (suffix : string) : SettlementIds :=
  {| xi_intent := "intent-" ++ suffix; xi_challenge_event := "challenge-" ++ suffix; xi_nonce := SampleRing.nonce;
     xi_submitted_event := "submitted-" ++ suffix; xi_request_event := "request-" ++ suffix;
     xi_progress_event := "progress-" ++ suffix; xi_ledger := "ledger-" ++ suffix;
     xi_settled_event := "settled-" ++ suffix; xi_outbox := "outbox-" ++ suffix |}.

Definition order : IssuePaymentChallenge :=
  {| ic_scenario_id := "scenario-1"; ic_run_id := "run-p"; ic_price_id := "price-1";
     ic_resource := "https://api.example/feed"; ic_origin := "https://api.example"; ic_protocol := "x402";
     ic_request_hash := "request-p" |}.
Definition proof : VerifyIncomingPayment :=
  {| vc_scenario_id := "scenario-1"; vc_run_id := "run-p"; vc_challenge_hash := "hash-price-1";
     vc_request_hash := "request-p";
     vc_credential := {| cr_protocol := "x402"; cr_challenge_hash := "hash-price-1"; cr_credential_hash := "c-1";
                         cr_payload := jobject [("payer", JString "0x02")] |} |}.
End SamplePayee.

#[local] Existing Instance Sample.codec.
#[local] Existing Instance Sample.parser.
#[local] Existing Instance sample_signature.
#[local] Existing Instance SamplePayee.digest.
#[local] Existing Instance SampleRing.uuids.
#[local] Existing Instance SamplePayee.text.
#[local] Existing Instance SamplePayee.parse.
#[local] Existing Instance SamplePayee.sdk.
#[local] Existing Instance sample_protector.

Definition sample_issue (suffix : string) (now : Z) : Prog DB PaymentChallenge :=
  issue_challenge SamplePayee.service (SamplePayee.ids suffix) "principal-1" SamplePayee.order now.
Definition sample_issue_db : DB := snd (run_alone (sample_issue "p" 1700000000) Sample.db).
Definition sample_verify (suffix : string) (now : Z) : Prog DB IncomingVerification :=
  verify_payment SamplePayee.service (SamplePayee.ids suffix) "principal-1" SamplePayee.proof now.
Definition sample_verify_db : DB := snd (run_alone (sample_verify "v" 1700000010) sample_issue_db).
Definition sample_verification_ref : string :=
  match fst (run_alone (sample_verify "v" 1700000010) sample_issue_db) with
  | Ok {| iv_verification_ref := Some reference |} => reference
  | _ => ""
  end.
Definition sample_settle_command : SettleIncomingPayment :=
  {| sc_scenario := "scenario-1"; sc_run := "run-p"; sc_intent := "intent-p"; sc_verification_ref := sample_verification_ref |}.
Notation sample_settle suffix now :=
  (settle_payment SamplePayee.service (SamplePayee.ids suffix) "principal-1" sample_settle_command now).
Definition sample_settle_db : DB := snd (run_alone (sample_settle "s" 1700000020) sample_verify_db).
Definition sample_settled : SettledIncomingPayment :=
  match fst (run_alone (sample_settle "s" 1700000020) sample_verify_db) with
  | Ok settled => settled
  | Err _ => settled_response Sample.inbound
               {| rt_intent_id := ""; rt_scenario_id := ""; rt_direction := Inbound; rt_protocol := "";
                  rt_asset := sample_asset; rt_recipient := ""; rt_payer := None; rt_requested_amount := 0;
                  rt_settled_amount := 0; rt_status := Failed; rt_tx_hash := None; rt_settlement_ref := None;
                  rt_evidence_hash := ""; rt_confirmed_at := 0 |}
  end.
Definition sample_verified_answer (suffix : string) (now : Z) (d : DB) : IncomingVerification :=
  match fst (run_alone (sample_verify suffix now) d) with Ok answer => answer | Err _ => refused Sample.inbound end.
Definition sample_issued_challenge : PaymentChallenge :=
  match fst (run_alone (sample_issue "p" 1700000000) Sample.db) with Ok ch => ch | Err _ => Sample.challenge 0 end.

Lemma sample_issue_alone :
  run_alone (sample_issue "p" 1700000000) Sample.db = (Ok sample_issued_challenge, sample_issue_db).
Proof. vm_compute. reflexivity. Qed.
Lemma sample_issue_again :
  run_alone (sample_issue "q" 1700000005) sample_issue_db = (Ok sample_issued_challenge, sample_issue_db).
Proof. vm_compute. reflexivity. Qed.
Lemma sample_verify_alone :
  run_alone (sample_verify "v" 1700000010) sample_issue_db
  = (Ok (sample_verified_answer "v" 1700000010 sample_issue_db), sample_verify_db)
  /\ iv_valid (sample_verified_answer "v" 1700000010 sample_issue_db) = true.
Proof. split; vm_compute; reflexivity. Qed.
Lemma sample_verify_again :
  run_alone (sample_verify "w" 1700000015) sample_verify_db
  = (Ok (sample_verified_answer "w" 1700000015 sample_verify_db), sample_verify_db)
  /\ iv_valid (sample_verified_answer "w" 1700000015 sample_verify_db) = true.
Proof. split; vm_compute; reflexivity. Qed.
Lemma sample_settle_alone :
  run_alone (sample_settle "s" 1700000020) sample_verify_db = (Ok sample_settled, sample_settle_db)
  /\ pi_status (sd_intent sample_settled) = Settled.
Proof. split; vm_compute; reflexivity. Qed.
