(* ===== verification/ChallengeSafety.v ===== *)
(** * What a payment challenge guarantees

    Shared lemmas on the events the payee service reads back, on access, and
    the guarantees of challenge issuance in [SettlementService] while every
    other transaction of the vault runs between its calls ([exec] under
    [rtc step]): an answer is the challenge on record, a run has one challenge,
    a fresh one is within the limits, and a retry is answered. *)

From S2P Require Import Prelude Text Money Json Wallet Intent Policy Ledger Records Store LedgerStore PaymentRules Budget PaymentStore Program Authorizer Samples IntentFlow BudgetSafety Lifecycle System AuthorizerSafety Sealing ApprovalServiceSafety SigningService X402Sdk X402Evm SettlementFacts SettlementService SigningServiceSafety SettlementSamples.
From stdpp Require Import relations.

#[local] Open Scope string_scope.
#[local] Open Scope vault_scope.

(** ** Events on record *)

(** The first event of a type in a payment's history. *)
Definition first_event (d : DB) (id : string) (t : PaymentEventType) (e : PaymentEvent) : Prop :=
  find_for_intent_type id t 0 d = Ok (Some e, d).

Lemma first_event_lookup d id t e :
  first_event d id t e ->
  exists k, t_event d !! k = Some e /\ ev_intent_id e = id /\ ev_event_type e = t /\ ev_attempt_no e = 0%N.
Proof.
  unfold first_event, find_for_intent_type. intros Hf. apply treads_ok in Hf as [Hf _]. symmetry in Hf.
  apply fetch_optional_Some in Hf as [Hp [k Hk]]. unfold event_is in Hp. bool_inv. by exists k.
Qed.

Lemma first_event_intro d k e :
  events_ok (t_event d) -> t_event d !! k = Some e -> ev_attempt_no e = 0%N ->
  first_event d (ev_intent_id e) (ev_event_type e) e.
Proof.
  intros Hok Hk Ha. unfold first_event, find_for_intent_type. apply treads_ok. split; [|done]. symmetry.
  apply (fetch_optional_unique _ _ k); [done|unfold event_is; by rewrite !bool_decide_true, Ha|].
  intros k' y Hy Hp. assert (k' = k) as ->; [|congruence].
  eapply (events_unique _ Hok); [exact Hy|exact Hk|]. unfold event_is in Hp. bool_inv.
  unfold event_same_key. by rewrite !bool_decide_true by congruence.
Qed.

Lemma first_event_functional d id t e e' : first_event d id t e -> first_event d id t e' -> e = e'.
Proof. unfold first_event. congruence. Qed.

Lemma find_first_ok id t d o d' :
  find_for_intent_type id t 0 d = Ok (o, d') -> d' = d /\ match o with Some e => first_event d id t e | None => True end.
Proof.
  intros Hf. pose proof Hf as [_ ->]%treads_ok. split; [done|]. by destruct o.
Qed.

#[export] Instance find_for_intent_type_read_only id t n : ReadOnly (find_for_intent_type id t n).
Proof. unfold find_for_intent_type. solve_read_only. Qed.
#[export] Instance find_latest_read_only id t : ReadOnly (find_latest_for_intent_type id t).
Proof. unfold find_latest_for_intent_type. solve_read_only. Qed.

(** The latest event of a type is an event of that type on record. *)
Lemma find_latest_ok id t d o d' :
  find_latest_for_intent_type id t d = Ok (o, d') ->
  d' = d /\ match o with
            | Some e => exists k, t_event d !! k = Some e /\ ev_intent_id e = id /\ ev_event_type e = t
            | None => forall k e, t_event d !! k = Some e -> ev_intent_id e = id -> ev_event_type e <> t
            end.
Proof.
  unfold find_latest_for_intent_type. intros [Ho ->]%treads_ok. split; [done|]. subst o.
  destruct (head _) as [e|] eqn:Hh.
  - assert (e ∈ order_by event_newer (select (event_is id t) (t_event d))) as He.
    { destruct (order_by _ _) as [|x l]; simpl in Hh; [done|]. injection Hh as ->. constructor. }
    apply elem_of_order_by, elem_of_select in He as [Hp [k Hk]]. unfold event_is in Hp. bool_inv. eauto.
  - intros k e Hk Hid Ht. assert (e ∈ order_by event_newer (select (event_is id t) (t_event d))) as He.
    { apply elem_of_order_by, elem_of_select. split; [|by exists k]. unfold event_is. by rewrite !bool_decide_true. }
    destruct (order_by _ _); [by apply not_elem_of_nil in He|done].
Qed.

Section Later.
Context `{SolanaPubkey, UrlParser}.

Lemma event_later d d' k e : reachable d -> rtc step d d' -> t_event d !! k = Some e -> t_event d' !! k = Some e.
Proof.
  intros Hr Hs Hk. destruct (run_safe _ _ Hs (reachable_safe _ Hr)) as [_ Hkept].
  by eapply lookup_weaken, (hk_events _ _ Hkept).
Qed.

Lemma first_event_later d d' id t e : reachable d -> rtc step d d' -> first_event d id t e -> first_event d' id t e.
Proof.
  intros Hr Hs (k & Hk & <- & <- & Ha)%first_event_lookup. eapply first_event_intro; [|by eapply event_later|done].
  apply db_events. by apply (reachable_safe d'), (reachable_steps _ _ Hr Hs).
Qed.

Lemma record_challenge_step w d r d' : record_challenge w d = Ok (r, d') -> rtc step d d'.
Proof. intros Ha. apply rtc_once, (step_commit (OpRecordChallenge w)). simpl. by rewrite (tbind_run _ _ _ _ _ Ha). Qed.
Lemma verify_incoming_step w d r d' : verify_incoming w d = Ok (r, d') -> rtc step d d'.
Proof. intros Ha. apply rtc_once, (step_commit (OpVerifyIncoming w)). simpl. by rewrite (tbind_run _ _ _ _ _ Ha). Qed.
Lemma commit_progress_step w d r d' : commit_progress w d = Ok (r, d') -> rtc step d d'.
Proof. intros Ha. apply rtc_once, (step_commit (OpCommitProgress w)). simpl. by rewrite (tbind_run _ _ _ _ _ Ha). Qed.
Lemma commit_settlement_step w d r d' : commit_settlement w d = Ok (r, d') -> rtc step d d'.
Proof. intros Ha. apply rtc_once, (step_commit (OpCommitSettlement w)). simpl. by rewrite (tbind_run _ _ _ _ _ Ha). Qed.
End Later.

(** ** Every call is a step of the vault *)

Ltac settlement_calls :=
  repeat first
    [ apply calls_in_bind; [|intros ?]
    | apply lift_steps | apply ret_steps | (apply read_steps; apply _) | apply scenario_authorize_steps
    | apply calls_in_await; intros ? ? ?;
      first [apply record_challenge_step | apply verify_incoming_step | apply commit_progress_step]
    | apply calls_in_attempt; intros ? ? ?; first [apply commit_progress_step | apply commit_settlement_step]
    | case_match ].

Section Steps.
Context `{SolanaPubkey, SolanaSignature, UrlParser, UuidNonce, Sha256, JsonText, JsonParse, MaterialProtector, X402Sdk}.
Variable svc : SettlementCoordinator.

Lemma load_challenge_queries i : queries (load_challenge i).
Proof. unfold load_challenge. solve_queries. Qed.
Lemma find_run_queries s r : queries (find_run s r).
Proof. unfold find_run. solve_queries. Qed.
Lemma prepare_inbound_challenge_queries a c now : queries (prepare_inbound_challenge svc a c now).
Proof. unfold prepare_inbound_challenge, policy_get, ensure_inbound_capacity. solve_queries. Qed.

Lemma load_challenge_steps i : calls_in (rtc step) (load_challenge i).
Proof. unfold load_challenge. settlement_calls. Qed.
Lemma load_submission_steps i : calls_in (rtc step) (load_submission i).
Proof. unfold load_submission. settlement_calls. Qed.
Lemma load_receipt_steps i : calls_in (rtc step) (load_receipt i).
Proof. unfold load_receipt. settlement_calls. Qed.
Lemma find_run_steps s r : calls_in (rtc step) (find_run s r).
Proof. unfold find_run. settlement_calls. Qed.
Lemma prepare_inbound_challenge_steps a c now : calls_in (rtc step) (prepare_inbound_challenge svc a c now).
Proof. unfold prepare_inbound_challenge, policy_get, ensure_inbound_capacity. settlement_calls. Qed.
Lemma reconciliation_observation_steps i now : calls_in (rtc step) (reconciliation_observation svc i now).
Proof.
  unfold reconciliation_observation, load_reconciliation_settlement, settlement_requested_event.
  settlement_calls; first [apply load_submission_steps | apply load_challenge_steps].
Qed.
Lemma record_settlement_requested_steps ids i now : calls_in (rtc step) (record_settlement_requested svc ids i now).
Proof. unfold record_settlement_requested, settlement_requested_event, replayed_request. settlement_calls. Qed.
Lemma load_settlement_material_steps i : calls_in (rtc step) (load_settlement_material i).
Proof. unfold load_settlement_material, latest_verification_ref, load_submission. settlement_calls. Qed.
End Steps.

(** Chains the steps between two databases. *)
Ltac steps :=
  first [ assumption | apply rtc_refl
        | match goal with Hs : rtc step ?a ?b |- rtc step ?a ?c =>
            apply (@transitivity _ _ _ a b c Hs); clear Hs; steps end ].

(** ** Access *)

Section Access.
Context `{SolanaPubkey, UrlParser}.

(** During the operation the scenario was enabled and belonged to a client
    that the principal authenticates (or the principal is unrestricted and the
    owning client was enabled). *)
Definition had_access (d d' : DB) (principal scenario_id : string) : Prop :=
  exists d1 d2 s c k, rtc step d d1 /\ rtc step d1 d' /\ rtc step d d2 /\ rtc step d2 d'
    /\ t_scenario d1 !! scenario_id = Some s /\ sc_enabled s = true
    /\ t_client d2 !! k = Some c /\ cl_enabled c = true
    /\ if principal == UNRESTRICTED_PRINCIPAL then k = sc_client_id s
       else authenticates c principal = true /\ sc_client_id s = cl_id c.

Lemma client_authenticate_ok principal d c d' :
  exec (rtc step) (client_authenticate principal) d (Ok c) d' ->
  rtc step d d' /\ (exists k, t_client d' !! k = Some c) /\ authenticates c principal = true.
Proof.
  unfold client_authenticate. intros Hx. prog_inv. split; [done|].
  match goal with Ho : match ?o with _ => _ end = Some c |- _ =>
    destruct o as [c'|] eqn:Hf; [|done]; destruct (authenticates c' principal) eqn:Ha; [|done]; simplify_eq end.
  apply fetch_optional_Some in Hf as [_ Hk]. done.
Qed.

Lemma scenario_authorize_ok principal id d a d' :
  exec (rtc step) (scenario_authorize principal id) d (Ok a) d' -> rtc step d d' /\ had_access d d' principal id.
Proof.
  unfold scenario_authorize, had_access. case_bool_decide as Hu; intros Hx; prog_inv.
  - repeat match goal with Ho : match ?o with _ => _ end = Some _ |- _ => destruct o eqn:?; [|done] end.
    repeat match goal with Ho : (if ?b then _ else _) = Some _ |- _ => destruct b eqn:?; [|done] end. simplify_eq.
    split; [by etrans|]. do 5 eexists. split_and!; [| | | |eassumption|eassumption|eassumption|eassumption|done];
      try eassumption; first [by etrans | done].
  - match goal with Hc : exec _ (client_authenticate _) _ _ _ |- _ =>
      apply client_authenticate_ok in Hc as (Hs & [k Hk] & Ha) end.
    repeat match goal with Ho : match ?o with _ => _ end = Some _ |- _ => destruct o eqn:?; [|done] end.
    repeat match goal with Ho : (if ?b then _ else _) = Some _ |- _ => destruct b eqn:?; [|done] end. simplify_eq.
    bool_inv. split; [by etrans|]. pose proof Ha as Ha'. unfold authenticates in Ha'. bool_inv.
    do 5 eexists. split_and!; [| | | |eassumption|eassumption|eassumption|eassumption| |];
      try eassumption; first [by etrans | done].
Qed.

Lemma had_access_later d d1 d' principal id : had_access d d1 principal id -> rtc step d1 d' -> had_access d d' principal id.
Proof.
  intros (da & db & s & c & k & H1 & H2 & H3 & H4 & Hrest) Hs. exists da, db, s, c, k.
  split; [done|]. split; [by etrans|]. split; [done|]. split; [by etrans|done].
Qed.
End Access.

(** ** Challenges *)

(** An inbound payment on record for a command, with the challenge it was
    opened with. *)
Definition inbound_for (c : IssuePaymentChallenge) (i : PaymentIntent) : Prop :=
  pi_scenario_id i = ic_scenario_id c /\ pi_run_id i = ic_run_id c /\ pi_price_id i = Some (ic_price_id c)
  /\ pi_resource i = ic_resource c /\ pi_protocol i = ic_protocol c /\ pi_request_hash i = ic_request_hash c
  /\ pi_direction i = Inbound.
Definition opened_with (d : DB) (i : PaymentIntent) (ch : PaymentChallenge) : Prop :=
  pi_challenge_hash i = Some (ch_challenge_hash ch)
  /\ exists e v, first_event d (pi_id i) EvChallengeCreated e /\ jget "challenge" (ev_payload e) = Some v
       /\ challenge_from_json v = Some ch.
Definition challenge_on_record (d : DB) (c : IssuePaymentChallenge) (ch : PaymentChallenge) : Prop :=
  exists k r, t_intent d !! k = Some r /\ inbound_for c (ir_intent r) /\ opened_with d (ir_intent r) ch.

Section Challenges.
Context `{SolanaPubkey, SolanaSignature, UrlParser, UuidNonce, Sha256, JsonText, JsonParse, MaterialProtector, X402Sdk}.

Lemma opened_with_functional d i c1 c2 : opened_with d i c1 -> opened_with d i c2 -> c1 = c2.
Proof.
  intros (_ & e & v & He & Hv & Hc) (_ & e' & v' & He' & Hv' & Hc').
  assert (e = e') as <- by by eapply first_event_functional. congruence.
Qed.

Lemma opened_with_later d d' k r r' ch :
  reachable d -> rtc step d d' -> t_intent d !! k = Some r -> t_intent d' !! k = Some r' ->
  opened_with d (ir_intent r) ch -> opened_with d' (ir_intent r') ch.
Proof.
  intros Hr Hs Hk Hk' (Hh & e & v & He & Hrest). destruct (intent_later _ _ _ _ Hr Hs Hk) as (r2 & Hk2 & E).
  rewrite Hk' in Hk2. injection Hk2 as <-. apply re_identity, same_immutable_identity_iff in E.
  destruct E as (Hid & _ & _ & _ & _ & _ & _ & _ & _ & _ & _ & _ & Hch & _). split; [congruence|].
  exists e, v. split; [|done]. rewrite <- Hid. by eapply first_event_later.
Qed.

Lemma inbound_for_later c r r' : row_evolves r r' -> inbound_for c (ir_intent r) -> inbound_for c (ir_intent r').
Proof.
  intros E. apply re_identity, same_immutable_identity_iff in E. unfold inbound_for. intuition congruence.
Qed.

Lemma challenge_on_record_later d d' c ch :
  reachable d -> rtc step d d' -> challenge_on_record d c ch -> challenge_on_record d' c ch.
Proof.
  intros Hr Hs (k & r & Hk & Hf & Ho). destruct (intent_later _ _ _ _ Hr Hs Hk) as (r' & Hk' & E).
  exists k, r'. split_and!; [done|by eapply inbound_for_later|by eapply opened_with_later].
Qed.

(** A run has one payment. *)
Lemma run_functional d k r k' r' :
  reachable d -> t_intent d !! k = Some r -> t_intent d !! k' = Some r' ->
  pi_scenario_id (ir_intent r) = pi_scenario_id (ir_intent r') -> pi_run_id (ir_intent r) = pi_run_id (ir_intent r') ->
  r = r'.
Proof.
  intros [Hdb _]%reachable_safe Hk Hk' Hs Hrun. destruct (decide (k = k')) as [->|Hne]; [congruence|exfalso].
  pose proof (intents_unique _ (db_intents _ Hdb) _ _ _ _ Hk Hk' Hne) as Hcol. apply not_true_iff_false in Hcol.
  apply Hcol. unfold intent_collision. rewrite !orb_true_iff, !andb_true_iff, !bool_decide_eq_true. by do 2 left.
Qed.

Lemma challenge_on_record_functional d c1 c2 ch1 ch2 :
  reachable d -> ic_scenario_id c1 = ic_scenario_id c2 -> ic_run_id c1 = ic_run_id c2 ->
  challenge_on_record d c1 ch1 -> challenge_on_record d c2 ch2 -> ch1 = ch2.
Proof.
  intros Hr Hs Hrun (k1 & r1 & Hk1 & (?&?&_) & Ho1) (k2 & r2 & Hk2 & (?&?&_) & Ho2).
  assert (r1 = r2) as <- by (eapply run_functional; try eassumption; congruence).
  by eapply opened_with_functional.
Qed.

Lemma load_challenge_ok i d ch d' :
  pi_direction i = Inbound -> exec (rtc step) (load_challenge i) d (Ok ch) d' ->
  rtc step d d' /\ opened_with d' i ch.
Proof.
  intros Hin Hx. unfold load_challenge in Hx. rewrite Hin in Hx. prog_inv.
  match goal with Hf : find_for_intent_type _ _ _ _ = Ok (?o, _) |- _ =>
    apply find_first_ok in Hf as [-> Hf]; destruct o as [e|]; [|by run_inv] end.
  unfold decode_member, keep_or in *. split; [done|].
  destruct (jget "challenge" (ev_payload e)) as [v|] eqn:Hv; run_inv; [|done].
  match goal with Hk : (if ?b then _ else _) = Some _ |- _ => destruct b eqn:Hb; [|done] end. simplify_eq. bool_inv.
  split; [done|]. exists e, v. done.
Qed.

Lemma ensure_replay_identity_ok i c u :
  ensure_replay_identity i c = Ok u -> pi_direction i = Inbound -> inbound_for c i.
Proof. unfold ensure_replay_identity, inbound_for. intros He Hd. run_inv. bool_inv. done. Qed.

Lemma load_intent_by_run_row s run d i d' :
  load_intent_by_run s run d = Ok (Some i, d') ->
  d' = d /\ exists k r, t_intent d !! k = Some r /\ ir_intent r = i /\ pi_scenario_id i = s /\ pi_run_id i = run.
Proof.
  unfold load_intent_by_run. intros [Hf ->]%treads_ok. split; [done|]. symmetry in Hf.
  apply fmap_Some in Hf as (r & Hf & ->). apply fetch_optional_Some in Hf as [Hp [k Hk]].
  unfold in_run in Hp. bool_inv. by exists k, r.
Qed.

Lemma priced_is_inbound d k r p :
  reachable d -> t_intent d !! k = Some r -> pi_price_id (ir_intent r) = Some p -> pi_direction (ir_intent r) = Inbound.
Proof.
  intros [Hdb _]%reachable_safe Hk Hp. pose proof (intents_checked _ (db_intents _ Hdb) _ _ Hk) as Hc.
  unfold intent_checks in Hc. bool_inv. rewrite Hp in *. by destruct (pi_direction (ir_intent r)).
Qed.

(** The challenge of a run that was on record. *)
Lemma recorded_challenge d0 d k r ch d' command u :
  reachable d0 -> rtc step d0 d -> t_intent d0 !! k = Some r ->
  ensure_replay_identity (ir_intent r) command = Ok u ->
  exec (rtc step) (load_challenge (ir_intent r)) d (Ok ch) d' ->
  rtc step d d' /\ challenge_on_record d' command ch /\ inbound_for command (ir_intent r).
Proof.
  intros Hr Hs0 Hk He Hx.
  assert (pi_direction (ir_intent r) = Inbound) as Hin.
  { unfold ensure_replay_identity in He. run_inv. bool_inv. by eapply priced_is_inbound. }
  pose proof (ensure_replay_identity_ok _ _ _ He Hin) as Hfor.
  destruct (load_challenge_ok _ _ _ _ Hin Hx) as [Hs Ho]. split_and!; [done| |done].
  destruct (intent_later d0 d' _ _ Hr ltac:(by etrans) Hk) as (r' & Hk' & E).
  exists k, r'. split; [done|]. split; [by eapply inbound_for_later|].
  pose proof E as Hid. apply re_identity, same_immutable_identity_iff in Hid.
  destruct Hid as (Hid & _ & _ & _ & _ & _ & _ & _ & _ & _ & _ & _ & Hch & _).
  destruct Ho as (Hh & e & v & Hrest). split; [congruence|]. exists e, v. by rewrite <- Hid.
Qed.

(** A transaction that issues a challenge. *)
Definition issued_now (d1 d' : DB) (command : IssuePaymentChallenge) (ch : PaymentChallenge) (now : Z) : Prop :=
  exists i, t_intent d1 !! pi_id i = None
    /\ t_intent d' = <[pi_id i := fresh_row i]> (t_intent d1) /\ t_ledger d' = t_ledger d1
    /\ inbound_for command i /\ pi_amount i = ch_amount ch /\ pi_asset i = ch_asset ch
    /\ pi_recipient i = ch_recipient ch /\ pi_expires_at i = Some (ch_expires_at ch) /\ (now < ch_expires_at ch)%Z
    /\ pi_reservation_status i = Reserved /\ pi_reserved_amount i = pi_amount i
    /\ within_limits d' i (utc_day_start now) now false /\ counted d1 d' i (utc_day_start now) now.

Lemma record_challenge_opens w d i d' :
  db_ok d -> record_challenge w d = Ok (Inserted i, d') -> opened_with d' i (cw_challenge w).
Proof.
  intros Hdb Hc. pose proof (fl_db _ _ (record_challenge_flow _ _ _ _ Hc) Hdb) as (Hdb' & _).
  unfold record_challenge in Hc. run_inv.
  match goal with Hl : load_intent_by_run _ _ _ = Ok (?o, _) |- _ =>
    pose proof (read_only _ _ _ Hl) as ->; destruct o; [case_bool_decide; run_inv; done|] end.
  run_inv. simplify_eq.
  match goal with Hv : validate_challenge_created_event _ _ _ = Ok _ |- _ =>
    unfold validate_challenge_created_event in Hv end.
  destruct (of_type EvChallengeCreated (cw_events w)) as [|e [|? ?]] eqn:Hev; try done.
  assert (e ∈ cw_events w /\ ev_event_type e = EvChallengeCreated) as [Hin Ht].
  { assert (In e (of_type EvChallengeCreated (cw_events w))) as Hi by (rewrite Hev; by left).
    unfold of_type in Hi. apply filter_In in Hi as [Hi Hb]. bool_inv. split; [by apply list_elem_of_In|done]. }
  unfold event_challenge in *. run_inv. bool_inv.
  match goal with Ha : append_side_effects _ _ ?s = Ok _, Hii : insert_intent _ _ ?s0 = Ok (_, ?s) |- _ =>
    pose proof (fl_db _ _ (insert_intent_flow _ _ _ _ _ Hii)) as Hf end.
  repeat match goal with Hg : _ = Ok (_, ?s) |- _ => is_var s; pose proof (read_only _ _ _ Hg) as ->; clear Hg end.
  match goal with Ha : append_side_effects _ _ _ = Ok _ |- _ =>
    pose proof (append_side_effects_stored _ _ _ _ _ (db_events _ (proj1 (Hf Hdb))) Ha _ Hin) as Hst end.
  match goal with Ho : opening_event _ _ = true |- _ => unfold opening_event in Ho; bool_inv end.
  match goal with Hm : challenge_matches_intent _ _ _ = true |- _ => unfold challenge_matches_intent in Hm; bool_inv end.
  split; [congruence|]. eexists e, _. split_and!; [|eassumption|congruence].
  rewrite <- Ht. replace (pi_id (cw_intent w)) with (ev_intent_id e) by done.
  eapply first_event_intro; [apply db_events; eassumption|eassumption|done].
Qed.

Lemma record_challenge_issues ids command p i now d d' u :
  reachable d -> pi_expires_at i = Some (ch_expires_at (pic_challenge p)) ->
  record_challenge (challenge_write ids command p i now) d = Ok (Inserted i, d') ->
  ensure_replay_identity i command = Ok u ->
  challenge_on_record d' command (pic_challenge p) /\ issued_now d d' command (pic_challenge p) now.
Proof.
  intros Hr Hexp Hc He. pose proof (proj1 (reachable_safe _ Hr)) as Hdb.
  pose proof (record_challenge_opens _ _ _ _ Hdb Hc) as Ho.
  destruct (record_challenge_within_budget _ _ _ _ Hdb Hc) as (Hin & Hlim & Hcnt).
  apply record_challenge_inserted in Hc as (_ & _ & [ug Hg] & _ & d1 & u1 & u2 & Hins & Happ). simpl in *.
  apply insert_intent_ok in Hins as (Hnone & _ & _ & _ & _ & ->). apply append_side_effects_appended in Happ.
  pose proof (ensure_replay_identity_ok _ _ _ He Hin) as Hfor.
  pose proof (ap_same_intent _ _ Happ) as Hi. pose proof (ap_same_ledger _ _ Happ) as Hl. simpl in Hi, Hl.
  unfold validate_challenge_guard in Hg. apply tbind_ok in Hg as (? & ? & Hg & _). run_inv. bool_inv. simpl in *.
  split.
  - exists (pi_id i), (fresh_row i). rewrite Hi. split; [apply lookup_insert_eq|done].
  - exists i. split_and!; try done; first [congruence|lia].
Qed.
Lemma issued_now_differs d1 d' command ch now : issued_now d1 d' command ch now -> d' <> d1.
Proof. intros (i & Hn & Hi & _) ->. rewrite Hi, lookup_insert_eq in Hn. done. Qed.

Lemma build_inbound_intent_expires ids c price w ch now i :
  build_inbound_intent ids c price w ch now = Ok i -> pi_expires_at i = Some (ch_expires_at ch).
Proof. unfold build_inbound_intent. intros Hb. by run_inv. Qed.

Lemma prepared_challenge svc access command now d p d' :
  exec (rtc step) (prepare_inbound_challenge svc access command now) d (Ok p) d' -> rtc step d d'.
Proof. apply exec_steps, prepare_inbound_challenge_steps. Qed.

Lemma find_run_ok s run d o d' :
  exec (rtc step) (find_run s run) d (Ok o) d' ->
  rtc step d d' /\ match o with
                   | Some record => exists d1 k r, rtc step d d1 /\ rtc step d1 d' /\ t_intent d1 !! k = Some r
                                      /\ ir_intent r = ar_intent record
                   | None => True
                   end.
Proof.
  intros Hx. split; [by eapply exec_steps, Hx; apply find_run_steps|]. unfold find_run in Hx. prog_inv.
  match goal with Hl : load_intent_by_run _ _ ?s = Ok (?f, _) |- _ => destruct f as [i|]; [|by prog_inv];
    apply load_intent_by_run_row in Hl as (-> & k & r & Hk & <- & _) end.
  prog_inv. eexists _, k, r. split_and!; try eassumption; done.
Qed.

Lemma record_challenge_replayed w d i d' :
  record_challenge w d = Ok (Replayed i, d') -> d' = d /\ exists k r, t_intent d !! k = Some r /\ ir_intent r = i.
Proof.
  unfold record_challenge. intros Hc. run_inv.
  match goal with Hl : load_intent_by_run _ _ _ = Ok (?o, _) |- _ => destruct o as [j|];
    [apply load_intent_by_run_row in Hl as (-> & k & r & Hk & Hi & _)|] end; [|by run_inv].
  case_bool_decide; [|done]. run_inv. simplify_eq. eauto.
Qed.

(** What an answered request wrote: nothing, or the one transaction that
    issues its challenge. *)
Definition issue_wrote (d d' : DB) (command : IssuePaymentChallenge) (ch : PaymentChallenge) (now : Z)
    (calls : list (DB * DB)) : Prop :=
  (wrote_nothing calls
   /\ exists d1 k r, rtc step d d1 /\ rtc step d1 d' /\ t_intent d1 !! k = Some r /\ inbound_for command (ir_intent r))
  \/ (exists d1, rtc step d d1 /\ wrote_only d1 d' calls /\ issued_now d1 d' command ch now).

Lemma issue_challenge_calls svc ids principal command now d calls ch d' :
  reachable d -> exec_calls (rtc step) (issue_challenge svc ids principal command now) d calls (Ok ch) d' ->
  rtc step d d' /\ had_access d d' principal (ic_scenario_id command) /\ challenge_on_record d' command ch
  /\ issue_wrote d d' command ch now calls.
Proof.
  intros Hr Hx. unfold issue_challenge in Hx. prog_inv.
  match goal with Ha : exec_calls _ (scenario_authorize _ _) _ _ _ _ |- _ =>
    pose proof (queries_wrote_nothing _ _ _ _ _ _ (scenario_authorize_queries _ _) Ha) as W1;
    apply exec_of_calls, scenario_authorize_ok in Ha as [Hs1 Hacc] end.
  match goal with Hf : exec_calls _ (find_run _ _) _ _ (Ok ?o) _ |- _ =>
    pose proof (queries_wrote_nothing _ _ _ _ _ _ (find_run_queries _ _) Hf) as W2;
    apply exec_of_calls, find_run_ok in Hf as [Hs2 Hrow]; destruct o as [record|] end; prog_inv.
  - destruct Hrow as (d1 & k & r & Hd1 & Hd1' & Hk & Hrec). rewrite <- Hrec in *.
    pose proof (queries_wrote_nothing _ _ _ _ _ _ (load_challenge_queries _) Hx) as W3. apply exec_of_calls in Hx.
    match goal with He : ensure_replay_identity _ _ = Ok _ |- _ =>
      destruct (recorded_challenge _ _ _ _ _ _ _ _ (reachable_steps _ _ Hr (transitivity Hs1 Hd1)) Hd1' Hk He Hx)
        as (Hs3 & Hon & Hfor) end.
    split_and!; [steps|eapply had_access_later; [exact Hacc|steps]|done|].
    left. split; [solve_wrote|]. exists d1, k, r. split_and!; try done; steps.
  - match goal with Hp : exec_calls _ (prepare_inbound_challenge _ _ _ _) _ _ _ _ |- _ =>
      pose proof (queries_wrote_nothing _ _ _ _ _ _ (prepare_inbound_challenge_queries _ _ _ _) Hp) as W3;
      apply exec_of_calls, prepared_challenge in Hp as Hs3; clear Hp end.
    match goal with Hc : record_challenge _ ?s = Ok (?o, ?s'), He : rtc step _ ?s, Hb : build_inbound_intent _ _ _ _ _ _ = Ok ?i |- _ =>
      pose proof (record_challenge_step _ _ _ _ Hc) as Hs5; rename He into Hs4, s into dc, Hc into Hcom, Hb into Hbuild;
      destruct o as [stored|stored] end.
    + pose proof (proj1 (record_challenge_inserted _ _ _ _ Hcom)) as Hst. simpl in Hst. subst stored. prog_inv.
      match goal with He : ensure_replay_identity _ _ = Ok _ |- _ =>
        destruct (record_challenge_issues _ _ _ _ _ _ _ _
          (reachable_steps _ _ Hr (transitivity Hs1 (transitivity Hs2 (transitivity Hs3 Hs4))))
          (build_inbound_intent_expires _ _ _ _ _ _ _ Hbuild) Hcom He) as [Hon Hnow] end.
      pose proof (issued_now_differs _ _ _ _ _ Hnow) as Hne.
      split_and!; [steps|eapply had_access_later; [exact Hacc|steps]|done|right].
      exists dc. split_and!; [steps|solve_wrote|done].
    + apply record_challenge_replayed in Hcom as (-> & k & r & Hk & <-). prog_inv.
      pose proof (queries_wrote_nothing _ _ _ _ _ _ (load_challenge_queries _) Hx) as W5. apply exec_of_calls in Hx.
      match goal with He : ensure_replay_identity _ _ = Ok _ |- _ =>
        destruct (recorded_challenge _ _ _ _ _ _ _ _
          (reachable_steps _ _ Hr (transitivity Hs1 (transitivity Hs2 (transitivity Hs3 Hs4)))) (rtc_refl _ _) Hk He Hx)
          as (Hs6 & Hon & Hfor) end.
      split_and!; [steps|eapply had_access_later; [exact Hacc|steps]|done|left].
      split; [solve_wrote|]. exists dc, k, r. split_and!; try done; steps.
Qed.

Lemma issue_challenge_cases svc ids principal command now d ch d' :
  reachable d -> exec (rtc step) (issue_challenge svc ids principal command now) d (Ok ch) d' ->
  rtc step d d' /\ had_access d d' principal (ic_scenario_id command) /\ challenge_on_record d' command ch.
Proof. intros Hr (calls & Hx)%exec_calls_iff. by apply issue_challenge_calls in Hx as (? & ? & ? & _). Qed.


(** A run has one challenge: two answered requests for the same scenario
    and run, by whatever services, principals, times and interleavings, seen
    from a common later database, got the same challenge. *)
Lemma issue_challenge_once svc1 ids1 p1 c1 now1 d1 ch1 d1' svc2 ids2 p2 c2 now2 d2 ch2 d2' d :
  reachable d1 -> reachable d2 ->
  exec (rtc step) (issue_challenge svc1 ids1 p1 c1 now1) d1 (Ok ch1) d1' ->
  exec (rtc step) (issue_challenge svc2 ids2 p2 c2 now2) d2 (Ok ch2) d2' ->
  rtc step d1' d -> rtc step d2' d ->
  ic_scenario_id c1 = ic_scenario_id c2 -> ic_run_id c1 = ic_run_id c2 -> ch1 = ch2.
Proof.
  intros Hr1 Hr2 Hx1 Hx2 Hs1 Hs2 Hsc Hrun.
  apply issue_challenge_cases in Hx1 as (Hd1 & _ & Hon1); [|done].
  apply issue_challenge_cases in Hx2 as (Hd2 & _ & Hon2); [|done].
  apply (challenge_on_record_later _ _ _ _ (reachable_steps _ _ Hr1 Hd1) Hs1) in Hon1.
  apply (challenge_on_record_later _ _ _ _ (reachable_steps _ _ Hr2 Hd2) Hs2) in Hon2.
  eapply challenge_on_record_functional; [|exact Hsc|exact Hrun|exact Hon1|exact Hon2].
  exact (reachable_steps _ _ (reachable_steps _ _ Hr1 Hd1) Hs1).
Qed.

Lemma load_challenge_alone d i ch :
  pi_direction i = Inbound -> opened_with d i ch -> run_alone (load_challenge i) d = (Ok ch, d).
Proof.
  intros Hin (Hh & e & v & He & Hv & Hc). unfold load_challenge. rewrite Hin.
  apply run_alone_bind_ok. exists (Some e), d. split; [by apply run_alone_await_ok|].
  unfold decode_member. rewrite Hv, Hc. simpl. unfold keep_or. rewrite Hh. by rewrite bool_decide_true.
Qed.

(** A retry of a challenge request is answered: once a request was
    answered, the same command in any later database, by a principal with
    access there, returns the same challenge and changes nothing, whatever the
    price, the policy, the wallet, the adapters and the clock have become. *)
Lemma issue_challenge_retry_answered svc ids p command now d ch d' d2 svc' ids' p' now' access :
  reachable d -> exec (rtc step) (issue_challenge svc ids p command now) d (Ok ch) d' -> rtc step d' d2 ->
  run_alone (scenario_authorize p' (ic_scenario_id command)) d2 = (Ok access, d2) ->
  run_alone (issue_challenge svc' ids' p' command now') d2 = (Ok ch, d2).
Proof.
  intros Hr Hx Hs Ha. assert (validate_issue_command command = Ok tt) as Hv.
  { unfold issue_challenge in Hx. prog_inv. match goal with Hv : validate_issue_command _ = Ok ?u |- _ => by destruct u end. }
  apply issue_challenge_cases in Hx as (Hd & _ & Hon); [|done].
  apply (challenge_on_record_later _ _ _ _ (reachable_steps _ _ Hr Hd) Hs) in Hon as (k & r & Hk & Hfor & Ho).
  pose proof (proj1 (reachable_safe d2 (reachable_steps _ _ (reachable_steps _ _ Hr Hd) Hs))) as Hdb.
  destruct Hfor as (Hsc & Hrun & Hpr & Hres & Hpro & Hrh & Hin).
  unfold issue_challenge. rewrite Hv. apply run_alone_bind_ok. exists tt, d2. split; [done|].
  apply run_alone_bind_ok. exists access, d2. split; [exact Ha|].
  apply run_alone_bind_ok. exists (Some {| ar_intent := ir_intent r; ar_approval := latest_approval d2 (pi_id (ir_intent r)) |}), d2.
  split.
  { unfold find_run. apply run_alone_bind_ok. exists (Some (ir_intent r)), d2. split; [|done].
    apply run_alone_await_ok. rewrite <- Hsc, <- Hrun. by eapply load_intent_by_run_find; [apply Hdb|..]. }
  simpl. unfold ensure_replay_identity. rewrite !bool_decide_true by done. simpl.
  by apply load_challenge_alone.
Qed.
End Challenges.

(** ** The sample payee *)

#[local] Existing Instance Sample.codec.
#[local] Existing Instance Sample.parser.
#[local] Existing Instance sample_signature.
#[local] Existing Instance SamplePayee.digest.
#[local] Existing Instance SampleRing.uuids.
#[local] Existing Instance SamplePayee.text.
#[local] Existing Instance SamplePayee.parse.
#[local] Existing Instance SamplePayee.sdk.
#[local] Existing Instance sample_protector.

Lemma sample_issue_exec : exec (rtc step) (sample_issue "p" 1700000000) Sample.db (Ok sample_issued_challenge) sample_issue_db.
Proof. exact (run_alone_exec_eq (rtc step) _ _ _ _ sample_issue_alone). Qed.
Lemma sample_issue_reachable : reachable sample_issue_db.
Proof.
  exact (reachable_steps _ _ sample_db_reachable (proj1 (issue_challenge_cases _ _ _ _ _ _ _ _ sample_db_reachable sample_issue_exec))).
Qed.

Lemma sample_issue_creates :
  existsb (creates "intent-p") (alone_calls (sample_issue "p" 1700000000) Sample.db) = true.
Proof. vm_compute. reflexivity. Qed.

