(* ===== verification/VerificationSafety.v ===== *)
(** * What verification of a credential guarantees

    [verify_payment] of [SettlementService] while every other transaction of
    the vault runs between its calls: a valid answer names the verification on
    record and the credential is the one bound to the challenge, no challenge
    accepts two credentials, and verification moves no money. *)

From S2P Require Import Prelude Text Money Json Wallet Intent Policy Ledger Records Store LedgerStore PaymentRules Budget PaymentStore Program Authorizer Samples IntentFlow BudgetSafety Lifecycle System AuthorizerSafety Sealing ApprovalServiceSafety SigningService X402Sdk X402Evm SettlementFacts SettlementService SigningServiceSafety SettlementSamples ChallengeSafety.
From stdpp Require Import relations.

#[local] Open Scope string_scope.
#[local] Open Scope vault_scope.

(** ** No money moves *)

(** Nothing is posted and the usage of no scenario and no wallet grows. *)
Definition no_money (d d' : DB) : Prop :=
  t_ledger d' = t_ledger d
  /\ forall scope dir u day now,
       (scenario_usage d' scope dir u day now <= scenario_usage d scope dir u day now)%N
       /\ (wallet_usage d' scope dir u day now <= wallet_usage d scope dir u day now)%N.
#[export] Instance no_money_refl : Reflexive no_money.
Proof. intros d. split; [done|]. intros. lia. Qed.
#[export] Instance no_money_trans : Transitive no_money.
Proof.
  intros a b c [Hl1 Hu1] [Hl2 Hu2]. split; [congruence|]. intros scope dir u day now.
  specialize (Hu1 scope dir u day now). specialize (Hu2 scope dir u day now). lia.
Qed.

Lemma commit_progress_no_money w d i d' : commit_progress w d = Ok (i, d') -> no_money d d'.
Proof. intros (Hl & _ & _ & Hu & _)%commit_progress_moves_no_money. by split. Qed.

Lemma verify_incoming_no_money w d i d' : verify_incoming w d = Ok (i, d') -> no_money d d'.
Proof.
  intros (-> & _ & _ & r & d1 & dm & u1 & u2 & Hr & _ & Hu & -> & _ & Ha)%verify_incoming_shape.
  apply update_intent_row in Hu as (r1 & Hr1 & Hi1 & Heq & Hl1 & _ & Hid & _ & _ & Hc). rewrite Hr in Hr1. injection Hr1 as <-.
  apply append_side_effects_appended in Ha. pose proof (ap_same_ledger _ _ Ha) as Hl. pose proof (ap_same_intent _ _ Ha) as Hi.
  simpl in Hl, Hi. rewrite Hi1, insert_insert_eq in Hi. split; [congruence|]. intros scope dir u day now.
  destruct (usage_replace d d' _ r _ scope dir u day now Hr Hi ltac:(congruence)).
  unfold check_reservation in Hc. run_inv. bool_inv.
  destruct (contribution_shrinks r (set_credential (cr_credential_hash (vw_credential w)) (update_columns (vw_intent w) r)) scope dir u)
    as [? ?]; simpl; try congruence; [|lia].
  by rewrite <- Heq in Hid.
Qed.

Lemma read_no_money {A} (m : Tx DB A) `{!ReadOnly m} : calls_in no_money (await m).
Proof. apply calls_in_await. intros s a s' Hm. by apply read_only in Hm as ->. Qed.

Ltac money_calls :=
  repeat first
    [ apply calls_in_bind; [|intros ?]
    | done | (apply read_no_money; apply _)
    | apply calls_in_await; intros ? ? ?; first [apply verify_incoming_no_money | apply commit_progress_no_money]
    | apply calls_in_attempt; intros ? ? ?; apply commit_progress_no_money
    | case_match ].

(** An operation that fails stays within a relation if its calls do. *)
Lemma exec_error_bind {A B} (R : DB -> DB -> Prop) `{!Reflexive R, !Transitive R} (p : Prog DB A) (k : A -> Prog DB B) d e d' :
  calls_in R p -> (forall a d1, exec R (k a) d1 (Err e) d' -> R d1 d') -> exec R (gbind p k) d (Err e) d' -> R d d'.
Proof.
  intros Hp Hk [(a & d1 & Hx & Hy)|(e' & _ & Hx)]%exec_bind.
  - etrans; [|by eapply Hk]. by eapply (exec_rel R R).
  - by eapply (exec_rel R R).
Qed.

Lemma calls_in_error {A} (R : DB -> DB -> Prop) `{!Reflexive R, !Transitive R} (p : Prog DB A) d e d' :
  calls_in R p -> exec R p d (Err e) d' -> R d d'.
Proof. intros Hp. by apply (exec_rel R R). Qed.

Ltac error_step := apply (exec_error_bind no_money); [money_calls|intros ? ?].
Ltac error_end := apply (calls_in_error no_money); money_calls.

(** ** Submissions on record *)

(** The credential a payment was submitted with, by its fingerprint. *)
Definition submitted_with (d : DB) (id fingerprint : string) : Prop :=
  exists e, first_event d id EvSubmitted e /\ jget_str "credential_fingerprint" (ev_payload e) = Some fingerprint.
(** A verification reference the payment was given. *)
Definition verified_with (d : DB) (id verification_ref : string) : Prop :=
  exists k e, t_event d !! k = Some e /\ ev_intent_id e = id /\ ev_event_type e = EvCredentialVerified
    /\ jget_str "verification_ref" (ev_payload e) = Some verification_ref.

Lemma submitted_with_functional d id f1 f2 : submitted_with d id f1 -> submitted_with d id f2 -> f1 = f2.
Proof.
  intros (e & He & Hf) (e' & He' & Hf'). assert (e = e') as <- by by eapply first_event_functional. congruence.
Qed.

Section Verification.
Context `{SolanaPubkey, SolanaSignature, UrlParser, UuidNonce, Sha256, JsonText, JsonParse, MaterialProtector, X402Sdk}.

Lemma submitted_with_later d d' id f : reachable d -> rtc step d d' -> submitted_with d id f -> submitted_with d' id f.
Proof. intros Hr Hs (e & He & Hf). exists e. split; [by eapply first_event_later|done]. Qed.
Lemma verified_with_later d d' id f : reachable d -> rtc step d d' -> verified_with d id f -> verified_with d' id f.
Proof. intros Hr Hs (k & e & He & Hrest). exists k, e. split; [by eapply event_later|done]. Qed.

Lemma load_submission_ok i d x d' :
  exec (rtc step) (load_submission i) d (Ok x) d' -> rtc step d d' /\ submitted_with d' (pi_id i) (fst x).
Proof.
  intros Hx. unfold load_submission in Hx. prog_inv.
  match goal with Hf : find_for_intent_type _ _ _ _ = Ok (_, _) |- _ => apply find_first_ok in Hf as [-> Hf] end.
  split; [done|]. simpl. by eexists.
Qed.

Lemma latest_verification_ref_ok i d x d' :
  exec (rtc step) (latest_verification_ref i) d (Ok x) d' -> rtc step d d' /\ verified_with d' (pi_id i) x.
Proof.
  intros Hx. unfold latest_verification_ref in Hx. prog_inv.
  match goal with Hf : find_latest_for_intent_type _ _ _ = Ok (_, _) |- _ => apply find_latest_ok in Hf as [-> (k & Hk & ? & ?)] end.
  split; [done|]. by exists k; eexists.
Qed.

(** The presented credential has the fingerprint on record, under the
    challenge the payment was opened with. *)
Definition proof_on_record (svc : SettlementCoordinator) (d : DB) (i : PaymentIntent) (c : PaymentCredential) : Prop :=
  exists ch adapter fp, opened_with d i ch /\ registry_get (co_protocols svc) (pi_protocol i) = Ok adapter
    /\ credential_fingerprint adapter ch c = Ok fp /\ submitted_with d (pi_id i) fp.

Lemma proof_on_record_later svc d d' i c :
  reachable d -> rtc step d d' -> proof_on_record svc d i c -> proof_on_record svc d' i c.
Proof.
  intros Hr Hs (ch & a & fp & (Hh & e & v & He & Hv) & Ha & Hf & Hsub). exists ch, a, fp. split_and!; try done.
  - split; [done|]. exists e, v. split; [by eapply first_event_later|done].
  - by eapply submitted_with_later.
Qed.

Lemma opened_with_steps d d' i ch : reachable d -> rtc step d d' -> opened_with d i ch -> opened_with d' i ch.
Proof.
  intros Hr Hs (Hh & e & v & He & Hv). split; [done|]. exists e, v. split; [by eapply first_event_later|done].
Qed.

Lemma ensure_credential_replay_ok svc i c d u d' :
  reachable d -> pi_direction i = Inbound -> exec (rtc step) (ensure_credential_replay svc i c) d (Ok u) d' ->
  rtc step d d' /\ proof_on_record svc d' i c.
Proof.
  intros Hr Hin Hx. unfold ensure_credential_replay in Hx. prog_inv.
  match goal with Hl : exec _ (load_challenge _) _ _ _ |- _ => apply load_challenge_ok in Hl as [Hs1 Ho]; [|done] end.
  match goal with Hl : exec _ (load_submission _) _ _ _ |- _ => apply load_submission_ok in Hl as [Hs2 Hsub] end.
  bool_inv. split; [steps|]. do 3 eexists. split_and!; try eassumption; [|congruence].
  eapply opened_with_steps; [exact (reachable_steps _ _ Hr Hs1)|exact Hs2|exact Ho].
Qed.

Lemma resume_submitted_ok svc i c now d x d' :
  reachable d -> pi_direction i = Inbound -> exec (rtc step) (resume_submitted svc i c now) d (Ok x) d' ->
  rtc step d d' /\ fst x = i /\ proof_on_record svc d' i c.
Proof.
  intros Hr Hin Hx. unfold resume_submitted in Hx. prog_inv.
  match goal with Hl : exec _ (load_challenge _) _ _ _ |- _ => apply load_challenge_ok in Hl as [Hs1 Ho]; [|done] end.
  match goal with Hl : exec _ (load_submission _) _ _ _ |- _ => apply load_submission_ok in Hl as [Hs2 Hsub] end.
  bool_inv. split; [steps|]. split; [done|]. do 3 eexists. split_and!; try eassumption; [|congruence].
  eapply opened_with_steps; [exact (reachable_steps _ _ Hr Hs1)|exact Hs2|exact Ho].
Qed.

Lemma verify_incoming_stored w d i d' e :
  db_ok d -> verify_incoming w d = Ok (i, d') -> e ∈ vw_events w -> t_event d' !! ev_id e = Some e.
Proof.
  intros Hdb (-> & _ & _ & r & d1 & dm & u1 & u2 & Hr & _ & Hu & -> & _ & Ha)%verify_incoming_shape He.
  apply update_intent_row in Hu as (_ & _ & _ & _ & _ & Hev & _).
  eapply append_side_effects_stored; [|exact Ha|exact He]. simpl. rewrite Hev. apply Hdb.
Qed.

Lemma commit_progress_stored w d i d' e :
  db_ok d -> commit_progress w d = Ok (i, d') -> e ∈ pgw_events w -> t_event d' !! ev_id e = Some e.
Proof.
  intros Hdb (-> & r & m & d1 & u1 & u2 & Hr & Hv & Hu & Ha)%commit_progress_shape He.
  apply update_intent_row in Hu as (_ & _ & _ & _ & _ & Hev & _).
  eapply append_side_effects_stored; [|exact Ha|exact He]. rewrite Hev. apply Hdb.
Qed.

Lemma stored_first d k e id t :
  reachable d -> t_event d !! k = Some e -> ev_attempt_no e = 0%N -> ev_intent_id e = id -> ev_event_type e = t ->
  first_event d id t e.
Proof. intros Hr Hk Ha <- <-. eapply first_event_intro; [apply db_events, (reachable_safe d Hr)|done..]. Qed.

Lemma submit_credential_ok svc ids i c now d x d' :
  reachable d -> pi_direction i = Inbound -> exec (rtc step) (submit_credential svc ids i c now) d (Ok x) d' ->
  rtc step d d' /\ fst x = submitted_intent svc i now /\ proof_on_record svc d' i c.
Proof.
  intros Hr Hin Hx. unfold submit_credential in Hx. prog_inv.
  match goal with Hl : exec _ (load_challenge _) _ _ ?s |- _ => apply load_challenge_ok in Hl as [Hs1 Ho]; [|done] end.
  match goal with Hv : verify_incoming _ ?s = Ok (_, _), He : rtc step _ ?s |- _ =>
    pose proof (verify_incoming_step _ _ _ _ Hv) as Hs3; rename Hv into Hver, He into Hs2, s into dm end.
  pose proof (reachable_steps _ _ Hr (transitivity Hs1 Hs2)) as Hrm.
  pose proof (reachable_steps _ _ Hrm Hs3) as Hr'.
  pose proof (verify_incoming_stored _ _ _ _ _ (proj1 (reachable_safe _ Hrm)) Hver
                (proj2 (list_elem_of_singleton _ _) eq_refl)) as Hev.
  apply verify_incoming_shape in Hver as (-> & _). split; [steps|]. split; [done|].
  do 3 eexists. split_and!; [|eassumption|eassumption|].
  - eapply opened_with_steps; [exact (reachable_steps _ _ Hr Hs1)|exact (transitivity Hs2 Hs3)|exact Ho].
  - eexists. split; [by eapply stored_first; [exact Hr'|exact Hev|..]|].
    unfold jget_str. simpl ev_payload. rewrite jget_jobject. reflexivity.
Qed.

Lemma provider_verdict_ok svc ids i q now d res d' :
  reachable d -> exec (rtc step) (provider_verdict svc ids i q now) d (Ok res) d' ->
  rtc step d d' /\ (iv_valid res = true ->
    exists status, iv_intent res = non_settled_intent svc i status now
      /\ exists r, iv_verification_ref res = Some r /\ verified_with d' (pi_id i) r).
Proof.
  intros Hr Hx. unfold provider_verdict, record_non_settlement in Hx. prog_inv.
  match goal with Hx : exec _ (if negb ?b then _ else _) _ _ _ |- _ => destruct b; cbn [negb] in Hx end; cbv iota in Hx; prog_inv.
  all: match goal with Hv : commit_progress _ ?s = Ok (_, _), He : rtc step _ ?s |- _ =>
    pose proof (commit_progress_step _ _ _ _ Hv) as Hs3; rename Hv into Hver, He into Hs2, s into dm end.
  all: (split; [steps|intros Hval]). 2: done.
  pose proof (reachable_steps _ _ Hr Hs2) as Hrm.
  pose proof (commit_progress_stored _ _ _ _ _ (proj1 (reachable_safe _ Hrm)) Hver
                (proj2 (list_elem_of_singleton _ _) eq_refl)) as Hev.
  apply commit_progress_shape in Hver as (-> & _). exists PendingSettlement. split; [done|]. eexists. split; [done|].
  do 2 eexists. split; [exact Hev|]. split_and!; [done..|].
  unfold jget_str. simpl ev_payload. rewrite jget_jobject. reflexivity.
Qed.

(** The inbound payment a verification command is about. *)
Definition presented_to (c : VerifyIncomingPayment) (i : PaymentIntent) : Prop :=
  pi_direction i = Inbound /\ pi_scenario_id i = vc_scenario_id c /\ pi_run_id i = vc_run_id c
  /\ pi_request_hash i = vc_request_hash c /\ pi_challenge_hash i = Some (vc_challenge_hash c).

Lemma get_for_challenge_row s h d i d' :
  get_for_challenge s h d = Ok (Some i, d') ->
  d' = d /\ exists k r, t_intent d !! k = Some r /\ ir_intent r = i /\ pi_direction i = Inbound
    /\ pi_scenario_id i = s /\ pi_challenge_hash i = Some h.
Proof.
  unfold get_for_challenge. intros [Hf ->]%treads_ok. split; [done|]. symmetry in Hf.
  apply fmap_Some in Hf as (r & Hf & ->). apply fetch_optional_Some in Hf as [Hp [k Hk]]. bool_inv. by exists k, r.
Qed.
#[export] Instance get_for_challenge_read_only s h : ReadOnly (get_for_challenge s h).
Proof. unfold get_for_challenge. solve_read_only. Qed.

(** What a valid answer rests on. *)
Definition verified (svc : SettlementCoordinator) (d : DB) (c : VerifyIncomingPayment) (res : IncomingVerification)
  : Prop :=
  exists k r vref, t_intent d !! k = Some r /\ presented_to c (ir_intent r) /\ pi_id (iv_intent res) = k
    /\ proof_on_record svc d (ir_intent r) (vc_credential c)
    /\ iv_verification_ref res = Some vref /\ verified_with d k vref.

Lemma proof_on_record_same svc d i j c :
  same_immutable_identity_as i j = true -> proof_on_record svc d i c -> proof_on_record svc d j c.
Proof.
  rewrite same_immutable_identity_iff. intros Hid (ch & a & fp & (Hh & e & v & He & Hv) & Ha & Hf & Hsub).
  destruct Hid as (Hid & _ & _ & _ & _ & _ & _ & Hp & _ & _ & _ & _ & Hc & _).
  exists ch, a, fp. rewrite <- Hp, <- Hid. split_and!; try done. split; [congruence|]. exists e, v. by rewrite <- Hid.
Qed.

Lemma verified_intro svc d k r d' c i res vref :
  reachable d -> rtc step d d' -> t_intent d !! k = Some r -> presented_to c (ir_intent r) -> pi_id i = k ->
  iv_intent res = i -> proof_on_record svc d' (ir_intent r) (vc_credential c) ->
  iv_verification_ref res = Some vref -> verified_with d' k vref -> verified svc d' c res.
Proof.
  intros Hr Hs Hk Hc Hid Hi Hp Hv Hw. destruct (intent_later _ _ _ _ Hr Hs Hk) as (r' & Hk' & E).
  exists k, r', vref. pose proof (re_identity _ _ E) as Hsame. split_and!; try done; [|by rewrite Hi|by eapply proof_on_record_same].
  apply same_immutable_identity_iff in Hsame. unfold presented_to in *. intuition congruence.
Qed.

Lemma verify_payment_cases svc ids principal command now d res d' :
  reachable d -> exec (rtc step) (verify_payment svc ids principal command now) d (Ok res) d' ->
  rtc step d d' /\ had_access d d' principal (vc_scenario_id command)
  /\ (iv_valid res = true -> verified svc d' command res).
Proof.
  intros Hr Hx. unfold verify_payment in Hx. prog_inv.
  match goal with Ha : exec _ (scenario_authorize _ _) _ _ _ |- _ => apply scenario_authorize_ok in Ha as [Hs1 Hacc] end.
  match goal with Hg : get_for_challenge _ _ ?s = Ok (Some ?i, _), He : rtc step _ ?s |- _ =>
    apply get_for_challenge_row in Hg as (-> & k & r & Hk & <- & Hin & Hsc & Hch); rename s into d1, He into Hs2 end.
  pose proof (reachable_steps _ _ Hr (transitivity Hs1 Hs2)) as Hr1.
  pose proof (intent_key _ _ _ Hr1 Hk) as Hid.
  assert (presented_to command (ir_intent r)) as Hto.
  { match goal with He : ensure_incoming_identity _ _ _ = Ok _ |- _ => unfold ensure_incoming_identity, check_replay in He end.
    run_inv. bool_inv. case_bool_decide; [|done]. done. }
  assert (forall s, rtc step d1 s -> rtc step d s /\ had_access d s principal (vc_scenario_id command)) as Hlift.
  { intros s Hs. split; [steps|]. eapply had_access_later; [exact Hacc|steps]. }
  destruct (pi_status (ir_intent r)) eqn:Hst; prog_inv; try done.
  { (* Created *)
    match goal with Hs : exec _ (submit_credential _ _ _ _ _) _ _ _ |- _ =>
      apply submit_credential_ok in Hs as (Hs3 & Hi & Hp); [|done..] end.
    rewrite Hi in Hx. apply provider_verdict_ok in Hx as (Hs4 & Hv); [|by eapply reachable_steps].
    destruct (Hlift d' ltac:(steps)) as [Hd Ha]. split_and!; try done. intros Hval.
    destruct (Hv Hval) as (st & Hint & vref & Href & Hw).
    eapply (verified_intro _ d1); [done|steps|exact Hk|done| |exact Hint| |exact Href|]; [done| |exact Hw].
    eapply proof_on_record_later; [|exact Hs4|exact Hp]. by eapply reachable_steps. }
  { (* Submitted *)
    match goal with Hs : exec _ (resume_submitted _ _ _ _) _ _ _ |- _ =>
      apply resume_submitted_ok in Hs as (Hs3 & Hi & Hp); [|done..] end.
    rewrite Hi in Hx. apply provider_verdict_ok in Hx as (Hs4 & Hv); [|by eapply reachable_steps].
    destruct (Hlift d' ltac:(steps)) as [Hd Ha]. split_and!; try done. intros Hval.
    destruct (Hv Hval) as (st & Hint & vref & Href & Hw).
    eapply (verified_intro _ d1); [done|steps|exact Hk|done| |exact Hint| |exact Href|]; [done| |exact Hw].
    eapply proof_on_record_later; [|exact Hs4|exact Hp]. by eapply reachable_steps. }
  1,2: match goal with He : exec _ (ensure_credential_replay _ _ _) _ _ _ |- _ =>
         apply ensure_credential_replay_ok in He as (Hs3 & Hp); [|done..] end;
       unfold load_verification in Hx; prog_inv;
       match goal with Hl : exec _ (latest_verification_ref _) _ _ _ |- _ =>
         apply latest_verification_ref_ok in Hl as (Hs4 & Hw) end;
       match goal with |- rtc step _ ?s /\ _ => destruct (Hlift s ltac:(steps)) as [Hd Ha] end;
       split_and!; try done; intros _;
       eapply (verified_intro _ d1); [done|steps|exact Hk|done| |reflexivity| |reflexivity|]; [done| |exact Hw];
       eapply proof_on_record_later; [|exact Hs4|exact Hp]; by eapply reachable_steps.
  all: destruct (Hlift d1 (rtc_refl _ _)) as [Hd Ha]; by split_and!.
Qed.

Lemma verified_later svc d d' c res : reachable d -> rtc step d d' -> verified svc d c res -> verified svc d' c res.
Proof.
  intros Hr Hs (k & r & vref & Hk & Hc & Hid & Hp & Hv & Hw).
  eapply (verified_intro _ d); [done|done|exact Hk|done| |reflexivity| |exact Hv|]; [done| |].
  - by eapply proof_on_record_later.
  - by eapply verified_with_later.
Qed.

(** A challenge belongs to one payment. *)
Lemma challenge_functional d k1 r1 k2 r2 s h :
  reachable d -> t_intent d !! k1 = Some r1 -> t_intent d !! k2 = Some r2 ->
  pi_direction (ir_intent r1) = Inbound -> pi_direction (ir_intent r2) = Inbound ->
  pi_scenario_id (ir_intent r1) = s -> pi_scenario_id (ir_intent r2) = s ->
  pi_challenge_hash (ir_intent r1) = Some h -> pi_challenge_hash (ir_intent r2) = Some h -> k1 = k2 /\ r1 = r2.
Proof.
  intros [Hdb _]%reachable_safe Hk1 Hk2 Hd1 Hd2 Hs1 Hs2 Hh1 Hh2. destruct (decide (k1 = k2)) as [->|Hne]; [naive_solver|exfalso].
  pose proof (intents_unique _ (db_intents _ Hdb) _ _ _ _ Hk1 Hk2 Hne) as Hcol. apply not_true_iff_false in Hcol.
  apply Hcol. unfold intent_collision. rewrite Hd1, Hd2, Hs1, Hs2, Hh1, Hh2.
  rewrite !orb_true_iff, !andb_true_iff, !bool_decide_eq_true. by right.
Qed.

(** A valid verification is on record: when verification answers valid,
    however other transactions interleave, the principal had access to the
    enabled scenario, the challenge's inbound payment has the command's run and
    request hash, the credential presented has the fingerprint the payment was
    first submitted with under the challenge it was opened with, and the
    returned reference is one the payment's history holds. *)
Lemma verify_answer_recorded svc ids principal command now d res d' :
  reachable d -> exec (rtc step) (verify_payment svc ids principal command now) d (Ok res) d' -> iv_valid res = true ->
  had_access d d' principal (vc_scenario_id command) /\ verified svc d' command res.
Proof. intros Hr Hx Hv. destruct (verify_payment_cases _ _ _ _ _ _ _ _ Hr Hx) as (_ & ? & Hver). eauto. Qed.

(** C11: a challenge accepts one credential: two verifications of the same
    challenge that were both answered valid, by services with the same protocol
    adapters, seen from a common later database, presented credentials of the same fingerprint, for the same payment; so a
    second proof cannot be passed off for a challenge that has one. *)
Theorem verify_one_credential svc1 ids1 p1 c1 now1 d1 res1 d1' svc2 ids2 p2 c2 now2 d2 res2 d2' d :
  reachable d1 -> reachable d2 ->
  exec (rtc step) (verify_payment svc1 ids1 p1 c1 now1) d1 (Ok res1) d1' ->
  exec (rtc step) (verify_payment svc2 ids2 p2 c2 now2) d2 (Ok res2) d2' ->
  rtc step d1' d -> rtc step d2' d -> iv_valid res1 = true -> iv_valid res2 = true ->
  vc_scenario_id c1 = vc_scenario_id c2 -> vc_challenge_hash c1 = vc_challenge_hash c2 ->
  co_protocols svc1 = co_protocols svc2 ->
  exists k r ch adapter fp, t_intent d !! k = Some r /\ pi_id (iv_intent res1) = k /\ pi_id (iv_intent res2) = k
    /\ opened_with d (ir_intent r) ch
    /\ registry_get (co_protocols svc1) (pi_protocol (ir_intent r)) = Ok adapter
    /\ credential_fingerprint adapter ch (vc_credential c1) = Ok fp
    /\ credential_fingerprint adapter ch (vc_credential c2) = Ok fp.
Proof.
  intros Hr1 Hr2 Hx1 Hx2 Hs1 Hs2 Hv1 Hv2 Hsc Hch Hreg.
  apply verify_payment_cases in Hx1 as (Hd1 & _ & Hw1); [|done].
  apply verify_payment_cases in Hx2 as (Hd2 & _ & Hw2); [|done].
  pose proof (reachable_steps _ _ (reachable_steps _ _ Hr1 Hd1) Hs1) as Hr.
  apply Hw1, (verified_later _ _ _ _ _ (reachable_steps _ _ Hr1 Hd1) Hs1) in Hv1 as (k & r & v1 & Hk & Hc1 & Hi1 & Hp1 & _).
  apply Hw2, (verified_later _ _ _ _ _ (reachable_steps _ _ Hr2 Hd2) Hs2) in Hv2 as (k2 & r2 & v2 & Hk2 & Hc2 & Hi2 & Hp2 & _).
  destruct Hc1 as (Hin1 & Hsc1 & _ & _ & Hch1). destruct Hc2 as (Hin2 & Hsc2 & _ & _ & Hch2).
  rewrite <- Hsc in Hsc2. rewrite <- Hch in Hch2.
  destruct (challenge_functional _ _ _ _ _ _ _ Hr Hk Hk2 Hin1 Hin2 Hsc1 Hsc2 Hch1 Hch2) as [<- <-].
  destruct Hp1 as (ch & a & fp & Ho & Ha & Hf & Hsub). destruct Hp2 as (ch2 & a2 & fp2 & Ho2 & Ha2 & Hf2 & Hsub2).
  pose proof (opened_with_functional _ _ _ _ Ho Ho2) as <-. pose proof (submitted_with_functional _ _ _ _ Hsub Hsub2) as <-.
  rewrite <- Hreg in Ha2. assert (a2 = a) as -> by congruence. by exists k, r, ch, a, fp.
Qed.

(** Verification moves no money: whatever it answers, an error included,
    as long as the others move none in between, it posts no ledger entry and
    increases the usage of no scenario and no wallet. *)
Lemma verify_moves_no_money svc ids principal command now d r d' :
  exec no_money (verify_payment svc ids principal command now) d r d' -> no_money d d'.
Proof.
  apply (exec_rel no_money no_money); [done|].
  unfold verify_payment, scenario_authorize, client_authenticate, ensure_credential_replay, load_verification,
    latest_verification_ref, submit_credential, resume_submitted, load_challenge, load_submission, provider_verdict,
    record_non_settlement.
  money_calls.
Qed.
End Verification.

(** ** The sample payee *)

#[local] Existing Instance Sample.codec.
#[local] Existing Instance Sample.parser.
#[local] Existing Instance sample_signature.
#[local] Existing Instance SamplePayee.digest.
#[local] Existing Instance SampleRing.uuids.
#[local] Existing Instance SamplePayee.text.
#[local] Existing Instance SamplePayee.parse.
#[local] Existing Instance SamplePayee.sdk.
#[local] Existing Instance sample_protector.

Lemma sample_verify_exec :
  exec (rtc step) (sample_verify "v" 1700000010) sample_issue_db (Ok (sample_verified_answer "v" 1700000010 sample_issue_db))
    sample_verify_db.
Proof. exact (run_alone_exec_eq (rtc step) _ _ _ _ (proj1 sample_verify_alone)). Qed.
Lemma sample_verify_reachable : reachable sample_verify_db.
Proof.
  exact (reachable_steps _ _ sample_issue_reachable
           (proj1 (verify_payment_cases _ _ _ _ _ _ _ _ sample_issue_reachable sample_verify_exec))).
Qed.

Lemma verify_one_credential_witness :
  exists k, pi_id (iv_intent (sample_verified_answer "v" 1700000010 sample_issue_db)) = k
    /\ pi_id (iv_intent (sample_verified_answer "w" 1700000015 sample_verify_db)) = k.
Proof.
  pose proof (verify_one_credential SamplePayee.service (SamplePayee.ids "v") "principal-1" SamplePayee.proof 1700000010
                sample_issue_db _ sample_verify_db
                SamplePayee.service (SamplePayee.ids "w") "principal-1" SamplePayee.proof 1700000015
                sample_verify_db _ sample_verify_db sample_verify_db
                sample_issue_reachable sample_verify_reachable sample_verify_exec
                (run_alone_exec_eq (rtc step) _ _ _ _ (proj1 sample_verify_again)) (rtc_refl _ _) (rtc_refl _ _)
                (proj2 sample_verify_alone) (proj2 sample_verify_again) eq_refl eq_refl eq_refl) as Hc.
  destruct Hc as (k & _ & _ & _ & _ & _ & Hk1 & Hk2 & _). exists k. split; [exact Hk1|exact Hk2].
Defined.
