(* ===== verification/SettlementSafety.v ===== *)
(** * What settlement guarantees

    [settle_payment] of [SettlementService] while every other transaction of
    the vault runs between its calls: a settled answer is final and its receipt
    is on record; one that its own transaction settled rests on confirmed
    evidence and is posted to the ledger; an error has moved no money; and only
    the operation that made the request durable asks the provider to settle. *)

From S2P Require Import Prelude Text Money Json Wallet Intent Policy Ledger Records Store LedgerStore PaymentRules Budget PaymentStore Program Authorizer Samples IntentFlow BudgetSafety Lifecycle System AuthorizerSafety Sealing ApprovalServiceSafety SigningService X402Sdk X402Evm SettlementFacts SettlementService SigningServiceSafety SettlementSamples ChallengeSafety VerificationSafety.
From stdpp Require Import relations.

#[local] Open Scope string_scope.
#[local] Open Scope vault_scope.

(** ** Receipts on record *)

Definition receipt_on_record (d : DB) (id : string) (rc : PaymentReceipt) : Prop :=
  exists k e v, t_event d !! k = Some e /\ ev_intent_id e = id
    /\ (ev_event_type e = EvSettled \/ ev_event_type e = EvReconciled)
    /\ jget "receipt" (ev_payload e) = Some v /\ receipt_from_json v = Some rc.

(** The payment is settled, for good. *)
Definition settled_row (d : DB) (i : PaymentIntent) : Prop :=
  exists r, t_intent d !! pi_id i = Some r /\ pi_status (ir_intent r) = Settled
    /\ same_immutable_identity_as i (ir_intent r) = true.

Section Settlement.
Context `{SolanaPubkey, SolanaSignature, UrlParser, UuidNonce, Sha256, JsonText, JsonParse, MaterialProtector, X402Sdk}.

Lemma settled_row_later d d' i : reachable d -> rtc step d d' -> settled_row d i -> settled_row d' i.
Proof.
  intros Hr Hs (r & Hk & Hst & Hid). destruct (intent_later _ _ _ _ Hr Hs Hk) as (r' & Hk' & E).
  exists r'. split_and!; [done|rewrite (re_final _ _ E); [done|by rewrite Hst]|].
  eapply same_immutable_identity_trans; [exact Hid|apply (re_identity _ _ E)].
Qed.

Lemma receipt_on_record_later d d' id rc :
  reachable d -> rtc step d d' -> receipt_on_record d id rc -> receipt_on_record d' id rc.
Proof. intros Hr Hs (k & e & v & Hk & Hrest). exists k, e, v. split; [by eapply event_later|done]. Qed.

Lemma load_receipt_ok i d rc d' :
  exec (rtc step) (load_receipt i) d (Ok rc) d' -> rtc step d d' /\ receipt_on_record d' (pi_id i) rc.
Proof.
  intros Hx. split; [by eapply exec_steps, Hx; apply load_receipt_steps|]. unfold load_receipt in Hx. prog_inv.
  assert (forall s e t, find_latest_for_intent_type (pi_id i) t s = Ok (Some e, s) ->
            t = EvSettled \/ t = EvReconciled ->
            decode_member receipt_from_json "receipt" (ev_payload e) = Ok (Some rc) ->
            receipt_on_record s (pi_id i) rc) as Hrec.
  { intros s e t Hf Ht Hdec. apply find_latest_ok in Hf as [_ (k & Hk & Hid & <-)].
    unfold decode_member in Hdec. destruct (jget "receipt" (ev_payload e)) as [v|] eqn:Hv; run_inv; [|done].
    exists k, e, v. split_and!; done. }
  match goal with Hf : find_latest_for_intent_type _ EvSettled _ = Ok (?o, _) |- _ =>
    pose proof (read_only _ _ _ Hf) as ->; destruct o as [e|]; prog_inv end.
  - match goal with Hd : durable_receipt (Some e) None = Ok _ |- _ => unfold durable_receipt in Hd; run_inv end.
    eapply Hrec; [eassumption|by left|congruence].
  - match goal with Hd : durable_receipt None ?o = Ok _ |- _ => destruct o as [e|]; unfold durable_receipt in Hd; run_inv; [|done] end.
    match goal with Hf : find_latest_for_intent_type _ EvReconciled _ = Ok _ |- _ => pose proof (read_only _ _ _ Hf) as -> end.
    eapply Hrec; [eassumption|by right|congruence].
Qed.

Lemma settled_receipt i d rc d' :
  reachable d -> exec (rtc step) (load_receipt i) d (Ok rc) d' -> settled_row d i ->
  rtc step d d' /\ receipt_on_record d' (pi_id i) rc /\ settled_row d' i.
Proof.
  intros Hr [Hs Hrec]%load_receipt_ok Hrow. split_and!; [done|done|by eapply settled_row_later].
Qed.

(** ** A settlement committed by this operation *)

(** A transaction that posts the evidence: the ledger holds its fact under the
    key of the evidence and the reservation is consumed. *)
Definition settled_now (d1 d' : DB) (i : PaymentIntent) (authority : string) (result : SettlementProviderResult) : Prop :=
  exists r r' k e, t_intent d1 !! pi_id i = Some r /\ t_intent d' !! pi_id i = Some r'
    /\ same_immutable_identity_as i (ir_intent r) = true
    /\ pi_status (ir_intent r') = Settled /\ pi_settled_amount (ir_intent r') = pi_amount (ir_intent r)
    /\ (pi_reservation_status (ir_intent r) = Reserved -> pi_reservation_status (ir_intent r') = Consumed)
    /\ t_ledger d' !! k = Some e /\ le_intent_id e = Some (pi_id i) /\ Some (le_wallet_id e) = pi_wallet_id i
    /\ le_direction e = Inbound /\ le_amount e = pi_amount i /\ le_asset e = pi_asset i
    /\ settlement_posting_key authority (as_network (pi_asset i)) (spr_transaction result)
         (spr_settlement_ref result) (spr_effect_ref result) = Ok (le_posting_key e).

(** A transaction that posts nothing and does not settle the payment. *)
Definition settled_at (d : DB) (id : string) : Prop :=
  exists r, t_intent d !! id = Some r /\ pi_status (ir_intent r) = Settled.
Definition leaves_unsettled (id : string) (d d' : DB) : Prop :=
  t_ledger d' = t_ledger d /\ (settled_at d' id -> settled_at d id).
#[export] Instance leaves_unsettled_refl id : Reflexive (leaves_unsettled id).
Proof. by intros d. Qed.

Lemma commit_progress_leaves id w d i d' : commit_progress w d = Ok (i, d') -> leaves_unsettled id d d'.
Proof.
  intros (-> & r & m & d1 & u1 & u2 & Hr & Hv & Hu & Ha)%commit_progress_shape.
  apply append_side_effects_appended in Ha. pose proof (ap_same_intent _ _ Ha) as Hi. pose proof (ap_same_ledger _ _ Ha) as Hl.
  apply update_intent_row in Hu as (r1 & _ & Hi1 & Heq & Hl1 & _). split; [congruence|].
  intros (x & Hx & Hst). rewrite Hi, Hi1, lookup_insert in Hx. case_decide; [|by exists x]. exfalso. simplify_eq.
  unfold validate_progress_transition in Hv. run_inv. bool_inv. rewrite Heq in Hst. by rewrite Hst in *.
Qed.

(** The operation's transactions left the payment to others. *)
Definition left_unsettled (id : string) (calls : list (DB * DB)) : Prop :=
  Forall (fun c => leaves_unsettled id (fst c) (snd c)) calls.
Lemma wrote_nothing_left id calls : wrote_nothing calls -> left_unsettled id calls.
Proof. intros Hw. eapply Forall_impl; [exact Hw|]. simpl. intros [a b]. simpl. intros ->. done. Qed.
Lemma left_unsettled_app id c1 c2 : left_unsettled id (c1 ++ c2) <-> left_unsettled id c1 /\ left_unsettled id c2.
Proof. apply Forall_app. Qed.
Lemma left_unsettled_nil id : left_unsettled id [].
Proof. constructor. Qed.

Lemma confirmed_receipt_ok i r at_time rc :
  confirmed_receipt i r at_time = Ok rc ->
  rt_asset rc = pi_asset i /\ rt_requested_amount rc = pi_amount i /\ rt_settled_amount rc = pi_amount i
  /\ rt_confirmed_at rc = at_time.
Proof. unfold confirmed_receipt. intros Hc. by run_inv. Qed.

Lemma trusted_time_i64 created effective observed u :
  validate_trusted_effective_time created effective observed = Ok u -> (I64_MIN <= effective <= I64_MAX)%Z.
Proof.
  unfold validate_trusted_effective_time. intros Hv. run_inv. bool_inv.
  match goal with Hl : (_ <= i64_saturating_add ?a ?b)%Z |- _ => pose proof (i64_clamp_range (a + b)) as Hr;
    unfold i64_saturating_add in Hl end. unfold I64_MIN in *. lia.
Qed.

Lemma confirmed_ledger_ok ids i authority r eff at_time e :
  confirmed_ledger ids i authority r eff at_time = Ok e ->
  le_intent_id e = Some (pi_id i) /\ Some (le_wallet_id e) = pi_wallet_id i /\ le_direction e = Inbound
  /\ le_amount e = pi_amount i /\ le_asset e = pi_asset i
  /\ settlement_posting_key authority (as_network (pi_asset i)) (spr_transaction r) (spr_settlement_ref r)
       (spr_effect_ref r) = Ok (le_posting_key e).
Proof. unfold confirmed_ledger. intros Hc. run_inv. split_and!; done. Qed.

Lemma commit_settlement_events w d i d' e :
  db_ok d -> commit_settlement w d = Ok (i, d') -> e ∈ sw_events w -> t_event d' !! ev_id e = Some e.
Proof.
  intros Hdb Hc He. apply commit_settlement_shape in Hc as (-> & r & d1 & u1 & d2 & u2 & u3 & Hr & Hv & Hl & Hu & Ha).
  destruct (insert_ledgers_stored _ _ _ _ (db_ledger _ Hdb) Hl) as [Hg _].
  pose proof (lg_only _ _ Hg) as Ho. unfold only_ledger, set_ledger in Ho.
  apply update_intent_row in Hu as (_ & _ & _ & _ & _ & Hev & _).
  eapply append_side_effects_stored; [|exact Ha|exact He]. rewrite Hev, Ho. apply Hdb.
Qed.

(** The payment was settled while the operation ran. *)
Definition found_settled (d d' : DB) (i : PaymentIntent) : Prop :=
  exists d1, rtc step d d1 /\ rtc step d1 d' /\ settled_row d1 i.

Lemma found_settled_weaken d0 d d' i : rtc step d0 d -> found_settled d d' i -> found_settled d0 d' i.
Proof. intros Hs (d1 & Hs1 & Hrest). exists d1. split; [by etrans|done]. Qed.

(** What a settled answer about a payment says. *)
Definition settled_answer (d' : DB) (i : PaymentIntent) (res : SettledIncomingPayment) : Prop :=
  pi_id (sd_intent res) = pi_id i /\ pi_status (sd_intent res) = Settled
  /\ settled_row d' i /\ receipt_on_record d' (pi_id i) (sd_receipt res).

Lemma committed_receipt ids i r rc ledger confirmed_at eff now created d d' stored u :
  reachable d -> commit_settlement (settlement_write ids i r rc ledger confirmed_at eff) d = Ok (stored, d') ->
  confirmed_receipt i r eff = Ok rc -> validate_trusted_effective_time created eff now = Ok u ->
  receipt_on_record d' (pi_id i) rc.
Proof.
  intros [Hdb _]%reachable_safe Hc (Has & Hreq & Hset & Hat)%confirmed_receipt_ok Ht%trusted_time_i64.
  pose proof (commit_settlement_events _ _ _ _ _ Hdb Hc (proj2 (list_elem_of_singleton _ _) eq_refl)) as Hev.
  apply commit_settlement_shape in Hc as (-> & row & _ & _ & _ & _ & _ & Hk & Hv & _).
  apply validate_settlement_transition_ok in Hv as (_ & Hid & _). apply same_immutable_identity_iff in Hid.
  destruct Hid as (_ & _ & _ & _ & _ & _ & _ & _ & Hasset & _ & Ham & _). simpl in Hasset, Ham.
  pose proof (intents_checked _ (db_intents _ Hdb) _ _ Hk) as Hck. unfold intent_checks, sql_amount in Hck. bool_inv.
  do 2 eexists. exists (receipt_to_json rc). split; [exact Hev|]. split_and!; [done|by left|..].
  - simpl ev_payload. by rewrite jget_jobject.
  - apply receipt_json_roundtrip. rewrite <- Ham, <- Hasset in *. split_and!; rewrite ?Has, ?Hreq, ?Hset, ?Hat; try done; lia.
Qed.

(** The commit that stores a confirmed settlement. *)
Lemma confirmed_commit ids i authority r rc ledger confirmed_at eff d stored d' :
  reachable d -> commit_settlement (settlement_write ids i r rc ledger confirmed_at eff) d = Ok (stored, d') ->
  confirmed_ledger ids i authority r eff confirmed_at = Ok ledger ->
  pi_id stored = pi_id i /\ pi_status stored = Settled /\ settled_row d' i /\ settled_now d d' i authority r.
Proof.
  intros Hr Hcom (Hli & Hlw & Hld & Hla & Hlas & Hlp)%confirmed_ledger_ok.
  pose proof (commit_settlement_facts _ _ _ _ (proj1 (reachable_safe _ Hr)) Hcom)
    as (row & row' & Hk & Hk' & Heq & _ & Hall & Hres).
  destruct (Hall _ (proj2 (list_elem_of_singleton _ _) eq_refl)) as (e & key & He & Hsame).
  apply same_fact_content_spec in Hsame as (Hw & Hpk & Hin & _ & _ & Hdir & Has & Ham & _).
  apply commit_settlement_shape in Hcom as (-> & row2 & _ & _ & _ & _ & _ & Hk2 & Hv & _).
  simpl in Hk, Hk', Hk2. rewrite Hk in Hk2. injection Hk2 as <-.
  apply validate_settlement_transition_ok in Hv as (_ & Hid & _).
  assert (same_immutable_identity_as i (confirmed_intent i r confirmed_at eff) = true) as Hii
    by (apply same_immutable_identity_iff; by split_and!).
  split_and!; [done|done|exists row'; rewrite Heq; by split_and!|].
  exists row, row', key, e. rewrite Heq.
  assert (same_immutable_identity_as i (ir_intent row) = true) as Hrow.
  { apply same_immutable_identity_iff. apply same_immutable_identity_iff in Hid. simpl in Hid. intuition congruence. }
  pose proof (proj1 (same_immutable_identity_iff _ _) Hrow) as Hsame.
  split_and!; try done; try congruence; try apply Hsame.
  intros Hre. by destruct (Hres Hre) as [-> _].
Qed.

Lemma load_intent_row id d i d' :
  load_intent id d = Ok (Some i, d') -> d' = d /\ exists r, t_intent d !! id = Some r /\ ir_intent r = i.
Proof.
  unfold load_intent. intros [Hl ->]%treads_ok. split; [done|]. symmetry in Hl. apply fmap_Some in Hl as (r & Hr & ->). eauto.
Qed.

Lemma load_receipt_queries i : queries (load_receipt i).
Proof. unfold load_receipt. solve_queries. Qed.

Lemma commit_confirmed_ok ids i authority r now eff d calls res d' :
  reachable d -> exec_calls (rtc step) (commit_confirmed ids i authority r now eff) d calls (Ok res) d' ->
  rtc step d d' /\ settled_answer d' i res
  /\ ((exists d1, rtc step d d1 /\ (d1, d') ∈ calls /\ settled_now d1 d' i authority r)
      \/ (wrote_nothing calls /\ found_settled d d' i)).
Proof.
  intros Hr Hx. unfold commit_confirmed in Hx. prog_inv.
  match goal with Hs : rtc step d ?s |- _ => rename s into d1, Hs into Hs1 end.
  pose proof (reachable_steps _ _ Hr Hs1) as Hr1.
  match goal with Hm : match ?o with Ok _ => _ | Err _ => _ end |- _ => destruct o as [stored|err] end; prog_inv.
  - match goal with Hc : commit_settlement _ _ = Ok _, Hrc : confirmed_receipt _ _ _ = Ok _,
                    Ht : validate_trusted_effective_time _ _ _ = Ok _, Hl : confirmed_ledger _ _ _ _ _ _ = Ok _ |- _ =>
      pose proof (committed_receipt _ _ _ _ _ _ _ _ _ _ _ _ _ Hr1 Hc Hrc Ht) as Hrec;
      pose proof (commit_settlement_step _ _ _ _ Hc) as Hs2;
      destruct (confirmed_commit _ _ _ _ _ _ _ _ _ _ _ Hr1 Hc Hl) as (Hid & Hst & Hrow & Hnow) end.
    split; [steps|]. split; [done|]. left. exists d1. split_and!; [done| |done].
    rewrite !elem_of_app, list_elem_of_singleton. naive_solver.
  - match goal with He : _ = Err _ /\ _ |- _ => destruct He as [_ ->] end.
    destruct err; prog_inv; try done.
    match goal with Hl : load_intent _ ?s = Ok (Some ?c, _), Hs : rtc step _ ?s |- _ =>
      apply load_intent_row in Hl as (-> & row & Hk & <-); rename s into d2, Hs into Hs2 end.
    match goal with Hw : negb (is_concurrent_settlement_winner _ _) = false |- _ =>
      unfold is_concurrent_settlement_winner in Hw; bool_inv end.
    pose proof (reachable_steps _ _ Hr1 Hs2) as Hr2. pose proof (intent_key _ _ _ Hr2 Hk) as Hkey.
    assert (settled_row d2 i) as Hrow.
    { exists row. split_and!; try done. apply same_immutable_identity_iff.
      match goal with Hs : same_immutable_identity_as _ _ = true |- _ => apply same_immutable_identity_iff in Hs end.
      intuition congruence. }
    match goal with Hl : exec_calls _ (load_receipt _) _ _ _ _ |- _ =>
      pose proof (queries_wrote_nothing _ _ _ _ _ _ (load_receipt_queries _) Hl) as W;
      apply exec_of_calls, load_receipt_ok in Hl as [Hs3 Hrec] end.
    rewrite Hkey in Hrec. split; [steps|]. split; [by split_and!; [..|eapply settled_row_later|]|].
    right. split; [solve_wrote|]. exists d2. split_and!; [steps|done|done].
Qed.

(** ** Evidence *)

(** The result reports a valid, settled transfer of the payment's asset and
    exact amount to its recipient, at the required depth. *)
Definition matches_payment (r : SettlementProviderResult) (i : PaymentIntent) (minimum : N) : Prop :=
  spr_valid r = true /\ spr_settled r = true /\ spr_amount r = Some (pi_amount i)
  /\ (exists a, spr_asset r = Some a /\ asset_identity_matches a (pi_asset i) = true)
  /\ (exists p, spr_recipient r = Some p /\ payment_recipients_match (as_network (pi_asset i)) p (pi_recipient i) = true)
  /\ (minimum = 0%N \/ exists n, spr_confirmations r = Some n /\ (minimum <= n)%N)
  /\ ((exists t, spr_transaction r = Some t /\ t <> "") \/ exists t, spr_settlement_ref r = Some t /\ t <> "").

Lemma validate_confirmed_matches r i minimum u : validate_confirmed_for r i minimum = Ok u -> matches_payment r i minimum.
Proof.
  unfold validate_confirmed_for, matches_payment. intros Hv. run_inv. bool_inv.
  repeat match goal with
         | Hs : is_some_and _ ?o = true |- _ => destruct o eqn:?; [simpl in Hs|done]
         | Hn : is_none_or is_empty ?o && is_none_or is_empty ?o' = false |- _ => apply andb_false_iff in Hn
         end.
  split_and!; eauto.
  - match goal with Hc : _ || _ = true |- _ => apply orb_true_iff in Hc as [Hc|Hc] end; bool_inv; [by left|].
    destruct (spr_confirmations r); [|done]. simpl in *. bool_inv. eauto.
  - match goal with Hn : _ \/ _ |- _ => destruct Hn as [Hn|Hn] end; [left|right];
      match goal with Hn : is_none_or is_empty ?o = false |- _ => destruct o as [t|]; [|done]; exists t; by destruct t end.
Qed.

(** The result that confirms the payment came from the configured provider of
    its protocol, under that provider's authority and confirmation depth, or
    from the chain source, for exactly the payment's recipient and amount. *)
Definition confirmed_by (svc : SettlementCoordinator) (i : PaymentIntent) (authority : string)
    (result : SettlementProviderResult) : Prop :=
  exists minimum, matches_payment result i minimum
    /\ ((exists binding op request, providers_get (co_providers svc) (pi_protocol i) = Ok binding
           /\ pb_provider binding op request = Ok result /\ rq_run_id request = pi_run_id i
           /\ confirmation_depth binding (as_network (pi_asset i)) = Ok minimum /\ authority = pb_authority binding)
        \/ (exists query evidence, co_lookup_authorization svc query = Ok (AuthConfirmed evidence)
              /\ uses_eip3009_recovery i = true /\ aq_network query = as_network (pi_asset i)
              /\ aq_recipient query = pi_recipient i /\ aq_amount query = pi_amount i
              /\ spr_transaction result = Some (ct_transaction evidence)
              /\ authority = ct_authority evidence /\ minimum = ct_minimum_confirmations evidence)).

(** What a settled answer rests on: a transaction of this operation that posted
    confirmed evidence, or the payment settled by others meanwhile. *)
Definition settled_on (svc : SettlementCoordinator) (d d' : DB) (i : PaymentIntent) (calls : list (DB * DB)) : Prop :=
  (exists d1 authority result, rtc step d d1 /\ (d1, d') ∈ calls
     /\ confirmed_by svc i authority result /\ settled_now d1 d' i authority result)
  \/ (left_unsettled (pi_id i) calls /\ found_settled d d' i).

Lemma settled_on_after svc d0 d d' i c1 c2 :
  rtc step d0 d -> left_unsettled (pi_id i) c1 -> settled_on svc d d' i c2 -> settled_on svc d0 d' i (c1 ++ c2).
Proof.
  intros Hs Hc1 [(d1 & a & r & Hs1 & Hin & Hby & Hnow)|[Hc2 Hf]].
  - left. exists d1, a, r. split_and!; [by etrans| |done|done]. apply elem_of_app. by right.
  - right. split; [by apply left_unsettled_app|by eapply found_settled_weaken].
Qed.

(** Passes over what the operation did before. *)
Ltac settled_later :=
  repeat (eapply settled_on_after;
          [ apply rtc_refl | first [apply left_unsettled_nil | assumption | apply wrote_nothing_left; solve [solve_wrote]] | ]).

Lemma settled_on_weaken svc d0 d d' i calls : rtc step d0 d -> settled_on svc d d' i calls -> settled_on svc d0 d' i calls.
Proof. intros Hs Hon. by apply (settled_on_after svc d0 d d' i [] calls Hs (left_unsettled_nil _)). Qed.

Lemma provider_settles_ok svc ids i s now d calls res d' :
  reachable d -> exec_calls (rtc step) (provider_settles svc ids i s now) d calls (Ok res) d' ->
  rtc step d d' /\ settled_answer d' i res /\ settled_on svc d d' i calls.
Proof.
  intros Hr Hx. unfold provider_settles in Hx. prog_inv.
  match goal with Hx : exec_calls _ (if ?b then _ else _) _ _ _ _ |- _ => destruct b; [by prog_inv|] end.
  match goal with Hx : exec_calls _ (match ?v with _ => _ end) _ _ _ _ |- _ => destruct v as [u|e] eqn:Hv; [|by prog_inv] end.
  destruct u. apply commit_confirmed_ok in Hx as (Hs & Ha & Hn); [|done]. split_and!; [done|done|].
  settled_later.
  destruct Hn as [(d1 & Hs1 & Hin & Hn)|[Hw Hf]]; [left|right; split; [by apply wrote_nothing_left|done]].
  do 3 eexists. split_and!; [exact Hs1|exact Hin| |exact Hn].
  eexists. split; [by eapply validate_confirmed_matches|]. left. do 3 eexists. split_and!; try eassumption; done.
Qed.

Lemma observed_evidence svc i now d authority minimum result eff d' :
  exec (rtc step) (reconciliation_observation svc i now) d (Ok (ObsObserved authority minimum result eff)) d' ->
  validate_confirmed_for result i minimum = Ok tt -> rtc step d d' /\ confirmed_by svc i authority result.
Proof.
  intros Hx Hv. split; [by eapply exec_steps, Hx; apply reconciliation_observation_steps|].
  unfold reconciliation_observation in Hx. prog_inv. exists minimum. split; [by eapply validate_confirmed_matches|].
  destruct (uses_eip3009_recovery i) eqn:Hu; prog_inv.
  - right. match goal with Ho : authorization_reconciliation_observation _ _ _ _ _ = Ok _ |- _ =>
      unfold authorization_reconciliation_observation, authorization_query in Ho; run_inv end.
    match goal with Ho : observation_of _ _ _ _ ?o = _ |- _ => destruct o; unfold observation_of in Ho end;
      simplify_eq.
    all: try (case_match; simplify_eq).
    1: do 2 eexists; split_and!; try eassumption; done.
    all: unfold validate_confirmed_for in Hv; run_inv; bool_inv; done.
  - simplify_eq. left. do 3 eexists. split_and!; try eassumption; done.
Qed.

Lemma reconciliation_observation_queries svc i now : queries (reconciliation_observation svc i now).
Proof.
  unfold reconciliation_observation, load_reconciliation_settlement, settlement_requested_event, load_submission, load_challenge.
  solve_queries.
Qed.

Lemma recover_requested_settlement_ok svc ids i now d calls res d' :
  reachable d -> exec_calls (rtc step) (recover_requested_settlement svc ids i now) d calls (Ok res) d' ->
  rtc step d d' /\ settled_answer d' i res /\ settled_on svc d d' i calls.
Proof.
  intros Hr Hx. unfold recover_requested_settlement in Hx. prog_inv.
  match goal with Ho : exec_calls _ (reconciliation_observation _ _ _) _ _ (Ok ?o) _ |- _ =>
    pose proof (queries_wrote_nothing _ _ _ _ _ _ (reconciliation_observation_queries _ _ _) Ho) as W;
    apply exec_of_calls in Ho as Hobs; clear Ho; destruct o as [a m r e|reason]; [|by prog_inv] end.
  destruct (spr_valid r && spr_settled r); [|by prog_inv]. prog_inv.
  match goal with Hv : validate_confirmed_for _ _ _ = Ok ?u |- _ => destruct u;
    destruct (observed_evidence _ _ _ _ _ _ _ _ _ Hobs Hv) as [Hs1 Hby] end.
  apply commit_confirmed_ok in Hx as (Hs & Ha & Hn); [|by eapply reachable_steps].
  split_and!; [steps|done|]. eapply settled_on_after; [exact Hs1|by apply wrote_nothing_left|].
  settled_later.
  destruct Hn as [(d1 & Hs2 & Hin & Hn)|[Hw Hf]]; [left|right; split; [by apply wrote_nothing_left|done]].
  do 3 eexists. split_and!; [exact Hs2|exact Hin|exact Hby|exact Hn].
Qed.

(** ** Settlement requests *)

Lemma replayed_request_ok i e d x d' :
  exec (rtc step) (replayed_request i e) d (Ok x) d' ->
  rtc step d d' /\ exists r, x = ReqReplay (ir_intent r) /\ t_intent d' !! pi_id i = Some r.
Proof.
  intros Hx. unfold replayed_request in Hx. prog_inv.
  match goal with Hl : load_intent _ _ = Ok (Some _, _) |- _ => apply load_intent_row in Hl as (-> & r & Hk & <-) end.
  split; [done|]. by exists r.
Qed.

(** A request is recorded by this operation, on the first event of its kind,
    or someone else's is found. *)
Lemma record_settlement_requested_ok svc ids i now d x d' :
  reachable d -> exec (rtc step) (record_settlement_requested svc ids i now) d (Ok x) d' ->
  rtc step d d'
  /\ match x with
     | ReqInserted j => same_immutable_identity_as i j = true
                        /\ exists e, first_event d' (pi_id i) EvSettlementRequested e /\ ev_id e = xi_request_event ids
     | ReqReplay j => exists r, j = ir_intent r /\ t_intent d' !! pi_id i = Some r
     end.
Proof.
  intros Hr Hx. split; [by eapply exec_steps, Hx; apply record_settlement_requested_steps|].
  unfold record_settlement_requested, settlement_requested_event in Hx. prog_inv.
  match goal with Hx : exec _ (match ?o with _ => _ end) _ _ _ |- _ => destruct o as [e|] end.
  { apply replayed_request_ok in Hx as (_ & r & -> & Hk). eauto. }
  prog_inv.
  match goal with Hm : match ?o with Ok _ => _ | Err _ => _ end |- _ => destruct o as [stored|err] end; prog_inv.
  - match goal with Hc : commit_progress _ ?s = Ok _ |- _ => rename Hc into Hcom, s into dm end.
    assert (rtc step d dm) as Hsm.
    { match goal with Hf : find_for_intent_type _ _ _ ?s = Ok (_, ?s') |- _ => pose proof (read_only _ _ _ Hf) as -> end.
      match goal with Hb : exec _ (if _ then _ else _) _ _ _ |- _ => apply exec_steps in Hb; [|settlement_calls] end. steps. }
    pose proof (reachable_steps _ _ Hr Hsm) as Hrm.
    pose proof (commit_progress_stored _ _ _ _ _ (proj1 (reachable_safe _ Hrm)) Hcom
                  (proj2 (list_elem_of_singleton _ _) eq_refl)) as Hev.
    pose proof (reachable_steps _ _ Hrm (commit_progress_step _ _ _ _ Hcom)) as Hr'.
    apply commit_progress_shape in Hcom as (-> & _). split; [apply same_immutable_identity_iff; by split_and!|].
    eexists. split; [by eapply stored_first; [exact Hr'|exact Hev|..]|done].
  - match goal with Hx : exec _ (match ?o with _ => _ end) _ _ _ |- _ => destruct o as [e|]; [|by prog_inv] end.
    apply replayed_request_ok in Hx as (_ & r & -> & Hk). eauto.
Qed.

Lemma record_settlement_requested_leaves svc ids i now id :
  calls_in (leaves_unsettled id) (record_settlement_requested svc ids i now).
Proof.
  unfold record_settlement_requested, replayed_request, settlement_requested_event.
  repeat first
    [ apply calls_in_bind; [|intros ?] | apply (queries_in (leaves_unsettled id)); solve [solve_queries]
    | apply calls_in_attempt; intros ? ? ?; apply commit_progress_leaves | case_match ].
Qed.
Lemma load_settlement_material_queries i : queries (load_settlement_material i).
Proof. unfold load_settlement_material, latest_verification_ref, load_submission. solve_queries. Qed.

(** ** Answers *)

Lemma get_for_scenario_row s id d i d' :
  get_for_scenario s id d = Ok (Some i, d') ->
  d' = d /\ exists r, t_intent d !! id = Some r /\ ir_intent r = i /\ pi_scenario_id i = s.
Proof.
  unfold get_for_scenario. intros [Hf ->]%treads_ok. split; [done|].
  destruct (t_intent d !! id) as [r|]; [|done]. case_bool_decide; [|done]. simplify_eq. eauto.
Qed.

(** The settled payment of a command. *)
Definition settled_for (d : DB) (c : SettleIncomingPayment) (res : SettledIncomingPayment) : Prop :=
  exists r, t_intent d !! sc_intent c = Some r /\ pi_status (ir_intent r) = Settled
    /\ pi_scenario_id (ir_intent r) = sc_scenario c /\ pi_run_id (ir_intent r) = sc_run c
    /\ pi_direction (ir_intent r) = Inbound
    /\ pi_id (sd_intent res) = sc_intent c /\ pi_status (sd_intent res) = Settled
    /\ receipt_on_record d (sc_intent c) (sd_receipt res).

Lemma settled_for_intro d c i res :
  pi_id i = sc_intent c -> pi_scenario_id i = sc_scenario c -> pi_run_id i = sc_run c -> pi_direction i = Inbound ->
  settled_answer d i res -> settled_for d c res.
Proof.
  intros Hid Hs Hrun Hdir (Hi & Hst & (r & Hk & Hsr & Hsame) & Hrec). rewrite Hid in *.
  apply same_immutable_identity_iff in Hsame. exists r. intuition congruence.
Qed.

Lemma load_receipt_settled i d rc d' row :
  reachable d -> t_intent d !! pi_id i = Some row -> ir_intent row = i -> pi_status i = Settled ->
  exec (rtc step) (load_receipt i) d (Ok rc) d' ->
  rtc step d d' /\ settled_answer d' i (settled_response i rc) /\ found_settled d d' i.
Proof.
  intros Hr Hk Hrow Hst Hx. assert (settled_row d i) as Hset.
  { exists row. split_and!; [done|congruence|rewrite Hrow; apply same_immutable_identity_refl]. }
  destruct (settled_receipt _ _ _ _ Hr Hx Hset) as (Hs & Hrec & Hset'). split_and!; try done. by exists d.
Qed.

Lemma settle_payment_calls svc ids principal command now d calls res d' :
  reachable d -> exec_calls (rtc step) (settle_payment svc ids principal command now) d calls (Ok res) d' ->
  rtc step d d' /\ had_access d d' principal (sc_scenario command) /\ settled_for d' command res
  /\ exists i, pi_id i = sc_intent command /\ settled_on svc d d' i calls.
Proof.
  intros Hr Hx. unfold settle_payment in Hx. prog_inv.
  match goal with Ha : exec_calls _ (scenario_authorize _ _) _ _ _ _ |- _ =>
    pose proof (queries_wrote_nothing _ _ _ _ _ _ (scenario_authorize_queries _ _) Ha) as W1;
    apply exec_of_calls, scenario_authorize_ok in Ha as [Hs1 Hacc] end.
  match goal with Hg : get_for_scenario _ _ ?s = Ok (Some ?i, _), He : rtc step _ ?s |- _ =>
    apply get_for_scenario_row in Hg as (-> & r & Hk & <- & Hsc); rename s into d1, He into Hs2 end.
  pose proof (reachable_steps _ _ Hr (transitivity Hs1 Hs2)) as Hr1. pose proof (intent_key _ _ _ Hr1 Hk) as Hid.
  match goal with He : ensure_settlement_intent_binding _ _ = Ok _ |- _ =>
    unfold ensure_settlement_intent_binding in He; run_inv; bool_inv end.
  assert (forall s j cs, rtc step d1 s -> settled_answer s j res ->
            same_immutable_identity_as (ir_intent r) j = true -> settled_on svc d s j cs ->
            rtc step d s /\ had_access d s principal (sc_scenario command) /\ settled_for s command res
            /\ exists i, pi_id i = sc_intent command /\ settled_on svc d s i cs) as Hdone.
  { intros s j cs Hs Ha Hsame Hon. apply same_immutable_identity_iff in Hsame.
    split; [steps|]. split; [eapply had_access_later; [exact Hacc|steps]|]. split.
    - eapply settled_for_intro; [..|exact Ha]; intuition congruence.
    - exists j. split; [intuition congruence|done]. }
  destruct (pi_status (ir_intent r)) eqn:Hst; prog_inv; try done.
  - match goal with Hm : exec_calls _ (load_settlement_material _) _ _ _ _ |- _ =>
      pose proof (queries_wrote_nothing _ _ _ _ _ _ (load_settlement_material_queries _) Hm) as W2;
      apply exec_of_calls, exec_steps in Hm as Hs3; [clear Hm|apply load_settlement_material_steps] end.
    match goal with Hq : exec_calls _ (record_settlement_requested _ _ _ _) _ _ _ _ |- _ =>
      pose proof (calls_within _ _ _ _ _ _ _ (record_settlement_requested_leaves _ _ _ _ (pi_id (ir_intent r))) Hq) as W3;
      apply exec_of_calls, record_settlement_requested_ok in Hq as (Hs4 & Hreq); [|by eapply reachable_steps] end.
    match goal with Hx : exec_calls _ _ ?s _ _ _ |- _ =>
      assert (reachable s) as Hr4 by (eapply (reachable_steps d1); [done|steps]); rename s into d4 end.
    match goal with Hx : exec_calls _ (match ?q with _ => _ end) _ _ _ _ |- _ => destruct q as [j|j] end.
    + destruct Hreq as [Hsame _]. apply provider_settles_ok in Hx as (Hs5 & Ha & Hon); [|done].
      pose proof (proj1 (same_immutable_identity_iff _ _) Hsame) as (Hij & _). rewrite Hij in W3.
      eapply Hdone; [steps|exact Ha|done|]. settled_later. eapply settled_on_weaken; [|exact Hon]. steps.
    + destruct Hreq as (r4 & -> & Hk4).
      destruct (intent_later d1 d4 _ _ Hr1 ltac:(steps) Hk) as (r4' & Hk4' & E). rewrite Hid, Hk4' in Hk4. injection Hk4 as ->.
      pose proof (re_identity _ _ E) as Hsame. pose proof (intent_key _ _ _ Hr4 Hk4') as Hid4.
      pose proof (proj1 (same_immutable_identity_iff _ _) Hsame) as (Hij & _). rewrite Hij in W3.
      case_bool_decide as Hst4; prog_inv.
      * match goal with Hl : exec_calls _ (load_receipt _) _ _ _ _ |- _ =>
          pose proof (queries_wrote_nothing _ _ _ _ _ _ (load_receipt_queries _) Hl) as W4;
          eapply exec_of_calls, load_receipt_settled in Hl as (Hs5 & Ha & Hf); [|done|by rewrite Hid4|done|done] end.
        eapply Hdone; [steps|exact Ha|done|]. settled_later. right. split; [apply left_unsettled_nil|].
        eapply found_settled_weaken; [|exact Hf]. steps.
      * apply recover_requested_settlement_ok in Hx as (Hs5 & Ha & Hon); [|done].
        eapply Hdone; [steps|exact Ha|done|]. settled_later. eapply settled_on_weaken; [|exact Hon]. steps.
  - match goal with Hl : exec_calls _ (load_receipt _) _ _ _ _ |- _ =>
      pose proof (queries_wrote_nothing _ _ _ _ _ _ (load_receipt_queries _) Hl) as W4;
      eapply exec_of_calls, load_receipt_settled in Hl as (Hs5 & Ha & Hf); [|done|by rewrite Hid|done|done] end.
    eapply Hdone; [steps|exact Ha|apply same_immutable_identity_refl|]. settled_later.
    right. split; [apply left_unsettled_nil|]. eapply found_settled_weaken; [|exact Hf]. steps.
Qed.

Lemma settle_payment_steps svc ids principal command now d res d' :
  reachable d -> exec (rtc step) (settle_payment svc ids principal command now) d (Ok res) d' -> rtc step d d'.
Proof. intros Hr (calls & Hx)%exec_calls_iff. by apply settle_payment_calls in Hx as [? _]. Qed.


(** *** Errors *)

Lemma commit_confirmed_error ids i authority r now eff d e d' :
  exec no_money (commit_confirmed ids i authority r now eff) d (Err e) d' -> no_money d d'.
Proof.
  unfold commit_confirmed. do 3 error_step. intros Hx.
  apply exec_bind in Hx as [(o & dm & Ha & Hk)|(? & _ & ? & _ & [=] & _)].
  apply exec_attempt_ok in Ha as (dn & He & Ha). destruct o as [stored|err]; [by destruct Hk|]. destruct Ha as [_ ->].
  etrans; [exact He|]. revert Hk. unfold load_receipt; error_end.
Qed.

Lemma provider_settles_error svc ids i s now d e d' :
  exec no_money (provider_settles svc ids i s now) d (Err e) d' -> no_money d d'.
Proof.
  unfold provider_settles, record_non_settlement. do 3 error_step.
  case_match; [error_end|]. case_match; [|error_end].
  apply commit_confirmed_error.
Qed.

Lemma recover_error svc ids i now d e d' :
  exec no_money (recover_requested_settlement svc ids i now) d (Err e) d' -> no_money d d'.
Proof.
  unfold recover_requested_settlement, reconciliation_observation, load_reconciliation_settlement, load_submission,
    load_challenge, settlement_requested_event, record_non_settlement. error_step.
  case_match; [|error_end]. case_match; [|error_end].
  error_step. apply commit_confirmed_error.
Qed.

(** A settlement that reports an error has moved no money: as long as the
    others move none in between, whenever [settle_payment] returns an error
    (a denied request, a refusal by the provider, unconfirmed or unusable
    evidence, a lost race, an expired authorization), nothing was posted and
    the usage of no scenario and no wallet grew. *)
Lemma settle_error_moves_no_money svc ids principal command now d e d' :
  exec no_money (settle_payment svc ids principal command now) d (Err e) d' -> no_money d d'.
Proof.
  unfold settle_payment, scenario_authorize, client_authenticate. do 5 error_step.
  case_match. all: try solve [error_end | unfold load_receipt; error_end].
  unfold load_settlement_material, latest_verification_ref, load_submission. do 2 error_step.
  unfold record_settlement_requested, settlement_requested_event, replayed_request. error_step.
  case_match; [apply provider_settles_error|].
  case_match; [unfold load_receipt; error_end|apply recover_error].
Qed.

(** *** Once *)

(** The same provider and service, with settlement requests answered in
    another way. *)
Definition binding_with_settle (f : SettlementProviderRequest -> Result Error SettlementProviderResult)
    (b : SettlementProviderBinding) : SettlementProviderBinding :=
  {| pb_authority := pb_authority b; pb_confirmation_depths := pb_confirmation_depths b;
     pb_provider := fun op q => match op with OpVerify => pb_provider b OpVerify q | OpSettle => f q end |}.

Definition with_settle (f : SettlementProviderRequest -> Result Error SettlementProviderResult)
    (svc : SettlementCoordinator) : SettlementCoordinator :=
  {| co_protocols := co_protocols svc; co_providers := binding_with_settle f <$> co_providers svc;
     co_latest_block := co_latest_block svc; co_lookup_authorization := co_lookup_authorization svc;
     co_reconciliation_delay_seconds := co_reconciliation_delay_seconds svc |}.

Lemma with_settle_provider f svc p :
  providers_get (co_providers (with_settle f svc)) p =
  match providers_get (co_providers svc) p with Ok b => Ok (binding_with_settle f b) | Err e => Err e end.
Proof.
  assert (forall (m : gmap string SettlementProviderBinding) (e : Error),
            ok_or ((binding_with_settle f <$> m) !! p) e =
            match ok_or (m !! p) e with Ok b => Ok (binding_with_settle f b) | Err e => Err e end) as Hm.
  { intros m e. rewrite lookup_fmap. by destruct (m !! p). }
  exact (Hm (co_providers svc) _).
Qed.

Lemma observation_ignores_settle f svc i now :
  prog_equiv (reconciliation_observation (with_settle f svc) i now) (reconciliation_observation svc i now).
Proof.
  unfold reconciliation_observation. f_equiv. intros s. destruct (uses_eip3009_recovery i); [done|].
  rewrite with_settle_provider. by destruct (providers_get _ _).
Qed.

Lemma recovery_ignores_settle f svc ids i now :
  prog_equiv (recover_requested_settlement (with_settle f svc) ids i now) (recover_requested_settlement svc ids i now).
Proof. unfold recover_requested_settlement. apply gbind_proper; [apply observation_ignores_settle|]. by intros o. Qed.

Lemma provider_settles_steps svc ids i s now : calls_in (rtc step) (provider_settles svc ids i s now).
Proof. unfold provider_settles, commit_confirmed, record_non_settlement, load_receipt. settlement_calls. Qed.

(** Only the operation whose request is on record depends on what the provider
    answers to a settlement request. *)
Lemma asked_or_indifferent f svc ids principal command now d calls r d' :
  reachable d -> exec_calls (rtc step) (settle_payment svc ids principal command now) d calls r d' ->
  exec_calls (rtc step) (settle_payment (with_settle f svc) ids principal command now) d calls r d'
  \/ (rtc step d d' /\ exists e, first_event d' (sc_intent command) EvSettlementRequested e /\ ev_id e = xi_request_event ids).
Proof.
  intros Hr. unfold settle_payment.
  apply exec_calls_bind_or; intros u d1 ? ? (_ & -> & _)%exec_calls_lift_ok.
  apply exec_calls_bind_or; intros a d2 ? ? [Hs2 _]%exec_of_calls%scenario_authorize_ok.
  apply exec_calls_bind_or; intros o d3 ? ? (dm & Hs3 & Hg & _)%exec_calls_await_ok.
  apply exec_calls_bind_or; intros i d4 ? ? (Ho & -> & _)%exec_calls_lift_ok. apply ok_or_ok in Ho as ->.
  apply get_for_scenario_row in Hg as (-> & row & Hk & <- & _).
  apply exec_calls_bind_or; intros ? ? ? ? (_ & -> & _)%exec_calls_lift_ok.
  pose proof (reachable_steps _ _ Hr (transitivity Hs2 Hs3)) as Hr3. pose proof (intent_key _ _ _ Hr3 Hk) as Hid.
  destruct (pi_status (ir_intent row)); try (by left).
  apply exec_calls_bind_or; intros m d5 ? ? Hm%exec_of_calls. apply exec_steps in Hm; [|apply load_settlement_material_steps].
  apply exec_calls_bind_or; intros ? ? ? ? (_ & -> & _)%exec_calls_lift_ok.
  apply (exec_calls_bind_or (rtc step) (record_settlement_requested svc ids (ir_intent row) now));
    intros x d6 ? ? Hq%exec_of_calls.
  pose proof (reachable_steps _ _ Hr3 Hm) as Hr5.
  apply record_settlement_requested_ok in Hq as [Hs6 Hq]; [|done]. destruct x as [j|j].
  - destruct Hq as (_ & e & He & Hev). intros Hx%exec_of_calls. apply exec_steps in Hx; [|apply provider_settles_steps].
    right. split; [steps|]. exists e. split; [|done]. rewrite <- Hid.
    eapply first_event_later; [|exact Hx|exact He]. by eapply reachable_steps.
  - intros Hx. left. case_bool_decide; [done|]. by apply recovery_ignores_settle.
Qed.

(** C12: the provider is asked to settle a payment at most once.  Call an
    operation one that asked when, on the very transactions it ran, it would
    have answered otherwise had the provider answered settlement requests
    otherwise.  Two operations on one payment that asked, by whatever services
    and however they interleave with each other and with all other work, seen
    from a common later database, drew the same identity for their settlement
    request, which is the request on record: they are the same operation. *)
Theorem settle_asked_once f1 svc1 ids1 p1 c1 now1 d1 calls1 r1 d1' f2 svc2 ids2 p2 c2 now2 d2 calls2 r2 d2' d :
  reachable d1 -> reachable d2 ->
  exec_calls (rtc step) (settle_payment svc1 ids1 p1 c1 now1) d1 calls1 r1 d1' ->
  exec_calls (rtc step) (settle_payment svc2 ids2 p2 c2 now2) d2 calls2 r2 d2' ->
  answer_on (settle_payment (with_settle f1 svc1) ids1 p1 c1 now1) calls1 <> Some r1 ->
  answer_on (settle_payment (with_settle f2 svc2) ids2 p2 c2 now2) calls2 <> Some r2 ->
  rtc step d1' d -> rtc step d2' d -> sc_intent c1 = sc_intent c2 ->
  xi_request_event ids1 = xi_request_event ids2
  /\ exists e, first_event d (sc_intent c1) EvSettlementRequested e /\ ev_id e = xi_request_event ids1.
Proof.
  intros Hr1 Hr2 Hx1 Hx2 Hn1 Hn2 Hs1 Hs2 Hid.
  apply (asked_or_indifferent f1) in Hx1 as [Hx1|(Hd1 & e1 & He1 & Hv1)]; [by apply exec_calls_answer in Hx1| |done].
  apply (asked_or_indifferent f2) in Hx2 as [Hx2|(Hd2 & e2 & He2 & Hv2)]; [by apply exec_calls_answer in Hx2| |done].
  apply (first_event_later _ d) in He1; [|exact (reachable_steps _ _ Hr1 Hd1)|done].
  apply (first_event_later _ d) in He2; [|exact (reachable_steps _ _ Hr2 Hd2)|done].
  rewrite <- Hid in He2. assert (e1 = e2) as <- by by eapply first_event_functional.
  split; [congruence|by exists e1].
Qed.
End Settlement.

(** ** The sample payee *)

#[local] Existing Instance Sample.codec.
#[local] Existing Instance Sample.parser.
#[local] Existing Instance sample_signature.
#[local] Existing Instance SamplePayee.digest.
#[local] Existing Instance SampleRing.uuids.
#[local] Existing Instance SamplePayee.text.
#[local] Existing Instance SamplePayee.parse.
#[local] Existing Instance SamplePayee.sdk.
#[local] Existing Instance sample_protector.

Lemma sample_settle_exec :
  exec (rtc step) (sample_settle "s" 1700000020) sample_verify_db (Ok sample_settled) sample_settle_db.
Proof. exact (run_alone_exec_eq (rtc step) _ _ _ _ (proj1 sample_settle_alone)). Qed.
Lemma sample_settle_reachable : reachable sample_settle_db.
Proof.
  exact (reachable_steps _ _ sample_verify_reachable (settle_payment_steps _ _ _ _ _ _ _ _ sample_verify_reachable sample_settle_exec)).
Qed.
Definition sample_settle_calls : list (DB * DB) := alone_calls (sample_settle "s" 1700000020) sample_verify_db.

(** Whether a list of transactions has one that posts to the ledger. *)
Definition posts (key : string) (c : DB * DB) : bool := is_none (t_ledger (fst c) !! key) && is_some (t_ledger (snd c) !! key).
Lemma posts_settles id key calls : existsb (posts key) calls = true -> ~ left_unsettled id calls.
Proof.
  intros (c & Hin & Hc)%existsb_exists Hn. unfold left_unsettled in Hn. rewrite Forall_forall in Hn.
  unfold posts in Hc. destruct (Hn c) as [Hl _]; [by apply list_elem_of_In|]. rewrite Hl in Hc.
  by destruct (t_ledger (fst c) !! key).
Qed.
Lemma sample_settle_posts : existsb (posts "ledger-s") sample_settle_calls = true.
Proof. vm_compute. reflexivity. Qed.


(** Settling before verification is refused. *)
Lemma sample_settle_early :
  run_alone (sample_settle "s" 1700000020) sample_issue_db
  = (Err (InvalidTransition "cannot settle inbound payment in created"), sample_issue_db).
Proof. vm_compute. reflexivity. Qed.

Definition sample_refusal (q : SettlementProviderRequest) : Result Error SettlementProviderResult :=
  Err (Settlement "refused").
Lemma sample_settle_asks :
  answer_on (settle_payment (with_settle sample_refusal SamplePayee.service) (SamplePayee.ids "s") "principal-1"
               sample_settle_command 1700000020) sample_settle_calls <> Some (Ok sample_settled).
Proof. vm_compute. discriminate. Qed.

Lemma settle_asked_once_witness :
  exists e, first_event sample_settle_db "intent-p" EvSettlementRequested e /\ ev_id e = "request-s".
Proof.
  exact (proj2 (settle_asked_once sample_refusal SamplePayee.service (SamplePayee.ids "s") "principal-1"
           sample_settle_command 1700000020 sample_verify_db sample_settle_calls (Ok sample_settled) sample_settle_db
           sample_refusal SamplePayee.service (SamplePayee.ids "s") "principal-1"
           sample_settle_command 1700000020 sample_verify_db sample_settle_calls (Ok sample_settled) sample_settle_db
           sample_settle_db sample_verify_reachable sample_verify_reachable
           (alone_exec_calls (rtc step) _ _ _ _ (proj1 sample_settle_alone))
           (alone_exec_calls (rtc step) _ _ _ _ (proj1 sample_settle_alone))
           sample_settle_asks sample_settle_asks (rtc_refl _ _) (rtc_refl _ _) eq_refl)).
Defined.
