(* ===== verification/Evidence.v ===== *)
(** * Evidence for reconciliation

    [src/src/payment/evidence.rs]: a merchant's response to an outbound payment
    is stored as an untrusted locator and proven on chain before it counts; and
    [src/src/payment/recovery.rs]: what providers and chains report about an
    unresolved payment, as [ReconciliationEvidence].  The receipt source, the
    settlement providers and the protocol adapters are arguments. *)

From S2P Require Import Prelude Text Money Json Wallet Intent Policy Ledger Records Store PaymentRules Budget PaymentStore Program Authorizer Sealing SigningService X402Sdk X402Evm SettlementFacts SettlementService.

#[local] Open Scope string_scope.
#[local] Open Scope vault_scope.

(** ** Data *)

Record TransferQuery : Type := {
  tq_network : string;
  tq_transaction : string;
  tq_token_contract : string;
  tq_payer : string;
  tq_recipient : string;
  tq_amount : Amount
}.
Inductive ReceiptObservation : Type :=
| RcConfirmed (evidence : ConfirmedTransfer)
| RcPending
| RcMismatch (reason : string).

Inductive OutboundEvidenceObservation : Type :=
| OeConfirmed (authority transaction payer effect_ref : string) (confirmations minimum_confirmations : N)
    (effective_at : Z)
| OePending
| OeUnknown (reason : string)
| OeUnavailable (reason : string).

Record RecordOutboundPaymentResponse : Type := {
  rr_scenario_id : string;
  rr_run_id : string;
  rr_intent_id : string;
  rr_protocol : string;
  rr_header_name : string;
  rr_header_value : string
}.
Record RecordedOutboundEvidence : Type := {
  ro_intent : PaymentIntent;
  ro_accepted : bool;
  ro_replayed : bool
}.
Record ValidatedMerchantEvidence : Type := {
  ve_network : string;
  ve_transaction : string;
  ve_payer : string;
  ve_evidence_hash : string
}.
Record StoredMerchantResponse : Type := {
  sr_success : bool;
  sr_protocol : option string;
  sr_transaction : string;
  sr_network : string;
  sr_payer : string
}.

(** [serde_json::from_value] at [StoredMerchantResponse] *)
Definition stored_response_from_json (j : json) : option StoredMerchantResponse :=
  if known_fields ["success"; "protocol"; "transaction"; "network"; "payer"] j then
    success ← jget "success" j ≫= as_bool;
    protocol ← opt_str_field "protocol" j;
    transaction ← jget_str "transaction" j;
    network ← jget_str "network" j;
    payer ← jget_str "payer" j;
    Some {| sr_success := success; sr_protocol := protocol; sr_transaction := transaction; sr_network := network;
            sr_payer := payer |}
  else None.

(** Confirmed financial fact. *)
Record ConfirmedSettlement : Type := {
  cs_authority : string;
  cs_asset : AssetIdentity;
  cs_recipient : string;
  cs_payer : option string;
  cs_settled_amount : Amount;
  cs_posting_key : string;
  cs_tx_hash : option string;
  cs_settlement_ref : option string;
  cs_effect_ref : option string;
  cs_confirmations : N;
  cs_minimum_confirmations : N;
  cs_effective_at : Z
}.
Inductive ReconciliationEvidence : Type :=
| EvidConfirmed (evidence : ConfirmedSettlement)
| EvidVerified (verification_ref : string)
| EvidPending
| EvidExpired (reason : string)
| EvidUnknown (reason : string)
| EvidUnavailable (reason : string).

Record MerchantEvidenceRecorder : Type := {
  me_protocols : ProtocolRegistry;
  me_receipts : TransferQuery -> Result Error ReceiptObservation
}.

(** ** Commands *)

Definition MAX_MERCHANT_EVIDENCE_BYTES : N := 64 * 1024.

(** [validate_command] *)
Definition validate_response_command (c : RecordOutboundPaymentResponse) : Result Error unit :=
  validate_identifier "scenario_id" (rr_scenario_id c) ;?
  validate_identifier "run_id" (rr_run_id c) ;?
  validate_identifier "intent_id" (rr_intent_id c) ;?
  validate_identifier "protocol" (rr_protocol c) ;?
  reject_if (is_empty (rr_header_name c)
             || (64 <? str_len (rr_header_name c))%N
             || negb (bytes_all (fun b => is_ascii_alphanumeric b || (b == "-"%char)) (rr_header_name c))
             || is_empty (rr_header_value c)
             || (MAX_MERCHANT_EVIDENCE_BYTES <? str_len (rr_header_value c))%N
             || negb (bytes_all is_ascii_graphic (rr_header_value c)))
            (InvalidRequest "merchant evidence header is invalid").

(** [validate_intent_binding] *)
Definition validate_intent_binding (i : PaymentIntent) (c : RecordOutboundPaymentResponse) : Result Error unit :=
  reject_if ((pi_scenario_id i != rr_scenario_id c) || (pi_run_id i != rr_run_id c)) Forbidden ;?
  reject_if ((pi_direction i != Outbound) || (pi_protocol i != rr_protocol c))
            (InvalidTransition "merchant response protocol does not match the outbound intent") ;?
  reject_if (match pi_status i with Signed | PendingSettlement | Unknown | Settled => false | _ => true end)
            (InvalidTransition ("cannot report merchant response in " ++ status_as_str (pi_status i))).

(** ** Digests *)

Section Hashes.
Context `{Sha256}.

(** [hash_parts] *)
Definition hash_parts (parts : list string) : string := hex_encode (sha256 (frame parts)).

(** [merchant_evidence_hash] *)
Definition merchant_evidence_hash (protocol intent_id run_id network transaction payer : string) : string :=
  if protocol == "x402"
  then hash_parts ["agentvault.x402.merchant-evidence.v1"; intent_id; run_id; network; transaction; payer]
  else hash_parts ["agentvault.protocol.merchant-evidence.v1"; protocol; intent_id; run_id; network; transaction; payer].

(** [merchant_event_id] *)
Definition merchant_event_id (protocol intent_id : string) : string :=
  if protocol == "x402" then hash_parts ["agentvault.x402.merchant-event.v1"; intent_id]
  else hash_parts ["agentvault.protocol.merchant-event.v1"; protocol; intent_id].
End Hashes.

Section Recorder.
Context `{SolanaPubkey, SolanaSignature, UrlParser, UuidNonce, Sha256, JsonText, JsonParse, MaterialProtector, X402Sdk}.

(** [stored_response] *)
Definition stored_response (event : PaymentEvent) (i : PaymentIntent) : Result Error StoredMerchantResponse :=
  reject_if ((ev_intent_id event != pi_id i) || is_some (ev_tx_hash event) || is_some (ev_signature_ref event))
            (Storage "outbound merchant evidence event binding is invalid") ;?
  let? response := decode_member stored_response_from_json "merchant_response" (ev_payload event) in
  let? response := ok_or response (Storage "outbound merchant response is missing") in
  let? run_id := ok_or (jget_str "run_id" (ev_payload event))
                       (Storage "outbound merchant response run ID is missing") in
  let? evidence_hash := ok_or (jget_str "evidence_hash" (ev_payload event))
                              (Storage "outbound merchant response hash is missing") in
  let protocol := unwrap_or "x402" (sr_protocol response) in
  let expected_hash := merchant_evidence_hash protocol (pi_id i) run_id (sr_network response)
                         (sr_transaction response) (sr_payer response) in
  let is_ok_and (r : Result string string) (v : string) := match r with Ok x => x == v | Err _ => false end in
  reject_if (negb (sr_success response)
             || (run_id != pi_run_id i)
             || (protocol != pi_protocol i)
             || (sr_network response != as_network (pi_asset i))
             || negb (is_ok_and (canonical_transaction (sr_network response) (sr_transaction response))
                                (sr_transaction response))
             || negb (is_ok_and (canonicalize_payment_recipient (as_network (pi_asset i)) (sr_payer response))
                                (sr_payer response))
             || (evidence_hash != expected_hash))
            (Storage "outbound merchant response integrity check failed") ;?
  Ok response.

Variable rec : MerchantEvidenceRecorder.

(** [expected_payer_from_events] *)
Definition expected_payer_from_events (i : PaymentIntent) (challenge_event signed : PaymentEvent)
  : Result Error string :=
  let? challenge := decode_member challenge_from_json "challenge" (ev_payload challenge_event) in
  let? challenge := ok_or challenge (Storage "outbound challenge event is missing") in
  let? sealed := decode_member sealed_from_json "sealed_credential" (ev_payload signed) in
  let? sealed := ok_or sealed (Storage "outbound signed event has no sealed credential") in
  let? plaintext := mp_open (outbound_credential_context (pi_id i)) sealed in
  let? credential := ok_or (j ← json_from_slice plaintext; credential_from_json j) serde_error in
  let? adapter := registry_get (me_protocols rec) (pi_protocol i) in
  validate_payment adapter challenge i ;?
  let? fingerprint := credential_fingerprint adapter challenge credential in
  reject_if ((ev_signature_ref signed != Some fingerprint) || (cr_credential_hash credential != fingerprint))
            (PaymentConflict "durable outbound credential fingerprint is inconsistent") ;?
  let? payer := credential_payer adapter challenge credential in
  map_err (fun _ => PaymentProtocol "signed payer is invalid")
          (canonicalize_payment_recipient (as_network (pi_asset i)) payer).

(** [load_expected_payer] *)
Definition load_expected_payer (i : PaymentIntent) : Prog DB string :=
  let& challenge := await (find_for_intent_type (pi_id i) EvChallengeReceived 0) in
  let& challenge := glift (ok_or challenge (Storage "outbound challenge event is missing")) in
  let& signed := await (find_for_intent_type (pi_id i) EvSigned 0) in
  let& signed := glift (ok_or signed (Storage "outbound signed event is missing")) in
  glift (expected_payer_from_events i challenge signed).

(** [validate_merchant_evidence] *)
Definition validate_merchant_evidence (i : PaymentIntent) (c : RecordOutboundPaymentResponse)
  : Prog DB (option ValidatedMerchantEvidence) :=
  let& adapter := glift (registry_get (me_protocols rec) (pi_protocol i)) in
  glift (reject_if (is_empty (merchant_evidence_header adapter)
                    || negb (eq_ignore_ascii_case (rr_header_name c) (merchant_evidence_header adapter)))
                   (PaymentProtocol "merchant evidence header does not match the payment protocol")) ;&
  let& response := glift (decode_merchant_evidence adapter (rr_header_value c)) in
  if negb (me_accepted response) then gret None
  else
    let network := unwrap_or (as_network (pi_asset i)) (me_network response) in
    glift (reject_if (network != as_network (pi_asset i))
                     (PaymentConflict "merchant payment response network does not match the intent")) ;&
    let canonical := match me_transaction response with
                     | Some t => result_option (canonical_transaction (as_network (pi_asset i)) t)
                     | None => None
                     end in
    let& transaction := glift (ok_or canonical
                                 (PaymentProtocol "successful merchant receipt has no valid transaction")) in
    let& expected_payer := load_expected_payer i in
    let& payer := glift (match me_payer response with
                         | Some p =>
                             let? payer := map_err (fun _ => PaymentProtocol "merchant settlement payer is invalid")
                                             (canonicalize_payment_recipient (as_network (pi_asset i)) p) in
                             reject_if (payer != expected_payer)
                               (PaymentConflict
                                  "merchant payment response payer does not match the signed credential") ;?
                             Ok payer
                         | None => Ok expected_payer
                         end) in
    gret (Some {| ve_network := network; ve_transaction := transaction; ve_payer := payer;
                  ve_evidence_hash := merchant_evidence_hash (pi_protocol i) (pi_id i) (pi_run_id i) network
                                        transaction payer |}).

(** The intent, event and write of an accepted response. *)
Definition hinted_intent (i : PaymentIntent) (now : Z) : PaymentIntent :=
  let updated_at := next_timestamp (pi_updated_at i) now in
  with_progress i PendingSettlement (pi_reservation_status i) (Some updated_at) updated_at.
Definition merchant_event (i : PaymentIntent) (response : ValidatedMerchantEvidence) (at_time : Z) : PaymentEvent :=
  intent_event (merchant_event_id (pi_protocol i) (pi_id i)) i EvSubmitted None
    (jobject [("source", JString (pi_protocol i ++ "_merchant_evidence"));
              ("evidence_hash", JString (ve_evidence_hash response));
              ("run_id", JString (pi_run_id i));
              ("merchant_response",
               jobject [("success", JBool true); ("protocol", JString (pi_protocol i));
                        ("transaction", JString (ve_transaction response));
                        ("network", JString (ve_network response));
                        ("payer", JString (ve_payer response))])]) at_time.
Definition evidence_write (i : PaymentIntent) (response : ValidatedMerchantEvidence) (now : Z)
  : OutboundEvidenceWrite :=
  let pending := hinted_intent i now in
  {| ow_intent := pending; ow_expected_updated_at := pi_updated_at i; ow_evidence_hash := ve_evidence_hash response;
     ow_event := merchant_event i response (pi_updated_at pending); ow_outbox := [] |}.

(** [record_merchant_response] *)
Definition record_merchant_response (principal : string) (c : RecordOutboundPaymentResponse) (now : Z)
  : Prog DB RecordedOutboundEvidence :=
  glift (validate_response_command c) ;&
  scenario_authorize principal (rr_scenario_id c) ;&
  let& i := await (get_for_scenario (rr_scenario_id c) (rr_intent_id c)) in
  let& i := glift (ok_or i (NotFound "outbound payment intent")) in
  glift (validate_intent_binding i c) ;&
  let& response := validate_merchant_evidence i c in
  match response with
  | None => gret {| ro_intent := i; ro_accepted := false; ro_replayed := false |}
  | Some response =>
      let& stored := await (record_outbound_evidence (evidence_write i response now)) in
      gret (match stored with
            | Inserted i => {| ro_intent := i; ro_accepted := true; ro_replayed := false |}
            | Replayed i => {| ro_intent := i; ro_accepted := true; ro_replayed := true |}
            end)
  end.

(** [MerchantEvidenceRecorder::reconciliation_observation] *)
Definition outbound_observation (i : PaymentIntent) : Prog DB OutboundEvidenceObservation :=
  glift (reject_if ((pi_direction i != Outbound) || is_none (reg_adapters (me_protocols rec) !! pi_protocol i))
                   (Settlement "outbound merchant evidence received an incompatible intent")) ;&
  let& event := await (find_for_intent_type (pi_id i) EvSubmitted 0) in
  match event with
  | None => gret (OeUnavailable "merchant settlement evidence has not been durably reported")
  | Some event =>
      let& stored := glift (stored_response event i) in
      let& expected_payer := load_expected_payer i in
      if sr_payer stored != expected_payer
      then gret (OeUnknown "durable merchant payer conflicts with the signed credential")
      else
        let& token_contract := glift (ok_or (as_token_contract (pi_asset i))
                                            (Settlement "outbound intent has no token contract")) in
        let query := {| tq_network := as_network (pi_asset i); tq_transaction := sr_transaction stored;
                        tq_token_contract := token_contract; tq_payer := expected_payer;
                        tq_recipient := pi_recipient i; tq_amount := pi_amount i |} in
        let& observation := glift (me_receipts rec query) in
        gret (match observation with
              | RcConfirmed e => OeConfirmed (ct_authority e) (ct_transaction e) (tq_payer query) (ct_effect_ref e)
                                   (ct_confirmations e) (ct_minimum_confirmations e) (ct_effective_at e)
              | RcPending => OePending
              | RcMismatch reason => OeUnknown reason
              end)
  end.

(** ** Provider evidence *)

(** [ReconciliationPosting::nonempty] *)
Definition nonempty (o : option string) : option string :=
  match o with Some v => if blank v then None else Some v | None => None end.

(** [PaymentEvidenceRouter::provider_result_to_evidence] *)
Definition provider_result_to_evidence (i : PaymentIntent) (observed_at : Z) (authority : string)
    (minimum_confirmations : N) (r : SettlementProviderResult) : Result Error ReconciliationEvidence :=
  if negb (spr_valid r) then
    Ok (EvidUnknown (unwrap_or "provider could not validate the durable payment evidence" (spr_invalid_reason r)))
  else if negb (spr_settled r) then
    if pi_status i == Submitted
    then let? verification_ref := provider_verification_ref (pi_id i) r in Ok (EvidVerified verification_ref)
    else Ok EvidPending
  else
    validate_confirmed_for r i minimum_confirmations ;?
    ok_or (spr_asset r) (Settlement "provider result has no confirmed asset") ;?
    let? settled_amount := ok_or (spr_amount r) (Settlement "provider result has no confirmed amount") in
    ok_or (spr_recipient r) (Settlement "provider result has no confirmed recipient") ;?
    let tx_hash := nonempty (spr_transaction r) in
    let settlement_ref := nonempty (spr_settlement_ref r) in
    let effect_ref := nonempty (spr_effect_ref r) in
    let? posting_key :=
      map_err (fun field => Settlement ("invalid settlement posting evidence: " ++ field))
              (settlement_posting_key authority (as_network (pi_asset i)) tx_hash settlement_ref effect_ref) in
    Ok (EvidConfirmed
          {| cs_authority := authority; cs_asset := pi_asset i; cs_recipient := pi_recipient i;
             cs_payer := spr_payer r; cs_settled_amount := settled_amount; cs_posting_key := posting_key;
             cs_tx_hash := tx_hash; cs_settlement_ref := settlement_ref; cs_effect_ref := effect_ref;
             cs_confirmations := unwrap_or 0%N (spr_confirmations r);
             cs_minimum_confirmations := minimum_confirmations; cs_effective_at := observed_at |}).

(** [ReconciliationEvidenceSource for SettlementCoordinator] *)
Definition coordinator_lookup (svc : SettlementCoordinator) (i : PaymentIntent) (observed_at : Z)
  : Prog DB ReconciliationEvidence :=
  let& observation := SettlementService.reconciliation_observation svc i observed_at in
  match observation with
  | ObsObserved authority minimum_confirmations result effective_at =>
      glift (provider_result_to_evidence i (unwrap_or observed_at effective_at) authority minimum_confirmations result)
  | ObsExpired reason => gret (EvidExpired reason)
  end.

(** [ReconciliationEvidenceSource for PaymentEvidenceRouter] *)
Definition router_lookup (provider : PaymentIntent -> Z -> Prog DB ReconciliationEvidence) (i : PaymentIntent)
    (observed_at : Z) : Prog DB ReconciliationEvidence :=
  if pi_direction i != Outbound then provider i observed_at
  else
    let& observation := outbound_observation i in
    match observation with
    | OeConfirmed authority transaction payer effect_ref confirmations minimum_confirmations effective_at =>
        let& posting_key :=
          glift (map_err (fun field => Settlement ("invalid RPC settlement evidence: " ++ field))
                   (settlement_posting_key authority (as_network (pi_asset i)) (Some transaction) None
                      (Some effect_ref))) in
        gret (EvidConfirmed
                {| cs_authority := authority; cs_asset := pi_asset i; cs_recipient := pi_recipient i;
                   cs_payer := Some payer; cs_settled_amount := pi_amount i; cs_posting_key := posting_key;
                   cs_tx_hash := Some transaction; cs_settlement_ref := None; cs_effect_ref := Some effect_ref;
                   cs_confirmations := confirmations; cs_minimum_confirmations := minimum_confirmations;
                   cs_effective_at := effective_at |})
    | OePending => gret EvidPending
    | OeUnknown reason => gret (EvidUnknown reason)
    | OeUnavailable reason => gret (EvidUnavailable reason)
    end.

(** [ReconciliationEvidenceSource for VerifyOnlyProviderEvidence] *)
Definition verify_only_lookup (provider : SettlementProvider) (authority : string) (minimum_confirmations : N)
    (build : PaymentIntent -> Result Error (option SettlementProviderRequest)) (i : PaymentIntent) (observed_at : Z)
  : Result Error ReconciliationEvidence :=
  let? request := build i in
  match request with
  | None => Ok (EvidUnavailable "provider does not expose a safe reconciliation query")
  | Some request =>
      let? result := provider OpVerify request in
      provider_result_to_evidence i observed_at authority minimum_confirmations result
  end.
End Recorder.
