(* ===== verification/EvidenceSafety.v ===== *)
(** * What merchant evidence guarantees

    A merchant's response moves no money and sets no trusted field; what is
    stored reads back exactly as the transaction and payer it was validated
    with; and outbound evidence counts as confirmed only when the chain source
    confirms a transfer of the payment's own amount to its own recipient. *)

From S2P Require Import Prelude Text Money Json Wallet Intent Policy Ledger Records Store LedgerStore PaymentRules Budget PaymentStore Program Authorizer Samples IntentFlow BudgetSafety Lifecycle System AuthorizerSafety Sealing ApprovalServiceSafety SigningService X402Sdk X402Evm SettlementFacts SettlementService SigningServiceSafety SettlementSamples ChallengeSafety VerificationSafety SettlementSafety Evidence.
From stdpp Require Import relations.
From Stdlib Require Import ZifyBool.

#[local] Open Scope string_scope.
#[local] Open Scope vault_scope.

(** ** Text without white space *)

Lemma graphic_not_ws a b c :
  is_ascii_graphic a = true ->
  ws1 a = false /\ ws2 a b = false /\ ws2 b a = false /\ ws3 a b c = false /\ ws3 c b a = false.
Proof. unfold is_ascii_graphic, ws1, ws2, ws3, in_range. intros Ha. lia. Qed.
Lemma graphic_trim s : bytes_all is_ascii_graphic s = true -> trim_start s = s /\ trim_start_rev s = s.
Proof.
  destruct s as [|a s]; [done|]. simpl. intros [Ha _]%andb_true_iff.
  pose proof (fun b c => graphic_not_ws a b c Ha) as Hw. rewrite (proj1 (Hw a a)).
  destruct s as [|b [|c s]]; [done|..].
  - by destruct (Hw b a) as (_ & -> & -> & _).
  - by destruct (Hw b c) as (_ & -> & -> & -> & ->).
Qed.
Lemma bytes_all_rev f s : bytes_all f (String.rev s) = bytes_all f s.
Proof. induction s as [|c s IH]; [done|]. rewrite str_rev_cons, bytes_all_app, IH. simpl. by rewrite andb_true_r, andb_comm. Qed.
Lemma trim_graphic s : bytes_all is_ascii_graphic s = true -> trim s = s.
Proof.
  intros Hs. unfold trim, trim_end. rewrite (proj1 (graphic_trim s Hs)).
  rewrite (proj2 (graphic_trim (String.rev s) ltac:(by rewrite bytes_all_rev))). apply str_rev_involutive.
Qed.
Lemma hexdigits_graphic s : bytes_all is_ascii_hexdigit s = true -> bytes_all is_ascii_graphic s = true.
Proof.
  induction s as [|c s IH]; [done|]. simpl. intros [Hc Hs]%andb_true_iff. rewrite IH by done.
  unfold is_ascii_hexdigit, is_ascii_digit, is_ascii_graphic, in_range in *. lia.
Qed.

(** ** Canonical transactions *)

(** A Solana signature prints as base58 text that parses back. *)
Class SolanaSignatureLaws `{SolanaSignature} : Prop := {
  solsig_from_to : forall s, solsig_from_str (solsig_to_string s) = Some s;
  solsig_graphic : forall s, bytes_all is_ascii_graphic (solsig_to_string s) = true
}.

Lemma canonical_transaction_idempotent `{SolanaSignature, !SolanaSignatureLaws} network transaction canonical :
  canonical_transaction network transaction = Ok canonical ->
  canonical_transaction network canonical = Ok canonical.
Proof.
  unfold canonical_transaction. destruct (starts_with "eip155:" network).
  - destruct (Text.strip_prefix "0x" (trim transaction)) as [body|] eqn:Hp; [|done].
    destruct (_ && _) eqn:Hb; [|done]. intros [= <-]. apply andb_true_iff in Hb as [Hlen Hhex].
    apply strip_prefix_Some in Hp. rewrite Hp in *.
    assert (to_ascii_lowercase ("0x" ++ body) = "0x" ++ to_ascii_lowercase body) as -> by done.
    rewrite trim_graphic.
    + rewrite strip_prefix_app. rewrite to_ascii_lowercase_hexdigits, Hhex.
      change ("0x" ++ body) with (String "0" (String "x" body)) in Hlen.
      change ("0x" ++ to_ascii_lowercase body) with (String "0" (String "x" (to_ascii_lowercase body))).
      unfold str_len in *. simpl in *. rewrite to_ascii_lowercase_length, Hlen. simpl. by rewrite to_ascii_lowercase_idem.
    + rewrite bytes_all_app, (hexdigits_graphic (to_ascii_lowercase body)); [done|by rewrite to_ascii_lowercase_hexdigits].
  - destruct (starts_with "solana:" network); [|done]. intros Hc. run_inv.
    rewrite trim_graphic by apply solsig_graphic. rewrite solsig_from_to. simpl.
    match goal with Hd : (_ == solsig_default) = false |- _ => by rewrite Hd end.
Qed.

(** ** No money moves *)

Section Evidence.
Context `{SolanaPubkey, SolanaSignature, UrlParser, UuidNonce, Sha256, JsonText, JsonParse, MaterialProtector, X402Sdk}.

Lemma record_outbound_evidence_replayed w d i d' :
  record_outbound_evidence w d = Ok (Replayed i, d') -> d' = d.
Proof.
  unfold record_outbound_evidence, load_outbound_evidence_event. intros Hc. run_inv. intent_loads.
  match type of Hc with context [fetch_optional ?p ?m] => destruct (fetch_optional p m) end; [|by run_inv].
  case_match; by run_inv.
Qed.

Lemma record_outbound_evidence_no_money w d i d' : record_outbound_evidence w d = Ok (i, d') -> no_money d d'.
Proof.
  destruct i as [i|i]; [|by intros ->%record_outbound_evidence_replayed].
  intros (Hl & _ & _ & Hu & _)%record_outbound_evidence_inert. by split.
Qed.

Lemma record_outbound_evidence_step w d r d' : record_outbound_evidence w d = Ok (r, d') -> rtc step d d'.
Proof. intros Ha. apply rtc_once, (step_commit (OpRecordEvidence w)). simpl. by rewrite (tbind_run _ _ _ _ _ Ha). Qed.

Ltac evidence_money := repeat (money_calls; try (apply calls_in_await; intros ? ? ?; apply record_outbound_evidence_no_money)).

Lemma record_merchant_response_steps rec principal c now :
  calls_in (rtc step) (record_merchant_response rec principal c now).
Proof.
  unfold record_merchant_response, validate_merchant_evidence, load_expected_payer.
  repeat (settlement_calls; try (apply calls_in_await; intros ? ? ?; apply record_outbound_evidence_step)).
Qed.

(** A merchant's word moves no money: whatever [record_merchant_response]
    answers, an error included, as long as the others move none in between, it
    posts no ledger entry and increases the usage of no scenario and no
    wallet. *)
Lemma merchant_response_moves_no_money rec principal c now d r d' :
  exec no_money (record_merchant_response rec principal c now) d r d' -> no_money d d'.
Proof.
  apply (exec_rel no_money no_money); [done|].
  unfold record_merchant_response, scenario_authorize, client_authenticate, validate_merchant_evidence, load_expected_payer.
  evidence_money.
Qed.

(** ** What is stored reads back *)

Definition response_of (i : PaymentIntent) (v : ValidatedMerchantEvidence) : StoredMerchantResponse :=
  {| sr_success := true; sr_protocol := Some (pi_protocol i); sr_transaction := ve_transaction v;
     sr_network := ve_network v; sr_payer := ve_payer v |}.

Lemma merchant_response_json_roundtrip i v :
  stored_response_from_json
    (jobject [("success", JBool true); ("protocol", JString (pi_protocol i));
              ("transaction", JString (ve_transaction v)); ("network", JString (ve_network v));
              ("payer", JString (ve_payer v))]) = Some (response_of i v).
Proof.
  unfold stored_response_from_json. rewrite known_fields_jobject by done.
  unfold jget_str, opt_str_field. rewrite !jget_jobject. cbn [rev app entry_lookup]. decide_keys. done.
Qed.

Lemma merchant_event_payload i v at_time :
  let p := ev_payload (merchant_event i v at_time) in
  decode_member stored_response_from_json "merchant_response" p = Ok (Some (response_of i v))
  /\ jget_str "run_id" p = Some (pi_run_id i) /\ jget_str "evidence_hash" p = Some (ve_evidence_hash v).
Proof.
  intros p. unfold p, merchant_event, intent_event, decode_member, jget_str. cbn [ev_payload]. rewrite !jget_jobject.
  cbn [rev app entry_lookup]. decide_keys. by rewrite merchant_response_json_roundtrip.
Qed.

Definition evidence_for (i : PaymentIntent) (v : ValidatedMerchantEvidence) : Prop :=
  ve_network v = as_network (pi_asset i)
  /\ canonical_transaction (ve_network v) (ve_transaction v) = Ok (ve_transaction v)
  /\ canonicalize_payment_recipient (as_network (pi_asset i)) (ve_payer v) = Ok (ve_payer v)
  /\ ve_evidence_hash v
     = merchant_evidence_hash (pi_protocol i) (pi_id i) (pi_run_id i) (ve_network v) (ve_transaction v) (ve_payer v).

Lemma merchant_event_reads_back i v at_time :
  evidence_for i v -> stored_response (merchant_event i v at_time) i = Ok (response_of i v).
Proof.
  intros (Hn & Ht & Hp & Hh). unfold stored_response.
  destruct (merchant_event_payload i v at_time) as (-> & -> & ->).
  cbn [merchant_event intent_event ev_intent_id ev_tx_hash ev_signature_ref is_some ok_or rbind].
  cbn [response_of sr_protocol sr_network sr_transaction sr_payer sr_success unwrap_or].
  rewrite Ht, Hp, <- Hh, Hn, !bool_decide_true by done. done.
Qed.

Context `{!SolanaPubkeyLaws, !SolanaSignatureLaws}.

Lemma load_expected_payer_ok rec i d payer d' :
  exec (rtc step) (load_expected_payer rec i) d (Ok payer) d' ->
  rtc step d d' /\ canonicalize_payment_recipient (as_network (pi_asset i)) payer = Ok payer.
Proof.
  intros Hx. split; [eapply exec_steps, Hx; unfold load_expected_payer; settlement_calls|].
  unfold load_expected_payer in Hx. prog_inv.
  match goal with He : expected_payer_from_events _ _ _ _ = Ok _ |- _ => unfold expected_payer_from_events in He; run_inv end.
  by eapply canonicalize_payment_recipient_idempotent.
Qed.

(** The merchant's own words, decoded by the payment's adapter. *)
Definition merchant_said (rec : MerchantEvidenceRecorder) (i : PaymentIntent) (header_value transaction : string) : Prop :=
  exists adapter m t, registry_get (me_protocols rec) (pi_protocol i) = Ok adapter
    /\ decode_merchant_evidence adapter header_value = Ok m /\ me_accepted m = true
    /\ me_transaction m = Some t /\ canonical_transaction (as_network (pi_asset i)) t = Ok transaction.

Lemma validate_merchant_evidence_ok rec i c d v d' :
  exec (rtc step) (validate_merchant_evidence rec i c) d (Ok (Some v)) d' ->
  rtc step d d' /\ evidence_for i v /\ merchant_said rec i (rr_header_value c) (ve_transaction v).
Proof.
  intros Hx. unfold validate_merchant_evidence in Hx. prog_inv.
  match type of Hx with exec _ (if ?b then _ else _) _ _ _ => destruct b eqn:Hacc; [by prog_inv|] end.
  prog_inv. simplify_eq. bool_inv.
  match goal with Hl : exec _ (load_expected_payer _ _) _ _ _ |- _ => apply load_expected_payer_ok in Hl as [Hs Hpayer] end.
  match goal with Hm : match me_transaction ?m with _ => _ end = Some ?t |- _ =>
    destruct (me_transaction m) as [t0|] eqn:Ht; [|done];
    destruct (canonical_transaction _ t0) as [t1|] eqn:Hc; [|done]; injection Hm as -> end.
  split; [done|]. split; [|do 3 eexists; split_and!; eassumption].
  match goal with Hn : unwrap_or _ _ = _ |- _ => rewrite !Hn end.
  split_and!; try done; [by eapply canonical_transaction_idempotent|].
  match goal with Hp : match ?o with _ => _ end = Ok _ |- _ => destruct o; run_inv; [by bool_inv; simplify_eq|by simplify_eq] end.
Qed.

(** An accepted merchant response is on record and untrusted: when
    [record_merchant_response] first accepts a response, however other
    transactions interleave, the principal had access to the scenario; the
    payment is pending settlement with its transaction hash, settled amount and
    reservation as they were; and its first submission event reads back, for
    reconciliation, exactly the canonical form of the transaction the merchant
    named, with every integrity check of [stored_response] passing. *)
Lemma recorded_response_reads_back rec principal c now d res d' :
  reachable d -> exec (rtc step) (record_merchant_response rec principal c now) d (Ok res) d' ->
  ro_accepted res = true -> ro_replayed res = false ->
  had_access d d' principal (rr_scenario_id c)
  /\ exists d1 r e response,
       rtc step d d1 /\ t_intent d1 !! rr_intent_id c = Some r /\ pi_id (ro_intent res) = rr_intent_id c
       /\ pi_status (ro_intent res) = PendingSettlement /\ pi_reservation_status (ro_intent res) = Reserved
       /\ pi_tx_hash (ro_intent res) = pi_tx_hash (ir_intent r)
       /\ pi_settled_amount (ro_intent res) = pi_settled_amount (ir_intent r)
       /\ first_event d' (rr_intent_id c) EvSubmitted e /\ stored_response e (ro_intent res) = Ok response
       /\ merchant_said rec (ro_intent res) (rr_header_value c) (sr_transaction response).
Proof.
  intros Hr Hx Hacc Hrep. unfold record_merchant_response in Hx. prog_inv.
  match goal with Ha : exec _ (scenario_authorize _ _) _ _ _ |- _ => apply scenario_authorize_ok in Ha as [Hs1 Haccess] end.
  match goal with Hg : get_for_scenario _ _ ?s = Ok (Some ?i, _), He : rtc step _ ?s |- _ =>
    apply get_for_scenario_row in Hg as (-> & row & Hk & <- & Hsc); rename s into d1, He into Hs2 end.
  match goal with Hv : exec _ (validate_merchant_evidence _ _ _) _ (Ok ?o) _ |- _ =>
    destruct o as [v|]; [apply validate_merchant_evidence_ok in Hv as (Hs3 & Hev & Hsaid)|by prog_inv; simplify_eq] end.
  prog_inv. match goal with Ho : record_outbound_evidence _ _ = Ok (?o, _) |- _ => destruct o as [i|i]; simplify_eq; rename Ho into Hrec end.
  match type of Hrec with record_outbound_evidence _ ?s = _ => rename s into d3 end.
  assert (rtc step d d3) as Hsd by steps.
  pose proof (reachable_steps _ _ Hr (transitivity Hs1 Hs2)) as Hr1. pose proof (intent_key _ _ _ Hr1 Hk) as Hid.
  pose proof (record_outbound_evidence_step _ _ _ _ Hrec) as Hs4.
  destruct (evidence_event_after _ _ _ _ (proj1 (reachable_safe _ (reachable_steps _ _ Hr Hsd))) Hrec) as [Hload _].
  pose proof (record_outbound_evidence_shape _ _ _ _ Hrec) as (Hi & _).
  apply record_outbound_evidence_inert in Hrec as (_ & Hst & Hres & _ & r3 & Hk3 & Htx & Hset & _).
  split; [eapply had_access_later; [exact Haccess|steps]|].
  assert (pi_id i = pi_id (ir_intent row)) as Hii by (by rewrite Hi).
  exists d3, r3, (merchant_event (ir_intent row) v (pi_updated_at (hinted_intent (ir_intent row) now))), (response_of (ir_intent row) v).
  cbn [ro_intent]. rewrite <- Hid, <- Hii. split_and!; try done.
  - rewrite Hi. exact (merchant_event_reads_back _ _ _ Hev).
  - rewrite Hi. exact Hsaid.
Qed.

(** ** Outbound evidence *)

(** The chain source confirmed a transfer of the payment's own amount to its
    own recipient, in the transaction the merchant's stored response names, by
    the payer of the signed credential. *)
Definition chain_proven (rec : MerchantEvidenceRecorder) (i : PaymentIntent) (e : ConfirmedSettlement) : Prop :=
  exists d event response query confirmed,
    first_event d (pi_id i) EvSubmitted event /\ stored_response event i = Ok response
    /\ tq_network query = as_network (pi_asset i) /\ tq_transaction query = sr_transaction response
    /\ tq_payer query = sr_payer response /\ tq_recipient query = pi_recipient i /\ tq_amount query = pi_amount i
    /\ Some (tq_token_contract query) = as_token_contract (pi_asset i)
    /\ me_receipts rec query = Ok (RcConfirmed confirmed)
    /\ cs_authority e = ct_authority confirmed /\ cs_tx_hash e = Some (ct_transaction confirmed)
    /\ cs_confirmations e = ct_confirmations confirmed
    /\ cs_minimum_confirmations e = ct_minimum_confirmations confirmed.

Lemma outbound_observation_steps rec i : calls_in (rtc step) (outbound_observation rec i).
Proof. unfold outbound_observation, load_expected_payer. settlement_calls. Qed.

Lemma router_lookup_outbound rec provider i now d e d' :
  pi_direction i = Outbound -> exec (rtc step) (router_lookup rec provider i now) d (Ok (EvidConfirmed e)) d' ->
  rtc step d d' /\ chain_proven rec i e.
Proof.
  intros Hout Hx. unfold router_lookup in Hx. rewrite Hout, bool_decide_true in Hx by done. cbn [negb] in Hx. prog_inv.
  match goal with Ho : exec _ (outbound_observation _ _) _ (Ok ?o) ?s |- _ =>
    destruct o; prog_inv; simplify_eq;
    assert (rtc step d s) as Hs by (by eapply exec_steps, Ho; apply outbound_observation_steps);
    rename Ho into Hobs end.
  split; [done|]. unfold outbound_observation in Hobs. prog_inv.
  match goal with Hf : find_for_intent_type _ _ _ ?s = Ok (?o, _) |- _ =>
    pose proof (read_only _ _ _ Hf) as ->; destruct o as [event|]; [|by prog_inv; simplify_eq]; rename Hf into Hfe end.
  prog_inv.
  match goal with Hx : exec _ (if ?b then _ else _) _ _ _ |- _ => destruct b eqn:Hp; [by prog_inv; simplify_eq|] end.
  prog_inv. bool_inv.
  match goal with Hm : _ = match ?o with _ => _ end |- _ => destruct o; simplify_eq end.
  do 5 eexists. split_and!; try eassumption; try done. all: cbn; congruence.
Qed.
End Evidence.

(** ** A merchant answers the sample payment *)

Module SampleMerchant.
Definition transaction_id : string := "0xfeedfeedfeedfeedfeedfeedfeedfeedfeedfeedfeedfeedfeedfeedfeedfeed".
(** The sample adapter, with credentials identified by their own hash. *)
Definition x402 : PaymentProtocolAdapter :=
  let base := SampleRequest.x402 in
  {| adapter_name := adapter_name base; decode_http_challenge := decode_http_challenge base;
     encode_http_credential := encode_http_credential base; parse_challenge := parse_challenge base;
     merchant_evidence_header := merchant_evidence_header base;
     decode_merchant_evidence := decode_merchant_evidence base; credential_payer := credential_payer base;
     validate_payment := validate_payment base; prepare_signing := prepare_signing base;
     complete_signing := complete_signing base; build_challenge := build_challenge base;
     verify_credential := verify_credential base;
     credential_fingerprint := fun _ credential => Ok (cr_credential_hash credential);
     protocol_settlement := protocol_settlement base |}.
Definition registry : ProtocolRegistry := {| reg_adapters := {["x402" := x402]}; reg_priority := ["x402"] |}.
(** A chain on which the transaction is confirmed. *)
Definition receipts (q : TransferQuery) : Result Error ReceiptObservation :=
  if tq_transaction q == transaction_id
  then Ok (RcConfirmed {| ct_authority := "evm-rpc"; ct_transaction := transaction_id; ct_effect_ref := "0";
                          ct_confirmations := 12; ct_minimum_confirmations := 6; ct_effective_at := 1700000030 |})
  else Ok RcPending.
Definition recorder : MerchantEvidenceRecorder := {| me_protocols := registry; me_receipts := receipts |}.
Definition response : RecordOutboundPaymentResponse :=
  {| rr_scenario_id := "scenario-1"; rr_run_id := "run-a"; rr_intent_id := "intent-a"; rr_protocol := "x402";
     rr_header_name := "PAYMENT-RESPONSE"; rr_header_value := transaction_id |}.
End SampleMerchant.

(** A signature codec with one signature. *)
Definition sample_base58 : SolanaSignature :=
  {| SolSig := unit; SolSig_eq_dec := _; solsig_from_str := fun s => if s == "1" then Some tt else None;
     solsig_to_string := fun _ => "1"; solsig_default := tt |}.
#[local] Existing Instance Sample.codec.
#[local] Existing Instance Sample.parser.
#[local] Existing Instance sample_base58.
#[local] Instance sample_base58_laws : SolanaSignatureLaws.
Proof. split; [by intros []|done]. Qed.
#[local] Instance sample_codec_laws : SolanaPubkeyLaws.
Proof. apply SampleSolana.laws. Qed.
#[local] Existing Instance SamplePayee.digest.
#[local] Existing Instance SampleRing.uuids.
#[local] Existing Instance SampleSigner.text.
#[local] Existing Instance SampleSigner.parse.
#[local] Existing Instance SamplePayee.sdk.
#[local] Existing Instance sample_protector.

Notation sample_respond now := (record_merchant_response SampleMerchant.recorder "principal-1" SampleMerchant.response now).
Definition sample_hint_db : DB := snd (run_alone (sample_respond 1700000020) sample_sign_db).
Definition sample_hint : RecordedOutboundEvidence :=
  match fst (run_alone (sample_respond 1700000020) sample_sign_db) with
  | Ok r => r
  | Err _ => {| ro_intent := Sample.intent; ro_accepted := false; ro_replayed := false |}
  end.
Lemma sample_respond_alone :
  run_alone (sample_respond 1700000020) sample_sign_db = (Ok sample_hint, sample_hint_db)
  /\ ro_accepted sample_hint = true /\ ro_replayed sample_hint = false.
Proof. split_and!; vm_compute; reflexivity. Qed.
Lemma sample_respond_exec : exec (rtc step) (sample_respond 1700000020) sample_sign_db (Ok sample_hint) sample_hint_db.
Proof. exact (run_alone_exec_eq (rtc step) _ _ _ _ (proj1 sample_respond_alone)). Qed.
Lemma sample_hint_reachable : reachable sample_hint_db.
Proof.
  eapply reachable_steps; [exact sample_sign_reachable|].
  exact (exec_steps _ _ _ _ (record_merchant_response_steps _ _ _ _) sample_respond_exec).
Qed.
