(* ===== verification/EvmReceipts.v ===== *)
(** * Chain receipts

    [src/src/payment/receipt/mod.rs], [receipt/evm.rs] and the JSON-RPC client
    of [src/src/utils/evm_client.rs]: what the vault asks a chain node, and
    what it accepts as evidence that a transfer happened or did not.

    A node answers over HTTP and may answer differently every time; the class
    [EvmNode] is its answer to the [n]-th request of a run, and the state of a
    [Proc] counts the requests. *)

From S2P Require Import Prelude Text Money Json Ledger SigningService X402Sdk SettlementFacts Evidence.

#[local] Open Scope string_scope.
#[local] Open Scope vault_scope.

(** ** The JSON-RPC client *)

(** A response as it is streamed: the status, the announced length and the
    chunks, of which one may fail. *)
Record HttpResponse : Type := {
  hr_status : N;
  hr_content_length : option N;
  hr_chunks : list (Result Error string)
}.
Class EvmNode : Type := { post : nat -> json -> Result Error HttpResponse }.

(** [FixedEvmRpcClient::bounded_body] *)
Definition append_chunk (maximum : N) (body : string) (chunk : Result Error string) : Result Error string :=
  let? chunk := chunk in
  let length := (str_len body + str_len chunk)%N in
  reject_if ((U64_MAX <? length)%N || (maximum <? length)%N) (Settlement "EVM RPC response is too large") ;?
  Ok (body ++ chunk).
Definition bounded_body (response : HttpResponse) (maximum : N) : Result Error string :=
  reject_if (is_some_and (fun length => (maximum <? length)%N) (hr_content_length response))
            (Settlement "EVM RPC response is too large") ;?
  rfold (append_chunk maximum) "" (hr_chunks response).

(** *** Derived deserializers

    [serde] reads a struct from an object by name, ignoring other members, or
    from an array by position. *)
Inductive StructForm : Type := FromMap (m : list (string * json)) | FromSeq (l : list json).
Definition struct_form (fields : nat) (j : json) : option StructForm :=
  match j with
  | JObject m => Some (FromMap m)
  | JArray l => if (length l <=? fields)%nat then Some (FromSeq l) else None
  | _ => None
  end.
Definition member (f : StructForm) (index : nat) (name : string) : option json :=
  match f with FromMap m => entry_lookup name m | FromSeq l => nth_error l index end.
Definition required_member {A} (decode : json -> option A) (f : StructForm) (index : nat) (name : string) : option A :=
  member f index name ≫= decode.
(** [Option<T>]: absent from an object is [None], absent from an array is an error *)
Definition optional {A} (decode : json -> option A) (f : StructForm) (index : nat) (name : string) : option (option A) :=
  match member f index name with
  | Some JNull => Some None
  | Some j => Some <$> decode j
  | None => match f with FromMap _ => Some None | FromSeq _ => None end
  end.
(** [#[serde(default)]] *)
Definition defaulted {A} (decode : json -> option A) (default : A) (f : StructForm) (index : nat) (name : string)
  : option A :=
  match member f index name with Some j => decode j | None => Some default end.
Fixpoint decode_all {A} (decode : json -> option A) (l : list json) : option (list A) :=
  match l with
  | [] => Some []
  | j :: rest => x ← decode j; xs ← decode_all decode rest; Some (x :: xs)
  end.
Definition as_list {A} (decode : json -> option A) (j : json) : option (list A) :=
  match j with JArray l => decode_all decode l | _ => None end.

Record RpcResponse : Type := {
  rp_jsonrpc : string;
  rp_id : json;
  rp_result : option json;
  rp_error : option json
}.
(** [serde_json::from_slice] at [RpcResponse] *)
Class RpcText : Type := { rpc_response_from_slice : string -> option RpcResponse }.

Section Client.
Context `{EvmNode, RpcText}.

(** [FixedEvmRpcClient::request] *)
Definition evm_request (max_response_bytes : N) (method : string) (params : json) : Proc nat json :=
  plift (reject_if (is_empty method || (128 <? str_len method)%N
                    || negb (bytes_all (fun c => is_ascii_alphanumeric c || (byte_of c =? 95)%N) method))
                   (Settlement "EVM RPC method is invalid")) ;!
  let! response := (fun n => (post n (jobject [("jsonrpc", JString "2.0"); ("id", JNumber 1);
                                               ("method", JString method); ("params", params)]), S n)) in
  plift (reject_if (negb (in_range 200 299 (hr_status response)))
                   (Settlement ("EVM RPC returned HTTP " ++ show_unsigned (hr_status response)))) ;!
  let! body := plift (bounded_body response max_response_bytes) in
  let! envelope := plift (ok_or (rpc_response_from_slice body)
                                (Settlement "EVM RPC returned invalid JSON")) in
  plift (reject_if ((rp_jsonrpc envelope != "2.0") || (rp_id envelope != JNumber 1))
                   (Settlement "EVM RPC response does not match the request")) ;!
  plift (reject_if (is_some (rp_error envelope)) (Settlement "EVM RPC returned an error")) ;!
  pret (unwrap_or JNull (rp_result envelope)).
End Client.

(** ** Wire records *)

Record RpcLog : Type := {
  rl_address : string;
  rl_topics : list string;
  rl_data : string;
  rl_log_index : option string;
  rl_transaction_hash : option string;
  rl_block_hash : option string;
  rl_block_number : option string;
  rl_removed : bool
}.
Record RpcReceipt : Type := {
  rx_transaction_hash : string;
  rx_block_hash : option string;
  rx_block_number : option string;
  rx_status : option string;
  rx_logs : list RpcLog
}.
Record RpcBlock : Type := { rb_hash : string; rb_number : string; rb_timestamp : string }.

Definition rpc_log_from_value (j : json) : option RpcLog :=
  f ← struct_form 8 j;
  address ← required_member as_str f 0 "address";
  topics ← defaulted (as_list as_str) [] f 1 "topics";
  data ← required_member as_str f 2 "data";
  log_index ← optional as_str f 3 "logIndex";
  transaction_hash ← optional as_str f 4 "transactionHash";
  block_hash ← optional as_str f 5 "blockHash";
  block_number ← optional as_str f 6 "blockNumber";
  removed ← defaulted as_bool false f 7 "removed";
  Some {| rl_address := address; rl_topics := topics; rl_data := data; rl_log_index := log_index;
          rl_transaction_hash := transaction_hash; rl_block_hash := block_hash; rl_block_number := block_number;
          rl_removed := removed |}.
Definition rpc_receipt_from_value (j : json) : option RpcReceipt :=
  f ← struct_form 5 j;
  transaction_hash ← required_member as_str f 0 "transactionHash";
  block_hash ← optional as_str f 1 "blockHash";
  block_number ← optional as_str f 2 "blockNumber";
  status ← optional as_str f 3 "status";
  logs ← defaulted (as_list rpc_log_from_value) [] f 4 "logs";
  Some {| rx_transaction_hash := transaction_hash; rx_block_hash := block_hash; rx_block_number := block_number;
          rx_status := status; rx_logs := logs |}.
Definition rpc_block_from_value (j : json) : option RpcBlock :=
  f ← struct_form 3 j;
  hash ← required_member as_str f 0 "hash";
  number ← required_member as_str f 1 "number";
  timestamp ← required_member as_str f 2 "timestamp";
  Some {| rb_hash := hash; rb_number := number; rb_timestamp := timestamp |}.

(** ** Hexadecimal text *)

(** [0x] and as many hexadecimal digits as the length asks for *)
Definition hex_text (length : N) (value : string) : bool :=
  (str_len value =? length)%N
  && is_some_and (bytes_all is_ascii_hexdigit) (Text.strip_prefix "0x" value).
Definition valid_hash (value : string) : bool := hex_text 66 value.
Definition receipt_valid_address (value : string) : bool := hex_text 42 value.

Definition hex_value (c : ascii) : N :=
  if is_ascii_digit c then byte_of c - 48
  else if in_range 97 102 (byte_of c) then byte_of c - 87 else byte_of c - 55.
(** [from_str_radix(.., 16)] of hexadecimal digits *)
Fixpoint parse_hex_digits (max acc : N) (s : string) : option N :=
  match s with
  | "" => Some acc
  | String c rest =>
      if (16 * acc + hex_value c <=? max)%N then parse_hex_digits max (16 * acc + hex_value c) rest else None
  end.

Definition parse_hex (value : string) : Result Error string :=
  match Text.strip_prefix "0x" value with
  | Some digits =>
      reject_if (is_empty digits || negb (bytes_all is_ascii_hexdigit digits)
                 || ((digits != "0") && Text.starts_with "0" digits))
                (Settlement "EVM hex quantity is invalid") ;?
      Ok digits
  | None => Err (Settlement "EVM hex quantity is invalid")
  end.
Definition parse_hex_u64 (value : string) : Result Error N :=
  let? digits := parse_hex value in
  ok_or (parse_hex_digits U64_MAX 0 digits) (Settlement "EVM hex quantity is too large").
Definition parse_hex_u128 (value : string) : Result Error N :=
  let? digits := parse_hex value in
  ok_or (parse_hex_digits U128_MAX 0 digits) (Settlement "EVM hex quantity is too large").
Definition parse_hex_u64_option (value : string) : option N :=
  match parse_hex_u64 value with Ok n => Some n | Err _ => None end.

Fixpoint show_hex_digits (fuel : nat) (n : N) (acc : string) : string :=
  match fuel with
  | O => acc
  | S fuel' =>
      let acc' := String (hex_digit (n mod 16)) acc in
      if (n <? 16)%N then acc' else show_hex_digits fuel' (n / 16) acc'
  end.
(** [format!("0x{value:x}")]; every digit consumes a binary digit. *)
Definition hex_quantity (value : N) : string := "0x" ++ show_hex_digits (S (N.size_nat value)) value "".

Fixpoint zeros (n : nat) : string := match n with O => "" | S n' => String "0" (zeros n') end.
Definition all_zeros (s : string) : bool := bytes_all (fun c => c == "0"%char) s.

Definition topic_address (value : string) : Result Error string :=
  reject_if (negb (hex_text 66 value) || negb (all_zeros (String.substring 2 24 value)))
            (Settlement "ERC-20 Transfer address topic is invalid") ;?
  Ok ("0x" ++ to_ascii_lowercase (String.substring 26 40 value)).
Definition data_amount (value : string) : Result Error Amount :=
  reject_if (negb (hex_text 66 value) || negb (all_zeros (String.substring 2 32 value)))
            (Settlement "ERC-20 Transfer amount is invalid") ;?
  ok_or (parse_hex_digits U128_MAX 0 (String.substring 34 32 value))
        (Settlement "ERC-20 Transfer amount is invalid").
Definition address_topic (address : string) : Result Error string :=
  reject_if (negb (receipt_valid_address address)) (Settlement "EVM address topic is invalid") ;?
  Ok ("0x" ++ zeros 24 ++ to_ascii_lowercase (String.substring 2 40 address)).

(** ** Queries and logs *)

Definition ERC20_TRANSFER_TOPIC : string := "0xddf252ad1be2c89b69c2b068fc378daa952ba7f163c4a11628f55a4df523b3ef".
Definition MAX_AUTHORIZATION_LOG_RANGE : N := 2000.
Definition MAX_AUTHORIZATION_RECOVERY_BLOCKS : N := 65536.

(** [EvmRpcReceiptSource::validate_network] *)
Definition receipt_validate_network (network : string) : Result string N :=
  match Text.strip_prefix "eip155:" network with
  | Some chain =>
      if negb (is_empty chain) && bytes_all is_ascii_digit chain
      then ok_or (parse_unsigned U128_MAX chain) "EVM receipt chain ID is invalid"
      else Err "EVM receipt network is invalid"
  | None => Err "EVM receipt network is invalid"
  end.

Definition validate_query (q : TransferQuery) (expected_network : string) : Result Error unit :=
  reject_if ((tq_network q != expected_network) || negb (valid_hash (tq_transaction q))
             || negb (receipt_valid_address (tq_token_contract q)) || negb (receipt_valid_address (tq_payer q))
             || negb (receipt_valid_address (tq_recipient q)) || Amount.is_zero (tq_amount q))
            (Settlement "EVM transfer evidence query is invalid").
Definition validate_authorization_query (q : EvmAuthorizationQuery) (expected_network : string) : Result Error unit :=
  reject_if ((aq_network q != expected_network) || negb (receipt_valid_address (aq_token_contract q))
             || negb (receipt_valid_address (aq_payer q)) || negb (valid_hash (aq_nonce q))
             || negb (receipt_valid_address (aq_recipient q)) || Amount.is_zero (aq_amount q))
            (Settlement "EVM authorization evidence query is invalid").

Record MatchedTransfer : Type := { mt_log_index : string; mt_block_hash : string; mt_block_number : string }.
Inductive TransferMatch : Type := TmFound (m : MatchedTransfer) | TmRemoved | TmMissing | TmAmbiguous.

(** The log is of this contract and has this first topic. *)
Definition log_of (l : RpcLog) (contract topic : string) : bool :=
  eq_ignore_ascii_case (rl_address l) contract
  && match rl_topics l with t :: _ => eq_ignore_ascii_case t topic | [] => false end.

(** One log of [exact_transfer]: whether a removed one and which others matched *)
Definition match_transfer (q : TransferQuery) (acc : bool * list MatchedTransfer) (l : RpcLog)
  : Result Error (bool * list MatchedTransfer) :=
  if negb (log_of l (tq_token_contract q) ERC20_TRANSFER_TOPIC) then Ok acc else
  match rl_topics l with
  | [_; t1; t2] =>
      let? payer := topic_address t1 in
      let? recipient := topic_address t2 in
      let? amount := data_amount (rl_data l) in
      if negb (eq_ignore_ascii_case payer (tq_payer q)) || negb (eq_ignore_ascii_case recipient (tq_recipient q))
         || (amount != tq_amount q)
      then Ok acc
      else if rl_removed l then Ok (true, snd acc)
      else
        let? log_index := ok_or (rl_log_index l) (Settlement "Transfer log index is missing") in
        let? transaction_hash := ok_or (rl_transaction_hash l) (Settlement "Transfer transaction hash is missing") in
        let? block_hash := ok_or (rl_block_hash l) (Settlement "Transfer block hash is missing") in
        let? block_number := ok_or (rl_block_number l) (Settlement "Transfer block number is missing") in
        reject_if (negb (eq_ignore_ascii_case transaction_hash (tq_transaction q)))
                  (Settlement "Transfer log belongs to another transaction") ;?
        parse_hex_u64 log_index ;?
        Ok (fst acc, (snd acc ++ [{| mt_log_index := log_index; mt_block_hash := block_hash;
                                     mt_block_number := block_number |}])%list)
  | _ => Err (Settlement "token receipt contains a malformed Transfer log")
  end.
Definition exact_transfer (r : RpcReceipt) (q : TransferQuery) : Result Error TransferMatch :=
  let? found := rfold (match_transfer q) (false, []) (rx_logs r) in
  Ok match snd found with
     | [] => if (fst found : bool) then TmRemoved else TmMissing
     | [m] => TmFound m
     | _ => TmAmbiguous
     end.

Section Authorizations.
Context `{EvmCrypto}.

Definition authorization_used_topic : string := "0x" ++ hex_encode (keccak256 "AuthorizationUsed(address,bytes32)").

Definition authorization_log_matches (l : RpcLog) (q : EvmAuthorizationQuery) : Result Error bool :=
  if negb (log_of l (aq_token_contract q) authorization_used_topic) then Ok false else
  match rl_topics l with
  | [_; t1; t2] =>
      let? payer := topic_address t1 in
      reject_if (negb (valid_hash t2)) (Settlement "AuthorizationUsed nonce topic is invalid") ;?
      Ok (eq_ignore_ascii_case payer (aq_payer q) && eq_ignore_ascii_case t2 (aq_nonce q))
  | _ => Err (Settlement "token receipt contains a malformed AuthorizationUsed log")
  end.

Definition collect_transaction (q : EvmAuthorizationQuery) (transactions : list string) (l : RpcLog)
  : Result Error (list string) :=
  let? matches := authorization_log_matches l q in
  if negb matches || rl_removed l then Ok transactions else
  let? transaction := ok_or (rl_transaction_hash l) (Settlement "AuthorizationUsed transaction hash is missing") in
  reject_if (negb (valid_hash transaction)) (Settlement "AuthorizationUsed transaction hash is invalid") ;?
  Ok (if existsb (fun seen => eq_ignore_ascii_case seen transaction) transactions then transactions
      else (transactions ++ [to_ascii_lowercase transaction])%list).
Definition authorization_transactions (logs : list RpcLog) (q : EvmAuthorizationQuery) : Result Error (list string) :=
  rfold (collect_transaction q) [] logs.

(** The counter is a saturating [u8]. *)
Definition count_authorization (r : RpcReceipt) (q : EvmAuthorizationQuery) (matched : N) (l : RpcLog) : Result Error N :=
  let? matches := authorization_log_matches l q in
  if matches && negb (rl_removed l) then
    reject_if (negb (is_some_and (fun t => eq_ignore_ascii_case t (rx_transaction_hash r)) (rl_transaction_hash l)))
              (Settlement "AuthorizationUsed log belongs to another transaction") ;?
    Ok (N.min 255 (matched + 1))
  else Ok matched.
Definition receipt_contains_authorization (r : RpcReceipt) (q : EvmAuthorizationQuery) : Result Error bool :=
  let? matched := rfold (count_authorization r q) 0%N (rx_logs r) in
  Ok (matched =? 1)%N.
End Authorizations.

(** ** Block ranges *)

Definition u64_saturating_add (a b : N) : N := N.min U64_MAX (a + b).

(** The loop of [bounded_log_ranges]. *)
Fixpoint log_ranges (fuel : nat) (cursor to_block : N) : list (N * N) :=
  match fuel with
  | O => []
  | S fuel' =>
      let end_ := N.min (u64_saturating_add cursor (MAX_AUTHORIZATION_LOG_RANGE - 1)) to_block in
      (cursor, end_) :: (if (end_ =? to_block)%N then [] else log_ranges fuel' (u64_saturating_add end_ 1) to_block)
  end.
(** The passes that the longest admitted window needs. *)
Definition LOG_RANGE_PASSES : nat :=
  N.to_nat (MAX_AUTHORIZATION_RECOVERY_BLOCKS / MAX_AUTHORIZATION_LOG_RANGE + 1).
Definition bounded_log_ranges (from_block to_block : N) : Result Error (list (N * N)) :=
  if (to_block <? from_block)%N then Ok [] else
  reject_if (U64_MAX <? to_block - from_block + 1)%N
            (Settlement "EVM authorization recovery block range overflowed") ;?
  reject_if (MAX_AUTHORIZATION_RECOVERY_BLOCKS <? to_block - from_block + 1)%N
            (Settlement ("EVM authorization recovery exceeds the bounded "
                         ++ show_unsigned MAX_AUTHORIZATION_RECOVERY_BLOCKS ++ "-block window")) ;?
  Ok (log_ranges LOG_RANGE_PASSES from_block to_block).

Definition confirmed_through_block (latest minimum_confirmations : N) : option N :=
  if (latest =? U64_MAX)%N then None
  else let depth := N.max minimum_confirmations 1 in
       if (depth <=? latest + 1)%N then Some (latest + 1 - depth)%N else None.

(** ** The source of one network *)

(** The RPC client is its response limit. *)
Record EvmRpcReceiptSource : Type := {
  es_network : string;
  es_chain_id : N;
  es_authority : string;
  es_minimum_confirmations : N;
  es_max_response_bytes : N
}.
(** [EvmRpcReceiptSource::new], after the client was built *)
Definition evm_source_new (network : string) (minimum_confirmations max_response_bytes : N)
  : Result Error EvmRpcReceiptSource :=
  let? chain_id := map_err Config (receipt_validate_network network) in
  reject_if (10000 <? minimum_confirmations)%N (Config "EVM receipt confirmation threshold is invalid") ;?
  Ok {| es_network := network; es_chain_id := chain_id; es_authority := "evm-rpc:" ++ network;
        es_minimum_confirmations := minimum_confirmations; es_max_response_bytes := max_response_bytes |}.

Definition mismatch (reason : string) : ReceiptObservation := RcMismatch reason.
(** A quantity that a node answers as text *)
Definition quantity {A} (parse : string -> Result Error A) (missing : string) (v : json) : Result Error A :=
  let? text := ok_or (as_str v) (Settlement missing) in parse text.
Definition effective_time (timestamp : N) : Result Error Z :=
  reject_if (negb (i64_in_range (Z.of_N timestamp))) (Settlement "EVM block timestamp exceeds the supported range") ;?
  Ok (Z.of_N timestamp).

Section Source.
Context `{EvmNode, RpcText, EvmCrypto}.
Variable src : EvmRpcReceiptSource.

Definition request : string -> json -> Proc nat json := evm_request (es_max_response_bytes src).

Definition load_evm_receipt (transaction : string) : Proc nat (option RpcReceipt) :=
  let! value := request "eth_getTransactionReceipt" (JArray [JString transaction]) in
  if value == JNull then pret None
  else let! receipt := plift (ok_or (rpc_receipt_from_value value)
                                    (Settlement "EVM RPC returned a malformed transaction receipt")) in
       pret (Some receipt).
Definition canonical_block (block_number : string) : Proc nat (option RpcBlock) :=
  let! value := request "eth_getBlockByNumber" (JArray [JString block_number; JBool false]) in
  if value == JNull then pret None
  else let! block := plift (ok_or (rpc_block_from_value value) (Settlement "EVM RPC returned a malformed block")) in
       pret (Some block).
Definition observed_chain : Proc nat N :=
  let! value := request "eth_chainId" (JArray []) in
  plift (quantity parse_hex_u128 "EVM RPC chain ID is missing" value).
Definition latest_number : Proc nat N :=
  let! value := request "eth_blockNumber" (JArray []) in
  plift (quantity parse_hex_u64 "EVM RPC latest block number is missing" value).
Definition validated_latest_block : Proc nat N :=
  let! chain := observed_chain in
  plift (reject_if (chain != es_chain_id src)
                   (Settlement "RPC chain ID does not match the configured payment network")) ;!
  latest_number.

(** The part of [lookup] after one exact transfer was found *)
Definition confirm_transfer (q : TransferQuery) (block_number_wire block_hash : string) (block_number : N)
    (transfer : MatchedTransfer) : Proc nat ReceiptObservation :=
  let! latest := latest_number in
  if (latest <? block_number)%N then pret RcPending else
  let confirmations := u64_saturating_add (latest - block_number) 1 in
  let! found := canonical_block block_number_wire in
  match found with
  | None => pret RcPending
  | Some block =>
      if negb (eq_ignore_ascii_case (rb_hash block) block_hash) then pret RcPending else
      let! number := plift (parse_hex_u64 (rb_number block)) in
      if (number != block_number) || negb (eq_ignore_ascii_case (mt_block_hash transfer) block_hash)
      then pret RcPending else
      let! log_block := plift (parse_hex_u64 (mt_block_number transfer)) in
      if log_block != block_number then pret RcPending else
      if (confirmations <? es_minimum_confirmations src)%N then pret RcPending else
      let! timestamp := plift (parse_hex_u64 (rb_timestamp block)) in
      let! effective_at := plift (effective_time timestamp) in
      let! log_index := plift (parse_hex_u64 (mt_log_index transfer)) in
      pret (RcConfirmed {| ct_authority := es_authority src; ct_transaction := tq_transaction q;
                           ct_effect_ref := "log:" ++ show_unsigned log_index; ct_confirmations := confirmations;
                           ct_minimum_confirmations := es_minimum_confirmations src; ct_effective_at := effective_at |})
  end.

(** [ReceiptSource::lookup] *)
Definition evm_lookup (q : TransferQuery) : Proc nat ReceiptObservation :=
  plift (validate_query q (es_network src)) ;!
  let! chain := observed_chain in
  if chain != es_chain_id src then pret (mismatch "RPC chain ID does not match the payment network") else
  let! found := load_evm_receipt (tq_transaction q) in
  match found with
  | None => pret RcPending
  | Some receipt =>
      if negb (eq_ignore_ascii_case (rx_transaction_hash receipt) (tq_transaction q))
      then pret (mismatch "receipt transaction hash does not match the merchant hint")
      else if (rx_status receipt ≫= parse_hex_u64_option) != Some 1%N
      then pret (mismatch "payment transaction is not successful")
      else
        match rx_block_number receipt, rx_block_hash receipt with
        | Some block_number_wire, Some block_hash =>
            let! block_number := plift (parse_hex_u64 block_number_wire) in
            let! matched := plift (exact_transfer receipt q) in
            match matched with
            | TmFound transfer => confirm_transfer q block_number_wire block_hash block_number transfer
            | TmRemoved => pret RcPending
            | TmMissing => pret (mismatch "receipt has no exact ERC-20 Transfer effect")
            | TmAmbiguous => pret (mismatch "receipt contains ambiguous exact Transfer effects")
            end
        | _, _ => pret RcPending
        end
  end.

(** [EvmAuthorizationSource::latest_block] *)
Definition evm_latest_block (network : string) : Proc nat N :=
  plift (reject_if (network != es_network src) (Settlement "EVM authorization checkpoint network is invalid")) ;!
  validated_latest_block.

(** One [eth_getLogs] request *)
Definition log_batch (q : EvmAuthorizationQuery) (payer_topic : string) (logs : list RpcLog) (range : N * N)
  : Proc nat (list RpcLog) :=
  let! value := request "eth_getLogs"
    (JArray [jobject [("fromBlock", JString (hex_quantity (fst range))); ("toBlock", JString (hex_quantity (snd range)));
                      ("address", JString (aq_token_contract q));
                      ("topics", JArray [JString authorization_used_topic; JString payer_topic; JString (aq_nonce q)])]]) in
  let! batch := plift (ok_or (as_list rpc_log_from_value value)
                             (Settlement "EVM RPC returned malformed AuthorizationUsed logs")) in
  pret (logs ++ batch)%list.

(** The answer when no log spends the authorization *)
Definition no_effect (confirmed_through : N) : Proc nat EvmAuthorizationObservation :=
  let! found := canonical_block (hex_quantity confirmed_through) in
  let! block := plift (ok_or found (Settlement "EVM RPC confirmed canonical block is unavailable")) in
  let! number := plift (parse_hex_u64 (rb_number block)) in
  plift (reject_if (number != confirmed_through)
                   (Settlement "EVM RPC confirmed canonical block does not match the requested height")) ;!
  let! timestamp := plift (parse_hex_u64 (rb_timestamp block)) in
  let! observed_at := plift (effective_time timestamp) in
  pret (AuthNoEffect confirmed_through observed_at).

Definition transfer_of (q : EvmAuthorizationQuery) (transaction : string) : TransferQuery :=
  {| tq_network := aq_network q; tq_transaction := transaction; tq_token_contract := aq_token_contract q;
     tq_payer := aq_payer q; tq_recipient := aq_recipient q; tq_amount := aq_amount q |}.
(** The answer when one transaction spends it *)
Definition spent_by (q : EvmAuthorizationQuery) (transaction : string) : Proc nat EvmAuthorizationObservation :=
  let! observation := evm_lookup (transfer_of q transaction) in
  match observation with
  | RcPending => pret AuthPending
  | RcMismatch reason => pret (AuthMismatch reason)
  | RcConfirmed evidence =>
      let! found := load_evm_receipt transaction in
      let! receipt := plift (ok_or found (Settlement "confirmed authorization receipt disappeared")) in
      let! contained := plift (receipt_contains_authorization receipt q) in
      pret (if (contained : bool) then AuthConfirmed evidence
            else AuthMismatch "settlement receipt does not contain the expected AuthorizationUsed event")
  end.

(** [EvmAuthorizationSource::lookup_authorization] *)
Definition evm_lookup_authorization (q : EvmAuthorizationQuery) : Proc nat EvmAuthorizationObservation :=
  plift (validate_authorization_query q (es_network src)) ;!
  let! latest := validated_latest_block in
  match confirmed_through_block latest (es_minimum_confirmations src) with
  | None => pret AuthPending
  | Some confirmed_through =>
      if (confirmed_through <? aq_from_block q)%N then pret AuthPending else
      let! payer_topic := plift (address_topic (aq_payer q)) in
      let! ranges := plift (bounded_log_ranges (aq_from_block q) confirmed_through) in
      let! logs := pfold (log_batch q payer_topic) [] ranges in
      let! candidates := plift (authorization_transactions logs q) in
      match candidates with
      | [] => no_effect confirmed_through
      | [transaction] => spent_by q transaction
      | _ => pret (AuthMismatch "authorization nonce has ambiguous on-chain events")
      end
  end.
End Source.

(** ** [ReceiptRegistry] *)

(** Sources are registered under their network; a registry of sources [A]. *)
Section Registry.
Context {A B : Type}.

Record ReceiptRegistry : Type := { rg_sources : gmap string A; rg_authorizations : gmap string B }.

Definition register_source {C} (check : string -> Result string unit) (what : string) (m : gmap string C)
    (entry : string * C) : Result Error (gmap string C) :=
  map_err Config (check (fst entry)) ;?
  reject_if (is_some (m !! fst entry)) (Config (what ++ fst entry)) ;?
  Ok (<[fst entry := snd entry]> m).

(** [ChainId::from_str] with [SolanaChainReference::try_from] is the class of [X402Sdk]. *)
Definition validate_receipt_network `{SolanaCrypto} (network : string) : Result string unit :=
  if is_ok (receipt_validate_network network) then Ok tt
  else if solana_chain_reference network then Ok tt
  else Err "receipt network must be a canonical EIP-155 or Solana CAIP-2 ID".

Definition from_sources `{SolanaCrypto} (sources : list (string * A)) (authorizations : list (string * B))
  : Result Error ReceiptRegistry :=
  let? registered := rfold (register_source validate_receipt_network "duplicate receipt source for ") ∅ sources in
  let? authorized :=
    rfold (register_source (fun n => receipt_validate_network n ;? Ok tt) "duplicate EVM authorization source for ")
          ∅ authorizations in
  Ok {| rg_sources := registered; rg_authorizations := authorized |}.

Definition registry_source {C} (m : gmap string C) (network : string) : Result Error C :=
  ok_or (m !! network) (Settlement ("no receipt source configured for " ++ network)).
End Registry.
Arguments ReceiptRegistry : clear implicits.

(** The registry over EVM sources as a [ReceiptSource] and an
    [EvmAuthorizationSource]: each call goes to the source of its network. *)
Section EvmRegistry.
Context `{EvmNode, RpcText, EvmCrypto}.
Variable reg : ReceiptRegistry EvmRpcReceiptSource EvmRpcReceiptSource.

Definition registry_lookup (q : TransferQuery) : Proc nat ReceiptObservation :=
  let! src := plift (registry_source (rg_sources reg) (tq_network q)) in
  evm_lookup src q.
Definition registry_latest_block (network : string) : Proc nat N :=
  let! src := plift (registry_source (rg_authorizations reg) network) in
  evm_latest_block src network.
Definition registry_lookup_authorization (q : EvmAuthorizationQuery) : Proc nat EvmAuthorizationObservation :=
  let! src := plift (registry_source (rg_authorizations reg) (aq_network q)) in
  evm_lookup_authorization src q.
End EvmRegistry.
