(* ===== verification/ReceiptSafety.v ===== *)
(** * What chain evidence proves

    [EvmReceipts] never confirms a transfer that the node did not report: a
    confirmed receipt is one exact transfer of a successful transaction in a
    canonical block of the required depth; an authorization without effect is
    claimed only after every block of its window was searched; and the windows
    are tiled by a loop that ends. *)

From S2P Require Import Prelude Text Money Json Ledger SigningService X402Sdk SettlementFacts Evidence EvmReceipts.

#[local] Open Scope string_scope.
#[local] Open Scope vault_scope.

(** ** Quantities *)

Lemma size_nat_div16 n : (16 <= n)%N -> (N.size_nat (n / 16) < N.size_nat n)%nat.
Proof.
  intros Hn. assert (n / 16 <= n / 10)%N by (apply N.div_le_compat_l; lia).
  pose proof (size_nat_div10 n ltac:(lia)). pose proof (N.log2_le_mono (n / 16) (n / 10) ltac:(done)).
  pose proof (size_nat_log2 (n / 10)%N). pose proof (size_nat_log2 (n / 16)%N).
  assert (0 < n / 16)%N by (apply N.div_str_pos; lia). lia.
Qed.

Lemma hex_value_digit x : (x < 16)%N -> hex_value (hex_digit x) = x /\ is_ascii_hexdigit (hex_digit x) = true.
Proof.
  intros Hx. assert (forall y : nat, (y < 16)%nat ->
    hex_value (hex_digit (N.of_nat y)) = N.of_nat y /\ is_ascii_hexdigit (hex_digit (N.of_nat y)) = true) as Hall.
  { intros y Hy. do 16 (destruct y as [|y]; [split; reflexivity|]). lia. }
  specialize (Hall (N.to_nat x) ltac:(lia)). by rewrite N2Nat.id in Hall.
Qed.
Lemma hex_digit_zero x : (x < 16)%N -> hex_digit x = "0"%char -> x = 0%N.
Proof. intros Hx Hz. destruct (hex_value_digit x Hx) as [Hv _]. rewrite Hz in Hv. by rewrite <- Hv. Qed.

(** Printing in base 16 then parsing folds back to the number; the first digit
    is zero only for zero. *)
Lemma parse_show_hex fuel n acc max :
  (n <= max)%N -> (N.size_nat n < fuel)%nat -> bytes_all is_ascii_hexdigit acc = true ->
  exists c rest, show_hex_digits fuel n acc = String c rest
    /\ bytes_all is_ascii_hexdigit (String c rest) = true
    /\ (c = "0"%char -> n = 0%N /\ rest = acc)
    /\ parse_hex_digits max 0 (String c rest) = parse_hex_digits max n acc.
Proof.
  revert n acc. induction fuel as [|fuel IH]; intros n acc Hmax Hfuel Hacc; [lia|]. cbn [show_hex_digits].
  pose proof (N.mod_lt n 16 ltac:(lia)) as Hmod. destruct (hex_value_digit _ Hmod) as [Hv Hd].
  destruct (N.ltb_spec n 16) as [Hlt|Hge].
  - rewrite (N.mod_small n 16) in * by lia. exists (hex_digit n), acc. split_and!; [done|by cbn [bytes_all]; rewrite Hd| |].
    + intros Hz. split; [|done]. by apply hex_digit_zero.
    + cbn [parse_hex_digits]. rewrite Hv. by rewrite (proj2 (N.leb_le (16 * 0 + n) max)) by lia.
  - destruct (IH (n / 16)%N (String (hex_digit (n mod 16)) acc)) as (c & rest & Hs & Ha & Hz & Hp).
    + pose proof (N.div_le_upper_bound n 16 n). lia.
    + pose proof (size_nat_div16 n Hge). lia.
    + cbn [bytes_all]. by rewrite Hd.
    + exists c, rest. split_and!; [done|done| |].
      * intros Hc. destruct (Hz Hc) as [Hn _]. pose proof (N.div_str_pos n 16 ltac:(lia)). lia.
      * rewrite Hp. cbn [parse_hex_digits]. rewrite Hv. pose proof (N.div_mod n 16 ltac:(lia)) as Hdm.
        rewrite (proj2 (N.leb_le _ max)) by lia. by replace (16 * (n / 16) + n mod 16)%N with n by lia.
Qed.

(** The quantities the vault sends are read back as the same number. *)
Lemma parse_hex_quantity n : (n <= U64_MAX)%N -> parse_hex_u64 (hex_quantity n) = Ok n.
Proof.
  intros Hn. unfold hex_quantity, parse_hex_u64, parse_hex. rewrite strip_prefix_app.
  destruct (parse_show_hex (S (N.size_nat n)) n "" U64_MAX) as (c & rest & Hs & Ha & Hz & Hp); [done|lia|done|].
  rewrite Hs, Ha. cbn [is_empty negb orb].
  assert (((String c rest != "0") && Text.starts_with "0" (String c rest)) = false) as ->;
    [|cbn [reject_if rbind]; by rewrite Hp].
  destruct (decide (c = "0"%char)) as [->|Hne].
  - destruct (Hz eq_refl) as [_ ->]. done.
  - unfold Text.starts_with. cbn [Text.strip_prefix]. rewrite bool_decide_false by congruence.
    rewrite (bool_decide_false ("0"%char = c)) by congruence. done.
Qed.

(** ** Block ranges *)

(** Consecutive ranges from [cursor] through [to_block], none longer than one
    request may ask for. *)
Fixpoint tiles (cursor to_block : N) (ranges : list (N * N)) : Prop :=
  match ranges with
  | [] => cursor = (to_block + 1)%N
  | (lo, hi) :: rest =>
      lo = cursor /\ (lo <= hi <= to_block)%N /\ (hi - lo < MAX_AUTHORIZATION_LOG_RANGE)%N /\ tiles (hi + 1) to_block rest
  end.

Lemma log_ranges_tile fuel cursor to_block :
  (cursor <= to_block <= U64_MAX)%N -> (to_block - cursor < N.of_nat fuel * MAX_AUTHORIZATION_LOG_RANGE)%N ->
  tiles cursor to_block (log_ranges fuel cursor to_block).
Proof.
  revert cursor. induction fuel as [|fuel IH]; intros cursor Hc Hf; [lia|]. cbn [log_ranges].
  unfold MAX_AUTHORIZATION_LOG_RANGE, u64_saturating_add in *.
  set (e := N.min (N.min U64_MAX (cursor + (2000 - 1))) to_block). unfold tiles; fold tiles. unfold MAX_AUTHORIZATION_LOG_RANGE.
  destruct (N.eqb_spec e to_block) as [He|He].
  - split_and!; [done|unfold e in *; lia..|]. simpl. by rewrite He.
  - split_and!; [done|unfold e in *; lia..|]. replace (N.min U64_MAX (e + 1)) with (e + 1)%N by (unfold e in *; lia).
    apply IH; unfold e in *; lia.
Qed.

(** More passes change nothing once the loop has reached the end. *)
Lemma log_ranges_done fuel fuel' cursor to_block :
  (cursor <= to_block <= U64_MAX)%N -> (to_block - cursor < N.of_nat fuel * MAX_AUTHORIZATION_LOG_RANGE)%N ->
  (fuel <= fuel')%nat -> log_ranges fuel' cursor to_block = log_ranges fuel cursor to_block.
Proof.
  revert fuel' cursor. induction fuel as [|fuel IH]; intros [|fuel'] cursor Hc Hf Hl; [lia..|]. cbn [log_ranges].
  unfold MAX_AUTHORIZATION_LOG_RANGE, u64_saturating_add in *.
  set (e := N.min (N.min U64_MAX (cursor + (2000 - 1))) to_block). f_equal.
  destruct (N.eqb_spec e to_block) as [He|He]; [done|]. apply IH; unfold e in *; lia.
Qed.

Lemma log_ranges_length fuel cursor to_block : (length (log_ranges fuel cursor to_block) <= fuel)%nat.
Proof. revert cursor. induction fuel as [|fuel IH]; intros cursor; cbn [log_ranges]; [done|]. simpl. case_match; simpl; [lia|]. specialize (IH (u64_saturating_add (N.min (u64_saturating_add cursor (MAX_AUTHORIZATION_LOG_RANGE - 1)) to_block) 1)). lia. Qed.

Lemma tiles_cover cursor to_block ranges b :
  tiles cursor to_block ranges -> (cursor <= b <= to_block)%N ->
  exists range, range ∈ ranges /\ (fst range <= b <= snd range)%N.
Proof.
  revert cursor. induction ranges as [|[lo hi] ranges IH]; intros cursor Ht Hb; simpl in Ht; [lia|].
  destruct Ht as (-> & Hh & _ & Ht). destruct (decide (b <= hi)%N) as [Hle|Hgt].
  - exists (cursor, hi). split; [left|simpl; lia].
  - destruct (IH _ Ht ltac:(lia)) as (range & Hin & Hr). exists range. split; [by right|done].
Qed.

Lemma ok_eq {E A} (a b : A) : @Ok E A a = Ok b -> b = a.
Proof. by intros [= ->]. Qed.
Lemma bounded_log_ranges_inv from_block to_block ranges :
  (from_block <= to_block)%N -> bounded_log_ranges from_block to_block = Ok ranges ->
  (to_block - from_block < MAX_AUTHORIZATION_RECOVERY_BLOCKS)%N /\ ranges = log_ranges LOG_RANGE_PASSES from_block to_block.
Proof.
  intros Hle. unfold bounded_log_ranges. rewrite (proj2 (N.ltb_ge _ _) Hle).
  intros (? & _ & Hb)%rbind_ok. apply rbind_ok in Hb as (? & Hs%reject_if_ok & Hb). apply ok_eq in Hb.
  apply N.ltb_ge in Hs. split; [lia|done].
Qed.
Lemma log_range_passes to_block from_block :
  (to_block - from_block < MAX_AUTHORIZATION_RECOVERY_BLOCKS)%N ->
  (to_block - from_block < N.of_nat LOG_RANGE_PASSES * MAX_AUTHORIZATION_LOG_RANGE)%N.
Proof.
  intros Hb. assert (MAX_AUTHORIZATION_RECOVERY_BLOCKS <= N.of_nat LOG_RANGE_PASSES * MAX_AUTHORIZATION_LOG_RANGE)%N;
    [by vm_compute|lia].
Qed.
Lemma bounded_log_ranges_ok from_block to_block ranges :
  (to_block <= U64_MAX)%N -> (from_block <= to_block)%N -> bounded_log_ranges from_block to_block = Ok ranges ->
  tiles from_block to_block ranges.
Proof.
  intros Ht Hle [Hs ->]%bounded_log_ranges_inv; [|done]. apply log_ranges_tile; [lia|by apply log_range_passes].
Qed.

(** C37: the loop that cuts a recovery window into log requests ends.  For any
    two block numbers, an empty window gives no range, a window above the bound
    is refused, and otherwise the loop stops after at most 33 passes, so that
    more passes would change nothing, and its ranges tile the window: they
    start at the first block, end at the last, leave no gap, do not overlap and
    are never longer than one request may ask for. *)
Theorem log_ranges_terminate from_block to_block :
  (from_block <= U64_MAX)%N -> (to_block <= U64_MAX)%N ->
  match bounded_log_ranges from_block to_block with
  | Err _ => (from_block + MAX_AUTHORIZATION_RECOVERY_BLOCKS <= to_block)%N
  | Ok ranges =>
      (to_block < from_block + MAX_AUTHORIZATION_RECOVERY_BLOCKS)%N
      /\ if (to_block <? from_block)%N then ranges = []
         else tiles from_block to_block ranges /\ (length ranges <= 33)%nat
              /\ forall passes, (33 <= passes)%nat -> log_ranges passes from_block to_block = ranges
  end.
Proof.
  intros Hf Ht. destruct (bounded_log_ranges from_block to_block) as [ranges|e] eqn:Hb.
  - destruct (N.ltb_spec to_block from_block) as [Hlt|Hle].
    + unfold bounded_log_ranges in Hb. rewrite (proj2 (N.ltb_lt _ _) Hlt) in Hb. injection Hb as <-. split; [lia|done].
    + pose proof (bounded_log_ranges_ok _ _ _ Ht Hle Hb) as Htile.
      apply bounded_log_ranges_inv in Hb as [Hs ->]; [|done]. split; [lia|]. split; [done|].
      split; [apply log_ranges_length|]. intros passes Hp.
      apply (log_ranges_done LOG_RANGE_PASSES); [lia|by apply log_range_passes|exact Hp].
  - unfold bounded_log_ranges in Hb. destruct (N.ltb_spec to_block from_block); [done|].
    destruct (N.ltb_spec U64_MAX (to_block - from_block + 1)).
    + unfold MAX_AUTHORIZATION_RECOVERY_BLOCKS, U64_MAX in *. lia.
    + cbn [reject_if rbind] in Hb. destruct (N.ltb_spec MAX_AUTHORIZATION_RECOVERY_BLOCKS (to_block - from_block + 1)); [lia|done].
Qed.
Lemma log_ranges_terminate_witness :
  match bounded_log_ranges 100 65000 with
  | Err _ => (100 + MAX_AUTHORIZATION_RECOVERY_BLOCKS <= 65000)%N
  | Ok ranges =>
      (65000 < 100 + MAX_AUTHORIZATION_RECOVERY_BLOCKS)%N
      /\ if (65000 <? 100)%N then ranges = []
         else tiles 100 65000 ranges /\ (length ranges <= 33)%nat
              /\ forall passes, (33 <= passes)%nat -> log_ranges passes 100 65000 = ranges
  end.
Proof. apply (log_ranges_terminate 100 65000); unfold U64_MAX; lia. Defined.

(** ** Logs *)

(** The log is the transfer that the query asks for. *)
Definition pays (q : TransferQuery) (l : RpcLog) : Prop :=
  log_of l (tq_token_contract q) ERC20_TRANSFER_TOPIC = true
  /\ exists t0 t1 t2 payer recipient,
       rl_topics l = [t0; t1; t2] /\ topic_address t1 = Ok payer /\ topic_address t2 = Ok recipient
       /\ eq_ignore_ascii_case payer (tq_payer q) = true /\ eq_ignore_ascii_case recipient (tq_recipient q) = true
       /\ data_amount (rl_data l) = Ok (tq_amount q).

(** What [exact_transfer] keeps of a log. *)
Definition matched_as (q : TransferQuery) (l : RpcLog) (m : MatchedTransfer) : Prop :=
  pays q l /\ rl_removed l = false /\ rl_log_index l = Some (mt_log_index m)
  /\ rl_block_hash l = Some (mt_block_hash m) /\ rl_block_number l = Some (mt_block_number m)
  /\ exists t, rl_transaction_hash l = Some t /\ eq_ignore_ascii_case t (tq_transaction q) = true.

Lemma match_transfer_ok q acc l acc' :
  match_transfer q acc l = Ok acc' ->
  (snd acc' = snd acc /\ (pays q l -> rl_removed l = true))
  \/ exists m, snd acc' = (snd acc ++ [m])%list /\ matched_as q l m.
Proof.
  unfold match_transfer. destruct (log_of _ _ _) eqn:Hlog; cbn [negb]; [|intros [= <-]; left; split; [done|by intros [? _]; congruence]].
  destruct (rl_topics l) as [|t0 [|t1 [|t2 [|]]]] eqn:Htop; try done. intros (payer & Hp & Hm)%rbind_ok.
  apply rbind_ok in Hm as (recipient & Hr & Hm). apply rbind_ok in Hm as (amount & Ha & Hm).
  destruct (_ || _ || _) eqn:Hb in Hm.
  - injection Hm as <-. left. split; [done|]. intros (_ & ? & ? & ? & p & r & Ht & Hp' & Hr' & E1 & E2 & E3). exfalso.
    rewrite Htop in Ht. injection Ht as <- <- <-. rewrite Hp in Hp'. rewrite Hr in Hr'. rewrite Ha in E3.
    simplify_eq. by rewrite E1, E2, bool_decide_true in Hb.
  - bool_inv. destruct (rl_removed l) eqn:Hrem.
    + injection Hm as <-. left. by split.
    + apply rbind_ok in Hm as (idx & Hidx%ok_or_ok & Hm). apply rbind_ok in Hm as (tx & Htx%ok_or_ok & Hm).
      apply rbind_ok in Hm as (bh & Hbh%ok_or_ok & Hm). apply rbind_ok in Hm as (bn & Hbn%ok_or_ok & Hm).
      apply rbind_ok in Hm as (? & Hsame%reject_if_ok & Hm). apply rbind_ok in Hm as (? & _ & Hm). injection Hm as <-.
      apply negb_false_iff in Hsame. right. eexists. split; [done|]. simplify_eq. split_and!; try done; [|by exists tx].
      split; [done|]. exists t0, t1, t2, payer, recipient. by split_and!.
Qed.

(** A log that the query asks for counts only while the chain has not removed it. *)
Definition withdrawn (q : TransferQuery) (l : RpcLog) : Prop := pays q l -> rl_removed l = true.
Definition sole_transfer (q : TransferQuery) (logs : list RpcLog) (l : RpcLog) : Prop :=
  exists before after, logs = (before ++ l :: after)%list /\ pays q l /\ rl_removed l = false
    /\ Forall (withdrawn q) (before ++ after)%list.

Lemma match_transfers_ok q logs acc acc' :
  rfold (match_transfer q) acc logs = Ok acc' ->
  exists ms, snd acc' = (snd acc ++ ms)%list /\ (ms = [] -> Forall (withdrawn q) logs)
    /\ forall m, ms = [m] -> exists l, sole_transfer q logs l /\ matched_as q l m.
Proof.
  revert acc. induction logs as [|x logs IH]; intros acc; simpl.
  - intros [= <-]. exists []. split_and!; [by rewrite app_nil_r|by constructor|done].
  - intros (acc1 & Hx & Hl)%rbind_ok. destruct (IH _ Hl) as (ms & Hs & Hnone & Hone).
    apply match_transfer_ok in Hx as [[Hs1 Hrem]|(m & Hs1 & Hm)].
    + exists ms. rewrite Hs, Hs1. split_and!; [done|by constructor; auto|]. intros m ->.
      destruct (Hone m eq_refl) as (l & (before & after & -> & Hp & Hr & Hall) & Hm). exists l. split; [|done].
      exists (x :: before), after. split_and!; try done. by constructor.
    + exists (m :: ms). rewrite Hs, Hs1, <- app_assoc. split_and!; [done..|]. intros m' [= <- ->]. exists x. split; [|done].
      destruct Hm as (Hp & Hr & _). exists [], logs. split_and!; try done. by apply Hnone.
Qed.

Lemma exact_transfer_found r q m :
  exact_transfer r q = Ok (TmFound m) -> exists l, sole_transfer q (rx_logs r) l /\ matched_as q l m.
Proof.
  unfold exact_transfer. intros ([b ms] & Hf & Hm)%rbind_ok. simpl in Hm.
  destruct ms as [|m0 [|]]; [by destruct b| |done]. injection Hm as ->.
  destruct (match_transfers_ok _ _ _ _ Hf) as (ms & Hs & _ & Hone). simpl in Hs. subst ms. by apply Hone.
Qed.

(** ** Confirmed transfers *)

Section Lookup.
Context `{EvmNode, RpcText, EvmCrypto}.
Variable src : EvmRpcReceiptSource.

(** The node answered this value to a request of the client. *)
Definition answered (method : string) (params value : json) : Prop :=
  exists n, fst (request src method params n) = Ok value.

Lemma request_answered method params n v n' : request src method params n = (Ok v, n') -> answered method params v.
Proof. intros Hr. exists n. by rewrite Hr. Qed.

(** What the node reported when a transfer counts as confirmed: a successful
    receipt of the transaction, in which the log is the only live transfer of
    the queried amount between the queried accounts, in a block of the
    canonical chain that is deep enough. *)
Record on_chain (q : TransferQuery) (ev : ConfirmedTransfer) (r : RpcReceipt) (l : RpcLog) (b : RpcBlock)
  (number latest : N) : Prop := {
  oc_chain : exists text, answered "eth_chainId" (JArray []) (JString text) /\ parse_hex_u128 text = Ok (es_chain_id src);
  oc_receipt : exists v, answered "eth_getTransactionReceipt" (JArray [JString (tq_transaction q)]) v
                 /\ rpc_receipt_from_value v = Some r;
  oc_transaction : eq_ignore_ascii_case (rx_transaction_hash r) (tq_transaction q) = true;
  oc_success : (rx_status r ≫= parse_hex_u64_option) = Some 1%N;
  oc_transfer : sole_transfer q (rx_logs r) l;
  oc_block : exists wire hash log_hash log_number v,
    rx_block_number r = Some wire /\ parse_hex_u64 wire = Ok number
    /\ answered "eth_getBlockByNumber" (JArray [JString wire; JBool false]) v /\ rpc_block_from_value v = Some b
    /\ parse_hex_u64 (rb_number b) = Ok number
    /\ rl_block_number l = Some log_number /\ parse_hex_u64 log_number = Ok number
    /\ rx_block_hash r = Some hash /\ rl_block_hash l = Some log_hash
    /\ eq_ignore_ascii_case (rb_hash b) hash = true /\ eq_ignore_ascii_case log_hash hash = true;
  oc_depth : (exists text, answered "eth_blockNumber" (JArray []) (JString text) /\ parse_hex_u64 text = Ok latest)
    /\ (number <= latest)%N /\ ct_confirmations ev = u64_saturating_add (latest - number) 1
    /\ (es_minimum_confirmations src <= ct_confirmations ev)%N;
  oc_evidence : exists log_index index timestamp,
    rl_log_index l = Some log_index /\ parse_hex_u64 log_index = Ok index
    /\ parse_hex_u64 (rb_timestamp b) = Ok timestamp
    /\ ev = {| ct_authority := es_authority src; ct_transaction := tq_transaction q;
               ct_effect_ref := "log:" ++ show_unsigned index; ct_confirmations := ct_confirmations ev;
               ct_minimum_confirmations := es_minimum_confirmations src; ct_effective_at := Z.of_N timestamp |}
}.

Lemma observed_chain_ok n chain n' :
  observed_chain src n = (Ok chain, n') ->
  exists text, answered "eth_chainId" (JArray []) (JString text) /\ parse_hex_u128 text = Ok chain.
Proof.
  unfold observed_chain, quantity. intros Ho. run_inv.
  match goal with Hr : request _ _ _ _ = (Ok ?v, _), Ha : as_str ?v = Some ?t |- _ =>
    destruct v; try done; injection Ha as ->; exists t; split; [by eapply request_answered|done] end.
Qed.
Lemma latest_number_ok n latest n' :
  latest_number src n = (Ok latest, n') ->
  exists text, answered "eth_blockNumber" (JArray []) (JString text) /\ parse_hex_u64 text = Ok latest.
Proof.
  unfold latest_number, quantity. intros Ho. run_inv.
  match goal with Hr : request _ _ _ _ = (Ok ?v, _), Ha : as_str ?v = Some ?t |- _ =>
    destruct v; try done; injection Ha as ->; exists t; split; [by eapply request_answered|done] end.
Qed.
Lemma load_evm_receipt_ok tx n r n' :
  load_evm_receipt src tx n = (Ok (Some r), n') ->
  exists v, answered "eth_getTransactionReceipt" (JArray [JString tx]) v /\ rpc_receipt_from_value v = Some r.
Proof.
  unfold load_evm_receipt. intros (v & ? & Hv & Hl)%pbind_ok. case_bool_decide; [by run_inv|]. run_inv. simplify_eq.
  exists v. split; [by eapply request_answered|done].
Qed.
Lemma canonical_block_ok wire n b n' :
  canonical_block src wire n = (Ok (Some b), n') ->
  exists v, answered "eth_getBlockByNumber" (JArray [JString wire; JBool false]) v /\ rpc_block_from_value v = Some b.
Proof.
  unfold canonical_block. intros (v & ? & Hv & Hl)%pbind_ok. case_bool_decide; [by run_inv|]. run_inv. simplify_eq.
  exists v. split; [by eapply request_answered|done].
Qed.
Lemma effective_time_ok t z : effective_time t = Ok z -> z = Z.of_N t.
Proof. unfold effective_time. intros He. by run_inv. Qed.

Lemma confirm_transfer_ok q wire hash number m n ev n' :
  confirm_transfer src q wire hash number m n = (Ok (RcConfirmed ev), n') ->
  exists b latest timestamp index v,
    answered "eth_getBlockByNumber" (JArray [JString wire; JBool false]) v /\ rpc_block_from_value v = Some b
    /\ parse_hex_u64 (rb_number b) = Ok number /\ parse_hex_u64 (mt_block_number m) = Ok number
    /\ eq_ignore_ascii_case (rb_hash b) hash = true /\ eq_ignore_ascii_case (mt_block_hash m) hash = true
    /\ (exists text, answered "eth_blockNumber" (JArray []) (JString text) /\ parse_hex_u64 text = Ok latest)
    /\ (number <= latest)%N /\ (es_minimum_confirmations src <= u64_saturating_add (latest - number) 1)%N
    /\ parse_hex_u64 (rb_timestamp b) = Ok timestamp /\ parse_hex_u64 (mt_log_index m) = Ok index
    /\ ev = {| ct_authority := es_authority src; ct_transaction := tq_transaction q;
               ct_effect_ref := "log:" ++ show_unsigned index;
               ct_confirmations := u64_saturating_add (latest - number) 1;
               ct_minimum_confirmations := es_minimum_confirmations src; ct_effective_at := Z.of_N timestamp |}.
Proof.
  unfold confirm_transfer. intros (latest & n1 & Hlat & Hc)%pbind_ok. destruct (N.ltb_spec latest number) as [|Hle]; [by run_inv|].
  cbv zeta in Hc. apply pbind_ok in Hc as ([b|] & n2 & Hb & Hc); [|by run_inv].
  destruct (eq_ignore_ascii_case (rb_hash b) hash) eqn:Hbh; cbn [negb] in Hc; [|by run_inv].
  apply pbind_ok in Hc as (num & n3 & [Hnum ->]%plift_ok & Hc). destruct (_ || _) eqn:E1 in Hc; [by run_inv|]. bool_inv. subst num.
  apply pbind_ok in Hc as (lb & n4 & [Hlb ->]%plift_ok & Hc). case_bool_decide; cbn [negb] in Hc; [|by run_inv]. subst lb.
  destruct (N.ltb_spec (u64_saturating_add (latest - number) 1) (es_minimum_confirmations src)) as [|Hmin]; [by run_inv|].
  run_inv. destruct (canonical_block_ok _ _ _ _ Hb) as (v & Hv & Hdec). pose proof (latest_number_ok _ _ _ Hlat).
  match goal with He : effective_time _ = Ok _ |- _ => apply effective_time_ok in He as -> end.
  match goal with Ht : parse_hex_u64 (rb_timestamp b) = Ok ?ts, Hi : parse_hex_u64 (mt_log_index m) = Ok ?ix |- _ =>
    exists b, latest, ts, ix, v end. split_and!; try done. congruence.
Qed.

(** Chain evidence is what the node reported.  A transfer is confirmed only
    if the node is on the configured chain and reported a successful receipt of
    this very transaction whose only live log of this token, payer, recipient
    and amount is in the block that the canonical chain has at that height,
    with at least the configured confirmations on top; the evidence names that
    log, that depth and the time of that block. *)
Lemma evm_lookup_confirmed q n ev n' :
  evm_lookup src q n = (Ok (RcConfirmed ev), n') ->
  validate_query q (es_network src) = Ok tt /\ exists r l b number latest, on_chain q ev r l b number latest.
Proof.
  unfold evm_lookup. intros ([] & n1 & [Hq ->]%plift_ok & Hl)%pbind_ok. split; [done|].
  apply pbind_ok in Hl as (chain & n2 & Hch & Hl). case_bool_decide; cbn [negb] in Hl; [|by run_inv]. subst chain.
  apply pbind_ok in Hl as ([r|] & n3 & Hr & Hl); [|by run_inv].
  destruct (eq_ignore_ascii_case _ _) eqn:Htx in Hl; cbn [negb] in Hl; [|by run_inv].
  case_bool_decide as Hst; cbn [negb] in Hl; [|by run_inv].
  destruct (rx_block_number r) as [wire|] eqn:Hwire; [|by run_inv]. destruct (rx_block_hash r) as [hash|] eqn:Hhash; [|by run_inv].
  apply pbind_ok in Hl as (number & n4 & [Hnum ->]%plift_ok & Hl). apply pbind_ok in Hl as (m & n5 & [Hm ->]%plift_ok & Hl).
  destruct m as [m| | |]; [|by run_inv..]. destruct (exact_transfer_found _ _ _ Hm) as (l & Hsole & Hml).
  destruct Hml as (_ & _ & Hidx & Hbh & Hbn & _).
  destruct (confirm_transfer_ok _ _ _ _ _ _ _ _ Hl)
    as (b & latest & timestamp & index & v & Hv & Hdec & Hbn1 & Hbn2 & Hh1 & Hh2 & Hlat & Hle & Hmin & Hts & Hix & ->).
  exists r, l, b, number, latest. split; try done.
  - by eapply observed_chain_ok.
  - by eapply load_evm_receipt_ok.
  - exists wire, hash, (mt_block_hash m), (mt_block_number m), v. by split_and!.
  - by exists (mt_log_index m), index, timestamp.
Qed.

(** ** Authorizations *)

(** The log spends the authorization. *)
Definition spends (q : EvmAuthorizationQuery) (l : RpcLog) : Prop :=
  authorization_log_matches l q = Ok true /\ rl_removed l = false.

Lemma collect_transactions_ok q logs acc txs :
  rfold (collect_transaction q) acc logs = Ok txs ->
  (exists more, txs = (acc ++ more)%list)
  /\ Forall (fun l => spends q l -> exists t, rl_transaction_hash l = Some t
                        /\ existsb (fun seen => eq_ignore_ascii_case seen t) txs = true) logs.
Proof.
  revert acc. induction logs as [|x logs IH]; intros acc; simpl.
  - intros [= <-]. split; [exists []; by rewrite app_nil_r|constructor].
  - intros (acc1 & Hx & Hl)%rbind_ok. destruct (IH _ Hl) as ((more & ->) & Hall).
    unfold collect_transaction in Hx. apply rbind_ok in Hx as (matches & Hm & Hx).
    destruct (negb matches || rl_removed x) eqn:Hb.
    + injection Hx as <-. split; [by exists more|]. constructor; [|done]. intros [Hs Hr]. rewrite Hm in Hs. injection Hs as ->.
      by rewrite Hr in Hb.
    + apply rbind_ok in Hx as (t & Ht%ok_or_ok & Hx). apply rbind_ok in Hx as (? & _ & Hx). apply ok_eq in Hx. subst acc1.
      destruct (existsb _ acc) eqn:He.
      * split; [by exists more|]. constructor; [|done]. intros _. exists t. split; [done|]. rewrite existsb_app. by rewrite He.
      * split; [exists ([to_ascii_lowercase t] ++ more)%list; by rewrite app_assoc|]. constructor; [|done]. intros _.
        exists t. split; [done|]. rewrite !existsb_app. simpl. unfold eq_ignore_ascii_case at 2.
        rewrite to_ascii_lowercase_idem, bool_decide_true by done. by rewrite orb_true_r.
Qed.

(** Exactly one log of the receipt spends the authorization. *)
Definition spends_once (q : EvmAuthorizationQuery) (r : RpcReceipt) : Prop :=
  exists before l after, rx_logs r = (before ++ l :: after)%list /\ spends q l
    /\ Forall (fun x => ~ spends q x) (before ++ after)%list.

Lemma count_authorization_ok r q l k k' :
  count_authorization r q k l = Ok k' -> (spends q l /\ k' = N.min 255 (k + 1)) \/ (~ spends q l /\ k' = k).
Proof.
  unfold count_authorization, spends. intros (m & Hm & Hc)%rbind_ok. rewrite Hm.
  destruct m, (rl_removed l); simpl in Hc; run_inv; try (right; split; [by intros [? ?]|done]). by left.
Qed.
Lemma count_authorizations_ok r q logs k k' :
  (k <= 255)%N -> rfold (count_authorization r q) k logs = Ok k' ->
  (k <= k')%N /\ (k' = k -> (k < 255)%N -> Forall (fun x => ~ spends q x) logs)
  /\ (k = 0%N -> k' = 1%N -> exists before l after, logs = (before ++ l :: after)%list /\ spends q l
                              /\ Forall (fun x => ~ spends q x) (before ++ after)%list).
Proof.
  revert k. induction logs as [|x logs IH]; intros k Hk255; simpl.
  - intros [= <-]. split_and!; [lia|by constructor|lia].
  - intros (k1 & Hx & Hl)%rbind_ok.
    destruct (count_authorization_ok _ _ _ _ _ Hx) as [[Hs ->]|[Hs ->]];
      pose proof (fun h => IH _ h Hl) as IH'; destruct (IH' ltac:(lia)) as (Hle & Hsame & Hone).
    + split_and!; [lia|intros; exfalso; lia|]. intros -> ->. exists [], x, logs. split_and!; [done..|]. simpl. apply Hsame; lia.
    + split_and!; [done|intros; constructor; auto|]. intros Hk Hk'. destruct (Hone Hk Hk') as (bef & l & aft & -> & Hl' & Hall).
      exists (x :: bef), l, aft. split_and!; [done..|]. by constructor.
Qed.
Lemma receipt_contains_authorization_ok r q : receipt_contains_authorization r q = Ok true -> spends_once q r.
Proof.
  unfold receipt_contains_authorization. intros (k & Hk & [= Hb])%rbind_ok. apply N.eqb_eq in Hb. subst k.
  destruct (count_authorizations_ok r q _ 0 _ ltac:(lia) Hk) as (_ & _ & Hone). by apply Hone.
Qed.

(** The logs that one request asks for. *)
Definition log_filter (q : EvmAuthorizationQuery) (payer_topic : string) (range : N * N) : json :=
  JArray [jobject [("fromBlock", JString (hex_quantity (fst range))); ("toBlock", JString (hex_quantity (snd range)));
                   ("address", JString (aq_token_contract q));
                   ("topics", JArray [JString authorization_used_topic; JString payer_topic; JString (aq_nonce q)])]].
(** The node answered a request for these blocks, and with these logs. *)
Definition searched (q : EvmAuthorizationQuery) (range : N * N) (batch : list RpcLog) : Prop :=
  exists payer_topic v, address_topic (aq_payer q) = Ok payer_topic
    /\ answered "eth_getLogs" (log_filter q payer_topic range) v /\ as_list rpc_log_from_value v = Some batch.

Lemma log_batches_ok q topic ranges acc n logs n' :
  address_topic (aq_payer q) = Ok topic -> pfold (log_batch src q topic) acc ranges n = (Ok logs, n') ->
  exists more, logs = (acc ++ more)%list
    /\ forall range, range ∈ ranges -> exists batch, searched q range batch /\ forall l, l ∈ batch -> l ∈ more.
Proof.
  intros Htopic. revert acc n. induction ranges as [|range ranges IH]; intros acc n; simpl.
  - intros [-> _]%pret_ok. exists []. split; [by rewrite app_nil_r|]. intros range Hr. by apply elem_of_nil in Hr.
  - intros (acc1 & n1 & Hb & Hl)%pbind_ok. unfold log_batch in Hb. run_inv.
    destruct (IH _ _ Hl) as (more & -> & Hall).
    match goal with Hr : request _ _ _ _ = (Ok ?v, _), Hd : as_list _ ?v = Some ?batch |- _ =>
      rename Hr into Hreq; rename Hd into Hdec; exists (batch ++ more)%list; set (bt := batch) in * end.
    split; [by rewrite app_assoc|]. intros r [->|Hr]%elem_of_cons.
    + exists bt. split; [do 2 eexists; split_and!; [done|by eapply request_answered|done]|].
      intros l Hin. apply elem_of_app. by left.
    + destruct (Hall _ Hr) as (batch & Hs & Hin). exists batch. split; [done|]. intros l Hl'. apply elem_of_app. right. by apply Hin.
Qed.

Lemma parse_hex_u64_bound s n : parse_hex_u64 s = Ok n -> (n <= U64_MAX)%N.
Proof.
  unfold parse_hex_u64. intros (digits & _ & Hp%ok_or_ok)%rbind_ok.
  assert (forall t acc, (acc <= U64_MAX)%N -> forall m, parse_hex_digits U64_MAX acc t = Some m -> (m <= U64_MAX)%N) as Hb.
  { induction t as [|c t IH]; intros acc Ha m; cbn [parse_hex_digits]; [by intros [= <-]|].
    destruct (N.leb_spec (16 * acc + hex_value c) U64_MAX); [|done]. by apply IH. }
  apply (Hb digits 0%N); [unfold U64_MAX; lia|done].
Qed.

Lemma validated_latest_block_ok n latest n' :
  validated_latest_block src n = (Ok latest, n') ->
  (exists text, answered "eth_chainId" (JArray []) (JString text) /\ parse_hex_u128 text = Ok (es_chain_id src))
  /\ exists text, answered "eth_blockNumber" (JArray []) (JString text) /\ parse_hex_u64 text = Ok latest.
Proof.
  unfold validated_latest_block. intros (chain & n1 & Hc & Hl)%pbind_ok. apply pbind_ok in Hl as (? & n2 & [Hr ->]%plift_ok & Hl).
  apply reject_if_ok in Hr. bool_inv. subst chain. split; [by eapply observed_chain_ok|by eapply latest_number_ok].
Qed.

Lemma no_effect_ok through n o at_ n' :
  no_effect src through n = (Ok (AuthNoEffect o at_), n') ->
  o = through /\ exists v b timestamp,
    answered "eth_getBlockByNumber" (JArray [JString (hex_quantity through); JBool false]) v
    /\ rpc_block_from_value v = Some b /\ parse_hex_u64 (rb_number b) = Ok through
    /\ parse_hex_u64 (rb_timestamp b) = Ok timestamp /\ at_ = Z.of_N timestamp.
Proof.
  unfold no_effect. intros (found & n1 & Hb & Hn)%pbind_ok. run_inv. bool_inv. subst.
  destruct (canonical_block_ok _ _ _ _ Hb) as (v & Hv & Hdec).
  match goal with He : effective_time _ = Ok _ |- _ => apply effective_time_ok in He end. simplify_eq. split; [done|].
  match goal with Ht : parse_hex_u64 (rb_timestamp ?b) = Ok ?ts |- _ => by exists v, b, ts end.
Qed.

Lemma spent_by_ok q tx n o n' :
  spent_by src q tx n = (Ok o, n') ->
  match o with
  | AuthConfirmed ev =>
      (exists r l b number latest, on_chain (transfer_of q tx) ev r l b number latest)
      /\ exists v r, answered "eth_getTransactionReceipt" (JArray [JString tx]) v
           /\ rpc_receipt_from_value v = Some r /\ spends_once q r
  | AuthNoEffect _ _ => False
  | _ => True
  end.
Proof.
  unfold spent_by. intros (ob & n1 & Hl & Hs)%pbind_ok. destruct ob as [ev| |reason]; [|by run_inv..].
  apply pbind_ok in Hs as (found & n2 & Hr & Hs). apply pbind_ok in Hs as (r & n3 & [Hf%ok_or_ok ->]%plift_ok & Hs). subst found.
  apply pbind_ok in Hs as (contained & n4 & [Hc ->]%plift_ok & Hs). apply pret_ok in Hs as [-> _].
  destruct contained; [|done]. split; [by apply evm_lookup_confirmed in Hl as [_ ?]|].
  destruct (load_evm_receipt_ok _ _ _ _ Hr) as (v & Hv & Hdec). exists v, r. split_and!; try done.
  by apply receipt_contains_authorization_ok.
Qed.

(** C20: the fate of an authorization is read off the chain.  It is confirmed
    only by a transaction whose transfer is confirmed and whose receipt spends
    this authorization exactly once.  It is declared without effect only when
    every block from the checkpoint through the observed one, which lies under
    the configured confirmations, was covered by a log request that the node
    answered without a live event spending it, and the observation time is that
    of the observed block. *)
Theorem evm_authorization_observed q n o n' :
  evm_lookup_authorization src q n = (Ok o, n') ->
  match o with
  | AuthConfirmed ev =>
      exists tx, (exists r l b number latest, on_chain (transfer_of q tx) ev r l b number latest)
        /\ exists v r, answered "eth_getTransactionReceipt" (JArray [JString tx]) v
             /\ rpc_receipt_from_value v = Some r /\ spends_once q r
  | AuthNoEffect observed at_ =>
      (exists text latest, answered "eth_blockNumber" (JArray []) (JString text) /\ parse_hex_u64 text = Ok latest
         /\ (observed + N.max (es_minimum_confirmations src) 1 = latest + 1)%N)
      /\ (aq_from_block q <= observed)%N
      /\ (forall b, (aq_from_block q <= b <= observed)%N ->
            exists range batch, (fst range <= b <= snd range)%N /\ searched q range batch
              /\ Forall (fun l => ~ spends q l) batch)
      /\ exists v block timestamp,
           answered "eth_getBlockByNumber" (JArray [JString (hex_quantity observed); JBool false]) v
           /\ rpc_block_from_value v = Some block /\ parse_hex_u64 (rb_number block) = Ok observed
           /\ parse_hex_u64 (rb_timestamp block) = Ok timestamp /\ at_ = Z.of_N timestamp
  | _ => True
  end.
Proof.
  unfold evm_lookup_authorization. intros (? & n1 & _ & Hl)%pbind_ok. apply pbind_ok in Hl as (latest & n2 & Hlat & Hl).
  apply validated_latest_block_ok in Hlat as (_ & text & Htext & Hlatest).
  destruct (confirmed_through_block _ _) as [through|] eqn:Hthrough; [|by apply pret_ok in Hl as [-> _]].
  destruct (N.ltb_spec through (aq_from_block q)) as [|Hfrom]; [by apply pret_ok in Hl as [-> _]|].
  apply pbind_ok in Hl as (topic & n3 & [Htopic ->]%plift_ok & Hl). apply pbind_ok in Hl as (ranges & n4 & [Hranges ->]%plift_ok & Hl).
  apply pbind_ok in Hl as (logs & n5 & Hlogs & Hl). apply pbind_ok in Hl as (txs & n6 & [Htxs ->]%plift_ok & Hl).
  destruct txs as [|tx [|]].
  - destruct o as [ev| |o at_|reason]; try done; [by unfold no_effect in Hl; run_inv|].
    apply no_effect_ok in Hl as [-> Hblock].
    pose proof (parse_hex_u64_bound _ _ Hlatest) as Hu64. unfold confirmed_through_block in Hthrough.
    destruct (N.eqb_spec latest U64_MAX); [done|]. destruct (N.leb_spec (N.max (es_minimum_confirmations src) 1) (latest + 1)); [|done].
    injection Hthrough as <-. split_and!; [exists text, latest; split_and!; [done..|lia]|done| |done].
    intros b Hb. assert (tiles (aq_from_block q) (latest + 1 - N.max (es_minimum_confirmations src) 1) ranges) as Ht.
    { apply bounded_log_ranges_ok; [lia|done|done]. }
    destruct (tiles_cover _ _ _ _ Ht Hb) as (range & Hin & Hr).
    destruct (log_batches_ok _ _ _ _ _ _ _ Htopic Hlogs) as (more & -> & Hall). destruct (Hall _ Hin) as (batch & Hs & Hsub).
    exists range, batch. split_and!; [lia|lia|done|]. apply list.Forall_forall. intros l Hl Hsp.
    destruct (collect_transactions_ok _ _ _ _ Htxs) as [_ Hspent].
    rewrite list.Forall_forall in Hspent. by destruct (Hspent l (Hsub _ Hl) Hsp) as (? & _ & ?).
  - apply spent_by_ok in Hl. destruct o; try done. by exists tx.
  - apply pret_ok in Hl as [-> _]. done.
Qed.
End Lookup.
