(* ===== verification/SolanaReceipts.v ===== *)
(** * Solana receipts

    [src/src/payment/receipt/solana.rs]: a transfer counts as confirmed when
    the transaction carries the payer's signature and the token balances of
    payer and recipient moved by exactly the amount.

    What the official RPC client answers to one lookup is the record
    [SolanaAnswers]; signatures and keys are parsed by the SDK. *)

From S2P Require Import Prelude Text Money Json Wallet Ledger SigningService X402Sdk SettlementFacts Evidence EvmReceipts.

#[local] Open Scope string_scope.
#[local] Open Scope vault_scope.

(** [ChainId::from_str], [SolanaChainReference::try_from] and [as_str] *)
Class SolanaReference : Type := { solana_reference : string -> option string }.
(** The 64 bytes of a parsed signature *)
Class SolanaSignatureBytes `{SolanaSignature} : Type := { solsig_bytes : SolSig -> string }.

(** ** What the RPC client answers *)

Inductive TransactionConfirmationStatus : Type := Processed | Confirmed | Finalized.
#[export] Instance TransactionConfirmationStatus_eq_dec : EqDecision TransactionConfirmationStatus.
Proof. solve_decision. Defined.

Record TransactionStatus : Type := {
  ts_slot : N;
  ts_confirmations : option N;
  ts_failed : bool;
  ts_confirmation_status : TransactionConfirmationStatus
}.
Record UiTransactionTokenBalance : Type := {
  ub_owner : option string;
  ub_mint : string;
  ub_amount : string
}.
Record TransactionStatusMeta : Type := {
  tm_failed : bool;
  tm_pre_token_balances : option (list UiTransactionTokenBalance);
  tm_post_token_balances : option (list UiTransactionTokenBalance)
}.
(** The decoded transaction is [None] when its encoding is invalid. *)
Record ConfirmedTransaction : Type := {
  cx_slot : N;
  cx_block_time : option Z;
  cx_meta : option TransactionStatusMeta;
  cx_transaction : option VersionedTransaction
}.
(** The first three calls are joined: one failure fails them together. *)
Record SolanaAnswers : Type := {
  sa_joined : Result string (string * list (option TransactionStatus) * N);
  sa_transaction : Result string (option ConfirmedTransaction);
  sa_block_time : N -> Result string Z
}.

(** ** The source *)

Record SolanaRpcReceiptSource : Type := {
  ss_network : string;
  ss_chain_reference : string;
  ss_authority : string;
  ss_minimum_confirmations : N
}.

Section Solana.
Context `{SolanaReference, SolanaCrypto, SolanaPubkey, SolanaSignatureBytes, Sha256}.

(** [SolanaRpcReceiptSource::new], after the RPC client was built *)
Definition solana_source_new (network : string) (minimum_confirmations max_response_bytes : N)
  : Result Error SolanaRpcReceiptSource :=
  let? reference := ok_or (solana_reference network) (Config "Solana receipt network is invalid") in
  reject_if ((minimum_confirmations =? 0)%N || (10000 <? minimum_confirmations)%N || (max_response_bytes =? 0)%N)
            (Config "Solana receipt confirmation or response limit is invalid") ;?
  Ok {| ss_network := network; ss_chain_reference := reference; ss_authority := "solana-rpc:" ++ network;
        ss_minimum_confirmations := minimum_confirmations |}.

(** A base58 text has one byte per character. *)
Definition validate_genesis (src : SolanaRpcReceiptSource) (genesis : string) : Result Error unit :=
  reject_if ((str_len genesis <? 32)%N || (String.substring 0 32 genesis != ss_chain_reference src))
            (Settlement ("Solana RPC genesis hash does not match " ++ ss_network src)).

Definition validate_solana_query (q : TransferQuery) (expected_network : string) : Result Error unit :=
  let valid_network := (tq_network q == expected_network) && is_ok (validate_receipt_network (tq_network q)) in
  let valid_addresses :=
    is_some (pubkey_from_str (tq_token_contract q)) && is_some (pubkey_from_str (tq_payer q))
    && is_some (pubkey_from_str (tq_recipient q)) && (tq_payer q != tq_recipient q) in
  reject_if (negb valid_network || negb valid_addresses || negb (is_some (solsig_from_str (tq_transaction q)))
             || Amount.is_zero (tq_amount q))
            (Settlement "Solana transfer evidence query is invalid").

(** One entry of [solana_token_balance] *)
Definition add_balance (owner mint : string) (total : N) (b : UiTransactionTokenBalance) : Result Error N :=
  match ub_owner b with
  | None => Ok total
  | Some balance_owner =>
      if (balance_owner != owner) || (ub_mint b != mint) then Ok total else
      let? amount := ok_or (parse_unsigned U128_MAX (ub_amount b))
                           (Settlement "Solana receipt token amount is invalid") in
      ok_or (u128_checked_add total amount) (Settlement "Solana receipt token amount overflows")
  end.
Definition solana_token_balance (balances : option (list UiTransactionTokenBalance)) (owner mint : string)
  : Result Error N :=
  let? balances := ok_or balances (Settlement "Solana receipt has no token balance evidence") in
  rfold (add_balance owner mint) 0%N balances.

(** The signature in the position of the payer's key among the signers *)
Fixpoint position (key : string) (keys : list string) : option nat :=
  match keys with
  | [] => None
  | k :: rest => if k == key then Some O else S <$> position key rest
  end.
Definition payer_signature_valid (t : VersionedTransaction) (payer : string) : bool :=
  let required := N.to_nat (vt_num_required_signatures t) in
  is_some_and (fun signature => ed25519_verify signature payer (vt_message t))
    (if (required <=? length (vt_static_account_keys t))%nat
     then index ← position payer (take required (vt_static_account_keys t)); vt_signatures t !! index
     else None).

(** The reason why the transaction is not the queried transfer, if any *)
Definition validate_confirmed_transfer (confirmed : ConfirmedTransaction) (signature : SolSig) (q : TransferQuery)
  : Result Error (option string) :=
  match cx_meta confirmed with
  | None => Ok (Some "Solana transaction metadata is missing")
  | Some meta =>
      if tm_failed meta then Ok (Some "Solana transaction metadata reports failure") else
      match cx_transaction confirmed with
      | None => Ok (Some "Solana transaction encoding is invalid")
      | Some t =>
          let? payer := ok_or (pubkey_from_str (tq_payer q)) (Settlement "Solana receipt payer is invalid") in
          if (head (vt_signatures t) != Some (solsig_bytes signature))
             || negb (payer_signature_valid t (pubkey_to_string payer))
          then Ok (Some "Solana transaction does not carry the expected payer signature")
          else
            let? pre_payer := solana_token_balance (tm_pre_token_balances meta) (tq_payer q) (tq_token_contract q) in
            let? post_payer := solana_token_balance (tm_post_token_balances meta) (tq_payer q) (tq_token_contract q) in
            let? pre_recipient :=
              solana_token_balance (tm_pre_token_balances meta) (tq_recipient q) (tq_token_contract q) in
            let? post_recipient :=
              solana_token_balance (tm_post_token_balances meta) (tq_recipient q) (tq_token_contract q) in
            if (u128_checked_sub pre_payer post_payer != Some (tq_amount q))
               || (u128_checked_sub post_recipient pre_recipient != Some (tq_amount q))
            then Ok (Some "Solana token balance deltas do not match the payment")
            else Ok None
      end
  end.

Definition solana_effect_ref (q : TransferQuery) : string :=
  "x402-solana-exact:"
  ++ hex_encode (sha256 ("agentvault.x402.solana.exact.effect.v1"
       ++ frame [tq_network q; tq_token_contract q; tq_payer q; tq_recipient q; Amount.to_string (tq_amount q);
                 tq_transaction q])).

(** The depth of a transaction: the reported confirmations, or the slots since *)
Definition solana_confirmations (status : TransactionStatus) (current_slot : N) : N :=
  match ts_confirmations status with
  | None => u64_saturating_add (current_slot - ts_slot status) 1
  | Some c => u64_saturating_add (N.min c U64_MAX) 1
  end.

(** [ReceiptSource::lookup] *)
Definition solana_lookup (src : SolanaRpcReceiptSource) (answers : SolanaAnswers) (q : TransferQuery)
  : Result Error ReceiptObservation :=
  validate_solana_query q (ss_network src) ;?
  let? signature := ok_or (solsig_from_str (tq_transaction q)) (Settlement "Solana transaction signature is invalid") in
  let? joined := map_err (fun error => Settlement ("Solana receipt RPC failed: " ++ error)) (sa_joined answers) in
  let '(genesis, statuses, current_slot) := joined in
  validate_genesis src genesis ;?
  match head statuses with
  | None | Some None => Ok RcPending
  | Some (Some status) =>
      if ts_failed status then Ok (RcMismatch "Solana transaction execution failed")
      else if ts_confirmation_status status == Processed then Ok RcPending
      else
        let confirmations := solana_confirmations status current_slot in
        if (confirmations <? ss_minimum_confirmations src)%N then Ok RcPending else
        let? found := map_err (fun error => Settlement ("load Solana transaction: " ++ error)) (sa_transaction answers) in
        match found with
        | None => Ok RcPending
        | Some confirmed =>
            let? reason := validate_confirmed_transfer confirmed signature q in
            match reason with
            | Some reason => Ok (RcMismatch reason)
            | None =>
                let? effective_at :=
                  match cx_block_time confirmed with
                  | Some block_time => Ok block_time
                  | None => map_err (fun error => Settlement ("load Solana block time: " ++ error))
                                    (sa_block_time answers (cx_slot confirmed))
                  end in
                Ok (RcConfirmed {| ct_authority := ss_authority src; ct_transaction := tq_transaction q;
                                   ct_effect_ref := solana_effect_ref q; ct_confirmations := confirmations;
                                   ct_minimum_confirmations := ss_minimum_confirmations src;
                                   ct_effective_at := effective_at |})
            end
        end
  end.
End Solana.

(** ** Properties *)

Section Evidence.
Context `{SolanaReference, SolanaCrypto, SolanaPubkey, SolanaSignatureBytes, Sha256}.

(** What an account holds of a token: the sum of its entries. *)
Definition holding (owner mint : string) (b : UiTransactionTokenBalance) : N :=
  if bool_decide (ub_owner b = Some owner) && bool_decide (ub_mint b = mint)
  then unwrap_or 0%N (parse_unsigned U128_MAX (ub_amount b)) else 0%N.
Definition holdings (owner mint : string) (l : list UiTransactionTokenBalance) : N :=
  foldr N.add 0%N (map (holding owner mint) l).

(** The checked sum is the sum, and never wraps. *)
Lemma add_balance_ok owner mint total b n :
  add_balance owner mint total b = Ok n -> n = (total + holding owner mint b)%N /\ (n = total \/ (n <= U128_MAX)%N).
Proof.
  unfold add_balance, holding. destruct (ub_owner b) as [o|]; [|intros [= <-]; rewrite bool_decide_false by done; simpl; split; [lia|by left]].
  destruct (decide (o = owner)) as [->|Hne].
  - rewrite (bool_decide_true (owner = owner)), (bool_decide_true (Some owner = Some owner)) by done. destruct (decide (ub_mint b = mint)) as [Hm|Hne].
    + rewrite !bool_decide_true by done. cbn [negb orb andb]. intros (a & Ha%ok_or_ok & Hb%ok_or_ok)%rbind_ok. rewrite Ha.
      unfold u128_checked_add in Hb. destruct (N.leb_spec (total + a) U128_MAX); [|done]. injection Hb as <-. simpl. split; [lia|by right].
    + rewrite (bool_decide_false _ Hne). cbn [negb orb andb]. intros [= <-]. split; [lia|by left].
  - rewrite (bool_decide_false _ Hne), (bool_decide_false (Some o = Some owner)) by congruence. cbn [negb orb andb].
    intros [= <-]. split; [lia|by left].
Qed.
Lemma add_balances_ok owner mint l total n :
  rfold (add_balance owner mint) total l = Ok n -> n = (total + holdings owner mint l)%N /\ (n = total \/ (n <= U128_MAX)%N).
Proof.
  revert total. induction l as [|b l IH]; intros total; simpl.
  - intros [= <-]. unfold holdings. simpl. split; [lia|by left].
  - intros (t1 & [-> Hb1]%add_balance_ok & Hl)%rbind_ok. destruct (IH _ Hl) as [-> Hb2]. unfold holdings. simpl.
    fold (holdings owner mint l). split; [lia|]. destruct Hb2 as [E|?]; [|by right]. rewrite E. destruct Hb1; [by left|by right].
Qed.
Lemma solana_token_balance_ok o owner mint n :
  solana_token_balance o owner mint = Ok n ->
  exists l, o = Some l /\ n = holdings owner mint l /\ (holdings owner mint l <= U128_MAX)%N.
Proof.
  unfold solana_token_balance. intros (l & ->%ok_or_ok & Hl)%rbind_ok. destruct (add_balances_ok _ _ _ _ _ Hl) as [-> Hb].
  exists l. rewrite N.add_0_l in *. split_and!; [done..|]. destruct Hb as [->|?]; [unfold U128_MAX; lia|done].
Qed.

(** C21: a Solana transfer is confirmed by the balances it moved.  The node is on
    the configured cluster and the transaction deep enough; the transaction with
    this signature was executed without failure and carries a valid signature of
    the payer over its message; and across it the payer's holdings of the token
    fell by exactly the amount while the recipient's rose by exactly the amount,
    no sum having wrapped. *)
Theorem solana_confirmed_moved src answers q ev :
  solana_lookup src answers q = Ok (RcConfirmed ev) ->
  exists genesis status rest slot tx meta t pre post signature payer,
    sa_joined answers = Ok (genesis, Some status :: rest, slot)
    /\ String.substring 0 32 genesis = ss_chain_reference src
    /\ ts_failed status = false /\ ts_confirmation_status status <> Processed
    /\ (ss_minimum_confirmations src <= ct_confirmations ev)%N
    /\ ct_confirmations ev = solana_confirmations status slot
    /\ sa_transaction answers = Ok (Some tx) /\ cx_meta tx = Some meta /\ tm_failed meta = false
    /\ cx_transaction tx = Some t
    /\ solsig_from_str (tq_transaction q) = Some signature /\ head (vt_signatures t) = Some (solsig_bytes signature)
    /\ pubkey_from_str (tq_payer q) = Some payer /\ payer_signature_valid t (pubkey_to_string payer) = true
    /\ tm_pre_token_balances meta = Some pre /\ tm_post_token_balances meta = Some post
    /\ holdings (tq_payer q) (tq_token_contract q) pre
       = (holdings (tq_payer q) (tq_token_contract q) post + tq_amount q)%N
    /\ holdings (tq_recipient q) (tq_token_contract q) post
       = (holdings (tq_recipient q) (tq_token_contract q) pre + tq_amount q)%N
    /\ (holdings (tq_recipient q) (tq_token_contract q) post <= U128_MAX)%N
    /\ (holdings (tq_payer q) (tq_token_contract q) pre <= U128_MAX)%N.
Proof.
  unfold solana_lookup. intros (? & _ & Hl)%rbind_ok. apply rbind_ok in Hl as (signature & Hsig%ok_or_ok & Hl).
  apply rbind_ok in Hl as ([[genesis statuses] slot] & Hj%map_err_ok & Hl). apply rbind_ok in Hl as (? & Hg%reject_if_ok & Hl). bool_inv.
  destruct statuses as [|[status|] rest]; [done| |done]. simpl in Hl. destruct (ts_failed status) eqn:Hfail; [done|].
  case_bool_decide as Hproc; [done|]. destruct (N.ltb_spec (solana_confirmations status slot) (ss_minimum_confirmations src)) as [|Hmin]; [done|].
  apply rbind_ok in Hl as ([tx|] & Htx%map_err_ok & Hl); [|done]. apply rbind_ok in Hl as ([reason|] & Hv & Hl); [done|].
  apply rbind_ok in Hl as (at_ & _ & Hl). injection Hl as <-. simpl.
  unfold validate_confirmed_transfer in Hv. destruct (cx_meta tx) as [meta|] eqn:Hmeta; [|done]. destruct (tm_failed meta) eqn:Hmf; [done|].
  destruct (cx_transaction tx) as [t|] eqn:Ht; [|done]. apply rbind_ok in Hv as (payer & Hp%ok_or_ok & Hv).
  destruct (_ || _) eqn:Hb1 in Hv; [done|]. bool_inv.
  apply rbind_ok in Hv as (pp & B1%solana_token_balance_ok & Hv). apply rbind_ok in Hv as (qp & B2%solana_token_balance_ok & Hv).
  apply rbind_ok in Hv as (pr & B3%solana_token_balance_ok & Hv). apply rbind_ok in Hv as (qr & B4%solana_token_balance_ok & Hv).
  destruct (_ || _) eqn:Hb2 in Hv; [done|]. bool_inv. unfold u128_checked_sub in *.
  destruct B1 as (pre & Hpre & -> & Hb3), B2 as (post & Hpost & -> & _), B3 as (pre' & Hpre' & -> & _), B4 as (post' & Hpost' & -> & Hb4).
  rewrite Hpre in Hpre'. rewrite Hpost in Hpost'. simplify_eq.
  repeat match goal with Hi : (if ?b then _ else _) = Some _ |- _ => destruct b eqn:?; [|done]; injection Hi as Hi end. bool_inv.
  exists genesis, status, rest, slot, tx, meta, t, pre', post', signature, payer. split_and!; try done; lia.
Qed.
End Evidence.
