(* ===== verification/Reconciler.v ===== *)
(** * The reconciliation worker

    [ReconciliationPosting] of [src/src/payment/reconciliation_posting.rs] (what
    a confirmed settlement writes) and [PaymentReconciler] of
    [src/src/payment/reconciliation.rs]: one bounded pass leases due payments,
    asks the evidence source about each and commits, expires or reschedules it.
    The evidence source is a program, the clock a sequence of readings. *)

From S2P Require Import Prelude Text Money Json Wallet Intent Policy Ledger Records Store PaymentRules Budget PaymentStore Program Authorizer OutboxStore Sealing SigningService X402Sdk X402Evm SettlementFacts SettlementService Evidence.

#[local] Open Scope string_scope.
#[local] Open Scope vault_scope.

(** [format!("{:?}")] of a [str]: which characters it escapes depends on the
    Unicode tables of the standard library. *)
Class DebugText : Type := { str_debug : string -> string }.
Definition opt_debug `{DebugText} (o : option string) : string :=
  match o with Some s => "Some(" ++ str_debug s ++ ")" | None => "None" end.

Record ReconciliationCommit : Type := {
  rcm_intent : PaymentIntent;
  rcm_ledger : PaymentLedgerEntry;
  rcm_event : PaymentEvent;
  rcm_outbox : OutboxMessage
}.

(** ** Evidence *)

Section Evidence.
Context `{SolanaPubkey, SolanaSignature, Sha256}.

(** [ConfirmedSettlement::validate_for] *)
Definition validate_for (e : ConfirmedSettlement) (i : PaymentIntent) (observed_at : Z) : Result Error unit :=
  reject_if (blank (cs_authority e)) (Settlement "settlement evidence authority is empty") ;?
  reject_if (blank (cs_posting_key e)) (Settlement "settlement evidence posting key is empty") ;?
  let? expected_posting_key :=
    map_err (fun field => Settlement ("invalid settlement posting evidence: " ++ field))
            (settlement_posting_key (cs_authority e) (as_network (pi_asset i)) (cs_tx_hash e) (cs_settlement_ref e)
               (cs_effect_ref e)) in
  reject_if (cs_posting_key e != expected_posting_key)
            (Settlement "settlement evidence posting key is not canonical") ;?
  reject_if (cs_settled_amount e != pi_amount i)
            (Settlement "settlement evidence amount does not match the exact payment intent") ;?
  reject_if ((cs_asset e != pi_asset i)
             || negb (payment_recipients_match (as_network (pi_asset i)) (cs_recipient e) (pi_recipient i))
             || (cs_confirmations e <? cs_minimum_confirmations e)%N)
            (Settlement "settlement evidence asset, recipient, or confirmations do not match the intent") ;?
  reject_if (is_none_or blank (cs_tx_hash e) && is_none_or blank (cs_settlement_ref e))
            (Settlement "settlement evidence has no transaction or provider reference") ;?
  validate_trusted_effective_time (pi_created_at i) (cs_effective_at e) observed_at ;?
  reject_if (is_some_and (fun expected => cs_tx_hash e != Some expected) (pi_tx_hash i))
            (Settlement "settlement evidence transaction conflicts with the payment intent") ;?
  reject_if (is_some_and (fun expected => cs_settlement_ref e != Some expected) (pi_settlement_ref i))
            (Settlement "settlement evidence reference conflicts with the payment intent").
End Evidence.

(** ** Postings *)

(** [stable_id] *)
Definition stable_id `{Sha256} (prefix material : string) : string := prefix ++ "-" ++ hex_encode (sha256 material).

(** [reconciled_intent] *)
Definition reconciled_intent (i : PaymentIntent) (e : ConfirmedSettlement) (now : Z) : PaymentIntent :=
  with_settlement i (cs_settled_amount e) (cs_tx_hash e) (cs_settlement_ref e)
    (next_timestamp (pi_updated_at i) now) (Z.max (cs_effective_at e) (pi_created_at i)).

(** [reconciled_ledger] *)
Definition reconciled_ledger (i : PaymentIntent) (e : ConfirmedSettlement) (wallet_id ledger_id : string) (now : Z)
  : Result Error PaymentLedgerEntry :=
  let ledger :=
    {| le_id := ledger_id; le_intent_id := Some (pi_id i); le_scenario_id := Some (pi_scenario_id i);
       le_wallet_id := wallet_id; le_entry_type := LPayment; le_direction := pi_direction i; le_asset := pi_asset i;
       le_amount := cs_settled_amount e; le_posting_key := cs_posting_key e; le_tx_hash := cs_tx_hash e;
       le_settlement_ref := cs_settlement_ref e; le_effect_ref := cs_effect_ref e; le_transfer_ref := None;
       le_reversal_of := None; le_effective_at := cs_effective_at e; le_created_at := now |} in
  map_err (fun field => Settlement ("invalid reconciled ledger field: " ++ field)) (PaymentLedgerEntry_validate ledger) ;?
  Ok ledger.

Section Posting.
Context `{Sha256, DebugText}.

(** [reconciled_receipt] *)
Definition reconciled_receipt (i : PaymentIntent) (e : ConfirmedSettlement) : Result Error PaymentReceipt :=
  let material := cs_authority e ++ ":" ++ cs_posting_key e ++ ":" ++ opt_debug (cs_tx_hash e) ++ ":"
                  ++ opt_debug (cs_settlement_ref e) ++ ":" ++ Amount.to_string (cs_settled_amount e) in
  let receipt :=
    {| rt_intent_id := pi_id i; rt_scenario_id := pi_scenario_id i; rt_direction := pi_direction i;
       rt_protocol := pi_protocol i; rt_asset := pi_asset i; rt_recipient := pi_recipient i;
       rt_payer := cs_payer e; rt_requested_amount := pi_amount i; rt_settled_amount := cs_settled_amount e;
       rt_status := Settled; rt_tx_hash := cs_tx_hash e; rt_settlement_ref := cs_settlement_ref e;
       rt_evidence_hash := stable_id "evidence" material; rt_confirmed_at := cs_effective_at e |} in
  map_err (fun field => Settlement ("invalid reconciled receipt field: " ++ field)) (PaymentReceipt_validate receipt) ;?
  Ok receipt.

(** [reconciled_event] *)
Definition reconciled_event (i : PaymentIntent) (e : ConfirmedSettlement) (receipt : PaymentReceipt)
    (ledger_id stable_material : string) (attempt_no : N) (now : Z) : PaymentEvent :=
  {| ev_id := stable_id "event" stable_material; ev_intent_id := pi_id i; ev_event_type := EvReconciled;
     ev_attempt_no := attempt_no; ev_signature_ref := None; ev_tx_hash := cs_tx_hash e;
     ev_payload := jobject [("authority", JString (cs_authority e)); ("posting_key", JString (cs_posting_key e));
                            ("ledger_id", JString ledger_id); ("receipt", receipt_to_json receipt)];
     ev_created_at := now |}.

(** A pending message about the payment. *)
Definition payment_message (id : string) (i : PaymentIntent) (kind : string) (payload : json) (at_time : Z)
  : OutboxMessage :=
  {| ob_id := id; ob_aggregate_type := "payment_intent"; ob_aggregate_id := pi_id i; ob_event_type := kind;
     ob_destination := "scenario:" ++ pi_scenario_id i ++ ".payments"; ob_run_id := pi_run_id i;
     ob_payload := payload; ob_status := ObPending; ob_attempt_count := 0; ob_available_at := at_time;
     ob_lease_owner := None; ob_lease_expires_at := None; ob_last_error := None; ob_created_at := at_time;
     ob_delivered_at := None |}.

(** [reconciled_outbox] *)
Definition reconciled_outbox (i : PaymentIntent) (e : ConfirmedSettlement) (stable_material : string) (now : Z)
  : OutboxMessage :=
  payment_message (stable_id "outbox" stable_material) i "payment_settled"
    (jobject [("intent_id", JString (pi_id i)); ("scenario_id", JString (pi_scenario_id i));
              ("status", JString (status_as_str Settled));
              ("settled_amount", JString (Amount.to_string (cs_settled_amount e)));
              ("tx_hash", opt_json JString (cs_tx_hash e));
              ("settlement_ref", opt_json JString (cs_settlement_ref e))]) now.

(** [build_reconciliation_commit] *)
Definition build_reconciliation_commit (i : PaymentIntent) (e : ConfirmedSettlement) (attempt_no : N) (now : Z)
  : Result Error ReconciliationCommit :=
  let? wallet_id := ok_or (pi_wallet_id i) (Settlement "settled intent has no wallet") in
  let stable_material := wallet_id ++ ":" ++ pi_id i ++ ":" ++ cs_posting_key e in
  let ledger_id := stable_id "ledger" stable_material in
  let? receipt := reconciled_receipt i e in
  let? ledger := reconciled_ledger i e wallet_id ledger_id now in
  Ok {| rcm_intent := reconciled_intent i e now; rcm_ledger := ledger;
        rcm_event := reconciled_event i e receipt ledger_id stable_material attempt_no now;
        rcm_outbox := reconciled_outbox i e stable_material now |}.
End Posting.

(** ** Configuration *)

Definition MAX_RECONCILIATION_BATCH_SIZE : N := 1000.

Record ReconciliationConfig : Type := {
  rf_worker_id : string;
  rf_batch_size : N;
  rf_lease_duration : Duration;
  rf_initial_backoff : Duration;
  rf_max_backoff : Duration
}.
Record PaymentReconciler : Type := {
  rw_config : ReconciliationConfig;
  rw_lease_seconds : Z;
  rw_initial_backoff_seconds : Z;
  rw_max_backoff_seconds : Z
}.
Record ReconciliationRun : Type := {
  rn_claimed : N;
  rn_settled : N;
  rn_verified : N;
  rn_expired : N;
  rn_pending : N;
  rn_unknown : N;
  rn_unavailable : N;
  rn_provider_errors : N;
  rn_skipped : N
}.

(** [PaymentReconciler::duration_seconds] *)
Definition reconciliation_seconds (duration : Duration) (name : string) : Result Error Z :=
  let seconds := Z.of_N (as_secs duration) in
  reject_if (((as_secs duration =? 0)%N && (subsec_nanos duration =? 0)%N)
             || negb (subsec_nanos duration =? 0)%N || (I64_MAX <? seconds)%Z)
            (Config ("reconciliation " ++ name ++ " must be a positive whole number of seconds")) ;?
  Ok seconds.

(** [ReconciliationConfig::validate] *)
Definition reconciliation_validate (c : ReconciliationConfig) : Result Error unit :=
  reject_if (blank (rf_worker_id c)) (Config "reconciliation worker_id must not be empty") ;?
  reject_if ((rf_batch_size c =? 0)%N || (MAX_RECONCILIATION_BATCH_SIZE <? rf_batch_size c)%N)
            (Config "reconciliation batch_size must be between 1 and 1000") ;?
  reconciliation_seconds (rf_lease_duration c) "lease_duration" ;?
  let? initial := reconciliation_seconds (rf_initial_backoff c) "initial_backoff" in
  let? maximum := reconciliation_seconds (rf_max_backoff c) "max_backoff" in
  reject_if (maximum <? initial)%Z (Config "reconciliation initial_backoff must not exceed max_backoff").

(** [PaymentReconciler::with_clock] *)
Definition reconciler_new (c : ReconciliationConfig) : Result Error PaymentReconciler :=
  reconciliation_validate c ;?
  let? lease := reconciliation_seconds (rf_lease_duration c) "lease_duration" in
  let? initial := reconciliation_seconds (rf_initial_backoff c) "initial_backoff" in
  let? maximum := reconciliation_seconds (rf_max_backoff c) "max_backoff" in
  Ok {| rw_config := c; rw_lease_seconds := lease; rw_initial_backoff_seconds := initial;
        rw_max_backoff_seconds := maximum |}.

(** [checked_timestamp_add] *)
Definition checked_timestamp_add (timestamp seconds : Z) (label : string) : Result Error Z :=
  ok_or (i64_checked_add timestamp seconds) (Storage (label ++ " timestamp overflow")).

Definition i64_checked_sub (a b : Z) : option Z := if i64_in_range (a - b) then Some (a - b)%Z else None.

(** [next_backoff] *)
Definition next_backoff (w : PaymentReconciler) (i : PaymentIntent) : Z :=
  let previous := unwrap_or 0%Z
    (next ← pi_next_reconcile_at i;
     delay ← i64_checked_sub next (pi_updated_at i);
     if (rw_initial_backoff_seconds w <=? delay)%Z then Some delay else None) in
  if (previous =? 0)%Z then rw_initial_backoff_seconds w
  else Z.min (i64_saturating_mul previous 2) (rw_max_backoff_seconds w).

(** ** One pass *)

(** One counter of the summary, by [saturating_add(1)]. *)
Inductive Outcome : Type :=
| OSettled | OVerified | OExpired | OPending | OUnknown | OUnavailable | OProviderError | OSkipped.

Definition bump (o target : Outcome) (n : N) : N :=
  match o, target with
  | OSettled, OSettled | OVerified, OVerified | OExpired, OExpired | OPending, OPending | OUnknown, OUnknown
  | OUnavailable, OUnavailable | OProviderError, OProviderError | OSkipped, OSkipped => u32_saturating_add n 1
  | _, _ => n
  end.
Definition count (o : Outcome) (r : ReconciliationRun) : ReconciliationRun :=
  {| rn_claimed := rn_claimed r; rn_settled := bump o OSettled (rn_settled r);
     rn_verified := bump o OVerified (rn_verified r); rn_expired := bump o OExpired (rn_expired r);
     rn_pending := bump o OPending (rn_pending r); rn_unknown := bump o OUnknown (rn_unknown r);
     rn_unavailable := bump o OUnavailable (rn_unavailable r);
     rn_provider_errors := bump o OProviderError (rn_provider_errors r);
     rn_skipped := bump o OSkipped (rn_skipped r) |}.

Section Worker.
Context `{SolanaPubkey, SolanaSignature, Sha256, DebugText}.
(** [ReconciliationEvidenceSource::lookup] *)
Variable lookup_evidence : PaymentIntent -> Z -> Prog DB ReconciliationEvidence.
Variable w : PaymentReconciler.

(** [reschedule] *)
Definition reschedule_intent (i : PaymentIntent) (now : Z) : Prog DB unit :=
  let& next := glift (checked_timestamp_add now (next_backoff w i) "reconciliation retry") in
  await (release_reconciliation_lease (pi_id i) (rf_worker_id (rw_config w)) next).

(** The write of [commit_expired]. *)
Definition expired_write (i : PaymentIntent) (attempt_no : N) (now : Z) (stage reason : string)
  : PaymentProgressWrite :=
  let updated_at := next_timestamp (pi_updated_at i) now in
  let material := pi_id i ++ ":" ++ stage in
  {| pgw_intent := with_progress i Expired Released None updated_at; pgw_expected_updated_at := pi_updated_at i;
     pgw_events := [{| ev_id := stable_id "event" material; ev_intent_id := pi_id i; ev_event_type := EvFailed;
                       ev_attempt_no := attempt_no; ev_signature_ref := None; ev_tx_hash := None;
                       ev_payload := jobject [("stage", JString stage); ("reason", JString reason)];
                       ev_created_at := updated_at |}];
     pgw_outbox := [payment_message (stable_id "outbox" material) i "payment_expired"
                      (jobject [("intent_id", JString (pi_id i)); ("scenario_id", JString (pi_scenario_id i));
                                ("status", JString (status_as_str Expired)); ("reason", JString stage)]) updated_at] |}.
(** [commit_expired] *)
Definition commit_expired (i : PaymentIntent) (attempt_no : N) (now : Z) (stage reason : string) : Prog DB unit :=
  await (commit_progress (expired_write i attempt_no now stage reason)) ;& gret tt.

(** [commit_expired_challenge] *)
Definition commit_expired_challenge (i : PaymentIntent) (attempt_no : N) (now : Z) : Prog DB unit :=
  glift (reject_if ((pi_status i != Created)
                    || is_none_or (fun expires_at => (now <? expires_at)%Z) (pi_expires_at i)
                    || (pi_reservation_status i != Reserved))
                   (Settlement "challenge expiry does not match a due reserved intent")) ;&
  commit_expired i attempt_no now "challenge_expiry" "challenge expired".

(** [commit_expired_settlement] *)
Definition commit_expired_settlement (i : PaymentIntent) (attempt_no : N) (now : Z) (reason : string)
  : Prog DB unit :=
  glift (reject_if ((pi_direction i != Inbound)
                    || (pi_protocol i != "x402")
                    || match pi_status i with PendingSettlement | Unknown => false | _ => true end
                    || (pi_reservation_status i != Reserved))
                   (Settlement "authorization expiry does not match a recoverable inbound settlement")) ;&
  commit_expired i attempt_no now "settlement_authorization_expiry" reason.

(** [commit_confirmed] *)
Definition reconciliation_write (i : PaymentIntent) (commit : ReconciliationCommit) : SettlementWrite :=
  {| sw_intent := rcm_intent commit; sw_expected_updated_at := pi_updated_at i; sw_events := [rcm_event commit];
     sw_ledger_entries := [rcm_ledger commit]; sw_outbox := [rcm_outbox commit] |}.
Definition commit_confirmed (i : PaymentIntent) (e : ConfirmedSettlement) (attempt_no : N) (now : Z) : Prog DB unit :=
  glift (validate_for e i now) ;&
  let& commit := glift (build_reconciliation_commit i e attempt_no now) in
  await (commit_settlement (reconciliation_write i commit)) ;& gret tt.

(** [commit_verified] *)
Definition verified_write (i : PaymentIntent) (verification_ref : string) (attempt_no : N) (next : Z)
    (updated_at : Z) : PaymentProgressWrite :=
  {| pgw_intent := with_progress i PendingSettlement (pi_reservation_status i) (Some next) updated_at;
     pgw_expected_updated_at := pi_updated_at i;
     pgw_events := [{| ev_id := stable_id "event" (pi_id i ++ ":verified:" ++ verification_ref);
                       ev_intent_id := pi_id i; ev_event_type := EvCredentialVerified; ev_attempt_no := attempt_no;
                       ev_signature_ref := None; ev_tx_hash := None;
                       ev_payload := jobject [("verification_ref", JString verification_ref);
                                              ("recovered", JBool true)];
                       ev_created_at := updated_at |}];
     pgw_outbox := [] |}.
Definition commit_verified (i : PaymentIntent) (verification_ref : string) (attempt_no : N) (now : Z) : Prog DB unit :=
  glift (reject_if ((pi_status i != Submitted) || blank verification_ref)
                   (Settlement "verified reconciliation evidence does not match a submitted intent")) ;&
  let updated_at := next_timestamp (pi_updated_at i) now in
  let& next := glift (checked_timestamp_add updated_at (rw_initial_backoff_seconds w) "verified settlement retry") in
  await (commit_progress (verified_write i verification_ref attempt_no next updated_at)) ;& gret tt.

(** [reconcile_intent] *)
Definition reconcile_intent (i : PaymentIntent) (attempt_no : N) (now : Z) (run : ReconciliationRun)
  : Prog DB ReconciliationRun :=
  if (pi_status i == Created) && is_some_and (fun expires_at => (expires_at <=? now)%Z) (pi_expires_at i) then
    commit_expired_challenge i attempt_no now ;& gret (count OExpired run)
  else if negb (needs_reconciliation i) then
    reschedule_intent i now ;& gret (count OSkipped run)
  else
    let& evidence := catch (lookup_evidence i now) in
    match evidence with
    | Ok (EvidConfirmed e) =>
        let& committed := catch (commit_confirmed i e attempt_no now) in
        match committed with
        | Ok _ => gret (count OSettled run)
        | Err (Settlement _) => reschedule_intent i now ;& gret (count OUnknown run)
        | Err error => glift (Err error)
        end
    | Ok (EvidVerified verification_ref) =>
        commit_verified i verification_ref attempt_no now ;& gret (count OVerified run)
    | Ok EvidPending => reschedule_intent i now ;& gret (count OPending run)
    | Ok (EvidExpired reason) =>
        commit_expired_settlement i attempt_no now reason ;& gret (count OExpired run)
    | Ok (EvidUnknown _) => reschedule_intent i now ;& gret (count OUnknown run)
    | Ok (EvidUnavailable _) => reschedule_intent i now ;& gret (count OUnavailable run)
    | Err _ => reschedule_intent i now ;& gret (count OProviderError run)
    end.

(** One claim of the loop of [run_once], at its own reading of the clock. *)
Definition reconcile_claim (run : ReconciliationRun) (claim : ReconciliationClaim * Result Error Z)
  : Prog DB ReconciliationRun :=
  let& now := glift (snd claim) in
  let& lease_until := glift (checked_timestamp_add now (rw_lease_seconds w) "reconciliation lease") in
  await (renew_reconciliation_lease (pi_id (rc_intent (fst claim))) (rf_worker_id (rw_config w)) lease_until) ;&
  reconcile_intent (rc_intent (fst claim)) (rc_attempt_no (fst claim)) now run.

(** [run_once]; [clock n] is the [n]-th reading of the pass. *)
Definition reconcile_once (clock : nat -> Result Error Z) : Prog DB ReconciliationRun :=
  let& claim_now := glift (clock 0) in
  let& lease_until := glift (checked_timestamp_add claim_now (rw_lease_seconds w) "reconciliation lease") in
  let& claims := await (claim_reconciliation {| rl_owner := rf_worker_id (rw_config w); rl_now := claim_now;
                                                rl_lease_until := lease_until;
                                                rl_limit := rf_batch_size (rw_config w) |}) in
  gfold reconcile_claim
    {| rn_claimed := N.min U32_MAX (N.of_nat (length claims)); rn_settled := 0; rn_verified := 0; rn_expired := 0;
       rn_pending := 0; rn_unknown := 0; rn_unavailable := 0; rn_provider_errors := 0; rn_skipped := 0 |}
    (zip claims (clock <$> seq 1 (length claims))).
End Worker.
