(* ===== verification/ReconcilerSafety.v ===== *)
(** * What reconciliation guarantees

    The worker of [Reconciler] while every other transaction of the vault runs
    between its calls: its backoff stays within its configuration, a pass
    accounts for every payment it claimed, it settles only on validated
    evidence of a provider or the chain, and otherwise moves no money; and the
    two ways to settle a payment post the same fact. *)

From S2P Require Import Prelude Text Money Json Wallet Intent Policy Ledger Records Store LedgerStore PaymentRules Budget PaymentStore Program Authorizer Samples IntentFlow BudgetSafety Lifecycle OutboxStore System AuthorizerSafety Sealing ApprovalServiceSafety SigningService X402Sdk X402Evm SettlementFacts SettlementService SigningServiceSafety SettlementSamples ChallengeSafety VerificationSafety SettlementSafety Evidence EvidenceSafety Reconciler.
From stdpp Require Import relations.

#[local] Open Scope string_scope.
#[local] Open Scope vault_scope.

(** ** Backoff *)

Lemma reconciliation_seconds_ok duration name s :
  reconciliation_seconds duration name = Ok s -> (0 < s <= I64_MAX)%Z.
Proof. unfold reconciliation_seconds. intros Hs. run_inv. bool_inv.
  match goal with Hs : _ && _ = false, Hn : subsec_nanos _ = _ |- _ => rewrite Hn, andb_true_r, N.eqb_neq in Hs end. lia.
Qed.

Lemma reconciler_new_ok c w :
  reconciler_new c = Ok w ->
  rw_config w = c /\ (1 <= rf_batch_size c <= 1000)%N /\ (0 < rw_lease_seconds w)%Z
  /\ (0 < rw_initial_backoff_seconds w <= rw_max_backoff_seconds w)%Z /\ (rw_max_backoff_seconds w <= I64_MAX)%Z.
Proof.
  unfold reconciler_new, reconciliation_validate. intros Hn. run_inv. bool_inv.
  repeat match goal with
         | A : reconciliation_seconds ?t ?n = Ok ?x, B : reconciliation_seconds ?t ?n = Ok ?y |- _ =>
             rewrite A in B; injection B as ->
         end.
  repeat match goal with Hs : reconciliation_seconds _ _ = Ok _ |- _ => apply reconciliation_seconds_ok in Hs end.
  simpl. unfold MAX_RECONCILIATION_BATCH_SIZE in *. split_and!; try done; lia.
Qed.

Lemma saturating_double p m :
  (0 <= p)%Z -> (m <= I64_MAX)%Z -> Z.min (i64_saturating_mul p 2) m = Z.min (2 * p) m.
Proof.
  intros Hp Hm. unfold i64_saturating_mul, i64_clamp.
  destruct (Z.ltb_spec (p * 2) I64_MIN) as [Hl|_]; [unfold I64_MIN in Hl; lia|].
  destruct (Z.ltb_spec I64_MAX (p * 2)); lia.
Qed.

Definition previous_backoff (w : PaymentReconciler) (i : PaymentIntent) : Z :=
  unwrap_or 0%Z
    (next ← pi_next_reconcile_at i;
     delay ← i64_checked_sub next (pi_updated_at i);
     if (rw_initial_backoff_seconds w <=? delay)%Z then Some delay else None).

Lemma previous_backoff_cases w i :
  previous_backoff w i = 0%Z
  \/ exists next, pi_next_reconcile_at i = Some next /\ previous_backoff w i = (next - pi_updated_at i)%Z
       /\ (rw_initial_backoff_seconds w <= next - pi_updated_at i)%Z.
Proof.
  unfold previous_backoff, i64_checked_sub. destruct (pi_next_reconcile_at i) as [next|]; [|by left].
  cbn [mbind option_bind]. destruct (i64_in_range _); [|by left]. cbn [mbind option_bind].
  destruct (Z.leb_spec (rw_initial_backoff_seconds w) (next - pi_updated_at i)); [|by left]. right. by exists next.
Qed.

Lemma previous_backoff_doubled w i next :
  pi_next_reconcile_at i = Some next -> (rw_initial_backoff_seconds w <= next - pi_updated_at i <= I64_MAX)%Z ->
  (0 < rw_initial_backoff_seconds w)%Z -> previous_backoff w i = (next - pi_updated_at i)%Z.
Proof.
  intros Hn Hr Hp. unfold previous_backoff, i64_checked_sub, i64_in_range. rewrite Hn. cbn [mbind option_bind].
  rewrite (proj2 (Z.leb_le I64_MIN _)), (proj2 (Z.leb_le _ I64_MAX)) by (unfold I64_MIN; lia). cbn [andb mbind option_bind].
  by rewrite (proj2 (Z.leb_le _ _)) by lia.
Qed.

(** C36: the retry delay is bounded: for a worker built from a valid
    configuration the delay is positive, between the initial and the maximum
    backoff, and never overflows; a payment that was already backed off by a
    delay of at least the initial one gets twice that delay, capped. *)
Theorem next_backoff_bounded c w i :
  reconciler_new c = Ok w ->
  (0 < rw_initial_backoff_seconds w <= next_backoff w i)%Z /\ (next_backoff w i <= rw_max_backoff_seconds w <= I64_MAX)%Z
  /\ (forall next, pi_next_reconcile_at i = Some next ->
        (rw_initial_backoff_seconds w <= next - pi_updated_at i <= I64_MAX)%Z ->
        next_backoff w i = Z.min (2 * (next - pi_updated_at i)) (rw_max_backoff_seconds w)).
Proof.
  intros (_ & _ & _ & Hb & Hm)%reconciler_new_ok.
  assert (next_backoff w i = if (previous_backoff w i =? 0)%Z then rw_initial_backoff_seconds w
            else Z.min (i64_saturating_mul (previous_backoff w i) 2) (rw_max_backoff_seconds w)) as -> by done.
  assert (0 <= previous_backoff w i)%Z as Hp by (destruct (previous_backoff_cases w i) as [->|(next & _ & -> & ?)]; lia).
  rewrite (saturating_double _ _ Hp Hm). split; [|split].
  - destruct (previous_backoff_cases w i) as [->|(next & _ & -> & ?)]; [simpl; lia|]. rewrite (proj2 (Z.eqb_neq _ 0)); lia.
  - destruct (previous_backoff_cases w i) as [->|(next & _ & -> & ?)]; [simpl; lia|]. rewrite (proj2 (Z.eqb_neq _ 0)); lia.
  - intros next Hn Hr. rewrite (previous_backoff_doubled _ _ _ Hn Hr) by lia. by rewrite (proj2 (Z.eqb_neq _ 0)) by lia.
Qed.

(** ** Accounting *)

Definition run_total (r : ReconciliationRun) : N :=
  (rn_settled r + rn_verified r + rn_expired r + rn_pending r + rn_unknown r + rn_unavailable r + rn_provider_errors r
   + rn_skipped r)%N.

Lemma count_total o r :
  (run_total r < U32_MAX)%N -> run_total (count o r) = (run_total r + 1)%N /\ rn_claimed (count o r) = rn_claimed r.
Proof.
  intros Hlt. split; [|done]. unfold run_total in *. destruct o; simpl; unfold u32_saturating_add; lia.
Qed.

Section Accounts.
Context `{SolanaPubkey, SolanaSignature, Sha256, DebugText}.
Variable look : PaymentIntent -> Z -> Prog DB ReconciliationEvidence.
Variable w : PaymentReconciler.

Ltac outcome := prog_inv; simplify_eq; by eexists.

Lemma reconcile_intent_counts env i n now run d run' d' :
  exec env (reconcile_intent look w i n now run) d (Ok run') d' -> exists o, run' = count o run.
Proof.
  unfold reconcile_intent. intros Hx. repeat (case_match; try outcome). prog_inv.
  match type of Hx with exec _ (match ?e with _ => _ end) _ _ _ => destruct e as [[]|] end; try outcome.
  prog_inv.
  match type of Hx with exec _ (match ?e with _ => _ end) _ _ _ => destruct e as [|[]] end; try outcome.
Qed.

Lemma reconcile_claims_count env cs run d run' d' :
  exec env (gfold (reconcile_claim look w) run cs) d (Ok run') d' ->
  (run_total run + N.of_nat (length cs) < U32_MAX)%N ->
  run_total run' = (run_total run + N.of_nat (length cs))%N /\ rn_claimed run' = rn_claimed run.
Proof.
  revert run d. induction cs as [|c cs IH]; intros run d Hx Hlt; cbn [gfold] in Hx; prog_inv.
  { cbn [length]. split; [lia|done]. }
  match goal with Hc : exec _ (reconcile_claim _ _ _ _) _ _ _ |- _ => unfold reconcile_claim in Hc; prog_inv end.
  match goal with Hc : exec _ (reconcile_intent _ _ _ _ _ _) _ _ _ |- _ => apply reconcile_intent_counts in Hc as [o ->] end.
  cbn [length] in Hlt. destruct (count_total o run ltac:(lia)) as [Ht Hcl].
  destruct (IH _ _ Hx ltac:(lia)) as [Ht' Hcl']. cbn [length]. split; [lia|congruence].
Qed.

Lemma claim_reconciliation_length q d cs d' :
  claim_reconciliation q d = Ok (cs, d') -> (length cs <= N.to_nat (rl_limit q))%nat.
Proof.
  intros (_ & ids & Hm & Hlen & _)%claim_reconciliation_selected.
  enough (length cs = length ids) by lia. clear Hlen. revert d cs Hm.
  induction ids as [|k ids IH]; intros d0 cs Hm; simpl in Hm; run_inv; simpl; [done|]. f_equal. by eapply IH.
Qed.

(** A pass accounts for its claims: whatever the evidence source answers
    and whatever happens in between, a completed pass has claimed at most its
    batch size, and its counters of settled, verified, expired, pending,
    unknown, unavailable, failed and skipped payments add up to the number
    claimed. *)
Lemma reconcile_once_accounts env c clock d run d' :
  reconciler_new c = Ok w -> exec env (reconcile_once look w clock) d (Ok run) d' ->
  run_total run = rn_claimed run /\ (rn_claimed run <= rf_batch_size c <= 1000)%N.
Proof.
  intros (<- & Hb & _)%reconciler_new_ok Hx. unfold reconcile_once in Hx. prog_inv.
  match goal with Hc : claim_reconciliation _ _ = Ok (?l, _) |- _ => apply claim_reconciliation_length in Hc as Hlen; rename l into cs end.
  cbn [rl_limit] in Hlen.
  assert (length (zip cs (clock <$> seq 1 (length cs))) = length cs) as Hz
    by (rewrite length_zip, length_fmap, length_seq; lia).
  apply reconcile_claims_count in Hx as [Ht Hcl].
  - rewrite Hz in Ht. rewrite Hcl. unfold run_total at 2 in Ht. cbn in Ht |- *. unfold U32_MAX. lia.
  - rewrite Hz. unfold run_total. cbn. unfold U32_MAX. lia.
Qed.
End Accounts.

(** ** Leases move no money *)

Lemma lease_no_money id guard f e d n d' :
  (forall r, same_immutable_identity_as (ir_intent r) (ir_intent (f r)) = true
             /\ pi_reserved_amount (ir_intent (f r)) = pi_reserved_amount (ir_intent r)
             /\ pi_reservation_status (ir_intent (f r)) = pi_reservation_status (ir_intent r)) ->
  sql_update_intent id guard f e d = Ok (n, d') -> no_money d d'.
Proof.
  intros Hf [[-> ->]|(r & -> & Hr & _ & _ & _ & ->)]%sql_update_intent_ok; [done|].
  destruct (Hf r) as (Hid & Ham & Hst). split; [done|]. intros scope dir u day now.
  destruct (usage_replace d (set_intent <[id := f r]> d) id r (f r) scope dir u day now Hr eq_refl eq_refl).
  destruct (contribution_shrinks r (f r) scope dir u Hid Ham); [congruence|]. lia.
Qed.

Lemma update_reconciliation_lease_no_money id owner until next d u d' :
  update_reconciliation_lease id owner until next d = Ok (u, d') -> no_money d d'.
Proof.
  unfold update_reconciliation_lease. intros Hu. run_inv.
  match goal with He : expect_one _ _ _ = Ok _ |- _ => apply expect_one_ok in He as [_ ->] end.
  destruct until; (eapply lease_no_money; [|eassumption]); intros r; split_and!; try done;
    apply same_immutable_identity_iff; by split_and!.
Qed.

Lemma claim_reconciliation_no_money q d cs d' : claim_reconciliation q d = Ok (cs, d') -> no_money d d'.
Proof.
  unfold claim_reconciliation. intros Hc. run_inv. eapply (tmapM_rel no_money); [|eassumption].
  intros id s1 c s2 _ Ho. unfold claim_one in Ho. run_inv.
  match goal with He : expect_one _ _ _ = Ok _ |- _ => apply expect_one_ok in He as [_ ->] end.
  match goal with Hl : load_or _ _ _ = Ok _ |- _ => apply load_or_ok in Hl; run_inv end.
  eapply lease_no_money; [|eassumption]. intros r. split_and!; try done. apply same_immutable_identity_refl.
Qed.

Lemma exec_await_err {A} env (m : Tx DB A) d e d' :
  exec env (await m) d (Err e) d' -> env d d' /\ m d' = Err e.
Proof.
  simpl. intros (s1 & He & Hx). unfold transaction in Hx. destruct (m s1) as [[a s2]|err] eqn:Hm; simpl in Hx;
    destruct Hx as [Hr ->]; [done|]. injection Hr as <-. done.
Qed.

Section Money.
Context `{SolanaPubkey, SolanaSignature, UrlParser, UuidNonce, Sha256, JsonText, JsonParse, MaterialProtector, X402Sdk, DebugText}.
Variable rec : MerchantEvidenceRecorder.
Variable svc : SettlementCoordinator.
Variable w : PaymentReconciler.

Lemma update_reconciliation_lease_step id owner until next d u d' :
  update_reconciliation_lease id owner until next d = Ok (u, d') -> rtc step d d'.
Proof. destruct u. intros Hu. by apply rtc_once, (step_commit (OpUpdateReconciliationLease id owner until next)). Qed.

Definition route : PaymentIntent -> Z -> Prog DB ReconciliationEvidence := router_lookup rec (coordinator_lookup svc).

Lemma route_no_money i t : calls_in no_money (route i t).
Proof.
  unfold route, router_lookup, coordinator_lookup, outbound_observation, load_expected_payer, reconciliation_observation,
    load_reconciliation_settlement, load_submission, load_challenge, settlement_requested_event. money_calls.
Qed.
Lemma route_steps i t : calls_in (rtc step) (route i t).
Proof.
  unfold route, router_lookup, coordinator_lookup, outbound_observation, load_expected_payer, reconciliation_observation,
    load_reconciliation_settlement, load_submission, load_challenge, settlement_requested_event. settlement_calls.
Qed.

Ltac lease_calls :=
  repeat (money_calls; try (apply calls_in_await; intros ? ? ?;
                            first [apply update_reconciliation_lease_no_money | apply claim_reconciliation_no_money])).

Lemma reschedule_no_money i now : calls_in no_money (reschedule_intent w i now).
Proof. unfold reschedule_intent, release_reconciliation_lease. lease_calls. Qed.

Lemma commit_confirmed_err_no_money i e n now d err d' :
  exec no_money (commit_confirmed i e n now) d (Err err) d' -> no_money d d'.
Proof.
  unfold commit_confirmed. do 2 error_step. intros Hx.
  apply exec_bind in Hx as [(x & s & _ & Hx)|(e' & _ & Hx)]; [by destruct Hx|]. by apply exec_await_err in Hx as [? _].
Qed.

Lemma reconcile_intent_money i n now run d run' d' :
  exec no_money (reconcile_intent route w i n now run) d (Ok run') d' -> rn_settled run' = 0%N ->
  rn_settled run = 0%N /\ no_money d d'.
Proof.
  intros Hx Hz. split.
  { apply reconcile_intent_counts in Hx as [o ->]. destruct o; simpl in Hz; unfold u32_saturating_add, U32_MAX in Hz; lia. }
  assert (forall (p : Prog DB unit) r dm, calls_in no_money p -> exec no_money (p ;& gret r) dm (Ok run') d' -> no_money dm d') as Hp.
  { intros p r dm Hc. apply (exec_rel no_money no_money); [done|]. by apply calls_in_bind. }
  unfold reconcile_intent in Hx. case_match.
  { revert Hx. apply Hp. unfold commit_expired_challenge, commit_expired. money_calls. }
  case_match. { revert Hx. apply Hp, reschedule_no_money. }
  apply exec_bind_ok in Hx as (o & d1 & Ho & Hx). apply (proj1 (exec_catch_ok _ _ _ _ _)) in Ho.
  etrans; [eapply (exec_rel no_money no_money); [done|apply route_no_money|exact Ho]|].
  destruct o as [[e| | | | |]|]; try (revert Hx; by apply Hp, reschedule_no_money).
  - apply exec_bind_ok in Hx as (o & d2 & Hc & Hx). apply (proj1 (exec_catch_ok _ _ _ _ _)) in Hc. destruct o as [u|[]]; try (by destruct Hx).
    + apply exec_ret_ok in Hx as [-> _]. exfalso. simpl in Hz. unfold u32_saturating_add, U32_MAX in Hz. lia.
    + etrans; [by eapply commit_confirmed_err_no_money|]. revert Hx. apply Hp, reschedule_no_money.
  - revert Hx. apply Hp. unfold commit_verified. money_calls.
  - revert Hx. apply Hp. unfold commit_expired_settlement, commit_expired. money_calls.
Qed.

Lemma reconcile_claims_money cs run d run' d' :
  exec no_money (gfold (reconcile_claim route w) run cs) d (Ok run') d' -> rn_settled run' = 0%N ->
  rn_settled run = 0%N /\ no_money d d'.
Proof.
  revert run d. induction cs as [|c cs IH]; intros run d Hx Hz; cbn [gfold] in Hx.
  { by apply exec_ret_ok in Hx as [-> ->]. }
  apply exec_bind_ok in Hx as (run1 & d1 & Hc & Hx). destruct (IH _ _ Hx Hz) as [Hz1 Hm]. unfold reconcile_claim in Hc. prog_inv.
  match goal with Hi : exec _ (reconcile_intent _ _ _ _ _ _) _ _ _ |- _ => destruct (reconcile_intent_money _ _ _ _ _ _ _ Hi Hz1) as [Hz0 Hm0] end.
  split; [done|]. etrans; [eassumption|]. etrans; [|exact Hm]. etrans; [|exact Hm0]. by eapply update_reconciliation_lease_no_money.
Qed.

(** A pass that settles nothing moves no money: with the evidence of the
    router (merchant responses, providers and chains), if a completed pass
    counted no settled payment and the others move no money in between, it
    posted no ledger entry and increased no usage, whatever it expired,
    verified or rescheduled. *)
Lemma reconcile_once_moves_money_only_by_settling clock d run d' :
  exec no_money (reconcile_once route w clock) d (Ok run) d' -> rn_settled run = 0%N -> no_money d d'.
Proof.
  intros Hx Hz. unfold reconcile_once in Hx. prog_inv.
  destruct (reconcile_claims_money _ _ _ _ _ Hx Hz) as [_ Hm].
  etrans; [eassumption|]. etrans; [by eapply claim_reconciliation_no_money|exact Hm].
Qed.
End Money.

(** ** Settlement rests on evidence *)

Section Backed.
Context `{SolanaPubkey, SolanaSignature, UrlParser, UuidNonce, Sha256, JsonText, JsonParse, MaterialProtector, X402Sdk, DebugText}.

(** The payment was settled by this attempt: its row, the ledger entry under
    the key of the evidence, and the receipt in its history. *)
Definition reconciled_now (d d' : DB) (i : PaymentIntent) (e : ConfirmedSettlement) : Prop :=
  exists d1 r r' k entry, rtc step d d1 /\ t_intent d1 !! pi_id i = Some r /\ t_intent d' !! pi_id i = Some r'
    /\ same_immutable_identity_as i (ir_intent r) = true
    /\ pi_status (ir_intent r') = Settled /\ pi_settled_amount (ir_intent r') = pi_amount (ir_intent r)
    /\ (pi_reservation_status (ir_intent r) = Reserved -> pi_reservation_status (ir_intent r') = Consumed)
    /\ t_ledger d' !! k = Some entry /\ le_intent_id entry = Some (pi_id i) /\ Some (le_wallet_id entry) = pi_wallet_id i
    /\ le_direction entry = pi_direction i /\ le_amount entry = pi_amount i /\ le_asset entry = pi_asset i
    /\ le_posting_key entry = cs_posting_key e.

Lemma build_reconciliation_commit_ok i e n now commit :
  build_reconciliation_commit i e n now = Ok commit ->
  rcm_intent commit = reconciled_intent i e now
  /\ le_intent_id (rcm_ledger commit) = Some (pi_id i) /\ Some (le_wallet_id (rcm_ledger commit)) = pi_wallet_id i
  /\ le_direction (rcm_ledger commit) = pi_direction i /\ le_amount (rcm_ledger commit) = cs_settled_amount e
  /\ le_asset (rcm_ledger commit) = pi_asset i /\ le_posting_key (rcm_ledger commit) = cs_posting_key e.
Proof.
  unfold build_reconciliation_commit. intros Hb. run_inv.
  match goal with Hl : reconciled_ledger _ _ _ _ _ = Ok _ |- _ => unfold reconciled_ledger in Hl; run_inv end.
  by split_and!.
Qed.

Lemma validate_for_amount e i now u : validate_for e i now = Ok u -> cs_settled_amount e = pi_amount i.
Proof. unfold validate_for. intros Hv. run_inv. by bool_inv. Qed.

Lemma reconciliation_committed i e n now commit d stored d' :
  reachable d -> validate_for e i now = Ok tt -> build_reconciliation_commit i e n now = Ok commit ->
  commit_settlement (reconciliation_write i commit) d = Ok (stored, d') -> reconciled_now d d' i e.
Proof.
  intros Hr Ham%validate_for_amount (Hint & Hli & Hlw & Hld & Hla & Hlas & Hlp)%build_reconciliation_commit_ok Hcom.
  pose proof (commit_settlement_facts _ _ _ _ (proj1 (reachable_safe _ Hr)) Hcom)
    as (row & row' & Hk & Hk' & Heq & _ & Hall & Hres).
  destruct (Hall _ (proj2 (list_elem_of_singleton _ _) eq_refl)) as (x & key & Hx & Hsame).
  apply same_fact_content_spec in Hsame as (Hw & Hpk & Hin & _ & _ & Hdir & Has & Hamt & _).
  apply commit_settlement_shape in Hcom as (-> & row2 & _ & _ & _ & _ & _ & Hk2 & Hv & _).
  cbn [reconciliation_write sw_intent] in *. rewrite Hint in *.
  change (pi_id (reconciled_intent i e now)) with (pi_id i) in *. rewrite Hk in Hk2. injection Hk2 as <-.
  apply validate_settlement_transition_ok in Hv as (_ & Hid & _). apply same_immutable_identity_iff in Hid. simpl in Hid.
  exists d, row, row', key, x. rewrite Heq.
  assert (same_immutable_identity_as i (ir_intent row) = true) as Hrow by (apply same_immutable_identity_iff; intuition congruence).
  pose proof (proj1 (same_immutable_identity_iff _ _) Hrow) as Hsame.
  split_and!; try done; try congruence.
  - simpl. intuition congruence.
  - intros Hre. by destruct (Hres Hre) as [-> _].
Qed.

(** Where confirmed evidence comes from: for a payment received, the
    configured provider or the chain; for a payment made, the chain. *)
Definition evidenced (rec : MerchantEvidenceRecorder) (svc : SettlementCoordinator) (i : PaymentIntent)
    (e : ConfirmedSettlement) : Prop :=
  match pi_direction i with
  | Outbound => chain_proven rec i e
  | Inbound => exists authority result at_time minimum, confirmed_by svc i authority result
                 /\ provider_result_to_evidence i at_time authority minimum result = Ok (EvidConfirmed e)
  end.

Lemma provider_result_confirmed i t authority minimum r e :
  provider_result_to_evidence i t authority minimum r = Ok (EvidConfirmed e) -> validate_confirmed_for r i minimum = Ok tt.
Proof.
  unfold provider_result_to_evidence. intros Hp. repeat case_match; run_inv; try done.
  by match goal with Hv : validate_confirmed_for _ _ _ = Ok ?u |- _ => destruct u end.
Qed.

Lemma route_confirmed rec svc i t d e d' :
  exec (rtc step) (route rec svc i t) d (Ok (EvidConfirmed e)) d' -> rtc step d d' /\ evidenced rec svc i e.
Proof.
  intros Hx. split; [by eapply exec_steps, Hx; apply route_steps|]. unfold evidenced. destruct (pi_direction i) eqn:Hdir.
  - unfold route, router_lookup, coordinator_lookup in Hx. rewrite Hdir, bool_decide_false in Hx by done. cbn [negb] in Hx.
    prog_inv. match goal with Ho : exec _ (reconciliation_observation _ _ _) _ (Ok ?o) _ |- _ =>
      rename Ho into Hobs; destruct o; prog_inv; simplify_eq end.
    match goal with Hp : provider_result_to_evidence _ _ _ _ _ = Ok _ |- _ => pose proof (provider_result_confirmed _ _ _ _ _ _ Hp) as Hv end.
    destruct (observed_evidence _ _ _ _ _ _ _ _ _ Hobs Hv) as [_ Hby]. do 4 eexists. split; [exact Hby|eassumption].
  - by apply (router_lookup_outbound rec (coordinator_lookup svc) i t d e d').
Qed.

(** Reconciliation settles only on trusted evidence: however other
    transactions interleave, an attempt that counts a payment as settled found
    confirmed evidence (of the protocol's configured provider or of the chain
    for a received payment; for a made payment of the chain, for its own amount
    and recipient in the transaction the merchant's stored response names) that
    passed [validate_for]; and it has stored the payment settled in full, its
    amount in the ledger under the posting key of that evidence, and turned a
    held reservation into a consumed one. *)
Lemma reconcile_settles_backed rec svc w i n now run d run' d' :
  reachable d -> exec (rtc step) (reconcile_intent (route rec svc) w i n now run) d (Ok run') d' ->
  rn_settled run' <> rn_settled run ->
  exists e, evidenced rec svc i e /\ validate_for e i now = Ok tt /\ reconciled_now d d' i e.
Proof.
  intros Hr Hx Hn. unfold reconcile_intent in Hx. case_match; [by prog_inv; simplify_eq|]. case_match; [by prog_inv; simplify_eq|].
  prog_inv. match goal with Ho : exec _ (route _ _ _ _) _ ?o _ |- _ => rename Ho into Hlook; destruct o as [[e| | | | |]|] end;
    try by prog_inv; simplify_eq.
  destruct (route_confirmed _ _ _ _ _ _ _ Hlook) as [Hs1 He]. prog_inv.
  match goal with Hc : exec _ (commit_confirmed _ _ _ _) _ ?o _ |- _ => rename Hc into Hcom; destruct o as [u|[]] end;
    try by prog_inv; simplify_eq.
  prog_inv. simplify_eq. unfold commit_confirmed in Hcom. prog_inv.
  match goal with Hv : validate_for _ _ _ = Ok ?u |- _ => destruct u; rename Hv into Hval end.
  exists e. split_and!; [done|done|].
  match goal with Hb : build_reconciliation_commit _ _ _ _ = Ok _, Hc : commit_settlement _ ?s = Ok _ |- _ =>
    assert (rtc step d s) as Hsd by steps; pose proof (reachable_steps _ _ Hr Hsd) as Hrs;
    destruct (reconciliation_committed _ _ _ _ _ _ _ _ Hrs Hval Hb Hc) as (d1 & r & r' & k & x & Hs & Hrest) end.
  exists d1, r, r', k, x. split; [by etrans|done].
Qed.
End Backed.

(** ** Two ways to settle, one fact *)

Section OneFact.
Context `{SolanaPubkey, SolanaSignature, Sha256, JsonText, DebugText}.

Lemma nonempty_trimmed_nonempty o : nonempty_trimmed (nonempty o) = nonempty_trimmed o.
Proof. destruct o as [v|]; [|done]. unfold nonempty, blank. simpl. destruct (is_empty (trim v)) eqn:Hb; simpl; by rewrite ?Hb. Qed.

Lemma posting_key_nonempty authority network tx sref eref k :
  settlement_posting_key authority network tx sref eref = Ok k ->
  settlement_posting_key authority network (nonempty tx) (nonempty sref) (nonempty eref) = Ok k.
Proof.
  unfold settlement_posting_key. rewrite !nonempty_trimmed_nonempty. intros Hk.
  destruct eref as [v|]; [|exact Hk]. unfold nonempty. destruct (blank v) eqn:Hb; [|exact Hk].
  unfold validate_effect_ref in Hk. run_inv. unfold blank in Hb. bool_inv. congruence.
Qed.

(** C19: the two ways to settle a received payment post one fact: for the same
    provider result, the entry [settle_payment] posts and the entry the
    reconciliation worker posts have the same wallet and posting key, and the
    same payment, scenario, type, direction, asset and amount, so the ledger
    keeps one of them whichever commits first. *)
Theorem settlement_paths_post_one_fact ids i authority r effective at_time entry t minimum e n now commit :
  pi_direction i = Inbound ->
  confirmed_ledger ids i authority r effective at_time = Ok entry ->
  provider_result_to_evidence i t authority minimum r = Ok (EvidConfirmed e) ->
  build_reconciliation_commit i e n now = Ok commit ->
  same_posting_as entry (rcm_ledger commit) = true
  /\ le_intent_id entry = le_intent_id (rcm_ledger commit) /\ le_scenario_id entry = le_scenario_id (rcm_ledger commit)
  /\ le_entry_type entry = le_entry_type (rcm_ledger commit) /\ le_direction entry = le_direction (rcm_ledger commit)
  /\ le_asset entry = le_asset (rcm_ledger commit) /\ le_amount entry = le_amount (rcm_ledger commit).
Proof.
  intros Hdir Hc Hp Hb. unfold confirmed_ledger in Hc. run_inv.
  match goal with Hk : settlement_posting_key _ _ _ _ _ = Ok _ |- _ => apply posting_key_nonempty in Hk; rename Hk into Hkey end.
  unfold provider_result_to_evidence in Hp. repeat case_match; run_inv; try done.
  match goal with Hv : validate_confirmed_for _ _ _ = Ok _ |- _ => unfold validate_confirmed_for in Hv; run_inv; bool_inv end.
  unfold build_reconciliation_commit, reconciled_ledger in Hb. run_inv. simpl in *. simplify_eq.
  unfold same_posting_as. simpl. split_and!; try congruence. rewrite !bool_decide_true; [done|congruence..].
Qed.
End OneFact.

(** ** A verified payment whose settlement was never requested *)

Section Stuck.
Context `{SolanaPubkey, SolanaSignature, UrlParser, UuidNonce, Sha256, JsonText, JsonParse, MaterialProtector, X402Sdk, DebugText}.

Lemma read_eq {A} (m : Tx DB A) `{!ReadOnly m} : calls_in eq (await m).
Proof. apply calls_in_await. intros s a s' Hm. by apply read_only in Hm as ->. Qed.

Lemma run_alone_reads {A} (p : Prog DB A) d : calls_in eq p -> snd (run_alone p d) = d.
Proof.
  intros Hp. pose proof (run_alone_exec eq p d) as Hx. symmetry. by eapply (exec_rel eq eq); [| |exact Hx].
Qed.

Lemma load_reconciliation_settlement_reads svc i : calls_in eq (load_reconciliation_settlement svc i).
Proof.
  unfold load_reconciliation_settlement, load_submission, load_challenge.
  repeat first [apply calls_in_bind; [|intros ?] | done | (apply read_eq; apply _) | case_match].
Qed.

Lemma unrequested_lookup_fails rec svc i t d :
  uses_eip3009_recovery i = true -> find_for_intent_type (pi_id i) EvSettlementRequested 0 d = Ok (None, d) ->
  exists e, run_alone (route rec svc i t) d = (Err e, d).
Proof.
  intros Hu Hf. assert (pi_direction i = Inbound) as Hdir by (unfold uses_eip3009_recovery in Hu; bool_inv; done).
  unfold route, router_lookup, coordinator_lookup, reconciliation_observation.
  rewrite Hdir, bool_decide_false by done. cbn [negb]. rewrite !run_alone_bind.
  pose proof (run_alone_reads (load_reconciliation_settlement svc i) d (load_reconciliation_settlement_reads svc i)) as Hd.
  destruct (run_alone (load_reconciliation_settlement svc i) d) as [[s|e] d1]; simpl in Hd; subst; [|by eexists].
  rewrite Hu, run_alone_bind.
  assert (run_alone (settlement_requested_event i) d = (Ok None, d)) as -> by (by apply run_alone_await_ok). by eexists.
Qed.

Lemma reschedule_alone w i now d r d' :
  run_alone (reschedule_intent w i now) d = (r, d') ->
  forall k row', t_intent d' !! k = Some row' ->
  exists row, t_intent d !! k = Some row /\ pi_status (ir_intent row') = pi_status (ir_intent row)
    /\ pi_reservation_status (ir_intent row') = pi_reservation_status (ir_intent row).
Proof.
  unfold reschedule_intent, checked_timestamp_add. destruct (i64_checked_add _ _) as [next|]; simpl; [|by intros [= _ <-]; eauto].
  unfold transaction. destruct (release_reconciliation_lease _ _ _ _) as [[u s]|e] eqn:Hl; intros [= _ <-]; [|by eauto].
  unfold release_reconciliation_lease, update_reconciliation_lease in Hl. run_inv.
  match goal with He : expect_one _ _ _ = Ok _ |- _ => apply expect_one_ok in He as [_ ->] end.
  match goal with Hs : sql_update_intent _ _ _ _ _ = Ok _ |- _ => apply sql_update_intent_ok in Hs as [[_ ->]|(row & _ & Hrow & _ & _ & _ & ->)] end.
  { eauto. }
  intros k row' Hk. simpl in Hk. destruct (decide (k = pi_id i)) as [->|Hne]; [rewrite lookup_insert_eq in Hk; simplify_eq; eauto|].
  rewrite lookup_insert_ne in Hk by done. eauto.
Qed.

(** C38: a verified x402 payment on an EVM chain whose settlement was never
    requested is never resolved by reconciliation: at every time, however long
    after its challenge and authorization expired, an attempt by any worker and
    service counts a provider error or fails itself, and no payment changes its
    status or its reservation; the provider's verify API, which the operation's
    documentation names for this state, is not asked. *)
Theorem unrequested_settlement_stuck rec svc w i n now run d r d' :
  uses_eip3009_recovery i = true -> needs_reconciliation i = true -> pi_status i <> Created ->
  find_for_intent_type (pi_id i) EvSettlementRequested 0 d = Ok (None, d) ->
  run_alone (reconcile_intent (route rec svc) w i n now run) d = (r, d') ->
  (r = Ok (count OProviderError run) \/ exists e, r = Err e)
  /\ forall k row', t_intent d' !! k = Some row' ->
     exists row, t_intent d !! k = Some row /\ pi_status (ir_intent row') = pi_status (ir_intent row)
       /\ pi_reservation_status (ir_intent row') = pi_reservation_status (ir_intent row).
Proof.
  intros Hu Hneed Hcr Hf. unfold reconcile_intent. rewrite (bool_decide_false _ Hcr), Hneed. cbn [andb negb].
  rewrite run_alone_bind, run_alone_catch. destruct (unrequested_lookup_fails rec svc i now d Hu Hf) as [e ->].
  cbn [fst snd]. rewrite run_alone_bind. destruct (run_alone (reschedule_intent w i now) d) as [[u|err] s] eqn:Hs;
    intros [= <- <-]; (split; [by eauto|by eapply reschedule_alone]).
Qed.
End Stuck.

(** ** The sample worker *)

Module SampleWorker.
Definition seconds (n : N) : Duration := {| as_secs := n; subsec_nanos := 0 |}.
Definition config : ReconciliationConfig :=
  {| rf_worker_id := "worker-r"; rf_batch_size := 10; rf_lease_duration := seconds 60;
     rf_initial_backoff := seconds 5; rf_max_backoff := seconds 300 |}.
Definition worker : PaymentReconciler :=
  {| rw_config := config; rw_lease_seconds := 60; rw_initial_backoff_seconds := 5; rw_max_backoff_seconds := 300 |}.
Definition debug : DebugText := {| str_debug := fun s => s |}.
Definition started : ReconciliationRun :=
  {| rn_claimed := 1; rn_settled := 0; rn_verified := 0; rn_expired := 0; rn_pending := 0; rn_unknown := 0;
     rn_unavailable := 0; rn_provider_errors := 0; rn_skipped := 0 |}.
End SampleWorker.

#[local] Existing Instance Sample.codec.
#[local] Existing Instance Sample.parser.
#[local] Existing Instance sample_base58.
#[local] Existing Instance SamplePayee.digest.
#[local] Existing Instance SampleRing.uuids.
#[local] Existing Instance SampleSigner.text.
#[local] Existing Instance SampleSigner.parse.
#[local] Existing Instance SamplePayee.sdk.
#[local] Existing Instance sample_protector.
#[local] Existing Instance SampleWorker.debug.

Notation sample_route := (route SampleMerchant.recorder SamplePayee.service).
Notation sample_pass at_ := (reconcile_once sample_route SampleWorker.worker (fun _ => Ok at_)).
Definition sample_settling_db : DB := snd (run_alone (sample_pass 1700000100%Z) sample_hint_db).
Definition sample_settled_run : ReconciliationRun := count OSettled SampleWorker.started.
Definition sample_waiting_run : ReconciliationRun := count OProviderError SampleWorker.started.

Lemma sample_worker_new : reconciler_new SampleWorker.config = Ok SampleWorker.worker.
Proof. reflexivity. Qed.
Lemma sample_settling_pass :
  run_alone (sample_pass 1700000100%Z) sample_hint_db = (Ok sample_settled_run, sample_settling_db).
Proof. vm_compute. reflexivity. Qed.
Lemma next_backoff_bounded_witness :
  (0 < 5 <= next_backoff SampleWorker.worker (ro_intent sample_hint))%Z
  /\ (next_backoff SampleWorker.worker (ro_intent sample_hint) <= 300 <= I64_MAX)%Z.
Proof.
  destruct (next_backoff_bounded SampleWorker.config SampleWorker.worker (ro_intent sample_hint) sample_worker_new)
    as (Hlo & Hhi & _). split; [exact Hlo|exact Hhi].
Defined.

(** The sample provider's answer to a settlement request, posted both ways. *)
Definition sample_entry_settled : option PaymentLedgerEntry :=
  match confirmed_ledger (SamplePayee.ids "s") Sample.inbound "facilitator" (SamplePayee.answer OpSettle) 1700000020 1700000021 with
  | Ok e => Some e | Err _ => None end.
Definition sample_evidence : option ConfirmedSettlement :=
  match provider_result_to_evidence Sample.inbound 1700000020 "facilitator" 6 (SamplePayee.answer OpSettle) with
  | Ok (EvidConfirmed e) => Some e | _ => None end.
Lemma settlement_paths_post_one_fact_witness :
  exists entry e commit, sample_entry_settled = Some entry /\ sample_evidence = Some e
    /\ build_reconciliation_commit Sample.inbound e 1 1700000100 = Ok commit
    /\ same_posting_as entry (rcm_ledger commit) = true.
Proof.
  destruct (confirmed_ledger (SamplePayee.ids "s") Sample.inbound "facilitator" (SamplePayee.answer OpSettle) 1700000020 1700000021)
    as [entry|] eqn:Hc; [|vm_compute in Hc; discriminate Hc].
  destruct (provider_result_to_evidence Sample.inbound 1700000020 "facilitator" 6 (SamplePayee.answer OpSettle))
    as [[e| | | | |]|] eqn:Hp; try (vm_compute in Hp; discriminate Hp).
  destruct (build_reconciliation_commit Sample.inbound e 1 1700000100) as [commit|] eqn:Hb.
  - exists entry, e, commit. unfold sample_entry_settled, sample_evidence. rewrite Hc, Hp. split; [reflexivity|]. split; [reflexivity|].
    split; [exact Hb|].
    exact (proj1 (settlement_paths_post_one_fact (SamplePayee.ids "s") Sample.inbound "facilitator" (SamplePayee.answer OpSettle)
                    1700000020 1700000021 entry 1700000020 6 e 1 1700000100 commit eq_refl Hc Hp Hb)).
  - exfalso. vm_compute in Hp. injection Hp as <-. vm_compute in Hb. discriminate Hb.
Defined.

Definition sample_verified_intent : PaymentIntent := iv_intent (sample_verified_answer "v" 1700000010 sample_issue_db).
Lemma unrequested_settlement_stuck_witness :
  exists r d', run_alone (reconcile_intent sample_route SampleWorker.worker sample_verified_intent 1 1900000000
                            SampleWorker.started) sample_verify_db = (r, d')
    /\ (r = Ok sample_waiting_run \/ exists e, r = Err e).
Proof.
  destruct (run_alone (reconcile_intent sample_route SampleWorker.worker sample_verified_intent 1 1900000000
                         SampleWorker.started) sample_verify_db) as [r d'] eqn:Hr.
  exists r, d'. split; [reflexivity|].
  refine (proj1 (unrequested_settlement_stuck SampleMerchant.recorder SamplePayee.service SampleWorker.worker
                   sample_verified_intent 1 1900000000 SampleWorker.started sample_verify_db r d' _ _ _ _ Hr)).
  - vm_compute. reflexivity.
  - vm_compute. reflexivity.
  - vm_compute. discriminate.
  - vm_compute. reflexivity.
Defined.
