(* ===== verification/ChainSafety.v ===== *)
(** * A payment made is settled by the chain

    The reconciliation worker, the evidence router and the receipt sources
    composed: the recorder's receipt port is the [ReceiptRegistry], whose
    sources ask an EVM node; an outbound payment is settled only by a transfer
    that the node reported on the canonical chain. *)

From S2P Require Import Prelude Text Money Json Wallet Intent Policy Ledger Records Store LedgerStore PaymentRules Budget PaymentStore Program Authorizer Samples IntentFlow BudgetSafety Lifecycle OutboxStore System AuthorizerSafety Sealing ApprovalServiceSafety SigningService X402Sdk X402Evm SettlementFacts SettlementService SigningServiceSafety SettlementSamples ChallengeSafety VerificationSafety SettlementSafety Evidence EvidenceSafety Reconciler EvmReceipts ReceiptSafety ReconcilerSafety.
From stdpp Require Import relations.

#[local] Open Scope string_scope.
#[local] Open Scope vault_scope.

(** A registry of EVM sources. *)
Notation EvmRegistry := (ReceiptRegistry EvmRpcReceiptSource EvmRpcReceiptSource).

Section Chain.
Context `{SolanaPubkey, SolanaSignature, UrlParser, UuidNonce, Sha256, JsonText, JsonParse, MaterialProtector, X402Sdk, DebugText}.
Context `{EvmNode, RpcText}.

(** The recorder's receipt port is the registry; each answer was computed at
    some point of the exchange with the node. *)
Definition asks_registry (rec : MerchantEvidenceRecorder) (reg : EvmRegistry) : Prop :=
  forall q o, me_receipts rec q = Ok o -> exists n n', registry_lookup reg q n = (Ok o, n').

(** The chain carries the payment: under the source of its network, one
    transfer of its amount of its token to its recipient in the transaction the
    evidence names, at the depth the evidence records. *)
Definition paid_on_chain (reg : EvmRegistry) (i : PaymentIntent) (e : ConfirmedSettlement) : Prop :=
  exists src q ev r l b number latest,
    rg_sources reg !! as_network (pi_asset i) = Some src /\ on_chain src q ev r l b number latest
    /\ tq_recipient q = pi_recipient i /\ tq_amount q = pi_amount i
    /\ Some (tq_token_contract q) = as_token_contract (pi_asset i)
    /\ cs_tx_hash e = Some (tq_transaction q) /\ cs_confirmations e = ct_confirmations ev.

Lemma chain_proven_paid rec reg i e : asks_registry rec reg -> chain_proven rec i e -> paid_on_chain reg i e.
Proof.
  intros Hreg (d & event & response & q & ev & _ & _ & Hnet & _ & _ & Hto & Ham & Htok & Hr & _ & Htx & Hconf & _).
  destruct (Hreg _ _ Hr) as (n & n' & Hl). unfold registry_lookup in Hl.
  apply pbind_ok in Hl as (src & n1 & [Hs%ok_or_ok ->]%plift_ok & Hl).
  apply evm_lookup_confirmed in Hl as (_ & r & l & b & number & latest & Hon).
  exists src, q, ev, r, l, b, number, latest. rewrite <- Hnet. split_and!; try done.
  destruct (oc_evidence _ _ _ _ _ _ _ _ Hon) as (li & ix & ts & _ & _ & _ & Hev). by rewrite Htx, Hev.
Qed.

(** C7: reconciliation settles only on trusted evidence: however other
    transactions interleave, an attempt that counts a payment as settled found
    confirmed evidence that passed [validate_for]: of the protocol's configured
    provider or of the chain for a received payment; for a made payment, when
    the receipt registry looks up EVM networks ([EvmRegistry]), one transfer of its amount and token to its recipient in the transaction the
    merchant's stored response names, which the node of its network reported in
    a canonical block under the configured confirmations.  And it has stored
    the payment settled in full, its amount in the ledger under the posting key
    of that evidence, and turned a held reservation into a consumed one. *)
Theorem reconcile_settles_on_chain rec reg svc w i n now run d run' d' :
  reachable d -> asks_registry rec reg ->
  exec (rtc step) (reconcile_intent (route rec svc) w i n now run) d (Ok run') d' ->
  rn_settled run' <> rn_settled run ->
  exists e, evidenced rec svc i e /\ validate_for e i now = Ok tt /\ reconciled_now d d' i e
    /\ (pi_direction i = Outbound -> paid_on_chain reg i e).
Proof.
  intros Hr Hreg Hx Hn. destruct (reconcile_settles_backed _ _ _ _ _ _ _ _ _ _ Hr Hx Hn) as (e & He & Hv & Hnow).
  exists e. split_and!; try done. intros Hout. unfold evidenced in He. rewrite Hout in He. by eapply chain_proven_paid.
Qed.
End Chain.

(** ** The chain of the sample payment *)

(** A node that reports the transfer the merchant of [SampleMerchant] names. *)
Module SampleChain.
Definition account : string := "0xabcdef0123456789abcdef0123456789abcdef01".
Definition topic : string := "0x" ++ zeros 24 ++ "abcdef0123456789abcdef0123456789abcdef01".
Definition block_hash : string := "0x" ++ zeros 63 ++ "b".
Definition transfer_log : json :=
  jobject [("address", JString (unwrap_or "" (as_token_contract sample_asset)));
           ("topics", JArray [JString ERC20_TRANSFER_TOPIC; JString topic; JString topic]);
           ("data", JString ("0x" ++ zeros 59 ++ "3d090")); ("logIndex", JString "0x7");
           ("transactionHash", JString SampleMerchant.transaction_id);
           ("blockHash", JString block_hash); ("blockNumber", JString "0x5b")].
Definition receipt : json :=
  jobject [("transactionHash", JString SampleMerchant.transaction_id); ("blockHash", JString block_hash);
           ("blockNumber", JString "0x5b"); ("status", JString "0x1"); ("logs", JArray [transfer_log])].
Definition block : json :=
  jobject [("hash", JString block_hash); ("number", JString "0x5b"); ("timestamp", JString "0x6553f118")].

(** The response to a method is its name; [text] knows what that means. *)
#[export] Instance node : EvmNode :=
  {| post _ body := Ok {| hr_status := 200; hr_content_length := None;
                          hr_chunks := [Ok (unwrap_or "" (jget_str "method" body))] |} |}.
Definition result_of (method : string) : json :=
  if method == "eth_chainId" then JString "0x2105"
  else if method == "eth_blockNumber" then JString "0x64"
  else if method == "eth_getTransactionReceipt" then receipt
  else if method == "eth_getBlockByNumber" then block
  else JArray [].
#[export] Instance text : RpcText :=
  {| rpc_response_from_slice method :=
       Some {| rp_jsonrpc := "2.0"; rp_id := JNumber 1; rp_result := Some (result_of method); rp_error := None |} |}.

Definition source : EvmRpcReceiptSource :=
  {| es_network := "eip155:8453"; es_chain_id := 8453; es_authority := "evm-rpc:eip155:8453";
     es_minimum_confirmations := 6; es_max_response_bytes := 1024 |}.
Example chain_source_built : evm_source_new "eip155:8453" 6 1024 = Ok source.
Proof. vm_compute. reflexivity. Qed.
Definition registry : EvmRegistry := {| rg_sources := {["eip155:8453" := source]}; rg_authorizations := ∅ |}.
Definition recorder : MerchantEvidenceRecorder :=
  {| me_protocols := SampleMerchant.registry; me_receipts := fun q => fst (registry_lookup registry q 0) |}.
Lemma recorder_asks : asks_registry recorder registry.
Proof.
  intros q o Ho. exists 0, (snd (registry_lookup registry q 0)). simpl in Ho.
  rewrite <- Ho. by destruct (registry_lookup registry q 0).
Qed.
End SampleChain.

Section Witness.
#[local] Existing Instance Sample.codec.
#[local] Existing Instance Sample.parser.
#[local] Existing Instance sample_base58.
#[local] Existing Instance SamplePayee.digest.
#[local] Existing Instance SampleRing.uuids.
#[local] Existing Instance SampleSigner.text.
#[local] Existing Instance SampleSigner.parse.
#[local] Existing Instance SamplePayee.sdk.
#[local] Existing Instance sample_protector.
#[local] Existing Instance SampleWorker.debug.
Import SampleChain.

Notation chain_attempt :=
  (reconcile_intent (route recorder SamplePayee.service) SampleWorker.worker (ro_intent sample_hint) 1 1700000100 SampleWorker.started).
Definition sample_chain_db : DB := snd (run_alone chain_attempt sample_hint_db).
Lemma sample_chain_attempt : run_alone chain_attempt sample_hint_db = (Ok sample_settled_run, sample_chain_db).
Proof. vm_compute. reflexivity. Qed.
Lemma reconcile_settles_on_chain_witness :
  exists e, reconciled_now sample_hint_db sample_chain_db (ro_intent sample_hint) e
    /\ paid_on_chain registry (ro_intent sample_hint) e.
Proof.
  destruct (reconcile_settles_on_chain recorder registry SamplePayee.service SampleWorker.worker (ro_intent sample_hint) 1
              1700000100 SampleWorker.started sample_hint_db sample_settled_run sample_chain_db sample_hint_reachable
              recorder_asks (run_alone_exec_eq (rtc step) _ _ _ _ sample_chain_attempt) ltac:(discriminate))
    as (e & _ & _ & Hnow & Hpaid).
  exists e. split; [exact Hnow|]. apply Hpaid. vm_compute. reflexivity.
Defined.
End Witness.
