(* ===== verification/X402Safety.v ===== *)
(** * What the x402 adapter guarantees

    The payer's and the payee's side of [X402] against each other: an intact
    challenge says what its wire advertises and its digest identifies it; a
    challenge that the payee builds is understood by the payer with the same
    terms; a signed authorization is accepted until the challenge expires and
    was signed by the wallet that pays; and a verified credential authorizes
    exactly the challenged payment. *)

From Stdlib Require Import ZifyBool.
From S2P Require Import Prelude Text Money Json Wallet Intent Policy Ledger Records Store Authorizer SigningService CanonicalJson X402Sdk X402Evm X402Solana X402Wire SettlementFacts X402.

#[local] Open Scope string_scope.
#[local] Open Scope vault_scope.

(** ** What the adapter relies on *)

(** The payload with another signature. *)
Definition resigned (p : EvmPaymentPayload) (e : Eip3009Payload) (signature : string) : EvmPaymentPayload :=
  {| ep_accepted := ep_accepted p;
     ep_payload := Eip3009 {| e3_signature := signature; e3_authorization := e3_authorization e |};
     ep_resource := ep_resource p; ep_extensions := ep_extensions p |}.

(** The [serde] forms of the official types read back; a struct is decoded
    from its members in any order; a payload has the official shape.  A record
    here can hold more than the official type (a number over 256 bits, a text
    that is no address): [to_value] answers [Ok] on the records that the type
    can hold, whose signature is any byte string. *)
Class X402SdkLaws `{X402Sdk, JsonText} : Prop := {
  payment_required_reads_back : forall r j,
    Forall (fun raw => exists v, json_to_vec v = Ok raw) (rq_accepts r) ->
    payment_required_to_value r = Ok j -> payment_required_from_value j = Ok r;
  evm_requirement_reads_back : forall q j,
    evm_requirement_to_value q = Ok j -> evm_requirement_from_value j = Ok q;
  evm_requirement_wire : forall q j,
    evm_requirement_to_value q = Ok j -> regular_value j /\ jget_str "network" j = Some (er_network q);
  evm_requirement_order : forall j q,
    regular_value j -> evm_requirement_from_value j = Ok q -> evm_requirement_from_value (canonical_json j) = Ok q;
  evm_payload_reads_back : forall p j, evm_payload_to_value p = Ok j -> evm_payload_from_value j = Ok p;
  evm_payload_any_signature : forall p e j signature,
    ep_payload p = Eip3009 e -> evm_payload_to_value p = Ok j ->
    exists j', evm_payload_to_value (resigned p e signature) = Ok j';
  evm_payload_shape : forall p e name version j,
    ep_payload p = Eip3009 e -> er_extra (ep_accepted p) = MethodEip3009 name version ->
    evm_payload_to_value p = Ok j -> validate_payment_payload_wire j = Ok tt
}.

(** An address written with [0x] parses and prints its own hexadecimal digits, a
    chain identity its own text, and a signing hash has 32 bytes. *)
Class EvmCryptoLaws `{EvmCrypto} : Prop := {
  address_prints : forall e, evm_address_body ("0x" ++ e) = Some e ->
    exists a, address_from_str ("0x" ++ e) = Some a /\ to_ascii_lowercase a = evm_canonical e;
  checksummed_prints : forall s e a, evm_address_body s = Some e ->
    checksummed_from_str s = Some a -> to_ascii_lowercase a = evm_canonical e;
  chain_id_prints : forall s t, chain_id_from_str s = Some t -> t = s;
  signing_hash_length : forall t, str_len (eip712_signing_hash t) = 32%N
}.

(** [SHA-256] has 32 bytes. *)
Class Sha256Length `{Sha256} : Prop := { sha256_length : forall s, String.length (sha256 s) = 32 }.

(** A text that fits in memory. *)
Definition fits (s : string) : Prop := (str_len s <= U64_MAX)%N.
Lemma fits_all l : forallb (fun s => (str_len s <=? U64_MAX)%N) l = true -> Forall fits l.
Proof. intros Hl. rewrite List.forallb_forall in Hl. apply List.Forall_forall. intros s Hs. by apply N.leb_le, Hl. Qed.

(** ** Digests *)

Lemma hash_values_inj `{Sha256} vs ws :
  Forall fits vs -> Forall fits ws -> hash_values vs = hash_values ws -> vs = ws \/ collide (frame vs) (frame ws).
Proof. intros Hv Hw Heq%hex_encode_inj. by apply (framed_sha256_inj "" vs ws). Qed.

Lemma hex_encode_digits s : bytes_all is_lower_hexdigit (hex_encode s) = true.
Proof.
  assert (forall x, (x < 16)%N -> is_lower_hexdigit (hex_digit x) = true) as Hd.
  { intros x Hx. unfold hex_digit, is_lower_hexdigit, is_ascii_digit, in_range, byte_of.
    destruct (N.ltb_spec x 10); rewrite N_ascii_embedding by lia; lia. }
  induction s as [|c s IH]; [done|]. cbn [hex_encode bytes_all].
  rewrite IH, !Hd; [done|..]; [apply N.mod_lt; done|].
  apply N.Div0.div_lt_upper_bound. apply N_ascii_bounded.
Qed.
Lemma hex_encode_length s : String.length (hex_encode s) = 2 * String.length s.
Proof. induction s as [|c s IH]; simpl; lia. Qed.
Lemma hash_values_text `{Sha256, !Sha256Length} vs :
  str_len (hash_values vs) = 64%N /\ bytes_all is_lower_hexdigit (hash_values vs) = true.
Proof.
  split; [|apply hex_encode_digits]. unfold str_len, hash_values. by rewrite hex_encode_length, sha256_length.
Qed.

(** ** Challenges *)

Section Challenges.
Context `{SolanaPubkey, SolanaCrypto, X402Sdk, JsonText, JsonParse, UrlParser, Sha256}.

(** What a decoded challenge satisfies. *)
Record decoded (a : X402Adapter) (resource : string) (wire : json) (stored : option json)
  (g : X402ChallengeIntegrity) : Prop := {
  dc_safe : x402_validate_resource resource = Ok tt;
  dc_required : payment_required_from_value wire = Ok (ci_payment_required g);
  dc_url : exists r, rq_resource (ci_payment_required g) = Some r /\ ri_url r = resource;
  dc_selected : match stored with
                | Some s => parse_requirement a s = Ok (ci_selected g) /\ ci_selected_wire g = s
                | None => requirement a (ci_payment_required g) = Ok (ci_selected g, ci_selected_wire g)
                end;
  dc_advertised : advertised (ci_payment_required g) (ci_selected_wire g) = true;
  dc_valid : validate_requirement (ci_selected g) (xd_max_timeout_seconds a) = Ok tt;
  dc_asset : registered_asset a (requirement_network (ci_selected g)) (requirement_asset (ci_selected g)) = Ok (ci_asset g);
  dc_amount : requirement_amount (ci_selected g) = Ok (ci_amount g);
  dc_recipient : canonicalize_payment_recipient (requirement_network (ci_selected g)) (requirement_pay_to (ci_selected g))
                 = Ok (ci_recipient g)
}.

Lemma decode_challenge_wire_ok a resource wire stored g :
  decode_challenge_wire a resource wire stored = Ok g <-> decoded a resource wire stored g.
Proof.
  unfold decode_challenge_wire. split.
  - intros Hd. apply rbind_ok in Hd as ([] & Hsafe & Hd). apply rbind_ok in Hd as (required & Hreq & Hd).
    apply map_err_ok in Hreq. apply rbind_ok in Hd as (r & Hr & Hd). apply ok_or_ok in Hr.
    apply rbind_ok in Hd as (? & Hurl%reject_if_ok & Hd). apply negb_false_iff, bool_decide_eq_true in Hurl.
    apply rbind_ok in Hd as ([selected selected_wire] & Hsel & Hd).
    apply rbind_ok in Hd as (? & Hadv%reject_if_ok & Hd). apply negb_false_iff in Hadv.
    apply rbind_ok in Hd as ([] & Hv & Hd). cbv zeta in Hd. apply rbind_ok in Hd as (asset & Ha & Hd).
    apply rbind_ok in Hd as (amount & Ham & Hd). apply rbind_ok in Hd as (recipient & Hrec%map_err_ok & [= <-]).
    split; simpl; eauto. destruct stored; [|done]. apply rbind_ok in Hsel as (? & ? & [= <- <-]). done.
  - intros [Hs Hreq (r & Hr & Hu) Hsel Hadv Hv Ha Ham Hrec]. destruct g as [required selected selected_wire asset amount recipient].
    simpl in *. rewrite Hs. simpl. rewrite Hreq. simpl. rewrite Hr. simpl. rewrite bool_decide_true by done. simpl.
    assert (match stored with Some s => let? q := parse_requirement a s in Ok (q, s) | None => requirement a required end
            = Ok (selected, selected_wire)) as ->.
    { destruct stored; [|done]. destruct Hsel as [Hp ->]. by rewrite Hp. }
    simpl. rewrite Hadv, Hv. simpl. rewrite Ha. simpl. rewrite Ham. simpl. by rewrite Hrec.
Qed.

(** What an intact challenge satisfies, [wire] being the response it came from. *)
Record intact (a : X402Adapter) (c : PaymentChallenge) (wire : json) (g : X402ChallengeIntegrity) : Prop := {
  in_protocol : ch_protocol c = X402_PROTOCOL;
  in_wire : jget "payment_required" (ch_payload c) = Some wire;
  in_decoded : exists selected, jget "selected" (ch_payload c) = Some selected
                 /\ decoded a (ch_resource c) wire (Some selected) g;
  in_hash : challenge_hash (ch_resource c) (ch_expires_at c) wire (ch_nonce c) = Ok (ch_challenge_hash c);
  in_canonical : canonicalize_payment_recipient (as_network (ch_asset c)) (ch_recipient c) = Ok (ch_recipient c);
  in_asset : ch_asset c = ci_asset g;
  in_amount : ch_amount c = ci_amount g;
  in_recipient : ch_recipient c = ci_recipient g;
  in_expires : (0 < ch_expires_at c)%Z
}.

Lemma validate_challenge_integrity_ok a c g :
  validate_challenge_integrity a c = Ok g <-> exists wire, intact a c wire g.
Proof.
  unfold validate_challenge_integrity, ensure_protocol. split.
  - intros Hd. apply rbind_ok in Hd as (? & Hp%reject_if_ok & Hd). apply rbind_ok in Hd as (wire & Hw%ok_or_ok & Hd).
    apply rbind_ok in Hd as (selected & Hs%ok_or_ok & Hd). apply rbind_ok in Hd as (g' & Hg & Hd).
    apply decode_challenge_wire_ok in Hg.
    apply rbind_ok in Hd as (hash & Hh & Hd). apply rbind_ok in Hd as (outer & Ho%map_err_ok & Hd).
    apply rbind_ok in Hd as (? & Hc%reject_if_ok & [= <-]). exists wire. bool_inv. subst.
    split; eauto; congruence.
  - intros (wire & [Hp Hw (selected & Hs & Hg%decode_challenge_wire_ok) Hh Ho Ha Ham Hrec He]).
    rewrite Hp. simpl. rewrite Hw. simpl. rewrite Hs. simpl. rewrite Hg. simpl. rewrite Hh. simpl. rewrite Ho. simpl.
    rewrite !bool_decide_true by done. simpl. destruct (Z.leb_spec (ch_expires_at c) 0); [lia|done].
Qed.

(** The texts that the digest of a challenge frames. *)
Definition hashed_challenge (c : PaymentChallenge) (text : string) : list string :=
  ["agentvault.x402.challenge.v2"; ch_resource c; show_i64 (ch_expires_at c); text; ch_nonce c].

Lemma challenge_hash_ok resource expires_at wire nonce hash :
  challenge_hash resource expires_at wire nonce = Ok hash <->
  (str_len nonce = 64%N /\ bytes_all is_lower_hexdigit nonce = true)
  /\ exists text, json_to_vec (canonical_json wire) = Ok text
       /\ hash = hash_values ["agentvault.x402.challenge.v2"; resource; show_i64 expires_at; text; nonce].
Proof.
  unfold challenge_hash. rewrite rbind_ok. split.
  - intros (? & Hn%reject_if_ok & Hd). bool_inv. apply rbind_ok in Hd as (text & Ht%map_err_ok & [= <-]). eauto.
  - intros ([Hl Hh] & text & Ht & ->). exists tt. rewrite Hl, Hh, Ht. done.
Qed.

Lemma registered_asset_ok a network contract asset :
  registered_asset a network contract = Ok asset ->
  as_network asset = network
  /\ exists own, as_token_contract asset = Some own /\ payment_recipients_match network own contract = true.
Proof.
  unfold registered_asset. intros (r & Hf%ok_or_ok & [= <-])%rbind_ok. simpl.
  apply List.find_some in Hf as [_ Hm]. bool_inv. eauto.
Qed.

Lemma select_requirement_ok a accepts q wire :
  select_requirement a accepts = Ok (q, wire) -> parse_requirement a wire = Ok q.
Proof.
  induction accepts as [|raw rest IH]; simpl; [done|]. intros (value & Hv & Hs)%rbind_ok.
  destruct (parse_requirement a value) eqn:Hp; [by simplify_eq|auto].
Qed.

(** A challenge reads back with the requirement that was selected from it. *)
Lemma decoded_stored a resource wire g :
  decoded a resource wire None g -> decoded a resource wire (Some (ci_selected_wire g)) g.
Proof. intros []. split; try done. split; [|done]. by eapply select_requirement_ok. Qed.

Context `{!SolanaPubkeyLaws, !Sha256Length}.

Lemma decoded_canonical a resource wire stored g :
  decoded a resource wire stored g ->
  canonicalize_payment_recipient (as_network (ci_asset g)) (ci_recipient g) = Ok (ci_recipient g).
Proof.
  intros Hd. destruct (registered_asset_ok _ _ _ _ (dc_asset _ _ _ _ _ Hd)) as [-> _].
  eapply canonicalize_payment_recipient_idempotent, (dc_recipient _ _ _ _ _ Hd).
Qed.
End Challenges.

(** ** The payer reads a challenge *)

Section Payer.
Context `{SolanaPubkey, SolanaCrypto, X402Sdk, JsonText, JsonParse, UrlParser, Sha256}.

Lemma validate_requirement_ok q max :
  validate_requirement q max = Ok tt ->
  (0 < requirement_max_timeout_seconds q <= max)%N
  /\ match q with
     | Evm e => er_scheme e = EXACT_SCHEME /\ evm_valid_network (er_network e) = true
                /\ er_extra e = MethodEip3009 "USDC" "2" /\ (0 < er_amount e)%N
     | Solana s => sq_scheme s = EXACT_SCHEME /\ solana_valid_network (sq_network s) = true /\ (0 < sq_amount s)%N
     end.
Proof.
  unfold validate_requirement. intros Hv%reject_if_ok. bool_inv. split; [lia|]. destruct q as [e|s]; bool_inv.
  - case_match; [|done]. bool_inv. subst. split_and!; [done..|lia].
  - done.
Qed.

Lemma timeout_seconds q max :
  validate_requirement q max = Ok tt -> (max <= 3600)%N ->
  seconds_i64 (requirement_max_timeout_seconds q) "x402 timeout overflows"
  = Ok (Z.of_N (requirement_max_timeout_seconds q)).
Proof.
  intros Hv Hm. apply validate_requirement_ok in Hv as [Hr _]. unfold seconds_i64.
  assert (i64_in_range (Z.of_N (requirement_max_timeout_seconds q)) = true) as ->; [|done].
  unfold i64_in_range, I64_MIN, I64_MAX. apply andb_true_iff. rewrite !Z.leb_le. lia.
Qed.

Context `{!SolanaPubkeyLaws, !Sha256Length}.

(** The challenge that [parse_challenge] makes of a decoded response. *)
Definition parsed_challenge (scenario resource : string) (wire : json) (text : string) (expires_at : Z)
  (g : X402ChallengeIntegrity) : PaymentChallenge :=
  let nonce := hash_values ["agentvault.x402.challenge.nonce.v2"; resource; show_i64 expires_at; text] in
  {| ch_scenario_id := scenario; ch_price_id := None; ch_resource := resource; ch_protocol := X402_PROTOCOL;
     ch_asset := ci_asset g; ch_amount := ci_amount g; ch_recipient := ci_recipient g; ch_nonce := nonce;
     ch_challenge_hash := hash_values ["agentvault.x402.challenge.v2"; resource; show_i64 expires_at; text; nonce];
     ch_expires_at := expires_at;
     ch_payload := jobject [("payment_required", wire); ("selected", ci_selected_wire g)] |}.

Lemma parsed_challenge_intact a scenario resource wire text expires_at g :
  decoded a resource wire None g -> json_to_vec (canonical_json wire) = Ok text -> (0 < expires_at)%Z ->
  intact a (parsed_challenge scenario resource wire text expires_at g) wire g.
Proof.
  intros Hd Ht He. split; try done.
  - exists (ci_selected_wire g). unfold parsed_challenge; cbn [ch_payload ch_resource].
    rewrite jget_jobject. split; [reflexivity|]. by apply decoded_stored.
  - unfold parsed_challenge; cbn [ch_resource ch_expires_at ch_nonce ch_challenge_hash].
    apply challenge_hash_ok. split; [apply hash_values_text|]. eauto.
  - by eapply decoded_canonical.
Qed.

(** A decodable response with an expiry inside its advertised window is
    accepted. *)
Lemma x402_parse_challenge_accepts a scenario resource wire text now expires_at g :
  decoded a resource wire None g -> json_to_vec (canonical_json wire) = Ok text ->
  (xd_max_timeout_seconds a <= 3600)%N -> (0 < expires_at)%Z ->
  (now < expires_at <= i64_saturating_add now (Z.of_N (requirement_max_timeout_seconds (ci_selected g))))%Z ->
  x402_parse_challenge a scenario resource wire now (Some expires_at)
  = Ok (parsed_challenge scenario resource wire text expires_at g).
Proof.
  intros Hd Ht Hm He Hw. unfold x402_parse_challenge.
  rewrite (proj2 (decode_challenge_wire_ok _ _ _ _ _) Hd). cbn [rbind].
  rewrite (timeout_seconds _ _ (dc_valid _ _ _ _ _ Hd) Hm). cbn [rbind ok_or].
  destruct (Z.leb_spec expires_at now), (Z.ltb_spec (i64_saturating_add now (Z.of_N (requirement_max_timeout_seconds (ci_selected g)))) expires_at);
    try lia. cbn [orb reject_if rbind].
  unfold deterministic_nonce. rewrite Ht. cbn [map_err rbind].
  pose proof (parsed_challenge_intact a scenario resource wire text expires_at g Hd Ht He) as Hi.
  change (hash_values ["agentvault.x402.challenge.nonce.v2"; resource; show_i64 expires_at; text])
    with (ch_nonce (parsed_challenge scenario resource wire text expires_at g)).
  pose proof (in_hash _ _ _ _ Hi) as Hh. cbn [ch_resource ch_expires_at parsed_challenge] in Hh. rewrite Hh. cbn [rbind].
  assert (validate_challenge_integrity a (parsed_challenge scenario resource wire text expires_at g) = Ok g) as Hv
    by (apply validate_challenge_integrity_ok; eauto).
  unfold parsed_challenge in Hv |- *. cbn [ch_nonce ch_challenge_hash]. by rewrite Hv.
Qed.

(** Conversely, what is accepted was decodable and inside the window. *)
Lemma x402_parse_challenge_inv a scenario resource wire now advertised_expires_at c :
  x402_parse_challenge a scenario resource wire now advertised_expires_at = Ok c ->
  exists g expires_at text,
    advertised_expires_at = Some expires_at /\ decoded a resource wire None g
    /\ json_to_vec (canonical_json wire) = Ok text /\ (now < expires_at)%Z
    /\ (expires_at <= i64_saturating_add now (Z.of_N (requirement_max_timeout_seconds (ci_selected g))))%Z
    /\ c = parsed_challenge scenario resource wire text expires_at g /\ intact a c wire g.
Proof.
  unfold x402_parse_challenge. intros (g & Hg%decode_challenge_wire_ok & Hd)%rbind_ok.
  apply rbind_ok in Hd as (timeout & Ht & Hd). unfold seconds_i64 in Ht. apply rbind_ok in Ht as (? & _ & [= <-]).
  apply rbind_ok in Hd as (expires_at & He%ok_or_ok & Hd). apply rbind_ok in Hd as (? & Hw%reject_if_ok & Hd). bool_inv.
  apply rbind_ok in Hd as (nonce & Hn & Hd). unfold deterministic_nonce in Hn.
  apply rbind_ok in Hn as (text & Htext%map_err_ok & [= <-]). apply rbind_ok in Hd as (hash & Hh & Hd). cbv zeta in Hd.
  apply rbind_ok in Hd as (g' & Hv & [= <-]).
  apply challenge_hash_ok in Hh as (_ & text' & Ht' & ->). rewrite Htext in Ht'. injection Ht' as <-.
  apply validate_challenge_integrity_ok in Hv as (wire' & Hi).
  assert (0 < expires_at)%Z as Hpos by apply (in_expires _ _ _ _ Hi).
  exists g, expires_at, text. split_and!; try done; try lia. by apply parsed_challenge_intact.
Qed.
End Payer.

(** ** The payee's challenge, read by the payer *)

Section Interoperation.
Context `{SolanaPubkey, SolanaCrypto, EvmCrypto, X402Sdk, JsonText, JsonParse, UrlParser, Sha256}.
Context `{!SolanaPubkeyLaws, !Sha256Length, !X402SdkLaws, !EvmCryptoLaws, !JsonTextLaws}.

(** A payer that registers the payee's assets and allows its timeout. *)
Definition payer_of (payer payee : X402Adapter) : Prop :=
  xd_assets payer = xd_assets payee
  /\ (xd_max_timeout_seconds payee <= xd_max_timeout_seconds payer <= 3600)%N.

Lemma registered_asset_payer payer payee network contract :
  payer_of payer payee -> registered_asset payer network contract = registered_asset payee network contract.
Proof. intros [Ha _]. unfold registered_asset. by rewrite Ha. Qed.

Lemma validate_requirement_payer payer payee q :
  payer_of payer payee -> validate_requirement q (xd_max_timeout_seconds payee) = Ok tt ->
  validate_requirement q (xd_max_timeout_seconds payer) = Ok tt.
Proof.
  intros [_ Hm]. unfold validate_requirement. intros Hv%reject_if_ok. apply reject_if_ok.
  apply orb_false_iff in Hv as [-> Hle]. bool_inv. apply N.ltb_ge. lia.
Qed.

Lemma parse_requirement_evm a q j :
  evm_requirement_to_value q = Ok j ->
  parse_requirement a j = Ok (Evm q) <->
  evm_valid_network (er_network q) = true
  /\ validate_requirement (Evm q) (xd_max_timeout_seconds a) = Ok tt
  /\ is_ok (registered_asset a (er_network q) (er_asset q)) = true.
Proof.
  intros Hj. destruct (evm_requirement_wire _ _ Hj) as [_ Hn]. unfold parse_requirement. rewrite Hn. simpl.
  destruct (evm_valid_network (er_network q)); simpl.
  - rewrite (evm_requirement_reads_back _ _ Hj). simpl.
    destruct (validate_requirement _ _) as [[]|] eqn:Hv; simpl; [|split; [done|naive_solver]].
    destruct (registered_asset a (er_network q) (er_asset q)); simpl; split; naive_solver.
  - split; [|naive_solver]. destruct (solana_valid_network _); [|done].
    intros (? & (? & ? & [= <-])%rbind_ok & Hd)%rbind_ok. apply rbind_ok in Hd as (? & _ & Hd).
    apply rbind_ok in Hd as (? & _ & Hd). by run_inv.
Qed.

Lemma parse_requirement_order a q j :
  evm_requirement_to_value q = Ok j -> evm_valid_network (er_network q) = true ->
  parse_requirement a (canonical_json j) = parse_requirement a j.
Proof.
  intros Hj Hnet. destruct (evm_requirement_wire _ _ Hj) as [Hr Hn]. unfold parse_requirement.
  rewrite (jget_str_canonical _ _ _ Hr Hn), Hn. simpl. rewrite Hnet. pose proof (evm_requirement_reads_back _ _ Hj) as Hq.
  by rewrite (evm_requirement_order _ _ Hr Hq), Hq.
Qed.

Lemma stored_fields wire selected :
  jget "payment_required" (jobject [("payment_required", wire); ("selected", selected)]) = Some wire
  /\ jget "selected" (jobject [("payment_required", wire); ("selected", selected)]) = Some selected.
Proof. by rewrite !jget_jobject. Qed.

(** What [build_challenge] wrote on the wire. *)
Lemma x402_build_challenge_inv a drawn price recipient now c :
  x402_build_challenge a drawn price recipient now = Ok c ->
  exists q selected raw wire g,
    requirement_to_value q = Ok selected /\ json_to_vec selected = Ok raw
    /\ payment_required_to_value
         {| rq_error := None;
            rq_resource := Some {| ri_url := ch_resource c; ri_description := None; ri_mime_type := None |};
            rq_accepts := [raw] |} = Ok wire
    /\ intact a c wire g /\ ci_selected_wire g = selected
    /\ (evm_valid_network (as_network (ch_asset c)) = true ->
        exists e, q = Evm e /\ er_network e = as_network (ch_asset c)
                  /\ er_max_timeout_seconds e = xd_max_timeout_seconds a)
    /\ ch_asset c = pr_asset price /\ ch_amount c = pr_amount price.
Proof.
  unfold x402_build_challenge. intros (? & _ & Hd)%rbind_ok. apply rbind_ok in Hd as (recipient' & _ & Hd).
  apply rbind_ok in Hd as (? & _ & Hd). apply rbind_ok in Hd as (contract & _ & Hd).
  apply rbind_ok in Hd as (registered & _ & Hd). apply rbind_ok in Hd as (? & _ & Hd).
  apply rbind_ok in Hd as (q & Hq & Hd). cbv zeta in Hd. apply rbind_ok in Hd as (selected & Hsel & Hd).
  apply rbind_ok in Hd as (raw & Hraw%map_err_ok & Hd). apply rbind_ok in Hd as (? & _ & Hd).
  apply rbind_ok in Hd as (wire & Hwire%map_err_ok & Hd). apply rbind_ok in Hd as (identity & _ & Hd).
  apply rbind_ok in Hd as (g & Hg & [= <-]). apply validate_challenge_integrity_ok in Hg as (wire' & Hi).
  cbn [ch_resource ch_asset ch_amount].
  pose proof (in_wire _ _ _ _ Hi) as Hw. destruct (in_decoded _ _ _ _ Hi) as (selected' & Hs & Hdec).
  cbn [ch_payload] in Hw, Hs. rewrite (proj1 (stored_fields _ _)) in Hw. rewrite (proj2 (stored_fields _ _)) in Hs.
  injection Hw as <-. injection Hs as <-. rename selected into selected', wire into wire'.
  exists q, selected', raw, wire', g. split_and!; try done.
  - apply (dc_selected _ _ _ _ _ Hdec).
  - intros Hnet. unfold price_requirement in Hq. rewrite Hnet in Hq. cbv zeta in Hq.
    apply rbind_ok in Hq as (network & Hn%ok_or_ok%chain_id_prints & Hq). apply rbind_ok in Hq as (? & _ & Hq).
    apply rbind_ok in Hq as (? & _ & [= <-]). by eexists.
Qed.

(** A one-option challenge of the payee is selected by the payer. *)
Lemma built_challenge_decoded payer payee c q selected raw wire g :
  payer_of payer payee -> evm_requirement_to_value q = Ok selected -> evm_valid_network (er_network q) = true ->
  json_to_vec selected = Ok raw ->
  rq_accepts (ci_payment_required g) = [raw] -> ci_selected_wire g = selected ->
  intact payee c wire g ->
  ci_selected g = Evm q
  /\ decoded payer (ch_resource c) wire None
    {| ci_payment_required := ci_payment_required g; ci_selected := ci_selected g;
       ci_selected_wire := canonical_json selected; ci_asset := ci_asset g; ci_amount := ci_amount g;
       ci_recipient := ci_recipient g |}.
Proof.
  intros Hp Hsel Hvn Hraw Hacc Hwire Hi. destruct (in_decoded _ _ _ _ Hi) as (s & _ & Hd).
  destruct (dc_selected _ _ _ _ _ Hd) as [Hparse Hs]. rewrite Hwire in Hs. subst s.
  destruct (evm_requirement_wire _ _ Hsel) as [Hreg Hnet].
  assert (ci_selected g = Evm q) as Hq.
  { revert Hparse. unfold parse_requirement. rewrite Hnet. simpl. rewrite Hvn, (evm_requirement_reads_back _ _ Hsel). simpl.
    by intros (? & _ & (? & _ & [= <-])%rbind_ok)%rbind_ok. }
  rewrite Hq in Hparse. apply (parse_requirement_evm _ _ _ Hsel) in Hparse as (_ & Hval & Hreg').
  assert (parse_value raw = Some (canonical_json selected)) as Hpv.
  { unfold parse_value. by rewrite (json_from_to _ _ Hraw). }
  assert (parse_requirement payer (canonical_json selected) = Ok (Evm q)) as Hpp.
  { rewrite (parse_requirement_order _ _ _ Hsel Hvn). apply (parse_requirement_evm _ _ _ Hsel).
    rewrite (registered_asset_payer payer payee) by done. eauto using validate_requirement_payer. }
  destruct Hd as [? ? ? ? ? Hv Ha ? ?]. split; [done|]. split; cbn; try done.
  - unfold requirement. rewrite Hacc. simpl. rewrite Hpv. simpl. by rewrite Hpp, Hq.
  - unfold advertised. rewrite Hacc. simpl. rewrite Hpv. simpl. rewrite value_eqb_refl; [done|].
    by do 2 apply canonical_regular.
  - by eapply validate_requirement_payer.
  - by rewrite (registered_asset_payer payer payee).
Qed.

(** C15: a challenge that the payee builds for a price on an EVM network is
    understood by every payer that registers the same assets and accepts
    timeouts at least as long as the payee's, itself at most an hour: at every
    reading of the payer's clock inside the challenge's lifetime (before its
    expiry, and not earlier than the payee's timeout before it), its parser
    accepts the wire and reads the asset, amount, recipient, resource and expiry
    that the payee asked for. *)
Theorem built_challenge_understood payee payer drawn price recipient now c scenario now' :
  x402_build_challenge payee drawn price recipient now = Ok c ->
  evm_valid_network (as_network (pr_asset price)) = true -> payer_of payer payee ->
  (now' < ch_expires_at c <= i64_saturating_add now' (Z.of_N (xd_max_timeout_seconds payee)))%Z ->
  exists wire c',
    jget "payment_required" (ch_payload c) = Some wire
    /\ x402_parse_challenge payer scenario (ch_resource c) wire now' (Some (ch_expires_at c)) = Ok c'
    /\ ch_asset c' = pr_asset price /\ ch_amount c' = pr_amount price /\ ch_recipient c' = ch_recipient c
    /\ ch_resource c' = ch_resource c /\ ch_expires_at c' = ch_expires_at c.
Proof.
  intros Hb Hnet Hp Hw.
  destruct (x402_build_challenge_inv _ _ _ _ _ _ Hb)
    as (q & selected & raw & wire & g & Hsel & Hraw & Hwire & Hi & Hsw & Hevm & Hca & Hcm).
  rewrite Hca in Hevm. destruct (Hevm Hnet) as (e & -> & Hen & Het). apply map_err_ok in Hsel.
  destruct (in_decoded _ _ _ _ Hi) as (? & _ & Hd).
  assert (ci_payment_required g = {| rq_error := None;
            rq_resource := Some {| ri_url := ch_resource c; ri_description := None; ri_mime_type := None |};
            rq_accepts := [raw] |}) as Hreq.
  { pose proof (dc_required _ _ _ _ _ Hd) as Hr. erewrite payment_required_reads_back in Hr; [|..|exact Hwire].
    - by injection Hr.
    - repeat constructor. by exists selected. }
  edestruct (built_challenge_decoded payer payee c e selected raw wire g) as [Hq Hd']; try done.
  { by rewrite Hen. }
  { by rewrite Hreq. }
  pose proof (proj1 (challenge_hash_ok _ _ _ _ _) (in_hash _ _ _ _ Hi)) as (_ & text & Ht & _).
  exists wire. eexists. split_and!; [apply (in_wire _ _ _ _ Hi)| |..].
  - eapply x402_parse_challenge_accepts; [exact Hd'|exact Ht|apply Hp|apply (in_expires _ _ _ _ Hi)|].
    cbn. rewrite Hq. cbn. by rewrite Het.
  - cbn. by rewrite <- (in_asset _ _ _ _ Hi).
  - cbn. by rewrite <- (in_amount _ _ _ _ Hi).
  - cbn. by rewrite <- (in_recipient _ _ _ _ Hi).
  - done.
  - done.
Qed.
End Interoperation.

(** ** Identity of a challenge *)

Section Identity.
Context `{SolanaPubkey, SolanaCrypto, X402Sdk, JsonText, JsonParse, UrlParser, Sha256, !JsonTextLaws}.

(** The digest of an intact challenge identifies it.  Two challenges that
    pass the integrity check of any two adapters under one digest have the same
    resource, the same expiry, the same nonce and the same response, up to the
    order of members in its objects; the only other case is that the two framed
    texts are a SHA-256 collision. *)
Lemma challenge_hash_identifies a1 a2 c1 c2 g1 g2 w1 w2 t1 t2 :
  validate_challenge_integrity a1 c1 = Ok g1 -> validate_challenge_integrity a2 c2 = Ok g2 ->
  jget "payment_required" (ch_payload c1) = Some w1 -> jget "payment_required" (ch_payload c2) = Some w2 ->
  json_to_vec (canonical_json w1) = Ok t1 -> json_to_vec (canonical_json w2) = Ok t2 ->
  Forall fits (hashed_challenge c1 t1) -> Forall fits (hashed_challenge c2 t2) ->
  ch_challenge_hash c1 = ch_challenge_hash c2 ->
  (ch_resource c1 = ch_resource c2 /\ ch_expires_at c1 = ch_expires_at c2 /\ ch_nonce c1 = ch_nonce c2
   /\ same_value w1 w2)
  \/ collide (frame (hashed_challenge c1 t1)) (frame (hashed_challenge c2 t2)).
Proof.
  rewrite !validate_challenge_integrity_ok. intros (v1 & Hi1) (v2 & Hi2) Hw1 Hw2 Ht1 Ht2 Hf1 Hf2 Heq.
  pose proof (in_wire _ _ _ _ Hi1) as Hv1. pose proof (in_wire _ _ _ _ Hi2) as Hv2. simplify_eq.
  destruct (proj1 (challenge_hash_ok _ _ _ _ _) (in_hash _ _ _ _ Hi1)) as (_ & t1' & Ht1' & Hh1).
  destruct (proj1 (challenge_hash_ok _ _ _ _ _) (in_hash _ _ _ _ Hi2)) as (_ & t2' & Ht2' & Hh2).
  rewrite Ht1 in Ht1'. rewrite Ht2 in Ht2'. simplify_eq. rewrite Hh1, Hh2 in Heq.
  destruct (hash_values_inj _ _ Hf1 Hf2 Heq) as [E|E]; [left|by right]. injection E as Er Ee Et En.
  split_and!; [done|by apply show_i64_inj|done|].
  apply json_from_to in Ht1, Ht2. unfold same_value. congruence.
Qed.

(** The identity does not depend on the order in which a parser or a database
    returns the members. *)
#[export] Instance deterministic_nonce_proper resource expires_at :
  Proper (same_value ==> eq) (deterministic_nonce resource expires_at).
Proof. intros w w' Hw. unfold deterministic_nonce. by rewrite Hw. Qed.
Lemma challenge_hash_order resource expires_at w w' nonce :
  same_value w w' -> challenge_hash resource expires_at w nonce = challenge_hash resource expires_at w' nonce.
Proof. intros Hw. unfold challenge_hash. by rewrite Hw. Qed.
End Identity.

(** ** EIP-3009 payloads *)

Section Evm.
Context `{SolanaPubkey, SolanaCrypto, EvmCrypto, X402Sdk, Base64, JsonText, JsonParse, UrlParser, Sha256}.

(** What a payload that is bound to a challenge authorizes. *)
Record authorizes (c : PaymentChallenge) (resource : option ResourceInfo) (q : EvmPaymentRequirements)
  (p : EvmPaymentPayload) (e : Eip3009Payload) : Prop := {
  au_payload : ep_payload p = Eip3009 e;
  au_accepted : ep_accepted p = q;
  au_resource : payload_resource_matches (ep_resource p) resource (ch_resource c) = true;
  au_recipient : payment_recipients_match (as_network (ch_asset c)) (ea_to (e3_authorization e)) (ch_recipient c) = true;
  au_value : ea_value (e3_authorization e) = ch_amount c;
  au_window : (ea_valid_after (e3_authorization e) < ea_valid_before (e3_authorization e))%N;
  au_expiry : (Z.of_N (ea_valid_before (e3_authorization e)) <= ch_expires_at c)%Z;
  au_signature : str_len (e3_signature e) = 65%N;
  au_range : i64_in_range (Z.of_N (ea_valid_after (e3_authorization e))) = true
             /\ i64_in_range (Z.of_N (ea_valid_before (e3_authorization e))) = true
}.
Definition within (e : Eip3009Payload) (now : Z) : Prop :=
  (Z.of_N (ea_valid_after (e3_authorization e)) <= now < Z.of_N (ea_valid_before (e3_authorization e)))%Z.

Lemma validate_payload_evm c g p q now :
  ci_selected g = Evm q ->
  validate_payload c g (EvmPayload p) now = Ok tt <->
  exists e, authorizes c (rq_resource (ci_payment_required g)) q p e /\ (forall t, now = Some t -> within e t).
Proof.
  intros Hq. unfold validate_payload. rewrite Hq. cbv zeta. unfold authorization_payload, seconds_i64. split.
  - destruct (ep_payload p) as [e|] eqn:He; [|done]. cbn [rbind]. intros (va & Hva & Hd)%rbind_ok.
    apply rbind_ok in Hva as (? & Hra%reject_if_ok & [= <-]). apply rbind_ok in Hd as (vb & Hvb & Hd).
    apply rbind_ok in Hvb as (? & Hrb%reject_if_ok & [= <-]). apply reject_if_ok in Hd. unfold evm_valid_signature in Hd.
    bool_inv. exists e. split; [split; try done; lia|].
    intros t ->. simpl in *. bool_inv. unfold within. lia.
  - intros (e & [He Ha Hr Hrec Hv Hw Hx Hs [Hra Hrb]] & Hn). rewrite He. cbn [rbind]. rewrite Hra, Hrb. cbn [negb reject_if rbind].
    apply reject_if_ok. unfold evm_valid_signature. rewrite Hr, Ha, Hrec, Hv, Hs, !bool_decide_true by done. cbn [negb orb].
    rewrite (proj2 (Z.leb_gt _ _)), (proj2 (Z.ltb_ge _ _)) by lia. cbn [negb orb N.eqb Pos.eqb].
    destruct now as [t|]; [|done]. destruct (Hn t eq_refl) as [H1' H2']. simpl.
    by rewrite (proj2 (Z.ltb_ge _ _)), (proj2 (Z.leb_gt _ _)) by lia.
Qed.

(** The address that a signature of a digest recovers to. *)
Definition recovered_address (digest signature : string) : option string :=
  let bytes := String.substring 0 64 signature in
  if ecdsa_signature_valid bytes then
    recovery ← (byte ← String.get 64 signature; recovery_id (byte_of byte));
    point ← recover_from_prehash digest bytes recovery;
    let hash := keccak256 (String.substring 1 (String.length point - 1) point) in
    Some ("0x" ++ hex_encode (String.substring 12 (String.length hash - 12) hash))
  else None.

Lemma verify_signature_ok value p e digest address :
  decode_payment_payload value = Ok p -> ep_payload p = Eip3009 e -> payload_digest p = Ok digest ->
  verify_signature value = Ok address <->
  str_len (e3_signature e) = 65%N /\ recovered_address digest (e3_signature e) = Some address.
Proof.
  intros Hp He Hd. unfold verify_signature, evm_digest, recovered_address. rewrite Hp. cbn [rbind].
  unfold authorization_payload. rewrite He, Hd. cbn [rbind].
  destruct (N.eqb_spec (str_len (e3_signature e)) 65); cbn [negb reject_if rbind]; [|split; [done|naive_solver]].
  destruct (ecdsa_signature_valid _); cbn [negb reject_if rbind]; [|split; [done|naive_solver]].
  destruct (byte ← String.get 64 (e3_signature e); recovery_id (byte_of byte)); simpl; [|split; [done|naive_solver]].
  destruct (recover_from_prehash _ _ _); simpl; [|split; [done|naive_solver]].
  split; [intros [= <-]; done|intros [_ [= <-]]; done].
Qed.
End Evm.

(** ** Addresses *)

Lemma ascii_lower_zero c : ascii_lower c = "0"%char -> c = "0"%char.
Proof. destruct c as [[] [] [] [] [] [] [] []]; done. Qed.
Lemma ascii_lower_x c : ascii_lower c = "x"%char -> c = "x"%char \/ c = "X"%char.
Proof. destruct c as [[] [] [] [] [] [] [] []]; try done; auto. Qed.

(** An address spelled in another case has the same canonical form. *)
Lemma evm_address_body_case s e a :
  evm_address_body s = Some e -> to_ascii_lowercase a = evm_canonical e ->
  exists e', evm_address_body a = Some e' /\ evm_canonical e' = evm_canonical e.
Proof.
  intros Hs Ha. assert ((str_len e =? 40)%N && bytes_all is_ascii_hexdigit e = true) as He.
  { revert Hs. unfold evm_address_body.
    destruct (match Text.strip_prefix "0x" s with Some b => Some b | None => Text.strip_prefix "0X" s end); [|done].
    destruct (_ && _) eqn:E; [|done]. by intros [= <-]. }
  destruct a as [|c1 [|c2 body]]; try done. change (evm_canonical e) with (String "0" (String "x" (to_ascii_lowercase e))) in Ha.
  cbn [to_ascii_lowercase] in Ha. injection Ha as H1 H2 Hb. apply ascii_lower_zero in H1 as ->.
  assert ((str_len body =? 40)%N && bytes_all is_ascii_hexdigit body = true) as Hbody.
  { unfold str_len in *. rewrite <- (to_ascii_lowercase_length body), <- (to_ascii_lowercase_hexdigits body), Hb.
    by rewrite to_ascii_lowercase_length, to_ascii_lowercase_hexdigits. }
  exists body. split; [|unfold evm_canonical; by rewrite Hb].
  unfold evm_address_body. apply ascii_lower_x in H2 as [-> | ->].
  - change (String "0" (String "x" body)) with ("0x" ++ body). by rewrite strip_prefix_app, Hbody.
  - change (Text.strip_prefix "0x" (String "0" (String "X" body))) with (@None string).
    change (String "0" (String "X" body)) with ("0X" ++ body). by rewrite strip_prefix_app, Hbody.
Qed.

Section Addresses.
Context `{SolanaPubkey, EvmCrypto, !EvmCryptoLaws}.

Lemma canonicalize_wallet_address_evm payer canonical :
  canonicalize_wallet_address EVM_EOA_ALGORITHM payer = Ok canonical ->
  exists e, evm_address_body payer = Some e /\ canonical = evm_canonical e.
Proof.
  unfold canonicalize_wallet_address. destruct (evm_address_body payer) as [e|]; [|done]. intros [= <-]. eauto.
Qed.

(** Parsing a canonical address and printing it gives the address back, up to
    case. *)
Lemma address_of_canonical s e from :
  evm_address_body s = Some e -> address_from_str (evm_canonical e) = Some from ->
  to_ascii_lowercase from = evm_canonical e
  /\ exists e', evm_address_body from = Some e' /\ evm_canonical e' = evm_canonical e.
Proof.
  intros He Hf. apply evm_address_body_canonical in He.
  destruct (address_prints _ He) as (f & Hf' & Hl). change ("0x" ++ to_ascii_lowercase e) with (evm_canonical e) in Hf'. rewrite Hf in Hf'. injection Hf' as <-.
  split; [by rewrite Hl, evm_canonical_idem|].
  destruct (evm_address_body_case _ _ _ He Hl) as (e' & He' & Hc). exists e'. by rewrite evm_canonical_idem in Hc.
Qed.

Lemma address_recipient_matches network recipient to :
  is_evm_payment_network network = true ->
  canonicalize_payment_recipient network recipient = Ok recipient -> address_from_str recipient = Some to ->
  payment_recipients_match network to recipient = true.
Proof.
  intros Hn Hc Ht. apply payment_recipients_match_iff. exists recipient. split; [|done].
  unfold canonicalize_payment_recipient in *. rewrite Hn in *. apply ok_or_ok, fmap_Some in Hc as (e & He & Hr).
  rewrite Hr in Ht. destruct (address_of_canonical _ _ _ He Ht) as (_ & e' & He' & Hc').
  by rewrite He', Hr; simpl; rewrite Hc'.
Qed.
End Addresses.

(** ** Credentials *)

Section Credentials.
Context `{SolanaPubkey, SolanaCrypto, EvmCrypto, X402Sdk, Base64, JsonText, JsonParse, UrlParser, Sha256}.

Lemma integrity_asset a c wire g :
  intact a c wire g ->
  requirement_network (ci_selected g) = as_network (ch_asset c)
  /\ exists contract canonical,
       as_token_contract (ch_asset c) = Some contract
       /\ canonicalize_payment_recipient (as_network (ch_asset c)) contract = Ok canonical
       /\ canonicalize_payment_recipient (as_network (ch_asset c)) (requirement_asset (ci_selected g)) = Ok canonical.
Proof.
  intros Hi. destruct (in_decoded _ _ _ _ Hi) as (s & _ & Hd).
  destruct (registered_asset_ok _ _ _ _ (dc_asset _ _ _ _ _ Hd)) as (Hn & own & Ho & Hm).
  rewrite (in_asset _ _ _ _ Hi), Hn. split; [done|]. apply payment_recipients_match_iff in Hm as (canonical & ? & ?).
  eauto.
Qed.

(** C14: on an EVM network, a credential that passes verification authorizes
    exactly the challenged payment (a Solana requirement, whose transaction the
    adapter does not open, is not covered).  Its payload names the requirement of the challenge and its
    resource; it transfers the challenged amount of the registered token to the
    challenged recipient; it is valid now and not beyond the expiry of the
    challenge; and the payer in the answer is the account it debits. *)
Theorem verified_credential_authorizes a c credential now answer g q :
  x402_verify_credential a c credential now = Ok answer ->
  validate_challenge_integrity a c = Ok g -> ci_selected g = Evm q ->
  exists p e,
    decode_payment_payload (cr_payload credential) = Ok p
    /\ authorizes c (rq_resource (ci_payment_required g)) q p e /\ within e now
    /\ (now < ch_expires_at c)%Z /\ cr_challenge_hash credential = ch_challenge_hash c
    /\ pv_payer answer = Some (ea_from (e3_authorization e))
    /\ er_network q = as_network (ch_asset c) /\ er_amount q = ch_amount c
    /\ exists contract, as_token_contract (ch_asset c) = Some contract
         /\ payment_recipients_match (er_network q) contract (er_asset q) = true.
Proof.
  intros Hv Hg Hq. unfold x402_verify_credential in Hv. rewrite Hg in Hv. cbn [rbind] in Hv.
  apply rbind_ok in Hv as (? & Hb%reject_if_ok & Hv). apply rbind_ok in Hv as (? & He%reject_if_ok & Hv).
  apply rbind_ok in Hv as (payload & Hp & Hv). unfold decode_x402_payload in Hp. rewrite Hq in Hp.
  apply rbind_ok in Hp as (p & Hp & [= <-]). apply rbind_ok in Hv as ([] & Hval & Hv).
  apply (validate_payload_evm _ _ _ _ _ Hq) in Hval as (e & Hau & Hw).
  apply validate_challenge_integrity_ok in Hg as (wire & Hi).
  apply rbind_ok in Hv as (payer & Hpayer & [= <-]). simpl in Hpayer. unfold authorization_payload in Hpayer.
  rewrite (au_payload _ _ _ _ _ Hau) in Hpayer. injection Hpayer as <-. bool_inv.
  destruct (integrity_asset _ _ _ _ Hi) as (Hn & contract & canonical & Hc & H1' & H2'). rewrite Hq in Hn, H2'.
  exists p, e. split_and!; try done; [by apply Hw| |].
  - rewrite (in_amount _ _ _ _ Hi). destruct (in_decoded _ _ _ _ Hi) as (s & _ & Hd).
    pose proof (dc_amount _ _ _ _ _ Hd) as Ham. rewrite Hq in Ham. cbn [requirement_amount] in Ham.
    unfold amount_from_u256 in Ham. apply rbind_ok in Ham as (? & _ & Ham). by apply rbind_ok in Ham as (? & _ & [= ->]).
  - exists contract. split; [done|]. cbn [requirement_network requirement_asset] in Hn, H2'. rewrite Hn.
    apply payment_recipients_match_iff. eauto.
Qed.

(** ** Replay identity *)

(** A bound EIP-3009 credential and the values its fingerprint frames. *)
Definition evm_replay_identity (c : PaymentChallenge) (contract : string) (e : Eip3009Payload) : list string :=
  ["agentvault.x402.replay.v1"; as_network (ch_asset c); contract; to_ascii_lowercase (ea_from (e3_authorization e));
   ea_nonce (e3_authorization e)].

Lemma x402_fingerprint_evm a c credential f g q :
  x402_credential_fingerprint a c credential = Ok f -> validate_challenge_integrity a c = Ok g -> ci_selected g = Evm q ->
  exists p e contract canonical,
    decode_payment_payload (cr_payload credential) = Ok p /\ ep_payload p = Eip3009 e
    /\ as_token_contract (ch_asset c) = Some contract
    /\ canonicalize_payment_recipient (as_network (ch_asset c)) contract = Ok canonical
    /\ f = hash_values (evm_replay_identity c canonical e).
Proof.
  intros Hf Hg Hq. unfold x402_credential_fingerprint, bound_payload in Hf. rewrite Hg in Hf. cbn [rbind] in Hf.
  apply rbind_ok in Hf as (bound & Hb & Hf). apply rbind_ok in Hb as (? & _ & Hb).
  apply rbind_ok in Hb as (payload & Hp & Hb). unfold decode_x402_payload in Hp. rewrite Hq in Hp.
  apply rbind_ok in Hp as (p & Hp & [= <-]). apply rbind_ok in Hb as ([] & Hv & [= <-]).
  apply (validate_payload_evm _ _ _ _ _ Hq) in Hv as (e & Hau & _).
  apply rbind_ok in Hf as (contract & Hc%ok_or_ok & Hf). apply rbind_ok in Hf as (canonical & Hcan%map_err_ok & Hf).
  apply rbind_ok in Hf as (ids & Hi & [= <-]). simpl in Hi. unfold authorization_payload in Hi.
  rewrite (au_payload _ _ _ _ _ Hau) in Hi. injection Hi as <-.
  exists p, e, contract, canonical. split_and!; try done. apply (au_payload _ _ _ _ _ Hau).
Qed.

(** C40: the fingerprint of an EVM credential is its replay identity.  Two
    credentials, for any two intact challenges and however their payloads are
    spelled or signed, have the same fingerprint exactly when they spend the
    same authorization: the same nonce of the same account in the same token on
    the same network; the only other case is a SHA-256 collision. *)
Theorem fingerprint_is_replay_identity a1 a2 c1 c2 cr1 cr2 f1 f2 g1 g2 q1 q2 p1 p2 e1 e2 t1 t2 n1 n2 :
  x402_credential_fingerprint a1 c1 cr1 = Ok f1 -> x402_credential_fingerprint a2 c2 cr2 = Ok f2 ->
  validate_challenge_integrity a1 c1 = Ok g1 -> validate_challenge_integrity a2 c2 = Ok g2 ->
  ci_selected g1 = Evm q1 -> ci_selected g2 = Evm q2 ->
  decode_payment_payload (cr_payload cr1) = Ok p1 -> decode_payment_payload (cr_payload cr2) = Ok p2 ->
  ep_payload p1 = Eip3009 e1 -> ep_payload p2 = Eip3009 e2 ->
  as_token_contract (ch_asset c1) = Some t1 -> as_token_contract (ch_asset c2) = Some t2 ->
  canonicalize_payment_recipient (as_network (ch_asset c1)) t1 = Ok n1 ->
  canonicalize_payment_recipient (as_network (ch_asset c2)) t2 = Ok n2 ->
  Forall fits (evm_replay_identity c1 n1 e1) -> Forall fits (evm_replay_identity c2 n2 e2) ->
  let same := as_network (ch_asset c1) = as_network (ch_asset c2)
              /\ payment_recipients_match (as_network (ch_asset c1)) t1 t2 = true
              /\ eq_ignore_ascii_case (ea_from (e3_authorization e1)) (ea_from (e3_authorization e2)) = true
              /\ ea_nonce (e3_authorization e1) = ea_nonce (e3_authorization e2) in
  (same -> f1 = f2)
  /\ (f1 = f2 -> same \/ collide (frame (evm_replay_identity c1 n1 e1)) (frame (evm_replay_identity c2 n2 e2))).
Proof.
  intros Hf1 Hf2 Hg1 Hg2 Hq1 Hq2 Hp1 Hp2 He1 He2 Ht1 Ht2 Hn1 Hn2 Hfit1 Hfit2.
  destruct (x402_fingerprint_evm _ _ _ _ _ _ Hf1 Hg1 Hq1) as (p1' & e1' & t1' & n1' & Hp1' & He1' & Ht1' & Hn1' & ->).
  destruct (x402_fingerprint_evm _ _ _ _ _ _ Hf2 Hg2 Hq2) as (p2' & e2' & t2' & n2' & Hp2' & He2' & Ht2' & Hn2' & ->).
  assert (e1' = e1 /\ e2' = e2 /\ t1' = t1 /\ t2' = t2) as (-> & -> & -> & ->) by (split_and!; congruence).
  assert (n1' = n1 /\ n2' = n2) as [-> ->] by (split; congruence). split.
  - intros (Hnet & Hm & Hpayer & Hnonce). apply payment_recipients_match_iff in Hm as (n & Ha & Hb).
    unfold eq_ignore_ascii_case in Hpayer. apply bool_decide_eq_true in Hpayer. rewrite Hnet in Hn1, Ha.
    assert (n1 = n2) as -> by congruence. unfold evm_replay_identity. congruence.
  - intros Heq. destruct (hash_values_inj _ _ Hfit1 Hfit2 Heq) as [E|E]; [left|by right].
    injection E as Hnet Hn Hpayer Hnonce. split_and!; [done| | |done].
    + apply payment_recipients_match_iff. exists n1. split; [done|]. congruence.
    + unfold eq_ignore_ascii_case. by apply bool_decide_eq_true.
Qed.
End Credentials.

(** ** Signing *)

Section Signing.
Context `{SolanaPubkey, SolanaCrypto, EvmCrypto, X402Sdk, Base64, JsonText, JsonParse, UrlParser, Sha256}.
Context `{!X402SdkLaws, !EvmCryptoLaws}.

Lemma decode_evm_value p e j name version :
  ep_payload p = Eip3009 e -> er_extra (ep_accepted p) = MethodEip3009 name version ->
  evm_payload_to_value p = Ok j -> decode_payment_payload j = Ok p.
Proof.
  intros He Hx Hj. unfold decode_payment_payload. rewrite (evm_payload_shape _ _ _ _ _ He Hx Hj). cbn [rbind].
  by rewrite (evm_payload_reads_back _ _ Hj).
Qed.

(** The digest covers everything but the signature. *)
Lemma payload_digest_resigned p e signature :
  ep_payload p = Eip3009 e -> payload_digest (resigned p e signature) = payload_digest p.
Proof. intros He. unfold payload_digest, authorization_payload. by rewrite He. Qed.

Lemma digest_length p digest : payload_digest p = Ok digest -> str_len digest = 32%N.
Proof.
  unfold payload_digest. intros (? & _ & Hd)%rbind_ok. apply rbind_ok in Hd as (e & _ & Hd).
  apply rbind_ok in Hd as (chain & _ & Hd). destruct (er_extra _); [|done]. injection Hd as <-. apply signing_hash_length.
Qed.

(** A bound payload becomes a credential. *)
Lemma x402_build_credential_evm a c g q p e value :
  validate_challenge_integrity a c = Ok g -> ci_selected g = Evm q -> decode_payment_payload value = Ok p ->
  authorizes c (rq_resource (ci_payment_required g)) q p e ->
  exists fingerprint,
    x402_build_credential a c value
    = Ok {| cr_protocol := X402_PROTOCOL; cr_challenge_hash := ch_challenge_hash c; cr_credential_hash := fingerprint;
            cr_payload := value |}.
Proof.
  intros Hg Hq Hp Hau. pose proof (proj1 (validate_challenge_integrity_ok _ _ _) Hg) as (wire & Hi).
  destruct (integrity_asset _ _ _ _ Hi) as (_ & contract & canonical & Hc & Hcan & _).
  assert (validate_payload c g (EvmPayload p) None = Ok tt) as Hv
    by (apply (validate_payload_evm _ _ _ _ _ Hq); exists e; split; [done|by intros]).
  assert (decode_x402_payload value g = Ok (EvmPayload p)) as Hd
    by (unfold decode_x402_payload; by rewrite Hq, Hp).
  eexists. unfold x402_build_credential. rewrite Hg. cbn [rbind]. rewrite Hd. cbn [rbind]. rewrite Hv. cbn [rbind].
  cbv zeta. unfold x402_credential_fingerprint, bound_payload. cbn [cr_protocol cr_challenge_hash cr_payload].
  rewrite Hg. cbn [rbind]. rewrite !bool_decide_true by done. cbn [negb orb reject_if rbind].
  rewrite Hd. cbn [rbind]. rewrite Hv. cbn [rbind]. rewrite Hc. cbn [ok_or rbind]. rewrite Hcan. cbn [map_err rbind snd].
  unfold replay_identity, authorization_payload. rewrite (au_payload _ _ _ _ _ Hau). reflexivity.
Qed.

Lemma x402_verify_credential_evm a c g q p e fingerprint value t :
  validate_challenge_integrity a c = Ok g -> ci_selected g = Evm q -> decode_payment_payload value = Ok p ->
  authorizes c (rq_resource (ci_payment_required g)) q p e -> within e t -> (t < ch_expires_at c)%Z ->
  x402_verify_credential a c {| cr_protocol := X402_PROTOCOL; cr_challenge_hash := ch_challenge_hash c;
                                cr_credential_hash := fingerprint; cr_payload := value |} t
  = Ok {| pv_payer := Some (ea_from (e3_authorization e)); pv_requires_external_settlement := true |}.
Proof.
  intros Hg Hq Hp Hau Hw Ht. unfold x402_verify_credential. rewrite Hg. cbn [rbind cr_protocol cr_challenge_hash cr_payload].
  rewrite !bool_decide_true by done. cbn [negb orb reject_if rbind]. rewrite (proj2 (Z.leb_gt _ _) Ht). cbn [reject_if rbind].
  unfold decode_x402_payload. rewrite Hq, Hp. cbn [rbind].
  rewrite (proj2 (validate_payload_evm _ _ _ _ _ Hq)) by (exists e; split; [done|by intros ? [= <-]]). cbn [rbind].
  simpl. unfold authorization_payload. by rewrite (au_payload _ _ _ _ _ Hau).
Qed.

(** The payload that is offered for signing is bound to the challenge, whatever
    signature it gets. *)
Lemma unsigned_evm_payload_authorizes a c wire g q drawn payer now p :
  intact a c wire g -> ci_selected g = Evm q -> (0 <= now < ch_expires_at c)%Z -> i64_in_range (ch_expires_at c) = true ->
  unsigned_evm_payload c q (rq_resource (ci_payment_required g)) drawn payer now = Ok p ->
  exists e canonical,
    ep_payload p = Eip3009 e /\ ep_accepted p = q
    /\ canonicalize_wallet_address EVM_EOA_ALGORITHM payer = Ok canonical
    /\ to_ascii_lowercase (ea_from (e3_authorization e)) = canonical /\ to_ascii_lowercase canonical = canonical
    /\ (forall t, (now <= t < ch_expires_at c)%Z -> within e t)
    /\ forall signature, str_len signature = 65%N ->
         authorizes c (rq_resource (ci_payment_required g)) q (resigned p e signature)
           {| e3_signature := signature; e3_authorization := e3_authorization e |}.
Proof.
  intros Hi Hq Hnow Hr Hu. unfold unsigned_evm_payload in Hu.
  apply rbind_ok in Hu as (canonical & Hc%map_err_ok & Hu). apply rbind_ok in Hu as (from & Hf%ok_or_ok & Hu).
  apply rbind_ok in Hu as (to & Ht%ok_or_ok & Hu). apply rbind_ok in Hu as (? & _ & Hu). cbv zeta in Hu.
  apply rbind_ok in Hu as (? & _ & [= <-]).
  destruct (canonicalize_wallet_address_evm _ _ Hc) as (body & Hbody & ->).
  destruct (address_of_canonical _ _ _ Hbody Hf) as [Hlow _].
  destruct (in_decoded _ _ _ _ Hi) as (s & _ & Hd). destruct (integrity_asset _ _ _ _ Hi) as [Hnet _].
  pose proof (dc_valid _ _ _ _ _ Hd) as Hv. rewrite Hq in Hv, Hnet.
  destruct (validate_requirement_ok _ _ Hv) as (_ & _ & Hevm & _). cbn [requirement_network] in Hnet. rewrite Hnet in Hevm.
  destruct (dc_url _ _ _ _ _ Hd) as (r & Hres & Hurl).
  assert (forall v, (0 <= v <= ch_expires_at c)%Z -> i64_in_range (Z.of_N (Z.to_N v)) = true) as Hrange.
  { intros v Hx. rewrite Z2N.id by lia. unfold i64_in_range in *. rewrite andb_true_iff, !Z.leb_le in *.
    unfold I64_MIN in *. lia. }
  eexists {| e3_signature := zero_bytes 65; e3_authorization := _ |}, (evm_canonical body). cbn.
  split_and!; try done.
  - unfold evm_canonical. change ("0x" ++ to_ascii_lowercase body) with (String "0" (String "x" (to_ascii_lowercase body))).
    cbn [to_ascii_lowercase]. by rewrite to_ascii_lowercase_idem.
  - intros t Htw. unfold within. cbn. unfold EIP3009_VALID_AFTER_SKEW_SECONDS. lia.
  - intros signature Hs. split; cbn; try done.
    + rewrite Hres. cbn. unfold resource_matches. cbn. by rewrite Hurl, !bool_decide_true.
    + eapply address_recipient_matches; [exact Hevm|apply (in_canonical _ _ _ _ Hi)|exact Ht].
    + unfold EIP3009_VALID_AFTER_SKEW_SECONDS. lia.
    + lia.
    + split; [|apply Hrange; lia]. unfold EIP3009_VALID_AFTER_SKEW_SECONDS.
      destruct (Z.leb_spec (10 * 60) now); [apply Hrange; lia|]. replace (Z.to_N (now - 10 * 60)) with 0%N by lia. done.
Qed.

Lemma signed_evm_payload_complete p e value digest signature signed address :
  decode_payment_payload value = Ok p -> ep_payload p = Eip3009 e -> payload_digest p = Ok digest ->
  evm_payload_to_value (resigned p e signature) = Ok signed ->
  decode_payment_payload signed = Ok (resigned p e signature) ->
  str_len signature = 65%N -> recovered_address digest signature = Some address ->
  to_ascii_lowercase address = to_ascii_lowercase (ea_from (e3_authorization e)) ->
  signed_evm_payload {| pr_digest := digest; pr_payload := value |} signature = Ok signed.
Proof.
  intros Hdec He Hdigest Hsigned Hdec' Hlen Hrec Hsame. unfold signed_evm_payload. cbn [pr_digest pr_payload].
  rewrite (digest_length _ _ Hdigest), Hlen. cbn [N.eqb Pos.eqb negb orb reject_if rbind].
  unfold evm_digest. rewrite Hdec. cbn [rbind]. rewrite Hdigest. cbn [rbind]. rewrite bool_decide_true by done.
  cbn [negb reject_if rbind]. unfold with_signature. rewrite He. cbn [rbind].
  change {| ep_accepted := ep_accepted p; ep_payload := _; ep_resource := _; ep_extensions := _ |} with (resigned p e signature).
  rewrite Hsigned. cbn [map_err rbind].
  assert (verify_signature signed = Ok address) as ->.
  { apply (verify_signature_ok signed _ _ digest address Hdec' eq_refl); [|done]. by rewrite (payload_digest_resigned _ _ _ He). }
  cbn [rbind]. unfold evm_payer. rewrite Hdec'. cbn. unfold eq_ignore_ascii_case. by rewrite Hsame, bool_decide_true.
Qed.

(** A payment that the vault's own wallet signs is accepted by the payee.
    When the signature over the prepared digest recovers to the payer's
    address, [complete_signing] returns a credential, and the payee's
    verification accepts it at every time from the signing on until the
    challenge expires, naming that wallet as the payer. *)
Lemma signed_credential_accepted a drawn c payer now request signature g q address :
  x402_prepare_signing a drawn c payer now = Ok request ->
  validate_challenge_integrity a c = Ok g -> ci_selected g = Evm q -> i64_in_range (ch_expires_at c) = true ->
  str_len signature = 65%N -> recovered_address (pr_digest request) signature = Some address ->
  canonicalize_wallet_address EVM_EOA_ALGORITHM payer = Ok address ->
  exists credential,
    x402_complete_signing a c request signature = Ok credential
    /\ forall t, (now <= t < ch_expires_at c)%Z ->
         exists from, x402_verify_credential a c credential t
                      = Ok {| pv_payer := Some from; pv_requires_external_settlement := true |}
                      /\ to_ascii_lowercase from = address.
Proof.
  intros Hprep Hg Hq Hr Hlen Hrec Hpayer. pose proof (proj1 (validate_challenge_integrity_ok _ _ _) Hg) as (wire & Hi).
  unfold x402_prepare_signing in Hprep. rewrite Hg in Hprep. cbn [rbind] in Hprep.
  apply rbind_ok in Hprep as (? & Hnow%reject_if_ok & Hprep). cbv zeta in Hprep. rewrite Hq in Hprep. bool_inv.
  apply rbind_ok in Hprep as (p & Hp & Hprep). apply rbind_ok in Hprep as (value & Hvalue%map_err_ok & Hprep).
  apply rbind_ok in Hprep as (digest & Hdigest & [= <-]). cbn [pr_digest pr_payload] in *.
  destruct (unsigned_evm_payload_authorizes a c wire g q drawn payer now p Hi Hq ltac:(lia) Hr Hp)
    as (e & canonical & He & Hacc & Hcan & Hfrom & Hlow & Hwithin & Hau).
  assert (canonical = address) as -> by congruence.
  destruct (in_decoded _ _ _ _ Hi) as (s & _ & Hd). pose proof (dc_valid _ _ _ _ _ Hd) as Hv. rewrite Hq in Hv.
  destruct (validate_requirement_ok _ _ Hv) as (_ & _ & _ & Hextra & _). rewrite <- Hacc in Hextra.
  pose proof (decode_evm_value _ _ _ _ _ He Hextra Hvalue) as Hdec.
  unfold evm_digest in Hdigest. rewrite Hdec in Hdigest. cbn [rbind] in Hdigest.
  destruct (evm_payload_any_signature p e value signature He Hvalue) as (signed & Hsigned).
  pose proof (decode_evm_value (resigned p e signature) _ _ _ _ eq_refl Hextra Hsigned) as Hdec'.
  pose proof (signed_evm_payload_complete p e value digest signature signed address Hdec He Hdigest Hsigned Hdec' Hlen Hrec
                ltac:(by rewrite Hfrom, Hlow)) as Hcomplete.
  destruct (x402_build_credential_evm a c g q _ _ signed Hg Hq Hdec' (Hau signature Hlen)) as (fingerprint & Hbuild).
  eexists. split.
  - unfold x402_complete_signing. rewrite Hg. cbn [rbind]. rewrite Hq, Hcomplete. cbn [rbind]. exact Hbuild.
  - intros t Ht. eexists. split; [|exact Hfrom].
    apply (x402_verify_credential_evm a c g q _ _ fingerprint signed t Hg Hq Hdec' (Hau signature Hlen)); [|lia].
    by apply Hwithin.
Qed.

(** No other wallet's signature leaves as a credential.  Whatever request
    and signature [complete_signing] is given for an EVM challenge, a credential
    it returns authorizes the challenged payment, its signature recovers to the
    account it debits, and the digest that was signed is the one of the request. *)
Lemma completed_credential_signed_by_payer a c request signature credential g q :
  x402_complete_signing a c request signature = Ok credential ->
  validate_challenge_integrity a c = Ok g -> ci_selected g = Evm q ->
  exists p e digest address,
    decode_payment_payload (cr_payload credential) = Ok p
    /\ authorizes c (rq_resource (ci_payment_required g)) q p e
    /\ payload_digest p = Ok digest
    /\ recovered_address digest (e3_signature e) = Some address
    /\ eq_ignore_ascii_case address (ea_from (e3_authorization e)) = true
    /\ evm_digest (pr_payload request) = Ok (pr_digest request).
Proof.
  intros Hc Hg Hq. unfold x402_complete_signing in Hc. rewrite Hg in Hc. cbn [rbind] in Hc. rewrite Hq in Hc.
  apply rbind_ok in Hc as (value & Hs & Hb). unfold signed_evm_payload in Hs.
  apply rbind_ok in Hs as (? & _ & Hs). apply rbind_ok in Hs as (expected & Hexp & Hs).
  apply rbind_ok in Hs as (? & Heq%reject_if_ok & Hs). apply rbind_ok in Hs as (p0 & _ & Hs).
  apply rbind_ok in Hs as (p1 & _ & Hs). apply rbind_ok in Hs as (value' & _ & Hs).
  apply rbind_ok in Hs as (address & Hver & Hs). apply rbind_ok in Hs as (payer & Hpayer & Hs).
  apply rbind_ok in Hs as (? & Hsame%reject_if_ok & [= ->]). bool_inv.
  unfold x402_build_credential in Hb. rewrite Hg in Hb. cbn [rbind] in Hb. apply rbind_ok in Hb as (payload & Hp & Hb).
  unfold decode_x402_payload in Hp. rewrite Hq in Hp. apply rbind_ok in Hp as (p & Hp & [= <-]).
  apply rbind_ok in Hb as ([] & Hv & Hb). apply (validate_payload_evm _ _ _ _ _ Hq) in Hv as (e & Hau & _).
  cbv zeta in Hb. apply rbind_ok in Hb as (fingerprint & _ & [= <-]). cbn [cr_payload].
  pose proof (au_payload _ _ _ _ _ Hau) as He.
  assert (exists digest, payload_digest p = Ok digest) as (digest & Hdig).
  { unfold verify_signature, evm_digest in Hver. rewrite Hp in Hver. cbn [rbind] in Hver.
    do 4 apply rbind_ok in Hver as (? & _ & Hver). apply rbind_ok in Hver as (digest & Hdig & _). eauto. }
  apply (verify_signature_ok _ _ _ _ _ Hp He Hdig) in Hver as [_ Hrec].
  unfold evm_payer in Hpayer. rewrite Hp in Hpayer. cbn [rbind] in Hpayer. unfold authorization_payload in Hpayer.
  rewrite He in Hpayer. injection Hpayer as <-.
  exists p, e, digest, address. split_and!; try done. congruence.
Qed.
End Signing.
