(* ===== verification/X402Samples.v ===== *)
(** * An x402 deployment

    Concrete codecs, digests and signatures that satisfy what [X402Safety]
    relies on, and an adapter for the sample price: the payee challenges, the
    payer reads the challenge and signs, the payee verifies. *)

From S2P Require Import Prelude Text Money Json Wallet Intent Policy Ledger Records Store Authorizer Samples SigningService CanonicalJson X402Sdk X402Evm X402Solana X402Wire SettlementFacts X402 X402Safety.

#[local] Open Scope string_scope.
#[local] Open Scope vault_scope.

Module SampleX402.

(** ** Codecs *)

Definition resource_to_json (r : ResourceInfo) : json :=
  jobject ([("url", JString (ri_url r))] ++ opt_entry "description" (ri_description r)
           ++ opt_entry "mimeType" (ri_mime_type r))%list.
Definition resource_from_json (j : json) : option ResourceInfo :=
  url ← jget_str "url" j;
  Some {| ri_url := url; ri_description := jget_str "description" j; ri_mime_type := jget_str "mimeType" j |}.

Definition requirement_to_json (q : EvmPaymentRequirements) : json :=
  jobject [("scheme", JString (er_scheme q)); ("network", JString (er_network q));
           ("amount", JNumber (Z.of_N (er_amount q))); ("asset", JString (er_asset q)); ("payTo", JString (er_pay_to q));
           ("maxTimeoutSeconds", JNumber (Z.of_N (er_max_timeout_seconds q)));
           ("extra", match er_extra q with
                     | MethodEip3009 name version => jobject [("name", JString name); ("version", JString version)]
                     | MethodPermit2 => jobject [("assetTransferMethod", JString "permit2")]
                     end)].
Definition jget_N (k : string) (j : json) : option N :=
  match jget k j with Some (JNumber z) => Some (Z.to_N z) | _ => None end.
Definition requirement_from_json (j : json) : option EvmPaymentRequirements :=
  let j := canonical_json j in
  scheme ← jget_str "scheme" j; network ← jget_str "network" j; amount ← jget_N "amount" j;
  asset ← jget_str "asset" j; pay_to ← jget_str "payTo" j; timeout ← jget_N "maxTimeoutSeconds" j;
  extra ← jget "extra" j;
  Some {| er_scheme := scheme; er_network := network; er_amount := amount; er_asset := asset; er_pay_to := pay_to;
          er_max_timeout_seconds := timeout;
          er_extra := match jget_str "name" extra, jget_str "version" extra with
                      | Some name, Some version => MethodEip3009 name version
                      | _, _ => MethodPermit2
                      end |}.

Lemma requirement_roundtrip q : requirement_from_json (requirement_to_json q) = Some q.
Proof.
  destruct q as [scheme network amount asset pay_to timeout [name version|]];
    cbv -[Z.of_N Z.to_N]; by rewrite !N2Z.id.
Qed.

Definition authorization_to_json (a : Eip3009Authorization) : json :=
  jobject [("from", JString (ea_from a)); ("to", JString (ea_to a)); ("value", JNumber (Z.of_N (ea_value a)));
           ("validAfter", JNumber (Z.of_N (ea_valid_after a))); ("validBefore", JNumber (Z.of_N (ea_valid_before a)));
           ("nonce", JString (ea_nonce a))].
Definition authorization_from_json (j : json) : option Eip3009Authorization :=
  from ← jget_str "from" j; to ← jget_str "to" j; value ← jget_N "value" j; after ← jget_N "validAfter" j;
  before ← jget_N "validBefore" j; nonce ← jget_str "nonce" j;
  Some {| ea_from := from; ea_to := to; ea_value := value; ea_valid_after := after; ea_valid_before := before;
          ea_nonce := nonce |}.
Definition opt_json (k : string) (o : option json) : list (string * json) :=
  match o with Some v => [(k, v)] | None => [] end.
Definition payload_to_json (p : EvmPaymentPayload) : json :=
  jobject ([("x402Version", JNumber 2); ("accepted", requirement_to_json (ep_accepted p));
            ("payload", match ep_payload p with
                        | Eip3009 e => jobject [("signature", JString (e3_signature e));
                                                ("authorization", authorization_to_json (e3_authorization e))]
                        | Permit2 => jobject []
                        end)]
           ++ opt_json "resource" (resource_to_json <$> ep_resource p) ++ opt_json "extensions" (ep_extensions p))%list.
Definition payload_from_json (j : json) : option EvmPaymentPayload :=
  accepted ← (v ← jget "accepted" j; requirement_from_json v);
  payload ← jget "payload" j;
  resource ← match jget "resource" j with Some v => Some <$> resource_from_json v | None => Some None end;
  Some {| ep_accepted := accepted;
          ep_payload := match jget_str "signature" payload, (v ← jget "authorization" payload; authorization_from_json v) with
                        | Some signature, Some authorization =>
                            Eip3009 {| e3_signature := signature; e3_authorization := authorization |}
                        | _, _ => Permit2
                        end;
          ep_resource := resource; ep_extensions := jget "extensions" j |}.

Lemma authorization_roundtrip a : authorization_from_json (authorization_to_json a) = Some a.
Proof. destruct a. cbv -[Z.of_N Z.to_N]. by rewrite !N2Z.id. Qed.
Lemma resource_roundtrip r : resource_from_json (resource_to_json r) = Some r.
Proof. by destruct r as [url [] []]. Qed.
Lemma payload_members p :
  jget "accepted" (payload_to_json p) = Some (requirement_to_json (ep_accepted p))
  /\ jget "resource" (payload_to_json p) = resource_to_json <$> ep_resource p
  /\ jget "extensions" (payload_to_json p) = ep_extensions p
  /\ jget "payload" (payload_to_json p)
     = Some match ep_payload p with
            | Eip3009 e => jobject [("signature", JString (e3_signature e));
                                    ("authorization", authorization_to_json (e3_authorization e))]
            | Permit2 => jobject []
            end.
Proof. destruct p as [accepted payload [r|] [x|]]; by split_and!. Qed.
Lemma signed_members signature authorization :
  jget_str "signature" (jobject [("signature", JString signature); ("authorization", authorization)]) = Some signature
  /\ jget "authorization" (jobject [("signature", JString signature); ("authorization", authorization)])
     = Some authorization.
Proof. by split. Qed.
Lemma payload_roundtrip p : payload_from_json (payload_to_json p) = Some p.
Proof.
  unfold payload_from_json. destruct (payload_members p) as (-> & -> & -> & ->).
  destruct p as [accepted payload resource extensions]; cbn [ep_accepted ep_payload ep_resource ep_extensions].
  cbn [mbind option_bind]. rewrite requirement_roundtrip.
  assert (match resource_to_json <$> resource with Some v => Some <$> resource_from_json v | None => Some None end
          = Some resource) as ->.
  { destruct resource; [|done]. cbn [fmap option_fmap option_map]. by rewrite resource_roundtrip. }
  destruct payload as [[signature authorization]|]; [|done].
  cbn [e3_signature e3_authorization mbind option_bind].
  destruct (signed_members signature (authorization_to_json authorization)) as [-> ->].
  cbn [mbind option_bind]. by rewrite authorization_roundtrip.
Qed.

Definition strings_of (j : json) : option (list string) :=
  match j with JArray l => Some (omap as_str l) | _ => None end.
Definition required_to_json (r : X402PaymentRequired) : json :=
  jobject ([("x402Version", JNumber 2); ("accepts", JArray (map JString (rq_accepts r)))]
           ++ opt_entry "error" (rq_error r) ++ opt_json "resource" (resource_to_json <$> rq_resource r))%list.
Definition required_from_json (j : json) : option X402PaymentRequired :=
  accepts ← (v ← jget "accepts" j; strings_of v);
  resource ← match jget "resource" j with Some v => Some <$> resource_from_json v | None => Some None end;
  Some {| rq_error := jget_str "error" j; rq_resource := resource; rq_accepts := accepts |}.
Lemma required_roundtrip r : required_from_json (required_to_json r) = Some r.
Proof.
  assert (jget "accepts" (required_to_json r) = Some (JArray (map JString (rq_accepts r)))
          /\ jget "resource" (required_to_json r) = resource_to_json <$> rq_resource r
          /\ jget_str "error" (required_to_json r) = rq_error r) as (Ha & Hr & He)
    by (destruct r as [[] [] ?]; split_and!; reflexivity).
  unfold required_from_json. rewrite Ha, Hr, He. cbn [mbind option_bind strings_of].
  assert (omap as_str (map JString (rq_accepts r)) = rq_accepts r) as ->.
  { clear Ha. induction (rq_accepts r) as [|t l IH]; [done|]. exact (f_equal (cons t) IH). }
  destruct r as [error [resource|] accepts]; cbn [rq_error rq_resource rq_accepts fmap option_fmap option_map mbind option_bind];
    [|done]. by rewrite resource_roundtrip.
Qed.

Definition refuse {A} (_ : json) : Result string A := Err "unsupported".
Definition from_option {A} (o : option A) : Result string A := ok_or o "malformed".
#[export] Instance sdk : X402Sdk :=
  {| payment_required_from_value j := from_option (required_from_json j);
     payment_required_to_value r := Ok (required_to_json r);
     evm_requirement_from_value j := from_option (requirement_from_json j);
     evm_requirement_to_value q := Ok (requirement_to_json q);
     solana_requirement_from_value := refuse; solana_requirement_to_value _ := Err "unsupported";
     evm_payload_from_value j := from_option (payload_from_json j);
     evm_payload_to_value p := Ok (payload_to_json p);
     solana_payload_from_value := refuse; solana_payload_to_value _ := Err "unsupported";
     settle_response_from_value := refuse; verify_response_from_value := refuse;
     b256_to_string s := "0x" ++ hex_encode s |}.

(** ** The adapter *)

Definition contract : string := "0x833589fcd6edb6e08f4c7c32d4f71b54bda02913".
Definition recipient : string := "0xabcdef0123456789abcdef0123456789abcdef01".
Definition adapter : X402Adapter :=
  {| xd_assets := [{| xa_network := "eip155:8453"; xa_contract := contract; xa_symbol := "USDC"; xa_decimals := 6 |}];
     xd_max_timeout_seconds := 600; xd_solana := ∅ |}.

(** The wallet whose key every signature recovers to. *)
Definition payer : string := "0x3131313131313131313131313131313131313131".

(** A digest of 32 bytes: the beginning of its input. *)
Fixpoint first_bytes (n : nat) (s : string) : string :=
  match n with
  | O => ""
  | S n' => match s with "" => String zero (first_bytes n' "") | String c rest => String c (first_bytes n' rest) end
  end.
Lemma first_bytes_length n s : String.length (first_bytes n s) = n.
Proof. revert s. induction n as [|n IH]; intros [|c s]; simpl; by rewrite ?IH. Qed.
#[export] Instance digest : Sha256 := {| sha256 := first_bytes 32 |}.
#[export] Instance digest_laws : Sha256Length.
Proof. split. apply first_bytes_length. Qed.

Definition canonical_address (s : string) : option string := evm_canonical <$> evm_address_body s.
#[export] Instance crypto : EvmCrypto :=
  {| address_from_str := canonical_address; checksummed_from_str := canonical_address; chain_id_from_str := Some;
     eip155_reference network := chain ← Text.strip_prefix "eip155:" network; parse_unsigned U64_MAX chain;
     eip712_signing_hash t := first_bytes 32 (ea_nonce (tw_authorization t));
     ecdsa_signature_valid _ := true;
     recover_from_prehash _ _ _ := Some (zero_bytes 65);
     keccak256 _ := zero_bytes 12 ++ "11111111111111111111" |}.
#[export] Instance crypto_laws : EvmCryptoLaws.
Proof.
  assert (forall e, to_ascii_lowercase (evm_canonical e) = evm_canonical e) as Hlow.
  { intros e. unfold evm_canonical. change ("0x" ++ to_ascii_lowercase e) with (String "0" (String "x" (to_ascii_lowercase e))).
    cbn [to_ascii_lowercase]. by rewrite to_ascii_lowercase_idem. }
  split.
  - intros e He. exists (evm_canonical e). split; [|done]. simpl. unfold canonical_address. by rewrite He.
  - intros s e a He Ha. simpl in Ha. unfold canonical_address in Ha. rewrite He in Ha. by injection Ha as <-.
  - intros s t [= <-]. done.
  - intros t. exact (f_equal N.of_nat (first_bytes_length 32 _)).
Qed.
#[export] Instance no_solana : SolanaCrypto :=
  {| solana_chain_reference _ := false; transaction_from_bytes _ := None; transaction_as_base64 _ := Err "unsupported";
     sign_with_keypair _ _ := SigningDone (Err "unsupported");
     build_signed_transfer_transaction _ _ _ _ _ := SigningDone (Err "unsupported"); ed25519_verify _ _ _ := false |}.
#[export] Instance base64 : Base64 := {| base64_decode := Some; base64_encode s := s |}.

(** A serializer that knows the requirement and the response of the sample. *)
Definition requirement : EvmPaymentRequirements :=
  {| er_scheme := "exact"; er_network := "eip155:8453"; er_amount := 250000; er_asset := contract; er_pay_to := recipient;
     er_max_timeout_seconds := 600; er_extra := MethodEip3009 "USDC" "2" |}.
Definition required : X402PaymentRequired :=
  {| rq_error := None;
     rq_resource := Some {| ri_url := "https://api.example/feed"; ri_description := None; ri_mime_type := None |};
     rq_accepts := ["requirement"] |}.
Definition known : list (json * string) :=
  [(requirement_to_json requirement, "requirement"); (required_to_json required, "challenge")].
#[export] Instance text : JsonText :=
  {| json_to_vec j := ok_or (snd <$> List.find (fun k => fst k == j) known) "unknown" |}.
#[export] Instance parse : JsonParse :=
  {| json_from_slice t := fst <$> List.find (fun k => snd k == t) known |}.
#[export] Instance text_laws : JsonTextLaws.
Proof.
  split. simpl. intros j t Ht%ok_or_ok. revert Ht. case_bool_decide as H1; [|case_bool_decide as H2; [|done]].
  - intros [= <-]. simpl. by rewrite H1.
  - intros [= <-]. simpl. by rewrite H2.
Qed.
#[export] Instance sdk_laws : X402SdkLaws.
Proof.
  split; simpl.
  - intros r j _ [= <-]. by rewrite required_roundtrip.
  - intros q j [= <-]. by rewrite requirement_roundtrip.
  - intros q j [= <-]. split; [|by destruct q].
    destruct q as [? ? ? ? ? ? [name version|]]; (split; [by apply (bool_decide_unpack _); vm_compute|]);
      repeat split; by apply (bool_decide_unpack _); vm_compute.
  - intros j q Hj Hq. unfold requirement_from_json in *. by rewrite canonical_idempotent.
  - intros p j [= <-]. by rewrite payload_roundtrip.
  - intros p e j signature _ _. eexists. reflexivity.
  - intros [[? ? ? ? ? ? extra] payload [[? [] []]|] []] e name version value; simpl; intros -> -> [= <-]; reflexivity.
Qed.
End SampleX402.

(** ** A payment *)

Section Payment.
#[local] Existing Instance Sample.codec.
#[local] Existing Instance Sample.parser.
#[local] Existing Instance SampleSolana.laws.
Import SampleX402.

Definition x402_now : Z := 1700000000.
Definition x402_drawn : string := zero_bytes 32.
Definition or_else {A} (r : Result Error A) (d : A) : A := match r with Ok a => a | Err _ => d end.

Definition x402_challenge : PaymentChallenge :=
  or_else (x402_build_challenge adapter x402_drawn Sample.price recipient x402_now) (Sample.challenge 0).
Definition x402_wire : json := required_to_json required.
Definition x402_integrity : X402ChallengeIntegrity :=
  {| ci_payment_required := required; ci_selected := Evm requirement; ci_selected_wire := requirement_to_json requirement;
     ci_asset := sample_asset; ci_amount := 250000; ci_recipient := recipient |}.
Definition x402_request : ProtocolSigningRequest :=
  or_else (x402_prepare_signing adapter x402_drawn x402_challenge payer x402_now)
          {| pr_digest := ""; pr_payload := JNull |}.
Definition x402_signature : string := zero_bytes 65.
Definition x402_credential : PaymentCredential :=
  or_else (x402_complete_signing adapter x402_challenge x402_request x402_signature)
          {| cr_protocol := ""; cr_challenge_hash := ""; cr_credential_hash := ""; cr_payload := JNull |}.

Lemma x402_built : x402_build_challenge adapter x402_drawn Sample.price recipient x402_now = Ok x402_challenge.
Proof. vm_compute. reflexivity. Qed.
Lemma x402_intact : validate_challenge_integrity adapter x402_challenge = Ok x402_integrity.
Proof. vm_compute. reflexivity. Qed.
Lemma x402_prepared : x402_prepare_signing adapter x402_drawn x402_challenge payer x402_now = Ok x402_request.
Proof. vm_compute. reflexivity. Qed.
Lemma x402_completed : x402_complete_signing adapter x402_challenge x402_request x402_signature = Ok x402_credential.
Proof. vm_compute. reflexivity. Qed.

Lemma built_challenge_understood_witness :
  exists wire c',
    jget "payment_required" (ch_payload x402_challenge) = Some wire
    /\ x402_parse_challenge adapter "scenario-1" (ch_resource x402_challenge) wire 1700000010
         (Some (ch_expires_at x402_challenge)) = Ok c'
    /\ ch_asset c' = sample_asset /\ ch_amount c' = 250000%N /\ ch_recipient c' = ch_recipient x402_challenge
    /\ ch_resource c' = ch_resource x402_challenge /\ ch_expires_at c' = ch_expires_at x402_challenge.
Proof.
  apply (built_challenge_understood adapter adapter x402_drawn Sample.price recipient x402_now x402_challenge
           "scenario-1" 1700000010 x402_built); [reflexivity|split; [reflexivity|split; discriminate]|].
  vm_compute. split; [reflexivity|discriminate].
Defined.

Lemma verified_credential_authorizes_witness :
  exists p e,
    decode_payment_payload (cr_payload x402_credential) = Ok p
    /\ authorizes x402_challenge (rq_resource required) requirement p e /\ within e 1700000010
    /\ (1700000010 < ch_expires_at x402_challenge)%Z /\ cr_challenge_hash x402_credential = ch_challenge_hash x402_challenge
    /\ Some payer = Some (ea_from (e3_authorization e))
    /\ er_network requirement = as_network (ch_asset x402_challenge) /\ er_amount requirement = ch_amount x402_challenge
    /\ exists token, as_token_contract (ch_asset x402_challenge) = Some token
         /\ payment_recipients_match (er_network requirement) token (er_asset requirement) = true.
Proof.
  apply (verified_credential_authorizes adapter x402_challenge x402_credential 1700000010
           {| pv_payer := Some payer; pv_requires_external_settlement := true |} x402_integrity requirement);
    [vm_compute; reflexivity|exact x402_intact|reflexivity].
Defined.

(** The same authorization, signed with the other spelling of the recovery
    identity. *)
Definition x402_other_credential : PaymentCredential :=
  or_else (x402_complete_signing adapter x402_challenge x402_request (zero_bytes 64 ++ String (ascii_of_nat 27) ""))
          x402_credential.
Definition payload_of (credential : PaymentCredential) : EvmPaymentPayload :=
  or_else (decode_payment_payload (cr_payload credential))
          {| ep_accepted := requirement; ep_payload := Permit2; ep_resource := None; ep_extensions := None |}.
Definition signed_of (credential : PaymentCredential) : Eip3009Payload :=
  or_else (authorization_payload (payload_of credential))
          {| e3_signature := ""; e3_authorization := {| ea_from := ""; ea_to := ""; ea_value := 0; ea_valid_after := 0;
                                                        ea_valid_before := 0; ea_nonce := "" |} |}.
Lemma fingerprint_is_replay_identity_witness :
  let same := as_network sample_asset = as_network sample_asset
              /\ payment_recipients_match "eip155:8453" contract contract = true
              /\ eq_ignore_ascii_case payer payer = true /\ x402_drawn = x402_drawn in
  (same -> cr_credential_hash x402_credential = cr_credential_hash x402_other_credential)
  /\ (cr_credential_hash x402_credential = cr_credential_hash x402_other_credential ->
      same \/ collide (frame (evm_replay_identity x402_challenge contract (signed_of x402_credential)))
                     (frame (evm_replay_identity x402_challenge contract (signed_of x402_other_credential)))).
Proof.
  apply (fingerprint_is_replay_identity adapter adapter x402_challenge x402_challenge x402_credential x402_other_credential
           (cr_credential_hash x402_credential) (cr_credential_hash x402_other_credential) x402_integrity x402_integrity
           requirement requirement (payload_of x402_credential) (payload_of x402_other_credential)
           (signed_of x402_credential) (signed_of x402_other_credential) contract contract contract contract);
    try (apply fits_all); vm_compute; reflexivity.
Defined.
End Payment.
