(* ===== verification/ReceiptSamples.v ===== *)
(** * A node and a cluster

    Answers of an EVM node and of a Solana cluster on which the hypotheses of
    [ReceiptSafety] and [SolanaReceipts] are evaluated. *)

From S2P Require Import Prelude Text Money Json Wallet Ledger SigningService X402Sdk X402Solana SettlementFacts Evidence X402Samples EvmReceipts ReceiptSafety SolanaReceipts.

#[local] Open Scope string_scope.
#[local] Open Scope vault_scope.

(** ** EVM *)

Module SampleNode.
#[export] Existing Instance SampleX402.crypto.

Definition token : string := "0x833589fcd6edb6e08f4c7c32d4f71b54bda02913".
Definition payer : string := "0x" ++ zeros 39 ++ "1".
Definition recipient : string := "0x" ++ zeros 39 ++ "2".
Definition tx : string := "0x" ++ zeros 63 ++ "a".
Definition block_hash : string := "0x" ++ zeros 63 ++ "b".
Definition nonce : string := "0x" ++ zeros 63 ++ "c".
Definition topic (suffix : string) : string := "0x" ++ zeros 63 ++ suffix.

(** A transfer of 250000 (0x3d090) base units in block 91 (0x5b). *)
Definition transfer_log : json :=
  jobject [("address", JString token);
           ("topics", JArray [JString ERC20_TRANSFER_TOPIC; JString (topic "1"); JString (topic "2")]);
           ("data", JString ("0x" ++ zeros 59 ++ "3d090")); ("logIndex", JString "0x7"); ("transactionHash", JString tx);
           ("blockHash", JString block_hash); ("blockNumber", JString "0x5b")].
Definition receipt : json :=
  jobject [("transactionHash", JString tx); ("blockHash", JString block_hash); ("blockNumber", JString "0x5b");
           ("status", JString "0x1"); ("logs", JArray [transfer_log])].
Definition block : json :=
  jobject [("hash", JString block_hash); ("number", JString "0x5b"); ("timestamp", JString "0x6553f100")].

(** The response to a method is its name; [text] knows what that means. *)
#[export] Instance node : EvmNode :=
  {| post _ body := Ok {| hr_status := 200; hr_content_length := None;
                          hr_chunks := [Ok (unwrap_or "" (jget_str "method" body))] |} |}.
Definition result_of (method : string) : json :=
  if method == "eth_chainId" then JString "0x2105"
  else if method == "eth_blockNumber" then JString "0x64"
  else if method == "eth_getTransactionReceipt" then receipt
  else if method == "eth_getBlockByNumber" then block
  else JArray [].
#[export] Instance text : RpcText :=
  {| rpc_response_from_slice method :=
       Some {| rp_jsonrpc := "2.0"; rp_id := JNumber 1; rp_result := Some (result_of method); rp_error := None |} |}.

Definition source : EvmRpcReceiptSource :=
  {| es_network := "eip155:8453"; es_chain_id := 8453; es_authority := "evm-rpc:eip155:8453";
     es_minimum_confirmations := 10; es_max_response_bytes := 1024 |}.
Example evm_source_built : evm_source_new "eip155:8453" 10 1024 = Ok source.
Proof. vm_compute. reflexivity. Qed.

Definition query : TransferQuery :=
  {| tq_network := "eip155:8453"; tq_transaction := tx; tq_token_contract := token; tq_payer := payer;
     tq_recipient := recipient; tq_amount := 250000 |}.
Definition evidence : ConfirmedTransfer :=
  {| ct_authority := "evm-rpc:eip155:8453"; ct_transaction := tx; ct_effect_ref := "log:7"; ct_confirmations := 10;
     ct_minimum_confirmations := 10; ct_effective_at := 1700000000 |}.
Example evm_transfer_looked_up : evm_lookup source query 0 = (Ok (RcConfirmed evidence), 4).
Proof. vm_compute. reflexivity. Qed.

Definition authorization : EvmAuthorizationQuery :=
  {| aq_network := "eip155:8453"; aq_token_contract := token; aq_payer := payer; aq_nonce := nonce;
     aq_recipient := recipient; aq_amount := 250000; aq_from_block := 50 |}.
Lemma unspent : evm_lookup_authorization source authorization 0 = (Ok (AuthNoEffect 91 1700000000), 4).
Proof. vm_compute. reflexivity. Qed.
End SampleNode.

Section EvmWitnesses.
Import SampleNode.

Lemma evm_authorization_observed_witness :
  (exists text latest, answered source "eth_blockNumber" (JArray []) (JString text) /\ parse_hex_u64 text = Ok latest
     /\ (91 + N.max 10 1 = latest + 1)%N)
  /\ (50 <= 91)%N
  /\ (forall b, (50 <= b <= 91)%N ->
        exists range batch, (fst range <= b <= snd range)%N /\ searched source authorization range batch
          /\ Forall (fun l => ~ spends authorization l) batch)
  /\ exists v block timestamp,
       answered source "eth_getBlockByNumber" (JArray [JString (hex_quantity 91); JBool false]) v
       /\ rpc_block_from_value v = Some block /\ parse_hex_u64 (rb_number block) = Ok 91%N
       /\ parse_hex_u64 (rb_timestamp block) = Ok timestamp /\ 1700000000%Z = Z.of_N timestamp.
Proof. exact (evm_authorization_observed source authorization 0 (AuthNoEffect 91 1700000000) 4 unspent). Defined.
End EvmWitnesses.

(** ** Solana *)

Module SampleCluster.
#[export] Instance reference : SolanaReference := {| solana_reference := Text.strip_prefix "solana:" |}.
#[export] Instance codec : SolanaPubkey := {| Pubkey := string; pubkey_from_str := Some; pubkey_to_string p := p |}.
#[export] Instance signatures : SolanaSignature :=
  {| SolSig := string; solsig_from_str := Some; solsig_to_string s := s; solsig_default := "" |}.
#[export] Instance bytes : SolanaSignatureBytes := {| solsig_bytes s := s |}.
#[export] Existing Instance SampleX402.digest.
#[export] Instance crypto : SolanaCrypto :=
  {| solana_chain_reference := Text.starts_with "solana:"; transaction_from_bytes _ := None;
     transaction_as_base64 _ := Err "unsupported"; sign_with_keypair _ _ := SigningDone (Err "unsupported");
     build_signed_transfer_transaction _ _ _ _ _ := SigningDone (Err "unsupported");
     ed25519_verify signature key message := signature == key ++ message |}.

Definition cluster : string := "5eykt4UsFv8P8NJdTREpY1vzqKqZKvdp".
Definition source : SolanaRpcReceiptSource :=
  {| ss_network := "solana:" ++ cluster; ss_chain_reference := cluster; ss_authority := "solana-rpc:solana:" ++ cluster;
     ss_minimum_confirmations := 10 |}.
Example solana_source_built : solana_source_new ("solana:" ++ cluster) 10 1024 = Ok source.
Proof. vm_compute. reflexivity. Qed.

Definition query : TransferQuery :=
  {| tq_network := "solana:" ++ cluster; tq_transaction := "fee-message"; tq_token_contract := "mint"; tq_payer := "payer";
     tq_recipient := "merchant"; tq_amount := 250000 |}.
Definition balance (owner amount : string) : UiTransactionTokenBalance :=
  {| ub_owner := Some owner; ub_mint := "mint"; ub_amount := amount |}.
Definition confirmed_tx : ConfirmedTransaction :=
  {| cx_slot := 1000; cx_block_time := Some 1700000000%Z;
     cx_meta := Some {| tm_failed := false;
                        tm_pre_token_balances := Some [balance "payer" "300000"; balance "merchant" "5"];
                        tm_post_token_balances := Some [balance "payer" "50000"; balance "merchant" "250005"] |};
     cx_transaction := Some {| vt_num_required_signatures := 2; vt_static_account_keys := ["fee"; "payer"];
                               vt_message := "-message"; vt_signatures := ["fee-message"; "payer-message"] |} |}.
Definition answers : SolanaAnswers :=
  {| sa_joined := Ok (cluster ++ "rest", [Some {| ts_slot := 1000; ts_confirmations := None; ts_failed := false;
                                                   ts_confirmation_status := Finalized |}], 1040%N);
     sa_transaction := Ok (Some confirmed_tx); sa_block_time _ := Err "unused" |}.
Definition evidence : ConfirmedTransfer :=
  {| ct_authority := "solana-rpc:solana:" ++ cluster; ct_transaction := "fee-message"; ct_effect_ref := solana_effect_ref query;
     ct_confirmations := 41; ct_minimum_confirmations := 10; ct_effective_at := 1700000000 |}.
Lemma solana_transfer_looked_up : solana_lookup source answers query = Ok (RcConfirmed evidence).
Proof. vm_compute. reflexivity. Qed.
End SampleCluster.

Section SolanaWitnesses.
Import SampleCluster.
Lemma solana_confirmed_moved_witness :
  exists genesis status rest slot tx meta t pre post signature payer,
    sa_joined answers = Ok (genesis, Some status :: rest, slot)
    /\ String.substring 0 32 genesis = ss_chain_reference source
    /\ ts_failed status = false /\ ts_confirmation_status status <> Processed
    /\ (ss_minimum_confirmations source <= ct_confirmations evidence)%N
    /\ ct_confirmations evidence = solana_confirmations status slot
    /\ sa_transaction answers = Ok (Some tx) /\ cx_meta tx = Some meta /\ tm_failed meta = false
    /\ cx_transaction tx = Some t
    /\ solsig_from_str (tq_transaction query) = Some signature /\ head (vt_signatures t) = Some (solsig_bytes signature)
    /\ pubkey_from_str (tq_payer query) = Some payer /\ payer_signature_valid t (pubkey_to_string payer) = true
    /\ tm_pre_token_balances meta = Some pre /\ tm_post_token_balances meta = Some post
    /\ holdings "payer" "mint" pre = (holdings "payer" "mint" post + 250000)%N
    /\ holdings "merchant" "mint" post = (holdings "merchant" "mint" pre + 250000)%N
    /\ (holdings "merchant" "mint" post <= U128_MAX)%N
    /\ (holdings "payer" "mint" pre <= U128_MAX)%N.
Proof. exact (solana_confirmed_moved source answers query evidence solana_transfer_looked_up). Defined.
End SolanaWitnesses.
