(* ===== verification/MppSdk.v ===== *)
(** * What the MPP adapter takes from outside

    The official [mpp] crate, the Tempo transaction types and the [time] crate
    are not part of the repository.  Their types and functions are a class of
    parameters; the records below are the ones whose fields
    [src/src/protocol/mpp.rs] and [mpp_tempo.rs] write out. *)

From S2P Require Import Prelude Text Money Json.

#[local] Open Scope string_scope.

(** [mpp::ChargeRequest] *)
Record ChargeRequest : Type := {
  cg_amount : string;
  cg_currency : string;
  cg_decimals : option N;
  cg_recipient : option string;
  cg_description : option string;
  cg_external_id : option string;
  cg_method_details : option json;
  cg_mppx_scope : option json
}.

(** A charge payload of a credential: whether its type is
    [PayloadType::Transaction], the type as printed, and its data. *)
Record ChargePayload : Type := {
  cp_is_transaction : bool;
  cp_type : string;
  cp_data : string
}.

(** [mpp]'s receipt *)
Record MppReceipt : Type := {
  mr_is_success : bool;
  mr_method : string;
  mr_subscription_id : option string;
  mr_reference : string
}.

(** [Base64UrlJson], [mpp::PaymentChallenge], [mpp::PaymentCredential] and
    [mpp::PaymentPayload] are kept abstract. *)
Class MppSdk : Type := {
  Base64UrlJson : Type;
  OfficialChallenge : Type;
  OfficialCredential : Type;
  OfficialPayload : Type;
  (** [parse_www_authenticate_all] of one header, [format_www_authenticate] *)
  parse_www_authenticate_all : string -> list (Result string OfficialChallenge);
  format_www_authenticate : OfficialChallenge -> Result string string;
  (** the challenge: [id], [method], [intent.is_charge()], [request.decode()],
      [expires_at()] in seconds, the decoded [opaque], [verify] *)
  oc_id : OfficialChallenge -> string;
  oc_method : OfficialChallenge -> string;
  oc_is_charge : OfficialChallenge -> bool;
  oc_request : OfficialChallenge -> Result string ChargeRequest;
  oc_expires_at : OfficialChallenge -> option Z;
  oc_opaque : OfficialChallenge -> option (Result string (gmap string string));
  oc_verify : OfficialChallenge -> string -> bool;
  (** [serde_json::to_value] of [to_echo()] and of [payment_required_error] *)
  oc_echo_value : OfficialChallenge -> Result string json;
  payment_required_error_value : OfficialChallenge -> Result string json;
  (** [PaymentChallenge::with_secret_key_full] without digest and description:
      secret, realm, method, intent, request, expires, opaque, header *)
  charge_from_typed : ChargeRequest -> Result string Base64UrlJson;
  opaque_from_typed : gmap string string -> Result string Base64UrlJson;
  with_secret_key_full : string -> string -> string -> string -> Base64UrlJson -> option string ->
    option Base64UrlJson -> option string -> OfficialChallenge;
  (** [ChargeRequest::parse_amount] and [TempoChargeExt::chain_id] *)
  parse_amount : ChargeRequest -> Result string N;
  charge_chain_id : ChargeRequest -> option N;
  (** [parse_authorization] and [format_authorization] *)
  parse_authorization : string -> Result string OfficialCredential;
  format_authorization : OfficialCredential -> Result string string;
  (** the credential: its [challenge] as a value and the [header] it selects,
      [source], [charge_payload()] *)
  oa_challenge_value : OfficialCredential -> Result string json;
  oa_header : OfficialCredential -> option string;
  oa_source : OfficialCredential -> option string;
  oa_charge_payload : OfficialCredential -> Result string ChargePayload;
  (** [serde_json::from_value::<PaymentPayload>], [PaymentCredential::new] *)
  payload_from_value : json -> Result string OfficialPayload;
  credential_new : OfficialChallenge -> OfficialPayload -> OfficialCredential;
  parse_receipt : string -> Result string MppReceipt
}.

(** [TempoCharge]: addresses as printed. *)
Record TempoCharge : Type := {
  tc_fee_payer : bool;
  tc_has_splits : bool;
  tc_chain_id : N;
  tc_currency : string;
  tc_recipient : string;
  tc_amount : N;
  tc_memo : option string
}.
(** [Call] *)
Record TempoCall : Type := { tl_to : string; tl_value : N; tl_input : string }.
(** [TempoTxOptions] *)
Record TempoTxOptions : Type := {
  to_calls : list TempoCall;
  to_chain_id : N;
  to_fee_token : string;
  to_nonce : N;
  to_nonce_key : N;
  to_gas_limit : N;
  to_max_fee_per_gas : N;
  to_max_priority_fee_per_gas : N;
  to_fee_payer : bool;
  to_valid_before : option N
}.

Class TempoSdk `{MppSdk} : Type := {
  TempoTransaction : Type;
  #[export] TempoTransaction_eq_dec :: EqDecision TempoTransaction;
  TempoSignature : Type;
  MAX_FEE_PER_GAS : N;
  MAX_PRIORITY_FEE_PER_GAS : N;
  (** [TempoCharge::from_challenge] *)
  tempo_charge_from_challenge : OfficialChallenge -> Result string TempoCharge;
  (** [ITIP20::transferWithMemoCall { to, amount, memo }.abi_encode()] *)
  transfer_with_memo_call : string -> N -> string -> string;
  build_tempo_tx : TempoTxOptions -> TempoTransaction;
  (** the transaction: fields, [signature_hash], its serde form *)
  tt_valid_before : TempoTransaction -> option N;
  tt_chain_id : TempoTransaction -> N;
  signature_hash : TempoTransaction -> string;
  tempo_to_value : TempoTransaction -> Result string json;
  tempo_from_value : json -> Result string TempoTransaction;
  (** [into_signed(..).encoded_2718()] *)
  signed_2718 : TempoTransaction -> TempoSignature -> string;
  (** [Signature::from_raw], [normalize_s().is_some()],
      [recover_address_from_prehash] *)
  signature_from_raw : string -> Result string TempoSignature;
  signature_normalizes : TempoSignature -> bool;
  recover_address_from_prehash : TempoSignature -> string -> Result string string;
  (** challenge, signed transaction, chain, payer *)
  build_charge_credential : OfficialChallenge -> string -> N -> string -> OfficialCredential
}.

(** [OffsetDateTime::from_unix_timestamp] and [format(&Rfc3339)] *)
Class TimeText : Type := {
  from_unix_timestamp : Z -> Result string unit;
  format_rfc3339 : Z -> Result string string
}.
