(* ===== verification/Mpp.v ===== *)
(** * The MPP adapter

    [src/src/protocol/mpp.rs] with [mpp_wire.rs] and [mpp_tempo.rs]: the payer
    selects a Tempo charge from a header, builds the one transaction that pays
    it and wraps the signed transaction as a credential; the payee issues
    challenges authenticated with its secret and checks what comes back.  The
    identity a challenge draws is an argument. *)

From S2P Require Import Prelude Text Money Json Wallet Intent Policy Ledger Records Store Authorizer SigningService CanonicalJson X402Sdk X402Wire SettlementFacts EvmReceipts MppSdk.

#[local] Open Scope string_scope.
#[local] Open Scope vault_scope.

Definition MPP_PROTOCOL : string := "mpp".
Definition TEMPO_METHOD : string := "tempo".
Definition TEMPO_SIGNING_PAYLOAD_KIND : string := "tempo_charge_v1".
Definition TEMPO_CHARGE_GAS_LIMIT : N := 1000000.
Definition TEMPO_CHARGE_VALIDITY_SECONDS : Z := 25.

(** [MppWire::error]: a text of the SDK *)
Definition mpp_error (error : string) : Error := PaymentProtocol error.

(** ** [MppWire] *)

(** [MppWire::tempo_network]; the keys it admits and the modes it needs *)
Definition tempo_detail_known (key : string) : bool := (key == "chainId") || (key == "supportedModes").
Definition pull_supported (modes : json) : bool :=
  match modes with
  | JArray l => negb (match l with [] => true | _ => false end) && forallb (fun m => is_some (as_str m)) l
                && existsb (fun m => as_str m == Some "pull") l
  | _ => false
  end.
Definition tempo_network `{MppSdk} (request : ChargeRequest) : Result Error string :=
  let? details :=
    match cg_method_details request with
    | Some (JObject m) => Ok m
    | _ => Err (PaymentProtocol "MPP Tempo methodDetails must be an object containing chainId")
    end in
  reject_if (existsb (fun kv => negb (tempo_detail_known (fst kv))) details)
            (PaymentProtocol "MPP Tempo split, fee-payer, machine-token, and delegated-key options are unsupported") ;?
  reject_if (is_some_and (fun modes => negb (pull_supported modes)) (entry_lookup "supportedModes" details))
            (PaymentProtocol "MPP Tempo charge does not allow pull transaction credentials") ;?
  let? chain_id := ok_or (charge_chain_id request) (PaymentProtocol "MPP Tempo chainId must be a numeric integer") in
  Ok ("eip155:" ++ show_unsigned chain_id).

Definition mpp_ensure_protocol (c : PaymentChallenge) : Result Error unit :=
  reject_if (ch_protocol c != MPP_PROTOCOL) (PaymentProtocol "protocol adapter mismatch").

Definition mpp_validate_resource `{UrlParser} (resource : string) : Result Error unit :=
  let? parsed := ok_or (url_parse resource) (PaymentProtocol "payment resource is not an absolute URL") in
  reject_if (negb ((url_scheme parsed == "http") || (url_scheme parsed == "https"))
             || is_none (url_host_str parsed) || negb (is_empty (url_username parsed))
             || is_some (url_password parsed) || is_some (url_fragment parsed))
            (PaymentProtocol "payment resource URL is unsafe").

Definition mpp_valid_network (network : string) : bool :=
  is_some_and (fun chain => negb (is_empty chain) && bytes_all is_ascii_digit chain) (Text.strip_prefix "eip155:" network).

Definition valid_transaction_hash (value : string) : bool :=
  (str_len value =? 66)%N && is_some_and (bytes_all is_ascii_hexdigit) (Text.strip_prefix "0x" value).

(** [hex::decode], two digits a byte *)
Fixpoint hex_decode (s : string) : option string :=
  match s with
  | "" => Some ""
  | String a (String b rest) =>
      if is_ascii_hexdigit a && is_ascii_hexdigit b
      then String (ascii_of_N (16 * hex_value a + hex_value b)) <$> hex_decode rest
      else None
  | _ => None
  end.
Definition decode_payment_reference (value : string) : Result Error string :=
  let invalid := PaymentProtocol "MPP payment reference is not canonical hex" in
  let? encoded :=
    ok_or (encoded ← Text.strip_prefix "0x" value;
           if negb (is_empty encoded) && (str_len encoded mod 2 =? 0)%N then Some encoded else None) invalid in
  ok_or (hex_decode encoded) invalid.

Definition mpp_hash_values `{Sha256} (values : list string) : string := hex_encode (sha256 (frame values)).
Definition mpp_challenge_hash `{Sha256} (resource header : string) : string :=
  mpp_hash_values ["agentvault.mpp.challenge.v1"; resource; header].

(** ** The adapter *)

Record MppAsset : Type := {
  ma_network : string;
  ma_currency : string;
  ma_symbol : string;
  ma_token_contract : option string;
  ma_decimals : N
}.
Record MppPayeeSettings : Type := { mp_realm : string; mp_challenge_secret : string }.
Record MppAdapter : Type := {
  md_assets : list MppAsset;
  md_payee : option MppPayeeSettings;
  md_timeout_seconds : N
}.

Section Construction.
Context `{SolanaPubkey}.

(** The loop body of [new_for_direction] *)
Definition normalize_mpp_asset (asset : MppAsset) : Result Error MppAsset :=
  reject_if (negb (mpp_valid_network (ma_network asset)) || is_empty (trim (ma_symbol asset)))
            (Config "MPP Tempo adapter configuration is invalid") ;?
  let? currency := map_err (fun _ => Config "MPP Tempo currency must be an EVM token address")
                           (canonicalize_wallet_address EVM_EOA_ALGORITHM (ma_currency asset)) in
  match ma_token_contract asset with
  | Some contract =>
      let? contract := map_err (fun _ => Config "MPP Tempo token_contract must be an EVM address")
                               (canonicalize_wallet_address EVM_EOA_ALGORITHM contract) in
      reject_if (contract != currency) (Config "MPP Tempo currency and token_contract must identify the same token")
  | None => Ok tt
  end ;?
  Ok {| ma_network := ma_network asset; ma_currency := currency; ma_symbol := ma_symbol asset;
        ma_token_contract := Some currency; ma_decimals := ma_decimals asset |}.

Definition new_for_direction (assets : list MppAsset) (payee : option MppPayeeSettings) (timeout_seconds : N)
  : Result Error MppAdapter :=
  reject_if (match assets with [] => true | _ => false end || (timeout_seconds =? 0)%N || (3600 <? timeout_seconds)%N)
            (Config "MPP Tempo adapter configuration is invalid") ;?
  let? normalized := rfold (fun done asset => let? asset := normalize_mpp_asset asset in Ok (done ++ [asset])%list) [] assets in
  Ok {| md_assets := normalized; md_payee := payee; md_timeout_seconds := timeout_seconds |}.
Definition new_payer (assets : list MppAsset) (timeout_seconds : N) : Result Error MppAdapter :=
  new_for_direction assets None timeout_seconds.
Definition new_payee (assets : list MppAsset) (realm challenge_secret : string) (timeout_seconds : N)
  : Result Error MppAdapter :=
  reject_if (is_empty (trim realm) || (str_len challenge_secret <? 32)%N)
            (Config "MPP Tempo payee configuration is invalid") ;?
  new_for_direction assets (Some {| mp_realm := realm; mp_challenge_secret := challenge_secret |}) timeout_seconds.
End Construction.

(** [MppAdapter::registered_asset] *)
Definition mpp_asset_identity (asset : MppAsset) : AssetIdentity :=
  {| as_network := ma_network asset; as_asset := ma_symbol asset; as_token_contract := ma_token_contract asset;
     as_decimals := ma_decimals asset |}.
Definition mpp_registered_asset (a : MppAdapter) (network currency : string) : Result Error AssetIdentity :=
  let? asset := ok_or (List.find (fun asset => (ma_network asset == network)
                                               && eq_ignore_ascii_case (ma_currency asset) currency) (md_assets a))
                      (PaymentProtocol "MPP Tempo asset or network is not registered") in
  Ok (mpp_asset_identity asset).

(** ** Challenges *)

(** [Value::pointer], one token: a key of an object or the index it reads as *)
Definition pointer_step (token : string) (index : option nat) (j : json) : option json :=
  match j with
  | JObject m => entry_lookup token m
  | JArray l => index ≫= nth_error l
  | _ => None
  end.
(** ["/data/challenges/0"] *)
Definition mcp_pointer (error : json) : option json :=
  data ← pointer_step "data" None error;
  challenges ← pointer_step "challenges" None data;
  pointer_step "0" (Some 0) challenges.

(** A challenge that the adapter can pay *)
Definition tempo_charge `{MppSdk} (c : OfficialChallenge) : bool :=
  eq_ignore_ascii_case (oc_method c) TEMPO_METHOD && oc_is_charge c.

Section Challenges.
Context `{SolanaPubkey, MppSdk, UrlParser, Sha256}.

Record MppChallengeIntegrity : Type := {
  mi_official : OfficialChallenge;
  mi_request : ChargeRequest;
  mi_header : string;
  mi_asset : AssetIdentity;
  mi_amount : Amount;
  mi_recipient : string;
  mi_expires_at : Z
}.

Definition select_charge (selected : option OfficialChallenge) (parsed : Result string OfficialChallenge)
  : Result Error (option OfficialChallenge) :=
  let? challenge := map_err mpp_error parsed in
  Ok (if is_none selected && tempo_charge challenge then Some challenge else selected).

(** The resource that the [mppx_scope] of a request names *)
Definition scoped_resource (request : ChargeRequest) : option string :=
  match cg_mppx_scope request with Some (JObject scope) => entry_lookup "resource" scope ≫= as_str | _ => None end.

(** [MppAdapter::decode_challenge_header] *)
Definition decode_challenge_header (a : MppAdapter) (expected_resource header : string)
  : Result Error MppChallengeIntegrity :=
  mpp_validate_resource expected_resource ;?
  let? selected := rfold select_charge None (parse_www_authenticate_all header) in
  let? official := ok_or selected (PaymentProtocol "no allowed MPP Tempo charge challenge was advertised") in
  let? selected_header := map_err mpp_error (format_www_authenticate official) in
  let? request := map_err mpp_error (oc_request official) in
  let? scoped := ok_or (scoped_resource request) (PaymentProtocol "MPP charge resource scope is required") in
  reject_if (scoped != expected_resource) (PaymentProtocol "MPP charge resource scope does not match the request") ;?
  let? network := tempo_network request in
  let? asset := mpp_registered_asset a network (cg_currency request) in
  let? amount := ok_or match parse_amount request with
                       | Ok amount => if Amount.is_zero amount then None else Some amount
                       | Err _ => None
                       end (PaymentProtocol "MPP amount must be a positive base-unit integer") in
  let? recipient := ok_or (cg_recipient request) (PaymentProtocol "MPP charge recipient is required") in
  let? recipient := map_err (fun _ => PaymentProtocol "MPP charge recipient is not a valid EVM address")
                            (canonicalize_wallet_address EVM_EOA_ALGORITHM recipient) in
  let? expires_at := ok_or (oc_expires_at official) (PaymentProtocol "MPP charge expiry is required and must be valid") in
  reject_if (expires_at <=? 0)%Z (PaymentProtocol "MPP charge expiry is invalid") ;?
  Ok {| mi_official := official; mi_request := request; mi_header := selected_header; mi_asset := asset;
        mi_amount := amount; mi_recipient := recipient; mi_expires_at := expires_at |}.

(** [MppAdapter::mcp_challenge_value] *)
Definition mcp_challenge_value (c : OfficialChallenge) : Result Error json :=
  let? error := map_err Prelude.Json (payment_required_error_value c) in
  ok_or (mcp_pointer error) (PaymentProtocol "MPP MCP projection omitted its challenge").

(** The checks of a challenge that this payee issued *)
Definition validate_payee_binding (a : MppAdapter) (c : PaymentChallenge) (integrity : MppChallengeIntegrity)
  (price_id : string) : Result Error unit :=
  let? payee := ok_or (md_payee a) (PaymentProtocol "payer-only MPP adapter cannot verify a payee challenge") in
  reject_if (negb (oc_verify (mi_official integrity) (mp_challenge_secret payee))
             || (cg_external_id (mi_request integrity) != Some price_id))
            (PaymentProtocol "payee MPP challenge authenticity check failed") ;?
  let? opaque := ok_or (oc_opaque (mi_official integrity)) (PaymentProtocol "payee MPP challenge metadata is missing") in
  let? opaque := map_err mpp_error opaque in
  reject_if ((opaque !! "price_id" != Some price_id) || (opaque !! "resource" != Some (ch_resource c))
             || (opaque !! "scenario_id" != Some (ch_scenario_id c)))
            (PaymentProtocol "payee MPP challenge metadata binding failed").

(** [MppAdapter::validate_challenge_integrity] *)
Definition mpp_challenge_integrity (a : MppAdapter) (c : PaymentChallenge) : Result Error MppChallengeIntegrity :=
  mpp_ensure_protocol c ;?
  let? header := ok_or (jget_str "www_authenticate" (ch_payload c)) (PaymentProtocol "stored MPP challenge is missing") in
  let? integrity := decode_challenge_header a (ch_resource c) header in
  match jget "mcp_challenge" (ch_payload c) with
  | Some projected =>
      let? value := mcp_challenge_value (mi_official integrity) in
      reject_if (negb (value_eqb value projected)) (PaymentProtocol "stored MPP MCP challenge projection is inconsistent")
  | None => Ok tt
  end ;?
  let? outer_recipient := map_err (fun _ => PaymentProtocol "MPP outer recipient is not a valid EVM address")
                                  (canonicalize_wallet_address EVM_EOA_ALGORITHM (ch_recipient c)) in
  reject_if ((ch_asset c != mi_asset integrity) || (ch_amount c != mi_amount integrity)
             || (ch_recipient c != outer_recipient) || (ch_recipient c != mi_recipient integrity)
             || (ch_nonce c != oc_id (mi_official integrity)) || (ch_expires_at c != mi_expires_at integrity)
             || (ch_challenge_hash c != mpp_challenge_hash (ch_resource c) header))
            (PaymentProtocol "stored MPP challenge integrity check failed") ;?
  match ch_price_id c with Some price_id => validate_payee_binding a c integrity price_id | None => Ok tt end ;?
  Ok integrity.

(** [parse_challenge] *)
Definition mpp_parse_challenge (a : MppAdapter) (scenario_id expected_resource : string) (wire : json) (now : Z)
  (advertised_expires_at : option Z) : Result Error PaymentChallenge :=
  let? header := ok_or (jget_str "www_authenticate" wire) (PaymentProtocol "MPP WWW-Authenticate value is missing") in
  let? integrity := decode_challenge_header a expected_resource header in
  reject_if (negb (i64_in_range (Z.of_N (md_timeout_seconds a)))) (PaymentProtocol "MPP timeout overflows") ;?
  let maximum_expiry := i64_saturating_add now (Z.of_N (md_timeout_seconds a)) in
  reject_if ((mi_expires_at integrity <=? now)%Z || (maximum_expiry <? mi_expires_at integrity)%Z
             || is_some_and (fun e => e != mi_expires_at integrity) advertised_expires_at)
            (PaymentProtocol "MPP challenge expiry is outside the allowed window") ;?
  let? mcp_challenge := mcp_challenge_value (mi_official integrity) in
  let challenge :=
    {| ch_scenario_id := scenario_id; ch_price_id := None; ch_resource := expected_resource; ch_protocol := MPP_PROTOCOL;
       ch_asset := mi_asset integrity; ch_amount := mi_amount integrity; ch_recipient := mi_recipient integrity;
       ch_nonce := oc_id (mi_official integrity);
       ch_challenge_hash := mpp_challenge_hash expected_resource (mi_header integrity);
       ch_expires_at := mi_expires_at integrity;
       ch_payload := jobject [("www_authenticate", JString (mi_header integrity)); ("mcp_challenge", mcp_challenge)] |} in
  mpp_challenge_integrity a challenge ;?
  Ok challenge.

(** [validate_payment] *)
Definition mpp_validate_payment (a : MppAdapter) (c : PaymentChallenge) (i : PaymentIntent) : Result Error unit :=
  mpp_challenge_integrity a c ;?
  reject_if ((ch_scenario_id c != pi_scenario_id i) || (ch_resource c != pi_resource i) || (ch_asset c != pi_asset i)
             || (ch_amount c != pi_amount i)
             || negb (payment_recipients_match (as_network (pi_asset i)) (ch_recipient c) (pi_recipient i))
             || (pi_challenge_hash i != Some (ch_challenge_hash c)))
            (PaymentProtocol "MPP challenge does not match the payment intent").

(** The request of [build_challenge] *)
Definition price_charge (price : PaymentPrice) (currency recipient : string) (chain_id : N) : ChargeRequest :=
  {| cg_amount := Amount.to_string (pr_amount price); cg_currency := currency; cg_decimals := None;
     cg_recipient := Some recipient; cg_description := None; cg_external_id := Some (pr_id price);
     cg_method_details := Some (jobject [("chainId", JNumber (Z.of_N chain_id))]);
     cg_mppx_scope := Some (jobject [("resource", JString (pr_resource price))]) |}.
Definition eip155_chain_id (network : string) : option N := Text.strip_prefix "eip155:" network ≫= parse_unsigned U64_MAX.

(** [build_challenge]; [issuance_id] is the drawn identity *)
Definition mpp_build_challenge `{TimeText} (a : MppAdapter) (issuance_id : string) (price : PaymentPrice)
  (recipient : string) (now : Z) : Result Error PaymentChallenge :=
  let? payee := ok_or (md_payee a) (PaymentProtocol "payer-only MPP adapter cannot issue a payee challenge") in
  reject_if (negb (supports_protocol price MPP_PROTOCOL)) (PaymentProtocol "price cannot produce an MPP challenge") ;?
  let? recipient := map_err (fun _ => PaymentProtocol "price recipient is not a valid EVM address")
                            (canonicalize_wallet_address EVM_EOA_ALGORITHM recipient) in
  mpp_validate_resource (pr_resource price) ;?
  let? configured :=
    ok_or (List.find (fun m => mpp_asset_identity m == pr_asset price) (md_assets a))
          (PaymentProtocol "price asset is not registered for MPP") in
  let? chain_id := ok_or (eip155_chain_id (as_network (pr_asset price)))
                         (PaymentProtocol "MPP Tempo network must use numeric CAIP-2") in
  let? request := map_err mpp_error (charge_from_typed (price_charge price (ma_currency configured) recipient chain_id)) in
  let expires_at := i64_saturating_add now (if i64_in_range (Z.of_N (md_timeout_seconds a))
                                            then Z.of_N (md_timeout_seconds a) else I64_MAX) in
  map_err (fun error => PaymentProtocol ("MPP expiry is invalid: " ++ error)) (from_unix_timestamp expires_at) ;?
  let? expires := map_err (fun error => PaymentProtocol ("format MPP expiry: " ++ error)) (format_rfc3339 expires_at) in
  let? opaque := map_err mpp_error (opaque_from_typed {["challenge_id" := issuance_id; "price_id" := pr_id price;
                                                        "resource" := pr_resource price;
                                                        "scenario_id" := pr_scenario_id price]}) in
  let official := with_secret_key_full (mp_challenge_secret payee) (mp_realm payee) TEMPO_METHOD "charge" request
                    (Some expires) (Some opaque) (Some "Payment-Authorization") in
  let? header := map_err mpp_error (format_www_authenticate official) in
  let? mcp_challenge := mcp_challenge_value official in
  let challenge :=
    {| ch_scenario_id := pr_scenario_id price; ch_price_id := Some (pr_id price); ch_resource := pr_resource price;
       ch_protocol := MPP_PROTOCOL; ch_asset := pr_asset price; ch_amount := pr_amount price; ch_recipient := recipient;
       ch_nonce := oc_id official; ch_challenge_hash := mpp_challenge_hash (pr_resource price) header;
       ch_expires_at := expires_at;
       ch_payload := jobject [("www_authenticate", JString header); ("mcp_challenge", mcp_challenge)] |} in
  mpp_challenge_integrity a challenge ;?
  Ok challenge.

(** [decode_http_challenge] *)
Definition mpp_decode_http_challenge (a : MppAdapter) (resource : string) (headers : list (string * string)) (_ : string)
  : Result Error (option json) :=
  match header_value headers "www-authenticate" with
  | None => Ok None
  | Some header =>
      let? advertised :=
        rfold (fun acc parsed =>
                 let? challenge := map_err mpp_error parsed in
                 Ok (true, snd acc || tempo_charge challenge))
              (false, false) (parse_www_authenticate_all header) in
      if negb (fst advertised) || negb (snd advertised) then Ok None
      else
        let? integrity := decode_challenge_header a resource header in
        Ok (Some (jobject [("www_authenticate", JString (mi_header integrity))]))
  end.
End Challenges.

(** ** Credentials *)

Section Credentials.
Context `{SolanaPubkey, MppSdk, UrlParser, Sha256}.

Definition credential_authorization (credential : PaymentCredential) : option string :=
  jget_str "authorization" (cr_payload credential).

(** [MppAdapter::payer_from_source] *)
Definition payer_from_source (network : string) (source : option string) : Result Error string :=
  let? chain_id := ok_or (Text.strip_prefix "eip155:" network) (PaymentProtocol "MPP Tempo payer network is invalid") in
  let? payer := ok_or (source ≫= Text.strip_prefix ("did:pkh:eip155:" ++ chain_id ++ ":"))
                      (PaymentProtocol "MPP Tempo credential source DID is missing or mismatched") in
  map_err (fun _ => PaymentProtocol "MPP Tempo credential source address is invalid")
          (canonicalize_wallet_address EVM_EOA_ALGORITHM payer).

(** The credential of a text, if its challenge is the echo of this one *)
Definition echoed_credential (integrity : MppChallengeIntegrity) (credential : PaymentCredential)
  : Result Error OfficialCredential :=
  let? authorization := ok_or (credential_authorization credential) (PaymentProtocol "MPP Authorization value is missing") in
  let? submitted := map_err mpp_error (parse_authorization authorization) in
  let? echoed := map_err Prelude.Json (oa_challenge_value submitted) in
  let? expected := map_err Prelude.Json (oc_echo_value (mi_official integrity)) in
  reject_if (negb (value_eqb echoed expected)) (PaymentProtocol "MPP challenge echo mismatch") ;?
  Ok submitted.

(** The guard of [credential_payer] and [settle_payment] *)
Definition credential_bound (c : PaymentChallenge) (credential : PaymentCredential) : Result Error unit :=
  reject_if ((cr_protocol credential != MPP_PROTOCOL) || (cr_challenge_hash credential != ch_challenge_hash c))
            (PaymentProtocol "MPP credential binding mismatch").

(** [credential_payer] *)
Definition mpp_credential_payer (a : MppAdapter) (c : PaymentChallenge) (credential : PaymentCredential)
  : Result Error string :=
  let? integrity := mpp_challenge_integrity a c in
  credential_bound c credential ;?
  let? submitted := echoed_credential integrity credential in
  let? payload := map_err mpp_error (oa_charge_payload submitted) in
  reject_if (negb (cp_is_transaction payload))
            (PaymentProtocol "MPP Tempo charge requires a signed transaction credential") ;?
  payer_from_source (as_network (ch_asset c)) (oa_source submitted).

(** [credential_fingerprint] *)
Definition mpp_credential_fingerprint (a : MppAdapter) (c : PaymentChallenge) (credential : PaymentCredential)
  : Result Error string :=
  let? integrity := mpp_challenge_integrity a c in
  let? submitted := echoed_credential integrity credential in
  let? payload := map_err mpp_error (oa_charge_payload submitted) in
  let? payment_bytes := decode_payment_reference (cp_data payload) in
  let contract := to_ascii_lowercase (unwrap_or (as_asset (ch_asset c)) (as_token_contract (ch_asset c))) in
  Ok (mpp_hash_values ["agentvault.mpp.replay.v1"; as_network (ch_asset c); contract; cp_type payload; payment_bytes]).

(** [MppAdapter::wrap_official_credential] *)
Definition wrap_official_credential (c : PaymentChallenge) (credential : OfficialCredential)
  : Result Error PaymentCredential :=
  let? authorization := map_err mpp_error (format_authorization credential) in
  Ok {| cr_protocol := MPP_PROTOCOL; cr_challenge_hash := ch_challenge_hash c;
        cr_credential_hash := mpp_hash_values ["agentvault.mpp.credential.v1"; ch_challenge_hash c; authorization];
        cr_payload := jobject [("authorization", JString authorization)] |}.
(** A wrapped credential with its fingerprint, as [build_credential] and
    [complete_signing] end *)
Definition fingerprinted (a : MppAdapter) (c : PaymentChallenge) (official : OfficialCredential)
  : Result Error PaymentCredential :=
  let? credential := wrap_official_credential c official in
  let? fingerprint := mpp_credential_fingerprint a c credential in
  Ok {| cr_protocol := cr_protocol credential; cr_challenge_hash := cr_challenge_hash credential;
        cr_credential_hash := fingerprint; cr_payload := cr_payload credential |}.

(** [build_credential] *)
Definition mpp_build_credential (a : MppAdapter) (c : PaymentChallenge) (signed_payload : json)
  : Result Error PaymentCredential :=
  let? integrity := mpp_challenge_integrity a c in
  let? payload := map_err (fun error => PaymentProtocol ("invalid MPP charge payload: " ++ error))
                          (payload_from_value signed_payload) in
  fingerprinted a c (credential_new (mi_official integrity) payload).

(** [encode_http_credential] *)
Definition mpp_encode_http_credential (credential : PaymentCredential) : Result Error ProtocolHttpCredential :=
  reject_if (cr_protocol credential != MPP_PROTOCOL) (PaymentProtocol "MPP credential protocol mismatch") ;?
  let? header_value := ok_or (credential_authorization credential)
                             (PaymentProtocol "MPP credential has no Authorization value") in
  let? submitted := map_err mpp_error (parse_authorization header_value) in
  let? header_name :=
    match oa_header submitted with
    | Some header =>
        if eq_ignore_ascii_case header "payment-authorization" then Ok "payment-authorization"
        else Err (PaymentProtocol "MPP challenge selected an unsupported credential header")
    | None => Ok "authorization"
    end in
  Ok {| hc_header_name := header_name; hc_header_value := header_value |}.

(** [decode_merchant_evidence] *)
Definition mpp_decode_merchant_evidence (value : string) : Result Error ProtocolMerchantEvidence :=
  reject_if (is_empty value || (16 * 1024 <? str_len value)%N || negb (bytes_all is_ascii_graphic value))
            (InvalidRequest "MPP Payment-Receipt header is invalid") ;?
  let? receipt := map_err mpp_error (parse_receipt value) in
  reject_if (negb (mr_is_success receipt) || negb (eq_ignore_ascii_case (mr_method receipt) TEMPO_METHOD)
             || is_some (mr_subscription_id receipt) || negb (valid_transaction_hash (mr_reference receipt)))
            (PaymentProtocol "MPP receipt is not a successful Tempo charge transaction") ;?
  Ok {| me_accepted := true; me_transaction := Some (to_ascii_lowercase (mr_reference receipt)); me_network := None;
        me_payer := None |}.

(** [verify_credential] *)
Definition mpp_verify_credential (a : MppAdapter) (c : PaymentChallenge) (credential : PaymentCredential) (now : Z)
  : Result Error ProtocolValidation :=
  reject_if (ch_expires_at c <=? now)%Z (PaymentProtocol "MPP challenge expired") ;?
  let? payer := mpp_credential_payer a c credential in
  Ok {| pv_payer := Some payer; pv_requires_external_settlement := true |}.

(** [settle_payment] *)
Definition mpp_settle_payment (a : MppAdapter) (c : PaymentChallenge) (credential : PaymentCredential)
  : Result Error ProtocolSettlement :=
  let? integrity := mpp_challenge_integrity a c in
  credential_bound c credential ;?
  echoed_credential integrity credential ;?
  mpp_credential_payer a c credential ;?
  Ok {| pt_protocol := MPP_PROTOCOL; pt_payment_payload := cr_payload credential;
        pt_payment_requirements := jobject [("www_authenticate", JString (mi_header integrity))] |}.

(** [verify_receipt] *)
Definition mpp_verify_receipt (i : PaymentIntent) (r : PaymentReceipt) : Result Error unit :=
  reject_if ((pi_protocol i != MPP_PROTOCOL) || (rt_protocol r != MPP_PROTOCOL) || (rt_intent_id r != pi_id i)
             || (rt_scenario_id r != pi_scenario_id i) || (rt_asset r != pi_asset i)
             || negb (payment_recipients_match (as_network (pi_asset i)) (rt_recipient r) (pi_recipient i))
             || (rt_requested_amount r != pi_amount i) || (rt_status r != Settled))
            (PaymentProtocol "MPP receipt binding mismatch") ;?
  map_err (fun field => PaymentProtocol ("invalid MPP receipt field: " ++ field)) (PaymentReceipt_validate r).
End Credentials.

(** ** Tempo transactions *)

Section Tempo.
Context `{SolanaPubkey, EvmCrypto, MppSdk, !TempoSdk, UrlParser, Sha256}.

Record TempoSigningPayload : Type := {
  ts_kind : string;
  ts_payer : string;
  ts_transaction : TempoTransaction
}.

(** [U256::MAX] *)
Definition U256_MAX : N := 2 ^ 256 - 1.

(** The options of the one transaction that pays a charge *)
Definition charge_options (chain_id : N) (token_contract recipient : string) (amount : N) (memo : string) (valid_before : N)
  : TempoTxOptions :=
  {| to_calls := [{| tl_to := token_contract; tl_value := 0; tl_input := transfer_with_memo_call recipient amount memo |}];
     to_chain_id := chain_id; to_fee_token := token_contract; to_nonce := 0; to_nonce_key := U256_MAX;
     to_gas_limit := TEMPO_CHARGE_GAS_LIMIT; to_max_fee_per_gas := MAX_FEE_PER_GAS;
     to_max_priority_fee_per_gas := MAX_PRIORITY_FEE_PER_GAS; to_fee_payer := false; to_valid_before := Some valid_before |}.

(** [TempoSigningPayload::build_transaction] *)
Definition build_transaction (integrity : MppChallengeIntegrity) (valid_before : N) : Result Error TempoTransaction :=
  let? charge := map_err mpp_error (tempo_charge_from_challenge (mi_official integrity)) in
  reject_if (tc_fee_payer charge || tc_has_splits charge)
            (PaymentProtocol "MPP Tempo fee sponsorship and split charges are unsupported") ;?
  let? chain_id := ok_or (eip155_chain_id (as_network (mi_asset integrity))) (PaymentProtocol "MPP Tempo chain ID is invalid") in
  let? token_contract := ok_or (as_token_contract (mi_asset integrity) ≫= address_from_str)
                               (PaymentProtocol "MPP Tempo token contract is invalid") in
  let? recipient := ok_or (address_from_str (mi_recipient integrity)) (PaymentProtocol "MPP Tempo recipient is invalid") in
  reject_if ((tc_chain_id charge != chain_id) || (tc_currency charge != token_contract)
             || (tc_recipient charge != recipient) || (tc_amount charge != mi_amount integrity))
            (PaymentProtocol "MPP Tempo charge projection does not match the canonical challenge") ;?
  let? memo := ok_or (tc_memo charge) (PaymentProtocol "MPP Tempo attribution memo is missing") in
  Ok (build_tempo_tx (charge_options chain_id token_contract recipient (mi_amount integrity) memo valid_before)).

(** [TempoSigningPayload::validate] *)
Definition tempo_validate (p : TempoSigningPayload) (integrity : MppChallengeIntegrity) : Result Error string :=
  reject_if (ts_kind p != TEMPO_SIGNING_PAYLOAD_KIND) (PaymentProtocol "MPP Tempo signing payload kind is unsupported") ;?
  let? canonical_payer := map_err (fun _ => PaymentProtocol "MPP Tempo payer binding is invalid")
                                  (canonicalize_wallet_address EVM_EOA_ALGORITHM (ts_payer p)) in
  reject_if (canonical_payer != ts_payer p) (PaymentProtocol "MPP Tempo payer binding is not canonical") ;?
  let? valid_before := ok_or (tt_valid_before (ts_transaction p))
                             (PaymentProtocol "MPP Tempo transaction validity window is missing") in
  reject_if (mi_expires_at integrity <? (if i64_in_range (Z.of_N valid_before) then Z.of_N valid_before else I64_MAX))%Z
            (PaymentProtocol "MPP Tempo transaction outlives its payment challenge") ;?
  let? expected := build_transaction integrity valid_before in
  reject_if (ts_transaction p != expected) (PaymentProtocol "MPP Tempo signing transaction was modified") ;?
  Ok (signature_hash (ts_transaction p)).

(** [TempoSigningPayload::prepare] *)
Definition tempo_prepare (integrity : MppChallengeIntegrity) (payer : string) (now : Z) : Result Error TempoSigningPayload :=
  reject_if ((now <? 0)%Z || (mi_expires_at integrity <=? now)%Z)
            (PaymentProtocol "MPP Tempo challenge expired before signing") ;?
  let? payer := map_err (fun _ => PaymentProtocol "MPP Tempo payer is not a valid EVM address")
                        (canonicalize_wallet_address EVM_EOA_ALGORITHM payer) in
  let valid_before := Z.min (i64_saturating_add now TEMPO_CHARGE_VALIDITY_SECONDS) (mi_expires_at integrity) in
  reject_if (valid_before <=? 0)%Z (PaymentProtocol "MPP Tempo validity window is invalid") ;?
  let? transaction := build_transaction integrity (Z.to_N valid_before) in
  let payload := {| ts_kind := TEMPO_SIGNING_PAYLOAD_KIND; ts_payer := payer; ts_transaction := transaction |} in
  tempo_validate payload integrity ;?
  Ok payload.

(** The serde form of a signing payload, in which other members are refused *)
Definition tempo_payload_to_value (p : TempoSigningPayload) : Result string json :=
  let? transaction := tempo_to_value (ts_transaction p) in
  Ok (jobject [("kind", JString (ts_kind p)); ("payer", JString (ts_payer p)); ("transaction", transaction)]).
Definition tempo_payload_known (f : StructForm) : bool :=
  match f with
  | FromMap m => forallb (fun kv => (fst kv == "kind") || (fst kv == "payer") || (fst kv == "transaction")) m
  | FromSeq _ => true
  end.
Definition tempo_payload_from_value (j : json) : option TempoSigningPayload :=
  f ← struct_form 3 j;
  if tempo_payload_known f then
    kind ← required_member as_str f 0 "kind";
    payer ← required_member as_str f 1 "payer";
    transaction ← required_member (fun v => match tempo_from_value v with Ok t => Some t | Err _ => None end) f 2 "transaction";
    Some {| ts_kind := kind; ts_payer := payer; ts_transaction := transaction |}
  else None.

(** [prepare_signing] *)
Definition mpp_prepare_signing (a : MppAdapter) (c : PaymentChallenge) (payer : string) (now : Z)
  : Result Error ProtocolSigningRequest :=
  let? integrity := mpp_challenge_integrity a c in
  let? payload := tempo_prepare integrity payer now in
  let? digest := tempo_validate payload integrity in
  let? value := map_err Prelude.Json (tempo_payload_to_value payload) in
  Ok {| pr_digest := digest; pr_payload := value |}.

(** The signer's answer as a low-S signature of the payer over this digest *)
Definition tempo_signature (p : TempoSigningPayload) (digest signature : string)
  : Result Error (TempoSignature * string) :=
  let? signature := map_err (fun error => PaymentProtocol ("invalid MPP Tempo signature: " ++ error))
                            (signature_from_raw signature) in
  reject_if (signature_normalizes signature) (PaymentProtocol "MPP Tempo signature is not low-S canonical") ;?
  let? recovered := map_err (fun error => PaymentProtocol ("recover MPP Tempo signer: " ++ error))
                            (recover_address_from_prehash signature digest) in
  let? payer := ok_or (address_from_str (ts_payer p)) (PaymentProtocol "MPP Tempo payer binding is invalid") in
  reject_if (recovered != payer) (PaymentProtocol "MPP Tempo signature was produced by a different wallet") ;?
  Ok (signature, payer).

(** [complete_signing] *)
Definition mpp_complete_signing (a : MppAdapter) (c : PaymentChallenge) (request : ProtocolSigningRequest)
  (signature : string) : Result Error PaymentCredential :=
  reject_if (negb (str_len (pr_digest request) =? 32)%N || negb (str_len signature =? 65)%N)
            (PaymentProtocol "MPP Tempo signer returned invalid secp256k1 material") ;?
  let? integrity := mpp_challenge_integrity a c in
  let? payload := ok_or (tempo_payload_from_value (pr_payload request)) (PaymentProtocol "invalid MPP Tempo signing payload") in
  let? digest := tempo_validate payload integrity in
  reject_if (pr_digest request != digest)
            (PaymentProtocol "MPP Tempo signing request digest no longer matches its transaction") ;?
  let? signed := tempo_signature payload digest signature in
  let transaction_bytes := signed_2718 (ts_transaction payload) (fst signed) in
  fingerprinted a c (build_charge_credential (mi_official integrity) transaction_bytes
                       (tt_chain_id (ts_transaction payload)) (snd signed)).

(** [MppAdapter] as a [PaymentProtocol]; [issuance_id] is the identity that a
    challenge draws *)
Definition mpp_adapter `{TimeText} (a : MppAdapter) (issuance_id : string) : PaymentProtocolAdapter :=
  {| adapter_name := MPP_PROTOCOL;
     decode_http_challenge := mpp_decode_http_challenge a;
     encode_http_credential := mpp_encode_http_credential;
     parse_challenge := mpp_parse_challenge a;
     merchant_evidence_header := "payment-receipt";
     decode_merchant_evidence := mpp_decode_merchant_evidence;
     credential_payer := mpp_credential_payer a;
     validate_payment := mpp_validate_payment a;
     prepare_signing := mpp_prepare_signing a;
     complete_signing := mpp_complete_signing a;
     build_challenge := mpp_build_challenge a issuance_id;
     verify_credential := mpp_verify_credential a;
     credential_fingerprint := mpp_credential_fingerprint a;
     protocol_settlement := mpp_settle_payment a |}.
End Tempo.
