(* ===== verification/MppSafety.v ===== *)
(** * What the MPP adapter guarantees

    A challenge the payee issued is authentic and is read by a payer as exactly
    the offer it was issued for; the only thing a wallet is asked to sign is the
    one transaction that pays the challenge; a signed payment is accepted by the
    payee; and two credentials share a replay identity only if they carry the
    same payment. *)

From S2P Require Import Prelude Text Money Json Wallet Intent Policy Ledger Records Store Authorizer SigningService CanonicalJson X402Sdk X402Wire SettlementFacts EvmReceipts ReceiptSafety X402Safety MppSdk Mpp.

#[local] Open Scope string_scope.
#[local] Open Scope vault_scope.

(** ** What the adapter relies on *)

(** The header of a challenge reads back as that challenge, and a chain
    identity is a [u64]. *)
Class MppSdkLaws `{MppSdk} : Prop := {
  www_authenticate_reads_back : forall c h,
    format_www_authenticate c = Ok h -> parse_www_authenticate_all h = [Ok c];
  charge_chain_id_u64 : forall r n, charge_chain_id r = Some n -> (n <= U64_MAX)%N
}.

(** A transaction keeps the chain it was built for, reads back from its serde
    form and has a 32-byte signing hash and a non-empty signed encoding.  The
    credential of a charge the adapter built (one transfer between addresses, on
    a challenge read from a header) prints, and reads back as the echo of its
    challenge with the transaction in hexadecimal and the payer as its source. *)
Definition parsed_address `{EvmCrypto} (a : string) : Prop := exists text, address_from_str text = Some a.
Class TempoSdkLaws `{EvmCrypto, TempoSdk} : Prop := {
  tempo_chain_built : forall o, tt_chain_id (build_tempo_tx o) = to_chain_id o;
  tempo_reads_back : forall t v, tempo_to_value t = Ok v -> tempo_from_value v = Ok t;
  signature_hash_length : forall t, str_len (signature_hash t) = 32%N;
  signed_2718_nonempty : forall t s, signed_2718 t s <> "";
  charge_credential_reads_back : forall header c chain token to amount memo valid_before s payer,
    Ok c ∈ parse_www_authenticate_all header ->
    parsed_address token -> parsed_address to -> parsed_address payer ->
    let tx := signed_2718 (build_tempo_tx (charge_options chain token to amount memo valid_before)) s in
    exists text submitted v,
    format_authorization (build_charge_credential c tx chain payer) = Ok text
    /\ parse_authorization text = Ok submitted
    /\ oc_echo_value c = Ok v /\ oa_challenge_value submitted = Ok v /\ value_eqb v v = true
    /\ oa_source submitted = Some ("did:pkh:eip155:" ++ show_unsigned chain ++ ":" ++ payer)
    /\ oa_charge_payload submitted = Ok {| cp_is_transaction := true; cp_type := "transaction";
                                           cp_data := "0x" ++ hex_encode tx |}
}.

(** ** Text *)

Lemma hex_decode_encode s : hex_decode (hex_encode s) = Some s.
Proof.
  induction s as [|c s IH]; [done|]. cbn [hex_encode hex_decode].
  assert (byte_of c < 256)%N as Hc by apply N_ascii_bounded.
  destruct (hex_value_digit (byte_of c / 16)) as [-> ->]; [apply N.Div0.div_lt_upper_bound; lia|].
  destruct (hex_value_digit (byte_of c mod 16)) as [-> ->]; [apply N.mod_lt; lia|].
  rewrite IH, <- N.Div0.div_mod. cbn. unfold byte_of. by rewrite ascii_N_embedding.
Qed.
Lemma hex_encode_even s : (str_len (hex_encode s) mod 2 = 0)%N.
Proof.
  assert (str_len (hex_encode s) = 2 * str_len s)%N as ->.
  { unfold str_len. induction s as [|c s IH]; [done|]. cbn [hex_encode String.length]. lia. }
  by rewrite N.mul_comm, N.Div0.mod_mul.
Qed.
Lemma decode_payment_reference_hex s : s <> "" -> decode_payment_reference ("0x" ++ hex_encode s) = Ok s.
Proof.
  intros Hs. unfold decode_payment_reference. rewrite strip_prefix_app. cbn [mbind option_bind].
  rewrite hex_encode_even, N.eqb_refl, andb_true_r. destruct s as [|c s]; [done|]. cbn [hex_encode is_empty negb ok_or rbind].
  change (String (hex_digit (byte_of c / 16)) (String (hex_digit (byte_of c mod 16)) (hex_encode s))) with (hex_encode (String c s)).
  by rewrite hex_decode_encode.
Qed.

Lemma eip155_chain_id_printed n : (n <= U64_MAX)%N -> eip155_chain_id ("eip155:" ++ show_unsigned n) = Some n.
Proof. intros Hn. unfold eip155_chain_id. rewrite strip_prefix_app. by apply parse_show_unsigned. Qed.

(** ** Challenges *)

Section Challenges.
Context `{SolanaPubkey, MppSdk, UrlParser, Sha256}.

(** What a decoded header offers. *)
Record charge_decoded (a : MppAdapter) (resource header : string) (g : MppChallengeIntegrity) : Prop := {
  cd_advertised : Ok (mi_official g) ∈ parse_www_authenticate_all header;
  cd_tempo : tempo_charge (mi_official g) = true;
  cd_header : format_www_authenticate (mi_official g) = Ok (mi_header g);
  cd_request : oc_request (mi_official g) = Ok (mi_request g);
  cd_resource : mpp_validate_resource resource = Ok tt /\ scoped_resource (mi_request g) = Some resource;
  cd_network : tempo_network (mi_request g) = Ok (as_network (mi_asset g));
  cd_asset : mpp_registered_asset a (as_network (mi_asset g)) (cg_currency (mi_request g)) = Ok (mi_asset g);
  cd_amount : parse_amount (mi_request g) = Ok (mi_amount g) /\ (0 < mi_amount g)%N;
  cd_recipient : exists r, cg_recipient (mi_request g) = Some r
                   /\ canonicalize_wallet_address EVM_EOA_ALGORITHM r = Ok (mi_recipient g);
  cd_expiry : oc_expires_at (mi_official g) = Some (mi_expires_at g) /\ (0 < mi_expires_at g)%Z
}.

Lemma select_charge_found parsed selected c :
  rfold select_charge selected parsed = Ok (Some c) ->
  selected = Some c \/ (Ok c ∈ parsed /\ tempo_charge c = true).
Proof.
  revert selected. induction parsed as [|p parsed IH]; intros selected; simpl; [intros [= ->]; by left|].
  intros (next & Hp & Hl)%rbind_ok. unfold select_charge in Hp. apply rbind_ok in Hp as (x & Hx & Hn).
  apply map_err_ok in Hx. subst p. injection Hn as <-. apply IH in Hl as [Hl|[Hin Ht]].
  - destruct (is_none selected && tempo_charge x) eqn:Hc; [|by left].
    injection Hl as ->. right. apply andb_true_iff in Hc as [_ Hc]. split; [left|done].
  - right. split; [by right|done].
Qed.

Lemma registered_network a network currency asset :
  mpp_registered_asset a network currency = Ok asset -> as_network asset = network.
Proof.
  unfold mpp_registered_asset. intros (x & Hx%ok_or_ok & Hr)%rbind_ok. injection Hr as <-.
  apply List.find_some in Hx as [_ Hb]. by bool_inv.
Qed.

Lemma decode_challenge_header_ok a resource header g :
  decode_challenge_header a resource header = Ok g -> charge_decoded a resource header g.
Proof.
  unfold decode_challenge_header. intros Hd. run_inv. bool_inv.
  match goal with Hs : rfold select_charge _ _ = Ok _ |- _ => apply select_charge_found in Hs as [?|[Hin Ht]]; [done|] end.
  match goal with Ha : mpp_registered_asset _ _ _ = Ok _ |- _ => pose proof (registered_network _ _ _ _ Ha) as Hnet end.
  split; simpl; rewrite ?Hnet; try done.
  - match goal with Hv : mpp_validate_resource _ = Ok ?u |- _ => destruct u end. split; congruence.
  - destruct (parse_amount _) as [amount|]; [|done]. unfold Amount.is_zero in *.
    destruct (N.eqb_spec amount 0); simplify_eq. split; [done|lia].
  - eauto.
Qed.

(** The stored projection of a challenge is the one of its header. *)
Record mpp_intact (a : MppAdapter) (c : PaymentChallenge) (g : MppChallengeIntegrity) (header : string) : Prop := {
  mk_protocol : ch_protocol c = MPP_PROTOCOL;
  mk_stored : jget_str "www_authenticate" (ch_payload c) = Some header;
  mk_header : decode_challenge_header a (ch_resource c) header = Ok g;
  mk_projection : forall projected, jget "mcp_challenge" (ch_payload c) = Some projected ->
                    exists v, mcp_challenge_value (mi_official g) = Ok v /\ value_eqb v projected = true;
  mk_canonical : canonicalize_wallet_address EVM_EOA_ALGORITHM (ch_recipient c) = Ok (ch_recipient c);
  mk_asset : ch_asset c = mi_asset g;
  mk_amount : ch_amount c = mi_amount g;
  mk_recipient : ch_recipient c = mi_recipient g;
  mk_nonce : ch_nonce c = oc_id (mi_official g);
  mk_expiry : ch_expires_at c = mi_expires_at g;
  mk_hash : ch_challenge_hash c = mpp_challenge_hash (ch_resource c) header;
  mk_payee : forall price_id, ch_price_id c = Some price_id -> validate_payee_binding a c g price_id = Ok tt
}.

Lemma mpp_challenge_integrity_ok a c g :
  mpp_challenge_integrity a c = Ok g <-> exists header, mpp_intact a c g header.
Proof.
  split.
  - unfold mpp_challenge_integrity, mpp_ensure_protocol. intros Hc. run_inv. bool_inv.
    match goal with Hg : jget_str _ _ = Some ?h |- _ => exists h end. split; try congruence; try done.
    + intros projected Hp. match goal with Hm : match jget _ _ with _ => _ end = Ok _ |- _ => rewrite Hp in Hm; run_inv end.
      bool_inv. eauto.
    + intros price_id Hp. match goal with Hm : match ch_price_id _ with _ => _ end = Ok ?u |- _ => rewrite Hp in Hm; by destruct u end.
  - intros (header & [Hpr Hst Hh Hmcp Hcan Has Ham Hre Hno Hex Hha Hpa]).
    unfold mpp_challenge_integrity, mpp_ensure_protocol. rewrite Hpr, Hst. cbn [reject_if rbind ok_or]. rewrite bool_decide_true by done.
    cbn [negb reject_if rbind]. rewrite Hh. cbn [rbind].
    assert ((match jget "mcp_challenge" (ch_payload c) with
             | Some projected => let? value := mcp_challenge_value (mi_official g) in
                                 reject_if (negb (value_eqb value projected))
                                           (PaymentProtocol "stored MPP MCP challenge projection is inconsistent")
             | None => Ok tt end) = Ok tt) as ->.
    { destruct (jget "mcp_challenge" (ch_payload c)) as [projected|]; [|done].
      destruct (Hmcp projected eq_refl) as (v & -> & Hv). cbn [rbind]. by rewrite Hv. }
    cbn [rbind]. rewrite Hcan. cbn [map_err rbind]. rewrite Has, Ham, <- Hre, Hno, Hex, Hha, !bool_decide_true by done.
    cbn [negb orb reject_if rbind]. destruct (ch_price_id c) as [price_id|]; [rewrite (Hpa price_id eq_refl)|]; done.
Qed.

(** ** A payee's challenge *)

(** The terms of a challenge. *)
Definition same_terms (c c' : PaymentChallenge) : Prop :=
  ch_resource c' = ch_resource c /\ ch_protocol c' = ch_protocol c /\ ch_asset c' = ch_asset c /\ ch_amount c' = ch_amount c
  /\ ch_recipient c' = ch_recipient c /\ ch_nonce c' = ch_nonce c /\ ch_challenge_hash c' = ch_challenge_hash c
  /\ ch_expires_at c' = ch_expires_at c /\ ch_payload c' = ch_payload c.

(** The challenge is authenticated with the payee's secret for this price. *)
Definition authentic (payee : MppPayeeSettings) (price : PaymentPrice) (g : MppChallengeIntegrity) : Prop :=
  oc_verify (mi_official g) (mp_challenge_secret payee) = true
  /\ cg_external_id (mi_request g) = Some (pr_id price)
  /\ exists opaque, oc_opaque (mi_official g) = Some (Ok opaque) /\ opaque !! "price_id" = Some (pr_id price)
       /\ opaque !! "resource" = Some (pr_resource price) /\ opaque !! "scenario_id" = Some (pr_scenario_id price).

Lemma validate_payee_binding_ok a c g price_id u :
  validate_payee_binding a c g price_id = Ok u ->
  exists payee opaque, md_payee a = Some payee /\ oc_verify (mi_official g) (mp_challenge_secret payee) = true
    /\ cg_external_id (mi_request g) = Some price_id /\ oc_opaque (mi_official g) = Some (Ok opaque)
    /\ opaque !! "price_id" = Some price_id /\ opaque !! "resource" = Some (ch_resource c)
    /\ opaque !! "scenario_id" = Some (ch_scenario_id c).
Proof. unfold validate_payee_binding. intros Hv. run_inv. bool_inv. do 2 eexists. split_and!; eauto. Qed.

(** The challenge that [build_challenge] assembles. *)
Definition issued_challenge (price : PaymentPrice) (recipient : string) (official : OfficialChallenge) (header : string)
  (projection : json) (expires_at : Z) : PaymentChallenge :=
  {| ch_scenario_id := pr_scenario_id price; ch_price_id := Some (pr_id price); ch_resource := pr_resource price;
     ch_protocol := MPP_PROTOCOL; ch_asset := pr_asset price; ch_amount := pr_amount price; ch_recipient := recipient;
     ch_nonce := oc_id official; ch_challenge_hash := mpp_challenge_hash (pr_resource price) header;
     ch_expires_at := expires_at;
     ch_payload := jobject [("www_authenticate", JString header); ("mcp_challenge", projection)] |}.
Definition timeout_of (a : MppAdapter) : Z :=
  if i64_in_range (Z.of_N (md_timeout_seconds a)) then Z.of_N (md_timeout_seconds a) else I64_MAX.

Lemma mpp_build_challenge_ok `{TimeText} a issuance_id price recipient now c :
  mpp_build_challenge a issuance_id price recipient now = Ok c ->
  exists to official header projection g,
    canonicalize_wallet_address EVM_EOA_ALGORITHM recipient = Ok to
    /\ format_www_authenticate official = Ok header /\ mcp_challenge_value official = Ok projection
    /\ c = issued_challenge price to official header projection (i64_saturating_add now (timeout_of a))
    /\ mpp_challenge_integrity a c = Ok g.
Proof.
  unfold mpp_build_challenge. intros Hb. run_inv.
  match goal with Hi : mpp_challenge_integrity _ _ = Ok _ |- _ => do 5 eexists; split_and!; [eassumption..|reflexivity|exact Hi] end.
Qed.

Context `{!MppSdkLaws}.

(** A header that the SDK printed decodes to the challenge it was printed from. *)
Lemma decode_printed a resource official header g :
  format_www_authenticate official = Ok header -> decode_challenge_header a resource header = Ok g ->
  mi_official g = official /\ mi_header g = header.
Proof.
  intros Hf Hd. apply decode_challenge_header_ok in Hd. pose proof (cd_advertised _ _ _ _ Hd) as Hin.
  rewrite (www_authenticate_reads_back _ _ Hf) in Hin. apply list_elem_of_singleton in Hin. injection Hin as Hin.
  pose proof (cd_header _ _ _ _ Hd) as Hh. split; congruence.
Qed.

Lemma decode_challenge_header_assets a b resource header :
  md_assets a = md_assets b -> decode_challenge_header a resource header = decode_challenge_header b resource header.
Proof. intros Hab. unfold decode_challenge_header, mpp_registered_asset. by rewrite Hab. Qed.

Lemma saturating_add_mono x y u v : (x <= y)%Z -> (u <= v)%Z -> (i64_saturating_add x u <= i64_saturating_add y v)%Z.
Proof. intros. unfold i64_saturating_add. apply i64_clamp_mono. lia. Qed.

Lemma timeout_in_range n : (n <= 3600)%N -> i64_in_range (Z.of_N n) = true.
Proof. intros Hn. unfold i64_in_range, I64_MIN, I64_MAX. apply andb_true_iff. split; apply Z.leb_le; lia. Qed.

(** The payer reads an issued challenge. *)
Lemma issued_challenge_parsed a b scenario price to official header projection expires g t :
  format_www_authenticate official = Ok header -> mcp_challenge_value official = Ok projection ->
  mpp_intact a (issued_challenge price to official header projection expires) g header -> md_assets a = md_assets b ->
  (md_timeout_seconds b <= 3600)%N -> (t < expires <= i64_saturating_add t (Z.of_N (md_timeout_seconds b)))%Z ->
  exists c', mpp_parse_challenge b scenario (pr_resource price) (jobject [("www_authenticate", JString header)]) t None = Ok c'
    /\ same_terms (issued_challenge price to official header projection expires) c' /\ ch_price_id c' = None
    /\ ch_scenario_id c' = scenario.
Proof.
  intros Hf Hv [_ _ Hd Hm Hcan Has Ham Hre Hno Hex _ _] Hab Htb [Hlt Hle]. cbn [issued_challenge ch_resource ch_payload
    ch_recipient ch_asset ch_amount ch_nonce ch_expires_at] in *.
  rewrite (decode_challenge_header_assets a b) in Hd by done. destruct (decode_printed _ _ _ _ _ Hf Hd) as [Ho Hh].
  pose proof (Hm projection eq_refl) as (v & Hv' & Heq). rewrite Ho, Hv in Hv'. injection Hv' as <-.
  eexists. split.
  - unfold mpp_parse_challenge.
    change (jget_str "www_authenticate" (jobject [("www_authenticate", JString header)])) with (Some header).
    cbn [ok_or rbind]. rewrite Hd. cbn [rbind].
    rewrite timeout_in_range by done.
    cbn [negb reject_if rbind is_some_and]. rewrite <- Hex, (proj2 (Z.leb_gt _ _) Hlt), (proj2 (Z.ltb_ge _ _) Hle).
    cbn [orb reject_if rbind]. rewrite Ho, Hv, Hh. cbn [rbind].
    match goal with |- context [mpp_challenge_integrity b ?c] => set (c' := c) end.
    assert (mpp_challenge_integrity b c' = Ok g) as ->; [|reflexivity].
    apply mpp_challenge_integrity_ok. exists header. subst c'. split; try reflexivity; try done; simpl; try congruence.
  - unfold same_terms. split_and!; simpl; try reflexivity; by rewrite ?Has, ?Ham, ?Hre.
Qed.

(** C18: an issued charge is authentic and understood.  A challenge that a payee
    builds for a price carries the price's asset, amount, resource and scenario,
    the canonical recipient and an expiry of the configured timeout; what its
    header decodes to is authenticated with the payee's secret for this price.
    A payer with the same assets and a timeout at least as long as the payee's,
    itself at most an hour, that receives this header after it was built and
    before it expires finds the charge in it, and parses it into a challenge of
    exactly the same terms. *)
Theorem mpp_challenge_understood `{TimeText} a b issuance_id price recipient now c scenario t :
  mpp_build_challenge a issuance_id price recipient now = Ok c -> md_assets a = md_assets b ->
  (md_timeout_seconds a <= md_timeout_seconds b <= 3600)%N -> (now <= t < ch_expires_at c)%Z ->
  (ch_asset c = pr_asset price /\ ch_amount c = pr_amount price /\ ch_resource c = pr_resource price
   /\ ch_scenario_id c = pr_scenario_id price /\ ch_price_id c = Some (pr_id price)
   /\ canonicalize_wallet_address EVM_EOA_ALGORITHM recipient = Ok (ch_recipient c)
   /\ ch_expires_at c = i64_saturating_add now (Z.of_N (md_timeout_seconds a)))
  /\ exists payee g header wire c',
       md_payee a = Some payee /\ mpp_challenge_integrity a c = Ok g /\ authentic payee price g
       /\ jget_str "www_authenticate" (ch_payload c) = Some header
       /\ mpp_decode_http_challenge b (ch_resource c) [("WWW-Authenticate", header)] "" = Ok (Some wire)
       /\ mpp_parse_challenge b scenario (ch_resource c) wire t None = Ok c'
       /\ same_terms c c' /\ ch_price_id c' = None /\ ch_scenario_id c' = scenario.
Proof.
  intros (to & official & header & projection & g & Hto & Hf & Hp & -> & Hi)%mpp_build_challenge_ok Hab [Hta Htb] [Hnt Htx].
  assert (timeout_of a = Z.of_N (md_timeout_seconds a)) as Hta' by (unfold timeout_of; rewrite timeout_in_range by lia; done).
  pose proof Hi as (h & Hk)%mpp_challenge_integrity_ok. pose proof (mk_stored _ _ _ _ Hk) as [= <-].
  rewrite Hta' in *. split; [by split_and!|].
  destruct (validate_payee_binding_ok _ _ _ _ _ (mk_payee _ _ _ _ Hk _ eq_refl))
    as (payee & opaque & Hpayee & Hver & Hext & Hop & Hop1 & Hop2 & Hop3).
  pose proof (mk_header _ _ _ _ Hk) as Hd. rewrite (decode_challenge_header_assets a b) in Hd by done.
  destruct (decode_printed _ _ _ _ _ Hf Hd) as [Ho Hh].
  destruct (issued_challenge_parsed a b scenario price to official header projection _ g t Hf Hp Hk Hab Htb) as (c' & Hc' & Hs & Hn & Hsc).
  { split; [done|]. apply saturating_add_mono; lia. }
  exists payee, g, header, (jobject [("www_authenticate", JString header)]), c'. split_and!; try done.
  - unfold authentic; eauto 10.
  - unfold mpp_decode_http_challenge.
    change (header_value [("WWW-Authenticate", header)] "www-authenticate") with (Some header). cbn beta iota.
    rewrite (www_authenticate_reads_back _ _ Hf). cbn [rfold map_err rbind fst snd].
    rewrite <- Ho, (cd_tempo _ _ _ _ (decode_challenge_header_ok _ _ _ _ Hd)). cbn [orb negb].
    cbn [issued_challenge ch_resource] in *. rewrite Hd. cbn [rbind]. by rewrite Hh.
Qed.
End Challenges.

(** ** Credentials *)

Section Credentials.
Context `{SolanaPubkey, MppSdk, UrlParser, Sha256}.

(** The text of the credential reads as an answer to this challenge. *)
Definition echoes (g : MppChallengeIntegrity) (credential : PaymentCredential) (submitted : OfficialCredential) : Prop :=
  exists text echoed expected, credential_authorization credential = Some text /\ parse_authorization text = Ok submitted
    /\ oa_challenge_value submitted = Ok echoed /\ oc_echo_value (mi_official g) = Ok expected
    /\ value_eqb echoed expected = true.
Lemma echoed_credential_ok g credential submitted :
  echoed_credential g credential = Ok submitted <-> echoes g credential submitted.
Proof.
  unfold echoed_credential, echoes. split.
  - intros He. run_inv. bool_inv. eauto 10.
  - intros (text & echoed & expected & -> & Hp & Hc & Hx & Hv). cbn [ok_or rbind]. rewrite Hp. cbn [map_err rbind].
    rewrite Hc. cbn [map_err rbind]. rewrite Hx. cbn [map_err rbind]. by rewrite Hv.
Qed.

(** The values that a replay identity hashes. *)
Definition mpp_replay_values (c : PaymentChallenge) (payload_type payment : string) : list string :=
  ["agentvault.mpp.replay.v1"; as_network (ch_asset c);
   to_ascii_lowercase (unwrap_or (as_asset (ch_asset c)) (as_token_contract (ch_asset c))); payload_type; payment].

Lemma mpp_fingerprint_ok a c credential f :
  mpp_credential_fingerprint a c credential = Ok f ->
  exists g submitted payload payment, mpp_challenge_integrity a c = Ok g /\ echoes g credential submitted
    /\ oa_charge_payload submitted = Ok payload /\ decode_payment_reference (cp_data payload) = Ok payment
    /\ f = mpp_hash_values (mpp_replay_values c (cp_type payload) payment).
Proof.
  unfold mpp_credential_fingerprint. intros Hf. run_inv.
  match goal with He : echoed_credential _ _ = Ok _ |- _ => apply echoed_credential_ok in He end. eauto 10.
Qed.

(** Two credentials share a fingerprint exactly when they carry the same
    payment of the same token on the same network, unless the two framed texts
    are a collision of SHA-256. *)
Lemma mpp_fingerprint_identity a1 a2 c1 c2 cr1 cr2 f1 f2 :
  mpp_credential_fingerprint a1 c1 cr1 = Ok f1 -> mpp_credential_fingerprint a2 c2 cr2 = Ok f2 ->
  exists type1 payment1 type2 payment2,
    f1 = mpp_hash_values (mpp_replay_values c1 type1 payment1) /\ f2 = mpp_hash_values (mpp_replay_values c2 type2 payment2)
    /\ (Forall fits (mpp_replay_values c1 type1 payment1) -> Forall fits (mpp_replay_values c2 type2 payment2) ->
        f1 = f2 -> mpp_replay_values c1 type1 payment1 = mpp_replay_values c2 type2 payment2
                   \/ collide (frame (mpp_replay_values c1 type1 payment1)) (frame (mpp_replay_values c2 type2 payment2))).
Proof.
  intros (g1 & s1 & p1 & b1 & _ & _ & _ & _ & ->)%mpp_fingerprint_ok (g2 & s2 & p2 & b2 & _ & _ & _ & _ & ->)%mpp_fingerprint_ok.
  exists (cp_type p1), b1, (cp_type p2), b2. split_and!; try done. apply hash_values_inj.
Qed.

Lemma fingerprinted_ok a c official credential :
  fingerprinted a c official = Ok credential ->
  exists text, format_authorization official = Ok text /\ cr_protocol credential = MPP_PROTOCOL
    /\ cr_challenge_hash credential = ch_challenge_hash c /\ credential_authorization credential = Some text
    /\ mpp_credential_fingerprint a c credential = Ok (cr_credential_hash credential).
Proof.
  unfold fingerprinted, wrap_official_credential. intros Hf. run_inv. eexists. split_and!; [eassumption|reflexivity..|].
  match goal with Hc : mpp_credential_fingerprint _ _ _ = Ok _ |- _ => exact Hc end.
Qed.
End Credentials.

(** ** The transaction a wallet signs *)

Section Signing.
Context `{SolanaPubkey, EvmCrypto, MppSdk, !TempoSdk, UrlParser, Sha256}.

(** The transaction pays exactly the challenge: one transfer of its amount of
    its token to its recipient on its chain, which expires with the challenge. *)
Definition pays_challenge (c : PaymentChallenge) (tx : TempoTransaction) : Prop :=
  exists chain token to memo valid_before,
    eip155_chain_id (as_network (ch_asset c)) = Some chain
    /\ (as_token_contract (ch_asset c) ≫= address_from_str) = Some token /\ address_from_str (ch_recipient c) = Some to
    /\ tx = build_tempo_tx (charge_options chain token to (ch_amount c) memo valid_before)
    /\ (Z.min (Z.of_N valid_before) I64_MAX <= ch_expires_at c)%Z.

Lemma build_transaction_ok g vb tx :
  build_transaction g vb = Ok tx ->
  exists chain token to memo, eip155_chain_id (as_network (mi_asset g)) = Some chain
    /\ (as_token_contract (mi_asset g) ≫= address_from_str) = Some token /\ address_from_str (mi_recipient g) = Some to
    /\ tx = build_tempo_tx (charge_options chain token to (mi_amount g) memo vb).
Proof. unfold build_transaction. intros Hb. run_inv. eauto 10. Qed.

Lemma tempo_validate_ok a c g header p digest :
  mpp_intact a c g header -> tempo_validate p g = Ok digest ->
  digest = signature_hash (ts_transaction p) /\ pays_challenge c (ts_transaction p)
  /\ canonicalize_wallet_address EVM_EOA_ALGORITHM (ts_payer p) = Ok (ts_payer p).
Proof.
  intros Hk Hv. unfold tempo_validate in Hv. run_inv. bool_inv. split; [done|]. split; [|congruence].
  match goal with Hb : build_transaction _ _ = Ok _ |- _ =>
    apply build_transaction_ok in Hb as (chain & token & to & memo & Hc & Ht & Hr & ->) end.
  rewrite <- (mk_asset _ _ _ _ Hk) in *. rewrite <- (mk_recipient _ _ _ _ Hk) in *. rewrite <- (mk_amount _ _ _ _ Hk) in *.
  do 5 eexists. split_and!; try eassumption. rewrite (mk_expiry _ _ _ _ Hk) in *.
  unfold i64_in_range in *. repeat case_match; bool_inv; lia.
Qed.

(** C17: a wallet signs nothing but the payment.  Whatever request and signature
    [complete_signing] is given, a credential it returns carries the signed
    encoding of a transaction that makes one transfer of the challenge's amount
    of its token to its recipient on its chain and expires no later than the
    challenge; the signed digest is the one of that transaction, and the
    low-S signature recovers to the payer of the request.  The credential is
    bound to the challenge and carries its replay identity. *)
Theorem mpp_completed_pays a c request signature credential :
  mpp_complete_signing a c request signature = Ok credential ->
  exists g p s payer,
    mpp_challenge_integrity a c = Ok g /\ tempo_payload_from_value (pr_payload request) = Some p
    /\ pays_challenge c (ts_transaction p) /\ pr_digest request = signature_hash (ts_transaction p)
    /\ signature_from_raw signature = Ok s /\ signature_normalizes s = false
    /\ recover_address_from_prehash s (pr_digest request) = Ok payer /\ address_from_str (ts_payer p) = Some payer
    /\ cr_protocol credential = MPP_PROTOCOL /\ cr_challenge_hash credential = ch_challenge_hash c
    /\ mpp_credential_fingerprint a c credential = Ok (cr_credential_hash credential)
    /\ exists text, credential_authorization credential = Some text
         /\ format_authorization (build_charge_credential (mi_official g) (signed_2718 (ts_transaction p) s)
                                    (tt_chain_id (ts_transaction p)) payer) = Ok text.
Proof.
  unfold mpp_complete_signing, tempo_signature. intros Hc. run_inv. bool_inv.
  match goal with Hi : mpp_challenge_integrity _ _ = Ok ?x |- _ => pose proof Hi as (h & Hk)%mpp_challenge_integrity_ok; exists x end.
  match goal with Hv : tempo_validate ?p _ = Ok _ |- _ => destruct (tempo_validate_ok _ _ _ _ _ _ Hk Hv) as (Hd & Hpay & _); exists p end.
  match goal with Hf : fingerprinted _ _ _ = Ok _ |- _ => apply fingerprinted_ok in Hf as (text & Htext & Hpr & Hch & Hau & Hfp) end.
  simpl in *. subst. do 2 eexists. split_and!; try eassumption; try congruence. eauto.
Qed.

(** ** A payment goes through *)

Context `{!MppSdkLaws, !TempoSdkLaws}.

Lemma tempo_payload_reads_back p v : tempo_payload_to_value p = Ok v -> tempo_payload_from_value v = Some p.
Proof.
  destruct p as [kind payer tx]. unfold tempo_payload_to_value. intros (j & Hj & Hv)%rbind_ok. injection Hv as <-.
  change (jobject [("kind", JString kind); ("payer", JString payer); ("transaction", j)])
    with (JObject [("kind", JString kind); ("payer", JString payer); ("transaction", j)]).
  change ((match tempo_from_value j with Ok t => Some t | Err _ => None end
           ≫= fun t => Some {| ts_kind := kind; ts_payer := payer; ts_transaction := t |})
          = Some {| ts_kind := kind; ts_payer := payer; ts_transaction := tx |}).
  by rewrite (tempo_reads_back _ _ Hj).
Qed.

Lemma tempo_prepare_ok g payer now p :
  tempo_prepare g payer now = Ok p ->
  canonicalize_wallet_address EVM_EOA_ALGORITHM payer = Ok (ts_payer p) /\ exists digest, tempo_validate p g = Ok digest.
Proof. unfold tempo_prepare. intros Hp. run_inv. simpl. eauto. Qed.

(** The credential of a charge, as [fingerprinted] wraps it. *)
Definition charge_credential (c : PaymentChallenge) (text fingerprint : string) : PaymentCredential :=
  {| cr_protocol := MPP_PROTOCOL; cr_challenge_hash := ch_challenge_hash c; cr_credential_hash := fingerprint;
     cr_payload := jobject [("authorization", JString text)] |}.

Lemma fingerprinted_charge a c g tx s chain from :
  mpp_challenge_integrity a c = Ok g -> pays_challenge c tx -> eip155_chain_id (as_network (ch_asset c)) = Some chain ->
  parsed_address from ->
  exists text submitted fingerprint,
    fingerprinted a c (build_charge_credential (mi_official g) (signed_2718 tx s) chain from) = Ok (charge_credential c text fingerprint)
    /\ echoes g (charge_credential c text fingerprint) submitted
    /\ oa_source submitted = Some ("did:pkh:eip155:" ++ show_unsigned chain ++ ":" ++ from)
    /\ exists payload, oa_charge_payload submitted = Ok payload /\ cp_is_transaction payload = true.
Proof.
  intros Hi (n & token & to & memo & vb & Hn & Htok & Hto & -> & _) Hch Hfrom.
  assert (n = chain) as -> by congruence.
  pose proof Hi as (h0 & Hk)%mpp_challenge_integrity_ok.
  pose proof (mk_header _ _ _ _ Hk) as Hdec%decode_challenge_header_ok.
  assert (parsed_address token) as Htok' by (apply bind_Some in Htok as (? & _ & ?); by eexists).
  destruct (charge_credential_reads_back h0 (mi_official g) chain token to (ch_amount c) memo vb s from
              (cd_advertised _ _ _ _ Hdec) Htok' (ex_intro _ _ Hto) Hfrom)
    as (text & submitted & v & Hf & Hp & Hv & Hc & Heq & Hs & Hpay).
  assert (forall h, echoes g (charge_credential c text h) submitted) as Hecho.
  { intros h. exists text, v, v. by split_and!. }
  exists text, submitted. eexists. split; [|split; [apply Hecho|split; [done|eauto]]].
  unfold fingerprinted, wrap_official_credential. rewrite Hf. cbn [map_err rbind].
  unfold mpp_credential_fingerprint. rewrite Hi. cbn [rbind].
  match goal with |- context [echoed_credential g ?cr] => rewrite (proj2 (echoed_credential_ok g cr submitted) (Hecho _)) end.
  cbn [rbind]. rewrite Hpay. cbn [map_err rbind cp_data].
  by rewrite decode_payment_reference_hex by apply signed_2718_nonempty.
Qed.

(** Completing a prepared signing. *)
Lemma mpp_signing_completes b c g payer now request signature s from :
  mpp_challenge_integrity b c = Ok g -> mpp_prepare_signing b c payer now = Ok request ->
  str_len signature = 65%N -> signature_from_raw signature = Ok s -> signature_normalizes s = false ->
  recover_address_from_prehash s (pr_digest request) = Ok from ->
  (forall canonical, canonicalize_wallet_address EVM_EOA_ALGORITHM payer = Ok canonical -> address_from_str canonical = Some from) ->
  exists text submitted fingerprint chain,
    mpp_complete_signing b c request signature = Ok (charge_credential c text fingerprint)
    /\ echoes g (charge_credential c text fingerprint) submitted
    /\ eip155_chain_id (as_network (mi_asset g)) = Some chain
    /\ oa_source submitted = Some ("did:pkh:eip155:" ++ show_unsigned chain ++ ":" ++ from)
    /\ exists payload, oa_charge_payload submitted = Ok payload /\ cp_is_transaction payload = true.
Proof.
  intros Hi Hp Hlen Hraw Hlow Hrec Hfrom. unfold mpp_prepare_signing in Hp. rewrite Hi in Hp. cbn [rbind] in Hp.
  apply rbind_ok in Hp as (p & Hprep & Hp). apply rbind_ok in Hp as (digest & Hdig & Hp).
  apply rbind_ok in Hp as (value & Hval%map_err_ok & Hp). injection Hp as <-. cbn [pr_digest] in Hrec.
  destruct (tempo_prepare_ok _ _ _ _ Hprep) as (Hcan & _). specialize (Hfrom _ Hcan).
  pose proof Hi as (h & Hk)%mpp_challenge_integrity_ok.
  destruct (tempo_validate_ok _ _ _ _ _ _ Hk Hdig) as (Hd & Hpays & _).
  pose proof Hpays as (chain & token & to & memo & vb & Hch & _ & _ & Htx & _).
  destruct (fingerprinted_charge b c g (ts_transaction p) s chain from Hi Hpays Hch (ex_intro _ _ Hfrom))
    as (text & submitted & fingerprint & Hfp & Hecho & Hsrc & Hpay).
  exists text, submitted, fingerprint, chain. rewrite (mk_asset _ _ _ _ Hk) in Hch. split_and!; try done.
  unfold mpp_complete_signing. cbn [pr_digest pr_payload]. rewrite Hlen. rewrite Hd at 1. rewrite signature_hash_length.
  cbn [N.eqb negb orb reject_if rbind]. change (65 =? 65)%N with true. change (32 =? 32)%N with true. cbn [negb orb reject_if rbind].
  rewrite Hi. cbn [rbind]. rewrite (tempo_payload_reads_back _ _ Hval). cbn [ok_or rbind]. rewrite Hdig. cbn [rbind].
  rewrite bool_decide_true by done. cbn [negb reject_if rbind]. unfold tempo_signature. rewrite Hraw. cbn [map_err rbind].
  rewrite Hlow. cbn [reject_if rbind]. rewrite Hrec. cbn [map_err rbind]. rewrite Hfrom. cbn [ok_or rbind].
  rewrite bool_decide_true by done. cbn [negb reject_if rbind fst snd].
  replace (tt_chain_id (ts_transaction p)) with chain by (by rewrite Htx, tempo_chain_built). exact Hfp.
Qed.

(** What a payer's challenge keeps of the header it was parsed from. *)
Lemma mpp_parse_challenge_ok b scenario resource wire t advertised official header c :
  mpp_parse_challenge b scenario resource wire t advertised = Ok c -> jget_str "www_authenticate" wire = Some header ->
  format_www_authenticate official = Ok header ->
  exists g, mpp_challenge_integrity b c = Ok g /\ mi_official g = official
    /\ ch_challenge_hash c = mpp_challenge_hash resource header.
Proof.
  intros Hp Hw Hf. unfold mpp_parse_challenge in Hp. rewrite Hw in Hp. cbn [ok_or rbind] in Hp. run_inv.
  match goal with Hd : decode_challenge_header _ _ _ = Ok _ |- _ => destruct (decode_printed _ _ _ _ _ Hf Hd) as [Ho Hh] end.
  match goal with Hi : mpp_challenge_integrity _ _ = Ok ?g |- _ => exists g; pose proof Hi as (h & Hk)%mpp_challenge_integrity_ok end.
  pose proof (mk_stored _ _ _ _ Hk) as Hst. simpl in Hst. injection Hst as <-.
  pose proof (mk_header _ _ _ _ Hk) as Hd2. simpl in Hd2. rewrite Hh in *.
  destruct (decode_printed _ _ _ _ _ Hf Hd2) as [Ho2 _]. by split_and!.
Qed.

Lemma decoded_network a resource header g :
  decode_challenge_header a resource header = Ok g ->
  exists n, charge_chain_id (mi_request g) = Some n /\ (n <= U64_MAX)%N
    /\ as_network (mi_asset g) = "eip155:" ++ show_unsigned n.
Proof.
  intros Hn%decode_challenge_header_ok%cd_network. unfold tempo_network in Hn.
  apply rbind_ok in Hn as (m & _ & Hn). apply rbind_ok in Hn as (? & _ & Hn). apply rbind_ok in Hn as (? & _ & Hn).
  apply rbind_ok in Hn as (n & Hc%ok_or_ok & Hn). injection Hn as Hn. exists n. split_and!; try done. by eapply charge_chain_id_u64.
Qed.

Lemma mpp_payer_read a c g credential submitted payload chain from canonical :
  mpp_challenge_integrity a c = Ok g -> cr_protocol credential = MPP_PROTOCOL ->
  cr_challenge_hash credential = ch_challenge_hash c -> echoes g credential submitted ->
  oa_charge_payload submitted = Ok payload -> cp_is_transaction payload = true ->
  oa_source submitted = Some ("did:pkh:eip155:" ++ show_unsigned chain ++ ":" ++ from) ->
  as_network (ch_asset c) = "eip155:" ++ show_unsigned chain ->
  canonicalize_wallet_address EVM_EOA_ALGORITHM from = Ok canonical ->
  mpp_credential_payer a c credential = Ok canonical.
Proof.
  intros Hi Hp Hh He Hpay Htx Hs Hn Hc. unfold mpp_credential_payer, credential_bound. rewrite Hi. cbn [rbind].
  rewrite Hp, Hh, !bool_decide_true by done. cbn [negb orb reject_if rbind].
  rewrite (proj2 (echoed_credential_ok _ _ _) He). cbn [rbind]. rewrite Hpay. cbn [map_err rbind]. rewrite Htx.
  cbn [negb reject_if rbind]. unfold payer_from_source. rewrite Hn, strip_prefix_app. cbn [ok_or rbind]. rewrite Hs.
  cbn [mbind option_bind].
  replace ("did:pkh:eip155:" ++ show_unsigned chain ++ ":" ++ from)
    with (("did:pkh:eip155:" ++ show_unsigned chain ++ ":") ++ from) by (by rewrite !str_app_assoc).
  rewrite strip_prefix_app. cbn [ok_or rbind]. by rewrite Hc.
Qed.

Lemma mpp_settle_material a c g credential submitted payer :
  mpp_challenge_integrity a c = Ok g -> cr_protocol credential = MPP_PROTOCOL ->
  cr_challenge_hash credential = ch_challenge_hash c -> echoes g credential submitted ->
  mpp_credential_payer a c credential = Ok payer ->
  mpp_settle_payment a c credential
  = Ok {| pt_protocol := MPP_PROTOCOL; pt_payment_payload := cr_payload credential;
          pt_payment_requirements := jobject [("www_authenticate", JString (mi_header g))] |}.
Proof.
  intros Hi Hp Hh He Hpayer. unfold mpp_settle_payment, credential_bound. rewrite Hi. cbn [rbind].
  rewrite Hp, Hh, !bool_decide_true by done. cbn [negb orb reject_if rbind].
  rewrite (proj2 (echoed_credential_ok _ _ _) He). cbn [rbind]. by rewrite Hpayer.
Qed.

(** Two challenges of one header name the same chain. *)
Lemma same_header_chain a b c c' g g' h h' chain :
  mpp_intact a c g h -> mpp_intact b c' g' h' -> mi_official g = mi_official g' ->
  eip155_chain_id (as_network (mi_asset g')) = Some chain ->
  as_network (ch_asset c) = "eip155:" ++ show_unsigned chain.
Proof.
  intros Hk Hk' Ho Hch. pose proof (mk_header _ _ _ _ Hk) as Hd. pose proof (mk_header _ _ _ _ Hk') as Hd'.
  destruct (decoded_network _ _ _ _ Hd) as (n & Hn & Hle & Hnet).
  destruct (decoded_network _ _ _ _ Hd') as (n' & Hn' & Hle' & Hnet').
  pose proof (cd_request _ _ _ _ (decode_challenge_header_ok _ _ _ _ Hd)) as Hr.
  pose proof (cd_request _ _ _ _ (decode_challenge_header_ok _ _ _ _ Hd')) as Hr'.
  assert (n' = n) as -> by congruence. rewrite Hnet', eip155_chain_id_printed in Hch by done. injection Hch as <-.
  by rewrite (mk_asset _ _ _ _ Hk).
Qed.

(** C16: an MPP payment goes through.  When a payee builds a challenge, a payer
    parses its header and prepares the signing, and the payer's wallet answers
    with a low-S signature of the prepared digest, then completing the signing
    succeeds, and the payee accepts the credential for its own challenge until
    it expires, names the payer's canonical address, and has settlement
    material for it. *)
Theorem mpp_payment_accepted `{!EvmCryptoLaws, TimeText} a b issuance_id price recipient now c header scenario t advertised c'
    payer canonical t' request signature s from t'' :
  mpp_build_challenge a issuance_id price recipient now = Ok c ->
  jget_str "www_authenticate" (ch_payload c) = Some header ->
  mpp_parse_challenge b scenario (ch_resource c) (jobject [("www_authenticate", JString header)]) t advertised = Ok c' ->
  mpp_prepare_signing b c' payer t' = Ok request ->
  canonicalize_wallet_address EVM_EOA_ALGORITHM payer = Ok canonical -> address_from_str canonical = Some from ->
  str_len signature = 65%N -> signature_from_raw signature = Ok s -> signature_normalizes s = false ->
  recover_address_from_prehash s (pr_digest request) = Ok from ->
  (t'' < ch_expires_at c)%Z ->
  exists credential, mpp_complete_signing b c' request signature = Ok credential
    /\ mpp_verify_credential a c credential t'' = Ok {| pv_payer := Some canonical; pv_requires_external_settlement := true |}
    /\ mpp_settle_payment a c credential
       = Ok {| pt_protocol := MPP_PROTOCOL; pt_payment_payload := cr_payload credential;
               pt_payment_requirements := jobject [("www_authenticate", JString header)] |}.
Proof.
  intros (to & official & hd & projection & g & Hto & Hf & _ & -> & Hi)%mpp_build_challenge_ok Hhd Hparse Hprep Hcan Hfrom
    Hlen Hraw Hlow Hrec Hexp.
  pose proof Hhd as [= <-]. destruct (mpp_parse_challenge_ok _ _ _ _ _ _ _ _ _ Hparse eq_refl Hf) as (g' & Hi' & Ho' & Hh').
  destruct (mpp_signing_completes b c' g' payer t' request signature s from Hi' Hprep Hlen Hraw Hlow Hrec) as
    (text & submitted & fingerprint & chain & Hcomp & Hecho & Hch & Hsrc & payload & Hpay & Htx).
  { intros x Hx. rewrite Hcan in Hx. by injection Hx as <-. }
  pose proof Hi as (h & Hk)%mpp_challenge_integrity_ok. pose proof Hi' as (h' & Hk')%mpp_challenge_integrity_ok.
  pose proof (mk_stored _ _ _ _ Hk) as [= <-].
  destruct (decode_printed _ _ _ _ _ Hf (mk_header _ _ _ _ Hk)) as [Ho Hhead].
  pose proof (same_header_chain _ _ _ _ _ _ _ _ _ Hk Hk' ltac:(congruence) Hch) as Hnet.
  destruct (canonicalize_wallet_address_evm _ _ Hcan) as (e & He & ->).
  destruct (address_of_canonical _ _ _ He Hfrom) as (_ & e' & He' & Hc').
  set (c := issued_challenge _ _ _ _ _ _) in *. set (credential := charge_credential c' text fingerprint) in *.
  assert (echoes g credential submitted) as Hecho'.
  { destruct Hecho as (x & y & z & Hxyz). exists x, y, z. by rewrite Ho, <- Ho'. }
  assert (mpp_credential_payer a c credential = Ok (evm_canonical e)) as Hpayer.
  { eapply mpp_payer_read; [exact Hi|done|done|exact Hecho'|exact Hpay|exact Htx|exact Hsrc|done|].
    unfold canonicalize_wallet_address. by rewrite He', Hc'. }
  exists credential. split; [done|]. split.
  - unfold mpp_verify_credential. rewrite (proj2 (Z.leb_gt _ _) Hexp). cbn [reject_if rbind]. by rewrite Hpayer.
  - rewrite <- Hhead. by eapply mpp_settle_material.
Qed.
End Signing.
