(* ===== verification/MppSamples.v ===== *)
(** * An MPP charge

    An SDK, a payee and a payer on which the hypotheses of [MppSafety] are
    evaluated: a charge of the sample price is issued, paid and accepted. *)

From S2P Require Import Prelude Text Money Json Wallet Intent Policy Ledger Records Store Authorizer Samples SigningService CanonicalJson X402Sdk X402Wire SettlementFacts EvmReceipts ReceiptSafety X402Safety X402Samples MppSdk Mpp MppSafety.

#[local] Open Scope string_scope.
#[local] Open Scope vault_scope.

Module SampleMpp.
#[export] Existing Instance Sample.codec.
#[export] Existing Instance Sample.parser.
#[export] Existing Instance SampleX402.digest.
#[export] Existing Instance SampleX402.crypto.
#[export] Existing Instance SampleX402.crypto_laws.

Definition payer : string := SampleX402.payer.
Definition recipient : string := SampleX402.recipient.
Definition price : PaymentPrice :=
  {| pr_id := "price-m"; pr_scenario_id := "scenario-1"; pr_policy_id := "policy-1"; pr_resource := "https://api.example/feed";
     pr_protocols := ["mpp"]; pr_asset := sample_asset; pr_amount := 250000; pr_wallet_id := "wallet-1"; pr_enabled := true;
     pr_created_at := 1600000000; pr_updated_at := 1600000000 |}.
Definition request : ChargeRequest := price_charge price SampleX402.contract recipient 8453.
Definition opaque : gmap string string :=
  {["challenge_id" := "issue-1"; "price_id" := "price-m"; "resource" := "https://api.example/feed";
    "scenario_id" := "scenario-1"]}.

(** The text up to the first bar, and what follows it. *)
Fixpoint split_bar (s : string) : option (string * string) :=
  match s with
  | "" => None
  | String c rest =>
      if c == "|"%char then Some ("", rest)
      else match split_bar rest with Some (l, r) => Some (String c l, r) | None => None end
  end.

(** An SDK with one challenge; a credential is its transaction in hexadecimal
    and its source. *)
Definition header : string := "Payment charge-1".
#[export] Instance sdk : MppSdk :=
  {| Base64UrlJson := unit; OfficialChallenge := unit; OfficialCredential := (string * string)%type; OfficialPayload := unit;
     parse_www_authenticate_all h := if h == header then [Ok tt] else [];
     format_www_authenticate _ := Ok header;
     oc_id _ := "charge-1"; oc_method _ := "tempo"; oc_is_charge _ := true; oc_request _ := Ok request;
     oc_expires_at _ := Some 1700000600%Z; oc_opaque _ := Some (Ok opaque);
     oc_verify _ secret := secret == "0123456789abcdef0123456789abcdef";
     oc_echo_value _ := Ok JNull;
     payment_required_error_value _ := Ok (jobject [("data", jobject [("challenges", JArray [JString "charge-1"])])]);
     charge_from_typed _ := Ok tt; opaque_from_typed _ := Ok tt; with_secret_key_full _ _ _ _ _ _ _ _ := tt;
     parse_amount r := ok_or (parse_unsigned U128_MAX (cg_amount r)) "amount";
     charge_chain_id _ := Some 8453%N;
     parse_authorization t := ok_or (split_bar t) "authorization";
     format_authorization c := Ok (fst c ++ String "|" (snd c));
     oa_challenge_value _ := Ok JNull; oa_header _ := None; oa_source c := Some (snd c);
     oa_charge_payload c := Ok {| cp_is_transaction := true; cp_type := "transaction"; cp_data := "0x" ++ fst c |};
     payload_from_value _ := Ok tt; credential_new _ _ := ("", "");
     parse_receipt _ := Err "receipt" |}.
#[export] Instance sdk_laws : MppSdkLaws.
Proof.
  split.
  - intros [] h [= <-]. reflexivity.
  - intros r n [= <-]. by vm_compute.
Qed.

(** A transaction is its chain and the end of its validity. *)
#[export] Instance tempo : TempoSdk :=
  {| TempoTransaction := (N * N)%type; TempoTransaction_eq_dec := _; TempoSignature := unit; MAX_FEE_PER_GAS := 1;
     MAX_PRIORITY_FEE_PER_GAS := 1;
     tempo_charge_from_challenge _ :=
       Ok {| tc_fee_payer := false; tc_has_splits := false; tc_chain_id := 8453; tc_currency := SampleX402.contract;
             tc_recipient := recipient; tc_amount := 250000; tc_memo := Some "memo" |};
     transfer_with_memo_call to _ memo := to ++ memo;
     build_tempo_tx o := (to_chain_id o, unwrap_or 0%N (to_valid_before o));
     tt_valid_before t := Some (snd t); tt_chain_id t := fst t; signature_hash _ := SampleX402.first_bytes 32 "";
     tempo_to_value t := Ok (JArray [JNumber (Z.of_N (fst t)); JNumber (Z.of_N (snd t))]);
     tempo_from_value j := match j with
                           | JArray [JNumber chain; JNumber valid] => Ok (Z.to_N chain, Z.to_N valid)
                           | _ => Err "transaction"
                           end;
     signed_2718 _ _ := "signed"; signature_from_raw _ := Ok tt; signature_normalizes _ := false;
     recover_address_from_prehash _ _ := Ok payer;
     build_charge_credential _ tx chain from := (hex_encode tx, "did:pkh:eip155:" ++ show_unsigned chain ++ ":" ++ from) |}.
#[export] Instance tempo_laws : TempoSdkLaws.
Proof.
  split.
  - done.
  - intros [chain valid] v [= <-]. cbn. by rewrite !N2Z.id.
  - intros t. exact (f_equal N.of_nat (SampleX402.first_bytes_length 32 "")).
  - done.
  - intros header [] chain token to amount memo vb s from _ _ _ _ tx.
    exists (hex_encode tx ++ String "|" ("did:pkh:eip155:" ++ show_unsigned chain ++ ":" ++ from)).
    exists (hex_encode tx, "did:pkh:eip155:" ++ show_unsigned chain ++ ":" ++ from), JNull.
    split_and!; reflexivity.
Qed.
#[export] Instance time : TimeText := {| from_unix_timestamp _ := Ok tt; format_rfc3339 _ := Ok "2023-11-14T22:23:20Z" |}.

Definition assets : list MppAsset :=
  [{| ma_network := "eip155:8453"; ma_currency := SampleX402.contract; ma_symbol := "USDC";
      ma_token_contract := Some SampleX402.contract; ma_decimals := 6 |}].
Definition payee : MppAdapter :=
  {| md_assets := assets;
     md_payee := Some {| mp_realm := "api.example"; mp_challenge_secret := "0123456789abcdef0123456789abcdef" |};
     md_timeout_seconds := 600 |}.
Definition client : MppAdapter := {| md_assets := assets; md_payee := None; md_timeout_seconds := 600 |}.
Example payee_built : new_payee assets "api.example" "0123456789abcdef0123456789abcdef" 600 = Ok payee.
Proof. vm_compute. reflexivity. Qed.
Example client_built : new_payer assets 600 = Ok client.
Proof. vm_compute. reflexivity. Qed.

Notation wire := (jobject [("www_authenticate", JString header)]).
Definition challenge : PaymentChallenge :=
  issued_challenge price recipient tt header (JString "charge-1") 1700000600.
Lemma issued : mpp_build_challenge payee "issue-1" price recipient 1700000000 = Ok challenge.
Proof. vm_compute. reflexivity. Qed.
Definition offer : PaymentChallenge :=
  match mpp_parse_challenge client "scenario-2" (ch_resource challenge) wire 1700000010 None with Ok c => c | Err _ => challenge end.
Lemma parsed : mpp_parse_challenge client "scenario-2" (ch_resource challenge) wire 1700000010 None = Ok offer.
Proof. vm_compute. reflexivity. Qed.
Definition signing : ProtocolSigningRequest :=
  match mpp_prepare_signing client offer payer 1700000020 with Ok r => r | Err _ => {| pr_digest := ""; pr_payload := JNull |} end.
Lemma prepared : mpp_prepare_signing client offer payer 1700000020 = Ok signing.
Proof. vm_compute. reflexivity. Qed.
Definition signature : string := SampleX402.first_bytes 65 "".
Definition low_s : TempoSignature := tt.
Definition paid : PaymentCredential :=
  match mpp_complete_signing client offer signing signature with
  | Ok c => c
  | Err _ => {| cr_protocol := ""; cr_challenge_hash := ""; cr_credential_hash := ""; cr_payload := JNull |}
  end.
Lemma completed : mpp_complete_signing client offer signing signature = Ok paid.
Proof. vm_compute. reflexivity. Qed.

Lemma mpp_challenge_understood_witness :
  exists c', mpp_parse_challenge client "scenario-2" (ch_resource challenge) wire 1700000010 None = Ok c'
    /\ same_terms challenge c'.
Proof.
  destruct (mpp_challenge_understood payee client "issue-1" price recipient 1700000000 challenge "scenario-2" 1700000010
              issued eq_refl ltac:(cbn; lia) ltac:(cbn; lia))
    as (_ & p & g & h & w & c' & _ & _ & _ & Hh & Hw & Hc & Hs & _).
  injection Hh as <-. vm_compute in Hw. injection Hw as <-. exists c'. split; [exact Hc|exact Hs].
Defined.

Lemma mpp_completed_pays_witness :
  exists p, tempo_payload_from_value (pr_payload signing) = Some p /\ pays_challenge offer (ts_transaction p).
Proof.
  destruct (mpp_completed_pays client offer signing signature paid completed) as (g & p & s & from & _ & Hp & Hpay & _).
  exists p. split; [exact Hp|exact Hpay].
Defined.

Lemma mpp_payment_accepted_witness :
  exists credential, mpp_complete_signing client offer signing signature = Ok credential
    /\ mpp_verify_credential payee challenge credential 1700000030
       = Ok {| pv_payer := Some payer; pv_requires_external_settlement := true |}.
Proof.
  destruct (mpp_payment_accepted payee client "issue-1" price recipient 1700000000 challenge header "scenario-2" 1700000010
              None offer payer payer 1700000020 signing signature low_s payer 1700000030 issued eq_refl parsed prepared
              ltac:(vm_compute; reflexivity) ltac:(vm_compute; reflexivity) ltac:(vm_compute; reflexivity) eq_refl eq_refl
              eq_refl ltac:(cbn; lia)) as (credential & Hc & Hv & _).
  exists credential. split; [exact Hc|exact Hv].
Defined.
End SampleMpp.
