(* ===== verification/WalletKeys.v ===== *)
(** * Wallet custody

    [WalletKeyRepository] of [src/src/storage/wallet/key.rs] with
    [src/src/utils/crypto.rs]: private keys leave memory only as envelopes,
    wrapped under a data key that is itself wrapped under a versioned KEK, and
    are opened only to sign for an authorized intent.

    The signing keys of [k256] and [solana-keypair] are the classes
    [SecpKeys] and [SolanaKeys]; the cipher, the nonces and the digests are
    those of [Sealing] and [X402Sdk].  What a secret source answers and what
    the operating system draws are arguments. *)

From S2P Require Import Prelude Text Money Json Wallet Intent Policy Ledger Records Store Budget Program Authorizer Sealing GrantTokens SigningService X402Sdk WalletStore.

#[local] Open Scope string_scope.
#[local] Open Scope vault_scope.

(** ** Signing keys *)

Class SecpKeys : Type := {
  (** [SigningKey::from_slice]: the error text, if any *)
  secp_from_slice : string -> Result string unit;
  (** [verifying_key().to_encoded_point(false)] of an accepted key *)
  secp_public_point : string -> string;
  (** [sign_prehash_recoverable]: the 64 bytes and the recovery identity *)
  sign_prehash_recoverable : string -> string -> Result string (string * N)
}.

Class SolanaKeys : Type := {
  (** [Keypair::new_from_array(seed).pubkey().to_string()] *)
  keypair_pubkey : string -> string;
  (** [Keypair::new_from_array(seed).sign_message(message)] *)
  keypair_sign_message : string -> string -> string
}.

Definition PRIVATE_KEY_BYTES : N := 32.
Definition EIP712_DIGEST_BYTES : N := 32.

Section Crypto.
Context `{SecpKeys, SolanaKeys, EvmCrypto}.

(** [WalletCrypto::validate_private_key] *)
Definition validate_private_key (private_key : string) : Result Error unit :=
  reject_if (str_len private_key != PRIVATE_KEY_BYTES) (InvalidKey "secp256k1 private key must be 32 bytes") ;?
  map_err InvalidKey (secp_from_slice private_key).

(** [WalletCrypto::signing_key] *)
Definition signing_key (private_key : string) : Result Error unit :=
  validate_private_key private_key ;?
  map_err InvalidKey (secp_from_slice private_key).

(** [WalletCrypto::address_from_verifying_key] *)
Definition address_from_point (point : string) : string :=
  let hash := keccak256 (String.substring 1 (String.length point - 1) point) in
  "0x" ++ hex_encode (String.substring 12 (String.length hash - 12) hash).

(** [WalletCrypto::address] and [WalletCrypto::public_key] *)
Definition key_address (private_key : string) : Result Error string :=
  signing_key private_key ;? Ok (address_from_point (secp_public_point private_key)).
Definition key_public_key (private_key : string) : Result Error string :=
  signing_key private_key ;? Ok ("0x" ++ hex_encode (secp_public_point private_key)).

(** [WalletCrypto::solana_keypair] *)
Definition solana_keypair (private_key : string) : Result Error string :=
  reject_if (str_len private_key != PRIVATE_KEY_BYTES) (InvalidKey "ed25519 private key seed must be 32 bytes") ;?
  Ok private_key.

(** [WalletCrypto::validate_private_key_for_algorithm] *)
Definition validate_private_key_for_algorithm (algorithm private_key : string) : Result Error unit :=
  if is_evm_wallet_algorithm algorithm then validate_private_key private_key
  else if is_solana_wallet_algorithm algorithm then solana_keypair private_key ;? Ok tt
  else Err (InvalidKey "unsupported local wallet algorithm").

(** [WalletCrypto::payment_key_metadata]: the address and the public key *)
Definition payment_key_metadata (algorithm private_key : string) : Result Error (string * string) :=
  if is_evm_wallet_algorithm algorithm then
    let? address := key_address private_key in
    let? public := key_public_key private_key in
    Ok (address, public)
  else if is_solana_wallet_algorithm algorithm then
    let? seed := solana_keypair private_key in
    Ok (keypair_pubkey seed, keypair_pubkey seed)
  else Err (InvalidKey "unsupported local wallet algorithm").

(** [WalletCrypto::sign_eip712_digest]: the signature and [27] plus the
    recovery identity *)
Definition sign_eip712_digest (private_key digest : string) : Result Error string :=
  reject_if (str_len digest != EIP712_DIGEST_BYTES) (InvalidRequest "EIP-712 digest must be 32 bytes") ;?
  signing_key private_key ;?
  let? signed := map_err Crypto (sign_prehash_recoverable private_key digest) in
  Ok (fst signed ++ String (ascii_of_N (snd signed + 27)) "").

(** [WalletCrypto::sign_solana_message] *)
Definition sign_solana_message (private_key message : string) : Result Error string :=
  reject_if (is_empty message) (InvalidRequest "Solana signing message is empty") ;?
  let? seed := solana_keypair private_key in
  Ok (keypair_sign_message seed message).
End Crypto.

(** ** The KEK ring *)

Definition KEY_BYTES : N := 32.
Definition MAX_ENCODED_KEK_BYTES : N := 256.

Record SecretRefConfig : Type := { srf_file : string; srf_env : string }.
(** The entries are in key order, as a [BTreeMap] iterates. *)
Record WalletKeyRingConfig : Type := {
  wkc_active_key_id : string;
  wkc_keys : list (string * SecretRefConfig)
}.

Record WalletKeyRing : Type := {
  wkr_active_kek_id : string;
  wkr_keks : gmap string string
}.

(** One iteration of [WalletKeyRepository::from_config]; [read_env] is
    [SecretReader::read_env_value]. *)
Definition resolve_kek `{Base64Url} (read_env : string -> string -> N -> Result Error string)
    (ring : gmap string string) (entry : string * SecretRefConfig) : Result Error (gmap string string) :=
  let key_id := fst entry in
  let reference := snd entry in
  reject_if (blank key_id || negb (is_empty (srf_file reference)) || blank (srf_env reference))
            (Config "wallet KEKs must use named environment references") ;?
  let? encoded := read_env (trim (srf_env reference)) ("wallet KEK " ++ key_id) MAX_ENCODED_KEK_BYTES in
  reject_if (MAX_ENCODED_KEK_BYTES <? str_len encoded)%N (Config ("wallet KEK " ++ key_id ++ " is too large")) ;?
  let? decoded := ok_or (b64_decode encoded) (Config ("wallet KEK " ++ key_id ++ " is not valid base64")) in
  reject_if (str_len decoded != KEY_BYTES) (Config ("wallet KEK " ++ key_id ++ " must contain 32 bytes")) ;?
  reject_if (is_some (ring !! key_id)) (Config ("duplicate wallet KEK id " ++ key_id)) ;?
  Ok (<[key_id := decoded]> ring).

(** [WalletKeyRepository::from_config] *)
Definition from_config `{Base64Url} (read_env : string -> string -> N -> Result Error string)
    (config : WalletKeyRingConfig) : Result Error WalletKeyRing :=
  reject_if (bool_decide (wkc_keys config = [])
             || negb (existsb (fun e => fst e == wkc_active_key_id config) (wkc_keys config)))
            (Config "wallet KEK active version is unavailable") ;?
  let? ring := rfold (resolve_kek read_env) ∅ (wkc_keys config) in
  Ok {| wkr_active_kek_id := wkc_active_key_id config; wkr_keks := ring |}.

(** ** Associated data *)

Definition WALLET_AAD_DOMAIN : string := "agentvault.wallet-key.v2".

(** [key_aad]: each field after its length, [u64] big-endian *)
Definition key_aad (w : Wallet) (version : N) (kek_id : string) : string :=
  WALLET_AAD_DOMAIN
  ++ frame [w_id w; be_bytes 4 version ""; w_algorithm w; w_address w; w_public_key w; kek_id].

Definition wrapping_aad (aad kek_id : string) : string := "agentvault.wrap.v1" ++ aad ++ kek_id.

(** [constant_time_eq], with the fold of its namesake in [GrantTokens] *)
Definition key_constant_time_eq (l r : string) : bool :=
  if negb (String.length l =? String.length r)%nat then false else (fold_difference 0 l r =? 0)%N.

(** [validate_wallet_id] *)
Definition validate_wallet_id (wallet_id : string) : Result Error unit :=
  reject_if (blank wallet_id || (256 <? str_len wallet_id)%N || has_control wallet_id)
            (InvalidRequest "wallet id is invalid").

(** ** Envelopes *)

(** What one encryption draws. *)
Record EnvelopeDraws : Type := {
  ed_wrap_nonce : string;
  ed_key_nonce : string;
  ed_data_key : string
}.

(** [Aes256GcmUuidNonce::new_from_slice] *)
Definition cipher_key (bytes : string) (e : Error) : Result Error string :=
  reject_if (str_len bytes != KEY_BYTES) e ;? Ok bytes.

Section Custody.
Context `{SecpKeys, SolanaKeys, EvmCrypto, Aead, UuidNonce, SolanaPubkey}.

(** [wallet_from_private_key] *)
Definition wallet_from_private_key (wallet_id algorithm private_key : string) (created_at : Z) : Result Error Wallet :=
  validate_private_key_for_algorithm algorithm private_key ;?
  let? metadata := payment_key_metadata algorithm private_key in
  Ok {| w_id := wallet_id; w_algorithm := algorithm; w_address := fst metadata; w_public_key := snd metadata;
        w_created_at := created_at |}.

(** [verify_private_key_matches_wallet] *)
Definition verify_private_key_matches_wallet (w : Wallet) (private_key : string) : Result Error unit :=
  validate_private_key_for_algorithm (w_algorithm w) private_key ;?
  let? metadata := payment_key_metadata (w_algorithm w) private_key in
  reject_if ((fst metadata != w_address w) || (snd metadata != w_public_key w))
            (InvalidKey "private key does not match wallet public metadata").

(** [encrypt_version] *)
Definition encrypt_version (ring : WalletKeyRing) (draws : EnvelopeDraws) (w : Wallet) (private_key : string)
    (version : N) (activated_at : Z) : Result Error EncryptedWalletKeyVersion :=
  let kek_id := wkr_active_kek_id ring in
  reject_if ((version =? 0)%N || (activated_at <? 0)%Z) (InvalidKey "wallet key version metadata is invalid") ;?
  verify_private_key_matches_wallet w private_key ;?
  let aad := key_aad w version kek_id in
  let? kek := ok_or (wkr_keks ring !! kek_id) (Crypto "active wallet KEK is unavailable") in
  let? kek_cipher := cipher_key kek (Crypto "wallet KEK length is invalid") in
  let? wrapped := ok_or (aead_encrypt kek_cipher (ed_wrap_nonce draws) (wrapping_aad aad kek_id) (ed_data_key draws))
                        (Crypto "wallet data-key wrapping failed") in
  let? data_cipher := cipher_key (ed_data_key draws) (Crypto "wallet data-key length is invalid") in
  let? ciphertext := ok_or (aead_encrypt data_cipher (ed_key_nonce draws) aad private_key)
                           (Crypto "wallet private-key encryption failed") in
  Ok {| k_wallet_id := w_id w; k_version := version; k_algorithm := w_algorithm w; k_address := w_address w;
        k_public_key := w_public_key w; k_encryption_scheme := WALLET_KEY_ENCRYPTION_SCHEME; k_kek_id := kek_id;
        k_wrapped_data_key := wrapped; k_wrap_nonce := ed_wrap_nonce draws; k_key_ciphertext := ciphertext;
        k_key_nonce := ed_key_nonce draws; k_aad := aad; k_status := KeyActive; k_activated_at := activated_at;
        k_retired_at := None; k_created_at := activated_at |}.

(** The public identity an envelope names. *)
Definition envelope_wallet (k : EncryptedWalletKeyVersion) : Wallet :=
  {| w_id := k_wallet_id k; w_algorithm := k_algorithm k; w_address := k_address k; w_public_key := k_public_key k;
     w_created_at := 0 |}.

(** [decrypt_version] *)
Definition decrypt_version (ring : WalletKeyRing) (k : EncryptedWalletKeyVersion) : Result Error string :=
  reject_if ((k_encryption_scheme k != WALLET_KEY_ENCRYPTION_SCHEME) || (k_status k != KeyActive))
            (Crypto "wallet key envelope is not an active supported version") ;?
  let w := envelope_wallet k in
  reject_if (negb (key_constant_time_eq (key_aad w (k_version k) (k_kek_id k)) (k_aad k)))
            (Crypto "wallet key envelope metadata authentication failed") ;?
  let? wrap_nonce := map_err (fun _ => Crypto "wallet key wrapping nonce is invalid") (nonce_parse (k_wrap_nonce k)) in
  let? key_nonce := map_err (fun _ => Crypto "wallet key nonce is invalid") (nonce_parse (k_key_nonce k)) in
  let? kek := ok_or (wkr_keks ring !! k_kek_id k) (Crypto "wallet KEK version is unavailable") in
  let? kek_cipher := cipher_key kek (Crypto "wallet KEK length is invalid") in
  let? data_key := ok_or (aead_decrypt kek_cipher wrap_nonce (wrapping_aad (k_aad k) (k_kek_id k)) (k_wrapped_data_key k))
                         (Crypto "wallet data-key authentication failed") in
  reject_if (str_len data_key != KEY_BYTES) (Crypto "wallet data key has an invalid length") ;?
  let? data_cipher := cipher_key data_key (Crypto "wallet data-key length is invalid") in
  let? plaintext := ok_or (aead_decrypt data_cipher key_nonce (k_aad k) (k_key_ciphertext k))
                          (Crypto "wallet private-key authentication failed") in
  verify_private_key_matches_wallet w plaintext ;?
  Ok plaintext.

(** ** [WalletPaymentSigner] *)

(** [sign_payment], with the digest of the protocol's request *)
Definition sign_payment (ring : WalletKeyRing) (r : IntentBoundPaymentSignatureRequest)
  : Result Error WalletPaymentSignature :=
  let i := sr_intent r in
  let w := sr_wallet r in
  let k := sr_active_key r in
  let? intent_wallet_id := ok_or (pi_wallet_id i) (InvalidRequest "payment intent has no wallet binding") in
  reject_if ((intent_wallet_id != w_id (pw_wallet w)) || (k_wallet_id k != w_id (pw_wallet w))
             || (pw_active_key_version w != Some (k_version k)) || (k_status k != KeyActive)
             || negb (signing_ready_for_payment_network w (as_network (pi_asset i)))
             || (pi_challenge_hash i != Some (ch_challenge_hash (sr_challenge r))))
            (PaymentConflict "intent-bound signer received inconsistent wallet authority") ;?
  let? private_key := decrypt_version ring k in
  let algorithm := w_algorithm (pw_wallet w) in
  let digest := pr_digest (sr_protocol_request r) in
  let? bytes :=
    if is_evm_wallet_algorithm algorithm then sign_eip712_digest private_key digest
    else if is_solana_wallet_algorithm algorithm then sign_solana_message private_key digest
    else Err (InvalidKey "unsupported payment wallet algorithm") in
  Ok {| ws_wallet_id := w_id (pw_wallet w); ws_key_version := k_version k;
        ws_signer_address := w_address (pw_wallet w); ws_bytes := bytes |}.

(** ** [WalletKeyManager] *)

(** [create_local_configured_for_algorithm] *)
Definition create_wallet (ring : WalletKeyRing) (draws : EnvelopeDraws) (wallet_id algorithm private_key : string)
    (config : WalletCreationConfig) (created_at : Z) : Prog DB Wallet :=
  glift (validate_wallet_id wallet_id) ;&
  let& wallet := glift (wallet_from_private_key wallet_id algorithm private_key created_at) in
  let& encrypted := glift (encrypt_version ring draws wallet private_key 1 created_at) in
  await (create_local_configured wallet encrypted config).

(** [WalletKeyRepository::rotate] *)
Definition rotate_wallet (ring : WalletKeyRing) (draws : EnvelopeDraws) (wallet_id private_key : string)
    (activated_at : Z) : Prog DB Wallet :=
  let& found := await (load_payment_wallet wallet_id) in
  let& current := glift (ok_or found (NotFound ("payment wallet " ++ wallet_id))) in
  let& current_version := glift (ok_or (pw_active_key_version current)
                                       (InvalidTransition "wallet has no active key to rotate")) in
  let& next_version := glift (ok_or (u32_checked_add current_version 1)
                                    (InvalidTransition "wallet key version overflow")) in
  let& wallet := glift (wallet_from_private_key wallet_id (w_algorithm (pw_wallet current)) private_key
                                                (w_created_at (pw_wallet current))) in
  let& encrypted := glift (encrypt_version ring draws wallet private_key next_version activated_at) in
  await (rotate wallet encrypted activated_at).
End Custody.
