(* ===== verification/CustodySafety.v ===== *)
(** * Custody safety

    What [WalletKeys] guarantees: an envelope opens, under every key ring
    that kept its KEK, to exactly the private key it was made from; the
    associated data bind it to one wallet identity and version; the signer
    signs as the wallet of the intent; and a payment it signs is accepted by
    the payee's x402 adapter. *)

From S2P Require Import Prelude Text Money Json Wallet Intent Policy Ledger Records Store Budget PaymentStore Program Authorizer IntentFlow System Sealing GrantTokens SigningService CanonicalJson X402Sdk X402Evm X402Wire X402 X402Safety CatalogTables WalletStore CatalogStore CatalogSafety CatalogRuns WalletKeys.

#[local] Open Scope string_scope.
#[local] Open Scope vault_scope.

(** ** What custody relies on *)

(** A recoverable signature has 64 valid bytes and recovers, with its
    recovery identity, to the public point of the key that made it. *)
Class SecpKeysLaws `{SecpKeys, EvmCrypto} : Prop := {
  sign_recovers : forall key digest bytes id,
    sign_prehash_recoverable key digest = Ok (bytes, id) ->
    String.length bytes = 64 /\ ecdsa_signature_valid bytes = true /\ (id <= 3)%N
    /\ recover_from_prehash digest bytes id = Some (secp_public_point key)
}.

(** ** Associated data *)

(** The identity an envelope is bound to. *)
Definition envelope_fields (w : Wallet) (kek_id : string) : list string :=
  [w_id w; w_algorithm w; w_address w; w_public_key w; kek_id].

Lemma be_bytes_length n x acc : String.length (be_bytes n x acc) = (n + String.length acc)%nat.
Proof. revert x acc. induction n as [|n IH]; intros x acc; cbn [be_bytes]; [done|]. rewrite IH. simpl. lia. Qed.

Lemma be_bytes_4_inj x y : (x <= U32_MAX)%N -> (y <= U32_MAX)%N -> be_bytes 4 x "" = be_bytes 4 y "" -> x = y.
Proof.
  intros Hx Hy Heq. apply (f_equal (be_read 4)) in Heq. rewrite !be_read_be_bytes in Heq. injection Heq as Heq.
  rewrite !N.mod_small in Heq by (unfold U32_MAX in *; simpl; lia). done.
Qed.

Lemma key_aad_inj w w' v v' kek kek' :
  Forall fits (envelope_fields w kek) -> Forall fits (envelope_fields w' kek') ->
  (v <= U32_MAX)%N -> (v' <= U32_MAX)%N -> key_aad w v kek = key_aad w' v' kek' ->
  envelope_fields w kek = envelope_fields w' kek' /\ v = v'.
Proof.
  unfold key_aad, envelope_fields. intros Hf Hf' Hv Hv' Heq. apply string_app_inj in Heq as [_ Heq]; [|done].
  assert (forall x, fits (be_bytes 4 x "")) as Hbe.
  { intros x. unfold fits, str_len. rewrite be_bytes_length. done. }
  rewrite !list.Forall_cons in Hf, Hf'. destruct Hf as (F1 & F2 & F3 & F4 & F5 & _), Hf' as (G1 & G2 & G3 & G4 & G5 & _).
  apply frame_inj in Heq; [|by repeat (constructor; [done|])..].
  remember (be_bytes 4 v "") as b eqn:Eb. remember (be_bytes 4 v' "") as b' eqn:Eb'.
  injection Heq as -> Hb -> -> -> ->. split; [done|]. apply be_bytes_4_inj; congruence.
Qed.

(** ** Envelopes *)

Lemma cipher_key_ok bytes e x : cipher_key bytes e = Ok x <-> x = bytes /\ str_len bytes = KEY_BYTES.
Proof.
  unfold cipher_key. rewrite rbind_ok. split.
  - intros (? & Hr & [= <-]). rewrite reject_if_ok in Hr. by bool_inv.
  - intros [-> Hl]. exists tt. rewrite reject_if_ok, bool_decide_true by done. done.
Qed.

Section Envelopes.
Context `{SecpKeys, SolanaKeys, EvmCrypto, Aead, UuidNonce, SolanaPubkey}.

Lemma verify_matches_ok w key u :
  verify_private_key_matches_wallet w key = Ok u ->
  validate_private_key_for_algorithm (w_algorithm w) key = Ok tt
  /\ payment_key_metadata (w_algorithm w) key = Ok (w_address w, w_public_key w).
Proof.
  unfold verify_private_key_matches_wallet. intros Hv. run_inv. bool_inv.
  repeat match goal with Hu : () |- _ => destruct Hu end.
  match goal with Hm : payment_key_metadata _ _ = Ok ?m |- _ => destruct m; simpl in * end. split; congruence.
Qed.

Record envelope_opened (ring : WalletKeyRing) (k : EncryptedWalletKeyVersion) (key : string) : Prop := {
  eo_status : k_status k = KeyActive;
  eo_aad : k_aad k = key_aad (envelope_wallet k) (k_version k) (k_kek_id k);
  eo_metadata : payment_key_metadata (k_algorithm k) key = Ok (k_address k, k_public_key k)
}.

Lemma decrypt_version_opened ring k key : decrypt_version ring k = Ok key -> envelope_opened ring k key.
Proof.
  unfold decrypt_version. intros Hd. run_inv. bool_inv.
  match goal with Hv : verify_private_key_matches_wallet _ _ = Ok _ |- _ => apply verify_matches_ok in Hv as [_ Hv] end.
  match goal with Hc : key_constant_time_eq _ _ = true |- _ => apply constant_time_eq_iff in Hc end. by split.
Qed.

Lemma nonce_parse_fresh nonce : fresh_nonce nonce -> nonce_parse nonce = Ok nonce.
Proof. intros [Hl Hv]. unfold nonce_parse. by rewrite Hl, Hv. Qed.

Context `{!AeadLaws}.

Lemma decrypt_encrypted ring ring' draws w key v at_ k :
  encrypt_version ring draws w key v at_ = Ok k -> wkr_keks ring ⊆ wkr_keks ring' ->
  fresh_nonce (ed_wrap_nonce draws) -> fresh_nonce (ed_key_nonce draws) ->
  forall t, decrypt_version ring' (with_key_status KeyActive t k) = Ok key.
Proof.
  unfold encrypt_version. cbv zeta. intros He Hsub Hw Hk t. run_inv.
  repeat match goal with Hc : cipher_key _ _ = Ok _ |- _ => apply cipher_key_ok in Hc as [-> ?] end.
  unfold decrypt_version. cbn -[key_constant_time_eq verify_private_key_matches_wallet key_aad nonce_parse].
  rewrite !bool_decide_true by done. cbn [negb orb reject_if rbind].
  match goal with |- context [key_constant_time_eq ?a ?b] =>
    assert (key_constant_time_eq a b = true) as -> by (by apply constant_time_eq_iff) end.
  cbn [negb reject_if rbind]. rewrite !nonce_parse_fresh by done. cbn [map_err rbind].
  match goal with Hk : wkr_keks ring !! _ = Some _ |- _ => rewrite (lookup_weaken _ _ _ _ Hk Hsub) end. cbn [ok_or rbind].
  match goal with Hl : str_len ?x = KEY_BYTES |- context [cipher_key ?x ?e] =>
    rewrite (proj2 (cipher_key_ok x e x) (conj eq_refl Hl)) end. cbn [rbind].
  match goal with He : aead_encrypt _ _ _ (ed_data_key draws) = Some _ |- _ => apply aead_decrypt_iff in He; rewrite He end.
  cbn [ok_or rbind]. rewrite bool_decide_true by done. cbn [negb reject_if rbind].
  match goal with Hl : str_len ?x = KEY_BYTES |- context [cipher_key ?x ?e] =>
    rewrite (proj2 (cipher_key_ok x e x) (conj eq_refl Hl)) end. cbn [rbind].
  match goal with He : aead_encrypt _ _ _ key = Some _ |- _ => apply aead_decrypt_iff in He; rewrite He end. cbn [ok_or rbind].
  match goal with Hm : verify_private_key_matches_wallet w key = Ok _ |- context [verify_private_key_matches_wallet ?x key] =>
    change (verify_private_key_matches_wallet x key) with (verify_private_key_matches_wallet w key); by rewrite Hm end.
Qed.

Lemma decrypt_inactive ring k :
  k_status k <> KeyActive ->
  decrypt_version ring k = Err (Crypto "wallet key envelope is not an active supported version").
Proof. intros Hk. unfold decrypt_version. rewrite (bool_decide_false _ Hk). simpl. by rewrite orb_true_r. Qed.

(** An envelope in the store opens for as long as its version is active, and
    never again afterwards. *)
Definition opens_while_active (ring : WalletKeyRing) (id : string * N) (key : string) (d : DB) : Prop :=
  exists k, t_key d !! id = Some k
    /\ (k_status k = KeyActive -> decrypt_version ring k = Ok key)
    /\ (k_status k <> KeyActive ->
        decrypt_version ring k = Err (Crypto "wallet key envelope is not an active supported version")).

Context `{UrlParser}.

Lemma stored_key_opens ring ring' draws w key v at_ k d d' id :
  encrypt_version ring draws w key v at_ = Ok k -> wkr_keks ring ⊆ wkr_keks ring' ->
  fresh_nonce (ed_wrap_nonce draws) -> fresh_nonce (ed_key_nonce draws) ->
  t_key d !! id = Some k -> rtc mstep d d' -> opens_while_active ring' id key d'.
Proof.
  intros He Hsub Hw Hn Hk Hrun. destruct (keys_evolve_run _ _ Hrun _ _ Hk) as (k' & Hk' & [Hm _ _]).
  exists k'. split_and!; [done| |apply decrypt_inactive]. intros Ha. rewrite Ha in Hm. rewrite Hm.
  by eapply decrypt_encrypted.
Qed.

(** One transaction stored a new key version of the wallet, encrypted under
    the ring. *)
Record installed (ring : WalletKeyRing) (draws : EnvelopeDraws) (wid key : string) (at_ : Z) (d d' : DB)
    (k : EncryptedWalletKeyVersion) : Prop := {
  in_encrypted : exists w v, encrypt_version ring draws w key v at_ = Ok k;
  in_wallet : k_wallet_id k = wid;
  in_stored : t_key d' !! (wid, k_version k) = Some k;
  in_new : t_key d !! (wid, k_version k) = None;
  in_step : mstep d d'
}.

Lemma encrypt_version_row ring draws w key v at_ k :
  encrypt_version ring draws w key v at_ = Ok k -> k_wallet_id k = w_id w /\ k_version k = v /\ k_status k = KeyActive.
Proof. unfold encrypt_version. cbv zeta. intros He. by run_inv. Qed.
Lemma wallet_from_private_key_id wid alg key at_ w : wallet_from_private_key wid alg key at_ = Ok w -> w_id w = wid.
Proof. unfold wallet_from_private_key. intros Hw. by run_inv. Qed.

Lemma create_wallet_installs ring draws wid alg key config at_ d w d' :
  run_alone (create_wallet ring draws wid alg key config at_) d = (Ok w, d') ->
  exists k, installed ring draws wid key at_ d d' k.
Proof.
  unfold create_wallet. rewrite run_alone_bind_ok. setoid_rewrite run_alone_bind_ok. setoid_rewrite run_alone_bind_ok.
  intros (? & ? & (_ & ->)%run_alone_lift_ok & w0 & ? & (Hw & ->)%run_alone_lift_ok
          & k & ? & (He & ->)%run_alone_lift_ok & Hc%run_alone_await_ok).
  exists k. destruct (encrypt_version_row _ _ _ _ _ _ _ He) as (Hid & _ & _).
  rewrite (wallet_from_private_key_id _ _ _ _ _ Hw) in Hid.
  assert (mstep d d') as Hst by (apply (mstep_catalog (CatCreateLocal w0 k config)); simpl; unfold tbind; by rewrite Hc).
  unfold create_local_configured, insert_wallet in Hc. catalog_inv.
  match goal with Hi : insert_key k _ = _ |- _ => apply insert_key_ok in Hi as (? & _ & _ & _ & Hnew & _ & _ & ->) end.
  split; [eauto|done|apply lookup_insert_eq|done|done].
Qed.

Lemma rotate_wallet_installs ring draws wid key at_ d w d' :
  catalog_ok d -> run_alone (rotate_wallet ring draws wid key at_) d = (Ok w, d') ->
  exists k, installed ring draws wid key at_ d d' k.
Proof.
  intros Hco. unfold rotate_wallet. do 6 setoid_rewrite run_alone_bind_ok.
  intros (found & d1 & Hl%run_alone_await_ok & current & ? & (_ & ->)%run_alone_lift_ok
          & cv & ? & (_ & ->)%run_alone_lift_ok & v & ? & (_ & ->)%run_alone_lift_ok
          & w0 & ? & (Hw & ->)%run_alone_lift_ok & k & ? & (He & ->)%run_alone_lift_ok & Hr%run_alone_await_ok).
  assert (d1 = d) as -> by (unfold load_payment_wallet in Hl; run_inv; case_match; by run_inv).
  exists k. destruct (encrypt_version_row _ _ _ _ _ _ _ He) as (Hid & _ & _).
  rewrite (wallet_from_private_key_id _ _ _ _ _ Hw) in Hid.
  assert (mstep d d') as Hst by (apply (mstep_catalog (CatRotate w0 k at_)); simpl; unfold tbind; by rewrite Hr).
  destruct (rotate_ok _ _ _ _ _ _ Hco Hr) as (row & old & Hins%ro_insert).
  apply insert_key_ok in Hins as (? & _ & _ & _ & Hnew & _ & _ & ->). simpl in Hnew. apply lookup_insert_None in Hnew as [Hnew _].
  split; [eauto|done|rewrite <- Hid; apply lookup_insert_eq|by rewrite <- Hid|done].
Qed.

(** The installed version is the active one, and the version that was active
    before it is not any more, in that database and in every later one. *)
Lemma installed_active ring draws wid key at_ d d' k :
  installed ring draws wid key at_ d d' k -> catalog_ok d' -> active_key d' wid = Some k.
Proof.
  intros [(w & v & He) Hid Hk _ _] Hco. rewrite <- Hid. eapply active_key_unique; [done..|].
  by destruct (encrypt_version_row _ _ _ _ _ _ _ He) as (_ & _ & ?).
Qed.

Lemma installed_supersedes ring draws wid key at_ d d' d'' k old :
  installed ring draws wid key at_ d d' k -> catalog_ok d -> catalog_ok d' -> rtc mstep d' d'' ->
  active_key d wid = Some old ->
  exists old', t_key d'' !! (wid, k_version old) = Some old' /\ k_status old' <> KeyActive.
Proof.
  intros Hin Hco Hco' Hrun Ha. pose proof (installed_active _ _ _ _ _ _ _ _ Hin Hco') as Hk. destruct Hin as [_ _ Hst Hnew Hstep].
  destruct (active_key_Some _ _ _ Ha) as (j & Hj & Hw & _).
  pose proof (keyed_row key_table _ _ _ (co_keys _ Hco) Hj) as Hjk. simpl in Hjk. subst j. rewrite Hw in Hj.
  destruct (keys_evolve_run _ _ (rtc_once _ _ Hstep) _ _ Hj) as (x & Hx & [Hm _ _]).
  destruct (keys_evolve_run _ _ Hrun _ _ Hx) as (old' & Ho & [_ _ Hr]). exists old'. split; [done|].
  apply Hr. intros Hact. pose proof (active_key_unique _ _ _ Hco' Hx Hact) as Hu.
  replace (k_wallet_id x) with wid in Hu by (rewrite Hm; simpl; done). rewrite Hk in Hu. injection Hu as ->.
  replace (k_version x) with (k_version old) in Hnew by (rewrite Hm; simpl; done). congruence.
Qed.

(** C24: a private key is never lost and never leaks back.  When a wallet is
    created with a private key or rotated to it, the version stored for it is
    the wallet's active key, and every key ring that holds the KEKs opens it at
    once to exactly that private key.  Whatever administration and payments
    follow, the envelope stays in the store, opens to that key for as long as
    the version is active, and is refused once it has been retired or
    compromised.  The version that was active before the rotation is another
    one, and is refused from then on by every key ring. *)
Theorem custody_key_kept ring ring' draws wid key at_ d w d' d'' :
  managed d ->
  (exists algorithm config, run_alone (create_wallet ring draws wid algorithm key config at_) d = (Ok w, d'))
  \/ run_alone (rotate_wallet ring draws wid key at_) d = (Ok w, d') ->
  fresh_nonce (ed_wrap_nonce draws) -> fresh_nonce (ed_key_nonce draws) ->
  wkr_keks ring ⊆ wkr_keks ring' -> rtc mstep d' d'' ->
  exists k,
    active_key d' wid = Some k /\ decrypt_version ring' k = Ok key
    /\ opens_while_active ring' (wid, k_version k) key d''
    /\ forall old, active_key d wid = Some old ->
         k_version old <> k_version k
         /\ exists old', t_key d'' !! (wid, k_version old) = Some old'
             /\ forall any, decrypt_version any old' = Err (Crypto "wallet key envelope is not an active supported version").
Proof.
  intros Hm Hrun Hw Hn Hsub Hlater. pose proof (managed_ok _ Hm) as [Hdb Hco].
  assert (exists k, installed ring draws wid key at_ d d' k) as (k & Hin).
  { destruct Hrun as [(alg & config & Hc)|Hr]; [by eapply create_wallet_installs|by eapply rotate_wallet_installs]. }
  destruct (mstep_ok _ _ (in_step _ _ _ _ _ _ _ _ Hin) Hdb Hco) as [_ Hco'].
  destruct (in_encrypted _ _ _ _ _ _ _ _ Hin) as (w0 & v & He). exists k. split_and!.
  - by eapply installed_active.
  - destruct (stored_key_opens _ _ _ _ _ _ _ _ _ d' _ He Hsub Hw Hn (in_stored _ _ _ _ _ _ _ _ Hin) (rtc_refl _ _))
      as (k' & Hk' & Hopen & _). rewrite (in_stored _ _ _ _ _ _ _ _ Hin) in Hk'. injection Hk' as <-.
    by apply Hopen, (encrypt_version_row _ _ _ _ _ _ _ He).
  - eapply stored_key_opens; [done..| |done]. apply Hin.
  - intros old Hold. destruct (installed_supersedes _ _ _ _ _ _ _ _ _ _ Hin Hco Hco' Hlater Hold) as (old' & Ho & Hina).
    split; [|exists old'; split; [done|]; intros any; by apply decrypt_inactive].
    destruct (active_key_Some _ _ _ Hold) as (j & Hj & Hwid & _).
    pose proof (keyed_row key_table _ _ _ (co_keys _ Hco) Hj) as Hjk. simpl in Hjk. intros Hv.
    pose proof (in_new _ _ _ _ _ _ _ _ Hin) as Hnew. rewrite <- Hv, <- Hwid, Hjk in Hnew. congruence.
Qed.

(** What opening an envelope authenticated. *)
Lemma decrypt_version_authentic ring k key :
  decrypt_version ring k = Ok key ->
  exists data_key, aead_encrypt data_key (k_key_nonce k) (k_aad k) key = Some (k_key_ciphertext k).
Proof.
  unfold decrypt_version. intros Hd. run_inv. unfold nonce_parse in *. run_inv.
  repeat match goal with Hc : cipher_key _ _ = Ok _ |- _ => apply cipher_key_ok in Hc as [-> ?] end.
  match goal with Hd : aead_decrypt ?x _ _ _ = Some key |- _ => exists x; by apply aead_decrypt_iff end.
Qed.

(** C25: an envelope opens for one identity only.  If the ciphertext and nonce
    of one version are moved to another row and that row opens too, then it is
    the same version of the same wallet, with the same algorithm, address,
    public key and KEK; the only other case is a forgery of the cipher, one
    ciphertext that authenticates two different associated data. *)
Theorem custody_envelope_bound ring1 ring2 k1 k2 key1 key2 :
  decrypt_version ring1 k1 = Ok key1 -> decrypt_version ring2 k2 = Ok key2 ->
  k_key_ciphertext k2 = k_key_ciphertext k1 -> k_key_nonce k2 = k_key_nonce k1 ->
  key_checks k1 = true -> key_checks k2 = true ->
  Forall fits (envelope_fields (envelope_wallet k1) (k_kek_id k1)) ->
  Forall fits (envelope_fields (envelope_wallet k2) (k_kek_id k2)) ->
  (k_wallet_id k1 = k_wallet_id k2 /\ k_version k1 = k_version k2 /\ k_algorithm k1 = k_algorithm k2
   /\ k_address k1 = k_address k2 /\ k_public_key k1 = k_public_key k2 /\ k_kek_id k1 = k_kek_id k2)
  \/ exists data_key1 data_key2,
       k_aad k1 <> k_aad k2
       /\ aead_encrypt data_key1 (k_key_nonce k1) (k_aad k1) key1 = Some (k_key_ciphertext k1)
       /\ aead_encrypt data_key2 (k_key_nonce k1) (k_aad k2) key2 = Some (k_key_ciphertext k1).
Proof.
  intros Hd1 Hd2 Hct Hn Hc1 Hc2 Hf1 Hf2.
  destruct (decrypt_version_authentic _ _ _ Hd1) as (x1 & He1), (decrypt_version_authentic _ _ _ Hd2) as (x2 & He2).
  rewrite Hct, Hn in He2. destruct (decide (k_aad k1 = k_aad k2)) as [Heq|Hne]; [left|right; by exists x1, x2].
  apply decrypt_version_opened in Hd1 as [_ Ha1 _], Hd2 as [_ Ha2 _]. rewrite Ha1, Ha2 in Heq.
  unfold key_checks in Hc1, Hc2. bool_inv.
  destruct (key_aad_inj (envelope_wallet k1) (envelope_wallet k2) (k_version k1) (k_version k2) (k_kek_id k1) (k_kek_id k2))
    as [E ?]; [done..|]. unfold envelope_fields in E. simpl in E. injection E as ? ? ? ? ?. done.
Qed.
End Envelopes.

(** ** Signed payments *)

Section Payments.
Context `{SolanaPubkey, SolanaCrypto, EvmCrypto, X402Sdk, Base64, JsonText, JsonParse, UrlParser, Sha256}.
Context `{SecpKeys, SolanaKeys, Aead, UuidNonce}.
Context `{!X402SdkLaws, !EvmCryptoLaws, !SecpKeysLaws}.

Lemma get_app_r s t n : String.get (String.length s + n) (s ++ t) = String.get n t.
Proof. induction s as [|c s IH]; [done|]. exact IH. Qed.
Lemma substring_app_l s t : String.substring 0 (String.length s) (s ++ t) = s.
Proof. induction s as [|c s IH]; [by destruct t|]. exact (f_equal (String c) IH). Qed.

(** What the signer appends is read back as the recovery identity. *)
Lemma recovery_id_signed id : (id <= 1)%N -> recovery_id (byte_of (ascii_of_N (id + 27))) = Some id.
Proof. intros Hid. assert (id = 0 \/ id = 1)%N as [-> | ->] by lia; reflexivity. Qed.

Lemma sign_eip712_recovers key digest s :
  sign_eip712_digest key digest = Ok s ->
  (forall b, String.get 64 s = Some b -> byte_of b <= 28)%N ->
  str_len s = 65%N /\ recovered_address digest s = Some (address_from_point (secp_public_point key)).
Proof.
  unfold sign_eip712_digest. intros Hs Hb. run_inv.
  match goal with Hm : sign_prehash_recoverable _ _ = Ok ?x |- _ =>
    destruct x as [bytes id]; destruct (sign_recovers _ _ _ _ Hm) as (Hl & Hv & Hid & Hrec) end.
  cbn [fst snd] in *. pose proof (get_app_r bytes (String (ascii_of_N (id + 27)) "") 0) as Hg.
  rewrite Hl in Hg. cbn in Hg. assert (id <= 1)%N as Hid1.
  { specialize (Hb _ Hg). unfold byte_of in Hb. rewrite N_ascii_embedding in Hb by lia. lia. }
  split; [unfold str_len; rewrite string_app_length, Hl; done|].
  unfold recovered_address. pose proof (substring_app_l bytes (String (ascii_of_N (id + 27)) "")) as Hsub.
  rewrite Hl in Hsub. rewrite Hsub, Hv, Hg. cbn [mbind option_bind]. rewrite recovery_id_signed by done. cbn [mbind option_bind].
  by rewrite Hrec.
Qed.

(** What the signer signs with. *)
Lemma sign_payment_evm ring r s :
  sign_payment ring r = Ok s -> is_evm_wallet_algorithm (w_algorithm (pw_wallet (sr_wallet r))) = true ->
  exists key, payment_key_metadata (k_algorithm (sr_active_key r)) key
              = Ok (k_address (sr_active_key r), k_public_key (sr_active_key r))
    /\ sign_eip712_digest key (pr_digest (sr_protocol_request r)) = Ok (ws_bytes s).
Proof.
  unfold sign_payment. cbv zeta. intros Hs Hevm. rewrite Hevm in Hs. run_inv.
  match goal with Hd : decrypt_version _ _ = Ok ?key |- _ => exists key; destruct (decrypt_version_opened _ _ _ Hd) as [_ _ Hm] end.
  by split.
Qed.

Lemma payment_key_metadata_evm algorithm key address public :
  is_evm_wallet_algorithm algorithm = true -> payment_key_metadata algorithm key = Ok (address, public) ->
  address = address_from_point (secp_public_point key).
Proof. unfold payment_key_metadata, key_address. intros -> Hm. by run_inv. Qed.

(** The stored wallet that a payment loads has the address of its active key. *)
Lemma loaded_wallet_address d wid w k :
  catalog_ok d -> load_payment_wallet wid d = Ok (Some w, d) -> active_key d wid = Some k ->
  w_algorithm (pw_wallet w) = k_algorithm k
  /\ canonicalize_wallet_address (k_algorithm k) (k_address k) = Ok (w_address (pw_wallet w)).
Proof.
  intros Hco Hl (j & Hj & Hw & Hact)%active_key_Some. destruct (co_key_owner _ Hco _ _ Hj) as (row & Hrow & _ & Hkey).
  rewrite Hw in Hrow. destruct (Hkey Hact) as (Ha & Had & _).
  unfold load_payment_wallet, tbind, tget, tlift in Hl. rewrite Hrow in Hl. unfold PaymentWallet_canonicalized, Wallet_canonicalized in Hl.
  destruct (canonicalize_wallet_address _ _) as [address|] eqn:Hc in Hl; [|done]. simpl in Hl, Hc.
  destruct (validate_payment_metadata _) in Hl; [|done]. simpl in Hl. injection Hl as <-. simpl. by rewrite Ha, Had.
Qed.

Lemma canonicalize_evm_algorithm algorithm s a :
  is_evm_wallet_algorithm algorithm = true -> canonicalize_wallet_address algorithm s = Ok a ->
  exists e, evm_address_body s = Some e /\ a = evm_canonical e.
Proof.
  unfold canonicalize_wallet_address. intros ->. destruct (evm_address_body s) as [e|]; [|done]. intros [= <-]. eauto.
Qed.

Lemma lower_hexdigits_lower s : bytes_all is_lower_hexdigit s = true -> to_ascii_lowercase s = s.
Proof.
  induction s as [|c s IH]; [done|]. cbn [bytes_all to_ascii_lowercase]. rewrite andb_true_iff. intros [Hc Hs].
  rewrite (IH Hs). f_equal. revert Hc. clear. destruct c as [[] [] [] [] [] [] [] []]; done.
Qed.

(** An address that the key store derives is its own canonical form. *)
Lemma derived_address_canonical point e :
  evm_address_body (address_from_point point) = Some e -> evm_canonical e = address_from_point point.
Proof.
  unfold address_from_point. cbv zeta. set (body := hex_encode _). unfold evm_address_body. rewrite strip_prefix_app.
  destruct (_ && _); [|done]. intros [= <-]. unfold evm_canonical. f_equal. subst body. apply lower_hexdigits_lower, hex_encode_digits.
Qed.

(** C13: what the vault signs, the payee accepts.  In every database that
    administration and payments lead to, take a wallet of an EVM algorithm as a
    payment loads it, with its active key, and an x402 signing request prepared
    for the wallet's address.  Whenever the intent-bound signer returns a
    signature (its recovery identity being one that Ethereum can spell), the
    adapter completes it to a credential, and the payee's verification accepts
    that credential until the challenge expires, naming this wallet as payer. *)
Theorem custody_payment_accepted d wid w k ring r s a drawn c now g q :
  managed d -> load_payment_wallet wid d = Ok (Some w, d) -> active_key d wid = Some k ->
  is_evm_wallet_algorithm (w_algorithm (pw_wallet w)) = true ->
  x402_prepare_signing a drawn c (w_address (pw_wallet w)) now = Ok (sr_protocol_request r) ->
  validate_challenge_integrity a c = Ok g -> ci_selected g = Evm q -> i64_in_range (ch_expires_at c) = true ->
  sr_wallet r = w -> sr_active_key r = k -> sign_payment ring r = Ok s ->
  (forall b, String.get 64 (ws_bytes s) = Some b -> byte_of b <= 28)%N ->
  exists credential,
    x402_complete_signing a c (sr_protocol_request r) (ws_bytes s) = Ok credential
    /\ forall t, (now <= t < ch_expires_at c)%Z ->
         exists from, x402_verify_credential a c credential t
                      = Ok {| pv_payer := Some from; pv_requires_external_settlement := true |}
                      /\ to_ascii_lowercase from = w_address (pw_wallet w).
Proof.
  intros [_ Hco]%managed_ok Hl Hk Hevm Hprep Hg Hq Hr <- <- Hs Hb.
  destruct (loaded_wallet_address _ _ _ _ Hco Hl Hk) as [Halg Hcan].
  destruct (sign_payment_evm _ _ _ Hs Hevm) as (key & Hm & Hsig). rewrite Halg in Hevm.
  pose proof (payment_key_metadata_evm _ _ _ _ Hevm Hm) as Hkey. rewrite Hkey in Hcan.
  destruct (canonicalize_evm_algorithm _ _ _ Hevm Hcan) as (e & He & Hwe).
  rewrite (derived_address_canonical _ _ He) in Hwe.
  destruct (sign_eip712_recovers _ _ _ Hsig Hb) as [Hlen Hrec].
  apply (signed_credential_accepted a drawn c (w_address (pw_wallet (sr_wallet r))) now (sr_protocol_request r) (ws_bytes s) g q); try done.
  - by rewrite Hwe.
  - rewrite Hwe. unfold canonicalize_wallet_address. by rewrite He, (derived_address_canonical _ _ He).
Qed.
End Payments.
