(* ===== verification/CustodySamples.v ===== *)
(** * A wallet in custody

    A wallet whose key is drawn, wrapped and stored by [create_wallet] in an
    empty vault, then rotated, and the payment of [X402Samples] signed with it.
    The hypotheses of [CustodySafety] are evaluated on it. *)

From S2P Require Import Prelude Text Money Json Wallet Intent Policy Ledger Records Store Budget PaymentStore Program Authorizer Samples IntentFlow System Sealing SigningService CanonicalJson X402Sdk X402Evm X402Solana X402Wire X402 X402Safety X402Samples CatalogTables WalletStore CatalogStore CatalogSafety CatalogRuns WalletKeys CustodySafety.

#[local] Open Scope string_scope.
#[local] Open Scope vault_scope.

Module SampleCustody.
Import SampleX402.
#[local] Existing Instance Sample.codec.
#[local] Existing Instance Sample.parser.
#[export] Existing Instance SampleRing.cipher.
#[export] Existing Instance SampleRing.uuids.

(** Keys whose signatures recover to the one point of [SampleX402.crypto]. *)
#[export] Instance secp : SecpKeys :=
  {| secp_from_slice _ := Ok tt; secp_public_point _ := zero_bytes 65;
     sign_prehash_recoverable _ _ := Ok (zero_bytes 64, 0%N) |}.
#[export] Instance solana : SolanaKeys := {| keypair_pubkey s := s; keypair_sign_message _ m := m |}.
#[export] Instance secp_laws : SecpKeysLaws.
Proof. split. intros key digest bytes id [= <- <-]. done. Qed.

Definition ring : WalletKeyRing := {| wkr_active_kek_id := "kek-1"; wkr_keks := {["kek-1" := zero_bytes 32]} |}.
(** The ring after a new KEK became active. *)
Definition next_ring : WalletKeyRing :=
  {| wkr_active_kek_id := "kek-2"; wkr_keks := <["kek-2" := zero_bytes 32]> (wkr_keks ring) |}.
Definition draws (wrap : string) : EnvelopeDraws :=
  {| ed_wrap_nonce := wrap; ed_key_nonce := "fedcba9876543210"; ed_data_key := zero_bytes 32 |}.
Definition draws1 : EnvelopeDraws := draws "0123456789abcdef".
Definition draws2 : EnvelopeDraws := draws "123456789abcdef0".
Definition private_key : string := "0123456789abcdef0123456789abcdef".

Definition creation : Result Error Wallet * DB :=
  run_alone (create_wallet ring draws1 "wallet-1" "secp256k1" private_key enabled_config 1600000000) empty_db.
Definition created : DB := snd creation.
Definition created_wallet : Wallet :=
  {| w_id := "wallet-1"; w_algorithm := "secp256k1"; w_address := payer;
     w_public_key := "0x" ++ hex_encode (zero_bytes 65); w_created_at := 1600000000 |}.
Lemma creation_ok :
  run_alone (create_wallet ring draws1 "wallet-1" "secp256k1" private_key enabled_config 1600000000) empty_db
  = (Ok created_wallet, created).
Proof. vm_compute. reflexivity. Qed.

Definition created_key : EncryptedWalletKeyVersion :=
  unwrap_or Sample.key (active_key created "wallet-1").
Lemma created_managed : managed created.
Proof.
  apply rtc_once. apply (mstep_catalog (CatCreateLocal created_wallet created_key enabled_config)).
  vm_compute. reflexivity.
Qed.

(** The wallet is disabled later; its key stays. *)
Definition disabled : DB :=
  match run_catalog (CatSetWalletEnabled "wallet-1" false 1600000100) created with Ok (_, d) => d | Err _ => created end.
Lemma created_to_disabled : rtc mstep created disabled.
Proof. apply rtc_once. apply (mstep_catalog (CatSetWalletEnabled "wallet-1" false 1600000100)). vm_compute. reflexivity. Qed.

(** The wallet is rotated to another private key under the new KEK, and
    disabled afterwards. *)
Definition rotated_private_key : string := "fedcba9876543210fedcba9876543210".
Definition rotated : DB :=
  snd (run_alone (rotate_wallet next_ring draws2 "wallet-1" rotated_private_key 1600000100) created).
Lemma rotation_ok :
  run_alone (rotate_wallet next_ring draws2 "wallet-1" rotated_private_key 1600000100) created
  = (Ok created_wallet, rotated).
Proof. vm_compute. reflexivity. Qed.
Definition rotated_disabled : DB :=
  match run_catalog (CatSetWalletEnabled "wallet-1" false 1600000200) rotated with Ok (_, d) => d | Err _ => rotated end.
Lemma rotated_to_disabled : rtc mstep rotated rotated_disabled.
Proof. apply rtc_once. apply (mstep_catalog (CatSetWalletEnabled "wallet-1" false 1600000200)). vm_compute. reflexivity. Qed.

Lemma custody_key_kept_witness :
  (exists k, active_key created "wallet-1" = Some k /\ decrypt_version next_ring k = Ok private_key
     /\ opens_while_active next_ring ("wallet-1", k_version k) private_key disabled)
  /\ exists k, active_key rotated "wallet-1" = Some k /\ decrypt_version next_ring k = Ok rotated_private_key
       /\ opens_while_active next_ring ("wallet-1", k_version k) rotated_private_key rotated_disabled
       /\ exists old', t_key rotated_disabled !! ("wallet-1", k_version created_key) = Some old'
            /\ decrypt_version next_ring old' = Err (Crypto "wallet key envelope is not an active supported version").
Proof.
  split.
  - destruct (custody_key_kept ring next_ring draws1 "wallet-1" private_key 1600000000 empty_db created_wallet created disabled)
      as (k & Ha & Ho & Hw & _); [constructor| |split; reflexivity|split; reflexivity| |exact created_to_disabled|].
    + left. exists "secp256k1", enabled_config. exact creation_ok.
    + apply insert_subseteq. reflexivity.
    + exists k. split; [exact Ha|]. split; [exact Ho|exact Hw].
  - destruct (custody_key_kept next_ring next_ring draws2 "wallet-1" rotated_private_key 1600000100 created created_wallet
                rotated rotated_disabled) as (k & Ha & Ho & Hw & Hold);
      [exact created_managed|right; exact rotation_ok|split; reflexivity|split; reflexivity|reflexivity
      |exact rotated_to_disabled|].
    destruct (Hold created_key) as (_ & old' & Ht & Hd); [vm_compute; reflexivity|].
    exists k. split; [exact Ha|]. split; [exact Ho|]. split; [exact Hw|]. exists old'. split; [exact Ht|apply Hd].
Defined.
(** Opening it with the rotated ring indeed gives the key back. *)
Example created_key_opens : decrypt_version next_ring created_key = Ok private_key.
Proof. vm_compute. reflexivity. Qed.
(** The same envelope under another wallet's row does not open. *)
Example moved_envelope_refused :
  decrypt_version next_ring
    {| k_wallet_id := "wallet-2"; k_version := 1; k_algorithm := k_algorithm created_key;
       k_address := k_address created_key; k_public_key := k_public_key created_key;
       k_encryption_scheme := k_encryption_scheme created_key; k_kek_id := k_kek_id created_key;
       k_wrapped_data_key := k_wrapped_data_key created_key; k_wrap_nonce := k_wrap_nonce created_key;
       k_key_ciphertext := k_key_ciphertext created_key; k_key_nonce := k_key_nonce created_key;
       k_aad := k_aad created_key; k_status := KeyActive; k_activated_at := 1600000000; k_retired_at := None;
       k_created_at := 1600000000 |}
  = Err (Crypto "wallet key envelope metadata authentication failed").
Proof. vm_compute. reflexivity. Qed.

Lemma custody_envelope_bound_witness :
  (k_wallet_id created_key = k_wallet_id created_key /\ k_version created_key = k_version created_key
   /\ k_algorithm created_key = k_algorithm created_key /\ k_address created_key = k_address created_key
   /\ k_public_key created_key = k_public_key created_key /\ k_kek_id created_key = k_kek_id created_key)
  \/ exists data_key1 data_key2,
       k_aad created_key <> k_aad created_key
       /\ aead_encrypt data_key1 (k_key_nonce created_key) (k_aad created_key) private_key
          = Some (k_key_ciphertext created_key)
       /\ aead_encrypt data_key2 (k_key_nonce created_key) (k_aad created_key) private_key
          = Some (k_key_ciphertext created_key).
Proof.
  apply (custody_envelope_bound ring next_ring created_key created_key private_key private_key);
    try (apply fits_all); vm_compute; reflexivity.
Defined.

(** ** A payment with it *)

Definition loaded : PaymentWallet :=
  match load_payment_wallet "wallet-1" created with Ok (Some w, _) => w | _ => Sample.wallet end.
Definition intent : PaymentIntent :=
  {| pi_id := "intent-1"; pi_scenario_id := "scenario-1"; pi_run_id := "run-1"; pi_wallet_id := Some "wallet-1";
     pi_policy_id := Some "policy-1"; pi_price_id := None; pi_direction := Outbound; pi_protocol := "x402";
     pi_asset := sample_asset; pi_recipient := recipient; pi_amount := 250000; pi_settled_amount := 0;
     pi_resource := "https://api.example/feed"; pi_challenge_hash := Some (ch_challenge_hash x402_challenge);
     pi_request_hash := "request-1"; pi_status := Authorized; pi_reservation_status := Reserved;
     pi_reserved_amount := 250000; pi_tx_hash := None; pi_settlement_ref := None; pi_next_reconcile_at := None;
     pi_created_at := 1700000000; pi_updated_at := 1700000000; pi_expires_at := Some 1700000600%Z; pi_settled_at := None |}.
Definition request : IntentBoundPaymentSignatureRequest :=
  {| sr_intent := intent; sr_challenge := x402_challenge; sr_wallet := loaded; sr_active_key := created_key;
     sr_protocol_request := x402_request |}.
Definition signature : WalletPaymentSignature :=
  {| ws_wallet_id := "wallet-1"; ws_key_version := 1; ws_signer_address := payer;
     ws_bytes := zero_bytes 64 ++ String (ascii_of_N 27) "" |}.
#[local] Existing Instance SampleSolana.laws.

Lemma custody_payment_accepted_witness :
  exists credential,
    x402_complete_signing adapter x402_challenge x402_request (ws_bytes signature) = Ok credential
    /\ forall t, (x402_now <= t < ch_expires_at x402_challenge)%Z ->
         exists from, x402_verify_credential adapter x402_challenge credential t
                      = Ok {| pv_payer := Some from; pv_requires_external_settlement := true |}
                      /\ to_ascii_lowercase from = w_address (pw_wallet loaded).
Proof.
  apply (custody_payment_accepted created "wallet-1" loaded created_key next_ring request signature adapter x402_drawn
           x402_challenge x402_now x402_integrity requirement created_managed);
    try (vm_compute; reflexivity).
  intros b [= <-]. vm_compute. discriminate.
Defined.
End SampleCustody.
