(* ===== verification/Resources.v ===== *)
(** * Resource import

    [src/src/payment/resource/{validation,apply}.rs] with the specifications of
    [src/src/model/resource.rs]: a batch of declared clients, wallets,
    scenarios, policies, prices and approvers is normalized, validated and
    applied to the catalog.  A record that exists is reused or refused, never
    changed.  Reading files and YAML is left out; the environment, the drawn
    envelopes and the clock are arguments. *)

From S2P Require Import Prelude Text Money Json Wallet Intent Policy Ledger Records Store Budget Program CatalogTables WalletStore CatalogStore Sealing SigningService X402Sdk WalletKeys Mpp.

#[local] Open Scope string_scope.
#[local] Open Scope vault_scope.

(** ** Specifications *)

Record ClientSpec : Type := { cs_id : string; cs_name : string; cs_auth_principal : string; cs_enabled : bool }.
Record ScenarioSpec : Type := { ns_id : string; ns_client_id : string; ns_name : string; ns_enabled : bool }.
Inductive WalletSource : Type :=
| SourceLocal (algorithm private_key_env : string)
| SourceExternal (algorithm address public_key : string).
Record WalletSpec : Type := {
  vs_id : string;
  vs_enabled : bool;
  vs_budget_unit : option BudgetUnit;
  vs_max_per_payment : option Amount;
  vs_max_per_day : option Amount;
  vs_source : WalletSource
}.
Record PolicySpec : Type := {
  qs_id : string;
  qs_scenario_id : string;
  qs_wallet_ids : list string;
  qs_protocols : list string;
  qs_networks : list string;
  qs_assets : list AssetIdentity;
  qs_budget_unit : BudgetUnit;
  qs_allowed_recipients : list string;
  qs_allowed_origins : list string;
  qs_inbound_limits : option PaymentPolicyLimits;
  qs_outbound_limits : option PaymentPolicyLimits;
  qs_enabled : bool
}.
Record PriceSpec : Type := {
  rs_id : string;
  rs_scenario_id : string;
  rs_policy_id : string;
  rs_resource : string;
  rs_protocols : list string;
  rs_asset : AssetIdentity;
  rs_amount : Amount;
  rs_wallet_id : string;
  rs_enabled : bool
}.
Record ApproverSpec : Type := { as_scenario_id : string; as_auth_principal : string; as_enabled : bool }.

Record ImportBatch : Type := {
  ib_clients : list ClientSpec;
  ib_wallets : list WalletSpec;
  ib_scenarios : list ScenarioSpec;
  ib_policies : list PolicySpec;
  ib_prices : list PriceSpec;
  ib_approvers : list ApproverSpec
}.
Definition contains_only_wallets (b : ImportBatch) : bool :=
  match b with
  | {| ib_clients := []; ib_wallets := _ :: _; ib_scenarios := []; ib_policies := []; ib_prices := []; ib_approvers := [] |} => true
  | _ => false
  end.

Inductive ImportScope : Type := ScopeAll | ScopeWalletsOnly.

(** [WalletSpecWire], and the specification it deserializes to *)
Inductive ManifestWalletCustody : Type := ManifestLocal | ManifestExternal.
Record WalletSpecWire : Type := {
  ww_id : string;
  ww_enabled : bool;
  ww_budget_unit : option BudgetUnit;
  ww_max_per_payment : option Amount;
  ww_max_per_day : option Amount;
  ww_custody : ManifestWalletCustody;
  ww_private_key_env : option string;
  ww_algorithm : option string;
  ww_address : option string;
  ww_public_key : option string
}.
Definition wallet_spec_from_wire (w : WalletSpecWire) : Result string WalletSpec :=
  let? source :=
    match ww_custody w with
    | ManifestLocal =>
        reject_if (is_some (ww_address w) || is_some (ww_public_key w))
                  "local wallet accepts only algorithm and private_key_env custody material" ;?
        let? private_key_env := ok_or (ww_private_key_env w) "local wallet requires private_key_env" in
        Ok (SourceLocal (unwrap_or EVM_EOA_ALGORITHM (ww_algorithm w)) private_key_env)
    | ManifestExternal =>
        reject_if (is_some (ww_private_key_env w)) "external wallet cannot contain private_key_env" ;?
        let? algorithm := ok_or (ww_algorithm w) "external wallet requires algorithm" in
        let? address := ok_or (ww_address w) "external wallet requires address" in
        Ok (SourceExternal algorithm address (unwrap_or "" (ww_public_key w)))
    end in
  Ok {| vs_id := ww_id w; vs_enabled := ww_enabled w; vs_budget_unit := ww_budget_unit w;
        vs_max_per_payment := ww_max_per_payment w; vs_max_per_day := ww_max_per_day w; vs_source := source |}.

(** [into_domain] *)
Definition client_into_domain (s : ClientSpec) (imported_at : Z) : PaymentClient :=
  {| cl_id := cs_id s; cl_name := cs_name s; cl_auth_principal := cs_auth_principal s; cl_enabled := cs_enabled s;
     cl_created_at := imported_at; cl_updated_at := imported_at |}.
Definition scenario_into_domain (s : ScenarioSpec) (imported_at : Z) : PaymentScenario :=
  {| sc_id := ns_id s; sc_client_id := ns_client_id s; sc_name := ns_name s; sc_enabled := ns_enabled s;
     sc_created_at := imported_at; sc_updated_at := imported_at |}.
Definition policy_into_domain (s : PolicySpec) (imported_at : Z) : PaymentPolicy :=
  {| po_id := qs_id s; po_scenario_id := qs_scenario_id s; po_wallet_ids := qs_wallet_ids s;
     po_protocols := qs_protocols s; po_networks := qs_networks s; po_assets := qs_assets s;
     po_budget_unit := qs_budget_unit s; po_allowed_recipients := qs_allowed_recipients s;
     po_allowed_origins := qs_allowed_origins s; po_inbound_limits := qs_inbound_limits s;
     po_outbound_limits := qs_outbound_limits s; po_enabled := qs_enabled s; po_created_at := imported_at;
     po_updated_at := imported_at |}.
Definition price_into_domain (s : PriceSpec) (imported_at : Z) : PaymentPrice :=
  {| pr_id := rs_id s; pr_scenario_id := rs_scenario_id s; pr_policy_id := rs_policy_id s; pr_resource := rs_resource s;
     pr_protocols := rs_protocols s; pr_asset := rs_asset s; pr_amount := rs_amount s; pr_wallet_id := rs_wallet_id s;
     pr_enabled := rs_enabled s; pr_created_at := imported_at; pr_updated_at := imported_at |}.
Definition approver_into_domain (s : ApproverSpec) (imported_at : Z) : PaymentScenarioApprover :=
  {| apr_scenario_id := as_scenario_id s; apr_auth_principal := as_auth_principal s; apr_enabled := as_enabled s;
     apr_created_at := imported_at; apr_updated_at := imported_at |}.
Definition source_algorithm (s : WalletSource) : string :=
  match s with SourceLocal algorithm _ => algorithm | SourceExternal algorithm _ _ => algorithm end.
Definition domain_wallet (s : WalletSpec) (address public_key : string) (created_at : Z) : Wallet :=
  {| w_id := vs_id s; w_algorithm := source_algorithm (vs_source s); w_address := address; w_public_key := public_key;
     w_created_at := created_at |}.

(** ** [normalize_batch] *)

(** The order of strings, of their options and of assets *)
Definition str_leb (a b : string) : bool := negb (str_ltb b a).
Definition option_str_compare (a b : option string) : comparison :=
  match a, b with
  | None, None => Eq
  | None, Some _ => Lt
  | Some _, None => Gt
  | Some a, Some b => str_compare a b
  end.
Definition lexicographic (a b : comparison) : comparison := match a with Eq => b | _ => a end.
Definition asset_compare (a b : AssetIdentity) : comparison :=
  lexicographic (str_compare (as_network a) (as_network b))
    (lexicographic (str_compare (as_asset a) (as_asset b))
       (lexicographic (option_str_compare (as_token_contract a) (as_token_contract b))
          (N.compare (as_decimals a) (as_decimals b)))).
Definition asset_leb (a b : AssetIdentity) : bool := match asset_compare a b with Gt => false | _ => true end.

Definition sort_strings (l : list string) : list string := order_by str_leb l.
Definition sort_by_id {A} (id : A -> string) (l : list A) : list A := order_by (fun a b => str_leb (id a) (id b)) l.
Definition approver_leb (a b : ApproverSpec) : bool :=
  match lexicographic (str_compare (as_scenario_id a) (as_scenario_id b))
                      (str_compare (as_auth_principal a) (as_auth_principal b)) with Gt => false | _ => true end.

Definition normalize_policy (s : PolicySpec) : PolicySpec :=
  {| qs_id := qs_id s; qs_scenario_id := qs_scenario_id s; qs_wallet_ids := sort_strings (qs_wallet_ids s);
     qs_protocols := sort_strings (qs_protocols s); qs_networks := sort_strings (qs_networks s);
     qs_assets := order_by asset_leb (qs_assets s); qs_budget_unit := qs_budget_unit s;
     qs_allowed_recipients := sort_strings (qs_allowed_recipients s);
     qs_allowed_origins := sort_strings (qs_allowed_origins s); qs_inbound_limits := qs_inbound_limits s;
     qs_outbound_limits := qs_outbound_limits s; qs_enabled := qs_enabled s |}.
Definition normalize_price (s : PriceSpec) : PriceSpec :=
  {| rs_id := rs_id s; rs_scenario_id := rs_scenario_id s; rs_policy_id := rs_policy_id s; rs_resource := rs_resource s;
     rs_protocols := sort_strings (rs_protocols s); rs_asset := rs_asset s; rs_amount := rs_amount s;
     rs_wallet_id := rs_wallet_id s; rs_enabled := rs_enabled s |}.
Definition normalize_batch (b : ImportBatch) : ImportBatch :=
  {| ib_clients := sort_by_id cs_id (ib_clients b); ib_wallets := sort_by_id vs_id (ib_wallets b);
     ib_scenarios := sort_by_id ns_id (ib_scenarios b);
     ib_policies := map normalize_policy (sort_by_id qs_id (ib_policies b));
     ib_prices := map normalize_price (sort_by_id rs_id (ib_prices b));
     ib_approvers := order_by approver_leb (ib_approvers b) |}.

(** ** [validate_batch] *)

Definition duplicate_in_import (description : string) : Error :=
  InvalidRequest ("duplicate " ++ description ++ " in console import").
(** [unique]: no key was seen before *)
Fixpoint seen_twice {K} `{EqDecision K} (seen l : list K) : bool :=
  match l with
  | [] => false
  | k :: rest => bool_decide (k ∈ seen) || seen_twice (k :: seen) rest
  end.
Definition unique {A} (items : list A) (key : A -> string) (description : string) : Result Error unit :=
  reject_if (seen_twice [] (map key items)) (duplicate_in_import description).
(** [windows(2).any(|pair| pair[0] == pair[1])] *)
Fixpoint adjacent_equal {A} `{EqDecision A} (l : list A) : bool :=
  match l with
  | a :: (b :: _) as rest => (a == b) || adjacent_equal rest
  | _ => false
  end.
Definition unique_sorted_strings (values : list string) (description : string) : Result Error unit :=
  reject_if (adjacent_equal values) (duplicate_in_import description).

Definition validate_wallet_spec (w : WalletSpec) : Result Error unit :=
  reject_if (blank (vs_id w)) (InvalidRequest "imported wallet id is empty") ;?
  match vs_source w with
  | SourceLocal algorithm private_key_env =>
      reject_if (blank private_key_env || (negb (is_evm_wallet_algorithm algorithm) && negb (is_solana_wallet_algorithm algorithm)))
                (InvalidRequest "local wallet algorithm or private_key_env is invalid")
  | SourceExternal algorithm address _ =>
      reject_if (blank algorithm || blank address) (InvalidRequest "external wallet algorithm or address is empty")
  end ;?
  match vs_budget_unit w with
  | Some unit => map_err (fun field => InvalidRequest ("invalid wallet budget unit " ++ field)) (BudgetUnit_validate unit)
  | None => reject_if (is_some (vs_max_per_payment w) || is_some (vs_max_per_day w))
                      (InvalidRequest "wallet limits require a budget_unit")
  end ;?
  reject_if (is_some_and Amount.is_zero (vs_max_per_payment w) || is_some_and Amount.is_zero (vs_max_per_day w)
             || limits_inverted (vs_max_per_payment w) (vs_max_per_day w))
            (InvalidRequest "invalid wallet limits").

Definition validate_policy_spec (p : PolicySpec) : Result Error unit :=
  unique_sorted_strings (qs_wallet_ids p) "policy wallet id" ;?
  unique_sorted_strings (qs_protocols p) "policy protocol" ;?
  unique_sorted_strings (qs_networks p) "policy network" ;?
  unique_sorted_strings (qs_allowed_recipients p) "policy recipient" ;?
  unique_sorted_strings (qs_allowed_origins p) "policy origin" ;?
  reject_if (adjacent_equal (qs_assets p)) (duplicate_in_import "policy asset").

Definition for_each {A} (f : A -> Result Error unit) (l : list A) : Result Error unit := rfold (fun _ a => f a) tt l.
Definition validate_batch (b : ImportBatch) : Result Error unit :=
  unique (ib_clients b) cs_id "client id" ;?
  unique (ib_clients b) cs_auth_principal "client principal" ;?
  unique (ib_wallets b) vs_id "wallet id" ;?
  unique (ib_scenarios b) ns_id "scenario id" ;?
  unique (ib_policies b) qs_id "policy id" ;?
  unique (ib_prices b) rs_id "price id" ;?
  reject_if (seen_twice [] (map (fun a => (as_scenario_id a, as_auth_principal a)) (ib_approvers b)))
            (duplicate_in_import "scenario approver") ;?
  for_each validate_wallet_spec (ib_wallets b) ;?
  for_each validate_policy_spec (ib_policies b) ;?
  for_each (fun p => unique_sorted_strings (rs_protocols p) "price protocol") (ib_prices b).

(** ** Comparisons *)

Definition same_client (l r : PaymentClient) : bool :=
  (cl_id l == cl_id r) && (cl_name l == cl_name r) && (cl_auth_principal l == cl_auth_principal r)
  && (cl_enabled l == cl_enabled r).
Definition same_scenario (l r : PaymentScenario) : bool :=
  (sc_id l == sc_id r) && (sc_client_id l == sc_client_id r) && (sc_name l == sc_name r) && (sc_enabled l == sc_enabled r).
Definition same_wallet (l r : Wallet) : bool :=
  (w_id l == w_id r) && (w_algorithm l == w_algorithm r) && (w_address l == w_address r)
  && (w_public_key l == w_public_key r).
Definition policy_at (p : PaymentPolicy) (created_at updated_at : Z) : PaymentPolicy :=
  {| po_id := po_id p; po_scenario_id := po_scenario_id p; po_wallet_ids := po_wallet_ids p;
     po_protocols := po_protocols p; po_networks := po_networks p; po_assets := po_assets p;
     po_budget_unit := po_budget_unit p; po_allowed_recipients := po_allowed_recipients p;
     po_allowed_origins := po_allowed_origins p; po_inbound_limits := po_inbound_limits p;
     po_outbound_limits := po_outbound_limits p; po_enabled := po_enabled p; po_created_at := created_at;
     po_updated_at := updated_at |}.
Definition same_policy (l r : PaymentPolicy) : bool := l == policy_at r (po_created_at l) (po_updated_at l).
Definition price_at (p : PaymentPrice) (created_at updated_at : Z) : PaymentPrice :=
  {| pr_id := pr_id p; pr_scenario_id := pr_scenario_id p; pr_policy_id := pr_policy_id p; pr_resource := pr_resource p;
     pr_protocols := pr_protocols p; pr_asset := pr_asset p; pr_amount := pr_amount p; pr_wallet_id := pr_wallet_id p;
     pr_enabled := pr_enabled p; pr_created_at := created_at; pr_updated_at := updated_at |}.
Definition same_price (l r : PaymentPrice) : bool := l == price_at r (pr_created_at l) (pr_updated_at l).
Definition drift (kind id : string) : Error :=
  PaymentConflict ("imported " ++ kind ++ " " ++ id ++ " exists with different authoritative content").

(** ** [apply_batch] *)

Record ImportReport : Type := { ir_created : N; ir_reused : N }.
Definition created (r : ImportReport) : ImportReport := {| ir_created := ir_created r + 1; ir_reused := ir_reused r |}.
Definition reused (r : ImportReport) : ImportReport := {| ir_created := ir_created r; ir_reused := ir_reused r + 1 |}.

Definition import_client (imported_at : Z) (report : ImportReport) (spec : ClientSpec) : Prog DB ImportReport :=
  let desired := client_into_domain spec imported_at in
  let& found := await (get_client (cl_id desired)) in
  match found with
  | Some existing => if same_client existing desired then gret (reused report)
                     else glift (Err (drift "client" (cl_id desired)))
  | None => await (insert_client desired) ;& gret (created report)
  end.
Definition import_scenario (imported_at : Z) (report : ImportReport) (spec : ScenarioSpec) : Prog DB ImportReport :=
  let desired := scenario_into_domain spec imported_at in
  let& found := await (get_scenario (sc_id desired)) in
  match found with
  | Some existing => if same_scenario existing desired then gret (reused report)
                     else glift (Err (drift "scenario" (sc_id desired)))
  | None => await (register_scenario desired) ;& gret (created report)
  end.
Definition import_policy (imported_at : Z) (report : ImportReport) (spec : PolicySpec) : Prog DB ImportReport :=
  let desired := policy_into_domain spec imported_at in
  glift (map_err (fun field => InvalidRequest ("invalid imported policy " ++ field)) (PaymentPolicy_validate desired)) ;&
  let& found := await (load_policy (po_id desired)) in
  match found with
  | Some existing => if same_policy existing desired then gret (reused report)
                     else glift (Err (drift "policy" (po_id desired)))
  | None => await (policy_insert desired) ;& gret (created report)
  end.
Definition import_price (imported_at : Z) (report : ImportReport) (spec : PriceSpec) : Prog DB ImportReport :=
  let desired := price_into_domain spec imported_at in
  glift (map_err (fun field => InvalidRequest ("invalid imported price " ++ field)) (PaymentPrice_validate desired)) ;&
  let& found := await (get_price (pr_id desired)) in
  match found with
  | Some existing => if same_price existing desired then gret (reused report)
                     else glift (Err (drift "price" (pr_id desired)))
  | None => await (price_insert desired) ;& gret (created report)
  end.
Definition import_approver (imported_at : Z) (report : ImportReport) (spec : ApproverSpec) : Prog DB ImportReport :=
  let desired := approver_into_domain spec imported_at in
  let& found := await (get_approver (apr_scenario_id desired) (apr_auth_principal desired)) in
  match found with
  | Some existing => if apr_enabled existing == apr_enabled desired then gret (reused report)
                     else glift (Err (drift "scenario approver" (apr_scenario_id desired ++ "/" ++ apr_auth_principal desired)))
  | None => await (upsert_approver desired) ;& gret (created report)
  end.

Section Wallets.
Context `{SecpKeys, SolanaKeys, EvmCrypto, Aead, UuidNonce, SolanaPubkey}.
Variable read_env : string -> string -> N -> Result Error string.

(** [private_key_from_env] *)
Definition private_key_from_env (variable algorithm : string) : Result Error string :=
  let? encoded := read_env (trim variable) "imported wallet private key" 1024%N in
  let encoded := unwrap_or encoded (Text.strip_prefix "0x" encoded) in
  let? decoded := ok_or (hex_decode encoded) (InvalidKey ("private key in " ++ variable ++ " is not hexadecimal")) in
  validate_private_key_for_algorithm algorithm decoded ;?
  Ok decoded.

(** [wallet_material] *)
Definition wallet_material (spec : WalletSpec) (created_at : Z) : Result Error (Wallet * option string) :=
  match vs_source spec with
  | SourceLocal algorithm private_key_env =>
      let? private_key := private_key_from_env private_key_env algorithm in
      let? metadata := payment_key_metadata algorithm private_key in
      Ok (domain_wallet spec (fst metadata) (snd metadata) created_at, Some private_key)
  | SourceExternal _ address public_key =>
      let? wallet := map_err (fun field => InvalidRequest ("invalid external wallet " ++ field))
                             (Wallet_canonicalized (domain_wallet spec address public_key created_at)) in
      Ok (wallet, None)
  end.

Definition source_custody (s : WalletSource) : WalletCustody :=
  match s with SourceLocal _ _ => Local | SourceExternal _ _ _ => External end.
Definition source_is_local (s : WalletSource) : bool := match s with SourceLocal _ _ => true | _ => false end.

(** The stored wallet differs from the specification. *)
Definition wallet_drifted (spec : WalletSpec) (expected : Wallet) (existing : PaymentWallet) : bool :=
  negb (same_wallet (pw_wallet existing) expected) || (pw_custody existing != source_custody (vs_source spec))
  || (pw_enabled existing != vs_enabled spec)
  || is_some_and (fun unit => pw_budget_unit existing != Some unit) (vs_budget_unit spec)
  || (pw_max_per_payment existing != vs_max_per_payment spec) || (pw_max_per_day existing != vs_max_per_day spec)
  || (source_is_local (vs_source spec) && is_none (pw_active_key_version existing)).

Definition creation_config (spec : WalletSpec) : WalletCreationConfig :=
  {| wc_enabled := vs_enabled spec; wc_budget_unit := vs_budget_unit spec;
     wc_max_per_payment := vs_max_per_payment spec; wc_max_per_day := vs_max_per_day spec |}.

Variable ring : WalletKeyRing.
(** What the envelope of each wallet draws. *)
Variable draws : string -> EnvelopeDraws.

(** [import_wallet] *)
Definition import_wallet (imported_at : Z) (report : ImportReport) (spec : WalletSpec) : Prog DB ImportReport :=
  let& material := glift (wallet_material spec imported_at) in
  let& found := await (load_payment_wallet (vs_id spec)) in
  match found with
  | Some existing =>
      if wallet_drifted spec (fst material) existing then glift (Err (drift "wallet" (vs_id spec)))
      else gret (reused report)
  | None =>
      match vs_source spec with
      | SourceLocal algorithm _ =>
          let& private_key := glift (ok_or (snd material) (InvalidTransition "local wallet import key is unavailable")) in
          create_wallet ring (draws (vs_id spec)) (vs_id spec) algorithm private_key (creation_config spec) imported_at ;&
          gret (created report)
      | SourceExternal _ _ _ =>
          await (create_external_configured (fst material) (creation_config spec)) ;&
          gret (created report)
      end
  end.

(** [apply_batch] *)
Definition apply_batch (b : ImportBatch) (imported_at : Z) : Prog DB ImportReport :=
  glift (reject_if (imported_at <? 0)%Z (InvalidTransition "console import requires a non-negative UTC timestamp")) ;&
  let& report := gfold (import_client imported_at) {| ir_created := 0; ir_reused := 0 |} (ib_clients b) in
  let& report := gfold (import_wallet imported_at) report (ib_wallets b) in
  let& report := gfold (import_scenario imported_at) report (ib_scenarios b) in
  let& report := gfold (import_policy imported_at) report (ib_policies b) in
  let& report := gfold (import_price imported_at) report (ib_prices b) in
  gfold (import_approver imported_at) report (ib_approvers b).

(** [import_from_paths_with_scope], after the files were read and with the
    storage at hand *)
Definition import_resources (scope : ImportScope) (batch : ImportBatch) (imported_at : Z) : Prog DB ImportReport :=
  let batch := normalize_batch batch in
  glift (validate_batch batch) ;&
  glift (reject_if (match scope with ScopeAll => false | ScopeWalletsOnly => negb (contains_only_wallets batch) end)
                   (InvalidRequest "wallet create accepts one or more Wallet resources only")) ;&
  apply_batch batch imported_at.
End Wallets.
