(* ===== verification/ResourceSafety.v ===== *)
(** * What a resource import does to the catalog

    An import only adds: whatever it meets and however it ends, no stored
    client, wallet, key, scenario, policy, price or approver changes, apart from
    the budget unit that the first policy gives to a wallet without one.  When
    it succeeds every declared resource is stored as declared, and the same
    import again changes nothing. *)

From S2P Require Import Prelude Text Money Json Wallet Intent Policy Ledger Records Store LedgerStore PaymentRules Budget PaymentStore Program Samples IntentFlow System CatalogTables WalletStore CatalogStore CatalogSafety CatalogRuns Sealing SigningService X402Sdk WalletKeys Mpp Resources.

#[local] Open Scope string_scope.
#[local] Open Scope vault_scope.

(** ** The catalog only grows *)

(** A wallet keeps everything but a budget unit that it did not have. *)
Record wallet_extends (w w' : PaymentWallet) : Prop := {
  we_wallet : pw_wallet w' = pw_wallet w;
  we_custody : pw_custody w' = pw_custody w;
  we_enabled : pw_enabled w' = pw_enabled w;
  we_payment : pw_max_per_payment w' = pw_max_per_payment w;
  we_day : pw_max_per_day w' = pw_max_per_day w;
  we_unit : pw_budget_unit w' = pw_budget_unit w
            \/ pw_budget_unit w = None /\ exists u, pw_budget_unit w' = Some u /\ BudgetUnit_validate u = Ok tt
}.
Record extends (d d' : DB) : Prop := {
  xt_clients : t_client d ⊆ t_client d';
  xt_scenarios : t_scenario d ⊆ t_scenario d';
  xt_approvers : t_approver d ⊆ t_approver d';
  xt_keys : t_key d ⊆ t_key d';
  xt_policies : t_policy d ⊆ t_policy d';
  xt_prices : t_price d ⊆ t_price d';
  xt_wallets : forall k w, t_wallet d !! k = Some w -> exists w', t_wallet d' !! k = Some w' /\ wallet_extends w w';
  xt_payments : same_payments d d'
}.

#[export] Instance wallet_extends_refl : Reflexive wallet_extends.
Proof. intros w. split; auto. Qed.
#[export] Instance wallet_extends_trans : Transitive wallet_extends.
Proof.
  intros a b c [? ? ? ? ? U1] [? ? ? ? ? U2]. split; try congruence. destruct U2 as [->|(Hb & U2)]; [done|].
  right. split; [|done]. destruct U1 as [<-|(_ & u & Hu & _)]; [done|congruence].
Qed.
#[export] Instance extends_refl : Reflexive extends.
Proof. intros d. split; try done. intros k w Hk. by exists w. Qed.
#[export] Instance extends_trans : Transitive extends.
Proof.
  intros a b c [] []. split; try (by etrans).
  - intros k w Hk. destruct (xt_wallets0 _ _ Hk) as (w1 & Hk1 & E1). destruct (xt_wallets1 _ _ Hk1) as (w2 & Hk2 & E2).
    exists w2. split; [done|by etrans].
  - unfold same_payments in *. intuition congruence.
Qed.

(** Transactions that only extend. *)
Class Extending {A} (m : Tx DB A) : Prop := extending : forall d a d', m d = Ok (a, d') -> extends d d'.

#[export] Instance read_only_extending {A} (m : Tx DB A) : ReadOnly m -> Extending m.
Proof. intros Hm d a d' Hr. by rewrite (read_only _ _ _ Hr). Qed.
#[export] Instance bind_extending {A B} (m : Tx DB A) (k : A -> Tx DB B) :
  Extending m -> (forall a, Extending (k a)) -> Extending (tbind m k).
Proof. intros Hm Hk d b d' Hr. run_inv. etrans; [by eapply Hm|by eapply Hk]. Qed.
#[export] Instance tmap_err_extending {A} f (m : Tx DB A) : Extending m -> Extending (tmap_err f m).
Proof. intros Hm d a d' Hr%tmap_err_ok. by eapply Hm. Qed.
#[export] Instance tfor_extending {A} (f : A -> Tx DB unit) l : (forall a, Extending (f a)) -> Extending (tfor f l).
Proof. intros Hf d u d' Hr. eapply (tfor_rel extends); [|exact Hr]. intros a s1 s2 _ Ha. by eapply Hf. Qed.

(** An insert extends its table. *)
Lemma insert_extending {K A} `{Countable K} (T : Table K A) r e :
  (forall d, tb_rows T d !! tb_key T r = None -> extends d (tb_put T r d)) -> Extending (sql_insert T r e).
Proof. intros Hx d u d' (Hnone & _ & _ & _ & ->)%sql_insert_ok. by apply Hx. Qed.

Ltac insert_extends :=
  apply insert_extending; intros d Hnone; split; simpl; try done; try (by apply insert_subseteq);
  try (intros k w Hk; by exists w).
#[export] Instance insert_client_row r e : Extending (sql_insert client_table r e).
Proof. insert_extends. Qed.
#[export] Instance insert_scenario_row r e : Extending (sql_insert scenario_table r e).
Proof. insert_extends. Qed.
#[export] Instance insert_approver_row r e : Extending (sql_insert approver_table r e).
Proof. insert_extends. Qed.
#[export] Instance insert_key_row r e : Extending (sql_insert key_table r e).
Proof. insert_extends. Qed.
#[export] Instance insert_policy_row r e : Extending (sql_insert policy_table r e).
Proof. insert_extends. Qed.
#[export] Instance insert_price_row r e : Extending (sql_insert price_table r e).
Proof. insert_extends. Qed.
#[export] Instance insert_wallet_row r e : Extending (sql_insert wallet_table r e).
Proof.
  apply insert_extending. intros d Hnone. split; simpl; try done.
  intros k w Hk. exists w. split; [|done]. rewrite lookup_insert_ne; [done|]. intros <-. simpl in Hnone. congruence.
Qed.

Ltac solve_extending :=
  repeat first [ apply _ | apply bind_extending; intros | apply tfor_extending; intros
               | apply tmap_err_extending | case_match ].

Lemma initialize_unit_extending w p :
  BudgetUnit_validate (po_budget_unit p) = Ok tt -> Extending (initialize_wallet_budget_unit w p).
Proof.
  intros Hu d u d' Hi. unfold initialize_wallet_budget_unit in Hi. catalog_inv. split; simpl; try done.
  intros k row Hk. rewrite lookup_insert. case_decide as Hkw; [subst k|by exists row].
  simplify_eq. eexists. split; [done|]. split; try done. right. simpl in *. split; [|by eexists].
  match goal with Hn : is_none (pw_budget_unit ?x) = true |- _ => by destruct (pw_budget_unit x) end.
Qed.
Lemma validate_wallet_binding_extending p w :
  BudgetUnit_validate (po_budget_unit p) = Ok tt -> Extending (validate_wallet_binding p w).
Proof.
  intros Hu. unfold validate_wallet_binding, load_or. apply bind_extending; [solve_extending|]. intros row.
  apply bind_extending; [|intros; solve_extending].
  destruct (pw_budget_unit row); [solve_extending|by apply initialize_unit_extending].
Qed.
Lemma validate_policy_unit p u : validate_policy p = Ok u -> BudgetUnit_validate (po_budget_unit p) = Ok tt.
Proof.
  unfold validate_policy, PaymentPolicy_validate. intros Hv. run_inv.
  destruct (BudgetUnit_validate (po_budget_unit p)) as [[]|]; [done|]. simpl in *. done.
Qed.

(** Memberships only change the row of their policy. *)
Lemma policy_memberships p ws d u d' :
  tfor (insert_policy_wallet p) ws d = Ok (u, d') ->
  exists m, d' = set_policy m d /\ forall k, k <> po_id p -> m !! k = t_policy d !! k.
Proof.
  revert d. induction ws as [|w ws IH]; intros d Hf; simpl in Hf; run_inv.
  - exists (t_policy d). by destruct d.
  - match goal with Hi : insert_policy_wallet _ _ _ = Ok _ |- _ => unfold insert_policy_wallet in Hi; repeat case_match; simplify_eq end.
    destruct (IH _ Hf) as (m & -> & Hm). exists m. split; [done|]. intros k Hk. rewrite (Hm k Hk). simpl.
    by rewrite lookup_insert_ne by done.
Qed.

#[export] Instance policy_insert_extending p : Extending (policy_insert p).
Proof.
  intros d x d' Hi. unfold policy_insert, insert_policy_aggregate, insert_policy in Hi. run_inv.
  match goal with Hv : validate_policy _ = Ok _ |- _ => apply validate_policy_unit in Hv as Hu end.
  match goal with Hs : sql_insert _ _ _ d = Ok _ |- _ => rename Hs into Hins end.
  pose proof (extending _ _ _ Hins) as E1. apply sql_insert_ok in Hins as (Hnone & _ & _ & _ & ->). simpl in Hnone.
  match goal with Hl : lock_wallets _ _ = Ok _ |- _ => apply lock_wallets_ok in Hl; subst end.
  match goal with Hv : validate_wallet_bindings _ _ = Ok (_, ?s) |- _ =>
    pose proof (tfor_extending _ _ (fun w => validate_wallet_binding_extending p w Hu) _ _ _ Hv) as E2;
    apply validate_wallet_bindings_ok in Hv as [[Hp _ _ _] _] end.
  match goal with Ht : tfor _ _ _ = Ok _ |- _ => apply policy_memberships in Ht as (m & -> & Hm) end.
  pose proof (extends_trans _ _ _ E1 E2) as [X1 X2 X3 X4 X5 X6 X7 X8]. split; simpl in *; try done.
  apply map_subseteq_spec. intros k q Hk. rewrite Hm by congruence. by rewrite map_subseteq_spec in X5; apply X5.
Qed.

#[export] Instance price_insert_extending x : Extending (price_insert x).
Proof. unfold price_insert, validate_price_authority, insert_price, load_or, require, load_policy. solve_extending. Qed.
#[export] Instance insert_client_extending c : Extending (insert_client c).
Proof. unfold insert_client, entity_insert_returning. solve_extending. Qed.
#[export] Instance register_scenario_extending s : Extending (register_scenario s).
Proof. unfold register_scenario, entity_register. solve_extending. Qed.

Section Custody.
Context `{SolanaPubkey}.
#[export] Instance create_local_extending w k c : Extending (create_local_configured w k c).
Proof. unfold create_local_configured, insert_wallet, insert_key, load_or. solve_extending. Qed.
#[export] Instance create_external_extending w c : Extending (create_external_configured w c).
Proof. unfold create_external_configured, insert_wallet. solve_extending. Qed.
End Custody.

(** An approver that is not stored yet is inserted. *)
Lemma upsert_new_approver a d x d' :
  upsert_approver a d = Ok (x, d') -> t_approver d !! (apr_scenario_id a, apr_auth_principal a) = None ->
  extends d d' /\ t_approver d' !! (apr_scenario_id a, apr_auth_principal a) = Some a.
Proof.
  unfold upsert_approver. intros Hu Hnone. run_inv. rewrite Hnone in Hu. run_inv. split.
  - by eapply insert_approver_row.
  - match goal with Hs : sql_insert _ _ _ _ = Ok _ |- _ => apply sql_insert_ok in Hs as (_ & _ & _ & _ & ->) end.
    apply lookup_insert_eq.
Qed.

(** ** Canonical addresses *)

(** The text of a Solana key is base58, which has no digit zero: it is never
    read as an EVM address. *)
Class SolanaPubkeyText `{SolanaPubkey} : Prop :=
  pubkey_text_base58 : forall p, evm_address_body (pubkey_to_string p) = None.

Lemma canonicalize_wallet_idempotent `{SolanaPubkey} `{!SolanaPubkeyLaws, !SolanaPubkeyText} algorithm a b :
  canonicalize_wallet_address algorithm a = Ok b -> canonicalize_wallet_address algorithm b = Ok b.
Proof.
  unfold canonicalize_wallet_address. destruct (evm_address_body a) as [e|] eqn:Ha.
  - intros [= <-]. rewrite (evm_address_body_canonical _ _ Ha). by rewrite evm_canonical_idem.
  - destruct (is_evm_wallet_algorithm algorithm) eqn:He; [done|]. destruct (is_solana_wallet_algorithm algorithm) eqn:Hs.
    + destruct (canonical_solana_address a) as [c|] eqn:Hc; simpl; [|done]. intros [= <-].
      rewrite (canonical_solana_idem _ _ Hc). unfold canonical_solana_address in Hc.
      apply fmap_Some in Hc as (p & _ & ->). by rewrite pubkey_text_base58.
    + intros [= <-]. by rewrite Ha.
Qed.

(** ** Importers *)

Definition handled (r : ImportReport) : N := (ir_created r + ir_reused r)%N.
Definition reused_times (n : N) (r : ImportReport) : ImportReport :=
  {| ir_created := ir_created r; ir_reused := ir_reused r + n |}.

(** A resource is in the catalog as declared; the times are not declared. *)
Definition client_stored (s : ClientSpec) (d : DB) : Prop :=
  exists created updated, t_client d !! cs_id s = Some
    {| cl_id := cs_id s; cl_name := cs_name s; cl_auth_principal := cs_auth_principal s; cl_enabled := cs_enabled s;
       cl_created_at := created; cl_updated_at := updated |}.
Definition scenario_stored (s : ScenarioSpec) (d : DB) : Prop :=
  exists created updated, t_scenario d !! ns_id s = Some
    {| sc_id := ns_id s; sc_client_id := ns_client_id s; sc_name := ns_name s; sc_enabled := ns_enabled s;
       sc_created_at := created; sc_updated_at := updated |}.
Definition policy_stored (s : PolicySpec) (d : DB) : Prop :=
  PaymentPolicy_validate (policy_into_domain s 0) = Ok tt
  /\ exists created updated, t_policy d !! qs_id s = Some
       {| po_id := qs_id s; po_scenario_id := qs_scenario_id s; po_wallet_ids := qs_wallet_ids s;
          po_protocols := qs_protocols s; po_networks := qs_networks s; po_assets := qs_assets s;
          po_budget_unit := qs_budget_unit s; po_allowed_recipients := qs_allowed_recipients s;
          po_allowed_origins := qs_allowed_origins s; po_inbound_limits := qs_inbound_limits s;
          po_outbound_limits := qs_outbound_limits s; po_enabled := qs_enabled s; po_created_at := created;
          po_updated_at := updated |}.
Definition price_stored (s : PriceSpec) (d : DB) : Prop :=
  PaymentPrice_validate (price_into_domain s 0) = Ok tt
  /\ exists created updated, t_price d !! rs_id s = Some
       {| pr_id := rs_id s; pr_scenario_id := rs_scenario_id s; pr_policy_id := rs_policy_id s;
          pr_resource := rs_resource s; pr_protocols := rs_protocols s; pr_asset := rs_asset s; pr_amount := rs_amount s;
          pr_wallet_id := rs_wallet_id s; pr_enabled := rs_enabled s; pr_created_at := created;
          pr_updated_at := updated |}.
Definition approver_stored (s : ApproverSpec) (d : DB) : Prop :=
  exists a, t_approver d !! (as_scenario_id s, as_auth_principal s) = Some a /\ apr_enabled a = as_enabled s.

(** The loaded wallet carries the expected identity and the declared
    configuration, and a key if it is in local custody. *)
Record wallet_matches (s : WalletSpec) (expected : Wallet) (w : PaymentWallet) : Prop := {
  wm_id : w_id (pw_wallet w) = w_id expected;
  wm_algorithm : w_algorithm (pw_wallet w) = w_algorithm expected;
  wm_address : w_address (pw_wallet w) = w_address expected;
  wm_public_key : w_public_key (pw_wallet w) = w_public_key expected;
  wm_custody : pw_custody w = match vs_source s with SourceLocal _ _ => Local | SourceExternal _ _ _ => External end;
  wm_enabled : pw_enabled w = vs_enabled s;
  wm_unit : forall u, vs_budget_unit s = Some u -> pw_budget_unit w = Some u;
  wm_payment : pw_max_per_payment w = vs_max_per_payment s;
  wm_day : pw_max_per_day w = vs_max_per_day s;
  wm_key : pw_custody w = Local -> is_Some (pw_active_key_version w)
}.

(** The comparisons of the import decide it. *)
Lemma same_client_iff s c :
  same_client c (client_into_domain s 0) = true <->
  c = {| cl_id := cs_id s; cl_name := cs_name s; cl_auth_principal := cs_auth_principal s; cl_enabled := cs_enabled s;
         cl_created_at := cl_created_at c; cl_updated_at := cl_updated_at c |}.
Proof. unfold same_client. rewrite !andb_true_iff, !bool_decide_eq_true. destruct c; simpl. intuition congruence. Qed.
Lemma same_scenario_iff s c :
  same_scenario c (scenario_into_domain s 0) = true <->
  c = {| sc_id := ns_id s; sc_client_id := ns_client_id s; sc_name := ns_name s; sc_enabled := ns_enabled s;
         sc_created_at := sc_created_at c; sc_updated_at := sc_updated_at c |}.
Proof. unfold same_scenario. rewrite !andb_true_iff, !bool_decide_eq_true. destruct c; simpl. intuition congruence. Qed.
Lemma not_drifted_iff s w e : wallet_drifted s w e = false <-> wallet_matches s w e.
Proof.
  unfold wallet_drifted, same_wallet. rewrite !orb_false_iff, !negb_false_iff, !andb_true_iff, !bool_decide_eq_true.
  split.
  - intros [[[[[[[[[H1 H2] H3] H4] Hc] He] Hu] Hp] Hd] Hk]. split; try done.
    + intros u Hs. rewrite Hs in Hu. simpl in Hu. by apply negb_false_iff, bool_decide_eq_true in Hu.
    + rewrite Hc. destruct (vs_source s); [|done]. simpl in Hk. intros _. by destruct (pw_active_key_version e).
  - intros [H1 H2 H3 H4 Hc He Hu Hp Hd Hk]. split_and!; try done.
    + destruct (vs_budget_unit s) as [u|]; [|done]. simpl. apply negb_false_iff, bool_decide_eq_true. by apply Hu.
    + destruct (vs_source s); [|done]. simpl. by destruct (Hk Hc) as [v ->].
Qed.

Section Imports.
Context `{SolanaPubkey} `{UrlParser}.

(** What [apply_batch] relies on for each kind of resource: a failure changes
    nothing, a success leaves the resource stored as declared, a stored
    resource survives whatever else is added, and it is reused at any time. *)
Class Importer {Spec : Type} (import : Z -> ImportReport -> Spec -> Prog DB ImportReport)
    (stored : Spec -> DB -> Prop) : Prop := {
  importer_fails at_ r s d e d' : run_alone (import at_ r s) d = (Err e, d') -> d' = d;
  importer_stores at_ r s d r' d' :
    managed d -> run_alone (import at_ r s) d = (Ok r', d') ->
    managed d' /\ extends d d' /\ stored s d' /\ handled r' = (handled r + 1)%N;
  importer_kept s d d' : managed d -> managed d' -> extends d d' -> stored s d -> stored s d';
  importer_reuses at_ r s d : stored s d -> run_alone (import at_ r s) d = (Ok (reused r), d)
}.

Section Fold.
Context {Spec : Type} (import : Z -> ImportReport -> Spec -> Prog DB ImportReport) (stored : Spec -> DB -> Prop).
Context `{!Importer import stored}.

Lemma fold_imports at_ l r d res d' :
  managed d -> run_alone (gfold (import at_) r l) d = (res, d') ->
  managed d' /\ extends d d'
  /\ forall r', res = Ok r' ->
       Forall (fun s => stored s d') l /\ handled r' = (handled r + N.of_nat (length l))%N.
Proof.
  revert r d. induction l as [|s l IH]; intros r d Hm; cbn [gfold].
  { intros [= <- <-]. split_and!; [done..|]. intros r' [= <-]. split; [constructor|simpl; lia]. }
  rewrite run_alone_bind. destruct (run_alone (import at_ r s) d) as [[r1|e] d1] eqn:Hs.
  - destruct (importer_stores _ _ _ _ _ _ Hm Hs) as (Hm1 & E1 & Hst & Hr1). intros Hf.
    destruct (IH _ _ Hm1 Hf) as (Hm' & E' & Hok). split_and!; [done|by etrans|]. intros r' Hr'.
    destruct (Hok _ Hr') as [Hall Hc]. split; [|simpl; lia].
    constructor; [by eapply (importer_kept s d1)|done].
  - rewrite (importer_fails _ _ _ _ _ _ Hs). intros [= <- <-]. split_and!; by try done.
Qed.

Lemma fold_reuses at_ l r d :
  Forall (fun s => stored s d) l ->
  run_alone (gfold (import at_) r l) d = (Ok (reused_times (N.of_nat (length l)) r), d).
Proof.
  revert r. induction l as [|s l IH]; intros r Hall; cbn [gfold].
  - unfold reused_times. simpl. rewrite N.add_0_r. by destruct r.
  - apply list.Forall_cons in Hall as [Hs Hall]. rewrite run_alone_bind, (importer_reuses _ _ _ _ Hs), (IH _ Hall).
    unfold reused_times, reused. simpl. do 3 f_equal. lia.
Qed.
End Fold.

(** ** The catalog importers *)

(** The shape of an import: look the record up, compare or insert. *)
Definition import_record {A B} (found : DB -> option A) (same : A -> bool) (error : Error) (insert : Tx DB B)
    (report : ImportReport) : Prog DB ImportReport :=
  let& o := await (treads found) in
  match o with
  | Some existing => if same existing then gret (reused report) else glift (Err error)
  | None => await insert ;& gret (created report)
  end.

Lemma run_import_record {A B} found (same : A -> bool) error (insert : Tx DB B) r d :
  run_alone (import_record found same error insert r) d
  = match found d with
    | Some existing => if same existing then (Ok (reused r), d) else (Err error, d)
    | None => match insert d with Ok (_, d') => (Ok (created r), d') | Err e => (Err e, d) end
    end.
Proof.
  unfold import_record. rewrite run_alone_bind.
  change (run_alone (await (treads found)) d) with (Ok (found d) : Result Error _, d). cbv beta iota.
  destruct (found d) as [existing|]; [by destruct (same existing)|].
  rewrite run_alone_bind. simpl. unfold transaction. by destruct (insert d) as [[b d1]|e].
Qed.

Lemma handled_reused r : handled (reused r) = (handled r + 1)%N.
Proof. unfold handled, reused. simpl. lia. Qed.
Lemma handled_created r : handled (created r) = (handled r + 1)%N.
Proof. unfold handled, created. simpl. lia. Qed.

(** The importer that a guard and such a shape make. *)
Lemma record_importer {Spec A B} (import : Z -> ImportReport -> Spec -> Prog DB ImportReport)
    (guard : Spec -> Result Error unit) (found : Spec -> DB -> option A) (same : Spec -> A -> bool)
    (error : Spec -> Error) (insert : Z -> Spec -> Tx DB B) (stored : Spec -> DB -> Prop) :
  (forall at_ r s, import at_ r s
     = (glift (guard s) ;& import_record (found s) (same s) (error s) (insert at_ s) r)) ->
  (forall at_ s d b d', managed d -> found s d = None -> guard s = Ok tt -> insert at_ s d = Ok (b, d') ->
     (exists op, run_catalog op d = Ok (tt, d')) /\ extends d d' /\ exists a, found s d' = Some a /\ same s a = true) ->
  (forall s d d' a, extends d d' -> found s d = Some a -> found s d' = Some a) ->
  (forall s d, stored s d <-> guard s = Ok tt /\ exists a, found s d = Some a /\ same s a = true) ->
  Importer import stored.
Proof.
  intros Himp Hins Hkept Hst. split.
  - intros at_ r s d e d'. rewrite Himp, run_alone_bind. simpl run_alone at 1. destruct (guard s) as [u|g]; [|by intros [= _ <-]].
    rewrite run_import_record. destruct (found s d) as [a|]; [destruct (same s a); by intros [= _ <-]|].
    destruct (insert at_ s d) as [[b d1]|]; [done|by intros [= _ <-]].
  - intros at_ r s d r' d' Hm. rewrite Himp, run_alone_bind. simpl run_alone at 1. destruct (guard s) as [[]|g] eqn:Hg; [|done].
    rewrite run_import_record. destruct (found s d) as [a|] eqn:Hf.
    + destruct (same s a) eqn:Hs; [|done]. intros [= <- <-]. split_and!; try done; [apply Hst; by eauto|apply handled_reused].
    + destruct (insert at_ s d) as [[b d1]|] eqn:Hi; [|done]. intros [= <- <-].
      destruct (Hins _ _ _ _ _ Hm Hf Hg Hi) as ((op & Hop) & Hx & Ha). split_and!; try done; [|by apply Hst|apply handled_created].
      eapply rtc_r; [exact Hm|]. by eapply mstep_catalog.
  - intros s d d' _ _ Hx (Hg & a & Ha & Hs)%Hst. apply Hst. split; [done|]. exists a. split; [by eapply Hkept|done].
  - intros at_ r s d (Hg & a & Ha & Hs)%Hst. rewrite Himp, run_alone_bind. simpl run_alone at 1. rewrite Hg.
    by rewrite run_import_record, Ha, Hs.
Qed.

#[export] Instance client_importer : Importer import_client client_stored.
Proof.
  apply (record_importer _ (fun _ => Ok tt) (fun s d => t_client d !! cs_id s)
           (fun s c => same_client c (client_into_domain s 0)) (fun s => drift "client" (cs_id s))
           (fun at_ s => insert_client (client_into_domain s at_))); [done| | |].
  - intros at_ s d b d' _ Hnone _ Hi. split_and!; [|by eapply insert_client_extending|].
    + exists (CatInsertClient (client_into_domain s at_)). simpl. unfold tbind. by rewrite Hi.
    + unfold insert_client, entity_insert_returning in Hi. catalog_inv. exists (client_into_domain s at_).
      split; [apply lookup_insert_eq|]. unfold same_client. simpl. by rewrite !bool_decide_true.
  - intros s d d' a [Hx _ _ _ _ _ _ _] Ha. by eapply lookup_weaken.
  - intros s d. unfold client_stored. split.
    + intros (c & u & Hc). split; [done|]. eexists. split; [exact Hc|]. by apply same_client_iff.
    + intros (_ & a & Ha & Hs%same_client_iff). do 2 eexists. rewrite Ha. by f_equal.
Qed.
#[export] Instance scenario_importer : Importer import_scenario scenario_stored.
Proof.
  apply (record_importer _ (fun _ => Ok tt) (fun s d => t_scenario d !! ns_id s)
           (fun s c => same_scenario c (scenario_into_domain s 0)) (fun s => drift "scenario" (ns_id s))
           (fun at_ s => register_scenario (scenario_into_domain s at_))); [done| | |].
  - intros at_ s d b d' _ Hnone _ Hi. split_and!; [|by eapply register_scenario_extending|].
    + exists (CatRegisterScenario (scenario_into_domain s at_)). simpl. unfold tbind. by rewrite Hi.
    + unfold register_scenario, entity_register in Hi. run_inv. apply tmap_err_ok in Hi. run_inv.
      cbn [tb_rows scenario_table tb_key sc_id scenario_into_domain] in Hi. rewrite Hnone in Hi. catalog_inv.
      exists (scenario_into_domain s at_). split; [apply lookup_insert_eq|]. unfold same_scenario. simpl.
      by rewrite !bool_decide_true.
  - intros s d d' a [_ Hx _ _ _ _ _ _] Ha. by eapply lookup_weaken.
  - intros s d. unfold scenario_stored. split.
    + intros (c & u & Hc). split; [done|]. eexists. split; [exact Hc|]. by apply same_scenario_iff.
    + intros (_ & a & Ha & Hs%same_scenario_iff). do 2 eexists. rewrite Ha. by f_equal.
Qed.

Lemma guard_ok {A} (f : A -> Error) (r : Result A unit) : map_err f r = Ok tt <-> r = Ok tt.
Proof. by destruct r as [[]|]. Qed.

#[export] Instance policy_importer : Importer import_policy policy_stored.
Proof.
  apply (record_importer _ (fun s => map_err (fun field => InvalidRequest ("invalid imported policy " ++ field))
                                       (PaymentPolicy_validate (policy_into_domain s 0)))
           (fun s d => t_policy d !! qs_id s) (fun s p => same_policy p (policy_into_domain s 0))
           (fun s => drift "policy" (qs_id s)) (fun at_ s => policy_insert (policy_into_domain s at_)));
    [done| | |].
  - intros at_ s d b d' [_ Hco]%managed_ok Hnone _ Hi. split_and!; [|by eapply policy_insert_extending|].
    + exists (CatInsertPolicy (policy_into_domain s at_)). simpl. unfold tbind. by rewrite Hi.
    + apply policy_insert_ok in Hi as (_ & _ & Hp); [|done]. exists (policy_into_domain s at_). split; [done|].
      by apply bool_decide_true.
  - intros s d d' a [_ _ _ _ Hx _ _ _] Ha. by eapply lookup_weaken.
  - intros s d. rewrite guard_ok. unfold policy_stored, same_policy. apply and_iff_compat_l. split.
    + intros (c & u & Hc). eexists. split; [exact Hc|]. by apply bool_decide_true.
    + intros (a & Ha & Hs%bool_decide_eq_true). do 2 eexists. rewrite Ha. by f_equal.
Qed.

#[export] Instance price_importer : Importer import_price price_stored.
Proof.
  apply (record_importer _ (fun s => map_err (fun field => InvalidRequest ("invalid imported price " ++ field))
                                       (PaymentPrice_validate (price_into_domain s 0)))
           (fun s d => t_price d !! rs_id s) (fun s p => same_price p (price_into_domain s 0))
           (fun s => drift "price" (rs_id s)) (fun at_ s => price_insert (price_into_domain s at_)));
    [done| | |].
  - intros at_ s d b d' _ Hnone _ Hi. split_and!; [|by eapply price_insert_extending|].
    + exists (CatInsertPrice (price_into_domain s at_)). simpl. unfold tbind. by rewrite Hi.
    + unfold price_insert, insert_price in Hi. catalog_inv. exists (price_into_domain s at_).
      split; [apply lookup_insert_eq|]. by apply bool_decide_true.
  - intros s d d' a [_ _ _ _ _ Hx _ _] Ha. by eapply lookup_weaken.
  - intros s d. rewrite guard_ok. unfold price_stored, same_price. apply and_iff_compat_l. split.
    + intros (c & u & Hc). eexists. split; [exact Hc|]. by apply bool_decide_true.
    + intros (a & Ha & Hs%bool_decide_eq_true). do 2 eexists. rewrite Ha. by f_equal.
Qed.

#[export] Instance approver_importer : Importer import_approver approver_stored.
Proof.
  apply (record_importer _ (fun _ => Ok tt) (fun s d => t_approver d !! (as_scenario_id s, as_auth_principal s))
           (fun s a => apr_enabled a == as_enabled s)
           (fun s => drift "scenario approver" (as_scenario_id s ++ "/" ++ as_auth_principal s))
           (fun at_ s => upsert_approver (approver_into_domain s at_)));
    [done| | |intros s d; unfold approver_stored; setoid_rewrite bool_decide_eq_true; naive_solver].
  - intros at_ s d b d' _ Hnone _ Hi. destruct (upsert_new_approver _ _ _ _ Hi Hnone) as [Hx Ha]. split_and!; [|done|].
    + exists (CatUpsertApprover (approver_into_domain s at_)). simpl. unfold tbind. by rewrite Hi.
    + exists (approver_into_domain s at_). split; [done|]. by apply bool_decide_true.
  - intros s d d' a [_ _ Hx _ _ _ _ _] Ha. by eapply lookup_weaken.
Qed.

(** ** The wallet importer *)

Lemma active_key_kept d d' id x :
  catalog_ok d' -> extends d d' -> active_key d id = Some x -> active_key d' id = Some x.
Proof.
  intros Hco Hx (j & Hj & <- & Hact)%active_key_Some. eapply active_key_unique; [done| |done].
  by eapply lookup_weaken, xt_keys.
Qed.

(** The active key version that the join finds fits the wallet row. *)
Definition version_fits (w : PaymentWallet) : Prop :=
  ((pw_custody w == External) && is_some (pw_active_key_version w)) || (pw_active_key_version w == Some 0%N) = false.
Lemma joined_version_fits d id row :
  catalog_ok d -> t_wallet d !! id = Some row ->
  version_fits (with_active_key_version row (k_version <$> active_key d id)).
Proof.
  intros Hco Hrow. unfold version_fits. simpl. destruct (active_key d id) as [x|] eqn:Ha; simpl.
  - apply active_key_Some in Ha as (j & Hj & <- & Hact). destruct (co_key_owner _ Hco _ _ Hj) as (w & Hw & Hl & _).
    simplify_eq. rewrite Hl. simpl. apply bool_decide_false. intros [= Hv].
    pose proof (tok_checked _ _ (co_keys _ Hco) _ _ Hj) as Hc. simpl in Hc. unfold key_checks in Hc. bool_inv.
    rewrite Hv in *. done.
  - by rewrite andb_false_r.
Qed.

Lemma metadata_kept w w' :
  validate_payment_metadata w = Ok tt -> wallet_extends w w' -> version_fits w' -> validate_payment_metadata w' = Ok tt.
Proof.
  unfold validate_payment_metadata, version_fits. intros Hv [_ _ _ Ep Ed Hu] ->. simpl. rewrite Ep, Ed.
  destruct (reject_if _ "active_key_version") as [[]|]; [|done]. simpl in Hv.
  destruct Hu as [->|(Hn & u & -> & Hu)]; [done|]. rewrite Hn in Hv. rewrite Hu. simpl.
  by destruct (reject_if _ "budget_unit") as [[]|].
Qed.

(** The record that the join and canonicalization make of a row. *)
Definition joined (d : DB) (id : string) (row : PaymentWallet) (address : string) : PaymentWallet :=
  payment_wallet_with (with_active_key_version row (k_version <$> active_key d id))
                      (wallet_with_address (pw_wallet row) address).
Lemma load_wallet_joined d id w :
  load_payment_wallet id d = Ok (Some w, d) <->
  exists row a, t_wallet d !! id = Some row
    /\ canonicalize_wallet_address (w_algorithm (pw_wallet row)) (w_address (pw_wallet row)) = Ok a
    /\ validate_payment_metadata (joined d id row a) = Ok tt /\ w = joined d id row a.
Proof.
  unfold load_payment_wallet, tbind, tget. destruct (t_wallet d !! id) as [row|]; [|by split; [|intros (? & ? & ? & _)]].
  unfold tlift, PaymentWallet_canonicalized, Wallet_canonicalized. cbn [pw_wallet with_active_key_version].
  destruct (canonicalize_wallet_address _ _) as [a|e] eqn:Ha; cbn -[validate_payment_metadata];
    [|split; [done|]; intros (? & ? & [= <-] & ? & _); congruence].
  fold (joined d id row a). destruct (validate_payment_metadata (joined d id row a)) as [[]|e] eqn:Hv; simpl.
  - split; [intros [= <-]; by exists row, a|]. intros (? & ? & [= <-] & Ha' & _ & ->). rewrite Ha in Ha'. by injection Ha' as ->.
  - split; [done|]. intros (? & ? & [= <-] & Ha' & Hv' & _). rewrite Ha in Ha'. injection Ha' as <-. congruence.
Qed.

Lemma load_wallet_kept d d' id w :
  catalog_ok d' -> extends d d' -> load_payment_wallet id d = Ok (Some w, d) ->
  exists w', load_payment_wallet id d' = Ok (Some w', d') /\ wallet_extends w w'
    /\ (is_some (pw_active_key_version w) = true -> is_some (pw_active_key_version w') = true).
Proof.
  intros Hco Hx (row & a & Hrow & Ha & Hv & ->)%load_wallet_joined.
  destruct (xt_wallets _ _ Hx _ _ Hrow) as (row' & Hrow' & Hext). pose proof (joined_version_fits _ _ _ Hco Hrow') as Hfits.
  assert (wallet_extends (joined d id row a) (joined d' id row' a)) as Hj.
  { destruct Hext as [Ew Ec Ee Ep Ed Eu]. split; simpl; try done. by rewrite Ew. }
  exists (joined d' id row' a). split_and!; [|done|].
  - apply load_wallet_joined. exists row', a. rewrite (we_wallet _ _ Hext). split_and!; try done. by eapply metadata_kept.
  - simpl. destruct (active_key d id) as [x|] eqn:Hk; [|done]. by rewrite (active_key_kept _ _ _ _ Hco Hx Hk).
Qed.

Lemma drifted_kept s w e e' :
  wallet_drifted s w e = false -> wallet_extends e e' ->
  (is_some (pw_active_key_version e) = true -> is_some (pw_active_key_version e') = true) ->
  wallet_drifted s w e' = false.
Proof.
  unfold wallet_drifted. intros Hd [-> -> -> -> -> Hu] Hk. rewrite !orb_false_iff in Hd |- *.
  destruct Hd as [[[[[[Hw Hc] He] Hun] Hp] Hdy] Ha]. split_and!; try done.
  - destruct (vs_budget_unit s) as [u|]; [|done]. simpl in *. destruct Hu as [->|(Hn & _)]; [done|]. by rewrite Hn in Hun.
  - destruct (source_is_local _); [|done]. simpl in *. destruct (pw_active_key_version e); [|done].
    simpl in Hk. by destruct (pw_active_key_version e'); [|specialize (Hk eq_refl)].
Qed.

(** A program whose failure leaves the database as it was. *)
Class Atomic {A} (p : Prog DB A) : Prop := atomic : forall d e d', run_alone p d = (Err e, d') -> d' = d.
#[export] Instance lift_atomic {A} (r : Result Error A) : Atomic (glift r).
Proof. by intros d e d' [= _ <-]. Qed.
#[export] Instance await_atomic {A} (m : Tx DB A) : Atomic (await m).
Proof. intros d e d'. simpl. unfold transaction. destruct (m d) as [[a d1]|]; [done|by intros [= _ <-]]. Qed.
#[export] Instance lift_bind_atomic {A B} (r : Result Error A) (k : A -> Prog DB B) :
  (forall a, Atomic (k a)) -> Atomic (gbind (glift r) k).
Proof. intros Hk d e d'. rewrite run_alone_bind. destruct r; [apply Hk|by intros [= _ <-]]. Qed.
#[export] Instance read_bind_atomic {A B} (m : Tx DB A) (k : A -> Prog DB B) :
  ReadOnly m -> (forall a, Atomic (k a)) -> Atomic (gbind (await m) k).
Proof.
  intros Hm Hk d e d'. rewrite run_alone_bind. simpl. unfold transaction. destruct (m d) as [[a d1]|] eqn:Hd.
  - rewrite (read_only _ _ _ Hd). apply Hk.
  - by intros [= _ <-].
Qed.
#[export] Instance return_atomic {A B} (p : Prog DB A) (b : B) : Atomic p -> Atomic (p ;& gret b).
Proof. intros Hp d e d'. rewrite run_alone_bind. destruct (run_alone p d) as [[a|e1] d1] eqn:Hr; [done|]. intros [= _ <-]. by eapply Hp. Qed.

Section WalletImport.
Context `{SecpKeys, SolanaKeys, EvmCrypto, Aead, UuidNonce} `{!SolanaPubkeyLaws, !SolanaPubkeyText}.
Variable read_env : string -> string -> N -> Result Error string.

Definition wallet_stored (s : WalletSpec) (d : DB) : Prop :=
  exists expected key w, wallet_material read_env s 0 = Ok (expected, key)
    /\ load_payment_wallet (vs_id s) d = Ok (Some w, d) /\ wallet_matches s expected w.

(** The time of the import does not matter. *)
Lemma wallet_material_time s a b w key :
  wallet_material read_env s a = Ok (w, key) ->
  exists w', wallet_material read_env s b = Ok (w', key) /\ forall e, wallet_drifted s w' e = wallet_drifted s w e.
Proof.
  unfold wallet_material. destruct (vs_source s) as [alg env|alg addr pk]; intros Hm.
  - run_inv. eexists. repeat match goal with Hr : _ = Ok _ |- _ => rewrite Hr; clear Hr; simpl end.
    split; [reflexivity|by intros e].
  - run_inv. unfold Wallet_canonicalized in *. run_inv. simpl in *. eexists.
    match goal with Hr : canonicalize_wallet_address _ _ = Ok _ |- _ => rewrite Hr end. simpl. split; [reflexivity|by intros e].
Qed.

(** The record of a row that has just been written. *)
Lemma fresh_wallet_loaded w custody c d :
  catalog_ok d -> t_wallet d !! w_id w = Some (wallet_row w custody c) -> validate_creation_config c = Ok tt ->
  (exists a, canonicalize_wallet_address (w_algorithm w) a = Ok (w_address w)) ->
  exists v, load_payment_wallet (w_id w) d = Ok (Some (with_active_key_version (wallet_row w custody c) v), d)
    /\ v = k_version <$> active_key d (w_id w).
Proof.
  intros Hco Hrow Hc [a Ha]. pose proof (joined_version_fits _ _ _ Hco Hrow) as Hfits.
  exists (k_version <$> active_key d (w_id w)). split; [|done].
  assert (joined d (w_id w) (wallet_row w custody c) (w_address w)
          = with_active_key_version (wallet_row w custody c) (k_version <$> active_key d (w_id w))) as Hj.
  { unfold joined. by destruct w. }
  apply load_wallet_joined. exists (wallet_row w custody c), (w_address w). rewrite Hj. split_and!; try done.
  - by eapply canonicalize_wallet_idempotent.
  - unfold version_fits in Hfits. unfold validate_payment_metadata. rewrite Hfits. simpl.
    unfold validate_creation_config in Hc. apply guard_ok in Hc. exact Hc.
Qed.

Lemma fresh_not_drifted s w w' custody v :
  same_wallet w' w = true -> custody = source_custody (vs_source s) ->
  (source_is_local (vs_source s) = true -> is_some v = true) ->
  wallet_drifted s w (with_active_key_version (wallet_row w' custody (creation_config s)) v) = false.
Proof.
  intros Hw -> Hv. unfold wallet_drifted. simpl. rewrite Hw, !bool_decide_true by done. simpl.
  rewrite !orb_false_iff. split_and!; try done.
  - destruct (vs_budget_unit s); [|done]. simpl. by rewrite bool_decide_true.
  - destruct (source_is_local _); [|done]. specialize (Hv eq_refl). by destruct v.
Qed.

Lemma external_wallet_created s alg addr pk at_ w key d x d' :
  managed d -> vs_source s = SourceExternal alg addr pk -> wallet_material read_env s at_ = Ok (w, key) ->
  create_external_configured w (creation_config s) d = Ok (x, d') ->
  managed d' /\ extends d d'
  /\ exists e, load_payment_wallet (vs_id s) d' = Ok (Some e, d') /\ wallet_drifted s w e = false.
Proof.
  intros Hm Hs Hw Hc. assert (managed d') as Hm'.
  { eapply rtc_r; [exact Hm|]. apply (mstep_catalog (CatCreateExternal w (creation_config s))).
    simpl. unfold tbind. by rewrite Hc. }
  split_and!; [done|by eapply create_external_extending|].
  unfold wallet_material in Hw. rewrite Hs in Hw. unfold Wallet_canonicalized in Hw. run_inv. simpl in *.
  unfold create_external_configured, canonical_wallet, Wallet_canonicalized, insert_wallet in Hc. run_inv. simpl in *.
  match goal with Hfst : canonicalize_wallet_address _ addr = Ok ?a, Hsnd : canonicalize_wallet_address _ ?a = Ok ?b |- _ =>
    pose proof (canonicalize_wallet_idempotent _ _ _ Hfst) as Hid; rewrite Hsnd in Hid; injection Hid as -> end.
  match goal with Hv : validate_creation_config _ = Ok ?u |- _ => destruct u end.
  match goal with Hi : sql_insert _ ?row _ _ = Ok (_, ?d1) |- _ =>
    apply sql_insert_ok in Hi as (_ & _ & _ & _ & Hd); destruct (fresh_wallet_loaded (pw_wallet row) External (creation_config s) d1)
      as (v & Hl & _) end.
  - by destruct (managed_ok _ Hm').
  - subst. apply lookup_insert_eq.
  - done.
  - simpl. eauto.
  - eexists. split; [exact Hl|]. apply fresh_not_drifted; [unfold same_wallet; by rewrite !bool_decide_true|by rewrite Hs|by rewrite Hs].
Qed.

Lemma create_local_stores w k c d x d' :
  create_local_configured w k c d = Ok (x, d') ->
  canonicalize_wallet_address (w_algorithm w) (w_address w) = Ok (w_address x)
  /\ x = wallet_with_address w (w_address x) /\ k_address k = w_address x /\ validate_creation_config c = Ok tt
  /\ t_wallet d' !! w_id x = Some (wallet_row x Local c) /\ t_key d' !! (k_wallet_id k, k_version k) = Some k
  /\ k_status k = KeyActive /\ k_wallet_id k = w_id x.
Proof.
  unfold create_local_configured, canonical_wallet, Wallet_canonicalized, validate_key_for_wallet, insert_wallet. intros Hc.
  run_inv. bool_inv. simpl in *. bool_inv.
  match goal with Hi : insert_key _ _ = Ok _ |- _ => apply insert_key_ok in Hi as (? & _ & _ & _ & _ & _ & _ & ->) end.
  match goal with Hi : sql_insert _ _ _ _ = Ok _ |- _ => apply sql_insert_ok in Hi as (_ & _ & _ & _ & ->) end.
  match goal with Hv : validate_creation_config _ = Ok ?u |- _ => destruct u end.
  split_and!; try done; simpl; apply lookup_insert_eq.
Qed.

Lemma local_wallet_created ring draws s alg env at_ w key d x d' :
  managed d -> vs_source s = SourceLocal alg env -> wallet_material read_env s at_ = Ok (w, Some key) ->
  run_alone (create_wallet ring draws (vs_id s) alg key (creation_config s) at_) d = (Ok x, d') ->
  managed d' /\ extends d d'
  /\ exists e, load_payment_wallet (vs_id s) d' = Ok (Some e, d') /\ wallet_drifted s w e = false.
Proof.
  intros Hm Hs Hw Hr. unfold create_wallet in Hr. prog_inv.
  match goal with Hc : create_local_configured ?w0 ?k _ _ = Ok _, He : encrypt_version _ _ _ _ _ _ = Ok _,
                  Hp : wallet_from_private_key _ _ _ _ = Ok _ |- _ =>
    rename Hc into Hcreate; rename He into Henc; rename Hp into Hpriv end.
  assert (managed d') as Hm'.
  { eapply rtc_r; [exact Hm|]. match type of Hcreate with create_local_configured ?w0 ?k ?c _ = _ =>
      apply (mstep_catalog (CatCreateLocal w0 k c)) end. simpl. unfold tbind. by rewrite Hcreate. }
  split_and!; [done|by eapply create_local_extending|]. pose proof (proj2 (managed_ok _ Hm')) as Hco.
  assert (x2 = w) as ->.
  { unfold wallet_material in Hw. rewrite Hs in Hw. unfold wallet_from_private_key in Hpriv. run_inv.
    unfold domain_wallet. rewrite Hs. simplify_eq.
    match goal with Ha : payment_key_metadata _ _ = Ok _, Hb : payment_key_metadata _ _ = Ok _ |- _ =>
      rewrite Ha in Hb; by injection Hb as -> end. }
  destruct (create_local_stores _ _ _ _ _ _ Hcreate) as (Hca & Hx & Hka & Hcfg & Hrow & Hkey & Hact & Hkid).
  assert (k_address x4 = w_address w) as Hw4 by (unfold encrypt_version in Henc; cbv zeta in Henc; run_inv; done).
  assert (w_id w = vs_id s) as Hid by (unfold wallet_from_private_key in Hpriv; run_inv; done).
  rewrite Hw4 in Hka. rewrite <- Hka in Hx. assert (x = w) as -> by (rewrite Hx; by destruct w).
  destruct (fresh_wallet_loaded _ _ _ _ Hco Hrow Hcfg (ex_intro _ _ Hca)) as (v & Hl & ->).
  eexists. rewrite Hid in Hl. split; [exact Hl|]. apply fresh_not_drifted; [unfold same_wallet; by rewrite !bool_decide_true|by rewrite Hs|].
  intros _. rewrite <- Hid, <- Hkid, (active_key_unique _ _ _ Hco Hkey Hact). done.
Qed.

Context (ring : WalletKeyRing) (draws : string -> EnvelopeDraws).

Lemma load_read_only id d o d' : load_payment_wallet id d = Ok (o, d') -> d' = d.
Proof. apply (read_only (m := load_payment_wallet id)). Qed.

Lemma import_wallet_stores at_ r s d r' d' :
  managed d -> run_alone (import_wallet read_env ring draws at_ r s) d = (Ok r', d') ->
  managed d' /\ extends d d' /\ wallet_stored s d' /\ handled r' = (handled r + 1)%N.
Proof.
  intros Hm Hr. unfold import_wallet in Hr. prog_inv.
  match goal with Hl : load_payment_wallet _ _ = Ok (?o, _), Hw : wallet_material _ _ _ = Ok ?m |- _ =>
    pose proof (load_read_only _ _ _ _ Hl) as ->; destruct o as [e|]; destruct m as [w key];
    destruct (wallet_material_time _ _ 0 _ _ Hw) as (w0 & Hw0 & Hd0); rename Hl into Hload, Hw into Hmat end; cbn [fst snd] in *.
  - destruct (wallet_drifted s w e) eqn:Hd; [done|]. prog_inv. split_and!; [done..| |apply handled_reused].
    exists w0, key, e. by rewrite <- not_drifted_iff, Hd0.
  - assert (forall d1, (managed d1 /\ extends d d1
              /\ exists e, load_payment_wallet (vs_id s) d1 = Ok (Some e, d1) /\ wallet_drifted s w e = false) ->
            managed d1 /\ extends d d1 /\ wallet_stored s d1 /\ handled (created r) = (handled r + 1)%N) as Hdone.
    { intros d1 (Hm1 & Hx1 & e & Hl1 & He1). split_and!; [done..| |apply handled_created]. exists w0, key, e. by rewrite <- not_drifted_iff, Hd0. }
    destruct (vs_source s) as [alg env|alg addr pk] eqn:Hs; prog_inv.
    + apply Hdone. by eapply local_wallet_created.
    + apply Hdone. by eapply external_wallet_created.
Qed.

#[export] Instance wallet_importer : Importer (import_wallet read_env ring draws) wallet_stored.
Proof.
  split.
  - intros at_ r s. enough (Atomic (import_wallet read_env ring draws at_ r s)) as Ha by exact Ha.
    unfold import_wallet, create_wallet. apply lift_bind_atomic. intros m. apply read_bind_atomic; [apply _|]. intros [e|].
    + destruct (wallet_drifted _ _ _); apply _.
    + destruct (vs_source s); apply _.
  - apply import_wallet_stores.
  - intros s d d' _ Hm' Hx (w & key & e & Hw & Hl & Hd%not_drifted_iff).
    destruct (load_wallet_kept _ _ _ _ (proj2 (managed_ok _ Hm')) Hx Hl) as (e' & Hl' & Hext & Hk).
    exists w, key, e'. split_and!; [done..|]. apply not_drifted_iff. by eapply drifted_kept.
  - intros at_ r s d (w & key & e & Hw & Hl & Hd%not_drifted_iff). destruct (wallet_material_time _ _ at_ _ _ Hw) as (w' & Hw' & Hd').
    unfold import_wallet. rewrite run_alone_bind, Hw'. simpl. unfold transaction. rewrite Hl. simpl. by rewrite Hd', Hd.
Qed.

(** ** Whole imports *)

(** Every resource of the batch is in the catalog as declared. *)
Record declared (b : ImportBatch) (d : DB) : Prop := {
  de_clients : Forall (fun s => client_stored s d) (ib_clients b);
  de_wallets : Forall (fun s => wallet_stored s d) (ib_wallets b);
  de_scenarios : Forall (fun s => scenario_stored s d) (ib_scenarios b);
  de_policies : Forall (fun s => policy_stored s d) (ib_policies b);
  de_prices : Forall (fun s => price_stored s d) (ib_prices b);
  de_approvers : Forall (fun s => approver_stored s d) (ib_approvers b)
}.
Definition batch_size (b : ImportBatch) : N :=
  N.of_nat (length (ib_clients b) + length (ib_wallets b) + length (ib_scenarios b) + length (ib_policies b)
            + length (ib_prices b) + length (ib_approvers b)).

(** What a program leaves behind, however it ends, and when it succeeds. *)
Definition leaves {A} (p : Prog DB A) (d : DB) (Q : A -> DB -> Prop) : Prop :=
  forall res d', run_alone p d = (res, d') -> managed d' /\ extends d d' /\ forall a, res = Ok a -> Q a d'.

Lemma leaves_bind {A B} (p : Prog DB A) (k : A -> Prog DB B) d Q R :
  leaves p d Q -> (forall a d1, managed d1 -> extends d d1 -> Q a d1 -> leaves (k a) d1 R) -> leaves (gbind p k) d R.
Proof.
  intros Hp Hk res d'. rewrite run_alone_bind. destruct (run_alone p d) as [[a|e] d1] eqn:Hr.
  - destruct (Hp _ _ Hr) as (Hm1 & Hx1 & HQ). intros Hk1.
    destruct (Hk _ _ Hm1 Hx1 (HQ _ eq_refl) _ _ Hk1) as (Hm' & Hx' & HR). split_and!; [done|by etrans|done].
  - intros [= <- <-]. destruct (Hp _ _ Hr) as (? & ? & _). by split_and!.
Qed.
Lemma leaves_lift {A} (r : Result Error A) d : managed d -> leaves (glift r) d (fun a _ => r = Ok a).
Proof. intros Hm res d' [= <- <-]. by split_and!. Qed.

Section Step.
Context {Spec : Type} (import : Z -> ImportReport -> Spec -> Prog DB ImportReport) (stored : Spec -> DB -> Prop).
Context `{!Importer import stored}.
Lemma leaves_fold at_ l r d :
  managed d ->
  leaves (gfold (import at_) r l) d
         (fun r' d' => Forall (fun s => stored s d') l /\ handled r' = (handled r + N.of_nat (length l))%N).
Proof. intros Hm res d' Hr. by eapply fold_imports. Qed.
Lemma all_kept l d d' :
  managed d -> managed d' -> extends d d' -> Forall (fun s => stored s d) l -> Forall (fun s => stored s d') l.
Proof. intros Hm Hm' Hx Hl. eapply list.Forall_impl; [exact Hl|]. intros s. by apply importer_kept. Qed.
End Step.

Lemma apply_batch_leaves b at_ d :
  managed d ->
  leaves (apply_batch read_env ring draws b at_) d (fun r d' => declared b d' /\ handled r = batch_size b).
Proof.
  intros Hm. unfold apply_batch. eapply leaves_bind; [by apply leaves_lift|]. intros _ d0 Hm0 _ _.
  eapply leaves_bind; [by apply (leaves_fold _ client_stored)|]. intros r1 d1 Hm1 X1 [F1 N1].
  eapply leaves_bind; [by apply (leaves_fold _ wallet_stored)|]. intros r2 d2 Hm2 X2 [F2 N2].
  eapply leaves_bind; [by apply (leaves_fold _ scenario_stored)|]. intros r3 d3 Hm3 X3 [F3 N3].
  eapply leaves_bind; [by apply (leaves_fold _ policy_stored)|]. intros r4 d4 Hm4 X4 [F4 N4].
  eapply leaves_bind; [by apply (leaves_fold _ price_stored)|]. intros r5 d5 Hm5 X5 [F5 N5].
  intros res d' Hr. destruct (leaves_fold _ approver_stored _ _ _ _ Hm5 _ _ Hr) as (Hm' & X6 & HQ).
  split_and!; [done..|]. intros r' Hr'. destruct (HQ _ Hr') as [F6 N6].
  assert (extends d5 d' /\ extends d4 d' /\ extends d3 d' /\ extends d2 d' /\ extends d1 d') as (Y5 & Y4 & Y3 & Y2 & Y1)
    by (split_and!; repeat (first [done | etrans; [eassumption|]])).
  split.
  - split; [by eapply (all_kept _ _ _ d1)|by eapply (all_kept _ _ _ d2)|by eapply (all_kept _ _ _ d3)
           |by eapply (all_kept _ _ _ d4)|by eapply (all_kept _ _ _ d5)|done].
  - unfold batch_size. rewrite N6, N5, N4, N3, N2, N1. unfold handled. simpl. lia.
Qed.

Lemma apply_batch_reuses b at_ d :
  declared b d -> (0 <= at_)%Z ->
  run_alone (apply_batch read_env ring draws b at_) d = (Ok {| ir_created := 0; ir_reused := batch_size b |}, d).
Proof.
  intros [D1 D2 D3 D4 D5 D6] Ht. unfold apply_batch.
  rewrite (proj2 (Z.ltb_ge at_ 0) Ht). rewrite run_alone_bind. cbn [glift run_alone reject_if].
  rewrite run_alone_bind, (fold_reuses _ client_stored _ _ _ _ D1).
  rewrite run_alone_bind, (fold_reuses _ wallet_stored _ _ _ _ D2).
  rewrite run_alone_bind, (fold_reuses _ scenario_stored _ _ _ _ D3).
  rewrite run_alone_bind, (fold_reuses _ policy_stored _ _ _ _ D4).
  rewrite run_alone_bind, (fold_reuses _ price_stored _ _ _ _ D5).
  rewrite (fold_reuses _ approver_stored _ _ _ _ D6).
  unfold reused_times, batch_size. simpl. do 3 f_equal. lia.
Qed.

Lemma import_leaves scope b at_ d :
  managed d ->
  leaves (import_resources read_env ring draws scope b at_) d
         (fun r d' => declared (normalize_batch b) d' /\ handled r = batch_size (normalize_batch b)).
Proof.
  intros Hm. unfold import_resources. eapply leaves_bind; [by apply leaves_lift|]. intros _ d1 Hm1 _ _.
  eapply leaves_bind; [by apply leaves_lift|]. intros _ d2 Hm2 _ _. by apply apply_batch_leaves.
Qed.
End WalletImport.

Section Theorems.
Context `{SecpKeys, SolanaKeys, EvmCrypto, Aead, UuidNonce} `{!SolanaPubkeyLaws, !SolanaPubkeyText}.

(** C26: an import only adds to the catalog.  However it ends, the database
    is one that administration leads to, every client, scenario, approver, key,
    policy and price that was stored is still stored unchanged, every wallet is,
    but for a valid budget unit given to one that had none, and no payment table
    is touched.  When it succeeds, every resource of the normalized batch is
    stored as declared, the one that existed before included, and the report
    counts each of them. *)
Theorem import_only_adds read_env ring draws scope b at_ d res d' :
  managed d -> run_alone (import_resources read_env ring draws scope b at_) d = (res, d') ->
  managed d' /\ extends d d'
  /\ forall r, res = Ok r ->
       declared read_env (normalize_batch b) d'
       /\ (ir_created r + ir_reused r)%N = batch_size (normalize_batch b).
Proof. intros Hm. by apply import_leaves. Qed.

(** C27: an import is idempotent.  After it has succeeded, the same batch at
    any later time, under any key ring and whatever its envelopes would draw,
    succeeds again, creates nothing, reports every resource as reused and leaves
    the database exactly as it is. *)
Theorem import_idempotent read_env ring draws ring' draws' scope b at_ later d r d' :
  managed d -> run_alone (import_resources read_env ring draws scope b at_) d = (Ok r, d') -> (0 <= later)%Z ->
  run_alone (import_resources read_env ring' draws' scope b later) d'
  = (Ok {| ir_created := 0; ir_reused := ir_created r + ir_reused r |}, d').
Proof.
  intros Hm Hr Hl. destruct (import_leaves _ _ _ _ _ _ _ Hm _ _ Hr) as (_ & _ & HQ).
  destruct (HQ _ eq_refl) as [Hd Hn]. unfold handled in Hn. rewrite Hn. unfold import_resources in *.
  rewrite run_alone_bind in *. destruct (validate_batch _) as [u|] eqn:Hv; [|done]. cbn [glift run_alone] in *.
  rewrite run_alone_bind in *. destruct (reject_if _ _) as [u1|] eqn:Hs; [|done]. cbn [glift run_alone] in *.
  by apply apply_batch_reuses.
Qed.
End Theorems.
End Imports.
