(* ===== verification/ResourceSamples.v ===== *)
(** * A declared vault

    A batch with one resource of each kind and two wallets, imported into an
    empty vault and then once more.  The hypotheses of [ResourceSafety] are
    evaluated on it. *)

From S2P Require Import Prelude Text Money Json Wallet Intent Policy Ledger Records Store Budget PaymentStore Program Samples IntentFlow System Sealing SigningService X402Sdk X402Samples CatalogTables WalletStore CatalogStore CatalogSafety CatalogRuns WalletKeys CustodySafety CustodySamples Mpp Resources ResourceSafety.

#[local] Open Scope string_scope.
#[local] Open Scope vault_scope.

Module SampleImport.
Import SampleX402.
#[local] Existing Instance Sample.parser.
#[local] Existing Instance SampleCustody.secp.
#[local] Existing Instance SampleCustody.solana.
#[local] Existing Instance SampleRing.cipher.
#[local] Existing Instance SampleRing.uuids.

(** Keys that are written with a tag of their own. *)
#[export] Instance tagged : SolanaPubkey :=
  {| Pubkey := string; pubkey_from_str := Text.strip_prefix "sol"; pubkey_to_string p := "sol" ++ p |}.
#[export] Instance tagged_laws : SolanaPubkeyLaws.
Proof. split. intros p. apply strip_prefix_app. Qed.
#[export] Instance tagged_text : SolanaPubkeyText.
Proof. done. Qed.

Definition read_env (variable what : string) (limit : N) : Result Error string :=
  Ok ("0x" ++ hex_encode SampleCustody.private_key).
Definition limits : PaymentPolicyLimits := Sample.limits.
Definition batch : ImportBatch :=
  {| ib_clients := [{| cs_id := "client-1"; cs_name := "Client"; cs_auth_principal := "principal-1"; cs_enabled := true |}];
     ib_wallets :=
       [{| vs_id := "wallet-2"; vs_enabled := true; vs_budget_unit := None; vs_max_per_payment := None;
           vs_max_per_day := None; vs_source := SourceExternal "ed25519" "solKey" "" |};
        {| vs_id := "wallet-1"; vs_enabled := true; vs_budget_unit := None; vs_max_per_payment := None;
           vs_max_per_day := None; vs_source := SourceLocal "secp256k1" "WALLET_KEY" |}];
     ib_scenarios := [{| ns_id := "scenario-1"; ns_client_id := "client-1"; ns_name := "Feed"; ns_enabled := true |}];
     ib_policies :=
       [{| qs_id := "policy-1"; qs_scenario_id := "scenario-1"; qs_wallet_ids := ["wallet-2"; "wallet-1"];
           qs_protocols := ["x402"; "mpp"]; qs_networks := ["eip155:8453"]; qs_assets := [sample_asset];
           qs_budget_unit := budget_unit sample_asset; qs_allowed_recipients := []; qs_allowed_origins := [];
           qs_inbound_limits := Some limits; qs_outbound_limits := Some limits; qs_enabled := true |}];
     ib_prices :=
       [{| rs_id := "price-1"; rs_scenario_id := "scenario-1"; rs_policy_id := "policy-1";
           rs_resource := "https://api.example/feed"; rs_protocols := ["x402"; "mpp"]; rs_asset := sample_asset;
           rs_amount := 250000; rs_wallet_id := "wallet-1"; rs_enabled := true |}];
     ib_approvers := [{| as_scenario_id := "scenario-1"; as_auth_principal := "approver-1"; as_enabled := true |}] |}.

Definition importing (at_ : Z) : Prog DB ImportReport :=
  import_resources read_env SampleCustody.ring (fun _ => SampleCustody.draws1) ScopeAll batch at_.
Definition imported : DB := snd (run_alone (importing 1700000000) empty_db).
Definition all_created : ImportReport := {| ir_created := 7; ir_reused := 0 |}.
Lemma imported_ok : run_alone (importing 1700000000) empty_db = (Ok all_created, imported).
Proof. vm_compute. reflexivity. Qed.

Lemma import_only_adds_witness :
  managed imported /\ extends empty_db imported
  /\ forall r, (Ok all_created : Result Error ImportReport) = Ok r ->
       declared read_env (normalize_batch batch) imported
       /\ (ir_created r + ir_reused r)%N = batch_size (normalize_batch batch).
Proof.
  apply (import_only_adds read_env SampleCustody.ring (fun _ => SampleCustody.draws1) ScopeAll batch 1700000000 empty_db
           (Ok all_created) imported).
  - constructor.
  - exact imported_ok.
Defined.

Lemma import_idempotent_witness :
  run_alone (import_resources read_env SampleCustody.next_ring (fun _ => SampleCustody.draws2) ScopeAll batch 1800000000)
            imported
  = (Ok {| ir_created := 0; ir_reused := 7 |}, imported).
Proof.
  apply (import_idempotent read_env SampleCustody.ring (fun _ => SampleCustody.draws1) SampleCustody.next_ring
           (fun _ => SampleCustody.draws2) ScopeAll batch 1700000000 1800000000 empty_db all_created imported).
  - constructor.
  - exact imported_ok.
  - discriminate.
Defined.

(** The budget unit that the policy gave to a wallet without one. *)
Example unit_derived : pw_budget_unit <$> t_wallet imported !! "wallet-2" = Some (Some (budget_unit sample_asset)).
Proof. vm_compute. reflexivity. Qed.

(** A client that was declared otherwise stops the import. *)
Example drift_refused :
  run_alone (import_resources read_env SampleCustody.ring (fun _ => SampleCustody.draws1) ScopeAll
               {| ib_clients := [{| cs_id := "client-1"; cs_name := "Client"; cs_auth_principal := "principal-1";
                                    cs_enabled := false |}];
                  ib_wallets := []; ib_scenarios := []; ib_policies := []; ib_prices := []; ib_approvers := [] |}
               1700000100) imported
  = (Err (drift "client" "client-1"), imported).
Proof. vm_compute. reflexivity. Qed.
End SampleImport.
