(* ===== verification/Cache.v ===== *)
(** * The process-local cache

    [src/src/cache/{cache,memory}.rs]: a bounded map with time-to-live entries
    that evicts the least recently used one.  A moment ([Instant]) is a number
    of nanoseconds, a [Duration] too; the clock reading of a call is its
    argument; moments are not bounded here (a time to live is at most a day, and
    [Instant] overflows only centuries ahead).  The lock makes each call one
    step of the state. *)

From S2P Require Import Prelude Text Money Json Wallet Intent Policy Ledger.

#[local] Open Scope string_scope.
#[local] Open Scope vault_scope.

Inductive CacheError : Type :=
| Unavailable (reason : string)
| InvalidValue (reason : string).

(** [validate_component] *)
Definition is_component_byte (c : ascii) : bool :=
  is_ascii_alphanumeric c || (c == "."%char) || (c == "_"%char) || (c == "-"%char).
Definition validate_component (value : string) : Result CacheError unit :=
  reject_if (is_empty value || (256 <? str_len value)%N || negb (bytes_all is_component_byte value))
            (InvalidValue "cache key component is unsafe").

(** [effective_ttl] *)
Definition effective_ttl (requested maximum : N) : Result CacheError N :=
  reject_if ((requested =? 0)%N || (maximum =? 0)%N) (InvalidValue "cache TTL must be positive") ;?
  Ok (N.min requested maximum).

(** ** State *)

Definition CacheKey : Type := string * string.
Record Entry : Type := {
  en_value : string;
  en_expires_at : N;
  en_last_access_sequence : N
}.
Record State : Type := {
  cs_entries : gmap CacheKey Entry;
  cs_next_access_sequence : N
}.
Record MemoryCache : Type := {
  mc_state : State;
  mc_initialized : bool;
  mc_closed : bool;
  mc_max_entries : N;
  mc_max_value_bytes : N;
  mc_default_ttl : N
}.

Definition MAX_CACHE_ENTRIES : N := 1000000.
Definition MAX_CACHE_VALUE_BYTES : N := 16777216.
(** Twenty-four hours *)
Definition MAX_CACHE_TTL : N := 86400000000000.

(** [MemoryCache::new] *)
Definition memory_cache_new (max_entries max_value_bytes default_ttl : N) : Result CacheError MemoryCache :=
  reject_if ((max_entries =? 0)%N || (MAX_CACHE_ENTRIES <? max_entries)%N || (max_value_bytes =? 0)%N
             || (MAX_CACHE_VALUE_BYTES <? max_value_bytes)%N || (default_ttl =? 0)%N || (MAX_CACHE_TTL <? default_ttl)%N)
            (InvalidValue "cache bounds or TTL are outside the supported range") ;?
  Ok {| mc_state := {| cs_entries := ∅; cs_next_access_sequence := 0 |}; mc_initialized := false; mc_closed := false;
        mc_max_entries := max_entries; mc_max_value_bytes := max_value_bytes; mc_default_ttl := default_ttl |}.

Definition with_state (c : MemoryCache) (s : State) : MemoryCache :=
  {| mc_state := s; mc_initialized := mc_initialized c; mc_closed := mc_closed c; mc_max_entries := mc_max_entries c;
     mc_max_value_bytes := mc_max_value_bytes c; mc_default_ttl := mc_default_ttl c |}.

Definition validate_value (c : MemoryCache) (value : string) : Result CacheError unit :=
  reject_if (mc_max_value_bytes c <? str_len value)%N (InvalidValue "cache value exceeds the configured limit").
Definition ensure_ready (c : MemoryCache) : Result CacheError unit :=
  reject_if (mc_closed c || negb (mc_initialized c))
            (Unavailable "memory cache is not initialized or has been closed").

(** [remove_expired] *)
Definition remove_expired (s : State) (now : N) : State :=
  {| cs_entries := filter (fun p => now < en_expires_at p.2)%N (cs_entries s);
     cs_next_access_sequence := cs_next_access_sequence s |}.

(** [last_access_sequence.cmp(..).then_with(|| left_key.cmp(right_key))] *)
Definition entry_compare (l r : CacheKey * Entry) : comparison :=
  match N.compare (en_last_access_sequence l.2) (en_last_access_sequence r.2) with
  | Eq => match str_compare l.1.1 r.1.1 with Eq => str_compare l.1.2 r.1.2 | c => c end
  | c => c
  end.
(** [min_by]: the first of the least elements *)
Definition min_step (best : option (CacheKey * Entry)) (x : CacheKey * Entry) : option (CacheKey * Entry) :=
  match best with
  | None => Some x
  | Some b => match entry_compare b x with Gt => Some x | _ => Some b end
  end.
Definition least_recently_used (s : State) : option CacheKey :=
  fst <$> foldl min_step None (map_to_list (cs_entries s)).

(** [make_room] *)
Definition make_room (c : MemoryCache) (s : State) (key : CacheKey) : State :=
  if (N.of_nat (size (cs_entries s)) <? mc_max_entries c)%N || is_some (cs_entries s !! key) then s
  else match least_recently_used s with
       | Some oldest => {| cs_entries := delete oldest (cs_entries s);
                           cs_next_access_sequence := cs_next_access_sequence s |}
       | None => s
       end.

(** [u64::saturating_add(1)] *)
Definition next_sequence (n : N) : N := N.min U64_MAX (n + 1).

(** [insert] *)
Definition cache_insert (c : MemoryCache) (s : State) (key : CacheKey) (value : string) (expires_at : N) : State :=
  let s := make_room c s key in
  let access_sequence := next_sequence (cs_next_access_sequence s) in
  {| cs_entries := <[key := {| en_value := value; en_expires_at := expires_at;
                               en_last_access_sequence := access_sequence |}]> (cs_entries s);
     cs_next_access_sequence := access_sequence |}.

(** ** [ICache] *)

Definition CacheCall (A : Type) : Type := MemoryCache -> Result CacheError A * MemoryCache.
(** What a call checks before it takes the lock. *)
Definition cache_checked {A B} (c : MemoryCache) (guard : Result CacheError A) (k : A -> B * MemoryCache)
  : Result CacheError B * MemoryCache :=
  match guard with
  | Ok a => let (b, c') := k a in (Ok b, c')
  | Err e => (Err e, c)
  end.

Definition cache_init : CacheCall unit := fun c =>
  if mc_closed c then (Err (Unavailable "memory cache has been closed"), c)
  else (Ok tt, {| mc_state := mc_state c; mc_initialized := true; mc_closed := mc_closed c;
                  mc_max_entries := mc_max_entries c; mc_max_value_bytes := mc_max_value_bytes c;
                  mc_default_ttl := mc_default_ttl c |}).

Definition key_guard (c : MemoryCache) (namespace key : string) : Result CacheError unit :=
  ensure_ready c ;? validate_component namespace ;? validate_component key.
Definition write_guard (c : MemoryCache) (namespace key value : string) (ttl : N) : Result CacheError N :=
  key_guard c namespace key ;? validate_value c value ;? effective_ttl ttl (mc_default_ttl c).

Definition touch (sequence : N) (e : Entry) : Entry :=
  {| en_value := en_value e; en_expires_at := en_expires_at e; en_last_access_sequence := sequence |}.
Definition cache_get (now : N) (namespace key : string) : CacheCall (option string) := fun c =>
  cache_checked c (key_guard c namespace key) (fun _ =>
    let s := remove_expired (mc_state c) now in
    let access_sequence := next_sequence (cs_next_access_sequence s) in
    (en_value <$> cs_entries s !! (namespace, key),
     with_state c {| cs_entries := alter (touch access_sequence) (namespace, key) (cs_entries s);
                     cs_next_access_sequence := access_sequence |})).

Definition cache_set (now : N) (namespace key value : string) (ttl : N) : CacheCall unit := fun c =>
  cache_checked c (write_guard c namespace key value ttl) (fun ttl =>
    (tt, with_state c (cache_insert c (remove_expired (mc_state c) now) (namespace, key) value (now + ttl)))).

Definition cache_set_if_absent (now : N) (namespace key value : string) (ttl : N) : CacheCall bool := fun c =>
  cache_checked c (write_guard c namespace key value ttl) (fun ttl =>
    let s := remove_expired (mc_state c) now in
    if is_some (cs_entries s !! (namespace, key)) then (false, with_state c s)
    else (true, with_state c (cache_insert c s (namespace, key) value (now + ttl)))).

Definition without (s : State) (m : gmap CacheKey Entry) : State :=
  {| cs_entries := m; cs_next_access_sequence := cs_next_access_sequence s |}.
Definition cache_take (now : N) (namespace key : string) : CacheCall (option string) := fun c =>
  cache_checked c (key_guard c namespace key) (fun _ =>
    let s := remove_expired (mc_state c) now in
    (en_value <$> cs_entries s !! (namespace, key),
     with_state c (without s (delete (namespace, key) (cs_entries s))))).

Definition cache_delete (namespace key : string) : CacheCall unit := fun c =>
  cache_checked c (key_guard c namespace key) (fun _ =>
    (tt, with_state c (without (mc_state c) (delete (namespace, key) (cs_entries (mc_state c)))))).

Definition cache_exists (now : N) (namespace key : string) : CacheCall bool := fun c =>
  match ensure_ready c with
  | Ok _ => let (r, c') := cache_get now namespace key c in
            (match r with Ok o => Ok (is_some o) | Err e => Err e end, c')
  | Err e => (Err e, c)
  end.

Definition cache_clear (namespace : string) : CacheCall unit := fun c =>
  cache_checked c (ensure_ready c ;? validate_component namespace) (fun _ =>
    (tt, with_state c (without (mc_state c) (filter (fun p => p.1.1 <> namespace) (cs_entries (mc_state c)))))).

Definition cache_close : CacheCall unit := fun c =>
  if mc_closed c then (Ok tt, c)
  else (Ok tt, {| mc_state := without (mc_state c) ∅; mc_initialized := false; mc_closed := true;
                  mc_max_entries := mc_max_entries c; mc_max_value_bytes := mc_max_value_bytes c;
                  mc_default_ttl := mc_default_ttl c |}).

Definition cache_ping : CacheCall unit := fun c => (ensure_ready c, c).
