(* ===== verification/CacheSafety.v ===== *)
(** * What the cache guarantees

    Whatever calls are made of it, the cache stays within its bounds.  What a
    key is bound to at a moment is [cached]; every call is specified by what it
    does to [cached].  The history of a cache says which call used which key
    ([uses]); the stored sequence numbers keep the order of the last uses
    ([use_order]), so a write that needs room takes it from the entry that was
    not used for longest.  [CacheLaws] is what a client relies on. *)

From S2P Require Import Prelude Text Money Json Wallet Intent Policy Ledger Cache.

#[local] Open Scope string_scope.
#[local] Open Scope vault_scope.

(** The value a key has at a moment. *)
Definition live (s : State) (now : N) (k : CacheKey) : option string :=
  match cs_entries s !! k with
  | Some e => if (now <? en_expires_at e)%N then Some (en_value e) else None
  | None => None
  end.
Definition cached (c : MemoryCache) (now : N) (k : CacheKey) : option string := live (mc_state c) now k.

Record cache_ok (c : MemoryCache) : Prop := {
  ck_room : (0 < mc_max_entries c)%N;
  ck_size : (N.of_nat (size (cs_entries (mc_state c))) <= mc_max_entries c)%N;
  ck_values : forall k e, cs_entries (mc_state c) !! k = Some e -> (str_len (en_value e) <= mc_max_value_bytes c)%N;
  ck_used : forall k e, cs_entries (mc_state c) !! k = Some e ->
    (en_last_access_sequence e <= cs_next_access_sequence (mc_state c))%N;
  ck_next : (cs_next_access_sequence (mc_state c) <= U64_MAX)%N
}.

(** ** Expiry *)

Lemma lookup_unexpired s now k e :
  cs_entries (remove_expired s now) !! k = Some e <-> cs_entries s !! k = Some e /\ (now < en_expires_at e)%N.
Proof. simpl. rewrite map_lookup_filter_Some. done. Qed.

Lemma live_unexpired s now t k : (now <= t)%N -> live (remove_expired s now) t k = live s t k.
Proof.
  intros Ht. unfold live. destruct (cs_entries (remove_expired s now) !! k) as [e|] eqn:He.
  - apply lookup_unexpired in He as [-> _]. done.
  - destruct (cs_entries s !! k) as [e|] eqn:Hs; [|done]. destruct (N.ltb_spec t (en_expires_at e)) as [Hlt|]; [|done].
    assert (cs_entries (remove_expired s now) !! k = Some e) by (apply lookup_unexpired; split; [done|lia]). congruence.
Qed.

Lemma live_now s now k : en_value <$> cs_entries (remove_expired s now) !! k = live s now k.
Proof.
  rewrite <- (live_unexpired s now now k) by lia. unfold live.
  destruct (cs_entries (remove_expired s now) !! k) as [e|] eqn:He; [|done]. simpl.
  apply lookup_unexpired in He as [_ He]. by rewrite (proj2 (N.ltb_lt _ _) He).
Qed.

Lemma live_later s now t k v : (now <= t)%N -> live s t k = Some v -> live s now k = Some v.
Proof.
  intros Ht. unfold live. destruct (cs_entries s !! k) as [e|]; [|done].
  destruct (N.ltb_spec t (en_expires_at e)); [|done]. by rewrite (proj2 (N.ltb_lt now (en_expires_at e))) by lia.
Qed.

(** ** The least recently used entry *)

Lemma min_step_spec l b :
  foldl min_step (Some b) l <> None /\
  forall m, foldl min_step (Some b) l = Some m ->
    m ∈ b :: l /\ forall x, x ∈ b :: l -> (en_last_access_sequence m.2 <= en_last_access_sequence x.2)%N.
Proof.
  revert b. induction l as [|x l IH]; intros b; simpl.
  { split; [done|]. intros m [= <-]. split; [left|]. intros x [-> | Hx]%elem_of_cons; [done|]. by apply elem_of_nil in Hx. }
  set (c := match entry_compare b x with Gt => Some x | _ => Some b end).
  assert (exists y, c = Some y /\ (y = b \/ y = x) /\ (en_last_access_sequence y.2 <= en_last_access_sequence b.2)%N
            /\ (en_last_access_sequence y.2 <= en_last_access_sequence x.2)%N) as (y & -> & Hy & Hb & Hx).
  { unfold c, entry_compare. destruct (N.compare_spec (en_last_access_sequence b.2) (en_last_access_sequence x.2));
      repeat case_match; eexists; split_and!; try done; auto; lia. }
  destruct (IH y) as [Hne Hm]. split; [done|]. intros m Hf. destruct (Hm m Hf) as [Hin Hle]. split.
  - apply elem_of_cons in Hin as [-> | Hin]; [|by do 2 right]. destruct Hy as [-> | ->]; [left|right; left].
  - pose proof (Hle y (list_elem_of_here _ _)). intros z Hz. rewrite !elem_of_cons in Hz.
    destruct Hz as [-> | [-> | Hz]]; [lia..|]. apply Hle. by right.
Qed.

Lemma least_recently_used_spec s :
  cs_entries s <> ∅ ->
  exists k e, least_recently_used s = Some k /\ cs_entries s !! k = Some e
    /\ forall k' e', cs_entries s !! k' = Some e' -> (en_last_access_sequence e <= en_last_access_sequence e')%N.
Proof.
  intros Hne. unfold least_recently_used. destruct (map_to_list (cs_entries s)) as [|b l] eqn:Hl.
  { by apply map_to_list_empty_iff in Hl. }
  simpl. destruct (min_step_spec l b) as [Hsome Hm]. destruct (foldl min_step (Some b) l) as [[k e]|]; [|done].
  destruct (Hm _ eq_refl) as [Hin Hle]. rewrite <- Hl in Hin. exists k, e. split_and!; [done|by apply elem_of_map_to_list|].
  intros k' e' Hk'. apply (Hle (k', e')). rewrite <- Hl. by apply elem_of_map_to_list.
Qed.

(** The entry that making room for a key removes from a state. *)
Record evicts (c : MemoryCache) (s : State) (key k0 : CacheKey) : Prop := {
  ev_full : N.of_nat (size (cs_entries s)) = mc_max_entries c;
  ev_new : cs_entries s !! key = None;
  ev_oldest : exists e, cs_entries s !! k0 = Some e
    /\ forall k e', cs_entries s !! k = Some e' -> (en_last_access_sequence e <= en_last_access_sequence e')%N
}.

Lemma make_room_spec c s key :
  (0 < mc_max_entries c)%N -> (N.of_nat (size (cs_entries s)) <= mc_max_entries c)%N ->
  exists evicted,
    cs_entries (make_room c s key) = match evicted with Some k0 => delete k0 (cs_entries s) | None => cs_entries s end
    /\ cs_next_access_sequence (make_room c s key) = cs_next_access_sequence s
    /\ (forall x, (N.of_nat (size (<[key := x]> (cs_entries (make_room c s key)))) <= mc_max_entries c)%N)
    /\ forall k0, evicted = Some k0 -> evicts c s key k0.
Proof.
  intros Hpos Hsize. unfold make_room. destruct (N.ltb_spec (N.of_nat (size (cs_entries s))) (mc_max_entries c)) as [Hlt|Hge]; simpl.
  { exists None. split_and!; [done..| |done]. intros x. rewrite map_size_insert. unfold id. case_match; lia. }
  destruct (cs_entries s !! key) as [e|] eqn:Hk; simpl.
  { exists None. split_and!; [done..| |done]. intros x. rewrite map_size_insert, Hk. done. }
  destruct (least_recently_used_spec s) as (k0 & e0 & -> & He0 & Hmin).
  { intros Hemp. rewrite Hemp, map_size_empty in Hge. simpl in Hge. lia. }
  exists (Some k0). simpl. split_and!; [done..| |].
  - intros x. rewrite map_size_insert, lookup_delete_ne, Hk by congruence. rewrite map_size_delete_Some by by eexists.
    assert (size (cs_entries s) <> 0) by (intros Hz; rewrite Hz in Hge; simpl in Hge; lia). lia.
  - intros ? [= <-]. split; [lia|done|by exists e0].
Qed.

(** What a write leaves in the cache. *)
Lemma cache_insert_spec c s key value expires :
  (0 < mc_max_entries c)%N -> (N.of_nat (size (cs_entries s)) <= mc_max_entries c)%N ->
  exists evicted,
    (forall t k, k <> key -> live (cache_insert c s key value expires) t k
                             = if bool_decide (evicted = Some k) then None else live s t k)
    /\ (forall t, live (cache_insert c s key value expires) t key = if (t <? expires)%N then Some value else None)
    /\ (N.of_nat (size (cs_entries (cache_insert c s key value expires))) <= mc_max_entries c)%N
    /\ forall k0, evicted = Some k0 -> evicts c s key k0.
Proof.
  intros Hpos Hsize. destruct (make_room_spec c s key Hpos Hsize) as (evicted & He & _ & Hroom & Hev).
  exists evicted. unfold live, cache_insert. cbn [cs_entries]. split_and!; [| |by apply Hroom|done].
  - intros t k Hk. rewrite lookup_insert_ne by done. rewrite He. destruct evicted as [k0|].
    + case_bool_decide as Heq; simplify_eq; [by rewrite lookup_delete_eq|]. rewrite lookup_delete_ne by congruence. done.
    + done.
  - intros t. by rewrite lookup_insert_eq.
Qed.

(** ** Calls keep the bounds *)

Lemma remove_expired_ok c now : cache_ok c -> cache_ok (with_state c (remove_expired (mc_state c) now)).
Proof.
  intros [Hr Hs Hv Hu Hn]. split; simpl; try done.
  - assert (size (filter (fun p : CacheKey * Entry => (now < en_expires_at p.2)%N) (cs_entries (mc_state c)))
            <= size (cs_entries (mc_state c)))%nat by (apply map_size_filter). lia.
  - intros k e [He _]%map_lookup_filter_Some. by eapply Hv.
  - intros k e [He _]%map_lookup_filter_Some. by eapply Hu.
Qed.

Lemma cache_ok_subset c s :
  cache_ok c -> cs_entries s ⊆ cs_entries (mc_state c) -> cs_next_access_sequence s = cs_next_access_sequence (mc_state c) ->
  cache_ok (with_state c s).
Proof.
  intros [Hr Hs Hv Hu Hn] Hsub Hnext. split; simpl; try done; [|intros k e He|intros k e He; rewrite Hnext|by rewrite Hnext].
  - apply map_subseteq_size in Hsub. lia.
  - eapply Hv. by eapply lookup_weaken.
  - eapply Hu. by eapply lookup_weaken.
Qed.

Lemma remove_expired_subset s now : cs_entries (remove_expired s now) ⊆ cs_entries s.
Proof. apply map_filter_subseteq. Qed.

Lemma next_sequence_le n : (n <= U64_MAX)%N -> (n <= next_sequence n <= U64_MAX)%N.
Proof. unfold next_sequence. lia. Qed.

Lemma cache_insert_ok c s key value expires :
  cache_ok (with_state c s) -> (str_len value <= mc_max_value_bytes c)%N ->
  cache_ok (with_state c (cache_insert c s key value expires)).
Proof.
  intros [Hr Hs Hv Hu Hn] Hval. simpl in *. destruct (make_room_spec c s key Hr Hs) as (evicted & He & Hnext & Hroom & _).
  assert (cs_entries (make_room c s key) ⊆ cs_entries s) as Hsub by (rewrite He; destruct evicted; [apply delete_subseteq|done]).
  pose proof (next_sequence_le _ Hn) as Hseq.
  split; cbn [mc_state with_state mc_max_entries mc_max_value_bytes cache_insert cs_entries cs_next_access_sequence];
    rewrite ?Hnext; [done|by apply Hroom| | |lia].
  - intros k e [[<- <-]|[_ Hk]]%lookup_insert_Some; [done|]. eapply Hv. by eapply lookup_weaken.
  - intros k e [[<- <-]|[_ Hk]]%lookup_insert_Some; [done|]. assert (cs_entries s !! k = Some e) as Hk' by by eapply lookup_weaken.
    specialize (Hu _ _ Hk'). lia.
Qed.

Inductive cache_call : Type :=
| CallInit | CallClose | CallPing
| CallGet (now : N) (namespace key : string)
| CallSet (now : N) (namespace key value : string) (ttl : N)
| CallSetIfAbsent (now : N) (namespace key value : string) (ttl : N)
| CallTake (now : N) (namespace key : string)
| CallDelete (namespace key : string)
| CallExists (now : N) (namespace key : string)
| CallClear (namespace : string).
Definition run_call (c : MemoryCache) (call : cache_call) : MemoryCache :=
  match call with
  | CallInit => snd (cache_init c)
  | CallClose => snd (cache_close c)
  | CallPing => snd (cache_ping c)
  | CallGet now ns key => snd (cache_get now ns key c)
  | CallSet now ns key value ttl => snd (cache_set now ns key value ttl c)
  | CallSetIfAbsent now ns key value ttl => snd (cache_set_if_absent now ns key value ttl c)
  | CallTake now ns key => snd (cache_take now ns key c)
  | CallDelete ns key => snd (cache_delete ns key c)
  | CallExists now ns key => snd (cache_exists now ns key c)
  | CallClear ns => snd (cache_clear ns c)
  end.

Lemma write_guard_ok c ns key value ttl t :
  write_guard c ns key value ttl = Ok t ->
  (str_len value <= mc_max_value_bytes c)%N /\ t = N.min ttl (mc_default_ttl c) /\ (0 < t)%N.
Proof.
  unfold write_guard, validate_value, effective_ttl. intros Hg. run_inv. bool_inv.
  repeat match goal with
  | Hb : (_ <? _)%N = false |- _ => apply N.ltb_ge in Hb
  | Hb : (_ =? _)%N = false |- _ => apply N.eqb_neq in Hb
  end. split_and!; [done|done|lia].
Qed.

Lemma cache_get_ok now ns key c : cache_ok c -> cache_ok (snd (cache_get now ns key c)).
Proof.
  intros Hc. unfold cache_get, cache_checked. destruct (key_guard _ _ _) as [u|e]; [|done]. simpl.
  destruct (remove_expired_ok c now Hc) as [Hr Hs Hv Hu Hn]. simpl in *. pose proof (next_sequence_le _ Hn) as Hseq.
  split; simpl; try done; [|intros k e He|intros k e He|lia].
  - by rewrite <- (size_dom (D:=gset CacheKey)), dom_alter_L, size_dom.
  - apply lookup_alter_Some in He as [(_ & e0 & He0 & ->)|[_ He]]; [simpl|]; by eapply Hv.
  - apply lookup_alter_Some in He as [(_ & e0 & He0 & ->)|[_ He]]; [done|]. specialize (Hu _ _ He). lia.
Qed.

Lemma run_call_ok c call : cache_ok c -> cache_ok (run_call c call).
Proof.
  intros Hc. destruct call; cbn [run_call].
  - unfold cache_init. destruct (mc_closed c); [done|]. by destruct Hc.
  - unfold cache_close. destruct (mc_closed c); [done|]. destruct Hc as [Hr Hs Hv Hu Hn].
    split; simpl; [done|rewrite map_size_empty; lia|by intros ? ? ?%lookup_empty_Some|by intros ? ? ?%lookup_empty_Some|done].
  - done.
  - by apply cache_get_ok.
  - unfold cache_set, cache_checked. destruct (write_guard _ _ _ _ _) as [t|] eqn:Hg; [|done]. simpl.
    apply write_guard_ok in Hg as (Hv & _). apply cache_insert_ok; [by apply remove_expired_ok|done].
  - unfold cache_set_if_absent, cache_checked. destruct (write_guard _ _ _ _ _) as [t|] eqn:Hg; [|done].
    apply write_guard_ok in Hg as (Hv & _). destruct (is_some _); simpl; [by apply remove_expired_ok|].
    apply cache_insert_ok; [by apply remove_expired_ok|done].
  - unfold cache_take, cache_checked. destruct (key_guard _ _ _); [|done]. simpl. apply cache_ok_subset; [done| |done].
    simpl. etrans; [apply delete_subseteq|apply remove_expired_subset].
  - unfold cache_delete, cache_checked. destruct (key_guard _ _ _); [|done]. simpl. apply cache_ok_subset; [done| |done].
    apply delete_subseteq.
  - unfold cache_exists. destruct (ensure_ready c); [|done]. pose proof (cache_get_ok now namespace key c Hc).
    by destruct (cache_get now namespace key c).
  - unfold cache_clear, cache_checked. destruct (_ ;? _)%vault; [|done]. simpl. apply cache_ok_subset; [done| |done].
    apply map_filter_subseteq.
Qed.

Lemma new_ok max_entries max_value_bytes default_ttl c :
  memory_cache_new max_entries max_value_bytes default_ttl = Ok c -> cache_ok c.
Proof.
  unfold memory_cache_new. intros Hn. run_inv. bool_inv.
  split; simpl; [lia|rewrite map_size_empty; lia|by intros ? ? ?%lookup_empty_Some|by intros ? ? ?%lookup_empty_Some|].
  unfold U64_MAX. lia.
Qed.

Lemma run_calls_ok c calls : cache_ok c -> cache_ok (foldl run_call c calls).
Proof. revert c. induction calls as [|call calls IH]; intros c Hc; simpl; [done|]. by apply IH, run_call_ok. Qed.

(** ** Use *)

(** The key a call uses: the one it wrote, or found a value for when it read
    it.  A miss, a refused call and a removal use none. *)
Definition used_key (c : MemoryCache) (call : cache_call) : option CacheKey :=
  match call with
  | CallGet now ns key => match fst (cache_get now ns key c) with Ok (Some _) => Some (ns, key) | _ => None end
  | CallExists now ns key => match fst (cache_exists now ns key c) with Ok true => Some (ns, key) | _ => None end
  | CallSet now ns key value ttl => match fst (cache_set now ns key value ttl c) with Ok _ => Some (ns, key) | _ => None end
  | CallSetIfAbsent now ns key value ttl =>
      match fst (cache_set_if_absent now ns key value ttl c) with Ok true => Some (ns, key) | _ => None end
  | _ => None
  end.
(** What every call of a history used. *)
Fixpoint uses (c : MemoryCache) (calls : list cache_call) : list (option CacheKey) :=
  match calls with
  | [] => []
  | call :: rest => used_key c call :: uses (run_call c call) rest
  end.
(** The call that used a key last. *)
Definition last_use (us : list (option CacheKey)) (k : CacheKey) (i : nat) : Prop :=
  us !! i = Some (Some k) /\ forall j, i < j -> us !! j <> Some (Some k).

Lemma uses_snoc c calls call : (uses c (calls ++ [call]) = uses c calls ++ [used_key (foldl run_call c calls) call])%list.
Proof. revert c. induction calls as [|x calls IH]; intros c; simpl; [done|]. by rewrite IH. Qed.
Lemma uses_length c calls : length (uses c calls) = length calls.
Proof. revert c. induction calls as [|x calls IH]; intros c; simpl; [done|]. by rewrite IH. Qed.

Lemma last_use_lt us k i : last_use us k i -> i < length us.
Proof. intros [Hi _]. by eapply lookup_lt_Some. Qed.
Lemma last_use_inj us k k' i : last_use us k i -> last_use us k' i -> k = k'.
Proof. intros [H1 _] [H2 _]. congruence. Qed.
Lemma last_use_here us k : last_use (us ++ [Some k])%list k (length us).
Proof.
  split; [by apply list_lookup_middle|]. intros j Hj Hk. apply lookup_lt_Some in Hk. rewrite length_app in Hk. simpl in Hk. lia.
Qed.
Lemma last_use_before us o k i : o <> Some k -> last_use us k i -> last_use (us ++ [o])%list k i.
Proof.
  intros Ho [Hi Hlast]. split; [by apply lookup_app_l_Some|]. intros j Hj Hk.
  apply lookup_app_Some in Hk as [Hk|[_ Hk]]; [by eapply Hlast|].
  apply list_lookup_singleton_Some in Hk as [_ ->]. done.
Qed.

(** What a call does to the entries: the one it uses gets the next sequence
    number, and every other one that is left is as it was. *)
Record call_effect (s s' : State) (used : option CacheKey) : Prop := {
  ce_next : match used with
            | Some _ => cs_next_access_sequence s' = next_sequence (cs_next_access_sequence s)
            | None => cs_next_access_sequence s' = cs_next_access_sequence s
                      \/ cs_next_access_sequence s' = next_sequence (cs_next_access_sequence s)
            end;
  ce_used : forall k e, used = Some k -> cs_entries s' !! k = Some e ->
    en_last_access_sequence e = next_sequence (cs_next_access_sequence s);
  ce_other : forall k e, used <> Some k -> cs_entries s' !! k = Some e -> cs_entries s !! k = Some e
}.

Lemma effect_subset s s' :
  cs_entries s' ⊆ cs_entries s -> cs_next_access_sequence s' = cs_next_access_sequence s -> call_effect s s' None.
Proof. intros Hsub Hn. split; [by left|done|]. intros k e _ Hk. by eapply lookup_weaken. Qed.

Lemma make_room_next c s key : cs_next_access_sequence (make_room c s key) = cs_next_access_sequence s.
Proof. unfold make_room. by repeat case_match. Qed.
Lemma make_room_subset c s key : cs_entries (make_room c s key) ⊆ cs_entries s.
Proof. unfold make_room. repeat case_match; simpl; [done|apply delete_subseteq|done]. Qed.

Lemma effect_insert c s now key value expires :
  call_effect s (cache_insert c (remove_expired s now) key value expires) (Some key).
Proof.
  unfold cache_insert. split; cbn [cs_entries cs_next_access_sequence]; rewrite make_room_next; [done| |].
  - intros k e [= <-]. rewrite lookup_insert_eq. by intros [= <-].
  - intros k e Hk. rewrite lookup_insert_ne by congruence. intros He.
    eapply lookup_weaken; [exact He|]. etrans; [apply make_room_subset|apply remove_expired_subset].
Qed.

Lemma effect_get now ns key c :
  call_effect (mc_state c) (mc_state (snd (cache_get now ns key c))) (used_key c (CallGet now ns key)).
Proof.
  unfold used_key, cache_get, cache_checked. destruct (key_guard c ns key); [|by apply effect_subset]. cbn [fst snd].
  assert (forall k e, Some (ns, key) <> Some k ->
            alter (touch (next_sequence (cs_next_access_sequence (mc_state c)))) (ns, key)
                  (cs_entries (remove_expired (mc_state c) now)) !! k = Some e ->
            cs_entries (mc_state c) !! k = Some e) as Hother.
  { intros k e Hk. rewrite lookup_alter_ne by congruence. by intros [? _]%lookup_unexpired. }
  change (cs_next_access_sequence (mc_state c)) with (cs_next_access_sequence (remove_expired (mc_state c) now)) in Hother.
  assert (cs_next_access_sequence (mc_state c) = cs_next_access_sequence (remove_expired (mc_state c) now)) as Hseq by done.
  revert Hother Hseq. generalize (remove_expired (mc_state c) now). intros s Hother Hseq.
  destruct (cs_entries s !! (ns, key)) as [e0|] eqn:Hk; cbn [fmap option_fmap option_map].
  - split; cbn [mc_state with_state cs_entries cs_next_access_sequence]; [by rewrite Hseq| |exact Hother].
    intros k e [= <-] [(_ & e1 & _ & ->)|[Hne _]]%lookup_alter_Some; [by rewrite Hseq|done].
  - split; cbn [mc_state with_state cs_entries cs_next_access_sequence]; [by right; rewrite Hseq|done|].
    intros k e _ He. destruct (decide (k = (ns, key))) as [->|Hne]; [|apply Hother in He; [exact He|congruence]].
    apply lookup_alter_Some in He as [(_ & e1 & He & _)|[Hne _]]; [|done]. by pose proof (eq_trans (eq_sym Hk) He).
Qed.

Lemma run_call_effect c call : call_effect (mc_state c) (mc_state (run_call c call)) (used_key c call).
Proof.
  destruct call; cbn [run_call].
  - unfold cache_init. destruct (mc_closed c); by apply effect_subset.
  - unfold cache_close. destruct (mc_closed c); apply effect_subset; simpl; try done. apply map_empty_subseteq.
  - by apply effect_subset.
  - apply effect_get.
  - unfold used_key, cache_set, cache_checked. destruct (write_guard _ _ _ _ _); [|by apply effect_subset]. apply effect_insert.
  - unfold used_key, cache_set_if_absent, cache_checked. destruct (write_guard _ _ _ _ _); [|by apply effect_subset].
    destruct (is_some _); simpl; [apply effect_subset; [apply remove_expired_subset|done]|apply effect_insert].
  - unfold cache_take, cache_checked. destruct (key_guard _ _ _); [|by apply effect_subset]. apply effect_subset; [|done].
    simpl. etrans; [apply delete_subseteq|apply remove_expired_subset].
  - unfold cache_delete, cache_checked. destruct (key_guard _ _ _); [|by apply effect_subset]. apply effect_subset; [|done].
    apply delete_subseteq.
  - pose proof (effect_get now namespace key c) as Hg. unfold used_key, cache_exists in *.
    destruct (ensure_ready c) eqn:Hr; [|by apply effect_subset].
    destruct (cache_get now namespace key c) as [[[v|]|e] c']; exact Hg.
  - unfold cache_clear, cache_checked. destruct (_ ;? _)%vault; [|by apply effect_subset]. apply effect_subset; [|done].
    apply map_filter_subseteq.
Qed.

(** The stored sequence numbers are in the order of the last uses. *)
Record use_order (us : list (option CacheKey)) (s : State) : Prop := {
  uo_next : (cs_next_access_sequence s <= N.of_nat (length us))%N;
  uo_used : forall k e, cs_entries s !! k = Some e ->
    (en_last_access_sequence e <= cs_next_access_sequence s)%N /\ exists i, last_use us k i;
  uo_order : forall k e i k' e' i', cs_entries s !! k = Some e -> cs_entries s !! k' = Some e' ->
    last_use us k i -> last_use us k' i' -> i < i' -> (en_last_access_sequence e < en_last_access_sequence e')%N
}.

Lemma last_use_unique us k i j : last_use us k i -> last_use us k j -> i = j.
Proof.
  intros [Hi Li] [Hj Lj]. destruct (lt_eq_lt_dec i j) as [[Hlt|]|Hlt]; [|done|].
  - by apply Li in Hlt.
  - by apply Lj in Hlt.
Qed.

Lemma use_order_call us s s' used :
  (N.of_nat (length us) < U64_MAX)%N -> use_order us s -> call_effect s s' used -> use_order (us ++ [used])%list s'.
Proof.
  intros Hlen [Hn Hu Ho] [En Eu Eo].
  assert (next_sequence (cs_next_access_sequence s) = cs_next_access_sequence s + 1)%N as Hseq by (unfold next_sequence; lia).
  assert (cs_next_access_sequence s' <= cs_next_access_sequence s + 1 /\ cs_next_access_sequence s <= cs_next_access_sequence s')%N
    as Hn' by (destruct used; lia).
  assert (forall k e, used <> Some k -> cs_entries s' !! k = Some e ->
            (en_last_access_sequence e <= cs_next_access_sequence s)%N /\ exists i, last_use us k i /\ last_use (us ++ [used])%list k i) as Hold.
  { intros k e Hk He. destruct (Hu _ _ (Eo _ _ Hk He)) as (? & i & Hi). split; [done|]. exists i. split; [done|]. by apply last_use_before. }
  split.
  - rewrite length_app. simpl. lia.
  - intros k e He. destruct (decide (used = Some k)) as [->|Hk].
    + rewrite (Eu _ _ eq_refl He). split; [lia|]. eexists. apply last_use_here.
    + destruct (Hold _ _ Hk He) as (? & i & _ & Hi). split; [lia|eauto].
  - intros k e i k' e' i' He He' Hi Hi' Hlt.
    destruct (decide (used = Some k)) as [->|Hk].
    { pose proof (last_use_unique _ _ _ _ Hi (last_use_here us k)) as ->. apply last_use_lt in Hi'. rewrite length_app in Hi'. simpl in Hi'. lia. }
    destruct (Hold _ _ Hk He) as (Hle & j & Hj & Hj2). pose proof (last_use_unique _ _ _ _ Hi Hj2) as ->.
    destruct (decide (used = Some k')) as [->|Hk']; [rewrite (Eu _ _ eq_refl He'); lia|].
    destruct (Hold _ _ Hk' He') as (_ & j' & Hj' & Hj2'). pose proof (last_use_unique _ _ _ _ Hi' Hj2') as ->.
    exact (Ho _ _ _ _ _ _ (Eo _ _ Hk He) (Eo _ _ Hk' He') Hj Hj' Hlt).
Qed.

Lemma use_order_run max_entries max_value_bytes default_ttl c calls :
  memory_cache_new max_entries max_value_bytes default_ttl = Ok c -> (N.of_nat (length calls) <= U64_MAX)%N ->
  use_order (uses c calls) (mc_state (foldl run_call c calls)).
Proof.
  intros Hn. induction calls as [|call calls IH] using rev_ind; intros Hlen.
  - unfold memory_cache_new in Hn. run_inv. split; simpl; [done|by intros ? ? ?%lookup_empty_Some|by intros ? ? ? ? ? ? ?%lookup_empty_Some].
  - rewrite length_app in Hlen. simpl in Hlen. rewrite uses_snoc, foldl_app. simpl.
    apply use_order_call with (mc_state (foldl run_call c calls)); [rewrite uses_length; lia|apply IH; lia|apply run_call_effect].
Qed.

(** ** Properties *)

(** C30: the cache evicts the least recently used entry and nothing else.
    Take a cache that was built and then used by any history of calls shorter
    than the access counter can count.  A write leaves the written value until
    the shorter of the requested and the default time to live; every other key
    keeps its value from then on, except at most one, and that one only when the
    key was new, as many unexpired entries were held as are allowed, and the
    last call of the history that wrote the evicted key or found a value for it
    came before the last such call of every other unexpired key; the cache still
    holds no more than allowed, and no value is longer than allowed. *)
Theorem cache_set_evicts_lru max_entries max_value_bytes default_ttl c0 calls now namespace key value ttl c c' :
  memory_cache_new max_entries max_value_bytes default_ttl = Ok c0 -> (N.of_nat (length calls) <= U64_MAX)%N ->
  c = foldl run_call c0 calls -> cache_set now namespace key value ttl c = (Ok tt, c') ->
  exists evicted,
    (forall t, cached c' t (namespace, key) = if (t <? now + N.min ttl (mc_default_ttl c))%N then Some value else None)
    /\ (forall t k, (now <= t)%N -> k <> (namespace, key) ->
          cached c' t k = if bool_decide (evicted = Some k) then None else cached c t k)
    /\ (forall k0, evicted = Some k0 ->
          cached c now (namespace, key) = None
          /\ N.of_nat (size (cs_entries (remove_expired (mc_state c) now))) = mc_max_entries c
          /\ is_Some (cached c now k0)
          /\ exists i0, last_use (uses c0 calls) k0 i0
               /\ forall k, k <> k0 -> is_Some (cached c now k) -> exists i, last_use (uses c0 calls) k i /\ i0 < i)
    /\ (N.of_nat (size (cs_entries (mc_state c'))) <= mc_max_entries c)%N
    /\ forall k e, cs_entries (mc_state c') !! k = Some e -> (str_len (en_value e) <= mc_max_value_bytes c)%N.
Proof.
  intros Hn Hlen Hc0 Hs. pose proof (use_order_run _ _ _ _ _ Hn Hlen) as [_ Hu Ho]. rewrite <- Hc0 in *.
  assert (cache_ok c) as Hc by (rewrite Hc0; by eapply run_calls_ok, new_ok).
  pose proof (run_call_ok c (CallSet now namespace key value ttl) Hc) as Hc'.
  cbn [run_call] in Hc'. rewrite Hs in Hc'. unfold cache_set, cache_checked in Hs.
  destruct (write_guard _ _ _ _ _) as [t0|] eqn:Hg; [|done]. apply write_guard_ok in Hg as (_ & -> & _).
  destruct (remove_expired_ok c now Hc) as [Hr Hsz _ _ _].
  injection Hs as <-. destruct (cache_insert_spec c (remove_expired (mc_state c) now) (namespace, key) value
    (now + N.min ttl (mc_default_ttl c)) Hr Hsz) as (evicted & Hother & Hself & _ & Hev).
  exists evicted. split_and!; [exact Hself| | |by destruct Hc'|by destruct Hc'].
  - intros t k Ht Hk. unfold cached. cbn [mc_state with_state]. rewrite Hother by done.
    rewrite live_unexpired by done. repeat case_bool_decide; done.
  - intros k0 [Hfull Hnew (e & He & Hmin)]%Hev. unfold cached. rewrite <- !live_now. rewrite Hnew, He. split_and!; [done..|by eexists|].
    apply lookup_unexpired in He as [He _]. destruct (Hu _ _ He) as (_ & i0 & Hi0). exists i0. split; [done|].
    intros k Hk. rewrite <- live_now. intros (v & (e' & He' & _)%fmap_Some). pose proof (Hmin _ _ He') as Hle.
    apply lookup_unexpired in He' as [He' _]. destruct (Hu _ _ He') as (_ & i & Hi). exists i. split; [done|].
    destruct (lt_eq_lt_dec i0 i) as [[Hlt|<-]|Hlt]; [done|by apply (last_use_inj _ k k0 i0) in Hi|].
    pose proof (Ho _ _ _ _ _ _ He' He Hi Hi0 Hlt). lia.
Qed.

(** ** What clients rely on *)

Class CacheOps (C : Type) : Type := {
  co_set_if_absent : N -> string -> string -> string -> N -> C -> Result CacheError bool * C;
  co_take : N -> string -> string -> C -> Result CacheError (option string) * C
}.
(** [held c t k]: what the key is bound to at [t].  A call may lose entries at
    any time, it invents none, and a value is taken once. *)
Class CacheLaws (C : Type) `{CacheOps C} (held : C -> N -> CacheKey -> option string) : Prop := {
  set_invents_nothing now ns key value ttl c r c' :
    co_set_if_absent now ns key value ttl c = (r, c') ->
    forall t k v, held c' t k = Some v -> held c t k = Some v \/ (k = (ns, key) /\ v = value);
  set_holds now ns key value ttl c c' :
    co_set_if_absent now ns key value ttl c = (Ok true, c') -> held c' now (ns, key) = Some value;
  take_invents_nothing now ns key c r c' :
    co_take now ns key c = (r, c') -> forall t k v, held c' t k = Some v -> held c t k = Some v;
  take_returns now ns key c o c' :
    co_take now ns key c = (Ok o, c') -> o = held c now (ns, key) /\ forall t, held c' t (ns, key) = None
}.

#[export] Instance memory_cache_ops : CacheOps MemoryCache :=
  {| co_set_if_absent := cache_set_if_absent; co_take := cache_take |}.

Lemma live_subset s s' t k v :
  cs_entries s' ⊆ cs_entries s -> live s' t k = Some v -> live s t k = Some v.
Proof.
  intros Hsub. unfold live. destruct (cs_entries s' !! k) as [e|] eqn:He; [|done].
  by rewrite (lookup_weaken _ _ _ _ He Hsub).
Qed.

#[export] Instance memory_cache_laws : CacheLaws MemoryCache cached.
Proof.
  split.
  - intros now ns key value ttl c r c'. simpl. unfold cache_set_if_absent, cache_checked.
    destruct (write_guard _ _ _ _ _) as [t0|]; [|intros [= _ <-]; by left]. destruct (is_some _).
    + intros [= _ <-] t k v Hk. left. eapply live_subset; [apply remove_expired_subset|exact Hk].
    + intros [= _ <-] t k v. unfold cached, live. cbn [mc_state with_state cache_insert cs_entries]. rewrite lookup_insert.
      case_decide as Heq; [intros Hv; right; split; [done|]; simpl in Hv; by case_match; simplify_eq|].
      intros Hk. left. eapply (live_subset (mc_state c) (make_room c (remove_expired (mc_state c) now) (ns, key)));
        [|exact Hk]. etrans; [apply make_room_subset|apply remove_expired_subset].
  - intros now ns key value ttl c c'. simpl. unfold cache_set_if_absent, cache_checked.
    destruct (write_guard _ _ _ _ _) as [t0|] eqn:Hg; [|done]. apply write_guard_ok in Hg as (_ & _ & Ht).
    destruct (is_some _); [done|]. intros [= <-]. unfold cached, live. cbn [mc_state with_state cache_insert cs_entries].
    rewrite lookup_insert_eq. simpl. by rewrite (proj2 (N.ltb_lt now (now + t0))) by lia.
  - intros now ns key c r c'. simpl. unfold cache_take, cache_checked. destruct (key_guard _ _ _); [|by intros [= _ <-]].
    intros [= _ <-] t k v Hk. eapply live_subset; [|exact Hk]. simpl. etrans; [apply delete_subseteq|apply remove_expired_subset].
  - intros now ns key c o c'. simpl. unfold cache_take, cache_checked. destruct (key_guard _ _ _); [|done].
    intros [= <- <-]. split; [apply live_now|]. intros t. unfold cached, live. simpl. by rewrite lookup_delete_eq.
Qed.
