(* ===== verification/WalletImport.v ===== *)
(** * Encrypted wallet import

    [WalletImportService] of [src/src/payment/wallet_import.rs] with the records
    of [src/src/model/wallet.rs]: a principal gets a one-use transport key, kept
    sealed in the cache, encrypts a private key under it, and the service opens
    it once and hands it to the custody.

    A world is the cache and the database.  The cache is any that offers the
    two calls of [CacheOps]; the RSA library is the class [RsaOaep].  The drawn
    session identity, the generated key pair, the nonces and both clock readings
    (the request's seconds and the cache's moment) are arguments. *)

From S2P Require Import Prelude Text Money Json Wallet Intent Policy Ledger Records Store Budget Program Authorizer CatalogTables WalletStore CatalogStore Sealing SigningService X402Sdk WalletKeys Cache CacheSafety.

#[local] Open Scope string_scope.
#[local] Open Scope vault_scope.

(** ** Records *)

Record WalletImportSession : Type := {
  wis_session_id : string;
  wis_server_public_key : string;
  wis_expires_at : Z
}.
Record CachedWalletImportSession : Type := {
  cis_version : N;
  cis_principal_hash : string;
  cis_sealed_server_private_key : SealedSensitiveMaterial;
  cis_expires_at : Z
}.
Record EncryptedWalletPrivateKey : Type := { ek_session_id : string; ek_ciphertext : string }.
Record CreateEncryptedWallet : Type := {
  ce_id : string;
  ce_algorithm : string;
  ce_enabled : bool;
  ce_budget_unit : option BudgetUnit;
  ce_max_per_payment : option Amount;
  ce_max_per_day : option Amount;
  ce_encrypted_private_key : EncryptedWalletPrivateKey
}.

(** The serde form of a session, a struct in the order of its fields. *)
Definition session_to_json (s : CachedWalletImportSession) : json :=
  let m := cis_sealed_server_private_key s in
  JObject [("version", JNumber (Z.of_N (cis_version s))); ("principal_hash", JString (cis_principal_hash s));
           ("sealed_server_private_key",
            JObject [("version", JNumber (Z.of_N (sm_version m))); ("key_id", JString (sm_key_id m));
                     ("nonce", JString (sm_nonce m)); ("ciphertext", JString (sm_ciphertext m))]);
           ("expires_at", JNumber (cis_expires_at s))].
Definition session_from_json (j : json) : option CachedWalletImportSession :=
  if known_fields ["version"; "principal_hash"; "sealed_server_private_key"; "expires_at"] j && no_repeated_fields j then
    version ← u8_field "version" j;
    principal_hash ← jget_str "principal_hash" j;
    sealed ← jget "sealed_server_private_key" j;
    material ← (if no_repeated_fields sealed then sealed_from_json sealed else None);
    expires_at ← i64_field "expires_at" j;
    Some {| cis_version := version; cis_principal_hash := principal_hash; cis_sealed_server_private_key := material;
            cis_expires_at := expires_at |}
  else None.

(** ** RSA *)

(** [PrivateDecryptingKey::from_pkcs8] and [OaepPrivateDecryptingKey::new], and
    OAEP decryption with SHA-256 under a label *)
Class RsaOaep : Type := {
  rsa_from_pkcs8 : string -> bool;
  oaep_decrypt : string -> string -> string -> option string
}.

Definition RSA_CIPHERTEXT_BYTES : N := 384.
Definition EOA_PRIVATE_KEY_BYTES : N := 32.
Definition CACHE_NAMESPACE : string := "wallet-import".
Definition SESSION_VERSION : N := 2.
Definition NANOS_PER_SEC : N := 1000000000.

Section Imports.
Context `{Sha256, Base64Url, RsaOaep}.

(** [CachedWalletImportSession::principal_hash] and [context] *)
Definition principal_hash (principal : string) : string := b64_encode (sha256 principal).
Definition session_context (session_id principal : string) : string :=
  "wallet-import-session:" ++ session_id ++ ":" ++ principal_hash principal.

(** [EncryptedWalletPrivateKey::label] *)
Definition import_label (k : EncryptedWalletPrivateKey) (wallet_id algorithm : string) : string :=
  "agentvault.wallet-import.v2" ++ String NUL (ek_session_id k ++ String NUL (wallet_id ++ String NUL algorithm)).

Definition invalid_private_key : Error := InvalidRequest "encrypted wallet private key is invalid".

(** [EncryptedWalletPrivateKey::decrypt] *)
Definition decrypt_private_key (k : EncryptedWalletPrivateKey) (server_key wallet_id algorithm : string)
  : Result Error string :=
  reject_if (negb (str_len (ek_ciphertext k) =? RSA_CIPHERTEXT_BYTES * 4 / 3)%N) invalid_private_key ;?
  let? ciphertext := ok_or (b64_decode (ek_ciphertext k)) invalid_private_key in
  reject_if (negb (str_len ciphertext =? RSA_CIPHERTEXT_BYTES)%N || (b64_encode ciphertext != ek_ciphertext k))
            invalid_private_key ;?
  reject_if (negb (rsa_from_pkcs8 server_key)) (Crypto "wallet import server key is invalid") ;?
  let? plaintext := ok_or (oaep_decrypt server_key ciphertext (import_label k wallet_id algorithm)) invalid_private_key in
  reject_if (negb (str_len plaintext =? EOA_PRIVATE_KEY_BYTES)%N) invalid_private_key ;?
  Ok plaintext.

(** ** The service *)

Definition validate_principal (principal : string) : Result Error unit :=
  reject_if (is_empty principal || (512 <? str_len principal)%N || has_control principal) Unauthenticated.

Definition cache_error (e : CacheError) : Error :=
  match e with
  | Unavailable reason => DependencyUnavailable reason
  | InvalidValue reason => Crypto ("wallet import cache value is invalid: " ++ reason)
  end.

Context {C : Type} `{CacheOps C, JsonText, JsonParse}.
Definition World : Type := C * DB.

(** A call of the cache; it may have had an effect even if it failed. *)
Definition on_cache {A} (f : C -> Result CacheError A * C) : Prog World A :=
  let& r := await (fun w : World => let (r, c') := f (fst w) in Ok (r, (c', snd w))) in
  glift (map_err cache_error r).
(** A storage program in the world. *)
Definition on_db {A} (m : Tx DB A) : Tx World A := fun w =>
  let? p := m (snd w) in Ok (fst p, (fst w, snd p)).
Fixpoint in_world {A} (p : Prog DB A) : Prog World A :=
  match p with
  | Done r => Done r
  | Call m k => Call (on_db m) (fun r => in_world (k r))
  end.

(** What creating a session draws: its identity, the nonce of the envelope, and
    the public and private half of a generated key, or the failure to generate
    one. *)
Record SessionDraws : Type := {
  sd_session_id : string;
  sd_nonce : string;
  sd_key : Result Error (string * string)
}.

(** [create_import_session] *)
Definition create_import_session (protector : MaterialProtector) (session_ttl : N) (draws : SessionDraws) (moment : N) (principal : string) (now : Z)
  : Prog World WalletImportSession :=
  glift (validate_principal principal) ;&
  let ttl_seconds := Z.of_N (session_ttl / NANOS_PER_SEC) in
  glift (reject_if (I64_MAX <? ttl_seconds)%Z (Config "wallet import session TTL is too large")) ;&
  let& expires_at := glift (ok_or (i64_checked_add now ttl_seconds)
                                  (InvalidRequest "wallet import session expiry overflowed")) in
  let session_id := sd_session_id draws in
  let& key := glift (sd_key draws) in
  let& sealed := glift (mp_seal (sd_nonce draws) (session_context session_id principal) (snd key)) in
  let record := {| cis_version := SESSION_VERSION; cis_principal_hash := principal_hash principal;
                   cis_sealed_server_private_key := sealed; cis_expires_at := expires_at |} in
  let& encoded := glift (map_err (fun _ => Crypto "wallet import session encoding failed") (json_to_vec (session_to_json record))) in
  let& stored := on_cache (co_set_if_absent moment CACHE_NAMESPACE session_id encoded session_ttl) in
  glift (reject_if (negb stored) (DependencyUnavailable "wallet import session identifier collision")) ;&
  gret {| wis_session_id := session_id; wis_server_public_key := b64_encode (fst key); wis_expires_at := expires_at |}.

Context `{SecpKeys, SolanaKeys, EvmCrypto, Aead, UuidNonce, SolanaPubkey}.

Definition import_config (r : CreateEncryptedWallet) : WalletCreationConfig :=
  {| wc_enabled := ce_enabled r; wc_budget_unit := ce_budget_unit r; wc_max_per_payment := ce_max_per_payment r;
     wc_max_per_day := ce_max_per_day r |}.

(** [WalletImportService::create_wallet] *)
Definition create_encrypted_wallet (protector : MaterialProtector) (ring : WalletKeyRing) (draws : EnvelopeDraws) (moment : N) (principal : string)
    (request : CreateEncryptedWallet) (now : Z) : Prog World Wallet :=
  let envelope := ce_encrypted_private_key request in
  glift (validate_principal principal) ;&
  glift (reject_if (is_empty (ce_id request) || has_control (ce_id request)) (InvalidRequest "wallet ID is invalid")) ;&
  glift (reject_if (ce_algorithm request != EVM_EOA_ALGORITHM)
                   (InvalidRequest "encrypted wallet import supports only secp256k1 EOA keys")) ;&
  glift (map_err (fun field => InvalidRequest ("wallet " ++ field ++ " is invalid"))
                 (WalletCreationConfig_validate (import_config request))) ;&
  let& found := on_cache (co_take moment CACHE_NAMESPACE (ek_session_id envelope)) in
  let& cached := glift (ok_or found (NotFound "wallet import session")) in
  let& record := glift (ok_or (json_from_slice cached ≫= session_from_json) (Crypto "wallet import session is invalid")) in
  glift (reject_if ((cis_version record != SESSION_VERSION) || (cis_principal_hash record != principal_hash principal)
                    || (cis_expires_at record <=? now)%Z) Forbidden) ;&
  let& server_key := glift (mp_open (session_context (ek_session_id envelope) principal) (cis_sealed_server_private_key record)) in
  let& private_key := glift (decrypt_private_key envelope server_key (ce_id request) (ce_algorithm request)) in
  in_world (create_wallet ring draws (ce_id request) (ce_algorithm request) private_key (import_config request) now).
End Imports.
