(* ===== verification/WalletImportSafety.v ===== *)
(** * What an encrypted wallet import guarantees

    An import session serves its owner, before it expires, and once; and a
    wallet imported through one is the wallet the custody makes of the key that
    was encrypted. *)

From S2P Require Import Prelude Text Money Json Wallet Intent Policy Ledger Records Store Budget Program Authorizer CatalogTables WalletStore CatalogStore Sealing SigningService X402Sdk WalletKeys Cache CacheSafety WalletImport.

#[local] Open Scope string_scope.
#[local] Open Scope vault_scope.

(** ** The stored form of a session *)

Definition sealed_struct (m : SealedSensitiveMaterial) : json :=
  JObject [("version", JNumber (Z.of_N (sm_version m))); ("key_id", JString (sm_key_id m));
           ("nonce", JString (sm_nonce m)); ("ciphertext", JString (sm_ciphertext m))].

Lemma u8_field_of_N k j v :
  jget k j = Some (JNumber (Z.of_N v)) -> u8_field k j = if (v <=? 255)%N then Some v else None.
Proof.
  intros Hj. unfold u8_field. rewrite Hj. rewrite (proj2 (Z.leb_le 0 _)) by lia. simpl.
  destruct (N.leb_spec v 255) as [Hv|Hv]; [rewrite (proj2 (Z.leb_le _ 255)) by lia; by rewrite N2Z.id|].
  by rewrite (proj2 (Z.leb_gt _ 255)) by lia.
Qed.

Lemma sealed_struct_read m :
  (if no_repeated_fields (sealed_struct m) then sealed_from_json (sealed_struct m) else None)
  = if (sm_version m <=? 255)%N then Some m else None.
Proof.
  assert (no_repeated_fields (sealed_struct m) = true) as -> by (by destruct m; vm_compute).
  unfold sealed_from_json.
  assert (known_fields ["version"; "key_id"; "nonce"; "ciphertext"] (sealed_struct m) = true) as -> by (by destruct m; vm_compute).
  rewrite (u8_field_of_N _ _ (sm_version m)) by reflexivity.
  change (jget_str "key_id" (sealed_struct m)) with (Some (sm_key_id m)).
  change (jget_str "nonce" (sealed_struct m)) with (Some (sm_nonce m)).
  change (jget_str "ciphertext" (sealed_struct m)) with (Some (sm_ciphertext m)).
  destruct (sm_version m <=? 255)%N; [|done]. simpl. by destruct m.
Qed.

Lemma session_read s :
  session_from_json (session_to_json s)
  = if (cis_version s <=? 255)%N && (sm_version (cis_sealed_server_private_key s) <=? 255)%N
       && i64_in_range (cis_expires_at s) then Some s else None.
Proof.
  unfold session_from_json.
  assert (known_fields ["version"; "principal_hash"; "sealed_server_private_key"; "expires_at"] (session_to_json s)
          && no_repeated_fields (session_to_json s) = true) as -> by (by destruct s as [v p [a b c d] e]; vm_compute).
  rewrite (u8_field_of_N _ _ (cis_version s)) by reflexivity.
  change (jget_str "principal_hash" (session_to_json s)) with (Some (cis_principal_hash s)).
  change (jget "sealed_server_private_key" (session_to_json s)) with (Some (sealed_struct (cis_sealed_server_private_key s))).
  unfold i64_field. change (jget "expires_at" (session_to_json s)) with (Some (JNumber (cis_expires_at s))).
  destruct (cis_version s <=? 255)%N; [|done]. cbn [mbind option_bind]. rewrite sealed_struct_read.
  destruct (sm_version _ <=? 255)%N; [|done]. cbn [mbind option_bind andb].
  destruct (i64_in_range _); [|done]. simpl. by destruct s.
Qed.

(** ** Calls in the world *)

Section Calls.
Context {C : Type}.

Lemma exec_on_cache_ok {A} env (f : C -> Result CacheError A * C) w a w' :
  exec env (on_cache f) w (Ok a) w' <-> exists w1, env w w1 /\ f (fst w1) = (Ok a, fst w') /\ snd w' = snd w1.
Proof.
  unfold on_cache. rewrite exec_bind_ok. setoid_rewrite exec_await_ok. setoid_rewrite exec_lift_ok. split.
  - intros (r & w2 & (w1 & He & Hf) & Hr & ->). exists w1. split; [done|].
    destruct (f (fst w1)) as [r' c'] eqn:Hc. injection Hf as <- <-. destruct r' as [b|e]; simpl in Hr; simplify_eq; done.
  - intros (w1 & He & Hf & Hs). exists (Ok a), w'. split; [|done]. exists w1. split; [done|]. rewrite Hf, <- Hs. by destruct w'.
Qed.

Lemma run_on_cache {A} (f : C -> Result CacheError A * C) c (d : DB) :
  run_alone (on_cache f) (c, d) = (map_err cache_error (fst (f c)), (snd (f c), d)).
Proof. unfold on_cache. simpl. unfold transaction. simpl. by destruct (f c) as [[a|e] c']. Qed.

(** A storage program leaves the cache alone. *)
Lemma in_world_calls {A} (p : Prog DB A) : calls_in (fun w w' : World (C := C) => fst w' = fst w) (in_world p).
Proof.
  induction p as [r|B m k IH]; simpl; [done|]. split; [|done]. intros w b w'. unfold on_db.
  destruct (m (snd w)) as [[b' d']|]; [|done]. by intros [= _ <-].
Qed.

Lemma calls_in_mono {S A} (R R' : S -> S -> Prop) (p : Prog S A) :
  (forall x y, R x y -> R' x y) -> calls_in R p -> calls_in R' p.
Proof.
  intros HR. induction p as [r|B m k IH]; simpl; [done|]. intros [Hm Hk]. split; [|by intros r; apply IH].
  intros s a s' Ha. apply HR. by eapply Hm.
Qed.

Lemma run_in_world {A} (p : Prog DB A) (c : C) d :
  run_alone (in_world p) (c, d) = (fst (run_alone p d), (c, snd (run_alone p d))).
Proof.
  revert d. induction p as [r|B m k IH]; intros d; simpl; [done|]. unfold transaction, on_db. simpl.
  destruct (m d) as [[b d']|e]; simpl; by rewrite IH.
Qed.
End Calls.

Ltac world_inv :=
  repeat (first [ match goal with Hc : exec _ (on_cache _) _ (Ok _) _ |- _ => apply exec_on_cache_ok in Hc as (? & ? & ? & ?) end
                | prog_step | run_step ]; subst); subst.

(** ** Sessions *)

Section Sessions.
Context `{Sha256, Base64Url, !Base64UrlLaws, RsaOaep}.
Context {C : Type} `{CacheOps C} (held : C -> N -> CacheKey -> option string) `{!CacheLaws C held}.
Context `{JsonText, JsonParse, !JsonTextLaws}.
Context `{SecpKeys, SolanaKeys, EvmCrypto, Aead, UuidNonce, SolanaPubkey}.

(** Nobody binds the session again; entries may still be lost. *)
Definition never_rebound (session_id : string) (w w' : World (C := C)) : Prop :=
  forall t v, held (fst w') t (CACHE_NAMESPACE, session_id) = Some v ->
              held (fst w) t (CACHE_NAMESPACE, session_id) = Some v.
#[export] Instance never_rebound_refl id : Reflexive (never_rebound id).
Proof. by intros w t v. Qed.
#[export] Instance never_rebound_trans id : Transitive (never_rebound id).
Proof. intros a b c Hab Hbc t v Hv. auto. Qed.

Lemma same_cache_never_rebound id (w w' : World (C := C)) : fst w' = fst w -> never_rebound id w w'.
Proof. unfold never_rebound. by intros ->. Qed.
Lemma rtc_never_rebound id (env : World -> World -> Prop) w w' :
  (forall x y, env x y -> never_rebound id x y) -> rtc env w w' -> never_rebound id w w'.
Proof. intros He. induction 1 as [|x y z Hxy _ IH]; [done|]. etrans; [by apply He|done]. Qed.

(** What an answered import found, and left behind. *)
Lemma create_encrypted_exec env protector ring draws moment principal request now w wallet w' :
  (forall x y, env x y -> never_rebound (ek_session_id (ce_encrypted_private_key request)) x y) ->
  exec env (create_encrypted_wallet protector ring draws moment principal request now) w (Ok wallet) w' ->
  let key := (CACHE_NAMESPACE, ek_session_id (ce_encrypted_private_key request)) in
  (exists text record, held (fst w) moment key = Some text /\ json_from_slice text ≫= session_from_json = Some record
     /\ cis_principal_hash record = principal_hash principal /\ (now < cis_expires_at record)%Z)
  /\ forall t, held (fst w') t key = None.
Proof.
  intros Henv Hx. unfold create_encrypted_wallet in Hx. cbv zeta in Hx.
  world_inv.
  match goal with Ht : co_take _ _ _ _ = _ |- _ => destruct (take_returns _ _ _ _ _ _ Ht) as [Hheld Hgone] end. split.
  - match goal with He : env _ _, Hr : _ ≫= _ = Some ?r |- _ =>
      do 2 eexists; split_and!; [apply (Henv _ _ He); symmetry; exact Hheld|exact Hr| |] end.
    + bool_inv. done.
    + bool_inv. lia.
  - intros t. match goal with |- ?h = None => destruct h as [v|] eqn:Hv; [|done] end. exfalso.
    apply (exec_rel env (never_rebound (ek_session_id (ce_encrypted_private_key request)))) in Hx; [|done|].
    + apply Hx in Hv. by rewrite Hgone in Hv.
    + eapply calls_in_mono; [|apply in_world_calls]. apply same_cache_never_rebound.
Qed.

(** What an answered session leaves in the cache. *)
Lemma create_session_exec env protector ttl draws moment principal now w session w' :
  (forall x y, env x y -> never_rebound (sd_session_id draws) x y) ->
  (forall t, held (fst w) t (CACHE_NAMESPACE, sd_session_id draws) = None) ->
  exec env (create_import_session protector ttl draws moment principal now) w (Ok session) w' ->
  exists text record, json_to_vec (session_to_json record) = Ok text
    /\ cis_principal_hash record = principal_hash principal /\ cis_expires_at record = wis_expires_at session
    /\ wis_session_id session = sd_session_id draws
    /\ forall t v, held (fst w') t (CACHE_NAMESPACE, sd_session_id draws) = Some v -> v = text.
Proof.
  intros Henv Hfree Hx. unfold create_import_session in Hx. cbv zeta in Hx. world_inv.
  match goal with Hj : json_to_vec (session_to_json ?r) = Ok ?text |- _ => exists text, r; split; [exact Hj|] end.
  split_and!; [done..|]. intros t v Hv.
  match goal with Hc : co_set_if_absent _ _ _ _ _ _ = _, He : env _ _ |- _ =>
    destruct (set_invents_nothing _ _ _ _ _ _ _ _ Hc _ _ _ Hv) as [Hold|[_ ->]]; [|done];
    apply (Henv _ _ He) in Hold; by rewrite Hfree in Hold end.
Qed.

Lemma principal_hash_same p q : principal_hash p = principal_hash q -> p = q \/ (p <> q /\ sha256 p = sha256 q).
Proof.
  unfold principal_hash. intros Hh. destruct (decide (p = q)) as [|Hne]; [by left|]. right. split; [done|].
  apply (f_equal b64_decode) in Hh. rewrite !b64_decode_encode in Hh. by injection Hh.
Qed.

(** C28: an import session serves its owner, in time, and once.  Whatever
    other requests do in between, short of drawing the same session identity
    again, a wallet created through a session was requested by the principal the
    session was created for (or by one whose name has the same SHA-256) before
    the session's expiry, and after that no request that names the session is
    answered with a wallet, whoever makes it. *)
Theorem import_session_one_use env protector protector' ring wdraws ttl draws m0 owner t0 session m1 principal request now
    wallet w w1 w2 w3 :
  (forall x y, env x y -> never_rebound (sd_session_id draws) x y) ->
  (forall t, held (fst w) t (CACHE_NAMESPACE, sd_session_id draws) = None) ->
  exec env (create_import_session protector ttl draws m0 owner t0) w (Ok session) w1 -> rtc env w1 w2 ->
  ek_session_id (ce_encrypted_private_key request) = wis_session_id session ->
  exec env (create_encrypted_wallet protector' ring wdraws m1 principal request now) w2 (Ok wallet) w3 ->
  (principal = owner \/ (principal <> owner /\ sha256 principal = sha256 owner))
  /\ (now < wis_expires_at session)%Z
  /\ forall protector2 ring2 wdraws2 m2 principal2 request2 now2 wallet2 w4 w5,
       rtc env w3 w4 -> ek_session_id (ce_encrypted_private_key request2) = wis_session_id session ->
       ~ exec env (create_encrypted_wallet protector2 ring2 wdraws2 m2 principal2 request2 now2) w4 (Ok wallet2) w5.
Proof.
  intros Henv Hfree Hs Hrun Hid Hc.
  destruct (create_session_exec _ _ _ _ _ _ _ _ _ _ Henv Hfree Hs) as (text & record & Hj & Hp & He & Hsid & Hheld).
  rewrite Hsid in *.
  assert (forall x y, env x y -> never_rebound (ek_session_id (ce_encrypted_private_key request)) x y) as Henv1
    by (by rewrite Hid).
  destruct (create_encrypted_exec _ _ _ _ _ _ _ _ _ _ _ Henv1 Hc) as [(text' & record' & Ht & Hr & Hp' & He') Hgone].
  cbv zeta in *. rewrite Hid in *.
  apply (rtc_never_rebound _ _ _ _ Henv Hrun) in Ht. apply Hheld in Ht as ->.
  rewrite (json_from_to _ _ Hj) in Hr. cbn [mbind option_bind] in Hr. rewrite session_read in Hr.
  destruct (_ && _); [|done]. injection Hr as <-. split_and!.
  - apply principal_hash_same. congruence.
  - congruence.
  - intros protector2 ring2 wdraws2 m2 principal2 request2 now2 wallet2 w4 w5 Hrun2 Hid2 Hc2.
    assert (forall x y, env x y -> never_rebound (ek_session_id (ce_encrypted_private_key request2)) x y) as Henv2
      by (by rewrite Hid2).
    destruct (create_encrypted_exec _ _ _ _ _ _ _ _ _ _ _ Henv2 Hc2) as [(text2 & _ & Ht2 & _) _].
    rewrite Hid2 in Ht2. apply (rtc_never_rebound _ _ _ _ Henv Hrun2) in Ht2. by rewrite Hgone in Ht2.
Qed.
End Sessions.

(** ** Delivery *)

Section Delivery.
Context `{Sha256, Base64Url, !Base64UrlLaws, RsaOaep}.
Context {C : Type} `{CacheOps C} (held : C -> N -> CacheKey -> option string) `{!CacheLaws C held}.
Context `{JsonText, JsonParse, !JsonTextLaws}.
Context `{SecpKeys, SolanaKeys, EvmCrypto, Aead, !AeadLaws, UuidNonce, SolanaPubkey}.

(** What an answered session sealed; the cache holds nothing else for it. *)
Lemma session_sealed env ring ttl draws m0 owner t0 w session w' :
  (forall x y, env x y -> never_rebound held (sd_session_id draws) x y) ->
  (forall t, held (fst w) t (CACHE_NAMESPACE, sd_session_id draws) = None) ->
  exec env (create_import_session (ring_protector ring) ttl draws m0 owner t0) w (Ok session) w' ->
  exists key sealed text,
    let record := {| cis_version := SESSION_VERSION; cis_principal_hash := principal_hash owner;
                     cis_sealed_server_private_key := sealed; cis_expires_at := wis_expires_at session |} in
    validate_principal owner = Ok tt /\ sd_key draws = Ok key
    /\ seal ring (sd_nonce draws) (session_context (sd_session_id draws) owner) (snd key) = Ok sealed
    /\ (cis_version record <=? 255)%N && (sm_version sealed <=? 255)%N && i64_in_range (wis_expires_at session) = true
    /\ json_to_vec (session_to_json record) = Ok text
    /\ wis_session_id session = sd_session_id draws
    /\ forall t v, held (fst w') t (CACHE_NAMESPACE, sd_session_id draws) = Some v -> v = text.
Proof.
  intros Henv Hfree Hs. unfold create_import_session in Hs. cbv zeta in Hs. world_inv.
  match goal with Hk : sd_key draws = Ok ?k, Hse : mp_seal _ _ _ = Ok ?m, Hj : json_to_vec _ = Ok ?t |- _ => exists k, m, t end.
  cbn [wis_expires_at cis_version]. split_and!; try done.
  - by match goal with Hv : validate_principal _ = Ok ?u |- _ => destruct u end.
  - match goal with Hse : mp_seal _ _ _ = Ok _ |- _ => cbn [mp_seal ring_protector] in Hse; unfold seal in Hse end. run_inv.
    match goal with Hi : i64_checked_add _ _ = Some _ |- _ => unfold i64_checked_add in Hi; case_match; simplify_eq end.
    cbn [sm_version]. by apply andb_true_iff.
  - intros t v Hv. match goal with Hc : co_set_if_absent _ _ _ _ _ _ = _, He : env _ _ |- _ =>
      destruct (set_invents_nothing _ _ _ _ _ _ _ _ Hc _ _ _ Hv) as [Hold|[_ ->]]; [|done];
      apply (Henv _ _ He) in Hold; by rewrite Hfree in Hold end.
Qed.

(** C29: an import delivers the key.  A session was created; then anything may
    have happened to the cache and to the database, short of binding the same
    session identity again.  If the session's owner returns before it expires
    with a well-formed request whose ciphertext opens under the session's
    private key, and the cache still has the session (nobody used it, and it was
    neither expired nor evicted) and hands it out, then the service does exactly
    what the custody does when it is given that private key in the database as
    it is then: it gives the same answer and leaves the same database, also when
    the key ring of sealed material has been extended meanwhile.  The request
    itself runs undisturbed. *)
Theorem import_session_delivers env material_ring material_ring' ring wdraws ttl draws m0 owner t0 session public private m1
    request now key w w1 (c2 : C) (d2 : DB) text c3 :
  ring_ok material_ring -> retains material_ring material_ring' -> fresh_nonce (sd_nonce draws) ->
  sd_key draws = Ok (public, private) ->
  (forall x y, env x y -> never_rebound held (sd_session_id draws) x y) ->
  (forall t, held (fst w) t (CACHE_NAMESPACE, sd_session_id draws) = None) ->
  exec env (create_import_session (ring_protector material_ring) ttl draws m0 owner t0) w (Ok session) w1 ->
  rtc env w1 (c2, d2) ->
  co_take m1 CACHE_NAMESPACE (wis_session_id session) c2 = (Ok (Some text), c3) -> (now < wis_expires_at session)%Z ->
  is_empty (ce_id request) || has_control (ce_id request) = false -> ce_algorithm request = EVM_EOA_ALGORITHM ->
  WalletCreationConfig_validate (import_config request) = Ok tt ->
  ek_session_id (ce_encrypted_private_key request) = wis_session_id session ->
  decrypt_private_key (ce_encrypted_private_key request) private (ce_id request) (ce_algorithm request) = Ok key ->
  run_alone (create_encrypted_wallet (ring_protector material_ring') ring wdraws m1 owner request now) (c2, d2)
  = let direct := run_alone (create_wallet ring wdraws (ce_id request) (ce_algorithm request) key
                                           (import_config request) now) d2 in
    (fst direct, (c3, snd direct)).
Proof.
  intros Hok Hret Hn Hkey Henv Hfree Hs Hrun Ht Hnow Hid Halg Hcfg Hsid Hdec.
  destruct (session_sealed _ _ _ _ _ _ _ _ _ _ Henv Hfree Hs) as (key' & sealed & text' & Ho & Hkey' & Hseal & Hr & Hj & Hdraw & Honly).
  rewrite Hkey in Hkey'. injection Hkey' as <-.
  assert (text = text') as ->.
  { destruct (take_returns _ _ _ _ _ _ Ht) as [Hheld _]. symmetry in Hheld. rewrite Hdraw in Hheld.
    exact (Honly _ _ (rtc_never_rebound held _ _ _ _ Henv Hrun _ _ Hheld)). }
  cbv zeta. unfold create_encrypted_wallet. cbv zeta. rewrite Ho. cbn [glift gbind]. rewrite Hid. cbn [reject_if gbind].
  rewrite (bool_decide_true _ Halg). cbn [negb reject_if gbind]. rewrite Hcfg. cbn [map_err gbind].
  rewrite run_alone_bind, run_on_cache. rewrite Hsid, Ht. cbn [fst snd map_err ok_or gbind glift].
  rewrite (json_from_to _ _ Hj). cbn [mbind option_bind]. rewrite session_read.
  cbn [cis_version cis_sealed_server_private_key cis_expires_at] in Hr |- *. rewrite Hr. cbn [ok_or gbind glift].
  cbn [cis_version cis_principal_hash cis_expires_at cis_sealed_server_private_key].
  rewrite !bool_decide_true by done. rewrite (proj2 (Z.leb_gt _ _) Hnow). cbn [negb orb reject_if gbind glift].
  cbn [mp_open ring_protector]. rewrite Hdraw, (open_retained _ _ _ _ _ _ Hok Hret Hn Hseal). cbn [snd gbind glift].
  rewrite Hdec. cbn [gbind glift]. apply run_in_world.
Qed.
End Delivery.
