(* ===== verification/WalletImportSamples.v ===== *)
(** * An encrypted import

    A session, a private key encrypted under it and the wallet that comes of
    it, in a memory cache and an empty vault.  The hypotheses of [CacheSafety]
    and [WalletImportSafety] are evaluated on it. *)

From S2P Require Import Prelude Text Money Json Wallet Intent Policy Ledger Records Store Budget Program Authorizer Samples CatalogTables WalletStore CatalogStore Sealing SigningService X402Sdk X402Samples WalletKeys CustodySafety CustodySamples Cache CacheSafety WalletImport WalletImportSafety.

#[local] Open Scope string_scope.
#[local] Open Scope vault_scope.

(** A codec that adds a byte for every three, as base64 does. *)
Fixpoint filler (n : nat) : string := match n with O => "" | S m => String "=" (filler m) end.
Definition padded_encode (s : string) : string := s ++ filler (Nat.div (String.length s) 3).
Definition padded_decode (t : string) : option string :=
  let m := String.length t in
  if (Nat.modulo m 4 =? 3)%nat then None else Some (String.substring 0 (3 * Nat.div m 4 + Nat.modulo m 4) t).

Lemma filler_length n : String.length (filler n) = n.
Proof. induction n as [|n IH]; simpl; congruence. Qed.
Lemma substring_prefix s t : String.substring 0 (String.length s) (s ++ t) = s.
Proof. induction s as [|c s IH]; [by destruct t|]. change (String c s ++ t) with (String c (s ++ t)). simpl. by rewrite IH. Qed.
Lemma padded_inverse s : padded_decode (padded_encode s) = Some s.
Proof.
  unfold padded_decode, padded_encode. rewrite string_app_length, filler_length.
  pose proof (Nat.div_mod_eq (String.length s) 3) as Hn. pose proof (Nat.mod_upper_bound (String.length s) 3 ltac:(done)) as Hr.
  set (q := Nat.div (String.length s) 3) in *. set (r := Nat.modulo (String.length s) 3) in *.
  assert (String.length s + q = 4 * q + r)%nat as -> by lia.
  assert (Nat.modulo (4 * q + r) 4 = r) as -> by (rewrite Nat.add_comm, Nat.mul_comm, Nat.Div0.mod_add; apply Nat.mod_small; lia).
  assert (Nat.div (4 * q + r) 4 = q) as -> by (rewrite Nat.mul_comm, Nat.div_add_l by done; rewrite Nat.div_small by lia; lia).
  destruct (Nat.eqb_spec r 3) as [->|_]; [lia|]. rewrite <- Hn. by rewrite substring_prefix.
Qed.

Module SampleImportSession.
Import SampleX402.
#[local] Existing Instance Sample.codec.
#[export] Instance readable_digest : Sha256 := {| sha256 s := "digest of " ++ s |}.
#[local] Existing Instance SampleCustody.secp.
#[local] Existing Instance SampleCustody.solana.
#[local] Existing Instance SampleRing.cipher.
#[local] Existing Instance SampleRing.uuids.

#[export] Instance padded : Base64Url := {| b64_encode := padded_encode; b64_decode := padded_decode |}.
#[export] Instance padded_laws : Base64UrlLaws.
Proof. split. apply padded_inverse. Qed.
(** A transparent encryption: key and label are found in the plaintext's
    padding. *)
#[export] Instance rsa : RsaOaep :=
  {| rsa_from_pkcs8 k := k == "private";
     oaep_decrypt k ct label := if k == "private" then Some (String.substring 0 32 ct) else None |}.

Definition draws : SessionDraws :=
  {| sd_session_id := "session-1"; sd_nonce := SampleRing.nonce; sd_key := Ok ("public", "private") |}.
Definition minutes : N := 300000000000.
Definition sealed : SealedSensitiveMaterial :=
  match seal SampleRing.ring SampleRing.nonce (session_context "session-1" "principal-1") "private" with
  | Ok m => m | Err _ => SampleRing.envelope
  end.
Definition record : CachedWalletImportSession :=
  {| cis_version := 2; cis_principal_hash := principal_hash "principal-1"; cis_sealed_server_private_key := sealed;
     cis_expires_at := 1700000300 |}.
(** A text codec that knows this record. *)
#[export] Instance record_text : JsonText :=
  {| json_to_vec j := if bool_decide (j = session_to_json record) then Ok "session" else Err "unknown" |}.
#[export] Instance record_parse : JsonParse :=
  {| json_from_slice s := if s == "session" then Some (session_to_json record) else None |}.
#[export] Instance record_laws : JsonTextLaws.
Proof.
  split. intros j text. cbn [json_to_vec json_from_slice record_text record_parse]. case_bool_decide as Hj; [|done].
  intros [= <-]. by rewrite Hj.
Qed.

Definition empty_cache : MemoryCache :=
  match memory_cache_new 2 1000 minutes with Ok c => snd (cache_init c) | Err _ => {|
    mc_state := {| cs_entries := ∅; cs_next_access_sequence := 0 |}; mc_initialized := false; mc_closed := false;
    mc_max_entries := 0; mc_max_value_bytes := 0; mc_default_ttl := 0 |} end.
Definition session : WalletImportSession :=
  {| wis_session_id := "session-1"; wis_server_public_key := b64_encode "public"; wis_expires_at := 1700000300 |}.
Definition create_session : Prog World WalletImportSession :=
  create_import_session (ring_protector SampleRing.ring) minutes draws 100 "principal-1" 1700000000.
Definition with_session : World := snd (run_alone create_session (empty_cache, empty_db)).
Lemma session_ok : run_alone create_session (empty_cache, empty_db) = (Ok session, with_session).
Proof. vm_compute. reflexivity. Qed.

Definition request : CreateEncryptedWallet :=
  {| ce_id := "wallet-1"; ce_algorithm := "secp256k1"; ce_enabled := true; ce_budget_unit := None;
     ce_max_per_payment := None; ce_max_per_day := None;
     ce_encrypted_private_key :=
       {| ek_session_id := "session-1"; ek_ciphertext := b64_encode (SampleCustody.private_key ++ filler 352) |} |}.
Definition create (principal : string) : Prog World Wallet :=
  create_encrypted_wallet (ring_protector SampleRing.rotated) SampleCustody.ring SampleCustody.draws1 200 principal request
    1600000000.
Definition wallet_world : World := snd (run_alone (create "principal-1") with_session).
Lemma wallet_ok : run_alone (create "principal-1") with_session = (Ok SampleCustody.created_wallet, wallet_world).
Proof. vm_compute. reflexivity. Qed.

Example second_use_refused :
  fst (run_alone (create "principal-1") wallet_world) = Err (NotFound "wallet import session").
Proof. vm_compute. reflexivity. Qed.
Example stranger_refused : fst (run_alone (create "principal-2") with_session) = Err Forbidden.
Proof. vm_compute. reflexivity. Qed.

Lemma nothing_rebound (x y : World (C := MemoryCache)) : x = y -> never_rebound cached (sd_session_id draws) x y.
Proof. by intros ->. Qed.

Lemma import_session_one_use_witness :
  ("principal-1" = "principal-1" \/ "principal-1" <> "principal-1" /\ sha256 "principal-1" = sha256 "principal-1")
  /\ (1600000000 < wis_expires_at session)%Z
  /\ forall protector2 ring2 wdraws2 m2 principal2 request2 now2 wallet2 w4 w5,
       rtc eq wallet_world w4 -> ek_session_id (ce_encrypted_private_key request2) = wis_session_id session ->
       ~ exec eq (create_encrypted_wallet protector2 ring2 wdraws2 m2 principal2 request2 now2) w4 (Ok wallet2) w5.
Proof.
  apply (import_session_one_use cached eq (ring_protector SampleRing.ring) (ring_protector SampleRing.rotated)
           SampleCustody.ring SampleCustody.draws1 minutes draws 100 "principal-1" 1700000000 session 200 "principal-1" request
           1600000000 SampleCustody.created_wallet (empty_cache, empty_db) with_session with_session wallet_world).
  - exact nothing_rebound.
  - intros t. reflexivity.
  - apply run_alone_exec_eq; [apply _|]. exact session_ok.
  - constructor.
  - reflexivity.
  - apply run_alone_exec_eq; [apply _|]. exact wallet_ok.
Defined.

(** Before the owner returns, another session is stored and a client is
    inserted. *)
Definition other_calls : Result CacheError bool * MemoryCache :=
  cache_set_if_absent 150 CACHE_NAMESPACE "session-2" "other" minutes (fst with_session).
Definition later_db : DB := match insert_client Sample.client empty_db with Ok (_, d) => d | Err _ => empty_db end.
Lemma other_calls_unbound : never_rebound cached (sd_session_id draws) with_session (snd other_calls, later_db).
Proof.
  intros t v Hv.
  assert (co_set_if_absent 150 CACHE_NAMESPACE "session-2" "other" minutes (fst with_session) = (fst other_calls, snd other_calls))
    as Hc by apply surjective_pairing.
  destruct (set_invents_nothing _ _ _ _ _ _ _ _ Hc _ _ _ Hv) as [Hold|[Hk _]]; [exact Hold|discriminate Hk].
Qed.

Lemma import_session_delivers_witness :
  run_alone (create "principal-1") (snd other_calls, later_db)
  = (let direct := run_alone (create_wallet SampleCustody.ring SampleCustody.draws1 "wallet-1" "secp256k1"
                                SampleCustody.private_key (import_config request) 1600000000) later_db in
     (fst direct, (snd (cache_take 200 CACHE_NAMESPACE "session-1" (snd other_calls)), snd direct)))
  /\ fst (run_alone (create "principal-1") (snd other_calls, later_db)) = Ok SampleCustody.created_wallet.
Proof.
  split; [|vm_compute; reflexivity].
  apply (import_session_delivers cached (never_rebound cached (sd_session_id draws)) SampleRing.ring SampleRing.rotated
           SampleCustody.ring SampleCustody.draws1 minutes draws 100 "principal-1" 1700000000 session "public" "private" 200 request
           1600000000 SampleCustody.private_key (empty_cache, empty_db) with_session (snd other_calls) later_db "session").
  - split; [by eexists|]. intros id key Hk. cbn [kr_keys SampleRing.ring] in Hk. apply lookup_singleton_Some in Hk as [<- <-]. reflexivity.
  - unfold retains. apply insert_subseteq. reflexivity.
  - split; reflexivity.
  - reflexivity.
  - intros x y Hxy. exact Hxy.
  - intros t. reflexivity.
  - apply run_alone_exec_eq; [apply _|]. exact session_ok.
  - apply rtc_once. exact other_calls_unbound.
  - vm_compute. reflexivity.
  - reflexivity.
  - reflexivity.
  - reflexivity.
  - reflexivity.
  - reflexivity.
  - vm_compute. reflexivity.
Defined.

(** ** A full cache *)

Definition full_calls : list cache_call :=
  [CallInit; CallSet 0 "n" "a" "1" minutes; CallSet 10 "n" "b" "2" minutes; CallGet 20 "n" "a"].
Definition two_entries : MemoryCache :=
  match memory_cache_new 2 1000 minutes with Ok c => c | Err _ => empty_cache end.
Definition full : MemoryCache := foldl run_call two_entries full_calls.
(** Only the entry that was not read can be the evicted one: it was written
    by the third call, the other one was read by the fourth. *)
Lemma cache_set_evicts_lru_witness :
  let c' := snd (cache_set 30 "n" "c" "3" minutes full) in
  (forall t, cached c' t ("n", "c") = if (t <? 30 + N.min minutes (mc_default_ttl full))%N then Some "3" else None)
  /\ (forall t, (30 <= t)%N -> cached c' t ("n", "b") = None)
  /\ exists i0 i, last_use (uses two_entries full_calls) ("n", "b") i0
       /\ last_use (uses two_entries full_calls) ("n", "a") i /\ i0 < i.
Proof.
  cbv zeta.
  destruct (cache_set_evicts_lru 2 1000 minutes two_entries full_calls 30 "n" "c" "3" minutes full
              (snd (cache_set 30 "n" "c" "3" minutes full))) as (evicted & Hself & Hother & Hev & _).
  - reflexivity.
  - vm_compute. discriminate.
  - reflexivity.
  - vm_compute. reflexivity.
  - assert (evicted = Some ("n", "b")) as ->.
    { pose proof (Hother 30%N ("n", "b") ltac:(lia) ltac:(discriminate)) as Hb.
      destruct (decide (evicted = Some ("n", "b"))) as [|Hne]; [assumption|]. rewrite bool_decide_false in Hb by exact Hne.
      vm_compute in Hb. discriminate Hb. }
    split; [exact Hself|]. split.
    + intros t Ht. rewrite Hother by (try exact Ht; discriminate). rewrite bool_decide_true by reflexivity. reflexivity.
    + destruct (Hev _ eq_refl) as (_ & _ & _ & i0 & Hi0 & Hall).
      destruct (Hall ("n", "a")) as (i & Hi & Hlt); [discriminate|vm_compute; eexists; reflexivity|].
      exists i0, i. split; [exact Hi0|]. split; [exact Hi|exact Hlt].
Defined.
(** The entry that was not read is the one that goes. *)
Example unread_entry_evicted :
  let c := snd (cache_set 30 "n" "c" "3" minutes full) in
  cached c 30 ("n", "a") = Some "1" /\ cached c 30 ("n", "b") = None /\ cached c 30 ("n", "c") = Some "3".
Proof. vm_compute. split_and!; reflexivity. Qed.
End SampleImportSession.
